(* ===== verification/_CoqProject ===== *)
-Q . S2P
Prelude.v
Riscv.v
KString.v
Kalloc.v
ProcDefs.v
Vm.v
VmTree.v
VmMap.v
UserCopy.v
TrapHandler.v
UserMem.v
RingBuf.v
Pipe.v
Uart.v
Console.v
Spinlock.v
SleepWake.v
Block.v
Sleeplock.v
Ring.v
Bio.v
BioSpec.v
Virtio.v
VirtioInv.v
VirtioSteps.v
VirtioSpec.v
VirtioLive.v
Log.v
LogSpec.v
LogTxn.v
LogSpace.v
BlockIO.v
BlockTx.v
Fs.v
FsBlocks.v
FsInode.v
FsData.v
FsWrite.v
FsTxn.v
FsSpec.v
FsTable.v
FsPath.v
FsDir.v
World.v
File.v
FileSpec.v
Proc.v
ProcSlots.v
ProcLife.v
Exec.v
Sysfile.v
Syscall.v
Grep.v
Sh.v
ShParse.v
ShPrint.v
ShWords.v
ShRun.v
Umalloc.v
UmallocList.v
UmallocSpec.v
UmallocTrace.v
Ulib.v
Printf.v
Uprintf.v
PrintfSpec.v
ShMain.v
Tools.v
Hart.v
Sched.v
HartSpec.v
Trap.v
Boot.v
Asm.v
AsmSpec.v
AsmSwitch.v
TrapCycle.v
Initcode.v
Debug.v
UserProgs.v
