(* ===== verification/Prelude.v ===== *)
(** * Verification of the novice kernel

    The program under src/ is a small multiprocessor Unix kernel for RISC-V and
    its user programs.  This library models the kernel's own logic as executable
    functions on explicit states and proves what makes it correct.

    ** How code becomes definitions

    A kernel routine is a function from a state to an [outcome] (this file): it
    returns ([Ret]), panics with the message of the source ([Panic]), goes to
    sleep ([Blocked]) or, in the model only, exhausts a loop bound ([Fuel]).
    Machine integers are [Z] with the wrap-around of their C type written out
    ([u64], [u32], [s32], ...).  Memory is a finite map from addresses to bytes
    ([Riscv]); multi-byte loads and stores are little-endian; page tables live
    in that memory.  Pointers to entries of a static table (buffers, inodes,
    files, processes) are indices, the null pointer is 0 or [None].  Sections of
    code under a spinlock are atomic steps, and a routine that drops its lock in
    the middle is split there ([Kalloc.kfree], [Log.end_op], [Fs.iput],
    [Proc.fork], [Proc.exit]); spinlocks themselves are modelled down to their
    loads and stores ([Spinlock]), and so is the protocol of sleep and wakeup,
    lock section by lock section ([SleepWake]).  Counters of type [int] wrap
    around; the theorems about them say how far they may count.  Disk writes and wakeups are recorded in a
    trace, so that "the machine stops here" is a prefix of the trace.

    ** Files, and the sources they model

    Prelude     outcomes, machine integers, tactics, lemmas on lists and ranges.
    Riscv       include/riscv.h, memlayout.h: bytes, addresses, PTE fields, CSRs.
    KString     kernel/string.c.
    Kalloc      kernel/kalloc.c: the page allocator with reference counts.
    ProcDefs    include/proc.h, param.h, trap frames.
    Vm          kernel/vm.c; VmTree: page tables as trees; VmMap: mappages and
                uvmunmap; UserCopy: walkaddr, copyin, copyout.
    TrapHandler kernel/trap_handler.c, the alarm system calls, argraw.
    UserMem     the interface to user memory (class [UserMem]).
    RingBuf     circular buffers; Pipe: kernel/pipe.c; Uart: kernel/uart.c (over
                a class of devices); Console: kernel/console.c.
    Spinlock    kernel/spinlock.c with its interleavings.
    SleepWake   sleep and wakeup of kernel/proc.c with their interleavings.
    Block       disk blocks and their fields; Sleeplock: kernel/sleeplock.c.
    Ring        circular lists; Bio: kernel/bio.c; BioSpec: the buffer cache as a
                transparent cache of the disk.
    Virtio      kernel/virtio_disk.c and include/virtio.h: the rings in shared
                memory, the driver cut where it gives up its lock, its interrupt
                handler, the steps of the device; VirtioInv, VirtioSteps: the
                invariant and its preservation; VirtioSpec: the driver and the
                device implement an atomic disk; VirtioLive: requests complete.
    Log         kernel/log.c; LogSpec: commit, crash and recovery; LogTxn: whole
                transactions; LogSpace: the reservation of log space.
    BlockIO     the operations the file system uses of the log and the cache
                (class [BlockIO]); BlockTx: what it may rely on inside a
                transaction (class [BlockTx]), with the kernel as an instance.
    Fs          kernel/fs.c over [BlockIO].  FsBlocks: bitmap, balloc, bfree;
                FsInode: the block tree of an inode, bmap; FsData: readi and one
                turn of writei; FsWrite: iupdate, writei; FsTxn: operations on
                the real log, crash atomicity; FsSpec: the theorems; FsTable:
                the inode table; FsPath: path names; FsDir: directories.
    World       the state above the block layer and its monad [K].
    File        kernel/file.c and pipealloc; FileSpec: reference counts of open
                files.
    Proc        kernel/proc.c and the parts of vm.c about kernel page tables;
                ProcSlots: what each operation does to the process table;
                ProcLife: the process table over whole runs.
    Exec        kernel/exec.c; Sysfile: kernel/sysfile.c; Syscall:
                kernel/syscall.c, sysproc.c.
    Grep        user/grep.c: the regular-expression matcher.
    Sh          user/sh.c: tokens, parser, nulterminate, runcmd; ShParse: the
                parser ends; ShPrint, ShWords: printing and reading back;
                ShRun: which programs a command starts, on which descriptors.
    ShMain      getcmd and main of user/sh.c.
    Umalloc     user/umalloc.c; UmallocList, UmallocSpec: the free list;
                UmallocTrace: runs of malloc and free.
    Ulib        user/ulib.c; Printf, Uprintf: kernel/ and user/printf.c;
                PrintfSpec: numerals, atoi and what a format means.
    Tools       user/wc.c, user/cat.c, user/echo.c.
    Hart        the registers of a hart (include/riscv.h), kernel/start.c, the
                timer vector of kernel/kernelvec.S, kernel/plic.c; HartSpec:
                boot and timer interrupts.  Boot: kernel/main.c.  Sched: the
                scheduler of kernel/proc.c on a hart and the process table.
    Trap        kernel/trap.c on the registers of a hart and the kernel state.
    Asm         kernel/trampoline.S, swtch.S, kernelvec.S, entry.S as lists of
                instructions on a hart and memory behind Sv39 translation;
                AsmSpec: frames, uservec and userret; AsmSwitch: swtch,
                kernelvec, entry.S; TrapCycle: usertrapret of kernel/trap.c with
                the trampoline.  Initcode: the bytes of initcode in kernel/proc.c
                as a program.
    Debug       the output of strace (kernel/syscall.c), vmprint_rev, procdump
                and backtrace.
    UserProgs   user/init.c, kill.c, ln.c, mkdir.c, rm.c, sleep.c, strace.c,
                sysinfo.c, zombie.c, ls.c.

    ** What is proved

    Memory: [kalloc] hands out each page once ([Kalloc]); [mappages] and
    [uvmunmap] change exactly the translations of their range ([VmMap]);
    [copyout] then [copyin] returns the bytes ([UserCopy]); a page fault in the
    lazily grown heap gets a cleared page ([TrapHandler]).
    Devices and pipes: each ring buffer is a queue between its two ends, over
    whole traces of operations, and what a reader or writer gets is what was
    copied to or from its memory ([Pipe], [Uart], [Console]).
    Storage: the buffer cache is transparent ([BioSpec]); a transaction is one
    atomic, durable update under crashes, also during recovery ([LogTxn]);
    operations that are admitted and keep to MAXOPBLOCKS blocks have room in the
    log if the area on the disk is larger than LOGSIZE, and in an area of LOGSIZE
    blocks the thirtieth block panics ([LogSpace]); on top of the interface
    [BlockTx], [balloc], [bmap], [readi], [writei], [iupdate], [ilock], [iget],
    [iput], [dirlookup], [dirlink] and [namei] meet their specifications, and
    with the kernel's instance of [BlockTx] a write is atomic on the disk
    ([FsTxn], [FsSpec]).
    Concurrency: mutual exclusion and interrupt discipline of spinlocks
    ([Spinlock]); no wakeup is lost and every sleeper gets on ([SleepWake]).
    The disk driver, with any number of processes and a device that is told of
    requests through its notify register, serves them in any order and raises
    an interrupt until it is acknowledged, behaves as a disk with atomic reads
    and writes, and every request is answered, the work left shrinking at every
    step ([VirtioSpec], [VirtioLive]); this is the contract
    [Bio.disk_rw] of the buffer cache.
    Processes: over every interleaving of their lock sections pids are distinct,
    every process has a parent that can wait for it or is still in the hands of
    the [fork] that makes it, free slots hold nothing; [exit] and [wait] hand
    over a zombie ([ProcLife]); a pass of the scheduler dispatches every process
    that stays runnable ([Sched]).  Open files and inodes are counted exactly
    while their counters do not overflow ([FileSpec], [FsTable]).
    User code: the matcher of grep decides the language of its patterns
    ([Grep]); the parser of the shell ends on every line and reads back what the
    grammar prints, and [runcmd] starts the right programs with the right
    descriptors ([ShWords], [ShRun]); [malloc] and [free] keep blocks apart and
    lose no memory while [sbrk] refuses nothing, and hand out memory past the
    break when it does ([UmallocTrace]); [printf] of the kernel and of the
    library print what a format means, for the directives their comments name
    ([PrintfSpec]).
    Machine: [start] arms the timer of each hart and every timer interrupt gives
    back the interrupted code ([HartSpec]); no other hart runs before hart 0 has
    initialised the kernel ([Boot]).  A user program has its registers back
    after a trap, and usertrapret leaves in the trap frame what the next trap
    needs, through the translation that proc_pagetable makes ([AsmSpec],
    [TrapCycle]); [swtch] resumes a thread where it called it,
    and an interrupt, through [kernelvec] and [kerneltrap] and also with other
    threads in between, is invisible to the kernel code it interrupts
    ([AsmSwitch]).  The first program calls exec("/init") ([Initcode]), and init
    runs one shell at a time ([UserProgs]).

    ** Bounds

    A loop that is not structural takes fuel computed from its arguments: the
    number of pages or blocks of a request plus one or two, the number of entries
    of a table, the length of a path.  The theorems about these routines state
    that they return, so the fuel suffices.  [wait], [sleep]ing calls and the
    scheduler do not loop in the model: one turn is a function whose outcome is
    [Blocked] when the code would sleep.

    ** Not modelled

    Instruction fetch and caches: assembly routines run from their first
    instruction to the jump at their end.
    Weak memory: loads and stores are sequentially consistent.  In the kernel
    state above the block layer the disk takes one request at a time, so the
    disk interrupt is modelled with the driver and not in [Trap.devintr].  The
    main functions of grep, wc and cat beyond their loops, and in the shell the
    error messages and failures of fork, pipe, exec and malloc.  The RAM disk, which
    the build leaves out; the system-call stubs that usys.pl generates; the test
    programs, which exercise the kernel from user space; and the build.  The
    addresses the linker chooses are the class [Layout]. *)

From stdpp Require Import base list numbers gmap strings.
From Stdlib Require Import ZArith Lia.

#[local] Open Scope Z_scope.

(** ** Outcomes of kernel code

    Every kernel routine is a function from a state to an [outcome]: it returns
    normally, it calls [panic(msg)] (which never returns), it waits for an
    event that only another process or a device can deliver, or the model's
    loop bound runs out ([Fuel]; theorems show that this never happens). *)
Inductive outcome (A : Type) : Type :=
| Ret (a : A)
| Panic (msg : string)
| Blocked (why : string)
| Fuel.

Arguments Ret {A} _.
Arguments Panic {A} _%_string.
Arguments Blocked {A} _%_string.
Arguments Fuel {A}.

#[global] Instance outcome_ret : MRet outcome := @Ret.
#[global] Instance outcome_bind : MBind outcome := fun A B f m =>
  match m with
  | Ret a => f a
  | Panic msg => Panic msg
  | Blocked why => Blocked why
  | Fuel => Fuel
  end.

Lemma bind_Ret {A B} (m : outcome A) (f : A -> outcome B) (b : B) :
  m ≫= f = Ret b <-> exists a, m = Ret a /\ f a = Ret b.
Proof.
  split.
  - destruct m; simpl; intros H; try discriminate; eauto.
  - by intros (a & -> & H).
Qed.

(** ** Machine integers *)

(** The value of a C expression of type [uint64], [uint] (32 bits), [ushort],
    [uchar], and of the signed types [int], [short] and [char]. *)
Definition u64 (z : Z) : Z := z mod 2 ^ 64.
Definition u32 (z : Z) : Z := z mod 2 ^ 32.
Definition u16 (z : Z) : Z := z mod 2 ^ 16.
Definition u8 (z : Z) : Z := z mod 2 ^ 8.
Definition s32 (z : Z) : Z := (z + 2 ^ 31) mod 2 ^ 32 - 2 ^ 31.
Definition s16 (z : Z) : Z := (z + 2 ^ 15) mod 2 ^ 16 - 2 ^ 15.
Definition s8 (z : Z) : Z := (z + 2 ^ 7) mod 2 ^ 8 - 2 ^ 7.

#[global] Arguments u64 : simpl never.
#[global] Arguments u32 : simpl never.
#[global] Arguments u16 : simpl never.
#[global] Arguments u8 : simpl never.
#[global] Arguments s32 : simpl never.
#[global] Arguments s16 : simpl never.
#[global] Arguments s8 : simpl never.

Lemma u64_small z : 0 <= z < 2 ^ 64 -> u64 z = z.
Proof. apply Z.mod_small. Qed.
Lemma u32_small z : 0 <= z < 2 ^ 32 -> u32 z = z.
Proof. apply Z.mod_small. Qed.
Lemma u16_small z : 0 <= z < 2 ^ 16 -> u16 z = z.
Proof. apply Z.mod_small. Qed.
Lemma u8_small z : 0 <= z < 2 ^ 8 -> u8 z = z.
Proof. apply Z.mod_small. Qed.
Lemma s32_small z : - 2 ^ 31 <= z < 2 ^ 31 -> s32 z = z.
Proof. unfold s32. intros H. rewrite Z.mod_small; lia. Qed.
Lemma s16_small z : - 2 ^ 15 <= z < 2 ^ 15 -> s16 z = z.
Proof. unfold s16. intros H. rewrite Z.mod_small; lia. Qed.

Lemma u64_range z : 0 <= u64 z < 2 ^ 64.
Proof. apply Z.mod_pos_bound. lia. Qed.
Lemma u16_range z : 0 <= u16 z < 2 ^ 16.
Proof. apply Z.mod_pos_bound. lia. Qed.
Lemma u32_range z : 0 <= u32 z < 2 ^ 32.
Proof. apply Z.mod_pos_bound. lia. Qed.
Lemma u8_range z : 0 <= u8 z < 2 ^ 8.
Proof. apply Z.mod_pos_bound. lia. Qed.
Lemma s32_range z : - 2 ^ 31 <= s32 z < 2 ^ 31.
Proof. unfold s32. pose proof (Z.mod_pos_bound (z + 2 ^ 31) (2 ^ 32)). lia. Qed.

Create HintDb kernel.
#[export] Hint Resolve u64_range u32_range u8_range s32_range : kernel.

(** [b != 0] of C on the result of a bitwise test. *)
Definition nz (z : Z) : bool := negb (z =? 0).

Lemma nz_true z : nz z = true <-> z <> 0.
Proof. unfold nz. rewrite negb_true_iff. apply Z.eqb_neq. Qed.
Lemma nz_false z : nz z = false <-> z = 0.
Proof. unfold nz. rewrite negb_false_iff. apply Z.eqb_eq. Qed.

(** ** Tactics *)

(** Split every conjunction and existential of the context. *)
Ltac split_ands :=
  repeat match goal with
    | H : _ /\ _ |- _ => destruct H
    | H : exists _, _ |- _ => destruct H
    end.

(** Turn boolean tests of the context into propositions. *)
Ltac bool_to_prop :=
  repeat match goal with
    | H : (_ && _)%bool = true |- _ => apply andb_true_iff in H; destruct H
    | H : (_ && _)%bool = false |- _ => apply andb_false_iff in H
    | H : (_ || _)%bool = true |- _ => apply orb_true_iff in H
    | H : (_ || _)%bool = false |- _ => apply orb_false_iff in H; destruct H
    | H : negb _ = true |- _ => apply negb_true_iff in H
    | H : negb _ = false |- _ => apply negb_false_iff in H
    | H : (_ <? _) = true |- _ => apply Z.ltb_lt in H
    | H : (_ <? _) = false |- _ => apply Z.ltb_ge in H
    | H : (_ <=? _) = true |- _ => apply Z.leb_le in H
    | H : (_ <=? _) = false |- _ => apply Z.leb_gt in H
    | H : (_ =? _) = true |- _ => apply Z.eqb_eq in H
    | H : (_ =? _) = false |- _ => apply Z.eqb_neq in H
    | H : nz _ = true |- _ => apply nz_true in H
    | H : nz _ = false |- _ => apply nz_false in H
    end.

(** Case analysis on the tests a goal branches on. *)
Ltac case_if :=
  match goal with
  | |- context [if ?b then _ else _] =>
      lazymatch type of b with
      | bool => let E := fresh "E" in destruct b eqn:E
      end
  end; bool_to_prop; simplify_eq.
Ltac case_if_in H :=
  match type of H with
  | context [if ?b then _ else _] =>
      lazymatch type of b with
      | bool => let E := fresh "E" in destruct b eqn:E
      end
  end; bool_to_prop; simplify_eq.

(** Walk through a monadic hypothesis [m ≫= f = Ret x]. *)
Ltac inv_bind H :=
  let a := fresh "r" in let E := fresh "E" in
  apply bind_Ret in H as (a & E & H).

(** Decide a test of the goal by arithmetic. *)
Ltac test_true b := replace b with true by (symmetry; lia).
Ltac test_false b := replace b with false by (symmetry; lia).
Ltac lia_tests :=
  repeat match goal with
    | |- context [?a <? ?b] =>
        first [ rewrite (proj2 (Z.ltb_lt a b)) by lia | rewrite (proj2 (Z.ltb_ge a b)) by lia ]
    | |- context [?a <=? ?b] =>
        first [ rewrite (proj2 (Z.leb_le a b)) by lia | rewrite (proj2 (Z.leb_gt a b)) by lia ]
    | |- context [?a =? ?b] =>
        first [ rewrite (proj2 (Z.eqb_eq a b)) by lia | rewrite (proj2 (Z.eqb_neq a b)) by lia ]
    end; simpl.

(** [lia] with division and modulo by constants. *)
Ltac dlia := Z.div_mod_to_equations; lia.

(** ** Counted loops

    [for (i = lo; i < lo + n; i++) body] without early exit. *)
Definition for_range {S} (lo n : Z) (body : S -> Z -> S) (s : S) : S :=
  fold_left body (seqZ lo n) s.

Lemma seqZ_snoc lo n : 0 <= n -> seqZ lo (Z.succ n) = seqZ lo n ++ [lo + n].
Proof.
  intros H. rewrite <- Z.add_1_r, seqZ_app by lia. f_equal.
Qed.

(** Induction on the number of completed iterations. *)
Lemma for_range_ind {S} (P : Z -> S -> Prop) lo n body s :
  0 <= n ->
  P 0 s ->
  (forall k t, 0 <= k < n -> P k t -> P (k + 1) (body t (lo + k))) ->
  P n (for_range lo n body s).
Proof.
  intros Hn H0 Hstep.
  assert (Hall : forall m, 0 <= m -> m <= n -> P m (for_range lo m body s)).
  { apply (natlike_ind (fun m => m <= n -> P m (for_range lo m body s))).
    - intros _. exact H0.
    - intros m Hm IH Hle. unfold for_range. rewrite seqZ_snoc by lia.
      rewrite fold_left_app. simpl. rewrite <- Z.add_1_r.
      apply Hstep; [lia|]. apply IH. lia. }
  apply Hall; lia.
Qed.

(** ** Lists *)

Lemma NoDup_bounded_length (l : list Z) (lo hi : Z) :
  NoDup l -> Forall (fun x => lo <= x < hi) l -> Z.of_nat (length l) <= Z.max 0 (hi - lo).
Proof.
  intros Hnd Hb.
  assert (Hincl : l ⊆ seqZ lo (hi - lo)).
  { intros x Hx. apply elem_of_seqZ. rewrite Forall_forall in Hb. apply Hb in Hx. lia. }
  pose proof (submseteq_length _ _ (NoDup_submseteq l _ Hnd Hincl)) as Hlen.
  rewrite length_seqZ in Hlen. lia.
Qed.
