(* ===== verification/Riscv.v ===== *)
(** * The RISC-V machine as the kernel sees it

    Constants and macros of kernel/include/riscv.h, memlayout.h and param.h,
    the layout symbols the linker script provides, and byte-addressed physical
    memory with little-endian loads and stores. *)

From S2P Require Import Prelude.
From stdpp Require Import base list numbers gmap strings.
From Stdlib Require Import ZArith Lia.

#[local] Open Scope Z_scope.

(** ** Pages (riscv.h) *)

Definition PGSIZE : Z := 4096.
Definition PGSHIFT : Z := 12.

Definition PGROUNDUP (sz : Z) : Z := Z.land (u64 (sz + PGSIZE - 1)) (u64 (Z.lnot (PGSIZE - 1))).
Definition PGROUNDDOWN (a : Z) : Z := Z.land a (u64 (Z.lnot (PGSIZE - 1))).

(** ** Page-table entries (riscv.h) *)

Definition PTE_V : Z := Z.shiftl 1 0.
Definition PTE_R : Z := Z.shiftl 1 1.
Definition PTE_W : Z := Z.shiftl 1 2.
Definition PTE_X : Z := Z.shiftl 1 3.
Definition PTE_U : Z := Z.shiftl 1 4.

Definition PA2PTE (pa : Z) : Z := u64 (Z.shiftl (Z.shiftr pa 12) 10).
Definition PTE2PA (pte : Z) : Z := u64 (Z.shiftl (Z.shiftr pte 10) 12).
Definition PTE_FLAGS (pte : Z) : Z := Z.land pte 1023.

Definition PXMASK : Z := 511.
Definition PXSHIFT (level : Z) : Z := PGSHIFT + 9 * level.
Definition PX (level va : Z) : Z := Z.land (Z.shiftr va (PXSHIFT level)) PXMASK.

Definition MAXVA : Z := Z.shiftl 1 (9 + 9 + 9 + 12 - 1).

(** ** Memory layout (memlayout.h) *)

(** Fields of [sstatus], and the value of [satp] for a page table. *)
Definition SSTATUS_SPP : Z := Z.shiftl 1 8.
Definition SSTATUS_SPIE : Z := Z.shiftl 1 5.
Definition SSTATUS_SIE : Z := Z.shiftl 1 1.
Definition SATP_SV39 : Z := Z.shiftl 8 60.
Definition MAKE_SATP (pagetable : Z) : Z := Z.lor SATP_SV39 (Z.shiftr pagetable 12).

Definition UART0 : Z := 268435456.
Definition VIRTIO0 : Z := 268439552.
Definition CLINT : Z := 33554432.
Definition PLIC : Z := 201326592.
Definition UART0_IRQ : Z := 10.
Definition VIRTIO0_IRQ : Z := 1.
Definition KERNBASE : Z := 2147483648.
Definition PHYSTOP : Z := KERNBASE + 128 * 1024 * 1024.
Definition TRAMPOLINE : Z := MAXVA - PGSIZE.
Definition KSTACK (p : Z) : Z := TRAMPOLINE - (p + 1) * 2 * PGSIZE.
Definition TRAPFRAME : Z := TRAMPOLINE - PGSIZE.

(** ** Sizes (param.h) *)

Definition NPROC : Z := 64.
Definition NCPU : Z := 8.
Definition NOFILE : Z := 16.
Definition NFILE : Z := 100.
Definition NINODE : Z := 50.
Definition NDEV : Z := 10.
Definition ROOTDEV : Z := 1.
Definition MAXARG : Z := 32.
Definition MAXOPBLOCKS : Z := 10.
Definition LOGSIZE : Z := MAXOPBLOCKS * 3.
Definition NBUF : Z := MAXOPBLOCKS * 3.
Definition FSSIZE : Z := 200000.
Definition MAXPATH : Z := 128.
Definition MAXDEPTH : Z := 10.

(** ** Symbols the linker script defines

    [end], [etext] and [trampoline] are addresses chosen by kernel.ld; the
    development is parametric in them.  [LayoutOk] states what kernel.ld
    promises: the text starts at KERNBASE, [etext] and the trampoline page are
    page aligned, and the kernel image ends below PHYSTOP. *)
Class Layout : Type := {
  kend : Z;
  etext : Z;
  trampoline : Z
}.

Class LayoutOk (L : Layout) : Prop := {
  etext_aligned : etext mod PGSIZE = 0;
  trampoline_aligned : trampoline mod PGSIZE = 0;
  trampoline_text : KERNBASE <= trampoline < etext;
  etext_kend : etext <= kend;
  kend_phystop : kend <= PHYSTOP
}.

(** ** Rounding lemmas *)

Lemma land_page_mask a : 0 <= a < 2 ^ 64 -> Z.land a (u64 (Z.lnot (PGSIZE - 1))) = a - a mod PGSIZE.
Proof.
  intros Ha.
  assert (Hm : u64 (Z.lnot (PGSIZE - 1)) = Z.ldiff (Z.ones 64) (Z.ones 12)) by reflexivity.
  rewrite Hm. rewrite Z.ldiff_land, Z.land_assoc, Z.land_ones by lia.
  rewrite Z.mod_small by lia. rewrite <- Z.ldiff_land, Z.ldiff_ones_r by lia.
  rewrite Z.shiftl_mul_pow2, Z.shiftr_div_pow2 by lia.
  change (2 ^ 12) with PGSIZE. unfold PGSIZE. dlia.
Qed.

Lemma PGROUNDDOWN_spec a : 0 <= a < 2 ^ 64 -> PGROUNDDOWN a = a - a mod PGSIZE.
Proof. apply land_page_mask. Qed.

Lemma PGROUNDUP_spec a :
  0 <= a <= 2 ^ 64 - PGSIZE -> PGROUNDUP a = (a + PGSIZE - 1) - (a + PGSIZE - 1) mod PGSIZE.
Proof.
  intros Ha. unfold PGROUNDUP. unfold PGSIZE in *.
  rewrite u64_small by lia. apply land_page_mask. lia.
Qed.

Lemma PGROUNDDOWN_aligned a : 0 <= a < 2 ^ 64 -> PGROUNDDOWN a mod PGSIZE = 0.
Proof. intros H. rewrite PGROUNDDOWN_spec by done. unfold PGSIZE. dlia. Qed.

Lemma PGROUNDDOWN_id a : 0 <= a < 2 ^ 64 -> a mod PGSIZE = 0 -> PGROUNDDOWN a = a.
Proof. intros H H0. rewrite PGROUNDDOWN_spec, H0 by done. lia. Qed.

Lemma PGROUNDDOWN_bounds a : 0 <= a < 2 ^ 64 -> 0 <= PGROUNDDOWN a <= a /\ a < PGROUNDDOWN a + PGSIZE.
Proof. intros H. rewrite PGROUNDDOWN_spec by done. unfold PGSIZE. dlia. Qed.

Lemma PGROUNDUP_aligned a : 0 <= a <= 2 ^ 64 - PGSIZE -> PGROUNDUP a mod PGSIZE = 0.
Proof. intros H. rewrite PGROUNDUP_spec by done. unfold PGSIZE. dlia. Qed.

Lemma PGROUNDUP_bounds a : 0 <= a <= 2 ^ 64 - PGSIZE -> a <= PGROUNDUP a < a + PGSIZE.
Proof. intros H. rewrite PGROUNDUP_spec by done. unfold PGSIZE. dlia. Qed.

Lemma PGROUNDUP_id a : 0 <= a <= 2 ^ 64 - PGSIZE -> a mod PGSIZE = 0 -> PGROUNDUP a = a.
Proof. intros H H0. rewrite PGROUNDUP_spec by done. unfold PGSIZE in *. dlia. Qed.

(** ** Page-table entries: what the bit fields hold *)

Lemma PX_range level va : 0 <= PX level va < 512.
Proof.
  unfold PX, PXMASK. change 511 with (Z.ones 9). rewrite Z.land_ones by lia.
  apply Z.mod_pos_bound. lia.
Qed.

Lemma PX_div level va : 0 <= level -> PX level va = (va / (PGSIZE * 512 ^ level)) mod 512.
Proof.
  intros H. unfold PX, PXMASK, PXSHIFT, PGSHIFT, PGSIZE.
  change 511 with (Z.ones 9). rewrite Z.land_ones, Z.shiftr_div_pow2 by lia.
  rewrite Z.pow_add_r, Z.pow_mul_r by lia. reflexivity.
Qed.

(** The three indices and the offset determine a virtual address. *)
Lemma PX_inj va1 va2 :
  0 <= va1 < MAXVA -> 0 <= va2 < MAXVA -> va1 mod PGSIZE = 0 -> va2 mod PGSIZE = 0 ->
  PX 2 va1 = PX 2 va2 -> PX 1 va1 = PX 1 va2 -> PX 0 va1 = PX 0 va2 -> va1 = va2.
Proof.
  rewrite !PX_div by lia. unfold MAXVA, PGSIZE.
  change (Z.shiftl 1 (9 + 9 + 9 + 12 - 1)) with 274877906944.
  change (4096 * 512 ^ 2) with 1073741824. change (4096 * 512 ^ 1) with 2097152.
  change (4096 * 512 ^ 0) with 4096. intros. dlia.
Qed.

Lemma MAXVA_u64 : MAXVA <= 2 ^ 64 - PGSIZE.
Proof. vm_compute. discriminate. Qed.

(** A page-aligned physical address survives the trip through a PTE, whatever
    flag bits are or-ed in. *)
Lemma PTE2PA_PA2PTE pa flags :
  0 <= pa < 2 ^ 56 -> pa mod PGSIZE = 0 -> 0 <= flags < 1024 ->
  PTE2PA (Z.lor (PA2PTE pa) flags) = pa.
Proof.
  intros Hpa Hal Hf. unfold PTE2PA, PA2PTE, PGSIZE in *.
  rewrite (Z.shiftr_div_pow2 pa) by lia.
  rewrite (u64_small (Z.shiftl _ 10)) by (rewrite Z.shiftl_mul_pow2 by lia; dlia).
  rewrite Z.shiftr_lor, Z.shiftr_shiftl_l by lia.
  rewrite (Z.shiftr_div_pow2 flags) by lia. rewrite (Z.div_small flags) by lia.
  rewrite Z.lor_0_r, Z.shiftl_shiftl by lia. simpl.
  rewrite Z.shiftl_mul_pow2 by lia. rewrite u64_small; dlia.
Qed.

Lemma PTE_lor_testbit pa flags i :
  0 <= pa < 2 ^ 56 -> 0 <= i < 10 -> Z.testbit (Z.lor (PA2PTE pa) flags) i = Z.testbit flags i.
Proof.
  intros Hpa Hi. unfold PA2PTE. rewrite Z.lor_spec.
  rewrite u64_small.
  - rewrite Z.shiftl_spec_low by lia. reflexivity.
  - rewrite Z.shiftl_mul_pow2, Z.shiftr_div_pow2 by lia. dlia.
Qed.

Lemma PTE_FLAGS_PA2PTE pa flags :
  0 <= pa < 2 ^ 56 -> 0 <= flags < 1024 -> PTE_FLAGS (Z.lor (PA2PTE pa) flags) = flags.
Proof.
  intros Hpa Hf. unfold PTE_FLAGS. change 1023 with (Z.ones 10).
  rewrite <- (Z.mod_small flags (2 ^ 10)) at 2 by lia. rewrite <- Z.land_ones by lia.
  apply Z.bits_inj'. intros i Hi. rewrite !Z.land_spec.
  destruct (decide (i < 10)).
  - rewrite PTE_lor_testbit by lia. reflexivity.
  - rewrite Z.ones_spec_high by lia. by rewrite !andb_false_r.
Qed.

Lemma PA2PTE_range pa flags :
  0 <= pa < 2 ^ 56 -> 0 <= flags < 1024 -> 0 <= Z.lor (PA2PTE pa) flags < 2 ^ 64.
Proof.
  intros Hpa Hf. split.
  - apply Z.lor_nonneg. split; [apply u64_range|lia].
  - assert (H : Z.lor (PA2PTE pa) flags = Z.lor (PA2PTE pa) flags mod 2 ^ 64).
    { rewrite <- Z.land_ones, Z.land_lor_distr_l, !Z.land_ones by lia.
      rewrite !Z.mod_small; [done|lia|]. apply u64_range. }
    rewrite H. apply Z.mod_pos_bound. lia.
Qed.

Lemma nz_land_bit x i : 0 <= i -> nz (Z.land x (Z.shiftl 1 i)) = Z.testbit x i.
Proof.
  intros Hi. rewrite Z.shiftl_1_l. destruct (Z.testbit x i) eqn:E.
  - apply nz_true. intros H. apply (f_equal (fun z => Z.testbit z i)) in H.
    rewrite Z.land_spec, Z.pow2_bits_true, E, Z.bits_0 in H by lia. done.
  - apply nz_false. apply Z.bits_inj'. intros j Hj.
    rewrite Z.land_spec, Z.bits_0, Z.pow2_bits_eqb by lia.
    destruct (Z.eqb_spec i j); [subst; by rewrite E|by rewrite andb_false_r].
Qed.

(** ** Physical memory *)

Abbreviation memory := (gmap Z Z).

(** One byte; memory that was never written reads as zero. *)
Definition rd (m : gmap Z Z) (a : Z) : Z := u8 (default 0 (m !! a)).
Definition wr (m : gmap Z Z) (a v : Z) : gmap Z Z := <[a := u8 v]> m.

Lemma rd_wr_eq m a v : rd (wr m a v) a = u8 v.
Proof. unfold rd, wr. rewrite lookup_insert_eq. simpl. unfold u8. apply Z.mod_mod. lia. Qed.
Lemma rd_wr_ne m a b v : a <> b -> rd (wr m a v) b = rd m b.
Proof. intros H. unfold rd, wr. by rewrite lookup_insert_ne. Qed.
Lemma rd_wr m a b v : rd (wr m a v) b = if decide (a = b) then u8 v else rd m b.
Proof. case_decide; [subst; apply rd_wr_eq|by apply rd_wr_ne]. Qed.
Lemma rd_range m a : 0 <= rd m a < 256.
Proof. apply u8_range. Qed.
#[export] Hint Resolve rd_range : kernel.

(** [n]-byte little-endian load and store. *)
Fixpoint load_le (m : gmap Z Z) (n : nat) (a : Z) : Z :=
  match n with
  | O => 0
  | S n' => rd m a + 256 * load_le m n' (a + 1)
  end.

Fixpoint store_le (m : gmap Z Z) (n : nat) (a v : Z) : gmap Z Z :=
  match n with
  | O => m
  | S n' => store_le (wr m a v) n' (a + 1) (v / 256)
  end.

Definition load64 (m : gmap Z Z) (a : Z) : Z := load_le m 8 a.
Definition store64 (m : gmap Z Z) (a v : Z) : gmap Z Z := store_le m 8 a v.
Definition load32 (m : gmap Z Z) (a : Z) : Z := load_le m 4 a.
Definition store32 (m : gmap Z Z) (a v : Z) : gmap Z Z := store_le m 4 a v.

#[global] Arguments rd : simpl never.
#[global] Arguments wr : simpl never.
#[global] Arguments load64 : simpl never.
#[global] Arguments store64 : simpl never.
#[global] Arguments load32 : simpl never.
#[global] Arguments store32 : simpl never.
#[global] Arguments PGSIZE : simpl never.
#[global] Arguments PHYSTOP : simpl never.
#[global] Arguments KERNBASE : simpl never.
#[global] Arguments MAXVA : simpl never.
#[global] Arguments PX : simpl never.
#[global] Arguments PTE2PA : simpl never.
#[global] Arguments PA2PTE : simpl never.
#[global] Arguments PGROUNDUP : simpl never.
#[global] Arguments PGROUNDDOWN : simpl never.

(** [m1] and [m2] agree on the bytes from [a] to [a + n - 1]. *)
Definition same_on (m1 m2 : gmap Z Z) (a n : Z) : Prop :=
  forall b, a <= b < a + n -> rd m1 b = rd m2 b.

(** [m1] and [m2] agree outside the bytes from [a] to [a + n - 1]. *)
Definition same_off (m1 m2 : gmap Z Z) (a n : Z) : Prop :=
  forall b, ~ (a <= b < a + n) -> rd m1 b = rd m2 b.

Lemma load_le_range m n a : 0 <= load_le m n a < 256 ^ Z.of_nat n.
Proof.
  revert a. induction n as [|n IH]; intros a; [simpl; lia|].
  change (load_le m (S n) a) with (rd m a + 256 * load_le m n (a + 1)).
  rewrite Nat2Z.inj_succ, Z.pow_succ_r by lia.
  specialize (IH (a + 1)). pose proof (rd_range m a). nia.
Qed.

Lemma load64_range m a : 0 <= load64 m a < 2 ^ 64.
Proof. apply (load_le_range m 8 a). Qed.
#[export] Hint Resolve load64_range : kernel.

Lemma load_le_same m1 m2 n a :
  same_on m1 m2 a (Z.of_nat n) -> load_le m1 n a = load_le m2 n a.
Proof.
  revert a. induction n as [|n IH]; intros a H; [done|]. simpl.
  rewrite (H a) by lia. rewrite (IH (a + 1)); [done|].
  intros b Hb. apply H. lia.
Qed.

Lemma load64_same m1 m2 a : same_on m1 m2 a 8 -> load64 m1 a = load64 m2 a.
Proof. apply (load_le_same m1 m2 8). Qed.

Lemma load_le_zero m n a : (forall b, a <= b < a + Z.of_nat n -> rd m b = 0) -> load_le m n a = 0.
Proof.
  revert a. induction n as [|n IH]; intros a H; [done|].
  change (load_le m (S n) a) with (rd m a + 256 * load_le m n (a + 1)).
  rewrite (H a) by lia. rewrite (IH (a + 1)); [lia|]. intros b Hb. apply H. lia.
Qed.

Lemma load64_zero m a : (forall b, a <= b < a + 8 -> rd m b = 0) -> load64 m a = 0.
Proof. apply (load_le_zero m 8). Qed.

Lemma rd_store_le_off m n a v b :
  ~ (a <= b < a + Z.of_nat n) -> rd (store_le m n a v) b = rd m b.
Proof.
  revert m a v. induction n as [|n IH]; intros m a v H; [done|]. simpl.
  rewrite IH by lia. apply rd_wr_ne. lia.
Qed.

Lemma load_store_le m n a v : load_le (store_le m n a v) n a = v mod 256 ^ Z.of_nat n.
Proof.
  revert m a v. induction n as [|n IH]; intros m a v.
  { simpl. symmetry. apply Z.mod_1_r. }
  change (load_le (store_le m (S n) a v) (S n) a) with
    (rd (store_le (wr m a v) n (a + 1) (v / 256)) a
     + 256 * load_le (store_le (wr m a v) n (a + 1) (v / 256)) n (a + 1)).
  rewrite IH, rd_store_le_off, rd_wr_eq by lia.
  rewrite Nat2Z.inj_succ, Z.pow_succ_r by lia. unfold u8. change (2 ^ 8) with 256.
  symmetry. apply Z.rem_mul_r; [lia|]. apply Z.pow_pos_nonneg; lia.
Qed.

Lemma load64_store64_eq m a v : load64 (store64 m a v) a = u64 v.
Proof. unfold load64, store64. rewrite load_store_le. done. Qed.

Lemma load64_store64 m a v : 0 <= v < 2 ^ 64 -> load64 (store64 m a v) a = v.
Proof.
  intros H. unfold load64, store64. rewrite load_store_le. apply Z.mod_small.
  change (256 ^ Z.of_nat 8) with (2 ^ 64). lia.
Qed.

Lemma store64_off m a v : same_off (store64 m a v) m a 8.
Proof. intros b Hb. apply (rd_store_le_off m 8). lia. Qed.

Lemma load64_store64_ne m a b v :
  a + 8 <= b \/ b + 8 <= a -> load64 (store64 m a v) b = load64 m b.
Proof. intros H. apply load64_same. intros c Hc. apply store64_off. lia. Qed.

Lemma same_off_trans m1 m2 m3 a n :
  same_off m1 m2 a n -> same_off m2 m3 a n -> same_off m1 m3 a n.
Proof. intros H1 H2 b Hb. rewrite H1 by done. by apply H2. Qed.

Lemma same_off_weaken m1 m2 a n a' n' :
  same_off m1 m2 a n -> a' <= a -> a + n <= a' + n' -> same_off m1 m2 a' n'.
Proof. intros H H1 H2 b Hb. apply H. lia. Qed.

Lemma same_off_on m1 m2 a n b k :
  same_off m1 m2 a n -> b + k <= a \/ a + n <= b -> same_on m1 m2 b k.
Proof. intros H H1 c Hc. apply H. lia. Qed.

Lemma load64_same_off m1 m2 a n b :
  same_off m1 m2 a n -> b + 8 <= a \/ a + n <= b -> load64 m1 b = load64 m2 b.
Proof. intros H H1. apply load64_same. by eapply same_off_on. Qed.

Lemma load32_store32 m a v : 0 <= v < 2 ^ 32 -> load32 (store32 m a v) a = v.
Proof. intros H. unfold load32, store32. rewrite load_store_le. apply Z.mod_small. change (256 ^ Z.of_nat 4) with (2 ^ 32). lia. Qed.

Lemma load32_store32_ne m a b v : a + 4 <= b \/ b + 4 <= a -> load32 (store32 m a v) b = load32 m b.
Proof. intros H. apply (load_le_same _ _ 4). intros c Hc. apply (rd_store_le_off m 4). lia. Qed.

(** Loads and stores are used through the lemmas above. *)
#[global] Opaque load64 store64 load32 store32.
