(* ===== verification/KString.v ===== *)
(** * kernel/string.c

    The memory and string routines, on byte-addressed memory.  Loops that
    count a length down recurse on it; the only loop bounded by the data is
    the one of [strlen], which takes fuel. *)

From S2P Require Import Prelude Riscv.
From stdpp Require Import base list numbers gmap strings.
From Stdlib Require Import ZArith Lia.

#[local] Open Scope Z_scope.

Module KString.

(** ** The routines *)

(** [for (i = 0; i < n; i++) cdst[i] = c;] *)
Definition memset (m : gmap Z Z) (dst c n : Z) : gmap Z Z :=
  for_range 0 n (fun m i => wr m (dst + i) c) m.

(** [while (n-- > 0) { if ( *s1 != *s2) return *s1 - *s2; s1++, s2++; }] *)
Fixpoint memcmp_loop (m : gmap Z Z) (s1 s2 : Z) (n : nat) : Z :=
  match n with
  | O => 0
  | S n' => if negb (rd m s1 =? rd m s2) then rd m s1 - rd m s2
            else memcmp_loop m (s1 + 1) (s2 + 1) n'
  end.
Definition memcmp (m : gmap Z Z) (v1 v2 n : Z) : Z := memcmp_loop m v1 v2 (Z.to_nat n).

(** [while (n-- > 0) *--d = *--s;] with [d] and [s] past the last byte. *)
Fixpoint copy_down (m : gmap Z Z) (d s : Z) (n : nat) : gmap Z Z :=
  match n with
  | O => m
  | S n' => copy_down (wr m (d - 1) (rd m (s - 1))) (d - 1) (s - 1) n'
  end.

(** [while (n-- > 0) *d++ = *s++;] *)
Fixpoint copy_up (m : gmap Z Z) (d s : Z) (n : nat) : gmap Z Z :=
  match n with
  | O => m
  | S n' => copy_up (wr m d (rd m s)) (d + 1) (s + 1) n'
  end.

Definition memmove (m : gmap Z Z) (dst src n : Z) : gmap Z Z :=
  if n =? 0 then m
  else if (src <? dst) && (dst <? src + n) then copy_down m (dst + n) (src + n) (Z.to_nat n)
  else copy_up m dst src (Z.to_nat n).

Definition memcpy (m : gmap Z Z) (dst src n : Z) : gmap Z Z := memmove m dst src n.

Fixpoint strncmp_loop (m : gmap Z Z) (p q : Z) (n : nat) : Z :=
  match n with
  | O => 0
  | S n' => if nz (rd m p) && (rd m p =? rd m q) then strncmp_loop m (p + 1) (q + 1) n'
            else rd m p - rd m q
  end.
Definition strncmp (m : gmap Z Z) (p q n : Z) : Z := strncmp_loop m p q (Z.to_nat n).

(** The second loop of [strncpy]: [while (n-- > 0) *s++ = 0;] *)
Fixpoint strncpy_pad (m : gmap Z Z) (s : Z) (n : nat) : gmap Z Z :=
  match n with
  | O => m
  | S n' => strncpy_pad (wr m s 0) (s + 1) n'
  end.

Fixpoint strncpy_loop (m : gmap Z Z) (s t : Z) (n : nat) : gmap Z Z :=
  match n with
  | O => m
  | S n' => let c := rd m t in
            let m1 := wr m s c in
            if nz c then strncpy_loop m1 (s + 1) (t + 1) n'
            else strncpy_pad m1 (s + 1) n'
  end.
Definition strncpy (m : gmap Z Z) (s t n : Z) : gmap Z Z := strncpy_loop m s t (Z.to_nat n).

(** [while (--n > 0 && ( *s++ = *t++) != 0);], returning the final [s]. *)
Fixpoint safestrcpy_loop (m : gmap Z Z) (s t : Z) (n : nat) : gmap Z Z * Z :=
  match n with
  | O => (m, s)
  | S n' => let c := rd m t in
            let m1 := wr m s c in
            if nz c then safestrcpy_loop m1 (s + 1) (t + 1) n' else (m1, s + 1)
  end.
Definition safestrcpy (m : gmap Z Z) (s t n : Z) : gmap Z Z :=
  if n <=? 0 then m
  else let '(m1, s1) := safestrcpy_loop m s t (Z.to_nat (n - 1)) in wr m1 s1 0.

Fixpoint strlen_loop (fuel : nat) (m : gmap Z Z) (s n : Z) : outcome Z :=
  match fuel with
  | O => Fuel
  | S fuel' => if nz (rd m (s + n)) then strlen_loop fuel' m s (s32 (n + 1)) else Ret n
  end.
Definition strlen (fuel : nat) (m : gmap Z Z) (s : Z) : outcome Z := strlen_loop fuel m s 0.

#[global] Arguments memset : simpl never.
#[global] Arguments memmove : simpl never.

(** ** What memory holds *)

(** The [n] bytes at [a]. *)
Definition bytes (m : gmap Z Z) (a n : Z) : list Z := (fun i => rd m (a + i)) <$> seqZ 0 n.

(** The NUL-terminated string [l] is at [a]. *)
Definition cstr (m : gmap Z Z) (a : Z) (l : list Z) : Prop :=
  (forall i c, l !! i = Some c -> c <> 0 /\ rd m (a + Z.of_nat i) = c)
  /\ rd m (a + Z.of_nat (length l)) = 0.

Lemma length_bytes m a n : length (bytes m a n) = Z.to_nat n.
Proof. unfold bytes. by rewrite length_fmap, length_seqZ. Qed.

Lemma lookup_bytes m a n i :
  0 <= i < n -> bytes m a n !! Z.to_nat i = Some (rd m (a + i)).
Proof.
  intros H. unfold bytes. rewrite list_lookup_fmap.
  rewrite (lookup_seqZ_lt 0 n (Z.to_nat i)) by lia. simpl. do 2 f_equal. lia.
Qed.

Lemma bytes_ext m1 m2 a b n :
  (forall i, 0 <= i < n -> rd m1 (a + i) = rd m2 (b + i)) -> bytes m1 a n = bytes m2 b n.
Proof.
  intros H. unfold bytes. apply list_fmap_ext. intros i x Hx.
  apply lookup_seqZ in Hx as [-> Hi]. apply H. lia.
Qed.

Lemma bytes_inj m1 m2 a b n :
  bytes m1 a n = bytes m2 b n -> forall i, 0 <= i < n -> rd m1 (a + i) = rd m2 (b + i).
Proof.
  intros H i Hi. apply (f_equal (fun l => l !! Z.to_nat i)) in H.
  rewrite !lookup_bytes in H by done. congruence.
Qed.

Lemma cstr_cons m a c l : cstr m a (c :: l) <-> c <> 0 /\ rd m a = c /\ cstr m (a + 1) l.
Proof.
  unfold cstr. split.
  - intros [H1 H2]. destruct (H1 0%nat c eq_refl) as [Hc Hr]. rewrite Z.add_0_r in Hr.
    do 3 (split; [done|]) || split_and!; try done.
    + intros i d Hd. destruct (H1 (S i) d Hd) as [Hd0 Hd1]. split; [done|].
      rewrite <- Hd1. f_equal. lia.
    + rewrite <- H2. f_equal. simpl. lia.
  - intros (Hc & Hr & H1 & H2). split.
    + intros [|i] d Hd; simpl in Hd.
      * injection Hd as <-. rewrite Z.add_0_r. done.
      * destruct (H1 i d Hd) as [? Hd1]. split; [done|]. rewrite <- Hd1. f_equal. lia.
    + rewrite <- H2. f_equal. simpl. lia.
Qed.

Lemma cstr_nil m a : cstr m a [] <-> rd m a = 0.
Proof.
  unfold cstr. simpl. rewrite Z.add_0_r. split; [tauto|]. intros H. split; [|done].
  intros i c Hc. by rewrite lookup_nil in Hc.
Qed.

(** ** Correctness *)

Lemma rd_memset m dst c n a :
  0 <= n -> rd (memset m dst c n) a = if decide (dst <= a < dst + n) then u8 c else rd m a.
Proof.
  intros Hn. unfold memset.
  pose (P := fun (k : Z) (t : gmap Z Z) =>
    rd t a = if decide (dst <= a < dst + k) then u8 c else rd m a).
  apply (for_range_ind P); unfold P; [done| |].
  - rewrite decide_False by lia. done.
  - intros k t Hk IH. rewrite rd_wr. repeat case_decide; try lia; done.
Qed.

Lemma memset_off m dst c n : 0 <= n -> same_off (memset m dst c n) m dst n.
Proof. intros Hn b Hb. rewrite rd_memset by done. by rewrite decide_False. Qed.

Lemma load64_memset m dst n a :
  dst <= a -> a + 8 <= dst + n -> load64 (memset m dst 0 n) a = 0.
Proof.
  intros H1 H2. rewrite (load64_zero (memset m dst 0 n) a); [done|].
  intros b Hb. rewrite rd_memset by lia. by rewrite decide_True by lia.
Qed.

Lemma rd_copy_up m d s n a :
  d <= s \/ s + Z.of_nat n <= d ->
  rd (copy_up m d s n) a =
    if decide (d <= a < d + Z.of_nat n) then rd m (s + (a - d)) else rd m a.
Proof.
  revert m d s. induction n as [|n IH]; intros m d s Hov.
  { simpl. rewrite decide_False by lia. done. }
  simpl copy_up. rewrite IH by lia. destruct (decide (a = d)) as [->|Hne].
  - rewrite decide_False, decide_True by lia. rewrite rd_wr_eq.
    unfold u8. rewrite Z.mod_small by apply rd_range. f_equal. lia.
  - repeat case_decide; try lia.
    + rewrite rd_wr_ne by lia. f_equal. lia.
    + by rewrite rd_wr_ne by lia.
Qed.

Lemma rd_copy_down m d s n a :
  s <= d ->
  rd (copy_down m d s n) a =
    if decide (d - Z.of_nat n <= a < d) then rd m (s - (d - a)) else rd m a.
Proof.
  revert m d s. induction n as [|n IH]; intros m d s Hov.
  { simpl. rewrite decide_False by lia. done. }
  simpl copy_down. rewrite IH by lia. destruct (decide (a = d - 1)) as [->|Hne].
  - rewrite decide_False, decide_True by lia. rewrite rd_wr_eq.
    unfold u8. rewrite Z.mod_small by apply rd_range. f_equal. lia.
  - repeat case_decide; try lia.
    + rewrite rd_wr_ne by lia. f_equal. lia.
    + by rewrite rd_wr_ne by lia.
Qed.

Lemma rd_memmove m dst src n a :
  0 <= n ->
  rd (memmove m dst src n) a =
    if decide (dst <= a < dst + n) then rd m (src + (a - dst)) else rd m a.
Proof.
  intros Hn. unfold memmove. case_if.
  { rewrite decide_False by lia. done. }
  case_if.
  - rewrite rd_copy_down, Z2Nat.id by lia. replace (dst + n - n) with dst by lia.
    case_decide; [|done]. f_equal. lia.
  - rewrite rd_copy_up, Z2Nat.id by lia. done.
Qed.

Lemma memmove_off m dst src n : 0 <= n -> same_off (memmove m dst src n) m dst n.
Proof. intros Hn b Hb. rewrite rd_memmove by done. by rewrite decide_False. Qed.

(** [memmove] copies the source bytes as they were before the call, even
    when the two regions overlap in either direction, and touches nothing
    outside the destination. *)
Theorem memmove_correct m dst src n :
  0 <= n ->
  bytes (memmove m dst src n) dst n = bytes m src n
  /\ same_off (memmove m dst src n) m dst n.
Proof.
  intros Hn. split; [|by apply memmove_off].
  apply bytes_ext. intros i Hi. rewrite rd_memmove, decide_True by lia. f_equal. lia.
Qed.

Lemma memmove_correct_witness :
  bytes (memmove (store64 ∅ 16 72623859790382856) 19 16 8) 19 8 = [8; 7; 6; 5; 4; 3; 2; 1]
  /\ same_off (memmove (store64 ∅ 16 72623859790382856) 19 16 8)
       (store64 ∅ 16 72623859790382856) 19 8.
Proof.
  destruct (memmove_correct (store64 ∅ 16 72623859790382856) 19 16 8 ltac:(lia)) as [H1 H2].
  split; [|exact H2]. rewrite H1. vm_compute. reflexivity.
Defined.

(** The characters of a name field: up to the first NUL, at most [n]. *)
Fixpoint field (m : gmap Z Z) (a : Z) (n : nat) : list Z :=
  match n with
  | O => []
  | S n' => if nz (rd m a) then rd m a :: field m (a + 1) n' else []
  end.

Lemma strncmp_loop_field m p q n :
  strncmp_loop m p q n = 0 <-> field m p n = field m q n.
Proof.
  revert p q. induction n as [|n IH]; intros p q; [done|]. simpl.
  destruct (nz (rd m p)) eqn:Ep; destruct (nz (rd m q)) eqn:Eq; bool_to_prop; simpl.
  - destruct (Z.eqb_spec (rd m p) (rd m q)) as [E|E].
    + rewrite IH, E. split; congruence.
    + split; [lia|congruence].
  - destruct (Z.eqb_spec (rd m p) (rd m q)) as [E|E]; [lia|]. split; [lia|discriminate].
  - split; [lia|discriminate].
  - split; [done|lia].
Qed.

Lemma cstr_same m1 m2 a l :
  cstr m1 a l -> same_on m2 m1 a (Z.of_nat (length l) + 1) -> cstr m2 a l.
Proof.
  intros [H1 H2] Hs. split.
  - intros i c Hc. destruct (H1 i c Hc) as [? Hr]. split; [done|].
    rewrite Hs; [done|]. apply lookup_lt_Some in Hc. lia.
  - rewrite Hs; [done|lia].
Qed.

Lemma rd_strncpy_pad m s n a :
  rd (strncpy_pad m s n) a = if decide (s <= a < s + Z.of_nat n) then 0 else rd m a.
Proof.
  revert m s. induction n as [|n IH]; intros m s.
  { simpl. by rewrite decide_False by lia. }
  simpl strncpy_pad. rewrite IH, rd_wr. repeat case_decide; try lia; done.
Qed.

(** Byte [i] of the destination of [strncpy] is byte [i] of the string padded
    with NULs. *)
Lemma rd_strncpy_loop m s t n l a :
  cstr m t l ->
  s + Z.of_nat n <= t \/ t + Z.of_nat (length l) < s ->
  rd (strncpy_loop m s t n) a =
    if decide (s <= a < s + Z.of_nat n) then default 0 (l !! Z.to_nat (a - s)) else rd m a.
Proof.
  revert m s t l. induction n as [|n IH]; intros m s t l Hl Hd.
  { simpl. by rewrite decide_False by lia. }
  simpl strncpy_loop. destruct l as [|c l].
  - apply cstr_nil in Hl. rewrite Hl. change (nz 0) with false. cbv iota.
    rewrite rd_strncpy_pad, rd_wr. simpl length in Hd.
    repeat case_decide; try lia; by rewrite ?lookup_nil.
  - apply cstr_cons in Hl as (Hc & Hr & Hl). rewrite Hr.
    rewrite (proj2 (nz_true c) Hc). simpl length in Hd.
    rewrite (IH _ _ _ l); [| |lia].
    + destruct (decide (a = s)) as [->|Hne].
      * rewrite decide_False, decide_True by lia. rewrite rd_wr_eq, Z.sub_diag. simpl.
        rewrite <- Hr. unfold u8. apply Z.mod_small, rd_range.
      * repeat case_decide; try lia.
        -- replace (Z.to_nat (a - s)) with (S (Z.to_nat (a - (s + 1)))) by lia. done.
        -- by rewrite rd_wr_ne by lia.
    + eapply cstr_same; [exact Hl|]. intros b Hb. apply rd_wr_ne. lia.
Qed.

Lemma strncpy_off m s t n l :
  0 <= n -> cstr m t l -> s + n <= t \/ t + Z.of_nat (length l) < s ->
  same_off (strncpy m s t n) m s n.
Proof.
  intros Hn Hl Hd b Hb. unfold strncpy.
  rewrite (rd_strncpy_loop _ _ _ _ l); [|done|lia]. rewrite decide_False by lia. done.
Qed.

(** The name a directory entry holds after [strncpy(de.name, name, n)]. *)
Lemma field_strncpy m s t n l :
  0 <= n -> cstr m t l -> s + n <= t \/ t + Z.of_nat (length l) < s ->
  field (strncpy m s t n) s (Z.to_nat n) = take (Z.to_nat n) l.
Proof.
  intros Hn Hl Hd.
  assert (Hrd : forall i, 0 <= i < n ->
    rd (strncpy m s t n) (s + i) = default 0 (l !! Z.to_nat i)).
  { intros i Hi. unfold strncpy. rewrite (rd_strncpy_loop _ _ _ _ l); [|done|lia].
    rewrite decide_True by lia. do 2 f_equal. f_equal. lia. }
  clear Hd. destruct Hl as [Hl _].
  assert (Hgen : forall k off, 0 <= off -> off + Z.of_nat k = n ->
    field (strncpy m s t n) (s + off) k = take k (drop (Z.to_nat off) l)).
  { induction k as [|k IH]; intros off Hoff Hsum; [done|]. cbn [field].
    rewrite Hrd by lia. destruct (l !! Z.to_nat off) as [c|] eqn:E.
    - simpl. destruct (Hl _ _ E) as [Hc _]. rewrite (proj2 (nz_true c) Hc).
      rewrite (drop_S _ _ _ E). simpl. f_equal.
      replace (s + off + 1) with (s + (off + 1)) by lia. rewrite IH by lia.
      do 2 f_equal. lia.
    - simpl. apply lookup_ge_None in E. rewrite drop_ge by lia. done. }
  specialize (Hgen (Z.to_nat n) 0 ltac:(lia) ltac:(lia)). rewrite Z.add_0_r in Hgen.
  rewrite Hgen. done.
Qed.

Lemma field_same m1 m2 a n :
  same_on m1 m2 a (Z.of_nat n) -> field m1 a n = field m2 a n.
Proof.
  revert a. induction n as [|n IH]; intros a H; [done|]. simpl.
  rewrite (H a) by lia. rewrite (IH (a + 1)); [done|]. intros b Hb. apply H. lia.
Qed.

Lemma field_cstr m t l n : cstr m t l -> field m t n = take n l.
Proof.
  revert t l. induction n as [|n IH]; intros t l Hl; [done|]. simpl. destruct l as [|c l].
  - apply cstr_nil in Hl. by rewrite Hl.
  - apply cstr_cons in Hl as (Hc & Hr & Hl). rewrite Hr, (proj2 (nz_true c) Hc).
    by rewrite (IH _ l).
Qed.

(** A name written into a fixed-size field with [strncpy] is found again by
    [strncmp]: comparing any string [q] against the field succeeds exactly
    when the two strings agree on their first [n] characters, whatever the
    lengths, and [strncpy] writes only the field. *)
Theorem strncpy_strncmp m s t q n l lq :
  0 <= n ->
  cstr m t l -> cstr m q lq ->
  s + n <= t \/ t + Z.of_nat (length l) < s ->
  s + n <= q \/ q + Z.of_nat (length lq) < s ->
  (strncmp (strncpy m s t n) q s n = 0 <-> take (Z.to_nat n) lq = take (Z.to_nat n) l)
  /\ same_off (strncpy m s t n) m s n.
Proof.
  intros Hn Hl Hq Hd Hdq. split; [|by eapply strncpy_off].
  unfold strncmp. rewrite strncmp_loop_field, (field_strncpy _ _ _ _ l) by done.
  rewrite (field_cstr _ q lq); [done|].
  eapply cstr_same; [exact Hq|]. eapply same_off_on; [by eapply strncpy_off|]. lia.
Qed.

(** "usr" at 0, "usr" at 16 copied into a 14-byte field at 32. *)
Definition mem_usr : gmap Z Z := store64 (store64 ∅ 0 7500661) 16 7500661.

Lemma strncpy_strncmp_witness :
  strncmp (strncpy mem_usr 32 16 14) 0 32 14 = 0
  /\ same_off (strncpy mem_usr 32 16 14) mem_usr 32 14.
Proof.
  assert (H : forall a, a = 0 \/ a = 16 -> cstr mem_usr a [117; 115; 114]).
  { intros a Ha. rewrite !cstr_cons, cstr_nil. destruct Ha as [-> | ->]; vm_compute; done. }
  destruct (strncpy_strncmp mem_usr 32 16 0 14 [117; 115; 114] [117; 115; 114]
    ltac:(lia) (H 16 ltac:(lia)) (H 0 ltac:(lia)) ltac:(simpl; lia) ltac:(simpl; lia)) as [H1 H2].
  split; [apply H1; reflexivity|exact H2].
Defined.

Lemma safestrcpy_loop_spec m s t n l :
  cstr m t l ->
  s + Z.of_nat n <= t \/ t + Z.of_nat (length l) < s ->
  let '(m', s') := safestrcpy_loop m s t n in
  s <= s' <= s + Z.of_nat n
  /\ (Z.of_nat (length (take n l)) <= s' - s)
  /\ (forall a, rd m' a = if decide (s <= a < s') then default 0 (l !! Z.to_nat (a - s)) else rd m a)
  /\ (s' - s <= Z.of_nat (length l) + 1).
Proof.
  revert m s t l. induction n as [|n IH]; intros m s t l Hl Hd; cbn [safestrcpy_loop].
  { simpl. split_and!; try lia. intros a. by rewrite decide_False by lia. }
  destruct l as [|c l].
  - apply cstr_nil in Hl. rewrite Hl. change (nz 0) with false. cbv iota. simpl length in *.
    split_and!; try lia. intros a. rewrite rd_wr. repeat case_decide; try lia; by rewrite ?lookup_nil.
  - apply cstr_cons in Hl as (Hc & Hr & Hl). rewrite Hr, (proj2 (nz_true c) Hc).
    simpl length in Hd.
    specialize (IH (wr m s c) (s + 1) (t + 1) l).
    destruct (safestrcpy_loop (wr m s c) (s + 1) (t + 1) n) as [m' s'].
    destruct IH as (I1 & I2 & I3 & I4); [|lia|].
    { eapply cstr_same; [exact Hl|]. intros b Hb. apply rd_wr_ne. lia. }
    simpl length. split_and!; try lia. intros a. rewrite I3, rd_wr.
    repeat case_decide; try lia; try done.
    + replace (Z.to_nat (a - s)) with (S (Z.to_nat (a - (s + 1)))) by lia. done.
    + subst a. rewrite Z.sub_diag. simpl. rewrite <- Hr. apply Z.mod_small, rd_range.
Qed.

(** [safestrcpy] leaves a NUL-terminated string in the destination: the
    source, cut to [n - 1] characters, and writes at most [n] bytes. *)
Theorem safestrcpy_correct m s t n l :
  0 < n ->
  cstr m t l ->
  s + n <= t \/ t + Z.of_nat (length l) < s ->
  cstr (safestrcpy m s t n) s (take (Z.to_nat (n - 1)) l)
  /\ same_off (safestrcpy m s t n) m s n.
Proof.
  intros Hn Hl Hd. unfold safestrcpy. lia_tests.
  pose proof (safestrcpy_loop_spec m s t (Z.to_nat (n - 1)) l Hl ltac:(lia)) as H.
  destruct (safestrcpy_loop m s t (Z.to_nat (n - 1))) as [m' s'].
  destruct H as (H1 & H2 & H3 & H4).
  split; [split|].
  - intros i c Hc. pose proof (lookup_lt_Some _ _ _ Hc) as Hlt.
    apply lookup_take_Some in Hc as [Hc Hi].
    split; [by apply (proj1 Hl i)|].
    rewrite rd_wr_ne by lia. rewrite H3, decide_True by lia.
    replace (Z.to_nat (s + Z.of_nat i - s)) with i by lia. by rewrite Hc.
  - rewrite rd_wr. case_decide; [done|]. rewrite H3. rewrite length_take in *.
    case_decide; [|lia].
    rewrite lookup_ge_None_2 by lia. done.
  - intros b Hb. rewrite rd_wr_ne by lia. rewrite H3, decide_False by lia. done.
Qed.

Lemma safestrcpy_correct_witness :
  cstr (safestrcpy mem_usr 32 16 3) 32 [117; 115]
  /\ same_off (safestrcpy mem_usr 32 16 3) mem_usr 32 3.
Proof.
  apply (safestrcpy_correct mem_usr 32 16 3 [117; 115; 114]); [lia| |simpl; lia].
  rewrite !cstr_cons, cstr_nil. vm_compute. done.
Defined.

Lemma strlen_loop_correct fuel m s l k :
  cstr m s l ->
  0 <= k <= Z.of_nat (length l) ->
  Z.of_nat (length l) < 2 ^ 31 ->
  (Z.to_nat (Z.of_nat (length l) - k) < fuel)%nat ->
  strlen_loop fuel m s k = Ret (Z.of_nat (length l)).
Proof.
  intros [Hl H0]. revert k. induction fuel as [|fuel IH]; intros k Hk Hlen Hf; [lia|].
  cbn [strlen_loop]. destruct (decide (k = Z.of_nat (length l))) as [->|Hne].
  - rewrite H0. done.
  - destruct (lookup_lt_is_Some_2 l (Z.to_nat k)) as [c Hc]; [lia|].
    destruct (Hl _ _ Hc) as [Hcz Hr]. rewrite Z2Nat.id in Hr by lia.
    rewrite Hr, (proj2 (nz_true c) Hcz). rewrite s32_small by lia. apply IH; lia.
Qed.

(** [strlen] terminates on every NUL-terminated string (one iteration per
    character) and returns its length. *)
Theorem strlen_correct m s l :
  cstr m s l -> Z.of_nat (length l) < 2 ^ 31 ->
  strlen (S (length l)) m s = Ret (Z.of_nat (length l)).
Proof. intros Hl Hlen. apply strlen_loop_correct; [done|lia|done|lia]. Qed.

Lemma strlen_correct_witness : strlen 4 mem_usr 16 = Ret 3.
Proof.
  refine (strlen_correct mem_usr 16 [117; 115; 114] _ _); [|simpl; lia].
  rewrite !cstr_cons, cstr_nil. vm_compute. done.
Defined.

Lemma memcmp_loop_zero m a b n :
  memcmp_loop m a b n = 0 <-> (forall i, 0 <= i < Z.of_nat n -> rd m (a + i) = rd m (b + i)).
Proof.
  revert a b. induction n as [|n IH]; intros a b.
  { simpl. split; [intros _ i Hi; lia|done]. }
  cbn [memcmp_loop]. destruct (Z.eqb_spec (rd m a) (rd m b)) as [E|E]; simpl.
  - rewrite IH. split.
    + intros H i Hi. destruct (decide (i = 0)) as [->|]; [by rewrite !Z.add_0_r|].
      replace (a + i) with (a + 1 + (i - 1)) by lia.
      replace (b + i) with (b + 1 + (i - 1)) by lia. apply H. lia.
    + intros H i Hi. rewrite <- !Z.add_assoc. apply H. lia.
  - split; [lia|]. intros H. specialize (H 0 ltac:(lia)). rewrite !Z.add_0_r in H. lia.
Qed.

(** [memcmp] returns zero exactly on equal regions. *)
Lemma memcmp_correct m a b n :
  0 <= n -> memcmp m a b n = 0 <-> bytes m a n = bytes m b n.
Proof.
  intros Hn. unfold memcmp. rewrite memcmp_loop_zero, Z2Nat.id by done. split.
  - intros H. by apply bytes_ext.
  - intros H. by apply bytes_inj.
Qed.

End KString.

(** Conversion must not unfold page-sized loops. *)
#[global] Opaque KString.memset KString.memmove.
