(* ===== verification/Kalloc.v ===== *)
(** * kernel/kalloc.c: the physical page allocator

    The free list is kept as the code keeps it: [freelist] is the address of
    the first free page, and the first eight bytes of every free page hold the
    address of the next one.  [refcount] is the static (zero-initialised)
    array of reference counts, indexed by page number.

    Each [acquire(&kmem.lock)] ... [release(&kmem.lock)] bracket is one atomic
    section.  [kfree] has two of them with an unlocked read between; it is
    split into [kfree_dec] and [kfree_tail] so that its interleavings can be
    stated. *)

From S2P Require Import Prelude Riscv KString.
From stdpp Require Import base list numbers gmap strings.
From Stdlib Require Import ZArith Lia.
Import KString.

#[local] Open Scope Z_scope.

(** The state of the allocator: physical memory, [kmem.freelist], [refcount]. *)
Record kst : Type := MkKst {
  k_mem : gmap Z Z;
  k_freelist : Z;
  k_refcount : gmap Z Z
}.

Definition set_mem (s : kst) (m : gmap Z Z) : kst := MkKst m (k_freelist s) (k_refcount s).
Definition rc (s : kst) (pn : Z) : Z := default 0 (k_refcount s !! pn).
Definition set_rc (s : kst) (pn v : Z) : kst :=
  MkKst (k_mem s) (k_freelist s) (<[pn := v]> (k_refcount s)).

Module Kalloc.
Section Kalloc.
Context {L : Layout}.

(** ** The code *)

Definition incref (s : kst) (pa : Z) : outcome kst :=
  let pn := s32 (pa / PGSIZE) in
  if (PHYSTOP <=? pa) || (rc s pn <? 1) then Panic "incref"
  else Ret (set_rc s pn (s32 (rc s pn + 1))).

(** [kfree] up to the first [release]: the checks and the decrement. *)
Definition kfree_dec (s : kst) (pa : Z) : outcome kst :=
  if nz (pa mod PGSIZE) || (pa <? kend) || (PHYSTOP <=? pa) then Panic "kfree"
  else
    let pn := s32 (pa / PGSIZE) in
    if rc s pn <? 1 then Panic "kfree cow"
    else Ret (set_rc s pn (s32 (rc s pn - 1))).

(** The rest of [kfree]: the unlocked test of the count, the junk fill and the
    second critical section. *)
Definition kfree_tail (s : kst) (pa : Z) : outcome kst :=
  let pn := s32 (pa / PGSIZE) in
  if 0 <? rc s pn then Ret s
  else
    let m := memset (k_mem s) pa 1 PGSIZE in
    Ret (MkKst (store64 m pa (k_freelist s)) pa (k_refcount s)).

Definition kfree (s : kst) (pa : Z) : outcome kst :=
  s1 ← kfree_dec s pa;
  kfree_tail s1 pa.

Fixpoint freerange_loop (fuel : nat) (s : kst) (p pa_end : Z) : outcome kst :=
  if p + PGSIZE <=? pa_end then
    match fuel with
    | O => Fuel
    | S fuel' =>
        s1 ← kfree (set_rc s (p / PGSIZE) 1) p;
        freerange_loop fuel' s1 (p + PGSIZE) pa_end
    end
  else Ret s.

Definition freerange (s : kst) (pa_start pa_end : Z) : outcome kst :=
  let p := PGROUNDUP pa_start in
  freerange_loop (Z.to_nat ((pa_end - p) / PGSIZE)) s p pa_end.

Definition kinit (s : kst) : outcome kst := freerange s kend PHYSTOP.

(** Returns the page, 0 when none is left. *)
Definition kalloc (s : kst) : outcome (Z * kst) :=
  let r := k_freelist s in
  if nz r then
    let pn := s32 (r / PGSIZE) in
    if nz (rc s pn) then Panic "kalloc: ref"
    else
      let s1 := MkKst (k_mem s) (load64 (k_mem s) r) (<[pn := 1]> (k_refcount s)) in
      Ret (r, set_mem s1 (memset (k_mem s1) r 5 PGSIZE))
  else Ret (0, s).

Fixpoint kmemamount_loop (fuel : nat) (m : gmap Z Z) (r amount : Z) : outcome Z :=
  if nz r then
    match fuel with
    | O => Fuel
    | S fuel' => kmemamount_loop fuel' m (load64 m r) (s32 (amount + PGSIZE))
    end
  else Ret amount.

(** The fuel is the number of pages of RAM. *)
Definition kmemamount (s : kst) : outcome Z :=
  kmemamount_loop (Z.to_nat ((PHYSTOP - KERNBASE) / PGSIZE)) (k_mem s) (k_freelist s) 0.

(** ** The invariant *)

(** A page the allocator manages. *)
Definition page_ok (p : Z) : Prop := p mod PGSIZE = 0 /\ KERNBASE <= kend <= p /\ p < PHYSTOP.

(** The list [l] of pages is threaded through memory from [h]. *)
Fixpoint flist (m : gmap Z Z) (h : Z) (l : list Z) : Prop :=
  match l with
  | [] => h = 0
  | p :: l' => h = p /\ flist m (load64 m p) l'
  end.

(** The free list is [l]: it has no duplicates, holds only managed pages, and
    a managed page is free exactly when its reference count is zero. *)
Record kinv (s : kst) (l : list Z) : Prop := MkKinv {
  kinv_list : flist (k_mem s) (k_freelist s) l;
  kinv_nodup : NoDup l;
  kinv_pages : Forall page_ok l;
  kinv_free : forall p, page_ok p -> (p ∈ l <-> rc s (p / PGSIZE) = 0);
  kinv_pos : forall p, page_ok p -> 0 <= rc s (p / PGSIZE)
}.

Lemma page_ok_bounds p : page_ok p -> KERNBASE <= p /\ p + PGSIZE <= PHYSTOP /\ p <> 0.
Proof. unfold page_ok, PHYSTOP, KERNBASE, PGSIZE. intros (H1 & H2 & H3). dlia. Qed.

Lemma page_ok_pn p : page_ok p -> s32 (p / PGSIZE) = p / PGSIZE.
Proof.
  intros H. apply page_ok_bounds in H. unfold PHYSTOP, KERNBASE, PGSIZE in *.
  apply s32_small. dlia.
Qed.

Lemma page_ok_range56 p : page_ok p -> 0 <= p < 2 ^ 56.
Proof. intros H. apply page_ok_bounds in H. unfold PHYSTOP, KERNBASE, PGSIZE in *. lia. Qed.

(** Distinct pages do not overlap. *)
Lemma pages_disjoint p q :
  p mod PGSIZE = 0 -> q mod PGSIZE = 0 -> p <> q -> p + PGSIZE <= q \/ q + PGSIZE <= p.
Proof. unfold PGSIZE. intros. dlia. Qed.

Lemma page_number_inj p q :
  p mod PGSIZE = 0 -> q mod PGSIZE = 0 -> p / PGSIZE = q / PGSIZE -> p = q.
Proof. unfold PGSIZE. intros. dlia. Qed.

Lemma rc_set_rc s pn v qn : rc (set_rc s pn v) qn = if decide (pn = qn) then v else rc s qn.
Proof.
  unfold rc, set_rc. simpl. rewrite lookup_insert. case_decide; done.
Qed.

(** The list depends only on the first words of its pages. *)
Lemma flist_same m1 m2 h l :
  (forall p, p ∈ l -> load64 m1 p = load64 m2 p) -> flist m1 h l <-> flist m2 h l.
Proof.
  revert h. induction l as [|p l IH]; intros h H; [done|]. simpl.
  rewrite (H p) by set_solver. rewrite IH; [done|]. set_solver.
Qed.

(** Writing inside a managed page that is not on the list keeps the list. *)
Lemma flist_write m1 m2 h l p :
  flist m1 h l -> Forall page_ok l -> page_ok p -> p ∉ l -> same_off m2 m1 p PGSIZE ->
  flist m2 h l.
Proof.
  intros Hl Hpg Hp Hnot Hoff. eapply flist_same; [|exact Hl].
  intros q Hq. rewrite Forall_forall in Hpg. pose proof (Hpg q Hq) as Hqok.
  assert (Hne : q <> p) by set_solver.
  destruct (pages_disjoint p q (proj1 Hp) (proj1 Hqok)) as [Hd|Hd]; [done|..];
    eapply load64_same_off; try exact Hoff; unfold PGSIZE in *; lia.
Qed.

(** ** kalloc *)

Lemma kalloc_empty s : kinv s [] -> kalloc s = Ret (0, s).
Proof. intros [H _ _ _ _]. simpl in H. unfold kalloc. rewrite H. done. Qed.

Lemma kalloc_cons s p l :
  kinv s (p :: l) ->
  exists s', kalloc s = Ret (p, s')
    /\ kinv s' l
    /\ rc s' (p / PGSIZE) = 1
    /\ (forall pn, pn <> p / PGSIZE -> rc s' pn = rc s pn)
    /\ same_off (k_mem s') (k_mem s) p PGSIZE
    /\ (forall a, p <= a < p + PGSIZE -> rd (k_mem s') a = 5).
Proof.
  intros [Hl Hnd Hpg Hfree Hpos]. simpl in Hl. destruct Hl as [Hh Hl].
  apply NoDup_cons in Hnd as [Hnot Hnd]. apply Forall_cons in Hpg as [Hp Hpg].
  pose proof (page_ok_bounds p Hp) as (_ & _ & Hnz).
  unfold kalloc. rewrite Hh, (proj2 (nz_true p) Hnz), (page_ok_pn p Hp).
  rewrite (proj1 (Hfree p Hp)) by set_solver. change (nz 0) with false. cbv iota.
  eexists. split; [done|].
  assert (Hrc : forall qn, rc (set_mem (MkKst (k_mem s) (load64 (k_mem s) p)
      (<[p / PGSIZE := 1]> (k_refcount s))) (memset (k_mem s) p 5 PGSIZE)) qn
    = if decide (p / PGSIZE = qn) then 1 else rc s qn).
  { intros qn. unfold rc. simpl. rewrite lookup_insert. case_decide; done. }
  split; [split|split_and!].
  - simpl. eapply flist_write; eauto. by apply memset_off.
  - done.
  - done.
  - intros q Hq. rewrite Hrc. case_decide as E.
    + apply page_number_inj in E; [|apply Hp|apply Hq]. subst q. split; [done|lia].
    + rewrite <- (Hfree q Hq). set_solver.
  - intros q Hq. rewrite Hrc. case_decide; [lia|by apply Hpos].
  - rewrite Hrc, decide_True by done. done.
  - intros pn Hpn. rewrite Hrc, decide_False by done. done.
  - by apply memset_off.
  - intros a Ha. simpl. rewrite rd_memset by (unfold PGSIZE; lia).
    rewrite decide_True by lia. done.
Qed.

Lemma kalloc_spec s l :
  kinv s l ->
  exists p s', kalloc s = Ret (p, s')
    /\ match l with
       | [] => p = 0 /\ s' = s
       | q :: l' =>
           p = q /\ page_ok p /\ rc s (p / PGSIZE) = 0 /\ kinv s' l'
           /\ rc s' (p / PGSIZE) = 1
           /\ (forall pn, pn <> p / PGSIZE -> rc s' pn = rc s pn)
           /\ same_off (k_mem s') (k_mem s) p PGSIZE
           /\ (forall a, p <= a < p + PGSIZE -> rd (k_mem s') a = 5)
       end.
Proof.
  intros H. destruct l as [|q l].
  - exists 0, s. by rewrite kalloc_empty.
  - destruct (kalloc_cons s q l H) as (s' & E & H1 & H2 & H3 & H4 & H5).
    pose proof (Forall_inv (kinv_pages _ _ H)) as Hq.
    exists q, s'. split_and!; try done.
    apply (kinv_free _ _ H q Hq). set_solver.
Qed.

(** [kalloc] on a well-formed allocator: with an empty free list it returns 0
    and changes nothing; otherwise it returns a managed page that was not in
    use, now with count 1 and filled with junk, no other page or count is
    touched, and the allocator stays well formed.  It never panics. *)
Theorem kalloc_correct s l :
  kinv s l ->
  exists p s', kalloc s = Ret (p, s')
    /\ match l with
       | [] => p = 0 /\ s' = s
       | q :: l' =>
           p = q /\ page_ok p /\ rc s (p / PGSIZE) = 0 /\ kinv s' l'
           /\ rc s' (p / PGSIZE) = 1
           /\ (forall pn, pn <> p / PGSIZE -> rc s' pn = rc s pn)
           /\ same_off (k_mem s') (k_mem s) p PGSIZE
           /\ (forall a, p <= a < p + PGSIZE -> rd (k_mem s') a = 5)
       end.
Proof. apply kalloc_spec. Qed.

(** ** kfree *)

Lemma kfree_dec_ok s p :
  page_ok p -> 1 <= rc s (p / PGSIZE) < 2 ^ 31 ->
  kfree_dec s p = Ret (set_rc s (p / PGSIZE) (rc s (p / PGSIZE) - 1)).
Proof.
  intros Hp Hrc. unfold kfree_dec. rewrite (page_ok_pn p Hp).
  destruct Hp as (H1 & H2 & H3). rewrite H1. change (nz 0) with false. simpl.
  lia_tests. rewrite s32_small by lia. done.
Qed.

Lemma kfree_tail_keep s p :
  page_ok p -> 0 < rc s (p / PGSIZE) -> kfree_tail s p = Ret s.
Proof. intros Hp Hrc. unfold kfree_tail. rewrite (page_ok_pn p Hp). by lia_tests. Qed.

(** The state after the page has been pushed on the free list. *)
Definition pushed (s : kst) (p : Z) : kst :=
  MkKst (store64 (memset (k_mem s) p 1 PGSIZE) p (k_freelist s)) p (k_refcount s).

Lemma kfree_tail_push s p :
  page_ok p -> rc s (p / PGSIZE) <= 0 -> kfree_tail s p = Ret (pushed s p).
Proof. intros Hp Hrc. unfold kfree_tail. rewrite (page_ok_pn p Hp). by lia_tests. Qed.

Lemma pushed_off s p : same_off (k_mem (pushed s p)) (k_mem s) p PGSIZE.
Proof.
  unfold pushed. simpl. eapply same_off_trans.
  - eapply same_off_weaken; [apply store64_off|lia|unfold PGSIZE; lia].
  - apply memset_off. unfold PGSIZE; lia.
Qed.

Lemma flist_head_range m h l : flist m h l -> Forall page_ok l -> 0 <= h < 2 ^ 64.
Proof.
  destruct l as [|p l]; simpl; [lia|]. intros [-> _] H. apply Forall_inv in H.
  apply page_ok_range56 in H. lia.
Qed.

Lemma flist_pushed s p l :
  flist (k_mem s) (k_freelist s) l -> Forall page_ok l -> page_ok p -> p ∉ l ->
  flist (k_mem (pushed s p)) (k_freelist (pushed s p)) (p :: l).
Proof.
  intros Hl Hpg Hp Hnot. split; [done|].
  replace (load64 (k_mem (pushed s p)) p) with (k_freelist s).
  - eapply flist_write; eauto. apply pushed_off.
  - unfold pushed. simpl. rewrite load64_store64; [done|]. by eapply flist_head_range.
Qed.

Lemma kinv_pushed s p l :
  kinv s l -> page_ok p -> rc s (p / PGSIZE) = 1 ->
  kinv (pushed (set_rc s (p / PGSIZE) 0) p) (p :: l).
Proof.
  intros [Hl Hnd Hpg Hfree Hpos] Hp Hrc.
  assert (Hnot : p ∉ l) by (rewrite Hfree by done; lia).
  split.
  - by apply flist_pushed.
  - by apply NoDup_cons.
  - by apply Forall_cons.
  - intros q Hq. change (rc (pushed ?t p)) with (rc t). rewrite rc_set_rc. case_decide as E.
    + apply page_number_inj in E; [|apply Hp|apply Hq]. subst q. set_solver.
    + rewrite <- (Hfree q Hq), elem_of_cons. split; [|by right].
      intros [-> |]; done.
  - intros q Hq. change (rc (pushed ?t p)) with (rc t). rewrite rc_set_rc.
    case_decide; [lia|by apply Hpos].
Qed.

Lemma kinv_dec s p l v :
  kinv s l -> page_ok p -> 0 < rc s (p / PGSIZE) -> 0 < v ->
  kinv (set_rc s (p / PGSIZE) v) l.
Proof.
  intros [Hl Hnd Hpg Hfree Hpos] Hp Hrc Hv. split; try done.
  - intros q Hq. rewrite rc_set_rc, (Hfree q Hq). case_decide as E; [|done].
    rewrite <- E. lia.
  - intros q Hq. rewrite rc_set_rc. case_decide; [lia|by apply Hpos].
Qed.

Lemma kfree_shared s p l :
  kinv s l -> page_ok p -> 1 < rc s (p / PGSIZE) < 2 ^ 31 ->
  kfree s p = Ret (set_rc s (p / PGSIZE) (rc s (p / PGSIZE) - 1)).
Proof.
  intros H Hp Hrc. unfold kfree. rewrite kfree_dec_ok by (done || lia). simpl.
  apply kfree_tail_keep; [done|]. rewrite rc_set_rc, decide_True by done. lia.
Qed.

Lemma kfree_last s p :
  page_ok p -> rc s (p / PGSIZE) = 1 ->
  kfree s p = Ret (pushed (set_rc s (p / PGSIZE) 0) p).
Proof.
  intros Hp Hrc. unfold kfree. rewrite kfree_dec_ok by (done || lia). simpl.
  rewrite Hrc. apply kfree_tail_push; [done|]. rewrite rc_set_rc, decide_True by done. lia.
Qed.

Lemma kfree_spec s l p :
  kinv s l -> page_ok p -> 1 <= rc s (p / PGSIZE) < 2 ^ 31 ->
  exists s', kfree s p = Ret s'
    /\ rc s' (p / PGSIZE) = rc s (p / PGSIZE) - 1
    /\ (forall pn, pn <> p / PGSIZE -> rc s' pn = rc s pn)
    /\ same_off (k_mem s') (k_mem s) p PGSIZE
    /\ kinv s' (if rc s (p / PGSIZE) =? 1 then p :: l else l).
Proof.
  intros H Hp Hrc. destruct (decide (rc s (p / PGSIZE) = 1)) as [E|E].
  - rewrite (kfree_last s p Hp E). eexists. split; [done|].
    rewrite E. simpl. split_and!.
    + change (rc (pushed ?t p)) with (rc t). rewrite rc_set_rc, decide_True; done.
    + intros pn Hpn. change (rc (pushed ?t p)) with (rc t). rewrite rc_set_rc, decide_False; done.
    + apply pushed_off.
    + by apply kinv_pushed.
  - rewrite (kfree_shared s p l) by (done || lia). eexists. split; [done|].
    lia_tests. split_and!.
    + rewrite rc_set_rc, decide_True; done.
    + intros pn Hpn. rewrite rc_set_rc, decide_False; done.
    + intros b _. done.
    + apply kinv_dec; done || lia.
Qed.

(** [kfree] of a page in use: a shared page only loses one reference; the last
    reference puts the page back on the free list.  Memory outside the page is
    untouched and the allocator stays well formed. *)
Theorem kfree_correct s l p :
  kinv s l -> page_ok p -> 1 <= rc s (p / PGSIZE) < 2 ^ 31 ->
  exists s', kfree s p = Ret s'
    /\ rc s' (p / PGSIZE) = rc s (p / PGSIZE) - 1
    /\ (forall pn, pn <> p / PGSIZE -> rc s' pn = rc s pn)
    /\ same_off (k_mem s') (k_mem s) p PGSIZE
    /\ kinv s' (if rc s (p / PGSIZE) =? 1 then p :: l else l).
Proof. apply kfree_spec. Qed.

(** The guards of [kfree]: a misaligned address, an address below [end] or at or
    above PHYSTOP, and a page without references are all refused by a panic. *)
Theorem kfree_guards s p :
  ~ (p mod PGSIZE = 0 /\ kend <= p < PHYSTOP) \/ rc s (s32 (p / PGSIZE)) < 1 ->
  kfree s p = Panic "kfree" \/ kfree s p = Panic "kfree cow".
Proof.
  intros H. unfold kfree, kfree_dec. case_if; [by left|].
  right. lia_tests. done.
Qed.

(** ** incref *)

Lemma incref_correct s l p :
  kinv s l -> page_ok p -> 1 <= rc s (p / PGSIZE) < 2 ^ 31 - 1 ->
  incref s p = Ret (set_rc s (p / PGSIZE) (rc s (p / PGSIZE) + 1))
  /\ kinv (set_rc s (p / PGSIZE) (rc s (p / PGSIZE) + 1)) l.
Proof.
  intros H Hp Hrc. split.
  - unfold incref. rewrite (page_ok_pn p Hp). destruct Hp as (_ & _ & Hhi).
    lia_tests. rewrite s32_small by lia. done.
  - apply kinv_dec; done || lia.
Qed.

(** ** kinit *)

(** Before the allocator runs: an empty list and no counted page. *)
Definition k_boot (s : kst) : Prop :=
  k_freelist s = 0 /\ forall p, page_ok p -> rc s (p / PGSIZE) = 0.

(** While [freerange] runs: the pages of [l] are listed, nothing is counted. *)
Record filling (s : kst) (l : list Z) (p : Z) : Prop := MkFilling {
  fil_list : flist (k_mem s) (k_freelist s) l;
  fil_nodup : NoDup l;
  fil_pages : Forall page_ok l;
  fil_upto : forall q, page_ok q -> (q ∈ l <-> q < p);
  fil_rc : forall q, page_ok q -> rc s (q / PGSIZE) = 0
}.

Lemma freerange_step s l p :
  filling s l p -> page_ok p ->
  exists s', kfree (set_rc s (p / PGSIZE) 1) p = Ret s' /\ filling s' (p :: l) (p + PGSIZE).
Proof.
  intros [Hl Hnd Hpg Hup Hrc] Hp.
  rewrite kfree_last; [|done|rewrite rc_set_rc, decide_True; done].
  eexists. split; [done|].
  assert (Hnot : p ∉ l) by (rewrite Hup by done; lia). split.
  - by apply flist_pushed.
  - by apply NoDup_cons.
  - by apply Forall_cons.
  - intros q Hq. rewrite elem_of_cons, (Hup q Hq).
    destruct Hp as [Hp _], Hq as [Hq _]. unfold PGSIZE in *. split; [intros [-> |]; lia|].
    intros Hlt. destruct (decide (q = p)); [by left|right]. dlia.
  - intros q Hq. change (rc (pushed ?t p)) with (rc t). rewrite !rc_set_rc.
    repeat case_decide; try done. by apply Hrc.
Qed.

Lemma freerange_loop_ok fuel s l p :
  KERNBASE <= kend <= p -> p mod PGSIZE = 0 -> p <= PHYSTOP ->
  Z.of_nat fuel = (PHYSTOP - p) / PGSIZE ->
  filling s l p ->
  exists s' l', freerange_loop fuel s p PHYSTOP = Ret s' /\ filling s' l' PHYSTOP.
Proof.
  revert s l p. induction fuel as [|fuel IH]; intros s l p Hk Hal Hhi Hf Hfil.
  - assert (p = PHYSTOP) as ->.
    { unfold PHYSTOP, KERNBASE, PGSIZE in *. dlia. }
    cbn [freerange_loop]. rewrite (proj2 (Z.leb_gt _ _)) by (unfold PGSIZE; lia). eauto.
  - assert (Hp : page_ok p).
    { unfold page_ok. unfold PHYSTOP, KERNBASE, PGSIZE in *. dlia. }
    pose proof (page_ok_bounds p Hp) as (_ & Hle & _).
    cbn [freerange_loop]. rewrite (proj2 (Z.leb_le _ _) Hle).
    destruct (freerange_step s l p Hfil Hp) as (s1 & -> & Hfil1). simpl.
    apply (IH s1 (p :: l)); try done; unfold PHYSTOP, KERNBASE, PGSIZE in *; dlia.
Qed.

(** [kinit] terminates and hands every page between [end] and PHYSTOP to the
    allocator: the result is well formed and every managed page is free. *)
Theorem kinit_correct s :
  KERNBASE <= kend <= PHYSTOP - PGSIZE -> k_boot s ->
  exists s' l, kinit s = Ret s' /\ kinv s' l /\ (forall p, page_ok p <-> p ∈ l).
Proof.
  intros Hk [Hfree0 Hrc0]. unfold kinit, freerange.
  assert (Hk64 : 0 <= kend <= 2 ^ 64 - PGSIZE) by (unfold PHYSTOP, KERNBASE, PGSIZE in *; lia).
  pose proof (PGROUNDUP_aligned kend Hk64) as Hal.
  pose proof (PGROUNDUP_bounds kend Hk64) as Hb.
  destruct (freerange_loop_ok (Z.to_nat ((PHYSTOP - PGROUNDUP kend) / PGSIZE)) s []
    (PGROUNDUP kend)) as (s' & l & E & [Hl Hnd Hpg Hup Hrc]).
  - lia.
  - done.
  - unfold PHYSTOP, KERNBASE, PGSIZE in *. dlia.
  - unfold PHYSTOP, KERNBASE, PGSIZE in *. dlia.
  - split; simpl; try done.
    + apply NoDup_nil_2.
    + intros q Hq. destruct Hq as (Hq1 & Hq2 & _). rewrite elem_of_nil.
      unfold PGSIZE in *. split; [done|]. intros Hlt. dlia.
  - exists s', l. split; [done|]. split; [split; try done|].
    + intros p Hp. rewrite (Hup p Hp), (Hrc p Hp). destruct Hp as (_ & _ & Hp). lia.
    + intros p Hp. rewrite (Hrc p Hp). lia.
    + intros p. split.
      * intros Hp. apply (Hup p Hp). apply Hp.
      * intros Hp. rewrite Forall_forall in Hpg. by apply Hpg.
Qed.

(** ** kmemamount *)

Lemma free_length l :
  NoDup l -> Forall page_ok l -> Z.of_nat (length l) <= (PHYSTOP - KERNBASE) / PGSIZE.
Proof.
  intros Hnd Hpg.
  pose proof (NoDup_bounded_length ((fun p => p / PGSIZE) <$> l)
    (KERNBASE / PGSIZE) (PHYSTOP / PGSIZE)) as H.
  rewrite length_fmap in H.
  assert (Z.of_nat (length l) <= Z.max 0 (PHYSTOP / PGSIZE - KERNBASE / PGSIZE)).
  { apply H.
    - apply NoDup_fmap_2_strong; [|done]. intros x y Hx Hy E.
      rewrite Forall_forall in Hpg.
      eapply page_number_inj; [apply Hpg|apply Hpg|]; done.
    - rewrite Forall_fmap. eapply Forall_impl; [exact Hpg|]. intros p Hp. simpl.
      apply page_ok_bounds in Hp. unfold PHYSTOP, KERNBASE, PGSIZE in *. dlia. }
  change (PHYSTOP / PGSIZE) with 557056 in *. change (KERNBASE / PGSIZE) with 524288 in *.
  change ((PHYSTOP - KERNBASE) / PGSIZE) with 32768. lia.
Qed.

Lemma kmemamount_loop_ok fuel m h l amount :
  flist m h l -> Forall page_ok l -> (length l <= fuel)%nat ->
  0 <= amount -> amount + PGSIZE * Z.of_nat (length l) < 2 ^ 31 ->
  kmemamount_loop fuel m h amount = Ret (amount + PGSIZE * Z.of_nat (length l)).
Proof.
  revert h l amount. induction fuel as [|fuel IH]; intros h l amount Hl Hpg Hf Ha Hb.
  - destruct l; simpl in *; [|lia]. subst h. simpl. f_equal. lia.
  - destruct l as [|p l]; simpl in Hl.
    + subst h. simpl. f_equal. lia.
    + destruct Hl as [-> Hl]. apply Forall_cons in Hpg as [Hp Hpg].
      pose proof (page_ok_bounds p Hp) as (_ & _ & Hnz).
      cbn [kmemamount_loop]. rewrite (proj2 (nz_true p) Hnz).
      cbn [length] in *. rewrite Nat2Z.inj_succ in *. unfold PGSIZE in *.
      rewrite s32_small by lia. rewrite (IH _ l); try done; try lia. f_equal. lia.
Qed.

(** [kmemamount] terminates, its [int] never overflows, and it returns the number
    of free bytes. *)
Theorem kmemamount_correct s l :
  kinv s l -> kmemamount s = Ret (PGSIZE * Z.of_nat (length l)).
Proof.
  intros [Hl Hnd Hpg _ _]. pose proof (free_length l Hnd Hpg) as Hlen.
  unfold kmemamount. change ((PHYSTOP - KERNBASE) / PGSIZE) with 32768 in *.
  rewrite (kmemamount_loop_ok _ _ _ l); try done; unfold PGSIZE; lia.
Qed.

(** ** Any use of the allocator *)

(** What the rest of the kernel does: allocate, drop or add a reference to a
    page it holds one of, write into pages it holds. *)
Inductive kstep : kst -> kst -> Prop :=
| step_kalloc s p s' : kalloc s = Ret (p, s') -> kstep s s'
| step_kfree s p s' :
    page_ok p -> 1 <= rc s (p / PGSIZE) < 2 ^ 31 -> kfree s p = Ret s' -> kstep s s'
| step_incref s p s' :
    page_ok p -> 1 <= rc s (p / PGSIZE) < 2 ^ 31 - 1 -> incref s p = Ret s' -> kstep s s'
| step_write s p m :
    page_ok p -> 1 <= rc s (p / PGSIZE) -> same_off m (k_mem s) p PGSIZE ->
    kstep s (set_mem s m).

Lemma kinv_write s l p m :
  kinv s l -> page_ok p -> 1 <= rc s (p / PGSIZE) -> same_off m (k_mem s) p PGSIZE ->
  kinv (set_mem s m) l.
Proof.
  intros [Hl Hnd Hpg Hfree Hpos] Hp Hrc Hoff. split; try done.
  eapply flist_write; eauto. rewrite (Hfree p Hp). lia.
Qed.

Lemma kstep_inv s s' l : kinv s l -> kstep s s' -> exists l', kinv s' l'.
Proof.
  intros H Hstep. destruct Hstep as [s p s' E|s p s' Hp Hrc E|s p s' Hp Hrc E|s p m Hp Hrc Hoff].
  - destruct (kalloc_spec s l H) as (q & t & E2 & Hq). rewrite E in E2. simplify_eq.
    destruct l as [|r l]; [destruct Hq as [_ ->]; eauto|]. exists l. tauto.
  - destruct (kfree_spec s l p H Hp Hrc) as (t & E2 & _ & _ & _ & Hk).
    rewrite E in E2. simplify_eq. eauto.
  - destruct (incref_correct s l p H Hp Hrc) as [E2 Hk]. rewrite E in E2. simplify_eq. eauto.
  - exists l. by eapply kinv_write.
Qed.

(** (C5) However the kernel uses the allocator after [kinit], [kalloc] never panics, and
    a page it returns was referenced by nobody: no page is ever handed out
    twice. *)
Theorem kalloc_exclusive s0 s1 s :
  KERNBASE <= kend <= PHYSTOP - PGSIZE -> k_boot s0 -> kinit s0 = Ret s1 -> rtc kstep s1 s ->
  exists p s', kalloc s = Ret (p, s')
    /\ (p = 0 \/ (page_ok p /\ rc s (p / PGSIZE) = 0 /\ rc s' (p / PGSIZE) = 1)).
Proof.
  intros Hk Hb E Hsteps. destruct (kinit_correct s0 Hk Hb) as (t & l0 & Et & Hinv & _).
  rewrite E in Et. simplify_eq.
  assert (Hl : exists l, kinv s l).
  { clear E. revert l0 Hinv. induction Hsteps as [|x y z Hxy Hyz IH]; intros l0 Hinv; [eauto|].
    destruct (kstep_inv _ _ _ Hinv Hxy) as [l1 H1]. eauto. }
  destruct Hl as [l Hl]. destruct (kalloc_spec s l Hl) as (p & s' & E2 & Hp).
  exists p, s'. split; [done|]. destruct l; [left|right]; tauto.
Qed.

(** ** The unlocked test of kfree *)

(** Two CPUs drop the two references of a page at the same time: both
    decrements run before either test. *)
Definition kfree_race (s : kst) (p : Z) : outcome kst :=
  s1 ← kfree_dec s p;
  s2 ← kfree_dec s1 p;
  s3 ← kfree_tail s2 p;
  kfree_tail s3 p.

(** (C39) Because [kfree] tests the count after releasing the lock, that schedule pushes
    the page twice: the page becomes its own successor on the free list, and
    the second allocation that follows panics. *)
Theorem kfree_race_double_free s l p :
  kinv s l -> page_ok p -> rc s (p / PGSIZE) = 2 ->
  exists s', kfree_race s p = Ret s'
    /\ k_freelist s' = p /\ load64 (k_mem s') p = p
    /\ exists s'', kalloc s' = Ret (p, s'') /\ kalloc s'' = Panic "kalloc: ref".
Proof.
  intros H Hp Hrc. unfold kfree_race.
  rewrite kfree_dec_ok by (done || lia). simpl. rewrite Hrc.
  rewrite kfree_dec_ok by (rewrite ?rc_set_rc, ?decide_True by done; (done || lia)). simpl.
  rewrite rc_set_rc, decide_True by done.
  rewrite kfree_tail_push by (rewrite ?rc_set_rc, ?decide_True by done; (done || lia)). simpl.
  rewrite kfree_tail_push; [|done|].
  2: { change (rc (pushed ?t p)) with (rc t). rewrite rc_set_rc, decide_True by done. lia. }
  eexists. split; [done|]. pose proof (page_ok_range56 p Hp). simpl. split_and!.
  - done.
  - rewrite load64_store64; [done|lia].
  - unfold kalloc. pose proof (page_ok_bounds p Hp) as (_ & _ & Hnz). simpl.
    rewrite (proj2 (nz_true p) Hnz), (page_ok_pn p Hp).
    unfold rc. simpl. rewrite !lookup_insert_eq. simpl. eexists. split; [done|].
    cbn [k_freelist k_mem k_refcount set_mem]. rewrite load64_store64 by lia.
    rewrite (proj2 (nz_true p) Hnz), (page_ok_pn p Hp).
    rewrite lookup_insert_eq. done.
Qed.

End Kalloc.

(** ** Concrete instances *)

(** A layout that leaves the last two pages of RAM to the allocator. *)
Definition page1 : Z := PHYSTOP - 2 * PGSIZE.
Definition page2 : Z := PHYSTOP - PGSIZE.
Definition demo_layout : Layout :=
  {| kend := page1; etext := KERNBASE + 8 * PGSIZE; trampoline := KERNBASE |}.

(** Both pages free; [page1] in use with [n] references and [page2] free. *)
Definition demo_free : kst := MkKst (store64 ∅ page1 page2) page1 ∅.
Definition demo_used (n : Z) : kst := MkKst ∅ page2 {[ page1 / PGSIZE := n ]}.

Lemma demo_pages p : @page_ok demo_layout p -> p = page1 \/ p = page2.
Proof.
  unfold page_ok. simpl. unfold page1, page2, PHYSTOP, KERNBASE, PGSIZE. dlia.
Qed.

Lemma demo_page1 : @page_ok demo_layout page1.
Proof. split; [reflexivity|]. simpl. unfold page1, PHYSTOP, KERNBASE, PGSIZE. lia. Qed.
Lemma demo_page2 : @page_ok demo_layout page2.
Proof. split; [reflexivity|]. simpl. unfold page1, page2, PHYSTOP, KERNBASE, PGSIZE. lia. Qed.

Lemma demo_free_inv : @kinv demo_layout demo_free [page1; page2].
Proof.
  split.
  - vm_compute. done.
  - apply NoDup_cons. split; [|apply NoDup_singleton].
    rewrite list_elem_of_singleton. unfold page1, page2, PHYSTOP, KERNBASE, PGSIZE. lia.
  - repeat constructor; (apply demo_page1 || apply demo_page2).
  - intros p Hp. apply demo_pages in Hp as [-> | ->];
      (split; [reflexivity|intros _; rewrite elem_of_cons, list_elem_of_singleton; tauto]).
  - intros p Hp. apply demo_pages in Hp as [-> | ->]; vm_compute; discriminate.
Qed.

Lemma demo_used_inv n : 0 < n -> @kinv demo_layout (demo_used n) [page2].
Proof.
  intros Hn.
  assert (H1 : rc (demo_used n) (page1 / PGSIZE) = n).
  { unfold rc, demo_used. cbn [k_refcount]. by rewrite lookup_singleton_eq. }
  assert (H2 : rc (demo_used n) (page2 / PGSIZE) = 0) by reflexivity.
  split.
  - vm_compute. done.
  - apply NoDup_singleton.
  - apply Forall_singleton, demo_page2.
  - intros p Hp. rewrite list_elem_of_singleton.
    apply demo_pages in Hp as [-> | ->]; rewrite ?H1, ?H2; [|done].
    unfold page1, page2, PGSIZE. lia.
  - intros p Hp. apply demo_pages in Hp as [-> | ->]; rewrite ?H1, ?H2; lia.
Qed.

Lemma kalloc_correct_witness :
  exists s', kalloc demo_free = Ret (page1, s') /\ rc s' (page1 / PGSIZE) = 1.
Proof.
  destruct (@kalloc_correct demo_layout demo_free _ demo_free_inv)
    as (p & s' & E & -> & _ & _ & _ & H & _).
  exists s'. split; [exact E|exact H].
Defined.

Lemma kfree_correct_witness :
  exists s', @kfree demo_layout (demo_used 1) page1 = Ret s'
    /\ @kinv demo_layout s' [page1; page2].
Proof.
  destruct (@kfree_correct demo_layout (demo_used 1) [page2] page1
    (demo_used_inv 1 ltac:(lia)) demo_page1 ltac:(vm_compute; split; [discriminate|reflexivity]))
    as (s' & E & _ & _ & _ & H).
  exists s'. split; [exact E|exact H].
Defined.

Lemma kfree_guards_witness :
  @kfree demo_layout demo_free (page1 + 1) = Panic "kfree"
  \/ @kfree demo_layout demo_free (page1 + 1) = Panic "kfree cow".
Proof.
  apply (@kfree_guards demo_layout demo_free (page1 + 1)).
  left. unfold page1, PHYSTOP, KERNBASE, PGSIZE. intros [H _]. discriminate.
Defined.

Definition demo_boot : kst := MkKst ∅ 0 ∅.

Lemma demo_boot_ok : @k_boot demo_layout demo_boot.
Proof. split; reflexivity. Qed.

Lemma kinit_correct_witness :
  exists s' l, @kinit demo_layout demo_boot = Ret s' /\ @kinv demo_layout s' l.
Proof.
  destruct (@kinit_correct demo_layout demo_boot
    ltac:(simpl; unfold page1, PHYSTOP, KERNBASE, PGSIZE; lia) demo_boot_ok)
    as (s' & l & E & H & _).
  exists s', l. split; [exact E|exact H].
Defined.

Lemma kmemamount_correct_witness : kmemamount demo_free = Ret 8192.
Proof. exact (@kmemamount_correct demo_layout demo_free _ demo_free_inv). Defined.

(** One page is taken, and then another. *)
Lemma kalloc_exclusive_witness :
  exists s1 p s2 q s', @kinit demo_layout demo_boot = Ret s1 /\ kalloc s1 = Ret (p, s2) /\ kalloc s2 = Ret (q, s') /\ (q = 0 \/ rc s2 (q / PGSIZE) = 0).
Proof.
  destruct (@kinit_correct demo_layout demo_boot
    ltac:(simpl; unfold page1, PHYSTOP, KERNBASE, PGSIZE; lia) demo_boot_ok)
    as (s1 & l & E & Hinv & _).
  destruct (@kalloc_spec demo_layout s1 l Hinv) as (p & s2 & E2 & _).
  destruct (@kalloc_exclusive demo_layout demo_boot s1 s2
    ltac:(simpl; unfold page1, PHYSTOP, KERNBASE, PGSIZE; lia) demo_boot_ok E (rtc_once _ _ (step_kalloc s1 p s2 E2)))
    as (q & s' & H & Hq).
  exists s1, p, s2, q, s'. split; [exact E|]. split; [exact E2|]. split; [exact H|]. destruct Hq as [Hq|(_ & Hq & _)]; [left|right]; exact Hq.
Defined.

Lemma kfree_race_double_free_witness :
  exists s', @kfree_race demo_layout (demo_used 2) page1 = Ret s' /\ k_freelist s' = page1.
Proof.
  destruct (@kfree_race_double_free demo_layout (demo_used 2) [page2] page1
    (demo_used_inv 2 ltac:(lia)) demo_page1 eq_refl) as (s' & E & H & _).
  exists s'. split; [exact E|exact H].
Defined.

End Kalloc.
