(* ===== verification/ProcDefs.v ===== *)
(** * kernel/include/proc.h: per-process data

    The process structure, shared by the memory, file and process components.
    Pointers into the kernel's static tables are indices into those tables;
    the trap frame is a page of physical memory, so its fields are addresses
    relative to [p_trapframe]. *)

From S2P Require Import Prelude Riscv.
From stdpp Require Import base list numbers gmap strings.
From Stdlib Require Import ZArith Lia.

#[local] Open Scope Z_scope.

(** Registers saved by a kernel context switch. *)
Record context : Type := MkContext {
  ctx_ra : Z;
  ctx_sp : Z;
  ctx_s : list Z  (** s0 .. s11 *)
}.

(** Byte offsets of the fields of [struct trapframe]. *)
Definition TF_kernel_satp : Z := 0.
Definition TF_kernel_sp : Z := 8.
Definition TF_kernel_trap : Z := 16.
Definition TF_epc : Z := 24.
Definition TF_kernel_hartid : Z := 32.
Definition TF_sp : Z := 48.
Definition TF_a0 : Z := 112.
Definition TF_a1 : Z := 120.
Definition TF_a2 : Z := 128.
Definition TF_a3 : Z := 136.
Definition TF_a4 : Z := 144.
Definition TF_a5 : Z := 152.
Definition TF_a7 : Z := 168.
Definition TF_size : Z := 288.

(** State of the alarm handler; [ta_trapframe_cp] holds the bytes of the saved
    trap frame. *)
Record trapalarm : Type := MkTrapalarm {
  ta_interval : Z;
  ta_ticks : Z;
  ta_state : Z;
  ta_handler : Z;
  ta_trapframe_cp : list Z
}.

Inductive procstate : Type :=
| UNUSED
| USED
| SLEEPING
| RUNNABLE
| RUNNING
| ZOMBIE.

#[global] Instance procstate_eq_dec : EqDecision procstate.
Proof. solve_decision. Defined.

(** What a process can sleep on: the address passed to [sleep]. *)
Inductive chan : Type :=
| NoChan                        (** the null pointer *)
| ChProc (i : nat)              (** &proc[i] *)
| ChObj (kind : string) (i : nat). (** a field of some other kernel object *)

#[global] Instance chan_eq_dec : EqDecision chan.
Proof. solve_decision. Defined.

Record proc : Type := MkProc {
  p_state : procstate;
  p_chan : chan;
  p_killed : Z;
  p_xstate : Z;
  p_pid : Z;
  p_parent : option nat;
  p_kstack : Z;
  p_sz : Z;
  p_pagetable : Z;
  p_trapframe : Z;
  p_context : context;
  p_ofile : list (option nat);
  p_cwd : option nat;
  p_name : list Z;
  p_mask : Z;
  p_kerntable : Z;
  p_trapalarm : trapalarm
}.

(** A slot of the static (zero-initialised) process table. *)
Definition context0 : context := MkContext 0 0 (replicate 12 0).
Definition trapalarm0 : trapalarm := MkTrapalarm 0 0 0 0 (replicate (Z.to_nat TF_size) 0).
Definition proc0 : proc :=
  MkProc UNUSED NoChan 0 0 0 None 0 0 0 0 context0 (replicate (Z.to_nat NOFILE) None) None
    (replicate 16 0) 0 0 trapalarm0.

(** The saved user registers of a process, in memory [m]. *)
Definition tf_load (m : gmap Z Z) (p : proc) (off : Z) : Z := load64 m (p_trapframe p + off).
Definition tf_store (m : gmap Z Z) (p : proc) (off v : Z) : gmap Z Z :=
  store64 m (p_trapframe p + off) v.

(** Field assignments. *)
Definition set_state (v : procstate) (p : proc) : proc :=
  MkProc v (p_chan p) (p_killed p) (p_xstate p) (p_pid p) (p_parent p) (p_kstack p) (p_sz p) (p_pagetable p) (p_trapframe p) (p_context p) (p_ofile p) (p_cwd p) (p_name p) (p_mask p) (p_kerntable p) (p_trapalarm p).
Definition set_chan (v : chan) (p : proc) : proc :=
  MkProc (p_state p) v (p_killed p) (p_xstate p) (p_pid p) (p_parent p) (p_kstack p) (p_sz p) (p_pagetable p) (p_trapframe p) (p_context p) (p_ofile p) (p_cwd p) (p_name p) (p_mask p) (p_kerntable p) (p_trapalarm p).
Definition set_killed (v : Z) (p : proc) : proc :=
  MkProc (p_state p) (p_chan p) v (p_xstate p) (p_pid p) (p_parent p) (p_kstack p) (p_sz p) (p_pagetable p) (p_trapframe p) (p_context p) (p_ofile p) (p_cwd p) (p_name p) (p_mask p) (p_kerntable p) (p_trapalarm p).
Definition set_xstate (v : Z) (p : proc) : proc :=
  MkProc (p_state p) (p_chan p) (p_killed p) v (p_pid p) (p_parent p) (p_kstack p) (p_sz p) (p_pagetable p) (p_trapframe p) (p_context p) (p_ofile p) (p_cwd p) (p_name p) (p_mask p) (p_kerntable p) (p_trapalarm p).
Definition set_pid (v : Z) (p : proc) : proc :=
  MkProc (p_state p) (p_chan p) (p_killed p) (p_xstate p) v (p_parent p) (p_kstack p) (p_sz p) (p_pagetable p) (p_trapframe p) (p_context p) (p_ofile p) (p_cwd p) (p_name p) (p_mask p) (p_kerntable p) (p_trapalarm p).
Definition set_parent (v : option nat) (p : proc) : proc :=
  MkProc (p_state p) (p_chan p) (p_killed p) (p_xstate p) (p_pid p) v (p_kstack p) (p_sz p) (p_pagetable p) (p_trapframe p) (p_context p) (p_ofile p) (p_cwd p) (p_name p) (p_mask p) (p_kerntable p) (p_trapalarm p).
Definition set_kstack (v : Z) (p : proc) : proc :=
  MkProc (p_state p) (p_chan p) (p_killed p) (p_xstate p) (p_pid p) (p_parent p) v (p_sz p) (p_pagetable p) (p_trapframe p) (p_context p) (p_ofile p) (p_cwd p) (p_name p) (p_mask p) (p_kerntable p) (p_trapalarm p).
Definition set_sz (v : Z) (p : proc) : proc :=
  MkProc (p_state p) (p_chan p) (p_killed p) (p_xstate p) (p_pid p) (p_parent p) (p_kstack p) v (p_pagetable p) (p_trapframe p) (p_context p) (p_ofile p) (p_cwd p) (p_name p) (p_mask p) (p_kerntable p) (p_trapalarm p).
Definition set_pagetable (v : Z) (p : proc) : proc :=
  MkProc (p_state p) (p_chan p) (p_killed p) (p_xstate p) (p_pid p) (p_parent p) (p_kstack p) (p_sz p) v (p_trapframe p) (p_context p) (p_ofile p) (p_cwd p) (p_name p) (p_mask p) (p_kerntable p) (p_trapalarm p).
Definition set_trapframe (v : Z) (p : proc) : proc :=
  MkProc (p_state p) (p_chan p) (p_killed p) (p_xstate p) (p_pid p) (p_parent p) (p_kstack p) (p_sz p) (p_pagetable p) v (p_context p) (p_ofile p) (p_cwd p) (p_name p) (p_mask p) (p_kerntable p) (p_trapalarm p).
Definition set_context (v : context) (p : proc) : proc :=
  MkProc (p_state p) (p_chan p) (p_killed p) (p_xstate p) (p_pid p) (p_parent p) (p_kstack p) (p_sz p) (p_pagetable p) (p_trapframe p) v (p_ofile p) (p_cwd p) (p_name p) (p_mask p) (p_kerntable p) (p_trapalarm p).
Definition set_ofile (v : list (option nat)) (p : proc) : proc :=
  MkProc (p_state p) (p_chan p) (p_killed p) (p_xstate p) (p_pid p) (p_parent p) (p_kstack p) (p_sz p) (p_pagetable p) (p_trapframe p) (p_context p) v (p_cwd p) (p_name p) (p_mask p) (p_kerntable p) (p_trapalarm p).
Definition set_cwd (v : option nat) (p : proc) : proc :=
  MkProc (p_state p) (p_chan p) (p_killed p) (p_xstate p) (p_pid p) (p_parent p) (p_kstack p) (p_sz p) (p_pagetable p) (p_trapframe p) (p_context p) (p_ofile p) v (p_name p) (p_mask p) (p_kerntable p) (p_trapalarm p).
Definition set_name (v : list Z) (p : proc) : proc :=
  MkProc (p_state p) (p_chan p) (p_killed p) (p_xstate p) (p_pid p) (p_parent p) (p_kstack p) (p_sz p) (p_pagetable p) (p_trapframe p) (p_context p) (p_ofile p) (p_cwd p) v (p_mask p) (p_kerntable p) (p_trapalarm p).
Definition set_mask (v : Z) (p : proc) : proc :=
  MkProc (p_state p) (p_chan p) (p_killed p) (p_xstate p) (p_pid p) (p_parent p) (p_kstack p) (p_sz p) (p_pagetable p) (p_trapframe p) (p_context p) (p_ofile p) (p_cwd p) (p_name p) v (p_kerntable p) (p_trapalarm p).
Definition set_kerntable (v : Z) (p : proc) : proc :=
  MkProc (p_state p) (p_chan p) (p_killed p) (p_xstate p) (p_pid p) (p_parent p) (p_kstack p) (p_sz p) (p_pagetable p) (p_trapframe p) (p_context p) (p_ofile p) (p_cwd p) (p_name p) (p_mask p) v (p_trapalarm p).
Definition set_trapalarm (v : trapalarm) (p : proc) : proc :=
  MkProc (p_state p) (p_chan p) (p_killed p) (p_xstate p) (p_pid p) (p_parent p) (p_kstack p) (p_sz p) (p_pagetable p) (p_trapframe p) (p_context p) (p_ofile p) (p_cwd p) (p_name p) (p_mask p) (p_kerntable p) v.
