(* ===== verification/Vm.v ===== *)
(** * kernel/vm.c: page tables and user memory

    Page tables are kept where the hardware reads them: a page-table page is
    512 little-endian 64-bit entries of physical memory.  Pointers to kernel
    objects other than pages (buffers, structures) are values, so the byte
    copies between such an object and a physical page are [mem_put] and
    [mem_get]; page-to-page copies use [memmove]. *)

From S2P Require Import Prelude Riscv KString Kalloc ProcDefs.
From stdpp Require Import base list numbers gmap strings.
From Stdlib Require Import ZArith Lia.
Import KString Kalloc.

#[local] Open Scope Z_scope.

(** Copy the bytes [bs] of a kernel object to physical address [a]. *)
Fixpoint mem_put (m : gmap Z Z) (a : Z) (bs : list Z) : gmap Z Z :=
  match bs with
  | [] => m
  | b :: bs' => mem_put (wr m a b) (a + 1) bs'
  end.

(** The [n] bytes at physical address [a]. *)
Definition mem_get (m : gmap Z Z) (a n : Z) : list Z := bytes m a n.

Module Vm.
Section Vm.
Context {L : Layout}.

(** ** walk *)

(** The loop over levels 2 and 1, from table page [pagetable]. *)
Fixpoint walk_loop (levels : list Z) (s : kst) (pagetable va : Z) (alloc : bool)
    : outcome (Z * kst) :=
  match levels with
  | [] => Ret (pagetable + 8 * PX 0 va, s)
  | level :: rest =>
      let pte := pagetable + 8 * PX level va in
      let e := load64 (k_mem s) pte in
      if nz (Z.land e PTE_V) then walk_loop rest s (PTE2PA e) va alloc
      else if negb alloc then Ret (0, s)
      else
        '(page, s1) ← kalloc s;
        if page =? 0 then Ret (0, s1)
        else
          let m := memset (k_mem s1) page 0 PGSIZE in
          let m := store64 m pte (Z.lor (PA2PTE page) PTE_V) in
          walk_loop rest (set_mem s1 m) page va alloc
  end.

(** Address of the level-0 entry for [va], 0 if there is none. *)
Definition walk (s : kst) (pagetable va : Z) (alloc : bool) : outcome (Z * kst) :=
  if MAXVA <=? va then Panic "walk" else walk_loop [2; 1] s pagetable va alloc.

(** ** mappages *)

(** The endless loop of [mappages], one turn per page; it leaves the loop at
    [a == last], on a failed [walk], or by a panic, at the latest when [a]
    reaches MAXVA. *)
Fixpoint mappages_loop (fuel : nat) (s : kst) (pagetable a last pa perm : Z)
    : outcome (Z * kst) :=
  match fuel with
  | O => Fuel
  | S fuel' =>
      '(pte, s1) ← walk s pagetable a true;
      if pte =? 0 then Ret (-1, s1)
      else if nz (Z.land (load64 (k_mem s1) pte) PTE_V) then Panic "mappages: remap"
      else
        let e := Z.lor (Z.lor (PA2PTE pa) perm) PTE_V in
        let s2 := set_mem s1 (store64 (k_mem s1) pte e) in
        if a =? last then Ret (0, s2)
        else mappages_loop fuel' s2 pagetable (u64 (a + PGSIZE)) last (u64 (pa + PGSIZE)) perm
  end.

(** Number of turns: from [a] to [last], or to MAXVA when [last] is not ahead. *)
Definition mappages_fuel (a last : Z) : nat :=
  if a <=? last then Z.to_nat ((last - a) / PGSIZE + 1)
  else Z.to_nat ((MAXVA - a) / PGSIZE + 1).

Definition mappages (s : kst) (pagetable va size pa perm : Z) : outcome (Z * kst) :=
  if size =? 0 then Panic "mappages: size"
  else
    let a := PGROUNDDOWN va in
    let last := PGROUNDDOWN (u64 (va + size - 1)) in
    mappages_loop (mappages_fuel a last) s pagetable a last pa perm.

Definition kvmmap (s : kst) (kpgtbl va pa sz perm : Z) : outcome kst :=
  '(r, s1) ← mappages s kpgtbl va sz pa perm;
  if nz r then Panic "kvmmap" else Ret s1.

(** ** uvmunmap *)

(** One turn of the loop of [uvmunmap], for the page at [a]. *)
Definition uvmunmap_page (s : kst) (pagetable a : Z) (do_free : bool) : outcome kst :=
  '(pte, s1) ← walk s pagetable a false;
  if pte =? 0 then Ret s1
  else
    let e := load64 (k_mem s1) pte in
    if Z.land e PTE_V =? 0 then Ret s1
    else if PTE_FLAGS e =? PTE_V then Panic "uvmunmap: not a leaf"
    else
      s2 ← (if do_free then kfree s1 (PTE2PA e) else Ret s1);
      Ret (set_mem s2 (store64 (k_mem s2) pte 0)).

Fixpoint uvmunmap_loop (n : nat) (s : kst) (pagetable a : Z) (do_free : bool) : outcome kst :=
  match n with
  | O => Ret s
  | S n' =>
      s1 ← uvmunmap_page s pagetable a do_free;
      uvmunmap_loop n' s1 pagetable (a + PGSIZE) do_free
  end.

(** [for (a = va; a < va + npages * PGSIZE; a += PGSIZE)], the bound in 64 bits. *)
Definition uvmunmap (s : kst) (pagetable va npages : Z) (do_free : bool) : outcome kst :=
  if nz (va mod PGSIZE) then Panic "uvmunmap: not aligned"
  else uvmunmap_loop (Z.to_nat ((u64 (va + npages * PGSIZE) - va) / PGSIZE)) s pagetable va do_free.

(** ** User address spaces *)

Definition uvmcreate (s : kst) : outcome (Z * kst) :=
  '(pagetable, s1) ← kalloc s;
  if pagetable =? 0 then Ret (0, s1)
  else Ret (pagetable, set_mem s1 (memset (k_mem s1) pagetable 0 PGSIZE)).

(** [src] is [initcode]; [kalloc] is not checked. *)
Definition uvminit (s : kst) (pagetable : Z) (src : list Z) : outcome kst :=
  if PGSIZE <=? Z.of_nat (length src) then Panic "inituvm: more than a page"
  else
    '(mem, s1) ← kalloc s;
    let s2 := set_mem s1 (memset (k_mem s1) mem 0 PGSIZE) in
    '(_, s3) ← mappages s2 pagetable 0 PGSIZE mem (Z.lor (Z.lor (Z.lor PTE_W PTE_R) PTE_X) PTE_U);
    Ret (set_mem s3 (mem_put (k_mem s3) mem src)).

Definition uvmdealloc (s : kst) (pagetable oldsz newsz : Z) : outcome (Z * kst) :=
  if oldsz <=? newsz then Ret (oldsz, s)
  else if PGROUNDUP newsz <? PGROUNDUP oldsz then
    let npages := s32 ((PGROUNDUP oldsz - PGROUNDUP newsz) / PGSIZE) in
    s1 ← uvmunmap s pagetable (PGROUNDUP newsz) npages true;
    Ret (newsz, s1)
  else Ret (newsz, s).

Fixpoint uvmalloc_loop (fuel : nat) (s : kst) (pagetable oldsz a newsz : Z) : outcome (Z * kst) :=
  if a <? newsz then
    match fuel with
    | O => Fuel
    | S fuel' =>
        '(mem, s1) ← kalloc s;
        if mem =? 0 then
          '(_, s2) ← uvmdealloc s1 pagetable a oldsz;
          Ret (0, s2)
        else
          let s2 := set_mem s1 (memset (k_mem s1) mem 0 PGSIZE) in
          '(r, s3) ← mappages s2 pagetable a PGSIZE mem
                       (Z.lor (Z.lor (Z.lor PTE_W PTE_X) PTE_R) PTE_U);
          if nz r then
            s4 ← kfree s3 mem;
            '(_, s5) ← uvmdealloc s4 pagetable a oldsz;
            Ret (0, s5)
          else uvmalloc_loop fuel' s3 pagetable oldsz (u64 (a + PGSIZE)) newsz
    end
  else Ret (newsz, s).

Definition uvmalloc (s : kst) (pagetable oldsz newsz : Z) : outcome (Z * kst) :=
  if newsz <? oldsz then Ret (oldsz, s)
  else
    let oldsz := PGROUNDUP oldsz in
    uvmalloc_loop (Z.to_nat ((newsz - oldsz) / PGSIZE + 1)) s pagetable oldsz oldsz newsz.

(** [freewalk]: [fuel] bounds the depth of the recursion. *)
Fixpoint freewalk (fuel : nat) (s : kst) (pagetable : Z) : outcome kst :=
  match fuel with
  | O => Fuel
  | S fuel' =>
      let fix entries (idx : list Z) (s : kst) : outcome kst :=
        match idx with
        | [] => Ret s
        | i :: idx' =>
            let pte := load64 (k_mem s) (pagetable + 8 * i) in
            if nz (Z.land pte PTE_V) && (Z.land pte (Z.lor (Z.lor PTE_R PTE_W) PTE_X) =? 0) then
              s1 ← freewalk fuel' s (PTE2PA pte);
              entries idx' (set_mem s1 (store64 (k_mem s1) (pagetable + 8 * i) 0))
            else if nz (Z.land pte PTE_V) then Panic "freewalk: leaf"
            else entries idx' s
        end in
      s1 ← entries (seqZ 0 512) s;
      kfree s1 pagetable
  end.

(** Sv39 tables have three levels. *)
Definition freewalk_depth : nat := 3.

Definition uvmfree (s : kst) (pagetable sz : Z) : outcome kst :=
  s1 ← (if 0 <? sz then uvmunmap s pagetable 0 (PGROUNDUP sz / PGSIZE) true else Ret s);
  freewalk freewalk_depth s1 pagetable.

Definition uvmfreepage (s : kst) (pagetable va npages : Z) : outcome kst :=
  s1 ← (if 0 <? npages then uvmunmap s pagetable va npages true else Ret s);
  freewalk freewalk_depth s1 pagetable.

(** [uvmcopy], at page address [i]. *)
Fixpoint uvmcopy_loop (fuel : nat) (s : kst) (old new i sz : Z) : outcome (Z * kst) :=
  if i <? sz then
    match fuel with
    | O => Fuel
    | S fuel' =>
        '(pte, s1) ← walk s old i false;
        if pte =? 0 then uvmcopy_loop fuel' s1 old new (u64 (i + PGSIZE)) sz
        else
          let e := load64 (k_mem s1) pte in
          if Z.land e PTE_V =? 0 then uvmcopy_loop fuel' s1 old new (u64 (i + PGSIZE)) sz
          else
            let pa := PTE2PA e in
            let flags := PTE_FLAGS e in
            '(mem, s2) ← kalloc s1;
            if mem =? 0 then
              s3 ← uvmunmap s2 new 0 (i / PGSIZE) true;
              Ret (-1, s3)
            else
              let s3 := set_mem s2 (memmove (k_mem s2) mem pa PGSIZE) in
              '(r, s4) ← mappages s3 new i PGSIZE mem flags;
              if nz r then
                s5 ← kfree s4 mem;
                s6 ← uvmunmap s5 new 0 (i / PGSIZE) true;
                Ret (-1, s6)
              else uvmcopy_loop fuel' s4 old new (u64 (i + PGSIZE)) sz
    end
  else Ret (0, s).

Definition uvmcopy (s : kst) (old new sz : Z) : outcome (Z * kst) :=
  uvmcopy_loop (Z.to_nat (sz / PGSIZE + 1)) s old new 0 sz.

Definition uvmclear (s : kst) (pagetable va : Z) : outcome kst :=
  '(pte, s1) ← walk s pagetable va false;
  if pte =? 0 then Panic "uvmclear"
  else Ret (set_mem s1 (store64 (k_mem s1) pte
              (Z.land (load64 (k_mem s1) pte) (u64 (Z.lnot PTE_U))))).

(** ** Access to user memory

    [p] is [myproc()], the process on whose behalf the kernel runs. *)

Definition walkaddr (p : proc) (s : kst) (pagetable va : Z) : outcome (Z * kst) :=
  if MAXVA <=? va then Ret (0, s)
  else
    '(pte, s1) ← walk s pagetable va false;
    if (pte =? 0) || (Z.land (load64 (k_mem s1) pte) PTE_V =? 0) then
      if (p_sz p <=? va) || (va <? PGROUNDUP (tf_load (k_mem s1) p TF_sp)) then Ret (0, s1)
      else
        '(pa, s2) ← kalloc s1;
        if pa =? 0 then Ret (0, s2)
        else
          '(r, s3) ← mappages s2 (p_pagetable p) va PGSIZE pa
                       (Z.lor (Z.lor (Z.lor PTE_W PTE_X) PTE_R) PTE_U);
          if nz r then
            s4 ← kfree s3 pa;
            Ret (0, s4)
          else Ret (pa, s3)
    else if Z.land (load64 (k_mem s1) pte) PTE_U =? 0 then Ret (0, s1)
    else Ret (PTE2PA (load64 (k_mem s1) pte), s1).

(** Turns of a copy loop over [len] bytes: one per page touched. *)
Definition copy_fuel (len : Z) : nat := Z.to_nat (len / PGSIZE + 2).

Fixpoint copyout_loop (fuel : nat) (p : proc) (s : kst) (pagetable dstva : Z) (src : list Z)
    : outcome (Z * kst) :=
  let len := Z.of_nat (length src) in
  if 0 <? len then
    match fuel with
    | O => Fuel
    | S fuel' =>
        let va0 := PGROUNDDOWN dstva in
        '(pa0, s1) ← walkaddr p s pagetable va0;
        if pa0 =? 0 then Ret (-1, s1)
        else
          let n := PGSIZE - (dstva - va0) in
          let n := if len <? n then len else n in
          let s2 := set_mem s1 (mem_put (k_mem s1) (pa0 + (dstva - va0)) (take (Z.to_nat n) src)) in
          copyout_loop fuel' p s2 pagetable (u64 (va0 + PGSIZE)) (drop (Z.to_nat n) src)
    end
  else Ret (0, s).

(** Copy the bytes [src] to user address [dstva]; 0, or -1 on error. *)
Definition copyout (p : proc) (s : kst) (pagetable dstva : Z) (src : list Z) : outcome (Z * kst) :=
  copyout_loop (copy_fuel (Z.of_nat (length src))) p s pagetable dstva src.

(** [dst] collects the bytes copied so far. *)
Fixpoint copyin_loop (fuel : nat) (p : proc) (s : kst) (pagetable : Z) (dst : list Z)
    (srcva len : Z) : outcome (Z * list Z * kst) :=
  if 0 <? len then
    match fuel with
    | O => Fuel
    | S fuel' =>
        let va0 := PGROUNDDOWN srcva in
        '(pa0, s1) ← walkaddr p s pagetable va0;
        if pa0 =? 0 then Ret (-1, dst, s1)
        else
          let n := PGSIZE - (srcva - va0) in
          let n := if len <? n then len else n in
          copyin_loop fuel' p s1 pagetable (dst ++ mem_get (k_mem s1) (pa0 + (srcva - va0)) n)
            (u64 (va0 + PGSIZE)) (len - n)
    end
  else Ret (0, dst, s).

(** Copy [len] bytes from user address [srcva]: the status and the bytes. *)
Definition copyin (p : proc) (s : kst) (pagetable srcva len : Z) : outcome (Z * list Z * kst) :=
  copyin_loop (copy_fuel len) p s pagetable [] srcva len.

(** The inner loop of [copyinstr]: up to [n] bytes from [a], stopping at a NUL;
    returns the bytes stored in [dst] and whether the NUL was found. *)
Fixpoint copyinstr_page (m : gmap Z Z) (a : Z) (n : nat) (dst : list Z) : list Z * bool :=
  match n with
  | O => (dst, false)
  | S n' => if rd m a =? 0 then (dst ++ [0], true)
            else copyinstr_page m (a + 1) n' (dst ++ [rd m a])
  end.

Fixpoint copyinstr_loop (fuel : nat) (p : proc) (s : kst) (pagetable : Z) (dst : list Z)
    (srcva max : Z) : outcome (Z * list Z * kst) :=
  if 0 <? max then
    match fuel with
    | O => Fuel
    | S fuel' =>
        let va0 := PGROUNDDOWN srcva in
        '(pa0, s1) ← walkaddr p s pagetable va0;
        if pa0 =? 0 then Ret (-1, dst, s1)
        else
          let n := PGSIZE - (srcva - va0) in
          let n := if max <? n then max else n in
          let '(dst1, got_null) := copyinstr_page (k_mem s1) (pa0 + (srcva - va0)) (Z.to_nat n) dst in
          if got_null then Ret (0, dst1, s1)
          else copyinstr_loop fuel' p s1 pagetable dst1 (u64 (va0 + PGSIZE)) (max - n)
    end
  else Ret (-1, dst, s).

Definition copyinstr (p : proc) (s : kst) (pagetable srcva max : Z)
    : outcome (Z * list Z * kst) :=
  copyinstr_loop (copy_fuel max) p s pagetable [] srcva max.

End Vm.
End Vm.
