(* ===== verification/VmTree.v ===== *)
(** * Page-table trees in memory, and [walk]

    A page table is a tree of table pages.  [table_at m root path] follows the
    valid entries along a path of indices; [leaf m root va] is the level-0
    entry for [va], 0 when there is none.  [pt_wf] says the table pages are
    managed, referenced and pairwise different; [walk] preserves it and never
    changes a leaf. *)

From S2P Require Import Prelude Riscv KString Kalloc ProcDefs Vm.
From stdpp Require Import base list numbers gmap strings.
From Stdlib Require Import ZArith Lia.
Import KString Kalloc Vm.

#[local] Open Scope Z_scope.

Module VmTree.
Section VmTree.
Context {L : Layout}.

Fixpoint table_at (m : gmap Z Z) (tbl : Z) (path : list Z) : option Z :=
  match path with
  | [] => Some tbl
  | i :: rest =>
      let e := load64 m (tbl + 8 * i) in
      if nz (Z.land e PTE_V) then table_at m (PTE2PA e) rest else None
  end.

Definition vpath (va : Z) : list Z := [PX 2 va; PX 1 va].

(** The level-0 entry of [va]; 0 when a table page is missing. *)
Definition leaf (m : gmap Z Z) (root va : Z) : Z :=
  match table_at m root (vpath va) with
  | Some t => load64 m (t + 8 * PX 0 va)
  | None => 0
  end.

(** Paths that lead to a table page: at most two indices below 512. *)
Definition path_ok (path : list Z) : Prop :=
  (length path <= 2)%nat /\ Forall (fun i => 0 <= i < 512) path.

Record pt_wf (s : kst) (root : Z) : Prop := MkPtWf {
  pt_tables : forall path t, path_ok path -> table_at (k_mem s) root path = Some t ->
    page_ok t /\ 1 <= rc s (t / PGSIZE);
  pt_inj : forall p q t, path_ok p -> path_ok q ->
    table_at (k_mem s) root p = Some t -> table_at (k_mem s) root q = Some t -> p = q
}.

(** Address [a] lies in page [p]. *)
Definition in_page (a p : Z) : Prop := p <= a < p + PGSIZE.

(** Address [a] lies in a table page of [root]. *)
Definition in_tables (s : kst) (root a : Z) : Prop :=
  exists path t, path_ok path /\ table_at (k_mem s) root path = Some t /\ in_page a t.

(** ** Following paths *)

Lemma table_at_app m tbl p q :
  table_at m tbl (p ++ q) = table_at m tbl p ≫= fun t => table_at m t q.
Proof.
  revert tbl. induction p as [|i p IH]; intros tbl; [done|]. simpl. case_if; [apply IH|done].
Qed.

Lemma table_at_cons m tbl i q :
  table_at m tbl (i :: q) =
    if nz (Z.land (load64 m (tbl + 8 * i)) PTE_V)
    then table_at m (PTE2PA (load64 m (tbl + 8 * i))) q else None.
Proof. done. Qed.

Lemma table_at_same m m' tbl path :
  (forall q i r t, path = q ++ i :: r -> table_at m tbl q = Some t ->
    load64 m' (t + 8 * i) = load64 m (t + 8 * i)) ->
  table_at m' tbl path = table_at m tbl path.
Proof.
  revert tbl. induction path as [|i path IH]; intros tbl H; [done|]. simpl.
  rewrite (H [] i path tbl) by done. case_if; [|done].
  apply IH. intros q j r t -> Ht. apply (H (i :: q) j r t); [done|]. simpl.
  rewrite (proj2 (nz_true _)) by done. done.
Qed.

Lemma path_ok_nil : path_ok [].
Proof. split; [simpl; lia|constructor]. Qed.

Lemma path_ok_vpath va : path_ok (vpath va).
Proof. split; [done|]. repeat constructor; apply PX_range. Qed.

Lemma path_ok_prefix p q : path_ok (p ++ q) -> path_ok p.
Proof.
  intros [H1 H2]. rewrite length_app in H1. apply Forall_app in H2 as [H2 _]. split; [lia|done].
Qed.

Lemma path_ok_snoc p i : path_ok p -> (length p <= 1)%nat -> 0 <= i < 512 -> path_ok (p ++ [i]).
Proof.
  intros [H1 H2] H3 H4. split.
  - rewrite length_app. simpl. lia.
  - apply Forall_app. split; [done|]. by apply Forall_singleton.
Qed.

Lemma path_ok_index q i r : path_ok (q ++ i :: r) -> 0 <= i < 512 /\ (length q <= 1)%nat.
Proof.
  intros [H1 H2]. rewrite length_app in H1. simpl in H1.
  apply Forall_app in H2 as [_ H2]. apply Forall_inv in H2. split; [done|lia].
Qed.

(** Entries of different tables, or different entries of a table, are disjoint. *)
Lemma entry_in_page t i : 0 <= i < 512 -> t <= t + 8 * i /\ t + 8 * i + 8 <= t + PGSIZE.
Proof. unfold PGSIZE. lia. Qed.

Lemma load64_other_page m m' p t i :
  same_off m' m p PGSIZE -> p mod PGSIZE = 0 -> t mod PGSIZE = 0 -> p <> t -> 0 <= i < 512 ->
  load64 m' (t + 8 * i) = load64 m (t + 8 * i).
Proof.
  intros Hoff Hp Ht Hne Hi. eapply load64_same_off; [exact Hoff|].
  pose proof (entry_in_page t i Hi). destruct (pages_disjoint p t); [done..|lia|lia].
Qed.

Lemma page_entry_disjoint t u i j :
  t mod PGSIZE = 0 -> u mod PGSIZE = 0 -> 0 <= i < 512 -> 0 <= j < 512 ->
  t <> u \/ i <> j -> t + 8 * i + 8 <= u + 8 * j \/ u + 8 * j + 8 <= t + 8 * i.
Proof. unfold PGSIZE. intros. dlia. Qed.

Lemma PTE_V_lor pa perm :
  0 <= pa < 2 ^ 56 -> nz (Z.land (Z.lor (Z.lor (PA2PTE pa) perm) PTE_V) PTE_V) = true.
Proof.
  intros H. unfold PTE_V at 2. rewrite nz_land_bit by lia. rewrite Z.lor_spec.
  change (Z.testbit PTE_V 0) with true. apply orb_true_r.
Qed.

Lemma PTE_V_table pa : 0 <= pa < 2 ^ 56 -> nz (Z.land (Z.lor (PA2PTE pa) PTE_V) PTE_V) = true.
Proof. intros H. rewrite <- (PTE_V_lor pa 0 H). by rewrite Z.lor_0_r. Qed.

Lemma PTE2PA_table pa :
  0 <= pa < 2 ^ 56 -> pa mod PGSIZE = 0 -> PTE2PA (Z.lor (PA2PTE pa) PTE_V) = pa.
Proof. intros. apply PTE2PA_PA2PTE; [done|done|]. change PTE_V with 1. lia. Qed.

Lemma PTE_table_range pa : 0 <= pa < 2 ^ 56 -> 0 <= Z.lor (PA2PTE pa) PTE_V < 2 ^ 64.
Proof. intros H. apply PA2PTE_range; [done|]. change PTE_V with 1. lia. Qed.

(** Entries of the upper tables point to tables: no permission bits. *)
Definition upper_entries (m : gmap Z Z) (root : Z) : Prop := forall path t i,
  path_ok path -> (length path <= 1)%nat -> 0 <= i < 512 -> table_at m root path = Some t ->
  nz (Z.land (load64 m (t + 8 * i)) PTE_V) = true -> Z.land (load64 m (t + 8 * i)) (Z.lor (Z.lor PTE_R PTE_W) PTE_X) = 0.

Lemma PTE_table_perm pa : 0 <= pa < 2 ^ 56 -> Z.land (Z.lor (PA2PTE pa) PTE_V) (Z.lor (Z.lor PTE_R PTE_W) PTE_X) = 0.
Proof.
  intros H. change (Z.lor (Z.lor PTE_R PTE_W) PTE_X) with (Z.land 1023 14). rewrite Z.land_assoc.
  change (Z.land (Z.lor (PA2PTE pa) PTE_V) 1023) with (PTE_FLAGS (Z.lor (PA2PTE pa) PTE_V)).
  rewrite PTE_FLAGS_PA2PTE; [reflexivity|done|]. change PTE_V with 1. lia.
Qed.

(** ** Adding one table page

    The memory after the fresh page [p] was zeroed and hooked into entry [i]
    of the table at [path]. *)
Definition hook (m : gmap Z Z) (t i p : Z) : gmap Z Z :=
  store64 (memset m p 0 PGSIZE) (t + 8 * i) (Z.lor (PA2PTE p) PTE_V).

Section Hook.
Context (s : kst) (root : Z) (path : list Z) (t i p : Z) (m1 : gmap Z Z).
Hypothesis Hwf : pt_wf s root.
Hypothesis Hpath : path_ok path.
Hypothesis Hlen : (length path <= 1)%nat.
Hypothesis Ht : table_at (k_mem s) root path = Some t.
Hypothesis Hi : 0 <= i < 512.
Hypothesis Hinv : nz (Z.land (load64 (k_mem s) (t + 8 * i)) PTE_V) = false.
Hypothesis Hp : page_ok p.
Hypothesis Hp0 : rc s (p / PGSIZE) = 0.
Hypothesis Hm1 : same_off m1 (k_mem s) p PGSIZE.

Let m' := hook m1 t i p.

Lemma hook_fresh q u : path_ok q -> table_at (k_mem s) root q = Some u -> u <> p.
Proof.
  intros Hq Hu ->. destruct (pt_tables _ _ Hwf q p Hq Hu) as [_ H]. lia.
Qed.

Lemma hook_t_aligned : t mod PGSIZE = 0.
Proof. destruct (pt_tables _ _ Hwf path t Hpath Ht) as [[H _] _]. exact H. Qed.

Lemma hook_ne : t <> p.
Proof. by apply (hook_fresh path). Qed.

Lemma hook_off_page : same_off (memset m1 p 0 PGSIZE) (k_mem s) p PGSIZE.
Proof. eapply same_off_trans; [|exact Hm1]. apply memset_off. unfold PGSIZE; lia. Qed.

(** Entries other than the hooked one keep their value. *)
Lemma hook_entry u j :
  u mod PGSIZE = 0 -> u <> p -> 0 <= j < 512 -> u <> t \/ j <> i ->
  load64 m' (u + 8 * j) = load64 (k_mem s) (u + 8 * j).
Proof.
  intros Hu Hup Hj Hne. unfold m', hook.
  rewrite load64_store64_ne.
  - eapply load64_other_page; [apply hook_off_page|apply Hp|done|congruence|done].
  - apply page_entry_disjoint; [apply hook_t_aligned|done|done|done|]. destruct Hne; auto.
Qed.

Lemma hook_hooked : load64 m' (t + 8 * i) = Z.lor (PA2PTE p) PTE_V.
Proof.
  unfold m', hook. apply load64_store64, PTE_table_range. by apply page_ok_range56.
Qed.

Lemma hook_new_entry j : 0 <= j < 512 -> load64 m' (p + 8 * j) = 0.
Proof.
  intros Hj. unfold m', hook. rewrite load64_store64_ne.
  - apply load64_memset; unfold PGSIZE; lia.
  - apply page_entry_disjoint; [apply hook_t_aligned|apply Hp|done|done|].
    left. apply hook_ne.
Qed.

(** A path that does not go through the new page leads where it led. *)
Lemma hook_old_path q :
  path_ok q -> ~ (path ++ [i]) `prefix_of` q ->
  table_at m' root q = table_at (k_mem s) root q.
Proof.
  intros Hq Hnot. apply table_at_same. intros q' j r u -> Hu.
  destruct (path_ok_index _ _ _ Hq) as [Hj _].
  pose proof (path_ok_prefix _ _ Hq) as Hq'.
  destruct (pt_tables _ _ Hwf q' u Hq' Hu) as [[Hual _] _].
  apply hook_entry; [done|by apply (hook_fresh q')|done|].
  destruct (decide (u = t)) as [->|]; [right|by left]. intros ->. apply Hnot.
  pose proof (pt_inj _ _ Hwf q' path t Hq' Hpath Hu Ht) as ->.
  exists r. by rewrite <- app_assoc.
Qed.

Lemma hook_not_prefix : ~ (path ++ [i]) `prefix_of` path.
Proof. intros [k H]. apply (f_equal length) in H. rewrite !length_app in H. simpl in H. lia. Qed.

Lemma hook_new_path r : path_ok (path ++ [i] ++ r) ->
  table_at m' root (path ++ [i] ++ r) = match r with [] => Some p | _ => None end.
Proof.
  intros Hok. rewrite table_at_app, (hook_old_path path Hpath hook_not_prefix), Ht.
  change (table_at m' t (i :: r) = match r with [] => Some p | _ => None end).
  pose proof (page_ok_range56 p Hp) as H56. destruct Hp as [Hal _].
  rewrite table_at_cons, hook_hooked, (PTE_V_table p H56), (PTE2PA_table p H56 Hal).
  destruct r as [|j r]; [done|].
  rewrite app_assoc in Hok. destruct (path_ok_index _ _ _ Hok) as [Hj _].
  rewrite table_at_cons, (hook_new_entry j Hj). done.
Qed.

Lemma hook_old_none r : r <> [] -> path ++ [i] `prefix_of` r ->
  table_at (k_mem s) root r = None.
Proof.
  intros _ [k ->]. rewrite <- app_assoc, table_at_app, Ht.
  change (table_at (k_mem s) t (i :: k) = None). by rewrite table_at_cons, Hinv.
Qed.

(** The tables after the hook: the old ones and the new page. *)
Lemma hook_tables q u :
  path_ok q -> table_at m' root q = Some u ->
  (q = path ++ [i] /\ u = p) \/ table_at (k_mem s) root q = Some u.
Proof.
  intros Hq Hu. destruct (decide ((path ++ [i]) `prefix_of` q)) as [[r ->]|Hnot].
  - rewrite <- app_assoc in Hq, Hu. rewrite hook_new_path in Hu by done.
    destruct r; [|done]. left. rewrite app_nil_r. split; congruence.
  - right. by rewrite <- hook_old_path.
Qed.

Lemma hook_wf s' :
  k_mem s' = m' ->
  rc s' (p / PGSIZE) = 1 -> (forall pn, pn <> p / PGSIZE -> rc s' pn = rc s pn) ->
  pt_wf s' root.
Proof.
  intros Em Hrc1 Hrc. split; rewrite Em.
  - intros q u Hq Hu. destruct (hook_tables q u Hq Hu) as [[-> ->]|Hold].
    + split; [done|lia].
    + destruct (pt_tables _ _ Hwf q u Hq Hold) as [Hok H1]. split; [done|].
      rewrite Hrc; [done|]. intros E. apply page_number_inj in E; [|apply Hok|apply Hp].
      by apply (hook_fresh q u).
  - intros q r u Hq Hr Hu1 Hu2.
    destruct (hook_tables q u Hq Hu1) as [[-> E1]|H1];
      destruct (hook_tables r u Hr Hu2) as [[-> E2]|H2].
    + done.
    + by destruct (hook_fresh r u Hr H2).
    + by destruct (hook_fresh q u Hq H1).
    + by eapply (pt_inj _ _ Hwf).
Qed.

(** No leaf changes. *)
Lemma hook_leaf va : leaf m' root va = leaf (k_mem s) root va.
Proof.
  unfold leaf. pose proof (path_ok_vpath va) as Hv.
  destruct (decide ((path ++ [i]) `prefix_of` vpath va)) as [Hpre|Hnot].
  - rewrite (hook_old_none (vpath va)) by done. destruct Hpre as [r Hr].
    rewrite <- app_assoc in Hr. rewrite Hr in *. rewrite hook_new_path by done.
    destruct r; [|done]. apply hook_new_entry, PX_range.
  - rewrite hook_old_path by done. destruct (table_at (k_mem s) root (vpath va)) as [u|] eqn:Hu; [|done].
    destruct (pt_tables _ _ Hwf _ u Hv Hu) as [[Hual _] _].
    apply hook_entry; [done|by apply (hook_fresh (vpath va))|apply PX_range|].
    left. intros ->. pose proof (pt_inj _ _ Hwf _ _ t Hv Hpath Hu Ht) as E.
    apply (f_equal length) in E. simpl in E. lia.
Qed.

(** Only the new page and one table page of [root] are written. *)
Lemma hook_upper : upper_entries (k_mem s) root -> upper_entries m' root.
Proof.
  intros H q u j Hq Hql Hj Hu Hv. destruct (hook_tables q u Hq Hu) as [[-> ->]|Hold].
  - rewrite hook_new_entry in Hv by done. done.
  - destruct (pt_tables _ _ Hwf q u Hq Hold) as [[Hual _] _]. pose proof (hook_fresh q u Hq Hold) as Hup.
    destruct (decide (u = t)) as [->|Hut]; [destruct (decide (j = i)) as [->|Hji]|].
    + rewrite hook_hooked. apply PTE_table_perm. by apply page_ok_range56.
    + pose proof (hook_entry t j Hual Hup Hj (or_intror Hji)) as E. rewrite E in Hv |- *. exact (H q t j Hq Hql Hj Hold Hv).
    + pose proof (hook_entry u j Hual Hup Hj (or_introl Hut)) as E. rewrite E in Hv |- *. exact (H q u j Hq Hql Hj Hold Hv).
Qed.

Lemma hook_frame a : ~ in_page a p -> ~ in_page a t -> rd m' a = rd (k_mem s) a.
Proof.
  intros H1 H2. unfold m', hook. rewrite store64_off.
  - by apply hook_off_page.
  - pose proof (entry_in_page t i Hi). unfold in_page in *. lia.
Qed.

End Hook.
(** ** Growing a page table

    [grow s l s' l' root used]: from [s] with free list [l] to [s'] with free
    list [l'], the pages [used] were taken, as table pages of [root] or by the
    caller; existing table pages stay, and memory outside the table pages and
    the pages taken is untouched. *)
Record grow (s : kst) (l : list Z) (s' : kst) (l' : list Z) (root : Z) (used : list Z) : Prop := MkGrow {
  gr_split : l = used ++ l';
  gr_inv : kinv s' l';
  gr_wf : pt_wf s' root;
  gr_rc : forall q, page_ok q ->
    rc s' (q / PGSIZE) = if decide (q ∈ used) then 1 else rc s (q / PGSIZE);
  gr_keep : forall path t, path_ok path ->
    table_at (k_mem s) root path = Some t -> table_at (k_mem s') root path = Some t;
  gr_tables : forall path t, path_ok path ->
    table_at (k_mem s') root path = Some t -> table_at (k_mem s) root path = Some t \/ t ∈ used;
  gr_frame : forall a, ~ in_tables s root a -> (forall p, p ∈ used -> ~ in_page a p) ->
    rd (k_mem s') a = rd (k_mem s) a;
  gr_upper : upper_entries (k_mem s) root -> upper_entries (k_mem s') root
}.

Lemma grow_refl s l root : kinv s l -> pt_wf s root -> grow s l s l root [].
Proof.
  intros H1 H2. split; try done; auto.
Qed.

Lemma grow_trans s1 l1 s2 l2 s3 l3 root u1 u2 :
  grow s1 l1 s2 l2 root u1 -> grow s2 l2 s3 l3 root u2 -> grow s1 l1 s3 l3 root (u1 ++ u2).
Proof.
  intros G1 G2. pose proof (gr_split _ _ _ _ _ _ G1) as E1. pose proof (gr_split _ _ _ _ _ _ G2) as E2.
  split.
  - rewrite E1, E2. by rewrite app_assoc.
  - apply G2.
  - apply G2.
  - intros q Hq. rewrite (gr_rc _ _ _ _ _ _ G2 q Hq), (gr_rc _ _ _ _ _ _ G1 q Hq).
    destruct (decide (q ∈ u2)) as [H2|H2]; destruct (decide (q ∈ u1)) as [H1|H1];
      destruct (decide (q ∈ u1 ++ u2)) as [H3|H3]; rewrite elem_of_app in H3; tauto.
  - intros path t Hp Ht. apply (gr_keep _ _ _ _ _ _ G2); [done|].
    by apply (gr_keep _ _ _ _ _ _ G1).
  - intros path t Hp Ht. rewrite elem_of_app.
    destruct (gr_tables _ _ _ _ _ _ G2 path t Hp Ht) as [H|H]; [|auto].
    destruct (gr_tables _ _ _ _ _ _ G1 path t Hp H); auto.
  - intros a Ha Hu. rewrite (gr_frame _ _ _ _ _ _ G2), (gr_frame _ _ _ _ _ _ G1); try done.
    + intros p Hp. apply Hu. rewrite elem_of_app. auto.
    + intros (path & t & Hpath & Ht & Hin).
      destruct (gr_tables _ _ _ _ _ _ G1 path t Hpath Ht) as [H|H].
      * apply Ha. by exists path, t.
      * apply (Hu t); [rewrite elem_of_app; auto|done].
    + intros p Hp. apply Hu. rewrite elem_of_app. auto.
  - intros H. by apply (gr_upper _ _ _ _ _ _ G2), (gr_upper _ _ _ _ _ _ G1).
Qed.

(** One new table page. *)
Lemma grow_hook s p l s1 root path t i :
  kinv s (p :: l) -> pt_wf s root -> path_ok path -> (length path <= 1)%nat ->
  table_at (k_mem s) root path = Some t -> 0 <= i < 512 ->
  nz (Z.land (load64 (k_mem s) (t + 8 * i)) PTE_V) = false ->
  kalloc s = Ret (p, s1) ->
  let s' := set_mem s1 (hook (k_mem s1) t i p) in
  grow s (p :: l) s' l root [p]
  /\ (forall va, leaf (k_mem s') root va = leaf (k_mem s) root va)
  /\ table_at (k_mem s') root (path ++ [i]) = Some p.
Proof.
  intros Hk Hwf Hpath Hlen Ht Hi Hinv Ek s'.
  destruct (kalloc_spec s _ Hk) as (q & s1' & E & -> & Hp & Hp0 & Hk1 & Hrc1 & Hrc & Hoff & _).
  rewrite E in Ek. injection Ek as ->.
  assert (Hwf' : pt_wf s' root).
  { eapply (hook_wf s root path t i p (k_mem s1)); eauto. }
  assert (Hnew : table_at (k_mem s') root (path ++ [i]) = Some p).
  { eapply (hook_new_path s root path t i p (k_mem s1)) with (r := []); eauto.
    by apply path_ok_snoc. }
  split; [|split; [|done]].
  - split.
    + done.
    + destruct (pt_tables _ _ Hwf path t Hpath Ht) as [Htok Htrc].
      assert (Hne : t <> p) by (apply (hook_ne s root path t p); done).
      assert (Hk2 : kinv (set_mem s1 (memset (k_mem s1) p 0 PGSIZE)) l).
      { apply (kinv_write _ _ p); [done|done|lia|]. apply memset_off. unfold PGSIZE; lia. }
      apply (kinv_write _ _ t (k_mem s')) in Hk2; [done|done| |].
      * change (rc (set_mem s1 _)) with (rc s1). rewrite Hrc; [done|].
        intros E2. apply page_number_inj in E2; [done|apply Htok|apply Hp].
      * eapply same_off_weaken; [apply store64_off| |]; pose proof (entry_in_page t i Hi); lia.
    + done.
    + intros q Hq. change (rc s') with (rc s1). case_decide as Hin.
      * apply list_elem_of_singleton in Hin as ->. done.
      * apply Hrc. intros E2. apply Hin, list_elem_of_singleton.
        eapply page_number_inj; [apply Hq|apply Hp|done].
    + intros q u Hq Hu. rewrite <- Hu. eapply (hook_old_path s root path t i p (k_mem s1)); eauto.
      intros Hpre. enough (table_at (k_mem s) root q = None) by congruence.
      eapply (hook_old_none s root path t i); eauto.
      intros ->. destruct Hpre as [k Hk']. by destruct path.
    + intros q u Hq Hu. 
      assert ((q = path ++ [i] /\ u = p) \/ table_at (k_mem s) root q = Some u) as [[_ ->]|]
        by (eapply (hook_tables s root path t i p (k_mem s1)); eauto); [right|by left].
      by apply list_elem_of_singleton.
    + intros a Ha Hu. change (rd (hook (k_mem s1) t i p) a = rd (k_mem s) a).
      eapply hook_frame; eauto.
      * apply Hu. by apply list_elem_of_singleton.
      * intros Hin. apply Ha. by exists path, t.
    + apply (hook_upper s root path t i p (k_mem s1)); done.
  - intros va. eapply (hook_leaf s root path t i p (k_mem s1)); eauto.
Qed.

(** ** walk *)

Lemma walk_loop_noalloc levels s root path t va :
  table_at (k_mem s) root path = Some t ->
  path ++ ((fun lv => PX lv va) <$> levels) = vpath va ->
  walk_loop levels s t va false =
    Ret (match table_at (k_mem s) root (vpath va) with
         | Some t0 => t0 + 8 * PX 0 va
         | None => 0
         end, s).
Proof.
  intros Ht <-. rewrite table_at_app, Ht.
  change (walk_loop levels s t va false =
    Ret (match table_at (k_mem s) t ((fun lv => PX lv va) <$> levels) with
         | Some t0 => t0 + 8 * PX 0 va | None => 0 end, s)).
  clear Ht path root. revert t. induction levels as [|lv levels IH]; intros t; [done|].
  cbn [walk_loop fmap list_fmap]. rewrite table_at_cons.
  case_if; [apply IH|done].
Qed.

(** Without allocation [walk] reads the tree and changes nothing. *)
Lemma walk_noalloc s root va :
  va < MAXVA ->
  walk s root va false =
    Ret (match table_at (k_mem s) root (vpath va) with
         | Some t => t + 8 * PX 0 va
         | None => 0
         end, s).
Proof.
  intros Hva. unfold walk. rewrite (proj2 (Z.leb_gt _ _)) by done.
  by apply (walk_loop_noalloc [2; 1] s root []).
Qed.

Lemma walk_loop_alloc levels s l root path t va :
  kinv s l -> pt_wf s root ->
  table_at (k_mem s) root path = Some t ->
  path ++ ((fun lv => PX lv va) <$> levels) = vpath va ->
  exists pte s' l' used,
    walk_loop levels s t va true = Ret (pte, s')
    /\ grow s l s' l' root used /\ (length used <= length levels)%nat
    /\ (forall va', leaf (k_mem s') root va' = leaf (k_mem s) root va')
    /\ ((pte = 0 /\ l' = []) \/
        exists t0, table_at (k_mem s') root (vpath va) = Some t0 /\ pte = t0 + 8 * PX 0 va).
Proof.
  revert s l path t. induction levels as [|lv levels IH]; intros s l path t Hk Hwf Ht Hv.
  - exists (t + 8 * PX 0 va), s, l, []. rewrite app_nil_r in Hv. rewrite <- Hv.
    split; [done|]. split; [by apply grow_refl|]. split; [done|]. split; [done|]. right. eauto.
  - cbn [walk_loop fmap list_fmap] in *.
    assert (Hok : path_ok (path ++ [PX lv va])).
    { apply (path_ok_prefix _ ((fun lv => PX lv va) <$> levels)).
      rewrite <- app_assoc. simpl. rewrite Hv. apply path_ok_vpath. }
    assert (Hpath : path_ok path) by by eapply path_ok_prefix.
    destruct (path_ok_index path (PX lv va) [] Hok) as [Hi Hlen].
    destruct (nz (Z.land (load64 (k_mem s) (t + 8 * PX lv va)) PTE_V)) eqn:E.
    + destruct (IH s l (path ++ [PX lv va]) (PTE2PA (load64 (k_mem s) (t + 8 * PX lv va))))
        as (pte & s' & l' & used & Ew & G & Hlu & Hrest); try done.
      * rewrite table_at_app, Ht. cbn [mbind option_bind]. by rewrite table_at_cons, E.
      * by rewrite <- app_assoc.
      * exists pte, s', l', used. split_and!; try apply Hrest; try done. simpl. lia.
    + cbn [negb]. destruct (kalloc_spec s l Hk) as (p & s1 & Ek & Hcase). rewrite Ek.
      cbn [mbind outcome_bind]. destruct l as [|p' l].
      * destruct Hcase as [-> ->]. exists 0, s, [], []. split; [done|].
        split; [by apply grow_refl|]. split; [simpl; lia|]. auto.
      * destruct Hcase as (-> & Hp & _). pose proof (page_ok_bounds p' Hp) as (_ & _ & Hnz).
        rewrite (proj2 (Z.eqb_neq _ _) Hnz).
        destruct (grow_hook s p' l s1 root path t (PX lv va)) as (G & Hleaf & Hnew); try done.
        destruct (IH (set_mem s1 (hook (k_mem s1) t (PX lv va) p')) l (path ++ [PX lv va]) p')
          as (pte & s' & l' & used & Ew & G2 & Hlu & Hleaf2 & Hres); try done.
        -- apply G.
        -- apply G.
        -- by rewrite <- app_assoc.
        -- exists pte, s', l', ([p'] ++ used). split; [exact Ew|].
           split; [by eapply grow_trans|]. split; [simpl; lia|]. split; [|done].
           intros va'. by rewrite Hleaf2, Hleaf.
Qed.

Lemma walk_alloc s l root va :
  kinv s l -> pt_wf s root -> va < MAXVA ->
  exists pte s' l' used,
    walk s root va true = Ret (pte, s')
    /\ grow s l s' l' root used /\ (length used <= 2)%nat
    /\ (forall va', leaf (k_mem s') root va' = leaf (k_mem s) root va')
    /\ ((pte = 0 /\ l' = []) \/
        exists t0, table_at (k_mem s') root (vpath va) = Some t0 /\ pte = t0 + 8 * PX 0 va).
Proof.
  intros Hk Hwf Hva. unfold walk. rewrite (proj2 (Z.leb_gt _ _)) by done.
  by apply (walk_loop_alloc [2; 1] s l root []).
Qed.

End VmTree.
End VmTree.
