(* ===== verification/VmMap.v ===== *)
(** * Mapping and unmapping pages: [mappages], [uvmunmap] and their clients

    Every operation is specified by its effect on the function [leaf], the
    view the hardware has of the page table. *)

From S2P Require Import Prelude Riscv KString Kalloc ProcDefs Vm VmTree.
From stdpp Require Import base list numbers gmap strings.
From Stdlib Require Import ZArith Lia.
Import KString Kalloc Vm VmTree.

#[local] Open Scope Z_scope.

Module VmMap.
Section VmMap.
Context {L : Layout}.

(** The entry [mappages] installs. *)
Definition mkpte (pa perm : Z) : Z := Z.lor (Z.lor (PA2PTE pa) perm) PTE_V.

Lemma mkpte_range pa perm : 0 <= pa < 2 ^ 56 -> 0 <= perm < 1024 -> 0 <= mkpte pa perm < 2 ^ 64.
Proof.
  intros Hpa Hp. unfold mkpte. rewrite <- Z.lor_assoc.
  assert (H : 0 <= Z.lor perm PTE_V < 1024).
  { split; [apply Z.lor_nonneg; change PTE_V with 1; lia|].
    replace (Z.lor perm PTE_V) with (Z.lor perm PTE_V mod 2 ^ 10).
    - apply Z.mod_pos_bound. lia.
    - rewrite <- Z.land_ones, Z.land_lor_distr_l, !Z.land_ones by lia.
      rewrite (Z.mod_small perm) by lia. done. }
  by apply PA2PTE_range.
Qed.

(** [va] and [va'] are on the same page. *)
Lemma same_page va va' :
  0 <= va < MAXVA -> 0 <= va' < MAXVA ->
  (vpath va' = vpath va /\ PX 0 va' = PX 0 va) <-> va' / PGSIZE = va / PGSIZE.
Proof.
  intros H1 H2. unfold vpath. rewrite !PX_div by lia. unfold MAXVA, PGSIZE in *.
  change (Z.shiftl 1 (9 + 9 + 9 + 12 - 1)) with 274877906944 in *.
  change (4096 * 512 ^ 2) with 1073741824. change (4096 * 512 ^ 1) with 2097152.
  change (4096 * 512 ^ 0) with 4096. split.
  - intros [E1 E2]. injection E1 as E3 E4. dlia.
  - intros E. split; [f_equal; [|f_equal]|]; dlia.
Qed.

(** ** Storing a leaf entry *)

Section LeafStore.
Context (s : kst) (root va t e : Z).
Hypothesis Hwf : pt_wf s root.
Hypothesis Ht : table_at (k_mem s) root (vpath va) = Some t.
Hypothesis He : 0 <= e < 2 ^ 64.

Let m' := store64 (k_mem s) (t + 8 * PX 0 va) e.

Lemma leaf_store_other u j :
  u mod PGSIZE = 0 -> 0 <= j < 512 -> u <> t \/ j <> PX 0 va ->
  load64 m' (u + 8 * j) = load64 (k_mem s) (u + 8 * j).
Proof.
  intros Hu Hj Hne. unfold m'. apply load64_store64_ne.
  destruct (pt_tables _ _ Hwf _ t (path_ok_vpath va) Ht) as [[Hal _] _].
  apply page_entry_disjoint; try done; [apply PX_range|]. destruct Hne; auto.
Qed.

Lemma leaf_store_tables q : path_ok q -> table_at m' root q = table_at (k_mem s) root q.
Proof.
  intros Hq. apply table_at_same. intros q' j r u -> Hu.
  destruct (path_ok_index _ _ _ Hq) as [Hj Hlen].
  pose proof (path_ok_prefix _ _ Hq) as Hq'.
  destruct (pt_tables _ _ Hwf q' u Hq' Hu) as [[Hual _] _].
  apply leaf_store_other; [done|done|left]. intros ->.
  pose proof (pt_inj _ _ Hwf _ _ t Hq' (path_ok_vpath va) Hu Ht) as ->. simpl in Hlen. lia.
Qed.

Lemma leaf_store_leaf va' :
  leaf m' root va' =
    if decide (vpath va' = vpath va /\ PX 0 va' = PX 0 va) then e else leaf (k_mem s) root va'.
Proof.
  unfold leaf. rewrite leaf_store_tables by apply path_ok_vpath.
  case_decide as Hd.
  - destruct Hd as [-> ->]. rewrite Ht. unfold m'. by apply load64_store64.
  - destruct (table_at (k_mem s) root (vpath va')) as [u|] eqn:Hu; [|done].
    destruct (pt_tables _ _ Hwf _ u (path_ok_vpath va') Hu) as [[Hual _] _].
    apply leaf_store_other; [done|apply PX_range|].
    destruct (decide (u = t)) as [->|]; [right|by left]. intros E. apply Hd. split; [|done].
    by eapply (pt_inj _ _ Hwf); try apply path_ok_vpath.
Qed.

Lemma leaf_store_wf : pt_wf (set_mem s m') root.
Proof.
  split; simpl.
  - intros q u Hq. rewrite leaf_store_tables by done. by apply (pt_tables _ _ Hwf).
  - intros p q u Hp Hq. rewrite !leaf_store_tables by done. by apply (pt_inj _ _ Hwf).
Qed.

Lemma leaf_store_in_page : same_off m' (k_mem s) t PGSIZE.
Proof.
  eapply same_off_weaken; [apply store64_off| |];
    pose proof (entry_in_page t (PX 0 va) (PX_range 0 va)); lia.
Qed.

Lemma leaf_store_grow l : kinv s l -> grow s l (set_mem s m') l root [].
Proof.
  intros Hk. destruct (pt_tables _ _ Hwf _ t (path_ok_vpath va) Ht) as [Hok Hrc].
  split.
  - done.
  - eapply kinv_write; [done|exact Hok|done|apply leaf_store_in_page].
  - apply leaf_store_wf.
  - done.
  - intros q u Hq Hu. simpl. by rewrite leaf_store_tables.
  - intros q u Hq Hu. simpl in Hu. rewrite leaf_store_tables in Hu by done. by left.
  - intros a Ha _. simpl. apply leaf_store_in_page. intros Hin. apply Ha.
    exists (vpath va), t. split; [apply path_ok_vpath|done].
  - intros H q u i Hq Hql Hi Hu. simpl in Hu |- *. rewrite leaf_store_tables in Hu by done.
    assert (Hne : u <> t).
    { intros ->. pose proof (pt_inj _ _ Hwf _ _ _ Hq (path_ok_vpath va) Hu Ht) as E. rewrite E in Hql. simpl in Hql. lia. }
    destruct (pt_tables _ _ Hwf q u Hq Hu) as [[Hual _] _].
    rewrite (load64_other_page (k_mem s) m' t u i leaf_store_in_page (proj1 Hok) Hual (not_eq_sym Hne) Hi). by apply (H q).
Qed.

End LeafStore.

(** In terms of pages. *)
Lemma leaf_store_page s root va t e va' :
  pt_wf s root -> table_at (k_mem s) root (vpath va) = Some t -> 0 <= e < 2 ^ 64 ->
  0 <= va < MAXVA -> 0 <= va' < MAXVA ->
  leaf (store64 (k_mem s) (t + 8 * PX 0 va) e) root va' =
    if decide (va' / PGSIZE = va / PGSIZE) then e else leaf (k_mem s) root va'.
Proof.
  intros Hwf Ht He Hva Hva'. rewrite (leaf_store_leaf s root va t e) by done.
  pose proof (same_page va va' Hva Hva') as Hiff.
  repeat case_decide; tauto.
Qed.

(** A table page is not at address 0, so neither is an entry. *)
Lemma pte_nonzero s root va t :
  pt_wf s root -> table_at (k_mem s) root (vpath va) = Some t -> t + 8 * PX 0 va <> 0.
Proof.
  intros Hwf Ht. destruct (pt_tables _ _ Hwf _ t (path_ok_vpath va) Ht) as [Hok _].
  pose proof (page_ok_bounds t Hok) as (Hlo & _). pose proof (PX_range 0 va).
  unfold KERNBASE in Hlo. lia.
Qed.

Lemma leaf_table m root va t :
  table_at m root (vpath va) = Some t -> leaf m root va = load64 m (t + 8 * PX 0 va).
Proof. intros H. unfold leaf. by rewrite H. Qed.

(** ** mappages *)

Definition valid (e : Z) : bool := nz (Z.land e PTE_V).

Lemma valid_mkpte pa perm : 0 <= pa < 2 ^ 56 -> valid (mkpte pa perm) = true.
Proof. apply PTE_V_lor. Qed.

(** The first [j] pages of the range starting at [a] are mapped to [pa]. *)
Definition mapped_to (m m' : gmap Z Z) (root a j pa perm : Z) : Prop :=
  forall va, 0 <= va < MAXVA ->
    leaf m' root va =
      if decide (a <= va < a + j * PGSIZE)
      then mkpte (pa + (va - a) / PGSIZE * PGSIZE) perm
      else leaf m root va.

Lemma mapped_to_0 m m' root a pa perm : (forall va, leaf m' root va = leaf m root va) -> mapped_to m m' root a 0 pa perm.
Proof. intros H va Hva. rewrite decide_False by lia. apply H. Qed.

(** One page, then the pages after it. *)
Lemma mapped_to_cons m m1 m' root a j pa perm :
  0 <= a -> a mod PGSIZE = 0 -> 0 <= j ->
  (forall va, 0 <= va < MAXVA ->
     leaf m1 root va = if decide (va / PGSIZE = a / PGSIZE) then mkpte pa perm else leaf m root va) ->
  mapped_to m1 m' root (a + PGSIZE) j (pa + PGSIZE) perm -> mapped_to m m' root a (j + 1) pa perm.
Proof.
  intros Ha Hal Hj H1 Hmap va Hva. rewrite Hmap, H1 by done. unfold PGSIZE in *.
  destruct (decide (a + 4096 <= va < a + 4096 + j * 4096)) as [Hin|Hin].
  - rewrite decide_True by lia. f_equal. dlia.
  - destruct (decide (va / 4096 = a / 4096)) as [Hs|Hs].
    + rewrite decide_True by dlia. f_equal. dlia.
    + rewrite decide_False by dlia. done.
Qed.

Lemma mappages_loop_ok n s l root a last pa perm :
  kinv s l -> pt_wf s root ->
  (0 < n)%nat -> a mod PGSIZE = 0 -> 0 <= a -> last = a + (Z.of_nat n - 1) * PGSIZE -> last < MAXVA ->
  0 <= pa -> pa + Z.of_nat n * PGSIZE <= 2 ^ 56 -> 0 <= perm < 1024 ->
  (forall va, a <= va <= last -> valid (leaf (k_mem s) root va) = false) ->
  exists r s' l' used j,
    mappages_loop n s root a last pa perm = Ret (r, s')
    /\ grow s l s' l' root used /\ (length used <= 2 * n)%nat
    /\ mapped_to (k_mem s) (k_mem s') root a j pa perm
    /\ ((r = 0 /\ j = Z.of_nat n) \/ (r = -1 /\ 0 <= j < Z.of_nat n /\ l' = [])).
Proof.
  revert s l a pa. induction n as [|n IH]; intros s l a pa Hk Hwf Hn Hal Ha Hlast Hmax Hpa Hpa2 Hperm Hfree;
    [lia|].
  assert (Hamax : a < MAXVA) by (unfold PGSIZE in *; lia).
  destruct (walk_alloc s l root a Hk Hwf Hamax) as (pte & s1 & l1 & used1 & Ew & G1 & Hu1 & Hleaf1 & Hres).
  cbn [mappages_loop]. rewrite Ew. cbn [mbind outcome_bind].
  destruct Hres as [[-> ->]|(t & Ht & ->)].
  { exists (-1), s1, [], used1, 0. split; [done|]. split; [done|]. split; [lia|]. split.
    - by apply mapped_to_0.
    - right. split; [done|]. split; [lia|done]. }
  rewrite (proj2 (Z.eqb_neq _ _) (pte_nonzero s1 root a t (gr_wf _ _ _ _ _ _ G1) Ht)).
  rewrite <- (leaf_table _ _ _ _ Ht), Hleaf1.
  assert (Hv : nz (Z.land (leaf (k_mem s) root a) PTE_V) = false).
  { apply Hfree. unfold PGSIZE in *. lia. }
  rewrite Hv. fold (mkpte pa perm).
  assert (He : 0 <= mkpte pa perm < 2 ^ 64) by (apply mkpte_range; unfold PGSIZE in *; lia).
  pose proof (leaf_store_grow s1 root a t (mkpte pa perm) (gr_wf _ _ _ _ _ _ G1) Ht l1
    (gr_inv _ _ _ _ _ _ G1)) as G2.
  set (s2 := set_mem s1 (store64 (k_mem s1) (t + 8 * PX 0 a) (mkpte pa perm))) in *.
  assert (Hleaf2 : forall va, 0 <= va < MAXVA -> leaf (k_mem s2) root va =
      if decide (va / PGSIZE = a / PGSIZE) then mkpte pa perm else leaf (k_mem s) root va).
  { intros va Hva. simpl. rewrite (leaf_store_page s1 root a t) by (try done; apply G1).
    case_decide; [done|apply Hleaf1]. }
  destruct (Z.eqb_spec a last) as [E|E].
  - assert (n = 0)%nat as -> by (unfold PGSIZE in *; lia).
    exists 0, s2, l1, (used1 ++ []), 1. split; [done|]. split; [by eapply grow_trans|].
    split; [rewrite length_app; simpl; lia|]. split.
    + apply (mapped_to_cons _ (k_mem s2) _ _ _ 0); try done. by apply mapped_to_0.
    + left. split; [done|lia].
  - assert (HaN : u64 (a + PGSIZE) = a + PGSIZE).
    { apply u64_small. pose proof MAXVA_u64. unfold PGSIZE in *. lia. }
    assert (HpN : u64 (pa + PGSIZE) = pa + PGSIZE).
    { apply u64_small. unfold PGSIZE in *. lia. }
    rewrite HaN, HpN.
    destruct (IH s2 l1 (a + PGSIZE) (pa + PGSIZE)) as (r & s3 & l3 & used3 & j & Em & G3 & Hu3 & Hmap & Hr);
      try done; try (unfold PGSIZE in *; dlia).
    + apply G2.
    + apply G2.
    + intros va Hva. rewrite Hleaf2 by (unfold PGSIZE in *; lia).
      rewrite decide_False by (unfold PGSIZE in *; dlia). apply Hfree. unfold PGSIZE in *; lia.
    + exists r, s3, l3, (used1 ++ [] ++ used3), (j + 1). split; [exact Em|].
      split; [eapply grow_trans; [done|by eapply grow_trans]|].
      split; [rewrite length_app; simpl; lia|]. split.
      * apply (mapped_to_cons _ (k_mem s2)); try done. destruct Hr as [[_ ->]|[_ [? _]]]; lia.
      * destruct Hr as [[-> ->]|[-> [? ->]]]; [left|right]; split_and!; done || lia.
Qed.

Lemma mappages_spec s l root va size pa perm :
  kinv s l -> pt_wf s root ->
  0 <= va -> 0 < size -> va + size <= MAXVA ->
  0 <= pa -> pa + size + 2 * PGSIZE <= 2 ^ 56 -> 0 <= perm < 1024 ->
  (forall v, PGROUNDDOWN va <= v < va + size -> valid (leaf (k_mem s) root v) = false) ->
  let a := PGROUNDDOWN va in
  let n := (PGROUNDDOWN (va + size - 1) - a) / PGSIZE + 1 in
  exists r s' l' used j,
    mappages s root va size pa perm = Ret (r, s')
    /\ grow s l s' l' root used
    /\ mapped_to (k_mem s) (k_mem s') root a j pa perm
    /\ ((r = 0 /\ j = n)
        \/ (r = -1 /\ 0 <= j < n /\ l' = [] /\ Z.of_nat (length l) <= 2 * n)).
Proof.
  intros Hk Hwf Hva Hsz Hmax Hpa Hpa2 Hperm Hfree a n.
  pose proof MAXVA_u64 as Hmx. unfold PGSIZE in Hmx.
  pose proof (PGROUNDDOWN_bounds va ltac:(lia)) as Hb1.
  pose proof (PGROUNDDOWN_bounds (va + size - 1) ltac:(lia)) as Hb2.
  pose proof (PGROUNDDOWN_aligned va ltac:(lia)) as Ha1.
  pose proof (PGROUNDDOWN_aligned (va + size - 1) ltac:(lia)) as Ha2.
  unfold mappages. rewrite (proj2 (Z.eqb_neq size 0)) by lia. rewrite (u64_small (va + size - 1)) by lia.
  cbv zeta. fold a. unfold mappages_fuel.
  set (last := PGROUNDDOWN (va + size - 1)) in *.
  assert (Hal : a <= last) by (unfold PGSIZE in *; fold a in Hb1, Ha1; dlia).
  rewrite (proj2 (Z.leb_le _ _) Hal). fold n.
  assert (Hn : 0 < n) by (unfold n, PGSIZE; dlia).
  destruct (mappages_loop_ok (Z.to_nat n) s l root a last pa perm)
    as (r & s' & l' & used & j & H1 & H2 & Hu & H3 & H4); try done; try lia.
  - rewrite Z2Nat.id by lia. unfold n. fold a in Ha1. unfold PGSIZE in *. dlia.
  - rewrite Z2Nat.id by lia. unfold n. fold a in Ha1, Hb1. unfold PGSIZE in *. dlia.
  - intros v Hv. destruct (Z.lt_ge_cases v (va + size)) as [Hlt|Hge]; [by apply Hfree; lia|].
    unfold PGSIZE in *. lia.
  - exists r, s', l', used, j. rewrite Z2Nat.id in H4 by lia. split_and!; try done.
    destruct H4 as [|(E & Hj & El)]; [by left|right]. split_and!; try done; try lia.
    rewrite (gr_split _ _ _ _ _ _ H2), El, app_nil_r. lia.
Qed.

(** (C6) [mappages] on unmapped pages: it returns 0 and maps exactly the pages of the
    range, page [k] to [pa + k * PGSIZE] with the given permissions, or it
    returns -1, which happens only when memory ran out (at most two table pages
    are needed for each page mapped), having mapped an initial part of the range.  In both cases no other translation changes,
    existing table pages stay in place, the table pages added come from the
    free list, memory outside the tables is untouched, and the allocator and
    the tree stay well formed.  It never panics and terminates. *)
Theorem mappages_correct s l root va size pa perm :
  kinv s l -> pt_wf s root ->
  0 <= va -> 0 < size -> va + size <= MAXVA ->
  0 <= pa -> pa + size + 2 * PGSIZE <= 2 ^ 56 -> 0 <= perm < 1024 ->
  (forall v, PGROUNDDOWN va <= v < va + size -> valid (leaf (k_mem s) root v) = false) ->
  let a := PGROUNDDOWN va in
  let n := (PGROUNDDOWN (va + size - 1) - a) / PGSIZE + 1 in
  exists r s' l' used j,
    mappages s root va size pa perm = Ret (r, s')
    /\ grow s l s' l' root used
    /\ mapped_to (k_mem s) (k_mem s') root a j pa perm
    /\ ((r = 0 /\ j = n)
        \/ (r = -1 /\ 0 <= j < n /\ l' = [] /\ Z.of_nat (length l) <= 2 * n)).
Proof. intros. by eapply mappages_spec. Qed.

(** ** Writes outside the tables *)

Definition is_table (s : kst) (root p : Z) : Prop :=
  exists path, path_ok path /\ table_at (k_mem s) root path = Some p.

(** Memory that agrees on the table pages holds the same page table. *)
Lemma tables_same s root m' :
  (forall a, in_tables s root a -> rd m' a = rd (k_mem s) a) ->
  (forall q, path_ok q -> table_at m' root q = table_at (k_mem s) root q)
  /\ (forall va, leaf m' root va = leaf (k_mem s) root va).
Proof.
  intros H.
  assert (He : forall q t j, path_ok q -> table_at (k_mem s) root q = Some t -> 0 <= j < 512 ->
    load64 m' (t + 8 * j) = load64 (k_mem s) (t + 8 * j)).
  { intros q t j Hq Ht Hj. apply load64_same. intros b Hb. apply H.
    exists q, t. split; [done|]. split; [done|].
    pose proof (entry_in_page t j Hj). unfold in_page. lia. }
  assert (Htab : forall q, path_ok q -> table_at m' root q = table_at (k_mem s) root q).
  { intros q Hq. apply table_at_same. intros q' j r t -> Ht.
    destruct (path_ok_index _ _ _ Hq) as [Hj _].
    by apply (He q'); [eapply path_ok_prefix|..]. }
  split; [done|]. intros va. unfold leaf. rewrite Htab by apply path_ok_vpath.
  destruct (table_at (k_mem s) root (vpath va)) as [t|] eqn:Ht; [|done].
  apply (He (vpath va)); [apply path_ok_vpath|done|apply PX_range].
Qed.

(** In particular a page that is not a table page may be overwritten. *)
Lemma nontable_same s root m' p :
  pt_wf s root -> p mod PGSIZE = 0 -> ~ is_table s root p -> same_off m' (k_mem s) p PGSIZE ->
  (forall q, path_ok q -> table_at m' root q = table_at (k_mem s) root q)
  /\ (forall va, leaf m' root va = leaf (k_mem s) root va).
Proof.
  intros Hwf Hal Hnt Hoff. apply tables_same. intros a (path & t & Hpath & Ht & Hin).
  apply Hoff. intros Hp. apply Hnt.
  destruct (pt_tables _ _ Hwf path t Hpath Ht) as [[Htal _] _].
  assert (t = p) as ->; [|by exists path].
  unfold in_page, PGSIZE in *. dlia.
Qed.

Lemma pt_wf_same s s' root :
  pt_wf s root ->
  (forall q, path_ok q -> table_at (k_mem s') root q = table_at (k_mem s) root q) ->
  (forall p, is_table s root p -> rc s' (p / PGSIZE) = rc s (p / PGSIZE)) ->
  pt_wf s' root.
Proof.
  intros Hwf Htab Hrc. split.
  - intros q t Hq Ht. rewrite Htab in Ht by done.
    rewrite Hrc by by exists q. by apply (pt_tables _ _ Hwf q).
  - intros p q t Hp Hq. rewrite !Htab by done. by apply (pt_inj _ _ Hwf).
Qed.

(** ** uvmunmap *)

(** The mapped pages of a range belong to it alone: each is a user page with
    one reference, no table page, and mapped once. *)
Record owned (s : kst) (root lo hi : Z) : Prop := MkOwned {
  own_page : forall va, lo <= va < hi -> va mod PGSIZE = 0 -> valid (leaf (k_mem s) root va) = true ->
    PTE_FLAGS (leaf (k_mem s) root va) <> PTE_V
    /\ page_ok (PTE2PA (leaf (k_mem s) root va))
    /\ rc s (PTE2PA (leaf (k_mem s) root va) / PGSIZE) = 1
    /\ ~ is_table s root (PTE2PA (leaf (k_mem s) root va));
  own_inj : forall va1 va2,
    lo <= va1 < hi -> lo <= va2 < hi -> va1 mod PGSIZE = 0 -> va2 mod PGSIZE = 0 ->
    valid (leaf (k_mem s) root va1) = true -> valid (leaf (k_mem s) root va2) = true ->
    PTE2PA (leaf (k_mem s) root va1) = PTE2PA (leaf (k_mem s) root va2) -> va1 = va2
}.

(** From [s] to [s'], the physical pages [freed] went back to the free list. *)
Record shrink (s : kst) (l : list Z) (s' : kst) (root : Z) (freed : list Z) : Prop := MkShrink {
  sh_inv : kinv s' (freed ++ l);
  sh_wf : pt_wf s' root;
  sh_rc : forall q, page_ok q ->
    rc s' (q / PGSIZE) = if decide (q ∈ freed) then 0 else rc s (q / PGSIZE);
  sh_tables : forall path, path_ok path ->
    table_at (k_mem s') root path = table_at (k_mem s) root path;
  sh_frame : forall a, ~ in_tables s root a -> (forall p, p ∈ freed -> ~ in_page a p) ->
    rd (k_mem s') a = rd (k_mem s) a
}.

Lemma shrink_refl s l root : kinv s l -> pt_wf s root -> shrink s l s root [].
Proof. intros H1 H2. by split. Qed.

Lemma shrink_trans s1 l1 s2 s3 root f1 f2 :
  shrink s1 l1 s2 root f1 -> shrink s2 (f1 ++ l1) s3 root f2 -> shrink s1 l1 s3 root (f2 ++ f1).
Proof.
  intros S1 S2. split.
  - rewrite <- app_assoc. apply S2.
  - apply S2.
  - intros q Hq. rewrite (sh_rc _ _ _ _ _ S2 q Hq), (sh_rc _ _ _ _ _ S1 q Hq).
    destruct (decide (q ∈ f2)) as [H2|H2]; destruct (decide (q ∈ f1)) as [H1|H1];
      destruct (decide (q ∈ f2 ++ f1)) as [H3|H3]; rewrite elem_of_app in H3; tauto.
  - intros path Hp. by rewrite (sh_tables _ _ _ _ _ S2), (sh_tables _ _ _ _ _ S1).
  - intros a Ha Hf. rewrite (sh_frame _ _ _ _ _ S2), (sh_frame _ _ _ _ _ S1); try done.
    + intros p Hp. apply Hf. rewrite elem_of_app. auto.
    + intros (path & t & Hpath & Ht & Hin). apply Ha. exists path, t.
      by rewrite <- (sh_tables _ _ _ _ _ S1).
    + intros p Hp. apply Hf. rewrite elem_of_app. auto.
Qed.

(** The effect of unmapping the page of [a] on the leaves. *)
Definition cleared (m m' : gmap Z Z) (root lo hi : Z) : Prop :=
  forall va, 0 <= va < MAXVA ->
    leaf m' root va =
      if decide (lo <= va < hi /\ valid (leaf m root va) = true) then 0 else leaf m root va.

Lemma cleared_join m m1 m2 root lo mid hi :
  cleared m m1 root lo mid -> cleared m1 m2 root mid hi -> lo <= mid -> mid <= hi ->
  cleared m m2 root lo hi.
Proof.
  intros C1 C2 H1 H2 va Hva. rewrite C2, C1 by done.
  destruct (valid (leaf m root va)) eqn:Hv.
  - destruct (decide (lo <= va < mid)) as [Hr|Hr].
    + rewrite (decide_True (P := lo <= va < mid /\ true = true)) by done.
      rewrite (decide_True (P := lo <= va < hi /\ true = true)) by (split; [lia|done]).
      by rewrite decide_False by (intros [? ?]; lia).
    + rewrite (decide_False (P := lo <= va < mid /\ true = true)) by tauto.
      rewrite Hv. destruct (decide (mid <= va < hi)) as [Hr2|Hr2].
      * rewrite !decide_True by (split; [lia|done]). done.
      * rewrite !decide_False by (intros [? ?]; lia). done.
  - rewrite !(decide_False (P := _ /\ false = true)) by (intros [? ?]; done).
    rewrite Hv. by rewrite decide_False by (intros [? ?]; done).
Qed.

Lemma uvmunmap_page_none s root a do_free :
  0 <= a < MAXVA -> pt_wf s root -> valid (leaf (k_mem s) root a) = false ->
  uvmunmap_page s root a do_free = Ret s.
Proof.
  intros Ha Hwf Hv. unfold uvmunmap_page. rewrite walk_noalloc by lia. cbn [mbind outcome_bind].
  destruct (table_at (k_mem s) root (vpath a)) as [t|] eqn:Ht; [|done].
  rewrite (proj2 (Z.eqb_neq _ _) (pte_nonzero s root a t Hwf Ht)).
  rewrite <- (leaf_table _ _ _ _ Ht). unfold valid in Hv. bool_to_prop.
  rewrite (proj2 (Z.eqb_eq _ _) Hv). done.
Qed.

(** Zeroing the leaf of a page clears that page. *)
Lemma cleared_page m m' root a :
  0 <= a < MAXVA -> a mod PGSIZE = 0 -> valid (leaf m root a) = true ->
  (forall va, 0 <= va < MAXVA -> leaf m' root va = if decide (va / PGSIZE = a / PGSIZE) then 0 else leaf m root va) ->
  cleared m m' root a (a + PGSIZE).
Proof.
  intros Ha Hal Hv H va Hva. rewrite H by done. unfold PGSIZE in *.
  destruct (decide (va / 4096 = a / 4096)) as [E|E].
  - rewrite decide_True; [done|]. split; [dlia|].
    pose proof (same_page a va Ha Hva) as [_ Hs]. unfold PGSIZE in Hs.
    destruct (Hs E) as [E1 E2]. unfold valid, leaf in *. by rewrite E1, E2.
  - rewrite decide_False; [done|]. intros [Hr _]. dlia.
Qed.

Lemma uvmunmap_page_free s l root a :
  kinv s l -> pt_wf s root -> 0 <= a < MAXVA -> a mod PGSIZE = 0 ->
  valid (leaf (k_mem s) root a) = true -> owned s root a (a + PGSIZE) ->
  exists s', uvmunmap_page s root a true = Ret s'
    /\ shrink s l s' root [PTE2PA (leaf (k_mem s) root a)]
    /\ cleared (k_mem s) (k_mem s') root a (a + PGSIZE).
Proof.
  intros Hk Hwf Ha Hal Hv Hown.
  destruct (own_page _ _ _ _ Hown a ltac:(unfold PGSIZE; lia) Hal Hv) as (Hfl & Hpok & Hprc & Hnt).
  unfold uvmunmap_page. rewrite walk_noalloc by lia. cbn [mbind outcome_bind].
  destruct (table_at (k_mem s) root (vpath a)) as [t|] eqn:Ht;
    [|unfold valid, leaf in Hv; rewrite Ht in Hv; done].
  rewrite (proj2 (Z.eqb_neq _ _) (pte_nonzero s root a t Hwf Ht)).
  rewrite <- (leaf_table _ _ _ _ Ht). set (e := leaf (k_mem s) root a) in *.
  pose proof Hv as Hv'. unfold valid in Hv'. bool_to_prop.
  rewrite (proj2 (Z.eqb_neq _ _) Hv'), (proj2 (Z.eqb_neq _ _) Hfl).
  rewrite (kfree_last s (PTE2PA e) Hpok Hprc). cbn [mbind outcome_bind].
  set (s2 := pushed (set_rc s (PTE2PA e / PGSIZE) 0) (PTE2PA e)).
  assert (Hoff : same_off (k_mem s2) (k_mem s) (PTE2PA e) PGSIZE)
    by apply (pushed_off (set_rc s (PTE2PA e / PGSIZE) 0)).
  destruct (nontable_same s root (k_mem s2) (PTE2PA e) Hwf (proj1 Hpok) Hnt Hoff) as [Htab Hleaf].
  assert (Hk2 : kinv s2 (PTE2PA e :: l)) by by apply kinv_pushed.
  assert (Hrc2 : forall q, page_ok q ->
    rc s2 (q / PGSIZE) = if decide (q = PTE2PA e) then 0 else rc s (q / PGSIZE)).
  { intros q Hq. change (rc s2) with (rc (set_rc s (PTE2PA e / PGSIZE) 0)). rewrite rc_set_rc.
    repeat case_decide; subst; try done.
    exfalso. eapply H0, page_number_inj; [apply Hq|apply Hpok|done]. }
  clearbody s2.
  assert (Hwf2 : pt_wf s2 root).
  { eapply pt_wf_same; [done|done|]. intros p [q [Hq Hp]].
    destruct (pt_tables _ _ Hwf q p Hq Hp) as [Hpk _].
    rewrite Hrc2, decide_False; [done| |done]. intros ->. apply Hnt. by exists q. }
  assert (Ht2 : table_at (k_mem s2) root (vpath a) = Some t) by (rewrite Htab by apply path_ok_vpath; done).
  pose proof (leaf_store_grow s2 root a t 0 Hwf2 Ht2 (PTE2PA e :: l) Hk2) as G.
  set (s3 := set_mem s2 (store64 (k_mem s2) (t + 8 * PX 0 a) 0)) in *.
  exists s3. split; [done|]. split; [split|].
  - apply G.
  - apply G.
  - intros q Hq. rewrite (gr_rc _ _ _ _ _ _ G q Hq), Hrc2 by done.
    rewrite decide_False by apply not_elem_of_nil.
    repeat case_decide; rewrite list_elem_of_singleton in *; tauto.
  - intros path Hpath. simpl.
    rewrite (leaf_store_tables s2 root a t 0) by done. by apply Htab.
  - intros b Hb Hf. rewrite (gr_frame _ _ _ _ _ _ G).
    + apply Hoff. apply (Hf (PTE2PA e)). by apply list_elem_of_singleton.
    + intros (path & u & Hpath & Hu & Hin). apply Hb. exists path, u.
      rewrite (Htab path Hpath) in Hu. done.
    + intros p Hp. by apply elem_of_nil in Hp.
  - apply cleared_page; try done. intros va Hva. simpl.
    rewrite (leaf_store_page s2 root a t 0 va) by (done || lia). by rewrite Hleaf.
Qed.

(** The range shrinks by its first page. *)
Lemma owned_tail s l s' root a hi freed :
  owned s root a hi -> kinv s l -> shrink s l s' root freed ->
  a mod PGSIZE = 0 -> a + PGSIZE <= hi -> 0 <= a -> hi <= MAXVA ->
  cleared (k_mem s) (k_mem s') root a (a + PGSIZE) ->
  (forall p, p ∈ freed -> valid (leaf (k_mem s) root a) = true /\ p = PTE2PA (leaf (k_mem s) root a)) ->
  owned s' root (a + PGSIZE) hi.
Proof.
  intros Hown Hk S Hal Hle Ha Hhi Hcl Hfr.
  assert (Hl : forall va, a + PGSIZE <= va < hi -> leaf (k_mem s') root va = leaf (k_mem s) root va).
  { intros va Hva. rewrite Hcl by (unfold PGSIZE in *; lia). rewrite decide_False; [done|].
    intros [? _]. lia. }
  assert (Hnt : forall p, is_table s' root p <-> is_table s root p).
  { intros p. unfold is_table. split; intros (q & Hq & Hp); exists q; split; try done.
    - by rewrite <- (sh_tables _ _ _ _ _ S).
    - by rewrite (sh_tables _ _ _ _ _ S). }
  split.
  - intros va Hva Hval. rewrite Hl by done. intros Hv.
    destruct (own_page _ _ _ _ Hown va ltac:(unfold PGSIZE in *; lia) Hval Hv) as (H1 & H2 & H3 & H4).
    split_and!; try done.
    + rewrite (sh_rc _ _ _ _ _ S) by done. rewrite decide_False; [done|]. intros Hin.
      apply Hfr in Hin as [Hva0 E]. unfold PGSIZE in *.
      pose proof (own_inj _ _ _ _ Hown va a ltac:(lia) ltac:(lia) Hval Hal Hv Hva0 E). lia.
    + by rewrite Hnt.
  - intros va1 va2 H1 H2 Ha1 Ha2. rewrite !Hl by done. intros Hv1 Hv2 E.
    eapply (own_inj _ _ _ _ Hown); eauto; unfold PGSIZE in *; lia.
Qed.

Lemma uvmunmap_loop_free n s l root a :
  kinv s l -> pt_wf s root -> 0 <= a -> a mod PGSIZE = 0 -> a + Z.of_nat n * PGSIZE <= MAXVA ->
  owned s root a (a + Z.of_nat n * PGSIZE) ->
  exists s' freed, uvmunmap_loop n s root a true = Ret s'
    /\ shrink s l s' root freed
    /\ cleared (k_mem s) (k_mem s') root a (a + Z.of_nat n * PGSIZE).
Proof.
  revert s l a. induction n as [|n IH]; intros s l a Hk Hwf Ha Hal Hmax Hown.
  { exists s, []. split; [done|]. split; [by apply shrink_refl|]. intros va Hva.
    rewrite decide_False; [done|]. intros [? _]. unfold PGSIZE in *. lia. }
  rewrite Nat2Z.inj_succ in *.
  assert (Hstep : exists s1 freed, uvmunmap_page s root a true = Ret s1
    /\ shrink s l s1 root freed /\ cleared (k_mem s) (k_mem s1) root a (a + PGSIZE)
    /\ (forall p, p ∈ freed ->
          valid (leaf (k_mem s) root a) = true /\ p = PTE2PA (leaf (k_mem s) root a))).
  { assert (Har : 0 <= a < MAXVA) by (unfold PGSIZE in *; lia).
    destruct (valid (leaf (k_mem s) root a)) eqn:Hv.
    - destruct (uvmunmap_page_free s l root a) as (s1 & E & S1 & C1); try done.
      + split.
        * intros va Hva. apply (own_page _ _ _ _ Hown). unfold PGSIZE in *. lia.
        * intros va1 va2 H1 H2. apply (own_inj _ _ _ _ Hown); unfold PGSIZE in *; lia.
      + exists s1, [PTE2PA (leaf (k_mem s) root a)]. split_and!; try done.
        by intros p ->%list_elem_of_singleton.
    - exists s, []. rewrite uvmunmap_page_none by done. split; [done|].
      split; [by apply shrink_refl|]. split; [|by intros p Hp%elem_of_nil].
      intros va Hva. case_decide as Hd; [|done]. destruct Hd as [Hr Hv'].
      assert (leaf (k_mem s) root va = leaf (k_mem s) root a) as E.
      { pose proof (same_page a va Har Hva) as [_ Hs].
        destruct Hs as [E1 E2]; [unfold PGSIZE in *; dlia|]. unfold leaf. by rewrite E1, E2. }
      congruence. }
  destruct Hstep as (s1 & f1 & E1 & S1 & C1 & Hf1).
  cbn [uvmunmap_loop]. rewrite E1. cbn [mbind outcome_bind].
  destruct (IH s1 (f1 ++ l) (a + PGSIZE)) as (s' & f2 & E2 & S2 & C2).
  - apply S1.
  - apply S1.
  - unfold PGSIZE in *; lia.
  - unfold PGSIZE in *; dlia.
  - unfold PGSIZE in *; lia.
  - replace (a + PGSIZE + Z.of_nat n * PGSIZE) with (a + Z.succ (Z.of_nat n) * PGSIZE) by lia.
    eapply owned_tail; eauto; unfold PGSIZE in *; lia.
  - exists s', (f2 ++ f1). split; [exact E2|]. split; [by eapply shrink_trans|].
    replace (a + Z.succ (Z.of_nat n) * PGSIZE) with (a + PGSIZE + Z.of_nat n * PGSIZE) by lia.
    eapply cleared_join; [exact C1|exact C2| |]; unfold PGSIZE; lia.
Qed.

(** [uvmunmap] with [do_free] on a range whose mapped pages belong to it: it
    terminates without panic, the mapped entries of the range become 0 and no
    other translation changes, every page that was mapped there goes back to
    the free list (so the allocator is well formed again), the tables stay in
    place and no other memory is touched. *)
Theorem uvmunmap_correct s l root va npages :
  kinv s l -> pt_wf s root ->
  0 <= va -> va mod PGSIZE = 0 -> 0 <= npages -> va + npages * PGSIZE <= MAXVA ->
  owned s root va (va + npages * PGSIZE) ->
  exists s' freed, uvmunmap s root va npages true = Ret s'
    /\ shrink s l s' root freed
    /\ cleared (k_mem s) (k_mem s') root va (va + npages * PGSIZE).
Proof.
  intros Hk Hwf Hva Hal Hn Hmax Hown. unfold uvmunmap. rewrite Hal. change (nz 0) with false.
  cbv iota. pose proof MAXVA_u64 as Hmx. unfold PGSIZE in Hmx.
  rewrite u64_small by (unfold PGSIZE in *; lia).
  replace ((va + npages * PGSIZE - va) / PGSIZE) with npages by (unfold PGSIZE; dlia).
  rewrite <- (Z2Nat.id npages) in Hmax, Hown by done.
  destruct (uvmunmap_loop_free (Z.to_nat npages) s l root va) as (s' & freed & H); try done.
  rewrite Z2Nat.id in H by done. eauto.
Qed.

End VmMap.

(** ** Concrete instances

    The last four pages of RAM are managed: [pgA] is the root table.  In
    [demo_root] it is empty and the other pages are free; in [demo_map] it
    reaches, through the tables [pgB] and [pgC], the user page [pgD] at
    virtual address 0. *)
Definition pgA : Z := PHYSTOP - 4 * PGSIZE.
Definition pgB : Z := PHYSTOP - 3 * PGSIZE.
Definition pgC : Z := PHYSTOP - 2 * PGSIZE.
Definition pgD : Z := PHYSTOP - PGSIZE.
Definition demo4 : Layout :=
  {| kend := pgA; etext := KERNBASE + 8 * PGSIZE; trampoline := KERNBASE |}.

Definition user_rwx : Z := Z.lor (Z.lor (Z.lor PTE_W PTE_R) PTE_X) PTE_U.

Definition demo_root : kst :=
  MkKst (store64 (store64 ∅ pgB pgC) pgC pgD) pgB {[ pgA / PGSIZE := 1 ]}.
Definition demo_map : kst :=
  MkKst (store64 (store64 (store64 ∅ pgA (Z.lor (PA2PTE pgB) PTE_V)) pgB (Z.lor (PA2PTE pgC) PTE_V))
           pgC (mkpte pgD user_rwx)) 0
    {[ pgA / PGSIZE := 1; pgB / PGSIZE := 1; pgC / PGSIZE := 1; pgD / PGSIZE := 1 ]}.

Ltac demo_lia := unfold pgA, pgB, pgC, pgD, PHYSTOP, KERNBASE, PGSIZE in *; lia.

Lemma demo4_pages p : @page_ok demo4 p -> p = pgA \/ p = pgB \/ p = pgC \/ p = pgD.
Proof.
  unfold page_ok. simpl. unfold pgA, pgB, pgC, pgD, PHYSTOP, KERNBASE, PGSIZE. dlia.
Qed.

Lemma demo4_ok p : p = pgA \/ p = pgB \/ p = pgC \/ p = pgD -> @page_ok demo4 p.
Proof. intros [->|[->|[->| ->]]]; (split; [reflexivity|]; simpl; demo_lia). Qed.

Lemma demo_root_inv : @kinv demo4 demo_root [pgB; pgC; pgD].
Proof.
  split.
  - vm_compute. done.
  - repeat (apply NoDup_cons; split; [rewrite ?elem_of_cons, elem_of_nil; demo_lia|]).
    apply NoDup_nil_2.
  - rewrite !Forall_cons. split_and!; [apply demo4_ok; auto..|constructor].
  - intros p Hp. rewrite !elem_of_cons, elem_of_nil.
    apply demo4_pages in Hp as [->|[->|[->| ->]]].
    + split; [demo_lia|]. by vm_compute.
    + split; [reflexivity|auto].
    + split; [reflexivity|auto].
    + split; [reflexivity|auto].
  - intros p Hp. apply demo4_pages in Hp as [->|[->|[->| ->]]]; vm_compute; discriminate.
Qed.

Lemma demo_root_empty i : 0 <= i < 512 -> load64 (k_mem demo_root) (pgA + 8 * i) = 0.
Proof.
  intros Hi. simpl. rewrite !load64_store64_ne by demo_lia. by apply load64_zero.
Qed.

Lemma demo_root_wf : @pt_wf demo4 demo_root pgA.
Proof.
  assert (H : forall path t, path_ok path -> table_at (k_mem demo_root) pgA path = Some t ->
    path = [] /\ t = pgA).
  { intros [|i path] t Hp Ht; [by injection Ht|].
    destruct (path_ok_index [] i path Hp) as [Hi _].
    rewrite table_at_cons, demo_root_empty in Ht by done. done. }
  split.
  - intros path t Hp Ht. destruct (H path t Hp Ht) as [_ ->].
    split; [apply demo4_ok; auto|]. vm_compute. discriminate.
  - intros p q t Hp Hq H1 H2. destruct (H p t Hp H1) as [-> _]. by destruct (H q t Hq H2) as [-> _].
Qed.

Lemma mappages_correct_witness :
  exists r s', mappages demo_root pgA 0 PGSIZE 4096 user_rwx = Ret (r, s')
    /\ exists j, mapped_to (k_mem demo_root) (k_mem s') pgA 0 j 4096 user_rwx.
Proof.
  destruct (@mappages_correct demo4 demo_root _ pgA 0 PGSIZE 4096 user_rwx
    demo_root_inv demo_root_wf) as (r & s' & l' & used & j & E & _ & M & _).
  - lia.
  - unfold PGSIZE; lia.
  - vm_compute. discriminate.
  - lia.
  - vm_compute. discriminate.
  - vm_compute. split; [discriminate|reflexivity].
  - intros v Hv. unfold leaf, vpath. rewrite table_at_cons, demo_root_empty by apply PX_range.
    reflexivity.
  - exists r, s'. split; [exact E|]. exists j. exact M.
Defined.

Lemma demo_map_inv : @kinv demo4 demo_map [].
Proof.
  split.
  - done.
  - apply NoDup_nil_2.
  - constructor.
  - intros p Hp. rewrite elem_of_nil.
    apply demo4_pages in Hp as [->|[->|[->| ->]]]; (split; [done|vm_compute; discriminate]).
  - intros p Hp. apply demo4_pages in Hp as [->|[->|[->| ->]]]; vm_compute; discriminate.
Qed.

Lemma demo_map_tables path t :
  path_ok path -> table_at (k_mem demo_map) pgA path = Some t ->
  (path = [] /\ t = pgA) \/ (path = [0] /\ t = pgB) \/ (path = [0; 0] /\ t = pgC).
Proof.
  intros Hp Ht. destruct path as [|i path]; [left; by injection Ht|].
  destruct (path_ok_index [] i path Hp) as [Hi _]. rewrite table_at_cons in Ht.
  destruct (decide (i = 0)) as [->|Hi0].
  2: { simpl in Ht. rewrite !load64_store64_ne in Ht by demo_lia.
       rewrite load64_zero in Ht by done. done. }
  change (load64 (k_mem demo_map) (pgA + 8 * 0)) with (load64 (k_mem demo_map) pgA) in Ht.
  simpl in Ht. rewrite !(load64_store64_ne _ _ pgA) in Ht by demo_lia.
  rewrite load64_store64 in Ht by (vm_compute; split; [discriminate|reflexivity]).
  change (PTE2PA (Z.lor (PA2PTE pgB) PTE_V)) with pgB in Ht.
  change (nz (Z.land (Z.lor (PA2PTE pgB) PTE_V) PTE_V)) with true in Ht. cbv iota in Ht.
  destruct path as [|j path]; [right; left; by injection Ht|].
  destruct (path_ok_index [0] j path Hp) as [Hj _]. rewrite table_at_cons in Ht.
  destruct (decide (j = 0)) as [->|Hj0].
  2: { simpl in Ht. rewrite !load64_store64_ne in Ht by demo_lia.
       rewrite load64_zero in Ht by done. done. }
  replace (pgB + 8 * 0) with pgB in Ht by lia.
  rewrite !(load64_store64_ne _ pgC pgB) in Ht by demo_lia.
  rewrite load64_store64 in Ht by (vm_compute; split; [discriminate|reflexivity]).
  change (PTE2PA (Z.lor (PA2PTE pgC) PTE_V)) with pgC in Ht.
  change (nz (Z.land (Z.lor (PA2PTE pgC) PTE_V) PTE_V)) with true in Ht. cbv iota in Ht.
  destruct path as [|k path]; [right; right; by injection Ht|].
  destruct Hp as [Hlen _]. simpl in Hlen. lia.
Qed.

Lemma demo_map_wf : @pt_wf demo4 demo_map pgA.
Proof.
  split.
  - intros path t Hp Ht.
    destruct (demo_map_tables path t Hp Ht) as [[_ ->]|[[_ ->]|[_ ->]]];
      (split; [apply demo4_ok; auto|vm_compute; discriminate]).
  - intros p q t Hp Hq H1 H2.
    destruct (demo_map_tables p t Hp H1) as [[-> ->]|[[-> ->]|[-> ->]]];
      destruct (demo_map_tables q _ Hq H2) as [[-> E]|[[-> E]|[-> E]]]; (done || demo_lia).
Qed.

Lemma demo_map_leaf0 : leaf (k_mem demo_map) pgA 0 = mkpte pgD user_rwx.
Proof. vm_compute. reflexivity. Qed.

Lemma demo_map_owned : @owned demo4 demo_map pgA 0 PGSIZE.
Proof.
  assert (H0 : forall va, 0 <= va < PGSIZE -> va mod PGSIZE = 0 -> va = 0).
  { unfold PGSIZE. intros. dlia. }
  split.
  - intros va Hva Hal _. rewrite (H0 va Hva Hal), demo_map_leaf0.
    change (PTE2PA (mkpte pgD user_rwx)) with pgD. split_and!.
    + by vm_compute.
    + apply demo4_ok. auto.
    + reflexivity.
    + intros (path & Hp & Ht).
      destruct (demo_map_tables path pgD Hp Ht) as [[_ E]|[[_ E]|[_ E]]]; demo_lia.
  - intros va1 va2 H1 H2 A1 A2 _ _ _. by rewrite (H0 va1 H1 A1), (H0 va2 H2 A2).
Qed.

Lemma uvmunmap_correct_witness :
  exists s', @uvmunmap demo4 demo_map pgA 0 1 true = Ret s'
    /\ cleared (k_mem demo_map) (k_mem s') pgA 0 PGSIZE.
Proof.
  destruct (@uvmunmap_correct demo4 demo_map [] pgA 0 1 demo_map_inv demo_map_wf)
    as (s' & freed & E & _ & C).
  - lia.
  - reflexivity.
  - lia.
  - vm_compute. discriminate.
  - exact demo_map_owned.
  - exists s'. split; [exact E|exact C].
Defined.

End VmMap.
