(* ===== verification/UserCopy.v ===== *)
(** * Copies between kernel and user memory: [walkaddr], [copyout], [copyin]

    The user sees physical memory through its page table: address [v] is byte
    [uaddr m root v].  The copies are specified by that view. *)

From S2P Require Import Prelude Riscv KString Kalloc ProcDefs Vm VmTree VmMap.
From stdpp Require Import base list numbers gmap strings.
From Stdlib Require Import ZArith Lia.
Import KString Kalloc Vm VmTree VmMap.

#[local] Open Scope Z_scope.

(** ** Bytes of kernel objects *)

Lemma rd_mem_put m a bs b :
  rd (mem_put m a bs) b =
    if decide (a <= b < a + Z.of_nat (length bs)) then u8 (default 0 (bs !! Z.to_nat (b - a))) else rd m b.
Proof.
  revert m a. induction bs as [|c bs IH]; intros m a.
  { simpl. by rewrite decide_False by lia. }
  simpl mem_put. rewrite IH, rd_wr. simpl length.
  destruct (decide (a = b)) as [->|Hne].
  - rewrite decide_False, decide_True by lia. rewrite Z.sub_diag. done.
  - repeat case_decide; try lia; try done.
    replace (Z.to_nat (b - a)) with (S (Z.to_nat (b - (a + 1)))) by lia. done.
Qed.

Lemma mem_put_off m a bs : same_off (mem_put m a bs) m a (Z.of_nat (length bs)).
Proof. intros b Hb. rewrite rd_mem_put. by rewrite decide_False. Qed.

Module UserCopy.
Section UserCopy.
Context {L : Layout}.

(** The physical address behind user address [v]. *)
Definition uaddr (m : gmap Z Z) (root v : Z) : Z := PTE2PA (leaf m root v) + v mod PGSIZE.

(** Every page of [lo, hi) is mapped for the user, to a page of its own that is
    not a table page. *)
Record urange (s : kst) (root lo hi : Z) : Prop := MkUrange {
  ur_lo : 0 <= lo;
  ur_hi : hi <= MAXVA;
  ur_map : forall v, lo <= v < hi ->
    valid (leaf (k_mem s) root v) = true /\ nz (Z.land (leaf (k_mem s) root v) PTE_U) = true
    /\ PTE2PA (leaf (k_mem s) root v) <> 0
    /\ PTE2PA (leaf (k_mem s) root v) mod PGSIZE = 0
    /\ ~ is_table s root (PTE2PA (leaf (k_mem s) root v));
  ur_inj : forall v1 v2, lo <= v1 < hi -> lo <= v2 < hi ->
    PTE2PA (leaf (k_mem s) root v1) = PTE2PA (leaf (k_mem s) root v2) -> v1 / PGSIZE = v2 / PGSIZE
}.

Lemma urange_sub s root lo hi lo' hi' :
  urange s root lo hi -> lo <= lo' -> hi' <= hi -> urange s root lo' hi'.
Proof.
  intros [H1 H2 H3 H4] Hl Hh. split; try lia.
  - intros v Hv. apply H3. lia.
  - intros v1 v2 Hv1 Hv2. apply H4; lia.
Qed.

Lemma leaf_page m root v1 v2 :
  0 <= v1 < MAXVA -> 0 <= v2 < MAXVA -> v1 / PGSIZE = v2 / PGSIZE -> leaf m root v1 = leaf m root v2.
Proof.
  intros H1 H2 E. pose proof (same_page v2 v1 H2 H1) as [_ H]. destruct (H E) as [E1 E2].
  unfold leaf. by rewrite E1, E2.
Qed.

(** Addresses of one page are contiguous. *)
Lemma uaddr_page m root v va0 :
  0 <= va0 -> va0 mod PGSIZE = 0 -> va0 <= v < va0 + PGSIZE -> v < MAXVA ->
  uaddr m root v = PTE2PA (leaf m root va0) + (v - va0).
Proof.
  intros H0 Hal Hv Hmax. unfold uaddr. rewrite (leaf_page m root v va0);
    unfold PGSIZE in *; dlia.
Qed.

Lemma uaddr_inj s root lo hi v1 v2 :
  urange s root lo hi -> lo <= v1 < hi -> lo <= v2 < hi ->
  uaddr (k_mem s) root v1 = uaddr (k_mem s) root v2 -> v1 = v2.
Proof.
  intros U H1 H2 E. unfold uaddr in E.
  destruct (ur_map _ _ _ _ U v1 H1) as (_ & _ & _ & A1 & _).
  destruct (ur_map _ _ _ _ U v2 H2) as (_ & _ & _ & A2 & _).
  assert (E1 : PTE2PA (leaf (k_mem s) root v1) = PTE2PA (leaf (k_mem s) root v2)).
  { unfold PGSIZE in *. dlia. }
  pose proof (ur_inj _ _ _ _ U v1 v2 H1 H2 E1). unfold PGSIZE in *. dlia.
Qed.

(** ** walkaddr *)

Lemma walkaddr_mapped p s root va :
  pt_wf s root -> 0 <= va < MAXVA ->
  valid (leaf (k_mem s) root va) = true -> nz (Z.land (leaf (k_mem s) root va) PTE_U) = true ->
  walkaddr p s root va = Ret (PTE2PA (leaf (k_mem s) root va), s).
Proof.
  intros Hwf Hva Hv Hu. unfold walkaddr. rewrite (proj2 (Z.leb_gt _ _)) by lia.
  rewrite walk_noalloc by lia. cbn [mbind outcome_bind].
  destruct (table_at (k_mem s) root (vpath va)) as [t|] eqn:Ht;
    [|unfold valid, leaf in Hv; rewrite Ht in Hv; done].
  rewrite (proj2 (Z.eqb_neq _ _) (pte_nonzero s root va t Hwf Ht)).
  rewrite <- (leaf_table _ _ _ _ Ht). unfold valid in Hv. bool_to_prop.
  rewrite (proj2 (Z.eqb_neq _ _) Hv), (proj2 (Z.eqb_neq _ _) Hu). done.
Qed.

(** Outside the process, or below its stack pointer, an unmapped address is
    refused and nothing changes. *)
Lemma walkaddr_refused p s root va :
  pt_wf s root -> 0 <= va < MAXVA -> valid (leaf (k_mem s) root va) = false ->
  p_sz p <= va \/ va < PGROUNDUP (tf_load (k_mem s) p TF_sp) ->
  walkaddr p s root va = Ret (0, s).
Proof.
  intros Hwf Hva Hv Hr. unfold walkaddr. rewrite (proj2 (Z.leb_gt _ _)) by lia.
  rewrite walk_noalloc by lia. cbn [mbind outcome_bind].
  assert (Ho : (p_sz p <=? va) || (va <? PGROUNDUP (tf_load (k_mem s) p TF_sp)) = true).
  { apply orb_true_iff. destruct Hr; [left; by apply Z.leb_le|right; by apply Z.ltb_lt]. }
  destruct (table_at (k_mem s) root (vpath va)) as [t|] eqn:Ht.
  - rewrite <- (leaf_table _ _ _ _ Ht). apply nz_false in Hv.
    rewrite (proj2 (Z.eqb_eq _ _) Hv), orb_true_r. by rewrite Ho.
  - simpl orb. by rewrite Ho.
Qed.

(** Guard pages (no PTE_U) are refused too. *)
Lemma walkaddr_kernel_page p s root va :
  pt_wf s root -> 0 <= va < MAXVA -> valid (leaf (k_mem s) root va) = true ->
  nz (Z.land (leaf (k_mem s) root va) PTE_U) = false -> walkaddr p s root va = Ret (0, s).
Proof.
  intros Hwf Hva Hv Hu. unfold walkaddr. rewrite (proj2 (Z.leb_gt _ _)) by lia.
  rewrite walk_noalloc by lia. cbn [mbind outcome_bind].
  destruct (table_at (k_mem s) root (vpath va)) as [t|] eqn:Ht;
    [|unfold valid, leaf in Hv; rewrite Ht in Hv; done].
  rewrite (proj2 (Z.eqb_neq _ _) (pte_nonzero s root va t Hwf Ht)).
  rewrite <- (leaf_table _ _ _ _ Ht). unfold valid in Hv. bool_to_prop.
  rewrite (proj2 (Z.eqb_neq _ _) Hv), (proj2 (Z.eqb_eq _ _) Hu). done.
Qed.

(** ** copyin *)

(** The [n] bytes the user sees at [v]. *)
Definition ubytes (m : gmap Z Z) (root v n : Z) : list Z :=
  (fun i => rd m (uaddr m root (v + i))) <$> seqZ 0 n.

Lemma ubytes_app m root v n1 n2 :
  0 <= n1 -> 0 <= n2 ->
  ubytes m root v (n1 + n2) = ubytes m root v n1 ++ ubytes m root (v + n1) n2.
Proof.
  intros H1 H2. unfold ubytes. rewrite seqZ_app by done. rewrite fmap_app. f_equal.
  rewrite Z.add_0_l. rewrite <- (Z.add_0_r n1) at 1. rewrite <- fmap_add_seqZ, <- list_fmap_compose.
  apply list_fmap_ext. intros i x _. simpl. by rewrite Z.add_assoc.
Qed.

(** Within a page the user bytes are the physical bytes. *)
Lemma ubytes_page m root v va0 n :
  0 <= va0 -> va0 mod PGSIZE = 0 -> va0 <= v -> v + n <= va0 + PGSIZE -> v + n <= MAXVA ->
  ubytes m root v n = mem_get m (PTE2PA (leaf m root va0) + (v - va0)) n.
Proof.
  intros H0 Hal Hlo Hhi Hmax. unfold ubytes, mem_get, bytes.
  apply list_fmap_ext. intros i x Hx. apply lookup_seqZ in Hx as [-> Hi]. f_equal.
  rewrite (uaddr_page m root _ va0) by (done || lia). lia.
Qed.

(** What one turn of a copy loop sees: the page of [v] and the bytes left. *)
Definition chunk (v len : Z) : Z :=
  if len <? PGSIZE - (v - PGROUNDDOWN v) then len else PGSIZE - (v - PGROUNDDOWN v).

Lemma chunk_bounds v len :
  0 <= v < 2 ^ 64 -> 0 < len ->
  0 < chunk v len <= len /\ v + chunk v len <= PGROUNDDOWN v + PGSIZE
  /\ (chunk v len = len \/ v + chunk v len = PGROUNDDOWN v + PGSIZE).
Proof.
  intros Hv Hlen. pose proof (PGROUNDDOWN_bounds v Hv) as [H1 H2].
  unfold chunk. case_if; lia.
Qed.

Lemma urange_walk p s root lo hi v :
  pt_wf s root -> urange s root lo hi -> lo <= v < hi ->
  walkaddr p s root (PGROUNDDOWN v) = Ret (PTE2PA (leaf (k_mem s) root (PGROUNDDOWN v)), s)
  /\ leaf (k_mem s) root (PGROUNDDOWN v) = leaf (k_mem s) root v.
Proof.
  intros Hwf U Hv. pose proof MAXVA_u64 as Hmx. unfold PGSIZE in Hmx.
  pose proof (ur_lo _ _ _ _ U). pose proof (ur_hi _ _ _ _ U).
  pose proof (PGROUNDDOWN_bounds v ltac:(lia)) as [H1 H2].
  pose proof (PGROUNDDOWN_aligned v ltac:(lia)) as H3.
  assert (E : leaf (k_mem s) root (PGROUNDDOWN v) = leaf (k_mem s) root v).
  { apply leaf_page; try lia. unfold PGSIZE in *. dlia. }
  split; [|done]. destruct (ur_map _ _ _ _ U v Hv) as (A & B & _).
  apply walkaddr_mapped; try done; try lia; by rewrite E.
Qed.

Lemma copyin_loop_ok fuel p s root dst srcva len :
  pt_wf s root -> 0 <= len -> urange s root srcva (srcva + len) ->
  srcva mod PGSIZE + len <= Z.of_nat fuel * PGSIZE ->
  copyin_loop fuel p s root dst srcva len = Ret (0, dst ++ ubytes (k_mem s) root srcva len, s).
Proof.
  revert dst srcva len. induction fuel as [|fuel IH]; intros dst srcva len Hwf Hlen U Hf.
  - assert (len = 0) as -> by (unfold PGSIZE in *; dlia). simpl. by rewrite app_nil_r.
  - cbn [copyin_loop]. destruct (Z.ltb_spec 0 len) as [Hpos|Hz].
    2: { assert (len = 0) as -> by lia. by rewrite app_nil_r. }
    pose proof MAXVA_u64 as Hmx. unfold PGSIZE in Hmx.
    pose proof (ur_lo _ _ _ _ U). pose proof (ur_hi _ _ _ _ U).
    destruct (urange_walk p s root _ _ srcva Hwf U ltac:(lia)) as [Hw El].
    destruct (ur_map _ _ _ _ U srcva ltac:(lia)) as (_ & _ & Hnz & _ & _).
    pose proof (PGROUNDDOWN_bounds srcva ltac:(lia)) as [H1 H2].
    pose proof (PGROUNDDOWN_aligned srcva ltac:(lia)) as H3.
    pose proof (chunk_bounds srcva len ltac:(lia) Hpos) as (C1 & C2 & C3).
    rewrite Hw. cbn [mbind outcome_bind]. rewrite El at 1. rewrite (proj2 (Z.eqb_neq _ _) Hnz).
    fold (chunk srcva len). rewrite u64_small by (unfold PGSIZE in *; lia).
    rewrite <- (ubytes_page (k_mem s) root srcva (PGROUNDDOWN srcva)) by (done || lia).
    destruct C3 as [C3|C3].
    + rewrite C3, Z.sub_diag. by destruct fuel.
    + rewrite <- C3. rewrite IH; try done; try lia.
      * rewrite <- app_assoc, <- ubytes_app by lia.
        by replace (chunk srcva len + (len - chunk srcva len)) with len by lia.
      * eapply urange_sub; [exact U|lia|lia].
      * unfold PGSIZE in *. dlia.
Qed.

(** ** copyout *)

(** What a copy of [src] to user address [dstva] does to memory [m]: the bytes
    land at the physical addresses the table names, everything else and the
    table itself stay. *)
Definition user_put (m m' : gmap Z Z) (root dstva : Z) (src : list Z) : Prop :=
  (forall q, path_ok q -> table_at m' root q = table_at m root q)
  /\ (forall v, leaf m' root v = leaf m root v)
  /\ (forall i, 0 <= i < Z.of_nat (length src) ->
        rd m' (uaddr m root (dstva + i)) = u8 (default 0 (src !! Z.to_nat i)))
  /\ (forall b, (forall i, 0 <= i < Z.of_nat (length src) -> b <> uaddr m root (dstva + i)) ->
        rd m' b = rd m b).

Lemma user_put_nil m root dstva : user_put m m root dstva [].
Proof. split_and!; try done. intros i Hi. simpl in Hi. lia. Qed.

Lemma urange_same s root m' lo hi :
  (forall q, path_ok q -> table_at m' root q = table_at (k_mem s) root q) ->
  (forall v, leaf m' root v = leaf (k_mem s) root v) ->
  urange s root lo hi -> urange (set_mem s m') root lo hi.
Proof.
  intros T Lf [U1 U2 U3 U4]. split; try done.
  - intros w Hw. simpl. rewrite Lf. destruct (U3 w Hw) as (A & B & C & D & G). split_and!; try done.
    intros (q & Hq & Ht). apply G. exists q. split; [done|]. simpl in Ht. by rewrite <- T.
  - intros w1 w2 Hw1 Hw2. simpl. rewrite !Lf. by apply U4.
Qed.

(** A write inside one mapped page. *)
Lemma user_put_page s root dstva src :
  pt_wf s root -> urange s root dstva (dstva + Z.of_nat (length src)) ->
  0 < Z.of_nat (length src) -> dstva - PGROUNDDOWN dstva + Z.of_nat (length src) <= PGSIZE ->
  user_put (k_mem s)
    (mem_put (k_mem s) (PTE2PA (leaf (k_mem s) root dstva) + (dstva - PGROUNDDOWN dstva)) src) root dstva src.
Proof.
  intros Hwf U Hpos Hfit. pose proof (ur_lo _ _ _ _ U). pose proof (ur_hi _ _ _ _ U).
  pose proof MAXVA_u64 as Hmx. unfold PGSIZE in Hmx.
  pose proof (PGROUNDDOWN_bounds dstva ltac:(lia)) as [H1 H2].
  pose proof (PGROUNDDOWN_aligned dstva ltac:(lia)) as H3.
  destruct (urange_walk proc0 s root _ _ dstva Hwf U ltac:(lia)) as [_ El].
  destruct (ur_map _ _ _ _ U dstva ltac:(lia)) as (_ & _ & Hnz & Hpal & Hnt).
  set (pa := PTE2PA (leaf (k_mem s) root dstva)) in *. set (m1 := mem_put _ _ _).
  assert (Hu : forall i, 0 <= i < Z.of_nat (length src) ->
    uaddr (k_mem s) root (dstva + i) = pa + (dstva - PGROUNDDOWN dstva) + i).
  { intros i Hi. rewrite (uaddr_page _ root _ (PGROUNDDOWN dstva)) by (done || lia). rewrite El. fold pa. lia. }
  assert (Hoff : same_off m1 (k_mem s) pa PGSIZE) by (eapply same_off_weaken; [apply mem_put_off|lia|lia]).
  destruct (nontable_same s root m1 pa Hwf Hpal Hnt Hoff) as [Htab Hleaf]. split_and!; try done.
  - intros i Hi. unfold m1. rewrite rd_mem_put, Hu by lia. rewrite decide_True by lia. do 4 f_equal. lia.
  - intros b Hb. unfold m1. apply mem_put_off. intros Hin.
    apply (Hb (b - (pa + (dstva - PGROUNDDOWN dstva)))); [lia|]. rewrite Hu by lia. lia.
Qed.

(** Two writes to adjacent parts of a mapped range are one. *)
Lemma user_put_app s m1 m2 root v src1 src2 :
  urange s root v (v + Z.of_nat (length (src1 ++ src2))) ->
  user_put (k_mem s) m1 root v src1 -> user_put m1 m2 root (v + Z.of_nat (length src1)) src2 ->
  user_put (k_mem s) m2 root v (src1 ++ src2).
Proof.
  intros U (T1 & L1 & R1 & F1) (T2 & L2 & R2 & F2). unfold user_put. rewrite length_app in *.
  assert (Hua : forall v, uaddr m1 root v = uaddr (k_mem s) root v) by (intros w; unfold uaddr; by rewrite L1).
  split; [intros q Hq; by rewrite T2, T1|]. split; [intros w; by rewrite L2|]. split.
  - intros i Hi. destruct (Z.lt_ge_cases i (Z.of_nat (length src1))) as [Hlt|Hge].
    + rewrite F2; [rewrite R1 by lia; by rewrite lookup_app_l by lia|].
      intros j Hj. rewrite Hua. intros Hc. apply (uaddr_inj s root _ _ _ _ U) in Hc; lia.
    + pose proof (R2 (i - Z.of_nat (length src1)) ltac:(lia)) as E. rewrite Hua in E.
      replace (v + Z.of_nat (length src1) + (i - Z.of_nat (length src1))) with (v + i) in E by lia.
      rewrite E, lookup_app_r by lia. do 3 f_equal. lia.
  - intros b Hb. rewrite F2, F1; [done| |].
    + intros i Hi. apply Hb. lia.
    + intros i Hi. rewrite Hua, <- Z.add_assoc. apply Hb. lia.
Qed.

Lemma copyout_loop_ok fuel p s root dstva src :
  pt_wf s root -> urange s root dstva (dstva + Z.of_nat (length src)) ->
  dstva mod PGSIZE + Z.of_nat (length src) <= Z.of_nat fuel * PGSIZE ->
  exists m', copyout_loop fuel p s root dstva src = Ret (0, set_mem s m') /\ user_put (k_mem s) m' root dstva src.
Proof.
  revert s dstva src. induction fuel as [|fuel IH]; intros s dstva src Hwf U Hf;
    cbn [copyout_loop]; destruct (Z.ltb_spec 0 (Z.of_nat (length src))) as [Hpos|Hz];
    try (destruct src; [exists (k_mem s); destruct s; split; [done|apply user_put_nil]|simpl in Hz; lia]);
    [unfold PGSIZE in *; dlia|].
  pose proof MAXVA_u64 as Hmx. unfold PGSIZE in Hmx.
  pose proof (ur_lo _ _ _ _ U). pose proof (ur_hi _ _ _ _ U).
  destruct (urange_walk p s root _ _ dstva Hwf U ltac:(lia)) as [Hw El].
  destruct (ur_map _ _ _ _ U dstva ltac:(lia)) as (_ & _ & Hnz & _).
  pose proof (PGROUNDDOWN_bounds dstva ltac:(lia)) as [H1 H2].
  pose proof (PGROUNDDOWN_aligned dstva ltac:(lia)) as H3.
  set (len := Z.of_nat (length src)) in *.
  pose proof (chunk_bounds dstva len ltac:(lia) Hpos) as (C1 & C2 & C3).
  rewrite Hw. cbn [mbind outcome_bind]. rewrite El. rewrite (proj2 (Z.eqb_neq _ _) Hnz).
  fold (chunk dstva len). rewrite u64_small by (unfold PGSIZE in *; lia). set (n := chunk dstva len) in *.
  assert (Htl : Z.of_nat (length (take (Z.to_nat n) src)) = n) by (rewrite length_take; lia).
  assert (Hdl : Z.of_nat (length (drop (Z.to_nat n) src)) = len - n) by (rewrite length_drop; lia).
  pose proof (user_put_page s root dstva (take (Z.to_nat n) src) Hwf) as Hput. rewrite Htl in Hput.
  specialize (Hput ltac:(by eapply urange_sub; [exact U|lia|lia]) ltac:(lia) ltac:(lia)).
  set (m1 := mem_put _ _ _) in *.
  destruct C3 as [C3|C3].
  - rewrite drop_ge by lia. rewrite take_ge in Hput by lia. exists m1. split; [by destruct fuel|exact Hput].
  - destruct (IH (set_mem s m1) (PGROUNDDOWN dstva + PGSIZE) (drop (Z.to_nat n) src)) as (m' & E & P').
    + eapply pt_wf_same; [done|apply Hput|done].
    + rewrite Hdl, <- C3. apply urange_same; [apply Hput..|]. eapply urange_sub; [exact U|lia|lia].
    + rewrite Hdl. unfold PGSIZE in *. dlia.
    + exists m'. split; [exact E|]. rewrite <- (take_drop (Z.to_nat n) src).
      apply (user_put_app s m1); [by rewrite take_drop|exact Hput|]. by rewrite Htl, C3.
Qed.

Lemma copy_fuel_enough v len :
  0 <= len -> v mod PGSIZE + len <= Z.of_nat (copy_fuel len) * PGSIZE.
Proof. intros H. unfold copy_fuel, PGSIZE. rewrite Z2Nat.id by dlia. dlia. Qed.

(** (C7) [copyout] followed by [copyin] on a mapped user range, across any number of
    page boundaries: both return 0 within their loop bounds, the bytes read
    are the bytes written, and [copyout] changes neither the page table nor
    any byte the user does not see in the range. *)
Theorem copyout_copyin p s root v src :
  pt_wf s root -> urange s root v (v + Z.of_nat (length src)) ->
  Forall (fun b => 0 <= b < 256) src ->
  exists s', copyout p s root v src = Ret (0, s')
    /\ copyin p s' root v (Z.of_nat (length src)) = Ret (0, src, s')
    /\ (forall va, leaf (k_mem s') root va = leaf (k_mem s) root va)
    /\ (forall b, (forall i, 0 <= i < Z.of_nat (length src) -> b <> uaddr (k_mem s) root (v + i)) ->
          rd (k_mem s') b = rd (k_mem s) b).
Proof.
  intros Hwf U Hsrc.
  destruct (copyout_loop_ok (copy_fuel (Z.of_nat (length src))) p s root v src Hwf U)
    as (m' & E & T & Lf & R & F); [apply copy_fuel_enough; lia|].
  exists (set_mem s m'). split; [exact E|]. split; [|done].
  unfold copyin. rewrite copyin_loop_ok.
  - simpl. do 3 f_equal. apply list_eq. intros i.
    destruct (decide (i < length src)%nat) as [Hi|Hi].
    + unfold ubytes. rewrite list_lookup_fmap, lookup_seqZ_lt by lia. simpl.
      destruct (lookup_lt_is_Some_2 src i Hi) as [b Hb]. rewrite Hb. f_equal.
      assert (Hua : uaddr m' root (v + Z.of_nat i) = uaddr (k_mem s) root (v + Z.of_nat i))
        by (unfold uaddr; by rewrite Lf).
      rewrite ?Z.add_0_l, Hua, R by lia. rewrite Nat2Z.id, Hb. simpl. apply u8_small.
      rewrite Forall_lookup in Hsrc. by apply (Hsrc i).
    + rewrite !lookup_ge_None_2; [done|lia|]. unfold ubytes. rewrite length_fmap, length_seqZ. lia.
  - by eapply pt_wf_same.
  - lia.
  - by apply urange_same.
  - apply copy_fuel_enough. lia.
Qed.

(** ** Taking a fresh page *)

Definition uperm : Z := Z.lor (Z.lor (Z.lor PTE_W PTE_X) PTE_R) PTE_U.

(** [kalloc] leaves every page table alone. *)
Lemma kalloc_pt s l pa s1 root :
  kinv s (pa :: l) -> pt_wf s root -> kalloc s = Ret (pa, s1) ->
  pt_wf s1 root
  /\ (forall q, path_ok q -> table_at (k_mem s1) root q = table_at (k_mem s) root q)
  /\ (forall va, leaf (k_mem s1) root va = leaf (k_mem s) root va)
  /\ ~ is_table s root pa.
Proof.
  intros Hk Hwf E.
  destruct (kalloc_spec s _ Hk) as (p & s1' & E' & Hq & Hp & Hp0 & _ & _ & Hrc & Hoff & _).
  rewrite E in E'. injection E' as <- <-. clear Hq.
  assert (Hnt : ~ is_table s root pa).
  { intros (q & Hq & Ht). destruct (pt_tables _ _ Hwf q pa Hq Ht) as [_ H]. lia. }
  destruct (nontable_same s root (k_mem s1) pa Hwf (proj1 Hp) Hnt Hoff) as [Ht Hl].
  split_and!; try done. eapply pt_wf_same; [done|done|].
  intros t (q & Hq & Htq). apply Hrc. intros Epn.
  destruct (pt_tables _ _ Hwf q t Hq Htq) as [Htok _].
  apply page_number_inj in Epn; [|apply Htok|apply Hp]. subst t. apply Hnt. by exists q.
Qed.

(** Mapping a page the caller has just taken, filled with [m1]: with three more
    free pages it succeeds, and the page keeps its contents. *)
Lemma map_fresh s1 l root pa va :
  kinv s1 l -> pt_wf s1 root -> (3 <= length l)%nat ->
  page_ok pa -> 1 <= rc s1 (pa / PGSIZE) -> ~ is_table s1 root pa -> pa ∉ l ->
  0 <= va < MAXVA -> va mod PGSIZE = 0 -> valid (leaf (k_mem s1) root va) = false ->
  exists s' l', mappages s1 root va PGSIZE pa uperm = Ret (0, s')
    /\ kinv s' l' /\ pt_wf s' root
    /\ leaf (k_mem s') root va = mkpte pa uperm
    /\ (forall v, 0 <= v < MAXVA -> v / PGSIZE <> va / PGSIZE ->
          leaf (k_mem s') root v = leaf (k_mem s1) root v)
    /\ (forall a, in_page a pa -> rd (k_mem s') a = rd (k_mem s1) a).
Proof.
  intros Hk Hwf Hlen Hpa Hrc Hnt Hnin Hva Hal Hv.
  pose proof MAXVA_u64 as Hmx. unfold PGSIZE in Hmx.
  assert (HM : MAXVA mod PGSIZE = 0) by reflexivity.
  assert (Hend : va + PGSIZE <= MAXVA) by (unfold PGSIZE in *; dlia).
  pose proof (page_ok_bounds pa Hpa) as Hpb.
  assert (Hd : PGROUNDDOWN va = va) by (apply PGROUNDDOWN_id; [lia|done]).
  assert (Hd2 : PGROUNDDOWN (va + PGSIZE - 1) = va).
  { rewrite PGROUNDDOWN_spec by (unfold PGSIZE in *; lia). unfold PGSIZE in *. dlia. }
  destruct (mappages_spec s1 l root va PGSIZE pa uperm Hk Hwf) as (r & s' & l' & used & j & E & G & M & Hr).
  1-5: clear - Hva Hend Hpb; unfold PGSIZE, PHYSTOP, KERNBASE in *; lia.
  - vm_compute. split; [discriminate|reflexivity].
  - intros v Hvr. rewrite Hd in Hvr. rewrite (leaf_page _ root v va); [exact Hv| |exact Hva|];
      unfold PGSIZE in *; [lia|dlia].
  - rewrite Hd, Hd2 in Hr. rewrite Hd in M. rewrite Z.sub_diag in Hr. change (0 / PGSIZE + 1) with 1 in Hr.
    destruct Hr as [[-> ->]|(_ & _ & _ & Hbad)]; [|clear - Hbad Hlen; lia].
    exists s', l'. split; [exact E|]. split; [apply G|]. split; [apply G|]. split_and!.
    + rewrite M by done. rewrite decide_True by (unfold PGSIZE; lia).
      rewrite Z.sub_diag. change (0 / PGSIZE * PGSIZE) with 0. by rewrite Z.add_0_r.
    + intros v Hvr Hne. rewrite M by done. rewrite decide_False; [done|].
      unfold PGSIZE in *. dlia.
    + intros a Ha. apply (gr_frame _ _ _ _ _ _ G).
      * intros (q & t & Hq & Ht & Hin). apply Hnt. exists q. split; [done|].
        destruct (pt_tables _ _ Hwf q t Hq Ht) as [[Htal _] _]. destruct Hpa as [Hpal _].
        assert (t = pa) as <-; [|done]. unfold in_page, PGSIZE in *. dlia.
      * intros q Hq Hin. apply Hnin. rewrite (gr_split _ _ _ _ _ _ G). apply elem_of_app. left.
        assert (Hqok : page_ok q).
        { pose proof (kinv_pages _ _ Hk) as HF. rewrite Forall_forall in HF. apply HF.
          rewrite (gr_split _ _ _ _ _ _ G). apply elem_of_app. by left. }
        destruct Hqok as [Hqal _], Hpa as [Hpal _].
        assert (q = pa) as <-; [|done]. unfold in_page, PGSIZE in *. dlia.
Qed.

(** A page just taken from the free list, with whatever the caller put in it. *)
Lemma take_and_map s l pa m root va :
  kinv s (pa :: l) -> pt_wf s root -> (3 <= length l)%nat ->
  0 <= va < MAXVA -> va mod PGSIZE = 0 -> valid (leaf (k_mem s) root va) = false ->
  exists s1, kalloc s = Ret (pa, s1) /\
    (same_off m (k_mem s1) pa PGSIZE ->
     exists s' l', mappages (set_mem s1 m) root va PGSIZE pa uperm = Ret (0, s')
       /\ kinv s' l' /\ pt_wf s' root
       /\ leaf (k_mem s') root va = mkpte pa uperm
       /\ (forall v, 0 <= v < MAXVA -> v / PGSIZE <> va / PGSIZE ->
             leaf (k_mem s') root v = leaf (k_mem s) root v)
       /\ (forall a, in_page a pa -> rd (k_mem s') a = rd m a)).
Proof.
  intros Hk Hwf Hlen Hva Hal Hv.
  destruct (kalloc_spec s _ Hk) as (p & s1 & E & <- & Hp & Hp0 & Hk1 & Hrc1 & Hrc & Hoff & _).
  exists s1. split; [done|]. intros Hm.
  destruct (kalloc_pt s l p s1 root Hk Hwf E) as (Hwf1 & T1 & L1 & Hnt).
  assert (Hnt1 : ~ is_table s1 root p).
  { intros (q & Hq & Ht). apply Hnt. exists q. by rewrite <- T1. }
  destruct (nontable_same s1 root m p Hwf1 (proj1 Hp) Hnt1 Hm) as [T2 L2].
  destruct (map_fresh (set_mem s1 m) l root p va) as (s' & l' & Em & H1 & H2 & H3 & H4 & H5); try done.
  - eapply kinv_write; [done|exact Hp|lia|done].
  - by eapply pt_wf_same.
  - change (rc (set_mem s1 m)) with (rc s1). lia.
  - intros (q & Hq & Ht). apply Hnt1. exists q. split; [done|]. simpl in Ht. by rewrite <- T2.
  - pose proof (kinv_nodup _ _ Hk) as Hnd. by apply NoDup_cons in Hnd as [? _].
  - simpl. by rewrite L2, L1.
  - exists s', l'. split_and!; try done. intros v Hvr Hne. rewrite H4 by done. simpl. by rewrite L2, L1.
Qed.

(** Touching an unmapped heap page from the kernel side: [walkaddr] allocates and
    maps it, but, unlike the page-fault handler, leaves it filled with the
    allocator's junk bytes instead of zeros. *)
Theorem walkaddr_lazy_junk p s l pa va :
  kinv s (pa :: l) -> pt_wf s (p_pagetable p) -> (3 <= length l)%nat ->
  0 <= va < MAXVA -> va mod PGSIZE = 0 ->
  valid (leaf (k_mem s) (p_pagetable p) va) = false ->
  va < p_sz p -> PGROUNDUP (tf_load (k_mem s) p TF_sp) <= va ->
  exists s', walkaddr p s (p_pagetable p) va = Ret (pa, s')
    /\ leaf (k_mem s') (p_pagetable p) va = mkpte pa uperm
    /\ (forall a, in_page a pa -> rd (k_mem s') a = 5).
Proof.
  intros Hk Hwf Hlen Hva Hal Hv Hsz Hsp.
  destruct (kalloc_spec s _ Hk) as (q & s1 & E & <- & Hp & _ & _ & _ & _ & _ & Hjunk).
  destruct (take_and_map s l q (k_mem s1) (p_pagetable p) va) as (s2 & E' & H); try done.
  rewrite E in E'. injection E' as <-. destruct H as (s' & l' & Em & _ & _ & Hl & _ & Hc); [done|].
  unfold walkaddr. rewrite (proj2 (Z.leb_gt _ _)) by lia.
  rewrite walk_noalloc by lia. cbn [mbind outcome_bind].
  pose proof (page_ok_bounds q Hp) as (_ & _ & Hnz).
  assert (Hbr : forall X Y : outcome (Z * kst),
    (if (match table_at (k_mem s) (p_pagetable p) (vpath va) with
         | Some t => t + 8 * PX 0 va | None => 0 end =? 0)
        || (Z.land (load64 (k_mem s) match table_at (k_mem s) (p_pagetable p) (vpath va) with
              | Some t => t + 8 * PX 0 va | None => 0 end) PTE_V =? 0) then X else Y) = X).
  { intros X Y. destruct (table_at (k_mem s) (p_pagetable p) (vpath va)) as [t|] eqn:Ht; [|done].
    rewrite <- (leaf_table _ _ _ _ Ht). apply nz_false in Hv.
    by rewrite (proj2 (Z.eqb_eq _ _) Hv), orb_true_r. }
  rewrite Hbr. rewrite (proj2 (Z.leb_gt _ _)), (proj2 (Z.ltb_ge _ _)) by done. simpl orb. cbv iota.
  rewrite E. cbn [mbind outcome_bind]. rewrite (proj2 (Z.eqb_neq _ _) Hnz).
  fold uperm. replace s1 with (set_mem s1 (k_mem s1)) by by destruct s1.
  rewrite Em. cbn [mbind outcome_bind]. change (nz 0) with false. cbv iota.
  exists s'. split; [done|]. split; [done|]. intros a Ha. rewrite Hc by done. by apply Hjunk.
Qed.

End UserCopy.

(** ** Concrete instances *)

Lemma demo_map_urange : @urange demo_map pgA 100 104.
Proof.
  assert (Hl : forall v, 100 <= v < 104 -> leaf (k_mem demo_map) pgA v = mkpte pgD user_rwx).
  { intros v Hv. rewrite <- demo_map_leaf0. apply leaf_page; unfold PGSIZE; try dlia;
      (split; [lia|]); change MAXVA with 274877906944; lia. }
  split; try done.
  - intros v Hv. rewrite (Hl v Hv). split; [reflexivity|]. split; [reflexivity|]. split; [discriminate|].
    split; [reflexivity|]. intros (path & Hp & Ht). change (PTE2PA (mkpte pgD user_rwx)) with pgD in Ht.
    destruct (demo_map_tables path pgD Hp Ht) as [[_ E]|[[_ E]|[_ E]]]; demo_lia.
  - intros v1 v2 H1 H2 _. unfold PGSIZE. dlia.
Qed.

Lemma copyout_copyin_witness :
  exists s', @copyout demo4 proc0 demo_map pgA 100 [1; 2; 3; 4] = Ret (0, s')
    /\ @copyin demo4 proc0 s' pgA 100 4 = Ret (0, [1; 2; 3; 4], s').
Proof.
  destruct (@copyout_copyin demo4 proc0 demo_map pgA 100 [1; 2; 3; 4] demo_map_wf demo_map_urange)
    as (s' & E1 & E2 & _).
  - repeat constructor; lia.
  - exists s'. split; [exact E1|exact E2].
Defined.

(** Six managed pages: the root table in use, five free. *)
Definition pg (i : Z) : Z := PHYSTOP - 6 * PGSIZE + i * PGSIZE.
Definition demo6 : Layout :=
  {| kend := pg 0; etext := KERNBASE + 8 * PGSIZE; trampoline := KERNBASE |}.
Definition demo_heap : kst :=
  MkKst (store64 (store64 (store64 (store64 ∅ (pg 1) (pg 2)) (pg 2) (pg 3)) (pg 3) (pg 4)) (pg 4) (pg 5))
    (pg 1) {[ pg 0 / PGSIZE := 1 ]}.
(** A process whose heap reaches to 8192 and whose trap frame is at 64. *)
Definition demo_proc : proc := set_trapframe 64 (set_sz 8192 (set_pagetable (pg 0) proc0)).

Lemma demo6_pages p :
  @page_ok demo6 p -> p = pg 0 \/ p = pg 1 \/ p = pg 2 \/ p = pg 3 \/ p = pg 4 \/ p = pg 5.
Proof. unfold page_ok. simpl. unfold pg, PHYSTOP, KERNBASE, PGSIZE. dlia. Qed.

Lemma demo6_ok i : 0 <= i <= 5 -> @page_ok demo6 (pg i).
Proof.
  intros Hi. unfold page_ok. simpl. unfold pg, PHYSTOP, KERNBASE, PGSIZE. split; [dlia|lia].
Qed.

Lemma demo_heap_inv : @kinv demo6 demo_heap [pg 1; pg 2; pg 3; pg 4; pg 5].
Proof.
  split.
  - vm_compute. done.
  - repeat (apply NoDup_cons; split;
      [rewrite ?elem_of_cons, elem_of_nil; unfold pg, PHYSTOP, KERNBASE, PGSIZE; lia|]).
    apply NoDup_nil_2.
  - rewrite !Forall_cons. split_and!; [apply demo6_ok; lia..|constructor].
  - intros p Hp. rewrite !elem_of_cons, elem_of_nil.
    apply demo6_pages in Hp as [->|Hp].
    + split; [unfold pg, PHYSTOP, KERNBASE, PGSIZE; lia|]. by vm_compute.
    + split; [|tauto]. intros _. destruct Hp as [->|[->|[->|[->| ->]]]]; reflexivity.
  - intros p Hp. apply demo6_pages in Hp as [->|[->|[->|[->|[->| ->]]]]]; vm_compute; discriminate.
Qed.

Lemma demo_heap_empty i : 0 <= i < 512 -> load64 (k_mem demo_heap) (pg 0 + 8 * i) = 0.
Proof.
  intros Hi. simpl. rewrite !load64_store64_ne by (unfold pg, PHYSTOP, KERNBASE, PGSIZE; lia).
  by apply load64_zero.
Qed.

Lemma demo_heap_wf : @pt_wf demo6 demo_heap (pg 0).
Proof.
  assert (H : forall path t, path_ok path -> table_at (k_mem demo_heap) (pg 0) path = Some t ->
    path = [] /\ t = pg 0).
  { intros [|i path] t Hp Ht; [by injection Ht|].
    destruct (path_ok_index [] i path Hp) as [Hi _].
    rewrite table_at_cons, demo_heap_empty in Ht by done. done. }
  split.
  - intros path t Hp Ht. destruct (H path t Hp Ht) as [_ ->].
    split; [apply demo6_ok; lia|]. vm_compute. discriminate.
  - intros p q t Hp Hq H1 H2. destruct (H p t Hp H1) as [-> _]. by destruct (H q t Hq H2) as [-> _].
Qed.

Lemma demo_heap_unmapped va : valid (leaf (k_mem demo_heap) (pg 0) va) = false.
Proof.
  unfold leaf, vpath. rewrite table_at_cons, demo_heap_empty by apply PX_range. reflexivity.
Qed.

Lemma walkaddr_lazy_junk_witness :
  exists s', @walkaddr demo6 demo_proc demo_heap (pg 0) 4096 = Ret (pg 1, s')
    /\ rd (k_mem s') (pg 1 + 100) = 5.
Proof.
  destruct (@walkaddr_lazy_junk demo6 demo_proc demo_heap _ (pg 1) 4096
    demo_heap_inv demo_heap_wf) as (s' & E & _ & H).
  - simpl. lia.
  - vm_compute. split; [discriminate|reflexivity].
  - reflexivity.
  - apply demo_heap_unmapped.
  - reflexivity.
  - vm_compute. discriminate.
  - exists s'. split; [exact E|]. apply H. unfold in_page, PGSIZE. lia.
Defined.

End UserCopy.
