(* ===== verification/TrapHandler.v ===== *)
(** * kernel/trap_handler.c: lazy allocation and alarms

    The page-fault handler that allocates heap and stack pages on first use,
    the alarm handler, and the system calls [sigalarm] and [sigreturn] with the
    way [syscall] stores their results (kernel/syscall.c, kernel/syscallv2.c).
    [stval] is the faulting address. *)

From S2P Require Import Prelude Riscv KString Kalloc ProcDefs Vm VmTree VmMap UserCopy.
From stdpp Require Import base list numbers gmap strings.
From Stdlib Require Import ZArith Lia.

#[local] Open Scope Z_scope.

Import KString Kalloc Vm VmTree VmMap UserCopy.

Module TrapHandler.

Section Handlers.
Context `{L : Layout}.

Definition pagefault_handler (stval : Z) (p : proc) (s : kst) : outcome (Z * kst) :=
  let va := stval in
  '(pa, s) ← kalloc s;
  if pa =? 0 then Ret (-1, s)
  else if p_sz p <=? va then s ← kfree s pa; Ret (-2, s)
  else if va <? PGROUNDDOWN (tf_load (k_mem s) p TF_sp) then s ← kfree s pa; Ret (-3, s)
  else
    let s := set_mem s (memset (k_mem s) pa 0 PGSIZE) in
    let va := PGROUNDDOWN va in
    '(r, s) ← mappages s (p_pagetable p) va PGSIZE pa
                (Z.lor (Z.lor (Z.lor PTE_R PTE_W) PTE_X) PTE_U);
    if nz r then s ← kfree s pa; Ret (-4, s) else Ret (0, s).

(** The bytes of the trap frame. *)
Definition tf_bytes (m : gmap Z Z) (p : proc) : list Z := bytes m (p_trapframe p) TF_size.

Definition alarm_handler (p : proc) (s : kst) : proc * kst :=
  let t := p_trapalarm p in
  if negb (ta_interval t =? 0) then
    if ta_state t =? 0 then
      let t := MkTrapalarm (ta_interval t) (s32 (ta_ticks t + 1)) (ta_state t) (ta_handler t) (ta_trapframe_cp t) in
      if ta_ticks t =? ta_interval t then
        let t := MkTrapalarm (ta_interval t) 0 1 (ta_handler t) (tf_bytes (k_mem s) p) in
        (set_trapalarm t p, set_mem s (tf_store (k_mem s) p TF_epc (ta_handler t)))
      else (set_trapalarm t p, s)
    else (p, s)
  else (p, s).

(** [argraw]. *)
Definition argraw (n : Z) (p : proc) (s : kst) : outcome Z :=
  if n =? 0 then Ret (tf_load (k_mem s) p TF_a0)
  else if n =? 1 then Ret (tf_load (k_mem s) p TF_a1)
  else if n =? 2 then Ret (tf_load (k_mem s) p TF_a2)
  else if n =? 3 then Ret (tf_load (k_mem s) p TF_a3)
  else if n =? 4 then Ret (tf_load (k_mem s) p TF_a4)
  else if n =? 5 then Ret (tf_load (k_mem s) p TF_a5)
  else Panic "argraw".

(** [argint] and [argaddr] always return 0; these are the values they store. *)
Definition argint (n : Z) (p : proc) (s : kst) : outcome Z := v ← argraw n p s; Ret (s32 v).
Definition argaddr (n : Z) (p : proc) (s : kst) : outcome Z := argraw n p s.

Definition sys_sigalarm (p : proc) (s : kst) : outcome (Z * proc * kst) :=
  interval ← argint 0 p s;
  handler ← argaddr 1 p s;
  if interval =? 0 then Ret (0, p, s) else
  let t := p_trapalarm p in
  Ret (0, set_trapalarm (MkTrapalarm interval 0 (ta_state t) handler (ta_trapframe_cp t)) p, s).

Definition sys_sigreturn (p : proc) (s : kst) : outcome (Z * proc * kst) :=
  let t := p_trapalarm p in
  let s := set_mem s (mem_put (k_mem s) (p_trapframe p) (ta_trapframe_cp t)) in
  let t := MkTrapalarm (ta_interval t) (ta_ticks t) 0 (ta_handler t) (replicate (Z.to_nat TF_size) 0) in
  Ret (0, set_trapalarm t p, s).

(** What [syscall] does with the system call in its table: the result goes to
    the [a0] of the trap frame. *)
Definition syscall_ret (f : proc -> kst -> outcome (Z * proc * kst)) (p : proc) (s : kst) : outcome (proc * kst) :=
  '(r, p, s) ← f p s;
  Ret (p, set_mem s (tf_store (k_mem s) p TF_a0 (u64 r))).

(** ** Page faults *)

(** A page taken and given back at once: the allocator ends where it was. *)
Lemma kalloc_kfree s l pa :
  kinv s (pa :: l) ->
  exists s1 s2, kalloc s = Ret (pa, s1) /\ kfree s1 pa = Ret s2 /\ kinv s2 (pa :: l)
    /\ (forall pn, rc s2 pn = rc s pn) /\ same_off (k_mem s1) (k_mem s) pa PGSIZE
    /\ same_off (k_mem s2) (k_mem s) pa PGSIZE.
Proof.
  intros Hk. destruct (kalloc_spec s _ Hk) as (p & s1 & E & <- & Hp & Hp0 & Hk1 & Hrc1 & Hrc & Hoff & _).
  destruct (kfree_spec s1 l p Hk1 Hp) as (s2 & E2 & Hd & Ho & Hoff2 & Hk2); [lia|].
  rewrite Hrc1 in Hk2. simpl in Hk2. exists s1, s2. split_and!; try done.
  - intros pn. destruct (decide (pn = p / PGSIZE)) as [->|Hne]; [lia|]. by rewrite Ho, Hrc.
  - eapply same_off_trans; eassumption.
Qed.

(** The trap frame is in a page that is in use. *)
Definition tf_page_ok (p : proc) (s : kst) : Prop :=
  page_ok (p_trapframe p) /\ 1 <= rc s (p_trapframe p / PGSIZE).

Lemma tf_sp_same p s m pa :
  tf_page_ok p s -> page_ok pa -> rc s (pa / PGSIZE) = 0 -> same_off m (k_mem s) pa PGSIZE ->
  tf_load m p TF_sp = tf_load (k_mem s) p TF_sp.
Proof.
  intros [Ht Hr] Hp Hz Hoff. unfold tf_load. eapply load64_same_off; [exact Hoff|].
  assert (Hne : p_trapframe p <> pa) by (intros E; rewrite E in Hr; lia).
  destruct Ht as [Ht _], Hp as [Hp _]. unfold TF_sp, PGSIZE in *. dlia.
Qed.

(** (C4) Lazy allocation is safe and precise.  With no free page the handler
    returns -1 and changes nothing.  An address beyond the process size or
    below the page of the stack pointer is refused with -2 or -3, and the
    allocator and every page table are as before.  Otherwise, if the page is
    not mapped and three more free pages are at hand for tables, it returns 0,
    the faulting page is mapped for the user to a page of zeros, no other
    translation changes, and the allocator and the page table stay well formed. *)
Theorem pagefault_correct p s va :
  pt_wf s (p_pagetable p) -> tf_page_ok p s -> 0 <= va < MAXVA ->
  (kinv s [] -> pagefault_handler va p s = Ret (-1, s))
  /\ forall pa l, kinv s (pa :: l) ->
    (p_sz p <= va \/ va < PGROUNDDOWN (tf_load (k_mem s) p TF_sp) ->
     exists s', pagefault_handler va p s = Ret (if p_sz p <=? va then -2 else -3, s')
       /\ kinv s' (pa :: l) /\ (forall pn, rc s' pn = rc s pn)
       /\ forall root v, pt_wf s root -> leaf (k_mem s') root v = leaf (k_mem s) root v)
    /\ (va < p_sz p -> PGROUNDDOWN (tf_load (k_mem s) p TF_sp) <= va -> (3 <= length l)%nat ->
        valid (leaf (k_mem s) (p_pagetable p) va) = false ->
        exists s' l', pagefault_handler va p s = Ret (0, s') /\ kinv s' l' /\ pt_wf s' (p_pagetable p)
          /\ leaf (k_mem s') (p_pagetable p) va = mkpte pa uperm
          /\ (forall a, in_page a pa -> rd (k_mem s') a = 0)
          /\ forall v, 0 <= v < MAXVA -> v / PGSIZE <> va / PGSIZE ->
               leaf (k_mem s') (p_pagetable p) v = leaf (k_mem s) (p_pagetable p) v).
Proof.
  intros Hwf Htf Hva. split.
  { intros Hk. unfold pagefault_handler. destruct (kalloc_spec s [] Hk) as (q & s' & -> & -> & ->). done. }
  intros pa l Hk. destruct (kalloc_kfree s l pa Hk) as (s1 & s2 & E1 & E2 & Hk2 & Hrc & Hoff1 & Hoff2).
  destruct (kalloc_spec s _ Hk) as (q & s1' & E1' & <- & Hp & Hp0 & _). rewrite E1 in E1'.
  injection E1' as <-. pose proof (page_ok_bounds q Hp) as (_ & _ & Hnz).
  unfold pagefault_handler. rewrite E1. cbn [mbind outcome_bind]. rewrite (proj2 (Z.eqb_neq q 0) Hnz).
  rewrite (tf_sp_same p s (k_mem s1) q Htf Hp Hp0 Hoff1).
  assert (Hleaf : forall root v, pt_wf s root -> leaf (k_mem s2) root v = leaf (k_mem s) root v).
  { intros root v Hw. apply (nontable_same s root (k_mem s2) q Hw (proj1 Hp)); [|done].
    intros (path & Hpath & Ht). destruct (pt_tables _ _ Hw path q Hpath Ht) as [_ H]. lia. }
  split.
  - intros Hor. rewrite E2. cbn [mbind outcome_bind].
    destruct (Z.leb_spec (p_sz p) va) as [Hge|Hlt]; [|rewrite (proj2 (Z.ltb_lt _ _)) by lia];
      exists s2; by split_and!.
  - intros Hsz Hsp Hlen Hv. rewrite (proj2 (Z.leb_gt _ _)), (proj2 (Z.ltb_ge _ _)) by lia.
    pose proof (PGROUNDDOWN_bounds va) as Hb. pose proof (PGROUNDDOWN_aligned va) as Ha.
    pose proof MAXVA_u64 as Hmx. unfold PGSIZE in Hmx. specialize (Hb ltac:(lia)). specialize (Ha ltac:(lia)).
    assert (Hpage : PGROUNDDOWN va / PGSIZE = va / PGSIZE) by (unfold PGSIZE in *; dlia).
    assert (Hva' : 0 <= PGROUNDDOWN va < MAXVA) by (unfold PGSIZE in *; dlia).
    destruct (take_and_map s l q (memset (k_mem s1) q 0 PGSIZE) (p_pagetable p) (PGROUNDDOWN va))
      as (s1' & E1' & Hm); try done; [by rewrite (leaf_page _ _ _ va)|].
    rewrite E1 in E1'. injection E1' as <-.
    destruct Hm as (s' & l' & Em & Hk' & Hw' & Hl' & Ho' & Hc'); [apply memset_off; unfold PGSIZE; lia|].
    change (Z.lor (Z.lor (Z.lor PTE_R PTE_W) PTE_X) PTE_U) with uperm. rewrite Em. cbn [mbind outcome_bind].
    change (nz 0) with false. cbv iota. exists s', l'. split_and!; try done.
    + by rewrite (leaf_page _ _ va (PGROUNDDOWN va)).
    + intros a Hin. rewrite Hc' by done. rewrite rd_memset by (unfold PGSIZE; lia).
      rewrite decide_True by exact Hin. done.
    + intros v Hv1 Hv2. apply Ho'; [done|]. by rewrite Hpage.
Qed.

(** [walk] to a present table page allocates nothing. *)
Lemma walk_present s root va t :
  va < MAXVA -> table_at (k_mem s) root (vpath va) = Some t ->
  walk s root va true = Ret (t + 8 * PX 0 va, s).
Proof.
  intros Hva Ht. unfold walk. rewrite (proj2 (Z.leb_gt _ _)) by done. unfold vpath in Ht.
  rewrite !table_at_cons in Ht. cbn [walk_loop].
  destruct (nz (Z.land (load64 (k_mem s) (root + 8 * PX 2 va)) PTE_V)); [|done].
  destruct (nz (Z.land (load64 (k_mem s) (PTE2PA (load64 (k_mem s) (root + 8 * PX 2 va)) + 8 * PX 1 va)) PTE_V)); [|done].
  simpl in Ht. by injection Ht as <-.
Qed.

Lemma mappages_remap s root va pa perm :
  pt_wf s root -> 0 <= va < MAXVA -> va mod PGSIZE = 0 -> valid (leaf (k_mem s) root va) = true ->
  mappages s root va PGSIZE pa perm = Panic "mappages: remap".
Proof.
  intros Hwf Hva Hal Hv. unfold mappages. change (PGSIZE =? 0) with false. cbv iota zeta.
  pose proof MAXVA_u64 as Hmx. unfold PGSIZE in Hmx.
  rewrite (PGROUNDDOWN_id va) by (done || lia). unfold leaf in Hv.
  destruct (table_at (k_mem s) root (vpath va)) as [t|] eqn:Ht; [|done].
  unfold mappages_fuel. set (last := PGROUNDDOWN _).
  assert (Hf : exists n, (if va <=? last then Z.to_nat ((last - va) / PGSIZE + 1)
    else Z.to_nat ((MAXVA - va) / PGSIZE + 1)) = S n).
  { destruct (Z.leb_spec va last); [exists (Z.to_nat ((last - va) / PGSIZE))|exists (Z.to_nat ((MAXVA - va) / PGSIZE))];
      unfold PGSIZE; rewrite <- Z2Nat.inj_succ by (apply Z.div_pos; lia); f_equal; lia. }
  destruct Hf as [n ->]. cbn [mappages_loop]. rewrite (walk_present s root va t) by (done || lia).
  cbn [mbind outcome_bind]. rewrite (proj2 (Z.eqb_neq _ _)).
  - unfold valid in Hv. by rewrite Hv.
  - destruct (pt_tables _ _ Hwf _ t (path_ok_vpath va) Ht) as [Hp _].
    pose proof (page_ok_bounds t Hp) as Hpb. unfold PHYSTOP, KERNBASE, PGSIZE in *. pose proof (PX_range 0 va). lia.
Qed.

(** (C40) A fault on a page that is already mapped, such as the guard page below
    the stack, whose entry is valid but not accessible to the user, makes the
    handler panic the kernel ("mappages: remap") when the process has moved its
    stack pointer to or below the address first. *)
Theorem pagefault_guard_panics p s va pa l :
  pt_wf s (p_pagetable p) -> tf_page_ok p s -> 0 <= va < MAXVA -> kinv s (pa :: l) ->
  va < p_sz p -> PGROUNDDOWN (tf_load (k_mem s) p TF_sp) <= va ->
  valid (leaf (k_mem s) (p_pagetable p) va) = true ->
  pagefault_handler va p s = Panic "mappages: remap".
Proof.
  intros Hwf Htf Hva Hk Hsz Hsp Hv.
  destruct (kalloc_spec s _ Hk) as (q & s1 & E1 & <- & Hp & Hp0 & Hk1 & Hrc1 & Hrc & Hoff & _).
  pose proof (page_ok_bounds q Hp) as (_ & _ & Hnz).
  destruct (kalloc_pt s l q s1 (p_pagetable p) Hk Hwf E1) as (Hwf1 & T1 & L1 & Hnt).
  assert (Hnt1 : ~ is_table s1 (p_pagetable p) q).
  { intros (path & Hq & Ht). apply Hnt. exists path. by rewrite <- T1. }
  set (m := memset (k_mem s1) q 0 PGSIZE).
  assert (Hm : same_off m (k_mem s1) q PGSIZE) by (apply memset_off; unfold PGSIZE; lia).
  destruct (nontable_same s1 (p_pagetable p) m q Hwf1 (proj1 Hp) Hnt1 Hm) as [T2 L2].
  unfold pagefault_handler. rewrite E1. cbn [mbind outcome_bind]. rewrite (proj2 (Z.eqb_neq q 0) Hnz).
  rewrite (tf_sp_same p s (k_mem s1) q Htf Hp Hp0 Hoff).
  rewrite (proj2 (Z.leb_gt _ _)), (proj2 (Z.ltb_ge _ _)) by lia. fold m.
  pose proof (PGROUNDDOWN_bounds va) as Hb. pose proof (PGROUNDDOWN_aligned va) as Ha.
  pose proof MAXVA_u64 as Hmx. unfold PGSIZE in Hmx. specialize (Hb ltac:(lia)). specialize (Ha ltac:(lia)).
  rewrite mappages_remap; [done| |unfold PGSIZE in *; dlia|done|].
  - by eapply pt_wf_same.
  - simpl. rewrite L2, L1. rewrite (leaf_page _ _ (PGROUNDDOWN va) va); [done|unfold PGSIZE in *; dlia|done|].
    unfold PGSIZE in *. dlia.
Qed.

(** ** Alarms *)

Lemma tf_bytes_length m p : length (tf_bytes m p) = Z.to_nat TF_size.
Proof. unfold tf_bytes, bytes. by rewrite length_fmap, length_seqZ. Qed.

(** Writing back the saved bytes of a trap frame restores its registers. *)
Lemma restore_tf m m0 p off :
  0 <= off <= TF_size - 8 ->
  tf_load (mem_put m (p_trapframe p) (tf_bytes m0 p)) p off = tf_load m0 p off.
Proof.
  intros Ho. unfold tf_load. apply load64_same. intros a Ha.
  rewrite rd_mem_put, tf_bytes_length. rewrite decide_True by lia.
  unfold tf_bytes, bytes. rewrite list_lookup_fmap, lookup_seqZ_lt by lia. simpl.
  rewrite Z.add_0_l, Z2Nat.id by lia. replace (p_trapframe p + (a - p_trapframe p)) with a by lia.
  apply u8_small, rd_range.
Qed.

(** The alarm round trip.  When the tick count reaches the interval,
    [alarm_handler] saves the trap frame and redirects the process to its
    handler; once the handler, having changed the trap frame in any way, calls
    [sigreturn], every saved register has its old value again and the alarm is
    armed, except for [a0]: [syscall] stores the result 0 of [sigreturn] over
    the restored value. *)
Theorem alarm_roundtrip p s :
  ta_interval (p_trapalarm p) <> 0 -> ta_state (p_trapalarm p) = 0 ->
  s32 (ta_ticks (p_trapalarm p) + 1) = ta_interval (p_trapalarm p) ->
  exists p1 s1, alarm_handler p s = (p1, s1) /\ p_trapframe p1 = p_trapframe p
    /\ tf_load (k_mem s1) p1 TF_epc = u64 (ta_handler (p_trapalarm p))
    /\ ta_state (p_trapalarm p1) = 1 /\ alarm_handler p1 s1 = (p1, s1)
    /\ forall s2, exists p3 s3, syscall_ret sys_sigreturn p1 s2 = Ret (p3, s3)
         /\ ta_state (p_trapalarm p3) = 0 /\ p_trapframe p3 = p_trapframe p
         /\ tf_load (k_mem s3) p3 TF_a0 = 0
         /\ forall off, 0 <= off <= TF_size - 8 -> (off + 8 <= TF_a0 \/ TF_a0 + 8 <= off) ->
              tf_load (k_mem s3) p3 off = tf_load (k_mem s) p off.
Proof.
  intros Hi Hst Ht. unfold alarm_handler at 1. rewrite (proj2 (Z.eqb_neq _ _) Hi), Hst. cbn [negb].
  change (0 =? 0) with true. cbv iota zeta. cbn [ta_interval ta_ticks]. rewrite Ht, Z.eqb_refl.
  eexists _, _. split; [reflexivity|]. split; [done|]. split; [|split; [done|split]].
  - unfold tf_load, tf_store. simpl. apply load64_store64_eq.
  - unfold alarm_handler. cbn [p_trapalarm set_trapalarm ta_interval ta_state].
    by rewrite (proj2 (Z.eqb_neq _ _) Hi).
  - intros s2. eexists _, _. split; [reflexivity|]. split; [done|]. split; [done|].
    cbn [k_mem set_mem p_trapalarm set_trapalarm ta_trapframe_cp ta_state]. unfold tf_load, tf_store.
    cbn [p_trapframe set_trapalarm]. split.
    + by rewrite load64_store64_eq.
    + intros off Ho Hne. rewrite load64_store64_ne by lia.
      apply (restore_tf (k_mem s2) (k_mem s) p off Ho).
Qed.

End Handlers.

(** ** Concrete instances *)

(** Six managed pages: the root table in page 0, the trap frame in page 5, the
    others free. *)
Definition demo_fault : kst :=
  MkKst (store64 (store64 (store64 ∅ (pg 1) (pg 2)) (pg 2) (pg 3)) (pg 3) (pg 4))
    (pg 1) {[ pg 0 / PGSIZE := 1; pg 5 / PGSIZE := 1 ]}.
Definition demo_fproc : proc := set_trapframe (pg 5) (set_sz 8192 (set_pagetable (pg 0) proc0)).

Lemma demo_fault_inv : @kinv demo6 demo_fault [pg 1; pg 2; pg 3; pg 4].
Proof.
  split.
  - vm_compute. done.
  - repeat (apply NoDup_cons; split;
      [rewrite ?elem_of_cons, elem_of_nil; unfold pg, PHYSTOP, KERNBASE, PGSIZE; lia|]).
    apply NoDup_nil_2.
  - rewrite !Forall_cons. split_and!; [apply demo6_ok; lia..|constructor].
  - intros p Hp. rewrite !elem_of_cons, elem_of_nil.
    apply demo6_pages in Hp as [->|[->|[->|[->|[->| ->]]]]];
      [split; [unfold pg, PHYSTOP, KERNBASE, PGSIZE; lia|by vm_compute]|split; [done|tauto]..|].
    split; [unfold pg, PHYSTOP, KERNBASE, PGSIZE; lia|by vm_compute].
  - intros p Hp. apply demo6_pages in Hp as [->|[->|[->|[->|[->| ->]]]]]; vm_compute; discriminate.
Qed.

Lemma demo_fault_empty i : 0 <= i < 512 -> load64 (k_mem demo_fault) (pg 0 + 8 * i) = 0.
Proof.
  intros Hi. simpl. rewrite !load64_store64_ne by (unfold pg, PHYSTOP, KERNBASE, PGSIZE; lia).
  by apply load64_zero.
Qed.

Lemma demo_fault_wf : @pt_wf demo6 demo_fault (pg 0).
Proof.
  assert (H : forall path t, path_ok path -> table_at (k_mem demo_fault) (pg 0) path = Some t ->
    path = [] /\ t = pg 0).
  { intros [|i path] t Hp Ht; [by injection Ht|]. destruct (path_ok_index [] i path Hp) as [Hi _].
    rewrite table_at_cons, demo_fault_empty in Ht by done. done. }
  split.
  - intros path t Hp Ht. destruct (H path t Hp Ht) as [_ ->].
    split; [apply demo6_ok; lia|]. vm_compute. discriminate.
  - intros p q t Hp Hq H1 H2. destruct (H p t Hp H1) as [-> _]. by destruct (H q t Hq H2) as [-> _].
Qed.

Lemma pagefault_correct_witness :
  exists s' l', @pagefault_handler demo6 5000 demo_fproc demo_fault = Ret (0, s')
    /\ @kinv demo6 s' l' /\ rd (k_mem s') (pg 1 + 7) = 0.
Proof.
  destruct (@pagefault_correct demo6 demo_fproc demo_fault 5000 demo_fault_wf) as [_ H].
  - split; [apply demo6_ok; lia|]. vm_compute. discriminate.
  - vm_compute. split; [discriminate|reflexivity].
  - destruct (H (pg 1) [pg 2; pg 3; pg 4] demo_fault_inv) as [_ H2].
    destruct H2 as (s' & l' & E & Hk & _ & _ & Hz & _).
    + reflexivity.
    + vm_compute. discriminate.
    + simpl. lia.
    + unfold leaf, vpath. rewrite table_at_cons, demo_fault_empty by apply PX_range. reflexivity.
    + exists s', l'. split; [exact E|]. split; [exact Hk|]. apply Hz. unfold in_page, PGSIZE. lia.
Defined.

(** The page table of [demo_map] with page 0 free and the trap frame in page 1. *)
Definition demo_guard : kst :=
  MkKst (k_mem demo_map) (pg 0)
    {[ pg 1 / PGSIZE := 1; pgA / PGSIZE := 1; pgB / PGSIZE := 1; pgC / PGSIZE := 1; pgD / PGSIZE := 1 ]}.
Definition demo_gproc : proc := set_trapframe (pg 1) (set_sz 4096 (set_pagetable pgA proc0)).

Lemma demo_guard_inv : @kinv demo6 demo_guard [pg 0].
Proof.
  split.
  - vm_compute. done.
  - apply NoDup_singleton.
  - constructor; [apply demo6_ok; lia|constructor].
  - intros p Hp. rewrite list_elem_of_singleton.
    apply demo6_pages in Hp as [->|[->|[->|[->|[->| ->]]]]]; [done|..];
      (split; [unfold pg, PHYSTOP, KERNBASE, PGSIZE; lia|vm_compute; discriminate]).
  - intros p Hp. apply demo6_pages in Hp as [->|[->|[->|[->|[->| ->]]]]]; vm_compute; discriminate.
Qed.

Lemma demo_guard_wf : @pt_wf demo6 demo_guard pgA.
Proof.
  change pgA with (pg 2). split.
  - intros path t Hp Ht.
    destruct (demo_map_tables path t Hp Ht) as [[_ ->]|[[_ ->]|[_ ->]]];
      [change pgA with (pg 2)|change pgB with (pg 3)|change pgC with (pg 4)];
      (split; [apply demo6_ok; lia|vm_compute; discriminate]).
  - intros p q t Hp Hq H1 H2. exact (pt_inj _ _ demo_map_wf p q t Hp Hq H1 H2).
Qed.

Lemma pagefault_guard_panics_witness :
  @pagefault_handler demo6 0 demo_gproc demo_guard = Panic "mappages: remap".
Proof.
  apply (@pagefault_guard_panics demo6 demo_gproc demo_guard 0 (pg 0) [] demo_guard_wf).
  - split; [apply demo6_ok; lia|]. vm_compute. discriminate.
  - vm_compute. split; [discriminate|reflexivity].
  - exact demo_guard_inv.
  - reflexivity.
  - vm_compute. discriminate.
  - vm_compute. reflexivity.
Defined.

Lemma alarm_roundtrip_witness :
  exists p1 s1, alarm_handler (set_trapalarm (MkTrapalarm 2 1 0 4096 []) proc0) (MkKst ∅ 0 ∅) = (p1, s1)
    /\ ta_state (p_trapalarm p1) = 1.
Proof.
  destruct (alarm_roundtrip (set_trapalarm (MkTrapalarm 2 1 0 4096 []) proc0) (MkKst ∅ 0 ∅))
    as (p1 & s1 & E & _ & _ & Hs & _).
  - discriminate.
  - reflexivity.
  - reflexivity.
  - exists p1, s1. split; [exact E|exact Hs].
Defined.

End TrapHandler.
