(* ===== verification/UserMem.v ===== *)
(** * User memory, as the rest of the kernel sees it

    The file and device code moves bytes between the kernel and the address
    space of the current process only through [copyin] and [copyout] (and
    [either_copyin], [either_copyout]).  [UserMem] is that interface; the page
    tables of the running process are its implementation in the kernel. *)

From S2P Require Import Prelude Riscv Kalloc ProcDefs Vm.
From stdpp Require Import base list numbers.
From Stdlib Require Import ZArith Lia.

#[local] Open Scope Z_scope.

(** [um_copyin u va n] and [um_copyout u va bs] return the C result (0 or -1),
    the bytes read, and the new state. *)
Class UserMem (U : Type) : Type := {
  um_copyin : U -> Z -> Z -> outcome (Z * list Z * U);
  um_copyout : U -> Z -> list Z -> outcome (Z * U)
}.

(** The address space of process [p]. *)
#[export] Instance vm_user_mem `{Layout} (p : proc) : UserMem kst := {
  um_copyin s va n := Vm.copyin p s (p_pagetable p) va n;
  um_copyout s va bs := Vm.copyout p s (p_pagetable p) va bs
}.

(** The contract of the copies of single bytes: they complete, with result 0
    (and, for [copyin], the byte) or -1. *)
Class UserMemLaws (U : Type) `{UserMem U} : Prop := {
  um_copyin1 : forall u va, exists r bs u', um_copyin u va 1 = Ret (r, bs, u')
    /\ (r = 0 /\ length bs = 1%nat \/ r = -1);
  um_copyout1 : forall u va b, exists r u', um_copyout u va [b] = Ret (r, u') /\ (r = 0 \/ r = -1)
}.

(** How a run of a read or write ends: with a result, or asleep inside its
    loop at index [i]. *)
Inductive io_res : Type :=
| IoDone (r : Z)
| IoSleep (i : Z).

Section Transfers.
Context {U : Type} `{UserMem U}.

(** [bs] was read byte by byte from [va] on. *)
Inductive reads_from : U -> Z -> list Z -> U -> Prop :=
| reads_nil u va : reads_from u va [] u
| reads_snoc u va bs u1 b u2 :
    reads_from u va bs u1 ->
    um_copyin u1 (u64 (va + Z.of_nat (length bs))) 1 = Ret (0, [b], u2) ->
    reads_from u va (bs ++ [b]) u2.

(** [bs] was stored byte by byte from [va] on. *)
Inductive writes_to : U -> Z -> list Z -> U -> Prop :=
| writes_nil u va : writes_to u va [] u
| writes_snoc u va bs u1 b u2 :
    writes_to u va bs u1 ->
    um_copyout u1 (u64 (va + Z.of_nat (length bs))) [b] = Ret (0, u2) ->
    writes_to u va (bs ++ [b]) u2.

(** A byte more in front. *)
Lemma reads_cons (u : U) va b u1 bs u2 :
  um_copyin u (u64 va) 1 = Ret (0, [b], u1) -> reads_from u1 (va + 1) bs u2 -> reads_from u va (b :: bs) u2.
Proof.
  intros E R. remember (va + 1) as va1 eqn:Hva. induction R as [u1 va1|u1 va1 bs u2 c u3 R IH Ec].
  - change [b] with ([] ++ [b]). eapply reads_snoc; [apply reads_nil|]. simpl. by rewrite Z.add_0_r.
  - change (b :: bs ++ [c]) with ((b :: bs) ++ [c]). eapply reads_snoc; [by apply IH|].
    rewrite <- Ec. subst va1. simpl length. do 2 f_equal. lia.
Qed.

Lemma writes_cons (u : U) va b u1 bs u2 :
  um_copyout u (u64 va) [b] = Ret (0, u1) -> writes_to u1 (va + 1) bs u2 -> writes_to u va (b :: bs) u2.
Proof.
  intros E R. remember (va + 1) as va1 eqn:Hva. induction R as [u1 va1|u1 va1 bs u2 c u3 R IH Ec].
  - change [b] with ([] ++ [b]). eapply writes_snoc; [apply writes_nil|]. simpl. by rewrite Z.add_0_r.
  - change (b :: bs ++ [c]) with ((b :: bs) ++ [c]). eapply writes_snoc; [by apply IH|].
    rewrite <- Ec. subst va1. simpl length. do 2 f_equal. lia.
Qed.

Lemma writes_to_u64 (u : U) va bs u' : writes_to u (u64 va) bs u' -> writes_to u va bs u'.
Proof.
  intros W. remember (u64 va) as w eqn:E. induction W as [u w|u w bs u1 b u2 W IH Ec]; [constructor|].
  eapply writes_snoc; [by apply IH|]. rewrite <- Ec. f_equal. subst w. unfold u64. by rewrite Zplus_mod_idemp_l.
Qed.

End Transfers.

(** ** An instance *)

(** A flat user memory. *)
#[export] Instance flat_mem : UserMem (list Z) := {
  um_copyin m va n :=
    if (0 <=? va) && (va + n <=? Z.of_nat (length m)) then Ret (0, take (Z.to_nat n) (drop (Z.to_nat va) m), m) else Ret (-1, [], m);
  um_copyout m va bs :=
    if va + Z.of_nat (length bs) <=? Z.of_nat (length m) then Ret (0, list_inserts (Z.to_nat va) bs m) else Ret (-1, m)
}.

#[export] Instance flat_mem_laws : UserMemLaws (list Z).
Proof.
  split.
  - intros u va. simpl. destruct ((0 <=? va) && (va + 1 <=? Z.of_nat (length u))) eqn:E;
      eexists _, _, _; split; [done| |done|by right].
    left. split; [done|]. rewrite length_take, length_drop. lia.
  - intros u va b. simpl. destruct (_ <=? _); eexists _, _; (split; [reflexivity|]); [by left|by right].
Qed.
