(* ===== verification/RingBuf.v ===== *)
(** * Ring buffers indexed by free-running counters

    The pipe, the UART transmit buffer and the console input buffer all store
    byte number [i] in slot [i mod sz] and let the counters wrap at a power of
    two that [sz] divides.  [region] is the queue such a buffer holds. *)

From S2P Require Import Prelude.
From stdpp Require Import base list numbers.
From Stdlib Require Import ZArith Lia.

#[local] Open Scope Z_scope.

Module RingBuf.

Section Region.
Context (sz : Z).
Hypothesis Hsz : 0 < sz.

Definition slot (i : Z) : nat := Z.to_nat (i mod sz).

(** The [n] bytes from counter value [r] on. *)
Definition region (buf : list Z) (r n : Z) : list Z :=
  (fun k => nth (slot (r + k)) buf 0) <$> seqZ 0 n.

Lemma length_region buf r n : length (region buf r n) = Z.to_nat n.
Proof. unfold region. by rewrite length_fmap, length_seqZ. Qed.

Lemma region_nil buf r n : n <= 0 -> region buf r n = [].
Proof. intros H. unfold region. by rewrite seqZ_nil. Qed.

(** Only the counter modulo the buffer size matters. *)
Lemma region_mod buf r r' n : r mod sz = r' mod sz -> region buf r n = region buf r' n.
Proof using Hsz.
  intros E. unfold region. apply list_fmap_ext. intros i k _. unfold slot.
  by rewrite (Zplus_mod r k), E, <- Zplus_mod.
Qed.

Lemma slot_mod i j : i mod sz = j mod sz -> slot i = slot j.
Proof. unfold slot. by intros ->. Qed.

(** The byte stored after the region extends it. *)
Lemma region_snoc buf r n b :
  Z.of_nat (length buf) = sz -> 0 <= n < sz ->
  region (<[slot (r + n) := b]> buf) r (n + 1) = region buf r n ++ [b].
Proof using Hsz.
  intros Hl Hn. unfold region. rewrite Z.add_1_r, seqZ_snoc, fmap_app by lia. f_equal.
  - apply list_fmap_ext. intros i k Hk. apply list_elem_of_lookup_2, elem_of_seqZ in Hk.
    rewrite !nth_lookup, list_lookup_insert_ne; [done|]. unfold slot. intros E.
    apply (f_equal Z.of_nat) in E. rewrite !Z2Nat.id in E by (apply Z.mod_pos_bound; lia).
    assert (D : (r + n - (r + k)) mod sz = 0) by (rewrite Zminus_mod, E, Z.sub_diag; apply Zmod_0_l).
    rewrite Z.mod_small in D by lia. lia.
  - cbn [fmap list_fmap]. f_equal. rewrite Z.add_0_l, nth_lookup, list_lookup_insert_eq; [done|].
    unfold slot. pose proof (Z.mod_pos_bound (r + n) sz). lia.
Qed.

Lemma region_cons buf r n :
  0 < n -> region buf r n = nth (slot r) buf 0 :: region buf (r + 1) (n - 1).
Proof using Hsz.
  intros Hn. unfold region. rewrite seqZ_cons by lia.
  replace (seqZ (Z.succ 0) (Z.pred n)) with (Z.add 1 <$> seqZ 0 (n - 1)) by (rewrite fmap_add_seqZ; reflexivity).
  rewrite fmap_cons, Z.add_0_r. apply (f_equal2 cons); [done|]. rewrite <- list_fmap_compose.
  apply list_fmap_ext. intros i k _. simpl. do 2 f_equal. lia.
Qed.

Lemma region_app buf r n m :
  0 <= n -> 0 <= m -> region buf r (n + m) = region buf r n ++ region buf (r + n) m.
Proof using Hsz.
  intros Hn Hm. unfold region. rewrite seqZ_app, fmap_app by lia. f_equal.
  replace (seqZ (0 + n) m) with (Z.add n <$> seqZ 0 m) by (rewrite fmap_add_seqZ; f_equal; lia).
  rewrite <- list_fmap_compose. apply list_fmap_ext. intros i k _. simpl. do 2 f_equal. lia.
Qed.

End Region.

End RingBuf.
