(* ===== verification/Pipe.v ===== *)
(** * kernel/pipe.c: pipes

    The pipe structure with its 32-bit counters.  A run of [pipewrite] or
    [piperead] under the pipe's lock ends by returning or by going to sleep
    inside its loop; a sleeping writer resumes at the index it had reached.
    [pi_woken] records the wakeups issued.  Main result: through any
    interleaving of runs, across the wrap-around of the counters, a pipe is a
    bounded FIFO queue of bytes. *)

From S2P Require Import Prelude Riscv Kalloc ProcDefs Vm UserMem RingBuf.
From stdpp Require Import base list numbers strings sets relations.
From Stdlib Require Import ZArith Lia.

#[local] Open Scope Z_scope.

Record pipe : Type := MkPipe {
  pi_data : list Z;
  pi_nread : Z;
  pi_nwrite : Z;
  pi_readopen : Z;
  pi_writeopen : Z;
  pi_woken : list chan
}.

Import RingBuf.

Module Pipe.

Definition PIPESIZE : Z := 512.

Definition set_data (v : list Z) (p : pipe) : pipe :=
  MkPipe v (pi_nread p) (pi_nwrite p) (pi_readopen p) (pi_writeopen p) (pi_woken p).
Definition set_nread (v : Z) (p : pipe) : pipe :=
  MkPipe (pi_data p) v (pi_nwrite p) (pi_readopen p) (pi_writeopen p) (pi_woken p).
Definition set_nwrite (v : Z) (p : pipe) : pipe :=
  MkPipe (pi_data p) (pi_nread p) v (pi_readopen p) (pi_writeopen p) (pi_woken p).
Definition set_readopen (v : Z) (p : pipe) : pipe :=
  MkPipe (pi_data p) (pi_nread p) (pi_nwrite p) v (pi_writeopen p) (pi_woken p).
Definition set_writeopen (v : Z) (p : pipe) : pipe :=
  MkPipe (pi_data p) (pi_nread p) (pi_nwrite p) (pi_readopen p) v (pi_woken p).
Definition wakeup (c : chan) (p : pipe) : pipe :=
  MkPipe (pi_data p) (pi_nread p) (pi_nwrite p) (pi_readopen p) (pi_writeopen p) (pi_woken p ++ [c]).

(** [&pi->nread] and [&pi->nwrite]. *)
Definition ch_nread : chan := ChObj "pipe.nread" 0.
Definition ch_nwrite : chan := ChObj "pipe.nwrite" 0.

(** The fields [pipealloc] sets in the page it got, whose bytes are [junk]. *)
Definition pipe_init (junk : list Z) : pipe := MkPipe junk 0 0 1 1 [].

(** [pipeclose]; the flag says whether the page is freed. *)
Definition pipeclose (writable : Z) (p : pipe) : bool * pipe :=
  let p := if nz writable then wakeup ch_nread (set_writeopen 0 p)
           else wakeup ch_nwrite (set_readopen 0 p) in
  ((pi_readopen p =? 0) && (pi_writeopen p =? 0), p).

Section Copy.
Context {U : Type} `{UM : UserMem U}.
(** [myproc()->killed]. *)
Context (killed : Z).

(** The loop of [pipewrite] from index [i] on. *)
Fixpoint pipewrite_loop (fuel : nat) (addr n i : Z) (p : pipe) (u : U) : outcome (io_res * pipe * U) :=
  if i <? n then
    match fuel with
    | O => Fuel
    | S fuel =>
        if (pi_readopen p =? 0) || nz killed then Ret (IoDone (-1), p, u) else
        if pi_nwrite p =? u32 (pi_nread p + PIPESIZE) then
          Ret (IoSleep i, wakeup ch_nread p, u)
        else
          '(r, bs, u) ← um_copyin u (u64 (addr + i)) 1;
          if r =? -1 then Ret (IoDone i, wakeup ch_nread p, u) else
          let p := set_data (<[Z.to_nat (pi_nwrite p mod PIPESIZE) := hd 0 bs]> (pi_data p)) p in
          let p := set_nwrite (u32 (pi_nwrite p + 1)) p in
          pipewrite_loop fuel addr n (i + 1) p u
    end
  else Ret (IoDone i, wakeup ch_nread p, u).

(** A run of [pipewrite] that starts, or resumes, at index [i]. *)
Definition pipewrite (addr n i : Z) (p : pipe) (u : U) : outcome (io_res * pipe * U) :=
  pipewrite_loop (Z.to_nat (n - i)) addr n i p u.

(** The copy loop of [piperead]. *)
Fixpoint piperead_loop (fuel : nat) (addr n i : Z) (p : pipe) (u : U) : outcome (Z * pipe * U) :=
  if i <? n then
    match fuel with
    | O => Fuel
    | S fuel =>
        if pi_nread p =? pi_nwrite p then Ret (i, p, u) else
        let ch := nth (Z.to_nat (pi_nread p mod PIPESIZE)) (pi_data p) 0 in
        let p := set_nread (u32 (pi_nread p + 1)) p in
        '(r, u) ← um_copyout u (u64 (addr + i)) [ch];
        if r =? -1 then Ret (i, p, u) else piperead_loop fuel addr n (i + 1) p u
    end
  else Ret (i, p, u).

Definition piperead (addr n : Z) (p : pipe) (u : U) : outcome (io_res * pipe * U) :=
  if (pi_nread p =? pi_nwrite p) && nz (pi_writeopen p) then
    if nz killed then Ret (IoDone (-1), p, u) else Ret (IoSleep 0, p, u)
  else
    '(i, p, u) ← piperead_loop (Z.to_nat n) addr n 0 p u;
    Ret (IoDone i, wakeup ch_nwrite p, u).

End Copy.

(** ** The queue *)

Record pipe_ok (p : pipe) : Prop := MkPipeOk {
  po_data : length (pi_data p) = Z.to_nat PIPESIZE;
  po_nread : 0 <= pi_nread p < 2 ^ 32;
  po_nwrite : 0 <= pi_nwrite p < 2 ^ 32;
  po_len : u32 (pi_nwrite p - pi_nread p) <= PIPESIZE
}.

Definition qlen (p : pipe) : Z := u32 (pi_nwrite p - pi_nread p).

(** The bytes in the pipe, oldest first. *)
Definition contents (p : pipe) : list Z := region PIPESIZE (pi_data p) (pi_nread p) (qlen p).

Lemma length_contents p : length (contents p) = Z.to_nat (qlen p).
Proof. apply length_region. Qed.

(** The counters wrap at 2^32, a multiple of the buffer size. *)
Lemma pipe_slot z : u32 z mod PIPESIZE = z mod PIPESIZE.
Proof. unfold u32, PIPESIZE. dlia. Qed.

Lemma qlen_range p : pipe_ok p -> 0 <= qlen p <= PIPESIZE.
Proof. intros []. unfold qlen. pose proof (u32_range (pi_nwrite p - pi_nread p)). lia. Qed.

Lemma pipe_full p : pipe_ok p -> (pi_nwrite p =? u32 (pi_nread p + PIPESIZE)) = (qlen p =? PIPESIZE).
Proof.
  intros [_ H1 H2 H3]. unfold qlen, u32, PIPESIZE in *. apply eq_true_iff_eq. rewrite !Z.eqb_eq. dlia.
Qed.

Lemma pipe_empty p : pipe_ok p -> (pi_nread p =? pi_nwrite p) = (qlen p =? 0).
Proof.
  intros [_ H1 H2 H3]. unfold qlen, u32, PIPESIZE in *. apply eq_true_iff_eq. rewrite !Z.eqb_eq. dlia.
Qed.

(** Storing a byte appends it. *)
Definition put (b : Z) (p : pipe) : pipe :=
  set_nwrite (u32 (pi_nwrite p + 1)) (set_data (<[Z.to_nat (pi_nwrite p mod PIPESIZE) := b]> (pi_data p)) p).

Lemma put_ok b p : pipe_ok p -> qlen p <> PIPESIZE -> pipe_ok (put b p) /\ qlen (put b p) = qlen p + 1.
Proof.
  intros Hp Hq. pose proof (qlen_range p Hp) as Hr. destruct Hp as [H0 H1 H2 H3].
  assert (Hl : qlen (put b p) = qlen p + 1).
  { unfold qlen, put, u32, PIPESIZE in *. simpl. dlia. }
  split; [|done]. split; simpl; [by rewrite length_insert|done|apply u32_range|].
  change (u32 (u32 (pi_nwrite p + 1) - pi_nread p)) with (qlen (put b p)). lia.
Qed.

Lemma put_contents b p :
  pipe_ok p -> qlen p <> PIPESIZE -> contents (put b p) = contents p ++ [b].
Proof.
  intros Hp Hq. destruct (put_ok b p Hp Hq) as [_ Hl]. pose proof (qlen_range p Hp) as Hr.
  destruct Hp as [H0 H1 H2 H3]. unfold contents. rewrite Hl.
  assert (E : (pi_nread p + qlen p) mod PIPESIZE = pi_nwrite p mod PIPESIZE).
  { unfold qlen. rewrite Zplus_mod, pipe_slot, <- Zplus_mod. f_equal. lia. }
  rewrite <- region_snoc; [|done|rewrite H0; unfold PIPESIZE; lia|lia].
  unfold slot. by rewrite E.
Qed.

(** Reading a byte removes the oldest. *)
Definition get (p : pipe) : pipe := set_nread (u32 (pi_nread p + 1)) p.

Lemma get_contents p :
  pipe_ok p -> qlen p <> 0 ->
  pipe_ok (get p)
  /\ contents p = nth (Z.to_nat (pi_nread p mod PIPESIZE)) (pi_data p) 0 :: contents (get p).
Proof.
  intros Hp Hq. pose proof (qlen_range p Hp) as Hr. destruct Hp as [H0 H1 H2 H3].
  assert (Hl : qlen (get p) = qlen p - 1).
  { unfold qlen, get, u32, PIPESIZE in *. simpl. dlia. }
  split.
  - split; simpl; [done|apply u32_range|done|].
    change (u32 (pi_nwrite p - u32 (pi_nread p + 1))) with (qlen (get p)). lia.
  - unfold contents. rewrite Hl, region_cons by (done || lia). apply (f_equal2 cons); [done|].
    apply region_mod; [done|]. simpl. by rewrite pipe_slot.
Qed.

(** ** Runs of pipewrite and piperead *)

Section Runs.
Context {U : Type} `{UL : UserMemLaws U} (killed : Z).

Lemma wakeup_same c p : contents (wakeup c p) = contents p /\ (pipe_ok (wakeup c p) <-> pipe_ok p)
  /\ qlen (wakeup c p) = qlen p.
Proof. split_and!; try done. split; intros []; by split. Qed.

(** What stays, and the wakeup at the end of a run. *)
Definition ends_run (c : chan) (p p' : pipe) : Prop :=
  pipe_ok p' /\ pi_readopen p' = pi_readopen p /\ pi_writeopen p' = pi_writeopen p /\ pi_woken p' = pi_woken p ++ [c].

Lemma wakeup_ends c p : pipe_ok p -> ends_run c p (wakeup c p).
Proof. intros Hp. split_and!; try done. by apply wakeup_same. Qed.

(** What a run of [pipewrite] that starts at index [i] does.  With bytes left and
    no reader, or a killed caller, it returns -1 and does nothing.  Otherwise it
    appends bytes read from the caller, wakes the readers, and stops in exactly
    one way: all [n] written; asleep, the pipe full and bytes left; or short,
    the pipe not full and the copy of the next byte refused. *)
Definition write_post (addr n i : Z) (p : pipe) (u : U) (res : io_res) (p' : pipe) (u' : U) : Prop :=
  if decide (i < n /\ (pi_readopen p = 0 \/ killed <> 0)) then res = IoDone (-1) /\ p' = p /\ u' = u
  else exists bs u1, reads_from u (addr + i) bs u1 /\ ends_run ch_nread p p' /\ contents p' = contents p ++ bs
    /\ let j := i + Z.of_nat (length bs) in
       res = IoDone j /\ j = n /\ u' = u1
       \/ res = IoSleep j /\ j < n /\ length (contents p') = Z.to_nat PIPESIZE /\ u' = u1
       \/ res = IoDone j /\ j < n /\ (length (contents p') < Z.to_nat PIPESIZE)%nat
          /\ exists bs', um_copyin u1 (u64 (addr + j)) 1 = Ret (-1, bs', u').

(** The run stops where it is. *)
Lemma write_stop addr n i p u res u' :
  pipe_ok p -> ~ (i < n /\ (pi_readopen p = 0 \/ killed <> 0)) ->
  (res = IoDone i /\ i = n /\ u' = u \/ res = IoSleep i /\ i < n /\ qlen p = PIPESIZE /\ u' = u
   \/ res = IoDone i /\ i < n /\ qlen p <> PIPESIZE /\ exists bs', um_copyin u (u64 (addr + i)) 1 = Ret (-1, bs', u')) ->
  write_post addr n i p u res (wakeup ch_nread p) u'.
Proof.
  intros Hp Hno Hres. unfold write_post. rewrite decide_False by done. exists [], u. destruct (wakeup_same ch_nread p) as (Ec & _ & _).
  split; [constructor|]. split; [by apply wakeup_ends|]. rewrite Ec, app_nil_r. split; [done|].
  cbv zeta. simpl length. rewrite Z.add_0_r, length_contents. pose proof (qlen_range p Hp).
  destruct Hres as [(-> & ?)|[(-> & ? & -> & ?)|(-> & ? & ? & ?)]]; [by left|by right; left|]. right; right. split_and!; try done. lia.
Qed.

Lemma pipewrite_loop_spec fuel addr n i p u :
  pipe_ok p -> i <= n -> (Z.to_nat (n - i) <= fuel)%nat ->
  exists res p' u', pipewrite_loop killed fuel addr n i p u = Ret (res, p', u') /\ write_post addr n i p u res p' u'.
Proof using UL.
  revert i p u. induction fuel as [|fuel IH]; intros i p u Hp Hi Hf; cbn [pipewrite_loop].
  - rewrite (proj2 (Z.ltb_ge _ _)) by lia. eexists _, _, _. split; [done|]. apply write_stop; [done|lia|]. left. split_and!; [done|lia|done].
  - destruct (Z.ltb_spec i n) as [Hin|Hin].
    2: { eexists _, _, _. split; [done|]. apply write_stop; [done|lia|]. left. split_and!; [done|lia|done]. }
    destruct ((pi_readopen p =? 0) || nz killed) eqn:Eo.
    { eexists _, _, _. split; [done|]. unfold write_post. rewrite decide_True; [done|]. split; [done|].
      apply orb_true_iff in Eo as [E|E]; [left; lia|right]. by apply nz_true in E. }
    apply orb_false_iff in Eo as [Eo Ek]. apply Z.eqb_neq in Eo. apply nz_false in Ek. rewrite pipe_full by done.
    destruct (Z.eqb_spec (qlen p) PIPESIZE) as [Ef|Ef].
    { eexists _, _, _. split; [done|]. apply write_stop; [done|tauto|]. right; left. by split_and!. }
    destruct (um_copyin1 u (u64 (addr + i))) as (r & bs & u1 & E1 & Hr). rewrite E1. cbn [mbind outcome_bind].
    destruct (Z.eqb_spec r (-1)) as [->|Hr1].
    { eexists _, _, _. split; [done|]. apply write_stop; [done|tauto|]. right; right. split_and!; try done. eauto. }
    destruct Hr as [[-> Hl]|?]; [|lia]. destruct bs as [|b [|? ?]]; try discriminate. simpl hd.
    fold (put b p). destruct (put_ok b p Hp Ef) as [Hp' _].
    destruct (IH (i + 1) (put b p) u1) as (res & p' & u' & E & Hpost); [done|lia|lia|]. exists res, p', u'. split; [exact E|].
    unfold write_post in *. rewrite decide_False in Hpost by (change (pi_readopen (put b p)) with (pi_readopen p); tauto).
    rewrite decide_False by tauto. destruct Hpost as (bs' & u2 & R & He & Hc & Hres). exists (b :: bs'), u2.
    split; [eapply reads_cons; [exact E1|]; by replace (addr + i + 1) with (addr + (i + 1)) by lia|].
    split; [done|]. split; [by rewrite Hc, put_contents, <- app_assoc|]. cbv zeta in *. simpl length.
    by replace (i + Z.of_nat (S (length bs'))) with (i + 1 + Z.of_nat (length bs')) by lia.
Qed.

(** What a run of [piperead] does.  On an empty pipe with an open writer it goes
    to sleep, or returns -1 if the caller was killed, and does nothing.
    Otherwise it delivers the oldest bytes, in order, and wakes the writers; it
    returns fewer bytes than asked only when the pipe ran empty or a copy was
    refused, in which case one more byte has left the pipe. *)
Definition read_end (addr n i : Z) (p p' : pipe) (bs : list Z) (u1 u' : U) : Prop :=
  let r := i + Z.of_nat (length bs) in
  contents p = bs ++ contents p' /\ u' = u1 /\ (r = Z.max i n \/ r < n /\ contents p' = [])
  \/ exists b, contents p = bs ++ b :: contents p' /\ r < n /\ um_copyout u1 (u64 (addr + r)) [b] = Ret (-1, u').

Definition read_post (addr n : Z) (p : pipe) (u : U) (res : io_res) (p' : pipe) (u' : U) : Prop :=
  if decide (contents p = [] /\ pi_writeopen p <> 0) then
    res = (if decide (killed = 0) then IoSleep 0 else IoDone (-1)) /\ p' = p /\ u' = u
  else exists bs u1, writes_to u addr bs u1 /\ ends_run ch_nwrite p p' /\ res = IoDone (Z.of_nat (length bs))
    /\ read_end addr n 0 p p' bs u1 u'.

(** The read stops where it is. *)
Lemma read_stop addr n i p u : pipe_ok p -> i >= n \/ i < n /\ qlen p = 0 ->
  exists p' u' bs u1, Ret (i, p, u) = Ret (i + Z.of_nat (length bs), p', u')
    /\ ends_run ch_nwrite p (wakeup ch_nwrite p') /\ writes_to u (addr + i) bs u1 /\ read_end addr n i p p' bs u1 u'.
Proof.
  intros Hp Hi. exists p, u, [], u. unfold read_end. simpl length. rewrite Z.add_0_r. split; [done|]. split; [by apply wakeup_ends|].
  split; [constructor|]. left. split; [done|]. split; [done|]. destruct Hi as [Hi|[Hi He]]; [left; lia|right; split; [done|]].
  apply nil_length_inv. rewrite length_contents. lia.
Qed.

Lemma piperead_loop_spec fuel addr n i p u :
  pipe_ok p -> 0 <= i -> (Z.to_nat (n - i) <= fuel)%nat ->
  exists p' u' bs u1, piperead_loop fuel addr n i p u = Ret (i + Z.of_nat (length bs), p', u')
    /\ ends_run ch_nwrite p (wakeup ch_nwrite p') /\ writes_to u (addr + i) bs u1 /\ read_end addr n i p p' bs u1 u'.
Proof using UL.
  revert i p u. induction fuel as [|fuel IH]; intros i p u Hp Hi Hf; cbn [piperead_loop].
  - rewrite (proj2 (Z.ltb_ge _ _)) by lia. apply read_stop; [done|lia].
  - destruct (Z.ltb_spec i n) as [Hin|Hin]; [|apply read_stop; [done|lia]].
    rewrite pipe_empty by done. destruct (Z.eqb_spec (qlen p) 0) as [Ee|Ee]; [apply read_stop; [done|by right]|].
    destruct (get_contents p Hp Ee) as [Hp' Hc]. fold (get p).
    set (ch := nth _ (pi_data p) 0) in *.
    destruct (um_copyout1 u (u64 (addr + i)) ch) as (r & u1 & E1 & Hr). rewrite E1. cbn [mbind outcome_bind].
    destruct (Z.eqb_spec r (-1)) as [->|Hr1].
    { eexists (get p), u1, [], u. unfold read_end. simpl length. rewrite Z.add_0_r. split; [done|]. split; [by apply (wakeup_ends _ (get p))|].
      split; [constructor|]. right. exists ch. by split_and!. }
    destruct Hr as [->|?]; [|lia].
    destruct (IH (i + 1) (get p) u1 Hp' ltac:(lia) ltac:(lia)) as (p' & u' & bs & u2 & E & He & W & Hpost).
    exists p', u', (ch :: bs), u2. unfold read_end in *. simpl length.
    replace (i + Z.of_nat (S (length bs))) with (i + 1 + Z.of_nat (length bs)) by lia. split; [exact E|]. split; [exact He|].
    split; [eapply writes_cons; [exact E1|]; by replace (addr + i + 1) with (addr + (i + 1)) by lia|].
    rewrite Hc. destruct Hpost as [(-> & -> & H2)|(b & -> & H2)]; [left|right; by exists b].
    split; [done|]. split; [done|]. destruct H2; [left; lia|by right].
Qed.

(** (C12) A pipe is a FIFO queue of at most [PIPESIZE] bytes.  Every run of
    [pipewrite], from any index, and of [piperead] completes or goes to sleep.
    A write returns -1 exactly when bytes are left and there is no reader or the
    caller was killed; otherwise it appends to the queue the bytes it read from
    the caller, in order, and sleeps exactly when the pipe is full and bytes
    are left.  A read sleeps, or returns -1 if the caller was killed, exactly
    when the pipe is empty and has a writer; otherwise it delivers the oldest
    bytes of the queue in order, as many as asked or all there are, short of a
    refused copy.  This holds for all values of the 32-bit counters, including
    where they wrap. *)
Theorem pipe_fifo addr n i p u :
  pipe_ok p -> 0 <= i <= n ->
  (exists res p' u', pipewrite killed addr n i p u = Ret (res, p', u') /\ write_post addr n i p u res p' u')
  /\ (exists res p' u', piperead killed addr n p u = Ret (res, p', u') /\ read_post addr n p u res p' u').
Proof using UL.
  intros Hp Hi. split; [apply pipewrite_loop_spec; [done|lia|lia]|].
  unfold piperead. rewrite pipe_empty by done.
  assert (He : qlen p = 0 <-> contents p = []).
  { pose proof (qlen_range p Hp). rewrite <- length_zero_iff_nil, length_contents. lia. }
  destruct ((qlen p =? 0) && nz (pi_writeopen p)) eqn:Ew.
  - apply andb_true_iff in Ew as [Eq Ew]. apply Z.eqb_eq, He in Eq. apply nz_true in Ew.
    destruct (nz killed) eqn:Ek; eexists _, _, _; (split; [done|]); unfold read_post; rewrite decide_True by done.
    + apply nz_true in Ek. by rewrite decide_False.
    + apply nz_false in Ek. by rewrite decide_True.
  - destruct (piperead_loop_spec (Z.to_nat n) addr n 0 p u Hp ltac:(lia) ltac:(lia)) as (p' & u' & bs & u1 & E & Hend & W & Hpost).
    rewrite E. cbn [mbind outcome_bind]. rewrite Z.add_0_r in W.
    eexists _, _, _. split; [done|]. unfold read_post. rewrite decide_False.
    2: { intros [E1 E2]. apply He, Z.eqb_eq in E1. apply nz_true in E2. by rewrite E1, E2 in Ew. }
    exists bs, u1. by split_and!.
Qed.

End Runs.

(** ** Concrete instance *)

(** A full pipe whose write counter has wrapped. *)
Definition demo_pipe : pipe := MkPipe (replicate (Z.to_nat PIPESIZE) 7) (2 ^ 32 - 2) 510 1 1 [].

Lemma pipe_fifo_witness :
  exists res p' u', pipewrite 0 0 3 0 demo_pipe [1; 2; 3] = Ret (res, p', u')
    /\ write_post 0 0 3 0 demo_pipe [1; 2; 3] res p' u'.
Proof.
  apply (pipe_fifo 0 0 3 0 demo_pipe [1; 2; 3]).
  - split; [reflexivity| | |]; vm_compute; [by split|by split|discriminate].
  - lia.
Defined.

End Pipe.
