(* ===== verification/Uart.v ===== *)
(** * kernel/uart.c: the 16550a driver

    The device is a parameter: reading and writing its registers are arbitrary
    functions of a device state.  [u_thr] records the bytes the driver has
    written to the transmit register.  A caller that finds the transmit buffer
    full, or a kernel that has panicked, is the outcome [Blocked]; polling for
    an idle transmitter is bounded by [spin] reads of the status register. *)

From S2P Require Import Prelude Riscv ProcDefs RingBuf.
From stdpp Require Import base list numbers strings.
From Stdlib Require Import ZArith Lia.

#[local] Open Scope Z_scope.

Import RingBuf.

(** The memory-mapped registers. *)
Class UartDev (D : Type) : Type := {
  dev_read : D -> Z -> Z * D;
  dev_write : D -> Z -> Z -> D
}.

Record uart (D : Type) : Type := MkUart {
  uart_tx_buf : list Z;
  uart_tx_w : Z;
  uart_tx_r : Z;
  u_panicked : Z;
  u_dev : D;
  u_thr : list Z;
  u_woken : list chan
}.

Arguments MkUart {D}.
Arguments uart_tx_buf {D}.
Arguments uart_tx_w {D}.
Arguments uart_tx_r {D}.
Arguments u_panicked {D}.
Arguments u_dev {D}.
Arguments u_thr {D}.
Arguments u_woken {D}.

Module Uart.

Definition RHR : Z := 0.
Definition THR : Z := 0.
Definition IER : Z := 1.
Definition IER_RX_ENABLE : Z := Z.shiftl 1 0.
Definition IER_TX_ENABLE : Z := Z.shiftl 1 1.
Definition FCR : Z := 2.
Definition FCR_FIFO_ENABLE : Z := Z.shiftl 1 0.
Definition FCR_FIFO_CLEAR : Z := Z.shiftl 3 1.
Definition LCR : Z := 3.
Definition LCR_EIGHT_BITS : Z := Z.shiftl 3 0.
Definition LCR_BAUD_LATCH : Z := Z.shiftl 1 7.
Definition LSR : Z := 5.
Definition LSR_TX_IDLE : Z := Z.shiftl 1 5.
Definition UART_TX_BUF_SIZE : Z := 32.

Definition ch_tx_r : chan := ChObj "uart_tx_r" 0.

Section Driver.
Context {D : Type} `{UartDev D} (spin : nat).

Definition set_dev (d : D) (s : uart D) : uart D :=
  MkUart (uart_tx_buf s) (uart_tx_w s) (uart_tx_r s) (u_panicked s) d (u_thr s) (u_woken s).

Definition WriteReg (reg v : Z) (s : uart D) : uart D := set_dev (dev_write (u_dev s) reg v) s.

(** A byte for the transmitter. *)
Definition WriteThr (c : Z) (s : uart D) : uart D :=
  let s := WriteReg THR c s in
  MkUart (uart_tx_buf s) (uart_tx_w s) (uart_tx_r s) (u_panicked s) (u_dev s) (u_thr s ++ [c]) (u_woken s).

Definition ReadReg (reg : Z) (s : uart D) : Z * uart D :=
  let '(v, d) := dev_read (u_dev s) reg in (v, set_dev d s).

Definition uartinit (s : uart D) : uart D :=
  let s := WriteReg IER 0 s in
  let s := WriteReg LCR LCR_BAUD_LATCH s in
  let s := WriteReg 0 3 s in
  let s := WriteReg 1 0 s in
  let s := WriteReg LCR LCR_EIGHT_BITS s in
  let s := WriteReg FCR (Z.lor FCR_FIFO_ENABLE FCR_FIFO_CLEAR) s in
  WriteReg IER (Z.lor IER_TX_ENABLE IER_RX_ENABLE) s.

(** [char] data: [c] is stored and sent as a byte. *)
Fixpoint uartstart_loop (fuel : nat) (s : uart D) : outcome (uart D) :=
  if uart_tx_w s =? uart_tx_r s then Ret s else
  match fuel with
  | O => Fuel
  | S fuel =>
      let '(lsr, s) := ReadReg LSR s in
      if Z.land lsr LSR_TX_IDLE =? 0 then Ret s else
      let c := nth (slot UART_TX_BUF_SIZE (uart_tx_r s)) (uart_tx_buf s) 0 in
      let s := MkUart (uart_tx_buf s) (uart_tx_w s) (u64 (uart_tx_r s + 1)) (u_panicked s) (u_dev s)
                 (u_thr s) (u_woken s ++ [ch_tx_r]) in
      uartstart_loop fuel (WriteThr c s)
  end.

Definition uartstart (s : uart D) : outcome (uart D) :=
  uartstart_loop (Z.to_nat UART_TX_BUF_SIZE) s.

Definition uartputc (c : Z) (s : uart D) : outcome (uart D) :=
  if nz (u_panicked s) then Blocked "panicked" else
  if uart_tx_w s =? u64 (uart_tx_r s + UART_TX_BUF_SIZE) then Blocked "uartputc" else
  uartstart (MkUart (<[slot UART_TX_BUF_SIZE (uart_tx_w s) := u8 c]> (uart_tx_buf s))
               (u64 (uart_tx_w s + 1)) (uart_tx_r s) (u_panicked s) (u_dev s) (u_thr s) (u_woken s)).

Fixpoint wait_idle (fuel : nat) (s : uart D) : outcome (uart D) :=
  match fuel with
  | O => Fuel
  | S fuel =>
      let '(lsr, s) := ReadReg LSR s in
      if Z.land lsr LSR_TX_IDLE =? 0 then wait_idle fuel s else Ret s
  end.

Definition uartputc_sync (c : Z) (s : uart D) : outcome (uart D) :=
  if nz (u_panicked s) then Blocked "panicked" else
  s ← wait_idle spin s;
  Ret (WriteThr (u8 c) s).

Definition uartgetc (s : uart D) : Z * uart D :=
  let '(lsr, s) := ReadReg LSR s in
  if nz (Z.land lsr 1) then ReadReg RHR s else (-1, s).

(** ** The transmit queue *)

Definition qlen (s : uart D) : Z := u64 (uart_tx_w s - uart_tx_r s).

(** The bytes accepted and not yet sent. *)
Definition queued (s : uart D) : list Z := region UART_TX_BUF_SIZE (uart_tx_buf s) (uart_tx_r s) (qlen s).

Record uart_ok (s : uart D) : Prop := MkUartOk {
  uo_buf : length (uart_tx_buf s) = Z.to_nat UART_TX_BUF_SIZE;
  uo_w : 0 <= uart_tx_w s < 2 ^ 64;
  uo_r : 0 <= uart_tx_r s < 2 ^ 64;
  uo_len : qlen s <= UART_TX_BUF_SIZE
}.

Lemma u64_slot z : u64 z mod UART_TX_BUF_SIZE = z mod UART_TX_BUF_SIZE.
Proof. unfold u64, UART_TX_BUF_SIZE. dlia. Qed.

Lemma uart_empty s : uart_ok s -> (uart_tx_w s =? uart_tx_r s) = (qlen s =? 0).
Proof.
  intros [_ H1 H2 H3]. unfold qlen, u64, UART_TX_BUF_SIZE in *. apply eq_true_iff_eq. rewrite !Z.eqb_eq. dlia.
Qed.

Lemma uart_full s :
  uart_ok s -> (uart_tx_w s =? u64 (uart_tx_r s + UART_TX_BUF_SIZE)) = (qlen s =? UART_TX_BUF_SIZE).
Proof.
  intros [_ H1 H2 H3]. unfold qlen, u64, UART_TX_BUF_SIZE in *. apply eq_true_iff_eq. rewrite !Z.eqb_eq. dlia.
Qed.

Lemma uartstart_loop_spec fuel s :
  uart_ok s -> (Z.to_nat (qlen s) <= fuel)%nat ->
  exists s', uartstart_loop fuel s = Ret s' /\ uart_ok s'
    /\ u_thr s' ++ queued s' = u_thr s ++ queued s /\ u_panicked s' = u_panicked s
    /\ (queued s' = [] \/ exists d, Z.land (dev_read d LSR).1 LSR_TX_IDLE = 0 /\ u_dev s' = (dev_read d LSR).2).
Proof.
  revert s. induction fuel as [|fuel IH]; intros s Hs Hf; cbn [uartstart_loop]; rewrite (uart_empty s Hs);
    destruct (Z.eqb_spec (qlen s) 0) as [E|E].
  - exists s. split_and!; try done. left. apply region_nil. lia.
  - pose proof (uo_len _ Hs). unfold qlen in *. pose proof (u64_range (uart_tx_w s - uart_tx_r s)). lia.
  - exists s. split_and!; try done. left. apply region_nil. lia.
  - unfold ReadReg. destruct (dev_read (u_dev s) LSR) as [lsr d] eqn:Ed.
    destruct (Z.eqb_spec (Z.land lsr LSR_TX_IDLE) 0) as [El|El].
    + eexists. split; [done|]. destruct Hs. split; [by split|]. split; [done|]. split; [done|]. right.
      exists (u_dev s). by rewrite Ed.
    + match goal with |- context [uartstart_loop fuel ?t] => set (s1 := t) end.
      pose proof (u64_range (uart_tx_w s - uart_tx_r s)) as Hr. fold (qlen s) in Hr.
      assert (Hl : qlen s1 = qlen s - 1).
      { destruct Hs as [_ H1 H2 H3]. unfold qlen, u64, UART_TX_BUF_SIZE in *. simpl. dlia. }
      destruct (IH s1) as (s' & E' & Hok & Hq & Hp & Hend).
      * destruct Hs as [H0 H1 H2 H3]. split; simpl; try done; [apply u64_range|lia].
      * lia.
      * exists s'. split; [exact E'|]. split; [done|]. split; [|split; [exact Hp|exact Hend]].
        rewrite Hq. unfold s1 at 1, WriteThr. cbn [u_thr WriteReg set_dev]. rewrite <- app_assoc. f_equal.
        unfold queued. rewrite Hl, (region_cons UART_TX_BUF_SIZE eq_refl (uart_tx_buf s) (uart_tx_r s) (qlen s)) by lia.
        change ([?x] ++ ?y) with (x :: y). apply (f_equal2 cons); [done|].
        apply region_mod; [done|]. simpl. by rewrite u64_slot.
Qed.

(** The transmit path is a FIFO: [uartstart] always completes, and what has
    been sent followed by what is queued is unchanged by it; it leaves bytes
    queued only when the device was last seen busy.  [uartputc] appends its
    byte to that sequence, and waits exactly when 32 bytes are queued (or the
    kernel has panicked).  The 64-bit counters may wrap. *)
Theorem uart_fifo s c :
  uart_ok s ->
  (exists s', uartstart s = Ret s' /\ uart_ok s' /\ u_thr s' ++ queued s' = u_thr s ++ queued s
     /\ (queued s' = [] \/ exists d, Z.land (dev_read d LSR).1 LSR_TX_IDLE = 0 /\ u_dev s' = (dev_read d LSR).2))
  /\ (u_panicked s = 0 -> qlen s < UART_TX_BUF_SIZE ->
      exists s', uartputc c s = Ret s' /\ uart_ok s' /\ u_thr s' ++ queued s' = u_thr s ++ queued s ++ [u8 c])
  /\ (u_panicked s = 0 -> qlen s = UART_TX_BUF_SIZE -> uartputc c s = Blocked "uartputc").
Proof.
  intros Hs. pose proof (uo_len _ Hs) as Hq. split_and!.
  - destruct (uartstart_loop_spec (Z.to_nat UART_TX_BUF_SIZE) s Hs) as (s' & E & H1 & H2 & _ & H3); [lia|].
    exists s'. by split_and!.
  - intros Hp Hl. unfold uartputc. rewrite Hp, uart_full, (proj2 (Z.eqb_neq _ _)) by (done || lia).
    change (nz 0) with false. cbv iota. set (s1 := MkUart _ _ _ _ _ _ _).
    pose proof (u64_range (uart_tx_w s - uart_tx_r s)) as Hr. fold (qlen s) in Hr.
    destruct Hs as [H0 H1 H2 H3].
    assert (Hl1 : qlen s1 = qlen s + 1).
    { unfold qlen, u64, UART_TX_BUF_SIZE in *. simpl. dlia. }
    destruct (uartstart_loop_spec (Z.to_nat UART_TX_BUF_SIZE) s1) as (s' & E & A1 & A2 & _ & _).
    + split; simpl; [by rewrite length_insert|apply u64_range|done|lia].
    + lia.
    + exists s'. split; [exact E|]. split; [done|]. rewrite A2. simpl. f_equal. unfold queued. rewrite Hl1.
      rewrite <- region_snoc; [|done|rewrite H0; unfold UART_TX_BUF_SIZE; lia|lia]. simpl.
      assert (Es : slot UART_TX_BUF_SIZE (uart_tx_w s) = slot UART_TX_BUF_SIZE (uart_tx_r s + qlen s)).
      { apply slot_mod. unfold qlen. rewrite (Zplus_mod (uart_tx_r s)), u64_slot, <- Zplus_mod. f_equal. lia. }
      by rewrite Es.
  - intros Hp Hl. unfold uartputc. rewrite Hp, uart_full, Hl by done. done.
Qed.

End Driver.

(** ** Concrete instance *)

(** A device that is always idle and never has input. *)
#[export] Instance idle_dev : UartDev unit := {
  dev_read _ reg := (if reg =? LSR then LSR_TX_IDLE else 0, tt);
  dev_write _ _ _ := tt
}.

(** Counters about to wrap, three bytes queued. *)
Definition demo_uart : uart unit :=
  MkUart (replicate (Z.to_nat UART_TX_BUF_SIZE) 9) 1 (2 ^ 64 - 2) 0 tt [] [].

Lemma uart_fifo_witness :
  (exists s', uartstart demo_uart = Ret s' /\ u_thr s' ++ queued s' = [9; 9; 9])
  /\ exists s', uartputc 65 demo_uart = Ret s' /\ u_thr s' ++ queued s' = [9; 9; 9; 65].
Proof.
  destruct (uart_fifo demo_uart 65) as ((s1 & E1 & _ & Q1 & _) & H2 & _).
  - split; [reflexivity| | |]; vm_compute; [by split|by split|discriminate].
  - destruct H2 as (s2 & E2 & _ & Q2); [reflexivity|reflexivity|]. split.
    + exists s1. split; [exact E1|exact Q1].
    + exists s2. split; [exact E2|exact Q2].
Defined.

End Uart.
