(* ===== verification/Console.v ===== *)
(** * kernel/console.c: console input and output

    The input ring with its read, write and edit counters, the interrupt
    handler that edits the current line, and the reader.  [uartintr] of
    kernel/uart.c, which feeds the handler, is here too.  A reader that finds
    no committed input goes to sleep inside its loop ([IoSleep], with the
    number of bytes still wanted).  Main result: the ring implements a line
    editor on two lists, the committed input and the line being edited. *)

From S2P Require Import Prelude Riscv Kalloc ProcDefs Vm UserMem RingBuf Uart.
From stdpp Require Import base list numbers strings sets.
From Stdlib Require Import ZArith Lia.

#[local] Open Scope Z_scope.

Import RingBuf Uart.

(** Effects outside the console and the UART. *)
Inductive cons_event : Type :=
| CvProcdump
| CvWakeup (c : chan).

Record cdev (D : Type) : Type := MkCons {
  cons_buf : list Z;
  cons_r : Z;
  cons_w : Z;
  cons_e : Z;
  cons_uart : uart D;
  cons_events : list cons_event
}.

Arguments MkCons {D}.
Arguments cons_buf {D}.
Arguments cons_r {D}.
Arguments cons_w {D}.
Arguments cons_e {D}.
Arguments cons_uart {D}.
Arguments cons_events {D}.

Module Console.

Definition BACKSPACE : Z := 256.
Definition INPUT_BUF : Z := 128.
(** Control-x, for the code of a capital letter. *)
Definition Ctrl (x : Z) : Z := x - 64.
Definition C_P : Z := Ctrl 80.
Definition C_U : Z := Ctrl 85.
Definition C_H : Z := Ctrl 72.
Definition C_D : Z := Ctrl 68.
Definition NL : Z := 10.
Definition CR : Z := 13.
Definition DEL : Z := 127.

Definition ch_cons_r : chan := ChObj "cons.r" 0.

Section Console.
Context {D : Type} `{UartDev D} (spin : nat).

Definition set_r (v : Z) (s : cdev D) : cdev D :=
  MkCons (cons_buf s) v (cons_w s) (cons_e s) (cons_uart s) (cons_events s).
Definition set_w (v : Z) (s : cdev D) : cdev D :=
  MkCons (cons_buf s) (cons_r s) v (cons_e s) (cons_uart s) (cons_events s).
Definition set_e (v : Z) (s : cdev D) : cdev D :=
  MkCons (cons_buf s) (cons_r s) (cons_w s) v (cons_uart s) (cons_events s).
Definition set_buf (v : list Z) (s : cdev D) : cdev D :=
  MkCons v (cons_r s) (cons_w s) (cons_e s) (cons_uart s) (cons_events s).
Definition set_uart (v : uart D) (s : cdev D) : cdev D :=
  MkCons (cons_buf s) (cons_r s) (cons_w s) (cons_e s) v (cons_events s).
Definition cevent (v : cons_event) (s : cdev D) : cdev D :=
  MkCons (cons_buf s) (cons_r s) (cons_w s) (cons_e s) (cons_uart s) (cons_events s ++ [v]).

Definition consputc (c : Z) (u : uart D) : outcome (uart D) :=
  if c =? BACKSPACE then
    u ← uartputc_sync spin 8 u;
    u ← uartputc_sync spin 32 u;
    uartputc_sync spin 8 u
  else uartputc_sync spin c u.

Definition echo (c : Z) (s : cdev D) : outcome (cdev D) :=
  u ← consputc c (cons_uart s); Ret (set_uart u s).

(** The loop of the kill-line case. *)
Fixpoint kill_line (fuel : nat) (s : cdev D) : outcome (cdev D) :=
  if negb (cons_e s =? cons_w s)
     && negb (nth (slot INPUT_BUF (u32 (cons_e s - 1))) (cons_buf s) 0 =? NL) then
    match fuel with
    | O => Fuel
    | S fuel =>
        s ← echo BACKSPACE (set_e (u32 (cons_e s - 1)) s);
        kill_line fuel s
    end
  else Ret s.

Definition consoleintr (c : Z) (s : cdev D) : outcome (cdev D) :=
  if c =? C_P then Ret (cevent CvProcdump s)
  else if c =? C_U then kill_line (Z.to_nat INPUT_BUF) s
  else if (c =? C_H) || (c =? DEL) then
    if negb (cons_e s =? cons_w s) then echo BACKSPACE (set_e (u32 (cons_e s - 1)) s)
    else Ret s
  else if negb (c =? 0) && (u32 (cons_e s - cons_r s) <? INPUT_BUF) then
    let c := if c =? CR then NL else c in
    s ← echo c s;
    let s := set_buf (<[slot INPUT_BUF (cons_e s) := u8 c]> (cons_buf s)) s in
    let s := set_e (u32 (cons_e s + 1)) s in
    if (c =? NL) || (c =? C_D) || (cons_e s =? u32 (cons_r s + INPUT_BUF)) then
      Ret (cevent (CvWakeup ch_cons_r) (set_w (cons_e s) s))
    else Ret s
  else Ret s.

(** [uartintr]: the input characters, then the transmit buffer. *)
Fixpoint uartintr_loop (fuel : nat) (s : cdev D) : outcome (cdev D) :=
  match fuel with
  | O => Fuel
  | S fuel =>
      let '(c, u) := uartgetc (cons_uart s) in
      let s := set_uart u s in
      if c =? -1 then Ret s else
      s ← consoleintr c s;
      uartintr_loop fuel s
  end.

Definition uartintr (fuel : nat) (s : cdev D) : outcome (cdev D) :=
  s ← uartintr_loop fuel s;
  u ← uartstart (cons_uart s);
  Ret (set_uart u s).

Section Copy.
Context {U : Type} `{UM : UserMem U} (killed : Z).

(** [either_copyin] and [either_copyout] of one byte, through [UserMem]. *)
Fixpoint consolewrite_loop (fuel : nat) (src n i : Z) (s : cdev D) (u : U) : outcome (Z * cdev D * U) :=
  if i <? n then
    match fuel with
    | O => Fuel
    | S fuel =>
        '(r, bs, u) ← um_copyin u (u64 (src + i)) 1;
        if r =? -1 then Ret (i, s, u) else
        t ← uartputc (hd 0 bs) (cons_uart s);
        consolewrite_loop fuel src n (i + 1) (set_uart t s) u
    end
  else Ret (i, s, u).

Definition consolewrite (src n : Z) (s : cdev D) (u : U) : outcome (Z * cdev D * U) :=
  consolewrite_loop (Z.to_nat n) src n 0 s u.

(** The loop of [consoleread], with [n] bytes still wanted of [target]. *)
Fixpoint consoleread_loop (fuel : nat) (dst n target : Z) (s : cdev D) (u : U) : outcome (io_res * cdev D * U) :=
  if 0 <? n then
    match fuel with
    | O => Fuel
    | S fuel =>
        if cons_r s =? cons_w s then
          if nz killed then Ret (IoDone (-1), s, u) else Ret (IoSleep n, s, u)
        else
          let c := nth (slot INPUT_BUF (cons_r s)) (cons_buf s) 0 in
          let s := set_r (u32 (cons_r s + 1)) s in
          if c =? C_D then
            let s := if u32 n <? target then set_r (u32 (cons_r s - 1)) s else s in
            Ret (IoDone (s32 (target - n)), s, u)
          else
            '(r, u) ← um_copyout u dst [c];
            if r =? -1 then Ret (IoDone (s32 (target - n)), s, u)
            else if c =? NL then Ret (IoDone (s32 (target - (n - 1))), s, u)
            else consoleread_loop fuel (u64 (dst + 1)) (n - 1) target s u
    end
  else Ret (IoDone (s32 (target - n)), s, u).

(** A run that starts ([n = target]) or resumes with [n] bytes to go. *)
Definition consoleread (dst n target : Z) (s : cdev D) (u : U) : outcome (io_res * cdev D * U) :=
  consoleread_loop (Z.to_nat n) dst n (u32 target) s u.

End Copy.

Definition consoleinit (s : cdev D) : cdev D := set_uart (uartinit (cons_uart s)) s.

(** ** The line editor *)

Definition clen (s : cdev D) : Z := u32 (cons_w s - cons_r s).
Definition plen (s : cdev D) : Z := u32 (cons_e s - cons_w s).

(** Input ready for readers, and the line being edited. *)
Definition committed (s : cdev D) : list Z := region INPUT_BUF (cons_buf s) (cons_r s) (clen s).
Definition pending (s : cdev D) : list Z := region INPUT_BUF (cons_buf s) (cons_w s) (plen s).

Record cons_ok (s : cdev D) : Prop := MkConsOk {
  co_buf : length (cons_buf s) = Z.to_nat INPUT_BUF;
  co_r : 0 <= cons_r s < 2 ^ 32;
  co_w : 0 <= cons_w s < 2 ^ 32;
  co_e : 0 <= cons_e s < 2 ^ 32;
  co_len : clen s + plen s <= INPUT_BUF;
  co_line : NL ∉ pending s;
  co_run : u_panicked (cons_uart s) = 0
}.

(** The effect of input character [c] on (committed, pending). *)
Definition edit (c : Z) (t : list Z * list Z) : list Z * list Z :=
  let '(l, p) := t in
  if c =? C_P then (l, p)
  else if c =? C_U then (l, [])
  else if (c =? C_H) || (c =? DEL) then (l, removelast p)
  else if negb (c =? 0) && (Z.of_nat (length l + length p) <? INPUT_BUF) then
    let c := if c =? CR then NL else c in
    let p := p ++ [c] in
    if (c =? NL) || (c =? C_D) || (Z.of_nat (length l + length p) =? INPUT_BUF) then (l ++ p, [])
    else (l, p)
  else (l, p).

Lemma cons_slot z : u32 z mod INPUT_BUF = z mod INPUT_BUF.
Proof. unfold u32, INPUT_BUF. dlia. Qed.

Lemma lens_range s : 0 <= clen s < 2 ^ 32 /\ 0 <= plen s < 2 ^ 32.
Proof. split; apply u32_range. Qed.

Lemma length_committed s : length (committed s) = Z.to_nat (clen s).
Proof. apply length_region. Qed.
Lemma length_pending s : length (pending s) = Z.to_nat (plen s).
Proof. apply length_region. Qed.

(** Both lists are one region from the read counter on. *)
Lemma both_region s :
  committed s ++ pending s = region INPUT_BUF (cons_buf s) (cons_r s) (clen s + plen s).
Proof.
  pose proof (lens_range s) as [H1 H2]. rewrite region_app by (done || lia). f_equal.
  apply region_mod; [done|]. unfold clen. rewrite (Zplus_mod (cons_r s)), cons_slot, <- Zplus_mod. f_equal. lia.
Qed.

Lemma edit_empty s : cons_ok s -> (cons_e s =? cons_w s) = (plen s =? 0).
Proof.
  intros [_ H1 H2 H3 _ _ _]. unfold plen, u32. apply eq_true_iff_eq. rewrite !Z.eqb_eq. dlia.
Qed.

(** Dropping the last character of the line. *)
Lemma back_spec s : cons_ok s -> plen s <> 0 ->
  let s' := set_e (u32 (cons_e s - 1)) s in
  cons_ok s' /\ committed s' = committed s /\ pending s' = removelast (pending s)
  /\ pending s = pending s' ++ [nth (slot INPUT_BUF (u32 (cons_e s - 1))) (cons_buf s) 0]
  /\ plen s' = plen s - 1.
Proof.
  intros [H0 H1 H2 H3 H4 H5 H6] Hp s'. pose proof (lens_range s) as [Hc Hpl].
  assert (El : plen s' = plen s - 1) by (unfold plen, u32, INPUT_BUF in *; simpl; dlia).
  assert (Ep : pending s = pending s' ++ [nth (slot INPUT_BUF (u32 (cons_e s - 1))) (cons_buf s) 0]).
  { unfold pending. rewrite El. replace (plen s) with ((plen s - 1) + 1) at 1 by lia.
    rewrite region_app by (done || lia). f_equal. rewrite region_cons, region_nil by (done || lia). f_equal. f_equal.
    apply slot_mod. rewrite cons_slot. unfold plen.
    replace (cons_w s + (u32 (cons_e s - cons_w s) - 1)) with (cons_w s - 1 + u32 (cons_e s - cons_w s)) by lia.
    rewrite (Zplus_mod (cons_w s - 1)), cons_slot, <- Zplus_mod. f_equal. lia. }
  split_and!; try done; [|by rewrite Ep, removelast_last].
  split; try done; [apply u32_range| |].
  - change (clen s') with (clen s). lia.
  - intros Hin. apply H5. rewrite Ep. apply elem_of_app. by left.
Qed.

(** The transmitter always becomes idle within the polling bound. *)
Definition tx_ready : Prop := forall u : uart D, exists u', wait_idle spin u = Ret u'.

Lemma wait_idle_panicked fuel u u' : wait_idle fuel u = Ret u' -> u_panicked u' = u_panicked u.
Proof.
  revert u. induction fuel as [|fuel IH]; intros u; simpl; [done|]. unfold ReadReg.
  destruct (dev_read (u_dev u) LSR) as [lsr d]. case_if; [intros E1; by rewrite (IH _ E1)|by intros [= <-]].
Qed.

Section Editing.
Hypothesis Hready : tx_ready.

Lemma sync_returns c u : u_panicked u = 0 ->
  exists u', uartputc_sync spin c u = Ret u' /\ u_panicked u' = 0.
Proof using Hready.
  intros Hp. unfold uartputc_sync. rewrite Hp. change (nz 0) with false. cbv iota.
  destruct (Hready u) as [u1 E]. rewrite E. cbn [mbind outcome_bind]. eexists. split; [done|].
  simpl. by rewrite (wait_idle_panicked _ _ _ E).
Qed.

Lemma echo_returns c s : u_panicked (cons_uart s) = 0 ->
  exists u, echo c s = Ret (set_uart u s) /\ u_panicked u = 0.
Proof using Hready.
  intros Hp. unfold echo, consputc. case_if.
  - destruct (sync_returns 8 _ Hp) as (u1 & -> & P1). cbn [mbind outcome_bind].
    destruct (sync_returns 32 _ P1) as (u2 & -> & P2). cbn [mbind outcome_bind].
    destruct (sync_returns 8 _ P2) as (u3 & -> & P3). by exists u3.
  - destruct (sync_returns c _ Hp) as (u1 & -> & P1). by exists u1.
Qed.

Lemma set_uart_ok u s : cons_ok s -> u_panicked u = 0 -> cons_ok (set_uart u s).
Proof using. intros [] Hp. by split. Qed.

Lemma kill_line_spec fuel s : cons_ok s -> (Z.to_nat (plen s) <= fuel)%nat ->
  exists s', kill_line fuel s = Ret s' /\ cons_ok s' /\ committed s' = committed s /\ pending s' = [] /\ cons_events s' = cons_events s.
Proof using Hready.
  revert s. induction fuel as [|fuel IH]; intros s Hs Hf; cbn [kill_line]; rewrite (edit_empty s Hs);
    pose proof (lens_range s) as [_ Hpl]; destruct (Z.eqb_spec (plen s) 0) as [E|E]; cbn [negb andb].
  - exists s. split_and!; try done. by apply region_nil; lia.
  - lia.
  - exists s. split_and!; try done. by apply region_nil; lia.
  - destruct (back_spec s Hs E) as (Hok & Hc & _ & Hp & Hl).
    assert (Hnl : (nth (slot INPUT_BUF (u32 (cons_e s - 1))) (cons_buf s) 0 =? NL) = false).
    { apply Z.eqb_neq. intros En. apply (co_line _ Hs). rewrite Hp, En. apply elem_of_app. right. constructor. }
    rewrite Hnl. cbn [negb]. destruct (echo_returns BACKSPACE (set_e (u32 (cons_e s - 1)) s)) as (u & -> & Hu);
      [by destruct Hs|]. cbn [mbind outcome_bind].
    destruct (IH (set_uart u (set_e (u32 (cons_e s - 1)) s))) as (s' & -> & Hs' & Hc' & Hp' & He').
    + by apply set_uart_ok.
    + change (plen (set_uart u ?t)) with (plen t). lia.
    + exists s'. split_and!; try done.
Qed.

(** Storing a character at the end of the line. *)
Lemma store_spec c s : cons_ok s -> clen s + plen s < INPUT_BUF -> 0 <= c < 256 ->
  let s' := set_e (u32 (cons_e s + 1)) (set_buf (<[slot INPUT_BUF (cons_e s) := u8 c]> (cons_buf s)) s) in
  committed s' = committed s /\ pending s' = pending s ++ [c] /\ plen s' = plen s + 1
  /\ length (cons_buf s') = Z.to_nat INPUT_BUF.
Proof using.
  intros [H0 H1 H2 H3 H4 H5 H6] Hl Hc s'. pose proof (lens_range s) as [Hcl Hpl].
  assert (El : plen s' = plen s + 1) by (unfold clen, plen, u32, INPUT_BUF in *; simpl; dlia).
  assert (Es : slot INPUT_BUF (cons_e s) = slot INPUT_BUF (cons_r s + (clen s + plen s))).
  { apply slot_mod. unfold clen, plen, u32, INPUT_BUF. dlia. }
  assert (Eb : committed s' ++ pending s' = committed s ++ pending s ++ [c]).
  { rewrite both_region, app_assoc, both_region, El. change (clen s') with (clen s). rewrite Z.add_assoc.
    rewrite <- region_snoc; [|done|rewrite H0; unfold INPUT_BUF; lia|lia].
    simpl. rewrite Es, u8_small by lia. done. }
  assert (Elen : length (committed s') = length (committed s)) by (rewrite !length_committed; done).
  destruct (app_inj_1 _ _ _ _ Elen Eb) as [E1 E2].
  split_and!; try done. simpl. by rewrite length_insert.
Qed.

(** The default case: the character is stored, and the line is handed over when
    it is complete or the buffer is full. *)
Lemma store_line c s : cons_ok s -> clen s + plen s < INPUT_BUF -> 0 <= c < 256 ->
  let s1 := set_e (u32 (cons_e s + 1)) (set_buf (<[slot INPUT_BUF (cons_e s) := u8 c]> (cons_buf s)) s) in
  let p := pending s ++ [c] in
  let s' := if (c =? NL) || (c =? C_D) || (cons_e s1 =? u32 (cons_r s1 + INPUT_BUF))
            then cevent (CvWakeup ch_cons_r) (set_w (cons_e s1) s1) else s1 in
  cons_ok s' /\ (committed s', pending s') =
    (if (c =? NL) || (c =? C_D) || (Z.of_nat (length (committed s) + length p) =? INPUT_BUF)
     then (committed s ++ p, []) else (committed s, p))
  /\ cons_events s' = cons_events s ++ (if decide (committed s' = committed s) then [] else [CvWakeup ch_cons_r]).
Proof using.
  intros Hs Hl Hc. destruct (store_spec c s Hs Hl Hc) as (E1 & E2 & E3 & E4). cbv zeta.
  set (s1 := set_e _ _) in *. pose proof (lens_range s) as [Hcl Hpl].
  assert (Efull : (cons_e s1 =? u32 (cons_r s1 + INPUT_BUF)) =
    (Z.of_nat (length (committed s) + length (pending s ++ [c])) =? INPUT_BUF)).
  { rewrite length_app, length_committed, length_pending. simpl length.
    destruct Hs as [_ H1 H2 H3 H4 _ _]. apply eq_true_iff_eq. rewrite !Z.eqb_eq.
    replace (Z.of_nat (Z.to_nat (clen s) + (Z.to_nat (plen s) + 1))) with (clen s + plen s + 1) by lia.
    unfold clen, plen, u32, INPUT_BUF in *. simpl. dlia. }
  rewrite Efull. destruct ((c =? NL) || (c =? C_D) || _) eqn:Ecommit.
  - set (s2 := cevent _ _).
    assert (Ec2 : clen s2 = clen s + plen s + 1).
    { destruct Hs as [_ H1 H2 H3 H4 _ _]. unfold clen, plen, u32, INPUT_BUF in *. simpl. dlia. }
    assert (Ep2 : plen s2 = 0) by (unfold plen; simpl; by rewrite Z.sub_diag).
    assert (Epn : pending s2 = []) by (apply region_nil; lia).
    assert (Ecm : committed s2 = committed s ++ pending s ++ [c]).
    { rewrite <- E1, <- E2, both_region. change (clen s1) with (clen s). rewrite E3.
      unfold committed. rewrite Ec2. by rewrite Z.add_assoc. }
    split; [|split; [by rewrite Epn, Ecm|]].
    + destruct Hs as [H0 H1 H2 H3 H4 H5 H6]. split; try done; try (apply u32_range); [rewrite Ec2, Ep2; lia|].
      rewrite Epn. apply not_elem_of_nil.
    + rewrite decide_False; [done|]. rewrite Ecm. intros E. apply (f_equal length) in E. rewrite !length_app in E. simpl in E. lia.
  - split; [|split; [by rewrite E1, E2|by rewrite decide_True, app_nil_r]].
    destruct Hs as [H0 H1 H2 H3 H4 H5 H6]. split; try done; [apply u32_range| |].
    + change (clen s1) with (clen s). lia.
    + rewrite E2, elem_of_app, list_elem_of_singleton. intros [Hin|Hn]; [done|].
      rewrite <- Hn in Ecommit. discriminate Ecommit.
Qed.

(** The effects of a character: the process list on ^P, and a wakeup exactly
    when the input that readers can have has grown. *)
Definition edit_events (c : Z) (s s' : cdev D) : list cons_event :=
  if c =? C_P then [CvProcdump]
  else if decide (committed s' = committed s) then [] else [CvWakeup ch_cons_r].

Lemma consoleintr_spec c s : cons_ok s -> 0 <= c < 256 ->
  exists s', consoleintr c s = Ret s' /\ cons_ok s'
    /\ (committed s', pending s') = edit c (committed s, pending s)
    /\ cons_events s' = cons_events s ++ edit_events c s s'.
Proof using Hready.
  intros Hs Hc. unfold consoleintr, edit, edit_events.
  destruct (c =? C_P). { eexists. split; [done|]. by destruct Hs. }
  destruct (c =? C_U).
  { destruct (kill_line_spec (Z.to_nat INPUT_BUF) s Hs) as (s' & -> & Hs' & Ec & Ep & Ee);
      [|exists s'; rewrite Ec, Ep, Ee, decide_True, app_nil_r by done; by split_and!].
    pose proof (co_len _ Hs). pose proof (lens_range s). lia. }
  destruct ((c =? C_H) || (c =? DEL)).
  { rewrite (edit_empty s Hs). destruct (Z.eqb_spec (plen s) 0) as [E|E]; cbn [negb].
    - exists s. rewrite decide_True, app_nil_r by done. split_and!; try done. f_equal. unfold pending; by rewrite (region_nil _ _ _ (plen s)) by lia.
    - destruct (back_spec s Hs E) as (Hok & Hc1 & Hp & _ & _).
      destruct (echo_returns BACKSPACE (set_e (u32 (cons_e s - 1)) s)) as (u & -> & Hu); [by destruct Hs|].
      eexists. split; [done|]. split; [by apply set_uart_ok|]. rewrite <- Hp. split; [by rewrite <- Hc1 at 1|].
      rewrite decide_True; [by rewrite app_nil_r|exact Hc1]. }
  assert (Ecmp : (u32 (cons_e s - cons_r s) <? INPUT_BUF) = (Z.of_nat (length (committed s) + length (pending s)) <? INPUT_BUF)).
  { rewrite length_committed, length_pending. pose proof (lens_range s) as [Hcl Hpl]. pose proof (co_len _ Hs) as Hlen.
    replace (Z.of_nat (Z.to_nat (clen s) + Z.to_nat (plen s))) with (clen s + plen s) by lia.
    f_equal. destruct Hs as [_ H1 H2 H3 _ _ _]. unfold clen, plen, u32, INPUT_BUF in *. dlia. }
  rewrite Ecmp. destruct (negb (c =? 0) && _) eqn:Eroom; [|exists s; rewrite decide_True, app_nil_r by done; by split_and!].
  apply andb_true_iff in Eroom as [_ Eroom]. apply Z.ltb_lt in Eroom.
  set (c' := if c =? CR then NL else c).
  assert (Hc' : 0 <= c' < 256) by (unfold c', NL; case_if; lia).
  destruct (echo_returns c' s) as (u & -> & Hu); [by destruct Hs|]. cbn [mbind outcome_bind].
  rewrite length_committed, length_pending in Eroom. pose proof (lens_range s) as [Hcl Hpl].
  pose proof (store_line c' (set_uart u s) (set_uart_ok u s Hs Hu)) as HL.
  change (clen (set_uart u s)) with (clen s) in HL. change (plen (set_uart u s)) with (plen s) in HL.
  specialize (HL ltac:(lia) Hc'). cbv zeta in HL |- *.
  match goal with |- exists s', (if ?b then Ret ?x else Ret ?y) = _ /\ _ => exists (if b then x else y) end.
  split; [by case_if|exact HL].
Qed.

End Editing.

(** ** Reading lines *)

(** A read of [n] bytes from the committed input [l]; [fresh] says that
    nothing has been delivered yet.  The result: whether the reader must wait
    for more input, the bytes delivered, and the input left. *)
Fixpoint read_line (n : nat) (fresh : bool) (l : list Z) : bool * list Z * list Z :=
  match n with
  | O => (false, [], l)
  | S n =>
      match l with
      | [] => (true, [], [])
      | c :: l' =>
          if c =? C_D then (false, [], if fresh then l' else l)
          else if c =? NL then (false, [c], l')
          else let '(wait, d, rest) := read_line n false l' in (wait, c :: d, rest)
      end
  end.

Section Reading.
Context {U : Type} {UM : UserMem U} {UL : UserMemLaws U} (killed : Z).

Lemma next_spec s : cons_ok s -> clen s <> 0 ->
  let s' := set_r (u32 (cons_r s + 1)) s in
  cons_ok s' /\ committed s = nth (slot INPUT_BUF (cons_r s)) (cons_buf s) 0 :: committed s'
  /\ pending s' = pending s.
Proof using.
  intros [H0 H1 H2 H3 H4 H5 H6] Hc s'. pose proof (lens_range s) as [Hcl Hpl].
  assert (El : clen s' = clen s - 1) by (unfold clen, u32, INPUT_BUF in *; simpl; dlia).
  split_and!; [|unfold committed|done].
  - split; try done; [apply u32_range|]. rewrite El. change (plen s') with (plen s). lia.
  - rewrite El, (region_cons INPUT_BUF eq_refl (cons_buf s) (cons_r s) (clen s)) by lia.
    apply (f_equal2 List.cons); [done|]. apply region_mod; [done|]. simpl. by rewrite cons_slot.
Qed.

Lemma read_empty s : cons_ok s -> (cons_r s =? cons_w s) = (clen s =? 0).
Proof using.
  intros [_ H1 H2 H3 _ _ _]. unfold clen, u32. apply eq_true_iff_eq. rewrite !Z.eqb_eq. dlia.
Qed.

(** A read of [n] of [target] bytes, from [committed s] to [dst]: the bytes that
    [read_line] says arrive in order, and the call ends, or waits, as it says
    (with -1 if the caller was killed); or the copy of one of them is refused,
    the bytes before it have arrived and are counted, and that byte is lost. *)
Definition read_post (dst n target : Z) (s : cdev D) (u : U) (res : io_res) (s' : cdev D) (u' : U) : Prop :=
  let '(wait, d, rest) := read_line (Z.to_nat n) (n =? target) (committed s) in
  cons_ok s' /\ pending s' = pending s /\ cons_events s' = cons_events s
  /\ (writes_to u dst d u' /\ committed s' = rest
       /\ res = (if (wait : bool) then if decide (killed = 0) then IoSleep (n - Z.of_nat (length d)) else IoDone (-1)
                 else IoDone (target - n + Z.of_nat (length d)))
      \/ exists d1 b d2 u1, d = d1 ++ b :: d2 /\ writes_to u dst d1 u1
           /\ um_copyout u1 (u64 (dst + Z.of_nat (length d1))) [b] = Ret (-1, u')
           /\ committed s = d1 ++ b :: committed s' /\ res = IoDone (target - n + Z.of_nat (length d1))).

(** One byte more in front. *)
Lemma read_post_cons dst n target s s1 c u u1 res s' u' :
  0 <= dst < 2 ^ 64 -> 0 <= n < target -> committed s = c :: committed s1 -> pending s1 = pending s -> cons_events s1 = cons_events s ->
  (c =? C_D) = false -> (c =? NL) = false -> um_copyout u dst [c] = Ret (0, u1) ->
  read_post (u64 (dst + 1)) n target s1 u1 res s' u' -> read_post dst (n + 1) target s u res s' u'.
Proof.
  intros Hd Hn Hc Hp He Ed En E1 Hpost. unfold read_post in *. rewrite Hc. replace (Z.to_nat (n + 1)) with (S (Z.to_nat n)) by lia.
  cbn [read_line]. rewrite Ed, En. rewrite (proj2 (Z.eqb_neq n target)) in Hpost by lia.
  destruct (read_line (Z.to_nat n) false (committed s1)) as [[wait d] rest].
  destruct Hpost as (Hok & Hp' & He' & Hpost). split; [done|]. split; [congruence|]. split; [congruence|].
  assert (W : forall ds u2, writes_to u1 (u64 (dst + 1)) ds u2 -> writes_to u dst (c :: ds) u2).
  { intros ds u2 W. apply (writes_cons u dst c u1); [by rewrite u64_small|]. by apply writes_to_u64. }
  destruct Hpost as [(Hw & Hr & Hres)|(d1 & b & d2 & u2 & -> & Hw & Ef & Hr & Hres)]; [left|right].
  - split; [by apply W|]. split; [done|]. rewrite Hres. simpl length. destruct wait; [case_decide; [|done]|]; f_equal; lia.
  - exists (c :: d1), b, d2, u2. split; [done|]. split; [by apply W|]. split; [|split; [by rewrite Hr|rewrite Hres; f_equal; simpl length; lia]].
    rewrite <- Ef. f_equal. unfold u64. rewrite Zplus_mod_idemp_l. f_equal. simpl length. lia.
Qed.

Lemma consoleread_loop_spec n dst target s u :
  cons_ok s -> 0 <= dst < 2 ^ 64 -> Z.of_nat n <= target < 2 ^ 31 ->
  exists res s' u', consoleread_loop killed n dst (Z.of_nat n) target s u = Ret (res, s', u')
    /\ read_post dst (Z.of_nat n) target s u res s' u'.
Proof using UL.
  revert dst s u. induction n as [|n IH]; intros dst s u Hs Hd Ht; cbn [consoleread_loop].
  - change (0 <? Z.of_nat 0) with false. cbv iota. eexists _, _, _. split; [done|]. unfold read_post. cbn [Z.to_nat read_line].
    split_and!; try done. left. split; [constructor|]. split; [done|]. f_equal. rewrite s32_small; cbn [length]; lia.
  - rewrite (proj2 (Z.ltb_lt _ _)) by lia. rewrite (read_empty s Hs). destruct (Z.eqb_spec (clen s) 0) as [E|E].
    + assert (En : committed s = []) by (apply region_nil; lia).
      exists (if nz killed then IoDone (-1) else IoSleep (Z.of_nat (S n))), s, u. split; [by destruct (nz killed)|].
      unfold read_post. rewrite Nat2Z.id, En. cbn [read_line]. split_and!; try done. left. split; [constructor|]. split; [done|].
      unfold nz. destruct (Z.eqb_spec killed 0); cbn [negb]; case_decide; try done.
    + destruct (next_spec s Hs E) as (Hok & Hc & Hp).
      set (c := nth (slot INPUT_BUF (cons_r s)) (cons_buf s) 0) in *. set (s1 := set_r _ s) in *.
      destruct (c =? C_D) eqn:Ed.
      { exists (IoDone (target - Z.of_nat (S n))), (if Z.of_nat (S n) =? target then s1 else s), u. split.
        - rewrite u32_small by lia. rewrite s32_small by lia. destruct (Z.eqb_spec (Z.of_nat (S n)) target) as [Et|Et].
          + by rewrite (proj2 (Z.ltb_ge _ _)) by lia.
          + rewrite (proj2 (Z.ltb_lt _ _)) by lia. do 3 f_equal. destruct Hs as [_ H1 _ _ _ _ _]. unfold s1, set_r. simpl.
            replace (u32 (u32 (cons_r s + 1) - 1)) with (cons_r s) by (unfold u32; dlia). by destruct s.
        - unfold read_post. rewrite Nat2Z.id, Hc. cbn [read_line]. rewrite Ed. split; [by case_if|]. split; [by case_if|]. split; [by case_if|].
          left. split; [constructor|]. split; [by case_if|]. f_equal. simpl length. lia. }
      destruct (um_copyout1 u dst c) as (r & u1 & E1 & Hr). rewrite E1. cbn [mbind outcome_bind].
      destruct (Z.eqb_spec r (-1)) as [->|Hr1].
      { eexists _, _, _. split; [done|]. unfold read_post. rewrite Nat2Z.id, Hc. cbn [read_line]. rewrite Ed.
        destruct (c =? NL); [|destruct (read_line n false (committed s1)) as [[wait d] rest]];
          (split; [done|]; split; [done|]; split; [done|]); right; eexists [], c, _, u;
          (split; [done|]; split; [constructor|]; split; [simpl; rewrite Z.add_0_r, u64_small by done; exact E1|]; split; [done|]);
          f_equal; rewrite s32_small; simpl length; lia. }
      destruct Hr as [->|?]; [|lia]. destruct (c =? NL) eqn:En.
      { eexists _, _, _. split; [done|]. unfold read_post. rewrite Nat2Z.id, Hc. cbn [read_line]. rewrite Ed, En.
        split_and!; try done. left. split; [apply (writes_snoc u dst [] u); [constructor|simpl; rewrite Z.add_0_r, u64_small by done; exact E1]|].
        split; [done|]. f_equal. rewrite s32_small; simpl length; lia. }
      replace (Z.of_nat (S n) - 1) with (Z.of_nat n) by lia.
      destruct (IH (u64 (dst + 1)) s1 u1 Hok (u64_range _) ltac:(lia)) as (res & s' & u' & E' & Hpost). exists res, s', u'. split; [exact E'|].
      replace (Z.of_nat (S n)) with (Z.of_nat n + 1) by lia. by eapply read_post_cons; [done|lia|..].
Qed.

End Reading.

(** (C13) The console is a line editor.  In every configuration of the counters (which
    wrap at 2^32), with a transmitter that becomes idle within the polling
    bound, [consoleintr] completes and acts on the pair (committed input, line
    being edited) as [edit] says: ^U clears the line, ^H and DEL drop its last
    character, other characters are appended while fewer than 128 are held, and
    a newline, ^D or a full buffer commits the line; readers are woken exactly
    when input was committed.  [consoleread], started or resumed with [n] of
    [target] bytes to go, stores at [dst] in order what [read_line] says: the
    committed bytes up to a newline, to ^D (kept for the next read unless it
    comes first) or to the count; it waits exactly when they run out, or
    returns -1 if the caller was killed; and a refused copy ends it with the
    number of bytes stored so far. *)
Theorem console_line_editor {U} `{UL : UserMemLaws U} killed c s n target dst (u : U) :
  tx_ready -> cons_ok s -> 0 <= c < 256 -> 0 <= n <= target -> target < 2 ^ 31 -> 0 <= dst < 2 ^ 64 ->
  (exists s', consoleintr c s = Ret s' /\ cons_ok s'
     /\ (committed s', pending s') = edit c (committed s, pending s)
     /\ cons_events s' = cons_events s ++ edit_events c s s')
  /\ exists res s' u', consoleread killed dst n target s u = Ret (res, s', u') /\ read_post killed dst n target s u res s' u'.
Proof.
  intros Hr Hs Hc Hn Ht Hd. split; [by apply consoleintr_spec|]. unfold consoleread. rewrite u32_small by lia.
  pose proof (consoleread_loop_spec killed (Z.to_nat n) dst target s u Hs Hd ltac:(lia)) as Hl. by rewrite Z2Nat.id in Hl by lia.
Qed.

End Console.

(** ** Concrete instance *)

(** "hi" and a newline committed, "x" being edited, counters about to wrap. *)
Definition demo_cons : cdev unit :=
  MkCons (<[0%nat := 120]> (<[127%nat := 10]> (<[126%nat := 105]> (<[125%nat := 104]> (replicate 128 0)))))
    (2 ^ 32 - 3) 0 1 (MkUart [] 0 0 0 tt [] []) [].

Lemma console_line_editor_witness :
  (exists s', consoleintr 1 C_U demo_cons = Ret s' /\ (committed s', pending s') = ([104; 105; 10], []))
  /\ exists res s' u', consoleread 0 1 10 10 demo_cons [0; 0; 0; 0; 0] = Ret (res, s', u')
       /\ read_post 0 1 10 10 demo_cons [0; 0; 0; 0; 0] res s' u'.
Proof.
  destruct (console_line_editor 1 0 C_U demo_cons 10 10 1 [0; 0; 0; 0; 0]) as [(s' & E & _ & Hc & _) Hr].
  - intros u. destruct u. eexists. reflexivity.
  - split; try reflexivity; try (vm_compute; by split).
    + vm_compute. discriminate.
    + intros Hin. vm_compute in Hin. apply elem_of_cons in Hin as [Hin|Hin]; [discriminate|].
      by apply elem_of_nil in Hin.
  - vm_compute. by split.
  - lia.
  - lia.
  - lia.
  - split; [|exact Hr]. exists s'. split; [exact E|]. rewrite Hc. reflexivity.
Defined.

End Console.
