(* ===== verification/Spinlock.v ===== *)
(** * kernel/spinlock.c: spin locks and interrupt masking

    The CPUs interleave at the granularity of single accesses to the fields of a
    lock: [holding] is a load of [locked] and then of [cpu]; an [acquire] is the
    masking of interrupts, [holding], one or more atomic swaps of [locked] and
    the store of [cpu]; a [release] is [holding], the store of [cpu], the store
    of [locked] and [pop_off].  [pcs] says where a CPU is inside such a call.
    Mutual exclusion, the accuracy of [holding] while other CPUs are half way
    through their calls, and the masking of interrupts are invariants of all
    interleavings.  [noff] is an [int]; it cannot overflow since a CPU cannot
    hold more locks than there are. *)

From S2P Require Import Prelude.
From stdpp Require Import base list numbers gmap strings sets relations.
From Stdlib Require Import ZArith Lia.

#[local] Open Scope Z_scope.

(** [struct spinlock]; [lk_cpu] is the index of the holding CPU. *)
Record spinlock : Type := MkSpinlock {
  lk_locked : Z;
  lk_cpu : option nat
}.

(** The fields of [struct cpu] used here, and the interrupt enable bit of
    sstatus. *)
Record cpu : Type := MkCpu {
  c_noff : Z;
  c_intena : bool;
  c_intr : bool
}.

Module Spinlock.

Definition initlock : spinlock := MkSpinlock 0 None.

Definition push_off (c : cpu) : cpu :=
  let old := c_intr c in
  MkCpu (s32 (c_noff c + 1)) (if c_noff c =? 0 then old else c_intena c) false.

Definition pop_off (c : cpu) : outcome cpu :=
  if c_intr c then Panic "pop_off - interruptible"
  else if c_noff c <? 1 then Panic "pop_off"
  else
    let c := MkCpu (s32 (c_noff c - 1)) (c_intena c) (c_intr c) in
    Ret (if (c_noff c =? 0) && c_intena c then MkCpu (c_noff c) (c_intena c) true else c).

(** The two loads of [holding]; [me] is [mycpu()]. *)
Definition load_locked (lk : spinlock) : bool := nz (lk_locked lk).
Definition load_cpu (me : nat) (lk : spinlock) : bool := bool_decide (lk_cpu lk = Some me).

Definition holding (me : nat) (lk : spinlock) : bool := load_locked lk && load_cpu me lk.

(** [__sync_lock_test_and_set(&lk->locked, 1)]: the old value and the new lock. *)
Definition test_and_set (lk : spinlock) : Z * spinlock := (lk_locked lk, MkSpinlock 1 (lk_cpu lk)).

(** [lk->cpu = mycpu()], [lk->cpu = 0] and [__sync_lock_release(&lk->locked)]. *)
Definition store_cpu (me : option nat) (lk : spinlock) : spinlock := MkSpinlock (lk_locked lk) me.
Definition lock_release (lk : spinlock) : spinlock := MkSpinlock 0 (lk_cpu lk).

(** [acquire] and [release] as one step, for a CPU that runs alone. *)
Definition acquire (me : nat) (lk : spinlock) (c : cpu) : outcome (spinlock * cpu) :=
  let c := push_off c in
  if holding me lk then Panic "acquire" else
  let '(old, lk) := test_and_set lk in
  if nz old then Blocked "acquire" else Ret (store_cpu (Some me) lk, c).

Definition release (me : nat) (lk : spinlock) (c : cpu) : outcome (spinlock * cpu) :=
  if negb (holding me lk) then Panic "release" else
  let lk := lock_release (store_cpu None lk) in
  c ← pop_off c;
  Ret (lk, c).

(** ** Interleaved execution *)

(** Who called [holding]. *)
Inductive caller : Type := Acquiring | Releasing | Asking.

(** Where a CPU is: outside these routines; in [holding], before its load of
    [locked] or, having seen it set, of [cpu]; back from a [holding] of its own
    with the answer; in the loop of [acquire], or past its successful swap; in
    [release], before the store of [cpu], of [locked], or before [pop_off].  A
    CPU that panics stays where it is. *)
Inductive pcs : Type :=
| Run
| Load1 (w : caller) (l : nat)
| Load2 (w : caller) (l : nat)
| Said (l : nat) (b : bool)
| Spin (l : nat)
| Got (l : nat)
| Clear (l : nat)
| Rel (l : nat)
| Pop (l : nat)
| Dead (msg : string) (l : nat).

(** What follows the answer [b] of [holding]. *)
Definition answered (w : caller) (l : nat) (b : bool) : pcs :=
  match w with
  | Acquiring => if b then Dead "acquire" l else Spin l
  | Releasing => if b then Clear l else Dead "release" l
  | Asking => Said l b
  end.

(** One CPU: its interrupt state, position, and the locks it has acquired. *)
Record core : Type := MkCore {
  k_cpu : cpu;
  k_pc : pcs;
  k_held : list nat
}.

Record machine : Type := MkMachine {
  m_lock : nat -> spinlock;
  m_core : nat -> core
}.

Definition upd_lock (l : nat) (v : spinlock) (m : machine) : machine :=
  MkMachine (fun l' => if decide (l' = l) then v else m_lock m l') (m_core m).
Definition upd_core (c : nat) (v : core) (m : machine) : machine :=
  MkMachine (m_lock m) (fun c' => if decide (c' = c) then v else m_core m c').
Definition at_pc (p : pcs) (k : core) : core := MkCore (k_cpu k) p (k_held k).

Section Machine.
Context (nlocks : nat).

(** A step of CPU [c] with at most one access to a lock; the locks are those
    numbered below [nlocks].  [step_intr] is any change of the interrupt bit
    while no lock is held; [holding] on its own needs interrupts off, as its
    comment says. *)
Inductive step (c : nat) (m : machine) : machine -> Prop :=
| step_acquire l :
    k_pc (m_core m c) = Run -> (l < nlocks)%nat ->
    step c m (upd_core c (MkCore (push_off (k_cpu (m_core m c))) (Load1 Acquiring l) (k_held (m_core m c))) m)
| step_release l :
    k_pc (m_core m c) = Run -> (l < nlocks)%nat ->
    step c m (upd_core c (at_pc (Load1 Releasing l) (m_core m c)) m)
| step_holding l :
    k_pc (m_core m c) = Run -> (l < nlocks)%nat -> c_intr (k_cpu (m_core m c)) = false ->
    step c m (upd_core c (at_pc (Load1 Asking l) (m_core m c)) m)
| step_locked w l :
    k_pc (m_core m c) = Load1 w l ->
    step c m (upd_core c (at_pc (if load_locked (m_lock m l) then Load2 w l else answered w l false) (m_core m c)) m)
| step_cpu w l :
    k_pc (m_core m c) = Load2 w l ->
    step c m (upd_core c (at_pc (answered w l (load_cpu c (m_lock m l))) (m_core m c)) m)
| step_said l b :
    k_pc (m_core m c) = Said l b ->
    step c m (upd_core c (at_pc Run (m_core m c)) m)
| step_swap l :
    k_pc (m_core m c) = Spin l ->
    step c m (upd_lock l (snd (test_and_set (m_lock m l)))
               (upd_core c (at_pc (if nz (fst (test_and_set (m_lock m l))) then Spin l else Got l) (m_core m c)) m))
| step_own l :
    k_pc (m_core m c) = Got l ->
    step c m (upd_lock l (store_cpu (Some c) (m_lock m l))
               (upd_core c (MkCore (k_cpu (m_core m c)) Run (l :: k_held (m_core m c))) m))
| step_clear l :
    k_pc (m_core m c) = Clear l ->
    step c m (upd_lock l (store_cpu None (m_lock m l))
               (upd_core c (MkCore (k_cpu (m_core m c)) (Rel l) (List.remove Nat.eq_dec l (k_held (m_core m c)))) m))
| step_unlock l :
    k_pc (m_core m c) = Rel l ->
    step c m (upd_lock l (lock_release (m_lock m l)) (upd_core c (at_pc (Pop l) (m_core m c)) m))
| step_pop l k :
    k_pc (m_core m c) = Pop l -> pop_off (k_cpu (m_core m c)) = Ret k ->
    step c m (upd_core c (MkCore k Run (k_held (m_core m c))) m)
| step_pop_panic l msg :
    k_pc (m_core m c) = Pop l -> pop_off (k_cpu (m_core m c)) = Panic msg ->
    step c m (upd_core c (at_pc (Dead msg l) (m_core m c)) m)
| step_intr b :
    k_pc (m_core m c) = Run -> c_noff (k_cpu (m_core m c)) = 0 ->
    step c m (upd_core c (MkCore (MkCpu 0 (c_intena (k_cpu (m_core m c))) b) Run (k_held (m_core m c))) m).

Definition mstep (m m' : machine) : Prop := exists c, step c m m'.

(** CPU [c] is inside its critical section for [l], from its successful swap to
    the clearing of [locked]. *)
Definition owns (k : core) (l : nat) : Prop := k_pc k = Got l \/ k_pc k = Rel l \/ l ∈ k_held k.

(** Between the [push_off] of an [acquire] and the end of it, or in a [release]
    past its check. *)
Definition in_call (p : pcs) : bool :=
  match p with
  | Load1 Acquiring _ | Load2 Acquiring _ | Spin _ | Got _ | Rel _ | Pop _ => true
  | _ => false
  end.

Definition alive (p : pcs) : bool := match p with Dead _ _ => false | _ => true end.

Definition depth (k : core) : Z := Z.of_nat (length (k_held k)) + (if in_call (k_pc k) then 1 else 0).

(** What the position of a CPU says of the locks it holds. *)
Definition pc_ok (p : pcs) (held : list nat) : Prop :=
  match p with
  | Run | Pop _ => True
  | Load1 _ l | Load2 _ l => (l < nlocks)%nat
  | Said l b => b = true <-> l ∈ held
  | Spin l | Got l | Rel l => (l < nlocks)%nat /\ l ∉ held
  | Clear l => l ∈ held
  | Dead msg l => msg = "acquire"%string /\ l ∈ held \/ msg = "release"%string /\ l ∉ held
  end.

Record lock_inv (m : machine) : Prop := MkLockInv {
  li_owner : forall c1 c2 l, owns (m_core m c1) l -> owns (m_core m c2) l -> c1 = c2;
  li_locked : forall l, lk_locked (m_lock m l) = 1 /\ (exists c, owns (m_core m c) l)
                     \/ lk_locked (m_lock m l) = 0 /\ (forall c, ~ owns (m_core m c) l);
  li_cpu : forall l c, lk_cpu (m_lock m l) = Some c <-> l ∈ k_held (m_core m c);
  li_nodup : forall c, NoDup (k_held (m_core m c));
  li_range : forall c l, l ∈ k_held (m_core m c) -> (l < nlocks)%nat;
  li_pc : forall c, pc_ok (k_pc (m_core m c)) (k_held (m_core m c));
  li_noff : forall c, alive (k_pc (m_core m c)) = true -> c_noff (k_cpu (m_core m c)) = depth (m_core m c);
  li_intr : forall c, alive (k_pc (m_core m c)) = true ->
              c_noff (k_cpu (m_core m c)) <> 0 -> c_intr (k_cpu (m_core m c)) = false
}.

(** ** The invariant *)

Lemma core_upd c v m c' : m_core (upd_core c v m) c' = if decide (c' = c) then v else m_core m c'.
Proof. done. Qed.
Lemma lock_upd l v m l' : m_lock (upd_lock l v m) l' = if decide (l' = l) then v else m_lock m l'.
Proof. done. Qed.

(** Rebuilding the invariant when the owners and the [locked] words stay. *)
Lemma inv_same_owners m m' :
  lock_inv m ->
  (forall c l, owns (m_core m' c) l <-> owns (m_core m c) l) ->
  (forall l, lk_locked (m_lock m' l) = lk_locked (m_lock m l)) ->
  (forall l c, lk_cpu (m_lock m' l) = Some c <-> l ∈ k_held (m_core m' c)) ->
  (forall c, NoDup (k_held (m_core m' c)) /\ (forall l, l ∈ k_held (m_core m' c) -> (l < nlocks)%nat)
             /\ pc_ok (k_pc (m_core m' c)) (k_held (m_core m' c))) ->
  (forall c, alive (k_pc (m_core m' c)) = true ->
     c_noff (k_cpu (m_core m' c)) = depth (m_core m' c)
     /\ (c_noff (k_cpu (m_core m' c)) <> 0 -> c_intr (k_cpu (m_core m' c)) = false)) ->
  lock_inv m'.
Proof.
  intros H Ho Hl Hc Hn Hd. split; try done.
  - intros c1 c2 l. rewrite !Ho. apply H.
  - intros l. rewrite Hl. destruct (li_locked m H l) as [[E [c Hoc]]|[E Hno]]; [left|right]; split; try done.
    + exists c. by apply Ho.
    + intros c. rewrite Ho. apply Hno.
  - intros c. apply Hn.
  - intros c. apply Hn.
  - intros c. apply Hn.
  - intros c Ha. by apply Hd.
  - intros c Ha. by apply Hd.
Qed.

(** Case analysis on the CPU that moved. *)
Ltac on_core c' c := destruct (decide (c' = c)) as [->|]; cbn [k_pc k_held k_cpu at_pc].

Lemma core_noff m c : lock_inv m -> alive (k_pc (m_core m c)) = true ->
  c_noff (k_cpu (m_core m c)) = depth (m_core m c)
  /\ (c_noff (k_cpu (m_core m c)) <> 0 -> c_intr (k_cpu (m_core m c)) = false).
Proof. intros H Ha. split; [by apply (li_noff m H)|by apply (li_intr m H)]. Qed.

Lemma core_lists m c : lock_inv m ->
  NoDup (k_held (m_core m c)) /\ (forall l, l ∈ k_held (m_core m c) -> (l < nlocks)%nat)
  /\ pc_ok (k_pc (m_core m c)) (k_held (m_core m c)).
Proof. intros H. split_and!; apply H. Qed.

(** A change of one core that keeps its held list, and leaves [locked] and [cpu]
    alone. *)
Lemma inv_core m c v :
  lock_inv m -> k_held v = k_held (m_core m c) ->
  (forall l, owns v l <-> owns (m_core m c) l) ->
  (alive (k_pc v) = true -> c_noff (k_cpu v) = depth v /\ (c_noff (k_cpu v) <> 0 -> c_intr (k_cpu v) = false)) ->
  pc_ok (k_pc v) (k_held v) ->
  lock_inv (upd_core c v m).
Proof.
  intros H Hh Ho Hd Hp. apply (inv_same_owners m); try done; rewrite ?core_upd.
  - intros c' l. rewrite core_upd. on_core c' c; [apply Ho|done].
  - intros l c'. rewrite core_upd. on_core c' c; [rewrite Hh|]; apply H.
  - intros c'. rewrite core_upd. on_core c' c; [|by apply core_lists]. split_and!; [rewrite Hh; apply H..|done].
  - intros c'. rewrite core_upd. on_core c' c; [done|by apply core_noff].
Qed.

(** Between lock calls, spinning or popping, a CPU owns what it holds. *)
Definition plain (p : pcs) : bool := match p with Got _ | Rel _ => false | _ => true end.

Lemma owns_plain v k l :
  plain (k_pc v) = true -> plain (k_pc k) = true -> k_held v = k_held k -> owns v l <-> owns k l.
Proof. unfold owns. destruct (k_pc v), (k_pc k); simpl; try done; intros _ _ ->; naive_solver. Qed.

(** A move of one core that touches nothing else, inside or outside a call. *)
Lemma locks_move m c p :
  lock_inv m -> plain p = true -> plain (k_pc (m_core m c)) = true -> alive (k_pc (m_core m c)) = true ->
  (alive p = true -> in_call p = in_call (k_pc (m_core m c))) -> pc_ok p (k_held (m_core m c)) ->
  lock_inv (upd_core c (at_pc p (m_core m c)) m).
Proof.
  intros H Hp Hk Ha Hi Hok. apply inv_core; try done.
  - intros l. by apply owns_plain.
  - intros Hp'. destruct (core_noff m c H Ha) as [E1 E2]. cbn [k_cpu at_pc]. split; [|done].
    rewrite E1. unfold depth. cbn [k_held k_pc at_pc]. by rewrite Hi.
Qed.

(** A CPU holds fewer locks than there are, so [noff] stays an [int]. *)
Lemma held_bound m c : lock_inv m -> (length (k_held (m_core m c)) <= nlocks)%nat.
Proof.
  intros H. transitivity (length (seq 0 nlocks)); [|by rewrite length_seq]. apply submseteq_length, NoDup_submseteq; [apply H|].
  intros l Hl. apply elem_of_seq. pose proof (li_range m H c l Hl). lia.
Qed.

(** [holding] is accurate at every point of every interleaving. *)
Lemma load_locked_spec m c l : lock_inv m -> l ∈ k_held (m_core m c) -> load_locked (m_lock m l) = true.
Proof.
  intros H Hin. apply nz_true. destruct (li_locked m H l) as [[-> _]|[_ Hno]]; [done|].
  destruct (Hno c). by right; right.
Qed.

Lemma load_cpu_spec m c l : lock_inv m -> load_cpu c (m_lock m l) = true <-> l ∈ k_held (m_core m c).
Proof. intros H. unfold load_cpu. by rewrite bool_decide_eq_true, (li_cpu m H). Qed.

(** An accurate answer leads to a correct position. *)
Lemma answered_ok w l b (held : list nat) :
  (l < nlocks)%nat -> (b = true <-> l ∈ held) -> pc_ok (answered w l b) held.
Proof.
  intros Hl Hb. destruct w, b; simpl; try tauto; [split; [done|]|right; split; [done|]]; intros Hin; by apply Hb in Hin.
Qed.

Lemma answered_call w l b : plain (answered w l b) = true /\ (alive (answered w l b) = true -> in_call (answered w l b) = in_call (Load1 w l)).
Proof. by destruct w, b. Qed.

Hypothesis nlocks_ok : Z.of_nat nlocks < 2 ^ 31 - 1.

Lemma push_off_spec m c : lock_inv m -> k_pc (m_core m c) = Run ->
  c_noff (push_off (k_cpu (m_core m c))) = c_noff (k_cpu (m_core m c)) + 1 /\ c_intr (push_off (k_cpu (m_core m c))) = false.
Proof using nlocks_ok.
  intros H Ep. split; [|done]. unfold push_off. cbn [c_noff]. apply s32_small.
  rewrite (li_noff m H) by (by rewrite Ep). unfold depth. rewrite Ep. pose proof (held_bound m c H). simpl. lia.
Qed.

(** [pop_off] at the end of a [release] of a machine that satisfies the
    invariant. *)
Lemma pop_off_spec m c l : lock_inv m -> k_pc (m_core m c) = Pop l ->
  exists k, pop_off (k_cpu (m_core m c)) = Ret k /\ c_noff k = c_noff (k_cpu (m_core m c)) - 1 /\ (c_noff k <> 0 -> c_intr k = false).
Proof using nlocks_ok.
  intros H Ep. destruct (core_noff m c H) as [E1 E2]; [by rewrite Ep|].
  unfold depth in E1. rewrite Ep in E1. simpl in E1. pose proof (held_bound m c H) as Hb.
  unfold pop_off. rewrite E2 by lia. rewrite (proj2 (Z.ltb_ge _ _)) by lia. eexists. split; [done|].
  rewrite s32_small by lia. cbn [c_noff c_intena].
  destruct (Z.eqb_spec (c_noff (k_cpu (m_core m c)) - 1) 0); cbn [andb];
    [destruct (c_intena (k_cpu (m_core m c)))|]; cbn [c_noff c_intr]; done.
Qed.

Lemma elem_of_remove l l' (h : list nat) : l ∈ List.remove Nat.eq_dec l' h <-> l ∈ h /\ l <> l'.
Proof.
  rewrite !list_elem_of_In. split; [apply in_remove|]. intros [? ?]. by apply in_in_remove.
Qed.

Lemma NoDup_remove l' (h : list nat) : NoDup h -> NoDup (List.remove Nat.eq_dec l' h).
Proof.
  induction 1 as [|x h Hx Hh IH]; simpl; [constructor|]. case_match; [done|].
  apply NoDup_cons. split; [|done]. rewrite elem_of_remove. tauto.
Qed.

Lemma length_remove l' (h : list nat) :
  NoDup h -> l' ∈ h -> Z.of_nat (length (List.remove Nat.eq_dec l' h)) = Z.of_nat (length h) - 1.
Proof.
  induction 1 as [|x h Hx Hh IH]; intros Hin; [by apply elem_of_nil in Hin|]. simpl. case_match eqn:E.
  - subst x. rewrite notin_remove; [lia|]. by rewrite <- list_elem_of_In.
  - apply elem_of_cons in Hin as [?|Hin]; [congruence|]. simpl length. rewrite Nat2Z.inj_succ, IH by done. lia.
Qed.

(** The cases that change a lock word. *)
Section LockSteps.
Context (m : machine) (c l : nat).
Hypothesis H : lock_inv m.

Lemma inv_swap : k_pc (m_core m c) = Spin l -> lk_locked (m_lock m l) = 0 ->
  lock_inv (upd_lock l (MkSpinlock 1 (lk_cpu (m_lock m l))) (upd_core c (at_pc (Got l) (m_core m c)) m)).
Proof using H.
  intros Ep El. assert (Hno : forall c', ~ owns (m_core m c') l).
  { destruct (li_locked m H l) as [[E _]|[_ Hno]]; [congruence|done]. }
  assert (Hne : forall l', owns (at_pc (Got l) (m_core m c)) l' <-> l' = l \/ owns (m_core m c) l').
  { intros l'. unfold owns. simpl. rewrite Ep. naive_solver. }
  split; cbn [m_lock m_core upd_lock upd_core].
  - intros c1 c2 l'. on_core c1 c; on_core c2 c; rewrite ?Hne; try done.
    + intros [->|?] ?; [by destruct (Hno c2)|]. by eapply (li_owner m H).
    + intros ? [->|?]; [by destruct (Hno c1)|]. by eapply (li_owner m H).
    + by apply (li_owner m H).
  - intros l'. destruct (decide (l' = l)) as [->|Hl]; cbn [lk_locked].
    + left. split; [done|]. exists c. rewrite decide_True by done. apply Hne. by left.
    + destruct (li_locked m H l') as [[E [c' Hc']]|[E Hno']]; [left|right]; split; try done.
      * exists c'. on_core c' c; [apply Hne; by right|done].
      * intros c'. on_core c' c; [rewrite Hne|]; naive_solver.
  - intros l' c'. transitivity (lk_cpu (m_lock m l') = Some c').
    + destruct (decide (l' = l)) as [->|]; done.
    + rewrite (li_cpu m H). on_core c' c; done.
  - intros c'. on_core c' c; apply H.
  - intros c'. on_core c' c; apply H.
  - intros c'. on_core c' c; [|apply H]. pose proof (li_pc m H c) as Hp. by rewrite Ep in Hp.
  - intros c'. on_core c' c; [|apply H]. intros _. rewrite (li_noff m H c) by (by rewrite Ep). unfold depth. simpl. by rewrite Ep.
  - intros c'. on_core c' c; [|apply H]. intros _. apply (li_intr m H c). by rewrite Ep.
Qed.

Lemma inv_own : k_pc (m_core m c) = Got l ->
  lock_inv (upd_lock l (store_cpu (Some c) (m_lock m l))
             (upd_core c (MkCore (k_cpu (m_core m c)) Run (l :: k_held (m_core m c))) m)).
Proof using H.
  intros Ep. pose proof (li_pc m H c) as Hp. rewrite Ep in Hp. destruct Hp as [Hlt Hnin].
  assert (Hother : forall c', c' <> c -> l ∉ k_held (m_core m c')).
  { intros c' Hc Hin. apply Hc. apply (li_owner m H c' c l); [by right; right|by left]. }
  apply (inv_same_owners m); try done; cbn [m_lock m_core upd_lock upd_core].
  - intros c' l'. on_core c' c; [|done]. unfold owns. simpl. rewrite Ep, elem_of_cons. naive_solver.
  - intros l'. destruct (decide (l' = l)) as [->|]; done.
  - intros l' c'. destruct (decide (l' = l)) as [->|Hl]; cbn [store_cpu lk_cpu].
    + on_core c' c; [split; [constructor|done]|]. split; [naive_solver|]. intros Hin. by destruct (Hother c').
    + rewrite (li_cpu m H). on_core c' c; [|done]. rewrite elem_of_cons. naive_solver.
  - intros c'. on_core c' c; [|by apply core_lists]. split_and!; [|intros l'|done].
    + apply NoDup_cons. split; [done|apply H].
    + rewrite elem_of_cons. intros [->|Hin]; [done|by apply (li_range m H c)].
  - intros c'. on_core c' c; [|by apply core_noff]. intros _. destruct (core_noff m c H) as [E1 E2]; [by rewrite Ep|].
    split; [|done]. rewrite E1. unfold depth. rewrite Ep. cbn [k_held k_pc length in_call]. lia.
Qed.

Lemma inv_clear : k_pc (m_core m c) = Clear l ->
  lock_inv (upd_lock l (store_cpu None (m_lock m l))
             (upd_core c (MkCore (k_cpu (m_core m c)) (Rel l) (List.remove Nat.eq_dec l (k_held (m_core m c)))) m)).
Proof using H.
  intros Ep. pose proof (li_pc m H c) as Hin. rewrite Ep in Hin. simpl in Hin.
  assert (Hother : forall c', c' <> c -> l ∉ k_held (m_core m c')).
  { intros c' Hc Hin'. apply Hc. apply (li_owner m H c' c l); by right; right. }
  apply (inv_same_owners m); try done; cbn [m_lock m_core upd_lock upd_core].
  - intros c' l'. on_core c' c; [|done]. unfold owns. simpl. rewrite Ep, elem_of_remove.
    destruct (decide (l' = l)) as [->|]; naive_solver.
  - intros l'. destruct (decide (l' = l)) as [->|]; done.
  - intros l' c'. destruct (decide (l' = l)) as [->|Hl]; cbn [store_cpu lk_cpu].
    + split; [done|]. on_core c' c; [rewrite elem_of_remove; naive_solver|]. intros Hin'. by destruct (Hother c').
    + rewrite (li_cpu m H). on_core c' c; [|done]. rewrite elem_of_remove. naive_solver.
  - intros c'. on_core c' c; [|by apply core_lists]. split_and!; [apply NoDup_remove, H| |].
    + intros l'. rewrite elem_of_remove. intros [? _]. by apply (li_range m H c).
    + split; [by apply (li_range m H c)|]. rewrite elem_of_remove. tauto.
  - intros c'. on_core c' c; [|by apply core_noff]. intros _. destruct (core_noff m c H) as [E1 E2]; [by rewrite Ep|].
    split; [|done]. rewrite E1. unfold depth. cbn [k_held k_pc in_call]. rewrite length_remove by (done || apply H). rewrite Ep. simpl. lia.
Qed.

Lemma inv_unlock : k_pc (m_core m c) = Rel l ->
  lock_inv (upd_lock l (lock_release (m_lock m l)) (upd_core c (at_pc (Pop l) (m_core m c)) m)).
Proof using H.
  intros Ep. pose proof (li_pc m H c) as Hp. rewrite Ep in Hp. destruct Hp as [Hlt Hnin].
  assert (Hother : forall c', c' <> c -> ~ owns (m_core m c') l).
  { intros c' Hc Ho. apply Hc. apply (li_owner m H c' c l); [done|]. by right; left. }
  assert (Hne : forall l', owns (at_pc (Pop l) (m_core m c)) l' <-> l' <> l /\ owns (m_core m c) l').
  { intros l'. unfold owns. simpl. rewrite Ep. naive_solver. }
  split; cbn [m_lock m_core upd_lock upd_core].
  - intros c1 c2 l'. on_core c1 c; on_core c2 c; rewrite ?Hne; try done; intros; eapply (li_owner m H); naive_solver.
  - intros l'. destruct (decide (l' = l)) as [->|Hl]; cbn [lock_release lk_locked].
    + right. split; [done|]. intros c'. on_core c' c; [rewrite Hne; naive_solver|by apply Hother].
    + destruct (li_locked m H l') as [[E [c' Hc']]|[E Hno']]; [left|right]; split; try done.
      * exists c'. on_core c' c; [by apply Hne|done].
      * intros c'. on_core c' c; [rewrite Hne|]; naive_solver.
  - intros l' c'. transitivity (lk_cpu (m_lock m l') = Some c').
    + destruct (decide (l' = l)) as [->|]; done.
    + rewrite (li_cpu m H). on_core c' c; done.
  - intros c'. on_core c' c; apply H.
  - intros c'. on_core c' c; apply H.
  - intros c'. on_core c' c; [done|apply H].
  - intros c'. on_core c' c; [|apply H]. intros _. rewrite (li_noff m H c) by (by rewrite Ep). unfold depth. simpl. by rewrite Ep.
  - intros c'. on_core c' c; [|apply H]. intros _. apply (li_intr m H c). by rewrite Ep.
Qed.

End LockSteps.

Lemma inv_step m m' : lock_inv m -> mstep m m' -> lock_inv m'.
Proof using nlocks_ok.
  intros H [c Hs]. pose proof (li_pc m H c) as Hp.
  destruct Hs as [l Ep Hl|l Ep Hl|l Ep Hl _|w l Ep|w l Ep|l b Ep|l Ep|l Ep|l Ep|l Ep|l k Ep E|l msg Ep E|b Ep En]; rewrite Ep in Hp.
  - destruct (push_off_spec m c H Ep) as [E1 E2]. apply inv_core; try done.
    + intros l'. apply owns_plain; [done|by rewrite Ep|done].
    + intros _. cbn [k_cpu k_pc k_held]. split; [|done]. rewrite E1, (li_noff m H c) by (by rewrite Ep).
      unfold depth. rewrite Ep. cbn [k_held k_pc in_call]. lia.
  - apply locks_move; rewrite ?Ep; done.
  - apply locks_move; rewrite ?Ep; done.
  - destruct (load_locked (m_lock m l)) eqn:El; [apply locks_move; rewrite ?Ep; by destruct w|].
    destruct (answered_call w l false) as [A1 A2]. apply locks_move; rewrite ?Ep; try done.
    apply answered_ok; [done|]. split; [done|]. intros Hin. by rewrite (load_locked_spec m c l H Hin) in El.
  - destruct (answered_call w l (load_cpu c (m_lock m l))) as [A1 A2]. apply locks_move; rewrite ?Ep; try done.
    apply answered_ok; [done|]. by apply load_cpu_spec.
  - apply locks_move; rewrite ?Ep; done.
  - cbn [fst snd test_and_set]. destruct (nz (lk_locked (m_lock m l))) eqn:E; [|apply nz_false in E; by apply inv_swap].
    apply nz_true in E. assert (El : MkSpinlock 1 (lk_cpu (m_lock m l)) = m_lock m l).
    { destruct (li_locked m H l) as [[E' _]|[E' _]]; [|done]. destruct (m_lock m l). simpl in *. by subst. }
    rewrite El. assert (H' : lock_inv (upd_core c (at_pc (Spin l) (m_core m c)) m)) by (apply locks_move; rewrite ?Ep; done).
    apply (inv_same_owners _ _ H'); try done; cbn [m_lock m_core upd_lock].
    + intros l'. by destruct (decide (l' = l)) as [->|].
    + intros l' c'. rewrite <- (li_cpu _ H'). by destruct (decide (l' = l)) as [->|].
    + intros c'. by apply (core_lists _ c' H').
    + intros c'. by apply (core_noff _ c' H').
  - by apply inv_own.
  - by apply inv_clear.
  - by apply inv_unlock.
  - destruct (pop_off_spec m c l H Ep) as (k' & E' & E1 & E2). rewrite E in E'. injection E' as <-.
    apply inv_core; try done.
    + intros l'. apply owns_plain; [done|by rewrite Ep|done].
    + intros _. cbn [k_cpu]. split; [|done]. rewrite E1, (li_noff m H c) by (by rewrite Ep). unfold depth. rewrite Ep. simpl. lia.
  - destruct (pop_off_spec m c l H Ep) as (k' & E' & _). congruence.
  - apply inv_core; try done.
    + intros l'. apply owns_plain; [done|by rewrite Ep|done].
    + intros _. cbn [k_cpu c_noff]. split; [|done]. rewrite <- En, (li_noff m H c) by (by rewrite Ep). unfold depth. by rewrite Ep.
Qed.

(** At boot: no lock taken, no CPU inside a call. *)
Definition booted (m : machine) : Prop :=
  (forall l, m_lock m l = initlock)
  /\ forall c, k_pc (m_core m c) = Run /\ k_held (m_core m c) = [] /\ c_noff (k_cpu (m_core m c)) = 0.

Lemma booted_inv m : booted m -> lock_inv m.
Proof.
  intros [Hl Hc]. assert (Hno : forall c l, ~ owns (m_core m c) l).
  { intros c l. destruct (Hc c) as (Ep & Eh & _). unfold owns. rewrite Ep, Eh. intros [?|[?|Hin]]; [done..|by apply elem_of_nil in Hin]. }
  split.
  - intros c1 c2 l Ho. by destruct (Hno c1 l).
  - intros l. right. split; [by rewrite Hl|auto].
  - intros l c. rewrite Hl. destruct (Hc c) as (_ & -> & _). split; [done|]. intros Hin. by apply elem_of_nil in Hin.
  - intros c. destruct (Hc c) as (_ & -> & _). constructor.
  - intros c l. destruct (Hc c) as (_ & -> & _). intros Hin. by apply elem_of_nil in Hin.
  - intros c. destruct (Hc c) as (-> & _). done.
  - intros c _. destruct (Hc c) as (Ep & Eh & ->). unfold depth. by rewrite Ep, Eh.
  - intros c _. by destruct (Hc c) as (_ & _ & ->).
Qed.

(** (C11) Spin locks exclude each other.  In every interleaving of any number of
    CPUs from boot, at the granularity of single accesses to the fields of the
    locks (fewer than 2^31 of them), with [noff] a 32-bit integer:
    a lock is inside the critical section of at most one CPU; a [holding] of a
    CPU answers exactly whether that CPU has acquired the lock, whatever the
    other CPUs do between its two loads; a CPU that holds a lock, or is
    anywhere in an [acquire] after its first statement, or has not finished
    the [release] of a lock, has interrupts off; a CPU never spins for a lock
    it holds and never gives up one it does not hold; and it panics only in an
    [acquire] of a lock it holds or a [release] of one it does not hold. *)
Theorem spinlock_safe m0 m :
  booted m0 -> rtc mstep m0 m ->
  (forall c1 c2 l, owns (m_core m c1) l -> owns (m_core m c2) l -> c1 = c2)
  /\ (forall c l b, k_pc (m_core m c) = Said l b -> b = true <-> l ∈ k_held (m_core m c))
  /\ (forall c, alive (k_pc (m_core m c)) = true -> k_held (m_core m c) <> [] \/ in_call (k_pc (m_core m c)) = true ->
        c_intr (k_cpu (m_core m c)) = false)
  /\ (forall c l, k_pc (m_core m c) = Spin l -> l ∉ k_held (m_core m c))
  /\ (forall c l, k_pc (m_core m c) = Clear l -> l ∈ k_held (m_core m c))
  /\ (forall c msg l, k_pc (m_core m c) = Dead msg l ->
        msg = "acquire"%string /\ l ∈ k_held (m_core m c) \/ msg = "release"%string /\ l ∉ k_held (m_core m c)).
Proof using nlocks_ok.
  intros H0 Hr. assert (H : lock_inv m).
  { apply booted_inv in H0. induction Hr as [|x y z Hxy _ IH]; [done|]. apply IH. by eapply inv_step. }
  split_and!.
  - apply H.
  - intros c l b Ep. pose proof (li_pc m H c) as Hp. by rewrite Ep in Hp.
  - intros c Ha Hb. apply (li_intr m H c Ha). rewrite (li_noff m H c Ha). unfold depth.
    destruct Hb as [Hb| ->]; [|lia]. destruct (k_held (m_core m c)); [done|]. simpl length. destruct (in_call _); lia.
  - intros c l Ep. pose proof (li_pc m H c) as Hp. rewrite Ep in Hp. apply Hp.
  - intros c l Ep. pose proof (li_pc m H c) as Hp. by rewrite Ep in Hp.
  - intros c msg l Ep. pose proof (li_pc m H c) as Hp. by rewrite Ep in Hp.
Qed.

End Machine.

(** Two CPUs: the first has taken lock 0 and called [acquire] for it again. *)
Definition demo_boot : machine :=
  MkMachine (fun _ => initlock) (fun _ => MkCore (MkCpu 0 false true) Run []).
Definition demo_taken : machine :=
  let k := push_off (MkCpu 0 false true) in
  let m := upd_core 0 (MkCore k (Load1 Acquiring 0) []) demo_boot in
  let m := upd_core 0 (at_pc (Spin 0) (m_core m 0)) m in
  let m := upd_lock 0 (snd (test_and_set (m_lock m 0))) (upd_core 0 (at_pc (Got 0) (m_core m 0)) m) in
  upd_lock 0 (store_cpu (Some 0%nat) (m_lock m 0)) (upd_core 0 (MkCore k Run [0%nat]) m).

Lemma spinlock_safe_witness :
  rtc (mstep 1) demo_boot demo_taken /\ k_held (m_core demo_taken 0) = [0%nat]
  /\ c_intr (k_cpu (m_core demo_taken 0)) = false /\ ~ owns (m_core demo_taken 1) 0.
Proof.
  assert (Hr : rtc (mstep 1) demo_boot demo_taken).
  { eapply rtc_l; [exists 0%nat; apply (step_acquire 1 0 demo_boot 0); [reflexivity|lia]|].
    eapply rtc_l; [exists 0%nat; eapply (step_locked 1 0 _ Acquiring 0); reflexivity|].
    eapply rtc_l; [exists 0%nat; eapply (step_swap 1 0 _ 0); reflexivity|].
    eapply rtc_l; [exists 0%nat; eapply (step_own 1 0 _ 0); reflexivity|]. apply rtc_refl. }
  destruct (spinlock_safe 1 ltac:(lia) demo_boot demo_taken) as (Hx & _ & Hi & _).
  - split; [done|]. intros c. by split_and!.
  - exact Hr.
  - split; [exact Hr|]. split; [reflexivity|]. split; [apply Hi; [reflexivity|left; discriminate]|].
    intros Ho. assert (E : 0%nat = 1%nat); [|discriminate E].
    apply (Hx 0%nat 1%nat 0%nat); [right; right; by apply list_elem_of_singleton|exact Ho].
Defined.

End Spinlock.
