(* ===== verification/SleepWake.v ===== *)
(** * sleep and wakeup of kernel/proc.c

    Processes wait for conditions and signal them in the way all of the kernel
    does: the waiting side holds the lock of the condition, tests it, and calls
    [sleep] in a loop; the signalling side sets the condition under the same
    lock and calls [wakeup].  All processes interleave at the granularity of the
    lock operations; the scheduler and [kill] take part.  There are any number
    of conditions, each with its own lock and channel.

    No wakeup is lost: a process asleep although its condition holds is still
    ahead of a [wakeup] under way.  And the processes that were started always
    get through: whatever the schedule, they stop after a bounded number of
    steps, and only in [sleep] on conditions that do not hold. *)

From S2P Require Import Prelude Riscv ProcDefs.
From stdpp Require Import base list numbers gmap strings sets relations.
From Stdlib Require Import ZArith Lia.

Module SleepWake.

(** The size of the process table. *)
Definition N : nat := Z.to_nat NPROC.

(** Where a process is.  The waiting side of condition [l]: *)
Inductive pos : Type :=
| Idle
| WantS (l : nat)         (* at acquire(lk) *)
| HoldS (l : nat)         (* at the test of the loop, lk held *)
| Sleep1 (l : nat)        (* in sleep, at acquire(&p->lock) *)
| Sleep2 (l : nat)        (* at release(lk) *)
| Sleep3 (l : nat)        (* at p->chan = chan; p->state = SLEEPING *)
| Sleep4 (l : nat)        (* at sched() *)
| Asleep (l : nat)        (* switched away *)
| Wake1 (l : nat)         (* back from sched, p->lock held *)
(** and the signalling side: *)
| WantW (l : nat)         (* at acquire(lk) *)
| HoldW (l : nat)         (* lk held, condition not set yet *)
| Scan (l i : nat)        (* in wakeup, at entry i of the table *)
| Visit (l i : nat).      (* the lock of entry i is held *)

(** The shared state: holders of the condition locks and of the process locks,
    the conditions, and [state] and [chan] of each process. *)
Record sys : Type := MkSys {
  lk : nat -> option nat;
  plk : nat -> option nat;
  cond : nat -> bool;
  pst : nat -> procstate;
  pch : nat -> option nat;
  pc : nat -> pos
}.

Definition fupd {A} (f : nat -> A) (k : nat) (v : A) : nat -> A := fun x => if decide (x = k) then v else f x.

Definition set_pc (p : nat) (v : pos) (s : sys) : sys := MkSys (lk s) (plk s) (cond s) (pst s) (pch s) (fupd (pc s) p v).
Definition set_lk (l : nat) (v : option nat) (s : sys) : sys := MkSys (fupd (lk s) l v) (plk s) (cond s) (pst s) (pch s) (pc s).
Definition set_plk (p : nat) (v : option nat) (s : sys) : sys := MkSys (lk s) (fupd (plk s) p v) (cond s) (pst s) (pch s) (pc s).
Definition set_cond (l : nat) (v : bool) (s : sys) : sys := MkSys (lk s) (plk s) (fupd (cond s) l v) (pst s) (pch s) (pc s).
Definition set_pst (p : nat) (v : procstate) (s : sys) : sys := MkSys (lk s) (plk s) (cond s) (fupd (pst s) p v) (pch s) (pc s).
Definition set_pch (p : nat) (v : option nat) (s : sys) : sys := MkSys (lk s) (plk s) (cond s) (pst s) (fupd (pch s) p v) (pc s).

(** The test and the store of [wakeup] on entry [i]. *)
Definition wake_entry (l i : nat) (s : sys) : sys :=
  if bool_decide (pst s i = SLEEPING) && bool_decide (pch s i = Some l) then set_pst i RUNNABLE s else s.

(** A step of process [p] inside these routines; [b] in [st_done] is what the
    process makes of the condition before it releases the lock, and [st_quit]
    is the way out of a loop that gives up (a killed process). *)
Inductive step (p : nat) (s : sys) : sys -> Prop :=
| st_lock l : pc s p = WantS l -> lk s l = None -> step p s (set_pc p (HoldS l) (set_lk l (Some p) s))
| st_done l b : pc s p = HoldS l -> cond s l = true -> step p s (set_pc p Idle (set_lk l None (set_cond l b s)))
| st_quit l : pc s p = HoldS l -> step p s (set_pc p Idle (set_lk l None s))
| st_sleep l : pc s p = HoldS l -> cond s l = false -> step p s (set_pc p (Sleep1 l) s)
| st_plock l : pc s p = Sleep1 l -> plk s p = None -> step p s (set_pc p (Sleep2 l) (set_plk p (Some p) s))
| st_release l : pc s p = Sleep2 l -> step p s (set_pc p (Sleep3 l) (set_lk l None s))
| st_mark l : pc s p = Sleep3 l -> step p s (set_pc p (Sleep4 l) (set_pst p SLEEPING (set_pch p (Some l) s)))
| st_sched l : pc s p = Sleep4 l -> step p s (set_pc p (Asleep l) (set_plk p None s))
| st_run l : pc s p = Asleep l -> plk s p = None -> pst s p = RUNNABLE ->
    step p s (set_pc p (Wake1 l) (set_pst p RUNNING (set_plk p (Some p) s)))
| st_tidy l : pc s p = Wake1 l -> step p s (set_pc p (WantS l) (set_plk p None (set_pch p None s)))
| st_wlock l : pc s p = WantW l -> lk s l = None -> step p s (set_pc p (HoldW l) (set_lk l (Some p) s))
| st_set l : pc s p = HoldW l -> step p s (set_pc p (Scan l 0) (set_cond l true s))
| st_self l : pc s p = Scan l p -> p < N -> step p s (set_pc p (Scan l (S p)) s)
| st_visit l i : pc s p = Scan l i -> i < N -> i <> p -> plk s i = None ->
    step p s (set_pc p (Visit l i) (set_plk i (Some p) s))
| st_wake l i : pc s p = Visit l i -> step p s (set_pc p (Scan l (S i)) (set_plk i None (wake_entry l i s)))
| st_end l : pc s p = Scan l N -> step p s (set_pc p Idle (set_lk l None s)).

(** What comes from outside: a process enters one of the routines, or [kill]
    wakes a sleeper. *)
Inductive enter (s : sys) : sys -> Prop :=
| en_wait p l : p < N -> pc s p = Idle -> enter s (set_pc p (WantS l) s)
| en_signal p l : p < N -> pc s p = Idle -> enter s (set_pc p (WantW l) s)
| en_kill i : plk s i = None -> pst s i = SLEEPING -> enter s (set_pst i RUNNABLE s).

(** All locks free, every process running outside, no condition set. *)
Definition init : sys :=
  MkSys (fun _ => None) (fun _ => None) (fun _ => false) (fun _ => RUNNING) (fun _ => None) (fun _ => Idle).

Inductive reach : sys -> Prop :=
| reach_init : reach init
| reach_step p s s' : reach s -> step p s s' -> reach s'
| reach_enter s s' : reach s -> enter s s' -> reach s'.

(** ** The invariant *)

(** The process at this position holds the lock of condition [l]. *)
Definition has_lk (x : pos) (l : nat) : Prop :=
  match x with
  | HoldS l' | Sleep1 l' | Sleep2 l' | HoldW l' | Scan l' _ | Visit l' _ => l = l'
  | _ => False
  end.

(** Process [p] at this position holds the process lock [j]. *)
Definition has_plk (p : nat) (x : pos) (j : nat) : Prop :=
  match x with
  | Sleep2 _ | Sleep3 _ | Sleep4 _ | Wake1 _ => j = p
  | Visit _ i => j = i
  | _ => False
  end.

(** The position goes with the state and the channel of the process. *)
Definition state_ok (x : pos) (st : procstate) (ch : option nat) : Prop :=
  match x with
  | Sleep4 l => st = SLEEPING /\ ch = Some l
  | Asleep l => st = SLEEPING /\ ch = Some l \/ st = RUNNABLE
  | _ => st = RUNNING
  end.

(** Process [p] is going to sleep, or asleep and not woken, on [l]. *)
Definition unaware (x : pos) (st : procstate) (l : nat) : Prop :=
  x = Sleep3 l \/ x = Sleep4 l \/ x = Asleep l /\ st = SLEEPING.

(** A [wakeup] on [l] is under way that has not passed entry [p]. *)
Definition coming (s : sys) (l p : nat) : Prop :=
  exists q i, (pc s q = Scan l i \/ pc s q = Visit l i) /\ i <= p.

Record inv (s : sys) : Prop := MkInv {
  iv_lk : forall l p, lk s l = Some p <-> has_lk (pc s p) l;
  iv_plk : forall j p, plk s j = Some p <-> has_plk p (pc s p) j;
  iv_state : forall p, state_ok (pc s p) (pst s p) (pch s p);
  iv_scan : forall p l i, pc s p = Scan l i -> i <= N;
  iv_visit : forall p l i, pc s p = Visit l i -> i < N /\ i <> p;
  iv_small : forall p, pc s p <> Idle -> p < N;
  iv_test : forall p l, pc s p = Sleep1 l \/ pc s p = Sleep2 l -> cond s l = false;
  iv_wake : forall p l, unaware (pc s p) (pst s p) l -> cond s l = true -> coming s l p
}.

Lemma fupd_eq {A} (f : nat -> A) k v : fupd f k v k = v.
Proof. unfold fupd. by rewrite decide_True. Qed.
Lemma fupd_ne {A} (f : nat -> A) k v x : x <> k -> fupd f k v x = f x.
Proof. intros H. unfold fupd. by rewrite decide_False. Qed.

(** Who holds which lock, after process [p] moved to [v]; [C q x j] says that
    process [q] at [x] holds lock [j]. *)
Section Owners.
Context (C : nat -> pos -> nat -> Prop) (H : nat -> option nat) (pcs : nat -> pos) (p : nat) (v : pos).
Hypothesis HR : forall j q, H j = Some q <-> C q (pcs q) j.

Lemma own_keep : (forall j, C p v j <-> C p (pcs p) j) -> forall j q, H j = Some q <-> C q (fupd pcs p v q) j.
Proof. intros E j q. rewrite HR. unfold fupd. destruct (decide (q = p)) as [->|]; [by rewrite E|done]. Qed.

Lemma own_take j0 : H j0 = None -> (forall j, C p v j <-> C p (pcs p) j \/ j = j0) ->
  forall j q, fupd H j0 (Some p) j = Some q <-> C q (fupd pcs p v q) j.
Proof.
  intros Hn E j q. unfold fupd. destruct (decide (q = p)) as [->|Hq]; [rewrite E|]; rewrite <- HR;
    destruct (decide (j = j0)) as [->|]; rewrite ?Hn; naive_solver.
Qed.

Lemma own_drop j0 : C p (pcs p) j0 -> (forall j, C p v j <-> C p (pcs p) j /\ j <> j0) ->
  forall j q, fupd H j0 None j = Some q <-> C q (fupd pcs p v q) j.
Proof.
  intros Hn E j q. apply HR in Hn. unfold fupd. destruct (decide (q = p)) as [->|Hq]; [rewrite E|]; rewrite <- HR;
    destruct (decide (j = j0)) as [->|]; rewrite ?Hn; naive_solver.
Qed.
End Owners.

(** A process that is not scanning keeps the [wakeup]s under way. *)
Lemma coming_keep s s' p v l x :
  (forall q, pc s' q = fupd (pc s) p v q) -> (forall l i, pc s p <> Scan l i /\ pc s p <> Visit l i) ->
  coming s l x -> coming s' l x.
Proof.
  intros Hpc Hn (q & i & Hq & Hi). exists q, i. split; [|done]. rewrite Hpc, fupd_ne; [done|].
  intros ->. destruct (Hn l i). by destruct Hq.
Qed.

(** The clause on wakeups, when no process becomes unaware and no condition
    becomes true. *)
Lemma wake_keep s s' p v :
  inv s -> (forall q, pc s' q = fupd (pc s) p v q) -> (forall l i, pc s p <> Scan l i /\ pc s p <> Visit l i) ->
  (forall l, cond s' l = true -> cond s l = true) ->
  (forall q l, unaware (pc s' q) (pst s' q) l -> unaware (pc s q) (pst s q) l) ->
  forall q l, unaware (pc s' q) (pst s' q) l -> cond s' l = true -> coming s' l q.
Proof.
  intros I Hpc Hn Hc Hu q l Hq Hl. eapply coming_keep; [exact Hpc|exact Hn|]. apply (iv_wake _ I); auto.
Qed.

(** [wake_entry] and [kill] touch only [state], and only of processes that are
    switched away. *)
Lemma wake_fields l i s : lk (wake_entry l i s) = lk s /\ plk (wake_entry l i s) = plk s /\ cond (wake_entry l i s) = cond s
  /\ pch (wake_entry l i s) = pch s /\ pc (wake_entry l i s) = pc s.
Proof. unfold wake_entry. by destruct (_ && _). Qed.

Lemma wake_pst l i s q : pst (wake_entry l i s) q
  = if decide (q = i /\ pst s q = SLEEPING /\ pch s q = Some l) then RUNNABLE else pst s q.
Proof.
  unfold wake_entry. destruct (bool_decide (pst s i = SLEEPING) && bool_decide (pch s i = Some l)) eqn:E; simpl.
  - apply andb_true_iff in E as [E1%bool_decide_eq_true E2%bool_decide_eq_true]. unfold fupd.
    destruct (decide (q = i)) as [->|Hne]; [by rewrite decide_True|]. rewrite decide_False; [done|by intros [? _]].
  - rewrite decide_False; [done|]. intros (-> & E1 & E2). by rewrite !bool_decide_eq_true_2 in E.
Qed.

(** The lock holder is unique: nobody else is at a position that holds it. *)
Lemma holder_unique s l p q : inv s -> has_lk (pc s p) l -> has_lk (pc s q) l -> p = q.
Proof. intros I Hp%(iv_lk _ I) Hq%(iv_lk _ I). congruence. Qed.

Lemma init_inv : inv init.
Proof. split; try done; intros; cbn in *; try lia; try naive_solver. Qed.

(** Closes the goals about the moving process and about the others. *)
Ltac fields := cbn [set_pc set_lk set_plk set_cond set_pst set_pch lk plk cond pst pch pc] in *.
Ltac wake_eqs :=
  try match goal with |- context [wake_entry ?l ?i ?s] =>
    let E1 := fresh in let E2 := fresh in let E3 := fresh in let E4 := fresh in let E5 := fresh in
    destruct (wake_fields l i s) as (E1 & E2 & E3 & E4 & E5); rewrite ?E1, ?E2, ?E3, ?E4, ?E5; clear E1 E2 E3 E4 E5
  end.
Ltac one_of q p := unfold fupd; destruct (decide (q = p)) as [->|?].

(** The cases of a step. *)
Ltac steps St :=
  destruct St as [l E El|l b E Ec|l E|l E Ec|l E Ep|l E|l E|l E|l E Ep Es|l E|l E El|l E|l E Hi|l i E Hi Hn Ep|l i E|l E];
  fields; wake_eqs.

Lemma inv_lk p s s' : inv s -> step p s s' -> forall l q, lk s' l = Some q <-> has_lk (pc s' q) l.
Proof.
  intros I St. pose proof (iv_lk _ I) as HL. steps St.
  all: try (apply (own_keep (fun _ => has_lk)); [exact HL|]; intros j; rewrite E; simpl; tauto).
  all: try (apply (own_take (fun _ => has_lk)); [exact HL|assumption|]; intros j; rewrite E; simpl; tauto).
  all: try (apply (own_drop (fun _ => has_lk)); [exact HL|rewrite E; done|]; intros j; rewrite E; simpl; tauto).
Qed.

Lemma inv_plk p s s' : inv s -> step p s s' -> forall j q, plk s' j = Some q <-> has_plk q (pc s' q) j.
Proof.
  intros I St. pose proof (iv_plk _ I) as HL. steps St.
  all: try (apply (own_keep has_plk); [exact HL|]; intros j; rewrite E; simpl; tauto).
  all: try (apply (own_take has_plk); [exact HL|assumption|]; intros j; rewrite E; simpl; tauto).
  all: try (apply (own_drop has_plk); [exact HL|rewrite E; done|]; intros j; rewrite E; simpl; tauto).
Qed.

(** A process woken by another one is switched away. *)
Lemma woken_asleep s i q : inv s -> plk s i <> Some i -> pst s i = SLEEPING -> pch s i = Some q ->
  pc s i = Asleep q.
Proof.
  intros I Hp Hs Hc. pose proof (iv_state _ I i) as St. pose proof (proj2 (iv_plk _ I i i)) as HL. rewrite Hs, Hc in St.
  destruct (pc s i) eqn:E; simpl in *; try done; [exfalso; by apply Hp, HL|]. destruct St as [[_ [= ->]]|]; done.
Qed.

Lemma visit_other s p l i : inv s -> pc s p = Visit l i -> plk s i <> Some i.
Proof.
  intros I E Hi. pose proof (proj2 (iv_plk _ I i p)) as HL. rewrite E in HL. specialize (HL eq_refl).
  rewrite HL in Hi. injection Hi as ->. by destruct (iv_visit _ I _ _ _ E).
Qed.

Lemma inv_state p s s' : inv s -> step p s s' -> forall q, state_ok (pc s' q) (pst s' q) (pch s' q).
Proof.
  intros I St q. pose proof (iv_state _ I q) as HS. pose proof (visit_other s p) as Hv. steps St.
  all: try (one_of q p; [rewrite E in HS; simpl in *; intuition congruence|exact HS]).
  - rewrite wake_pst. one_of q p.
    + rewrite E in HS. destruct (decide (p = i /\ _)) as [(-> & _)|]; [|exact HS]. by destruct (iv_visit _ I _ _ _ E).
    + destruct (decide (q = i /\ _)) as [(-> & Hs & Hc)|]; [|exact HS].
      rewrite (woken_asleep s i l I (Hv l i I E) Hs Hc). by right.
Qed.

Lemma inv_positions p s s' : inv s -> step p s s' ->
  (forall q l i, pc s' q = Scan l i -> i <= N) /\ (forall q l i, pc s' q = Visit l i -> i < N /\ i <> q)
  /\ (forall q, pc s' q <> Idle -> q < N).
Proof.
  intros I St. assert (Hp : p < N) by (apply (iv_small _ I); intros Hp; destruct St; congruence).
  pose proof (iv_scan _ I) as H1. pose proof (iv_visit _ I) as H2. pose proof (iv_small _ I) as H3. steps St.
  all: split; [intros q l' i'|split; [intros q l' i'|intros q]]; one_of q p; eauto; try done; intros [= <- <-]; try lia.
  destruct (H2 _ _ _ E). lia.
Qed.

(** Testing the condition under its lock. *)
Lemma inv_test p s s' : inv s -> step p s s' -> forall q l, pc s' q = Sleep1 l \/ pc s' q = Sleep2 l -> cond s' l = false.
Proof.
  intros I St q l' Hq. pose proof (iv_test _ I q l') as HT. pose proof (holder_unique s l' p q I) as HU. revert Hq. steps St.
  all: try (one_of q p; [intros [[= <-]|[= <-]]; try done; apply HT; rewrite E; auto|exact HT]).
  - unfold fupd at 1 2. one_of q p; [by intros [?|?]|]. intros Hq. destruct (decide (l' = l)) as [->|]; [|auto].
    exfalso. rewrite E in HU. assert (p = q) by (apply HU; [done|by destruct Hq as [-> | ->]]). congruence.
  - unfold fupd at 1 2. one_of q p; [by intros [?|?]|]. intros Hq. destruct (decide (l' = l)) as [->|]; [|auto].
    exfalso. rewrite E in HU. assert (p = q) by (apply HU; [done|by destruct Hq as [-> | ->]]). congruence.
Qed.

(** A scanner moves from entry [i] on, and nobody at [i] is unaware any more. *)
Lemma wake_scan s s' p l i v :
  inv s -> (forall q, pc s' q = fupd (pc s) p v q) -> (pc s p = Scan l i \/ pc s p = Visit l i) ->
  (exists i', (v = Scan l i' \/ v = Visit l i') /\ i' <= S i) \/ N <= i ->
  (forall l, cond s' l = true -> cond s l = true) ->
  (forall q l', unaware (pc s' q) (pst s' q) l' ->
     unaware (pc s q) (pst s q) l' /\ q < N /\ ~ (l' = l /\ q = i /\ v <> Visit l i)) ->
  (v = Visit l i \/ v <> Visit l i) ->
  forall q l', unaware (pc s' q) (pst s' q) l' -> cond s' l' = true -> coming s' l' q.
Proof.
  intros I Hpc Hp Hv Hc Hu Hdec q l' Hq Hl. destruct (Hu q l' Hq) as (Hq' & HqN & Hni).
  destruct (iv_wake _ I q l' Hq' (Hc _ Hl)) as (r & k & Hr & Hk). destruct (decide (r = p)) as [->|Hne].
  - assert (l' = l /\ k = i) as [-> ->] by (destruct Hp as [E|E], Hr as [E'|E']; rewrite E in E'; by simplify_eq).
    destruct Hv as [(i' & Hv & Hi')|]; [|lia]. exists p, i'. rewrite Hpc, fupd_eq. split; [done|].
    destruct Hdec as [->|Hd]; [destruct Hv as [|[= <-]]; [done|lia]|].
    destruct (decide (q = i)) as [->|]; [|lia]. exfalso. by apply Hni.
  - exists r, k. rewrite Hpc, fupd_ne by done. done.
Qed.

Lemma unaware_pc x st l : unaware x st l -> x = Sleep3 l \/ x = Sleep4 l \/ x = Asleep l.
Proof. unfold unaware. tauto. Qed.

Lemma inv_wake p s s' : inv s -> step p s s' -> forall q l, unaware (pc s' q) (pst s' q) l -> cond s' l = true -> coming s' l q.
Proof.
  intros I St. pose proof (iv_small _ I) as Hsm.
  destruct St as [l E El|l b E Ec|l E|l E Ec|l E Ep|l E|l E|l E|l E Ep Es|l E|l E El|l E|l E Hi|l i E Hi Hn Ep|l i E|l E].
  (* the steps after which nobody new is unaware *)
  1, 3, 4, 5, 7, 8, 9, 10, 11: eapply (wake_keep s _ p _ I); [reflexivity|intros; rewrite E; done|fields; done|];
    intros q l'; fields; one_of q p; [rewrite E; unfold unaware; intros [?|[?|[? ?]]]; try done; intuition congruence|done].
  - eapply (wake_keep s _ p _ I); [reflexivity|intros; rewrite E; done| |].
    + intros l'. fields. one_of l' l; [by rewrite Ec|done].
    + intros q l'. fields. one_of q p; [|done]. by intros [?|[?|[? _]]].
  - (* release(lk): the process was told that the condition does not hold *)
    intros q l' Hq Hl. pose proof (iv_test _ I p l (or_intror E)) as Hf. fields.
    assert (Hq' : unaware (pc s q) (pst s q) l').
    { revert Hq. one_of q p; [|done]. intros [[= <-]|[?|[? _]]]; [congruence|done..]. }
    eapply (coming_keep s _ p); [reflexivity|intros; by rewrite E|]. by apply (iv_wake _ I).
  - (* the condition is set: the scan starts *)
    intros q l' Hq Hl. fields. destruct (decide (l' = l)) as [->|Hne].
    + exists p, 0. cbn [set_pc set_cond pc]. rewrite fupd_eq. split; [by left|lia].
    + rewrite fupd_ne in Hl by done. eapply (coming_keep s _ p); [reflexivity|intros; by rewrite E|].
      apply (iv_wake _ I); [|done]. revert Hq. one_of q p; [|done]. by intros [?|[?|[? _]]].
  - eapply (wake_scan s _ p l p (Scan l (S p)) I); [reflexivity|by left|left; exists (S p); split; [by left|lia]|fields; done| |by right].
    intros q l'. fields. one_of q p; [by intros [?|[?|[? _]]]|]. intros Hq. split; [done|]. split; [|by intros (_ & -> & _)].
    apply Hsm. destruct (unaware_pc _ _ _ Hq) as [E'|[E'|E']]; by rewrite E'.
  - eapply (wake_scan s _ p l i (Visit l i) I); [reflexivity|by left|left; exists i; split; [by right|lia]|fields; done| |by left].
    intros q l'. fields. one_of q p; [by intros [?|[?|[? _]]]|]. intros Hq. split; [done|]. split; [|by intros (_ & _ & ?)].
    apply Hsm. destruct (unaware_pc _ _ _ Hq) as [E'|[E'|E']]; by rewrite E'.
  - (* the entry has been looked at *)
    destruct (wake_fields l i s) as (_ & Eplk & Econd & _ & Epc).
    eapply (wake_scan s _ p l i (Scan l (S i)) I); [intros q; fields; by rewrite Epc|by right|left; exists (S i); split; [by left|lia]| | |by right].
    { fields. by rewrite Econd. }
    intros q l'. fields. rewrite wake_pst, Epc. one_of q p; [by intros [?|[?|[? _]]]|]. intros Hq.
    assert (Hq' : unaware (pc s q) (pst s q) l').
    { revert Hq. destruct (decide (q = i /\ _)) as [(-> & Hs & Hc)|]; [|done].
      rewrite (woken_asleep s i l I (visit_other s p l i I E) Hs Hc). by intros [?|[?|[_ ?]]]. }
    split; [done|]. split; [apply Hsm; destruct (unaware_pc _ _ _ Hq') as [E'|[E'|E']]; by rewrite E'|].
    intros (-> & -> & _). pose proof (visit_other s p l i I E) as Hv. pose proof (iv_state _ I i) as HS.
    pose proof (iv_plk _ I i i) as HP. destruct Hq' as [E'|[E'|[E' Es]]]; rewrite E' in *; simpl in *.
    + by apply Hv, HP.
    + by apply Hv, HP.
    + destruct HS as [[_ Hc]|Hr]; [|congruence]. rewrite decide_True in Hq by done. by destruct Hq as [?|[?|[_ ?]]].
  - eapply (wake_scan s _ p l N Idle I); [reflexivity|by left|right; lia|fields; done| |by right].
    intros q l'. fields. one_of q p; [by intros [?|[?|[? _]]]|]. intros Hq. split; [done|].
    assert (q < N) by (apply Hsm; destruct (unaware_pc _ _ _ Hq) as [E'|[E'|E']]; by rewrite E').
    split; [done|]. intros (_ & -> & _). lia.
Qed.

Lemma sw_inv_step p s s' : inv s -> step p s s' -> inv s'.
Proof.
  intros I St. destruct (inv_positions p s s' I St) as (H1 & H2 & H3).
  split; [by eapply inv_lk|by eapply inv_plk|by eapply inv_state|done..|by eapply inv_test|by eapply inv_wake].
Qed.

(** A process that comes in stands at [v], which holds nothing. *)
Lemma inv_come p s v : inv s -> p < N -> pc s p = Idle -> (exists l, v = WantS l \/ v = WantW l) -> inv (set_pc p v s).
Proof.
  intros I Hp E (l & Hv). pose proof I as [A1 A2 A3 A4 A5 A6 A7 A8]. split; fields.
  - apply (own_keep (fun _ => has_lk)); [exact A1|]. intros j. rewrite E. by destruct Hv as [-> | ->].
  - apply (own_keep has_plk); [exact A2|]. intros j. rewrite E. by destruct Hv as [-> | ->].
  - intros q. pose proof (A3 q) as HS. one_of q p; [|exact HS]. rewrite E in HS. by destruct Hv as [-> | ->].
  - intros q l' i. one_of q p; [by destruct Hv as [-> | ->]|apply A4].
  - intros q l' i. one_of q p; [by destruct Hv as [-> | ->]|apply A5].
  - intros q. one_of q p; [done|apply A6].
  - intros q l'. one_of q p; [by destruct Hv as [-> | ->]; intros [?|?]|apply A7].
  - eapply (wake_keep s (set_pc p v s) p v I); [reflexivity|intros; by rewrite E|done|].
    intros q l'. fields. one_of q p; [|done]. by destruct Hv as [-> | ->]; intros [?|[?|[? _]]].
Qed.

Lemma inv_enter s s' : inv s -> enter s s' -> inv s'.
Proof.
  intros I [p l Hp E|p l Hp E|i Hl Es].
  - apply inv_come; [done..|]. exists l. by left.
  - apply inv_come; [done..|]. exists l. by right.
  - pose proof I as [A1 A2 A3 A4 A5 A6 A7 A8]. split; fields; try done.
    + intros q. pose proof (A3 q) as HS. one_of q i; [|exact HS]. rewrite Es in HS.
      destruct (pc s i) eqn:E; simpl in *; try done; [|by right].
      pose proof (proj2 (A2 i i)) as HP. rewrite E in HP. specialize (HP eq_refl). congruence.
    + intros q l Hq Hl'. assert (Hu : unaware (pc s q) (pst s q) l).
      { revert Hq. one_of q i; [|done]. rewrite Es. unfold unaware. intuition. }
      destruct (A8 q l Hu Hl') as (r & k & H). by exists r, k.
Qed.

Lemma reach_inv s : reach s -> inv s.
Proof. induction 1; [apply init_inv|by eapply sw_inv_step|by eapply inv_enter]. Qed.

(** (C24) No wakeup is lost.  In every state the processes can get into, under
    any interleaving of [sleep], [wakeup], the scheduler and [kill]: if a
    process sleeps on a condition that holds, another process is in a [wakeup]
    for it whose scan has not passed the sleeper yet.  So between two calls of
    [wakeup] nobody sleeps on a condition that holds. *)
Theorem no_lost_wakeup s p l : reach s -> pc s p = Asleep l -> pst s p = SLEEPING -> cond s l = true ->
  exists q i, q <> p /\ (pc s q = Scan l i \/ pc s q = Visit l i) /\ i <= p /\ lk s l = Some q.
Proof.
  intros R Ep Es Hc. pose proof (reach_inv s R) as I.
  destruct (iv_wake _ I p l (or_intror (or_intror (conj Ep Es))) Hc) as (q & i & Hq & Hi).
  exists q, i. split; [intros ->; rewrite Ep in Hq; by destruct Hq|]. split; [done|]. split; [done|].
  apply (iv_lk _ I). by destruct Hq as [-> | ->].
Qed.

(** ** Progress *)

(** The steps a process has ahead of it; a scan pays for those it wakes. *)
Definition weight (x : pos) (st : procstate) : nat :=
  match x with
  | Idle => 0
  | Asleep _ => if bool_decide (st = SLEEPING) then 1 else 9
  | Sleep4 _ => 2
  | Sleep3 _ => 3
  | Sleep2 _ => 4
  | Sleep1 _ => 5
  | HoldS _ => 6
  | WantS _ => 7
  | Wake1 _ => 8
  | Visit _ i => 1 + 12 * (N - i)
  | Scan _ i => 2 + 12 * (N - i)
  | HoldW _ => 3 + 12 * N
  | WantW _ => 4 + 12 * N
  end.

Fixpoint msum (f : nat -> nat) (n : nat) : nat :=
  match n with
  | 0 => 0
  | S n => f n + msum f n
  end.

Definition measure (s : sys) : nat := msum (fun p => weight (pc s p) (pst s p)) N.

Lemma msum_lt (f g : nat -> nat) n p i : p < n -> i <> p -> g p + 8 < f p -> g i <= f i + 8 ->
  (forall q, q <> p -> q <> i -> g q = f q) -> msum g n < msum f n.
Proof.
  intros Hp Hi Hg Hgi Ho.
  assert (H : forall m, msum g m + (if decide (p < m) then 9 else 0) <= msum f m + (if decide (i < m) then 8 else 0)).
  { induction m as [|m IH]; simpl; [repeat case_decide; lia|].
    destruct (decide (m = p)) as [->|]; [|destruct (decide (m = i)) as [->|]; [|rewrite (Ho m) by done]];
      repeat case_decide; lia. }
  specialize (H n). repeat case_decide; lia.
Qed.

Lemma msum_lt1 (f g : nat -> nat) n p : p < n -> g p < f p -> (forall q, q <> p -> g q = f q) -> msum g n < msum f n.
Proof.
  intros Hp Hg Ho.
  assert (H : forall m, msum g m + (if decide (p < m) then 1 else 0) <= msum f m).
  { induction m as [|m IH]; simpl; [repeat case_decide; lia|].
    destruct (decide (m = p)) as [->|]; [|rewrite (Ho m) by done]; repeat case_decide; lia. }
  specialize (H n). repeat case_decide; lia.
Qed.

(** Every step makes the measure smaller. *)
Lemma step_decreases p s s' : inv s -> step p s s' -> measure s' < measure s.
Proof.
  intros I St. assert (Hp : p < N) by (apply (iv_small _ I); intros Hp; destruct St; congruence).
  pose proof (iv_state _ I p) as HS. pose proof (iv_visit _ I p) as HV. unfold measure.
  destruct St as [l E El|l b E Ec|l E|l E Ec|l E Ep|l E|l E|l E|l E Ep Es|l E|l E El|l E|l E Hi|l i E Hi Hn Ep|l i E|l E].
  15: { destruct (HV l i E) as [Hi Hne]. destruct (wake_fields l i s) as (_ & _ & _ & _ & Epc).
        apply (msum_lt _ _ N p i Hp); [done|..]; fields; rewrite Epc.
        - rewrite fupd_eq, E. unfold weight. lia.
        - rewrite fupd_ne, wake_pst by done. unfold weight. destruct (pc s i); repeat case_decide; try lia; repeat case_bool_decide; lia.
        - intros q Hq Hqi. rewrite fupd_ne, wake_pst, decide_False by (done || by intros [? _]). done. }
  all: apply (msum_lt1 _ _ N p Hp); [|intros q Hq; fields; rewrite ?fupd_ne by done; done]; fields; rewrite ?fupd_eq, E; unfold weight;
    rewrite E in HS; simpl in HS; try lia; try (rewrite Es; done); try (rewrite HS; simpl; lia).
  - rewrite (proj1 HS). simpl. lia.
  - rewrite Es. simpl. lia.
Qed.

(** A state in which no process can take a step. *)
Definition stuck (s : sys) : Prop := forall p s', ~ step p s s'.

Lemma stuck_positions s p : inv s -> stuck s ->
  pc s p = Idle \/ exists l, pc s p = Asleep l /\ pst s p = SLEEPING /\ cond s l = false.
Proof.
  intros I Hs.
  assert (H0 : forall q, match pc s q with
    | HoldS _ | Sleep2 _ | Sleep3 _ | Sleep4 _ | Wake1 _ | HoldW _ | Visit _ _ => False | _ => True end).
  { intros q. destruct (pc s q) eqn:E; try exact Logic.I; eapply (Hs q);
      [exact (st_quit _ _ _ E)|exact (st_release _ _ _ E)|exact (st_mark _ _ _ E)|exact (st_sched _ _ _ E)|exact (st_tidy _ _ _ E)
      |exact (st_set _ _ _ E)|exact (st_wake _ _ _ _ E)]. }
  assert (Hpl : forall j, plk s j = None).
  { intros j. destruct (plk s j) as [q|] eqn:E; [|done]. apply (iv_plk _ I) in E. specialize (H0 q). by destruct (pc s q). }
  assert (H1 : forall q, match pc s q with Sleep1 _ | Scan _ _ => False | _ => True end).
  { intros q. destruct (pc s q) eqn:E; try exact Logic.I; [eapply Hs; by eapply st_plock|].
    destruct (decide (i = N)) as [->|]; [eapply Hs; by eapply st_end|]. pose proof (iv_scan _ I _ _ _ E).
    destruct (decide (i = q)) as [->|]; [eapply Hs; eapply st_self; [done|lia]|]. eapply Hs; eapply st_visit; try done. lia. }
  assert (Hlk : forall l, lk s l = None).
  { intros l. destruct (lk s l) as [q|] eqn:E; [|done]. apply (iv_lk _ I) in E. specialize (H0 q). specialize (H1 q).
    by destruct (pc s q). }
  specialize (H0 p) as H0p. specialize (H1 p) as H1p. pose proof (iv_state _ I p) as HS.
  destruct (pc s p) eqn:E; try done; [by left|..].
  - exfalso. eapply Hs. by eapply st_lock.
  - right. exists l. split; [done|]. destruct HS as [[Hst _]|Hr]; [|exfalso; eapply Hs; by eapply st_run]. split; [done|].
    destruct (cond s l) eqn:Ec; [|done]. exfalso.
    destruct (iv_wake _ I p l) as (q & i & Hq & _); [rewrite E; unfold unaware; auto|done|].
    specialize (H0 q). specialize (H1 q). by destruct Hq as [E'|E']; rewrite E' in *.
  - exfalso. eapply Hs. by eapply st_wlock.
Qed.

Definition any_step (s s' : sys) : Prop := exists p, step p s s'.

Lemma steps_inv n s s' : inv s -> nsteps any_step n s s' -> inv s' /\ n + measure s' <= measure s.
Proof.
  intros I H. induction H as [s|n s1 s2 s3 [p St] _ IH]; [split; [done|lia]|].
  pose proof (sw_inv_step p s1 s2 I St) as I2. pose proof (step_decreases p s1 s2 I St). destruct (IH I2). split; [done|lia].
Qed.

(** (C25) Sleepers get on.  From every reachable state, and under every
    schedule, the processes that are in [sleep], [wakeup] and the loops around
    them take only a bounded number of steps until somebody new comes in, so
    they never run in circles and never wait for each other's locks for ever;
    and where they stop, each is out of these routines or asleep on a condition
    that does not hold. *)
Theorem sleepers_get_on s : reach s ->
  (forall n s', nsteps any_step n s s' -> n <= measure s)
  /\ (forall n s', nsteps any_step n s s' -> stuck s' -> forall p,
        pc s' p = Idle \/ exists l, pc s' p = Asleep l /\ pst s' p = SLEEPING /\ cond s' l = false).
Proof.
  intros R. pose proof (reach_inv s R) as I. split.
  - intros n s' H. destruct (steps_inv n s s' I H). lia.
  - intros n s' H Hs p. destruct (steps_inv n s s' I H) as [I' _]. by apply stuck_positions.
Qed.

(** ** A concrete run

    Process 0 goes to sleep on condition 0; process 1 sets it and is at the
    start of its scan. *)

Definition run_asleep : sys :=
  set_pc 0 (Asleep 0) (set_plk 0 None (set_pc 0 (Sleep4 0) (set_pst 0 SLEEPING (set_pch 0 (Some 0)
    (set_pc 0 (Sleep3 0) (set_lk 0 None (set_pc 0 (Sleep2 0) (set_plk 0 (Some 0)
      (set_pc 0 (Sleep1 0) (set_pc 0 (HoldS 0) (set_lk 0 (Some 0) (set_pc 0 (WantS 0) init)))))))))))).
Definition run_signal : sys :=
  set_pc 1 (Scan 0 0) (set_cond 0 true (set_pc 1 (HoldW 0) (set_lk 0 (Some 1) (set_pc 1 (WantW 0) run_asleep)))).

Lemma reach_asleep : reach run_asleep.
Proof.
  unfold run_asleep.
  eapply (reach_step 0); [|by apply (st_sched _ _ 0)]. eapply (reach_step 0); [|by apply (st_mark _ _ 0)].
  eapply (reach_step 0); [|by apply (st_release _ _ 0)]. eapply (reach_step 0); [|by apply (st_plock _ _ 0)].
  eapply (reach_step 0); [|by apply (st_sleep _ _ 0)]. eapply (reach_step 0); [|by apply (st_lock _ _ 0)].
  eapply reach_enter; [apply reach_init|]. apply en_wait; [by apply Nat.ltb_lt|done].
Qed.

Lemma reach_signal : reach run_signal.
Proof.
  unfold run_signal. eapply (reach_step 1); [|by apply (st_set _ _ 0)]. eapply (reach_step 1); [|by apply (st_wlock _ _ 0)].
  eapply reach_enter; [apply reach_asleep|]. apply en_signal; [by apply Nat.ltb_lt|done].
Qed.

Lemma no_lost_wakeup_witness : exists q i, q <> 0 /\ (pc run_signal q = Scan 0 i \/ pc run_signal q = Visit 0 i) /\ i <= 0.
Proof.
  destruct (no_lost_wakeup run_signal 0 0 reach_signal eq_refl eq_refl eq_refl) as (q & i & H1 & H2 & H3 & _). by exists q, i.
Defined.

Lemma sleepers_get_on_witness : measure run_signal = 771 /\ forall n s', nsteps any_step n run_signal s' -> n <= 771.
Proof.
  split; [vm_compute; reflexivity|]. destruct (sleepers_get_on run_signal reach_signal) as [H _].
  replace 771 with (measure run_signal) by (vm_compute; reflexivity). exact H.
Defined.

End SleepWake.
