(* ===== verification/Block.v ===== *)
(** * Disk blocks and the integers stored in them

    A block is the list of its [BSIZE] bytes.  The structures the kernel
    overlays on a block (the log header, dinodes, directory entries, indirect
    block tables, the bitmap) are read and written as little-endian integers
    at byte offsets. *)

From S2P Require Import Prelude Riscv.
From stdpp Require Import base list numbers gmap.
From Stdlib Require Import ZArith Lia.

#[local] Open Scope Z_scope.

Module Block.

Definition BSIZE : Z := 1024.

(** The contents of a block never written. *)
Definition zero_block : list Z := replicate (Z.to_nat BSIZE) 0.

Definition is_byte (b : Z) : Prop := 0 <= b < 256.

Definition block_ok (d : list Z) : Prop :=
  length d = Z.to_nat BSIZE /\ Forall is_byte d.

Fixpoint le_bytes (n : nat) (v : Z) : list Z :=
  match n with
  | O => []
  | S n' => v mod 256 :: le_bytes n' (v / 256)
  end.

Fixpoint le_value (l : list Z) : Z :=
  match l with
  | [] => 0
  | b :: l' => b + 256 * le_value l'
  end.

(** The [n]-byte unsigned integer at byte [off] of [d], and its update. *)
Definition get_le (d : list Z) (off : Z) (n : nat) : Z :=
  le_value (take n (drop (Z.to_nat off) d)).
Definition put_bytes (d : list Z) (off : Z) (bs : list Z) : list Z :=
  list_inserts (Z.to_nat off) bs d.
Definition put_le (d : list Z) (off : Z) (n : nat) (v : Z) : list Z :=
  put_bytes d off (le_bytes n v).

(** Fields of type [int]/[uint] and [short]/[ushort]. *)
Definition get_u32 (d : list Z) (off : Z) : Z := get_le d off 4.
Definition get_s32 (d : list Z) (off : Z) : Z := s32 (get_le d off 4).
Definition put32 (d : list Z) (off v : Z) : list Z := put_le d off 4 (u32 v).
Definition get_u16 (d : list Z) (off : Z) : Z := get_le d off 2.
Definition get_s16 (d : list Z) (off : Z) : Z := s16 (get_le d off 2).
Definition put16 (d : list Z) (off v : Z) : list Z := put_le d off 2 (u16 v).

Lemma length_le_bytes n v : length (le_bytes n v) = n.
Proof. revert v. induction n as [|n IH]; intros v; simpl; [done|by rewrite IH]. Qed.

Lemma le_value_bytes n v : 0 <= v < 256 ^ Z.of_nat n -> le_value (le_bytes n v) = v.
Proof.
  revert v. induction n as [|n IH]; intros v Hv; simpl.
  - change (256 ^ Z.of_nat 0) with 1 in Hv. lia.
  - rewrite Nat2Z.inj_succ, Z.pow_succ_r in Hv by lia.
    rewrite IH; [dlia|]. split; [apply Z.div_pos; lia|]. apply Z.div_lt_upper_bound; lia.
Qed.

Lemma le_bytes_ok n v : Forall is_byte (le_bytes n v).
Proof.
  revert v. induction n as [|n IH]; intros v; simpl; constructor; [|done].
  unfold is_byte. apply Z.mod_pos_bound. lia.
Qed.

Lemma le_value_range l : Forall is_byte l -> 0 <= le_value l < 256 ^ Z.of_nat (length l).
Proof.
  induction 1 as [|b l Hb Hl IH]; simpl le_value; simpl length.
  - change (256 ^ Z.of_nat 0) with 1. lia.
  - rewrite Nat2Z.inj_succ, Z.pow_succ_r by lia. unfold is_byte in Hb. lia.
Qed.

Lemma length_put_bytes d off bs : length (put_bytes d off bs) = length d.
Proof. apply length_inserts. Qed.

Lemma put_bytes_in d off bs :
  0 <= off -> off + Z.of_nat (length bs) <= Z.of_nat (length d) ->
  take (length bs) (drop (Z.to_nat off) (put_bytes d off bs)) = bs.
Proof.
  intros Ho Hl. apply list_eq. intros i.
  destruct (decide (i < length bs)%nat) as [Hi|Hi].
  - rewrite lookup_take by done. case_decide; [|lia]. rewrite lookup_drop. unfold put_bytes.
    rewrite list_lookup_inserts by lia. f_equal. lia.
  - rewrite lookup_take_ge by lia. symmetry. apply lookup_ge_None. lia.
Qed.

Lemma put_bytes_out d off bs off' n :
  0 <= off -> 0 <= off' ->
  off' + Z.of_nat n <= off \/ off + Z.of_nat (length bs) <= off' ->
  take n (drop (Z.to_nat off') (put_bytes d off bs)) = take n (drop (Z.to_nat off') d).
Proof.
  intros H1 H2 H. apply list_eq. intros i.
  destruct (decide (i < n)%nat) as [Hi|Hi].
  - rewrite !lookup_take by done. case_decide; [|lia]. rewrite !lookup_drop. unfold put_bytes.
    destruct H; [apply list_lookup_inserts_lt|apply list_lookup_inserts_ge]; lia.
  - by rewrite !lookup_take_ge by lia.
Qed.

Lemma put_bytes_ok d off bs :
  block_ok d -> Forall is_byte bs -> block_ok (put_bytes d off bs).
Proof.
  intros [Hl Hf] Hb. split; [by rewrite length_put_bytes|].
  rewrite Forall_lookup. intros i x Hx. unfold put_bytes in Hx.
  destruct (decide (Z.to_nat off <= i < Z.to_nat off + length bs)%nat) as [Hi|Hi].
  - pose proof (lookup_lt_Some _ _ _ Hx) as Hlt. rewrite length_inserts in Hlt.
    rewrite list_lookup_inserts in Hx by lia. exact (Forall_lookup_1 _ _ _ _ Hb Hx).
  - destruct (decide (i < Z.to_nat off)%nat).
    + rewrite list_lookup_inserts_lt in Hx by lia. exact (Forall_lookup_1 _ _ _ _ Hf Hx).
    + rewrite list_lookup_inserts_ge in Hx by lia. exact (Forall_lookup_1 _ _ _ _ Hf Hx).
Qed.

Lemma zero_block_ok : block_ok zero_block.
Proof. split; [done|]. unfold zero_block. apply Forall_replicate. unfold is_byte. lia. Qed.

Lemma put32_ok d off v : block_ok d -> block_ok (put32 d off v).
Proof. intros H. apply put_bytes_ok; [done|apply le_bytes_ok]. Qed.

Lemma put16_ok d off v : block_ok d -> block_ok (put16 d off v).
Proof. intros H. apply put_bytes_ok; [done|apply le_bytes_ok]. Qed.

Lemma get_put_le d off n v :
  0 <= off -> off + Z.of_nat n <= Z.of_nat (length d) -> 0 <= v < 256 ^ Z.of_nat n ->
  get_le (put_le d off n v) off n = v.
Proof.
  intros Ho Hl Hv. unfold get_le, put_le.
  rewrite <- (length_le_bytes n v) at 1.
  rewrite put_bytes_in by (rewrite ?length_le_bytes; lia). by apply le_value_bytes.
Qed.

Lemma get_put_le_ne d off n v off' n' :
  0 <= off -> 0 <= off' -> off' + Z.of_nat n' <= off \/ off + Z.of_nat n <= off' ->
  get_le (put_le d off n v) off' n' = get_le d off' n'.
Proof.
  intros H1 H2 H. unfold get_le, put_le. f_equal. apply put_bytes_out; [done..|].
  by rewrite length_le_bytes.
Qed.

Lemma get_put32 d off v :
  block_ok d -> 0 <= off <= BSIZE - 4 -> get_u32 (put32 d off v) off = u32 v.
Proof.
  intros [Hl _] Ho. unfold get_u32, put32. apply get_put_le; unfold BSIZE in *; try lia.
  apply u32_range.
Qed.

Lemma get_s32_put32 d off v :
  block_ok d -> 0 <= off <= BSIZE - 4 -> - 2 ^ 31 <= v < 2 ^ 31 -> get_s32 (put32 d off v) off = v.
Proof.
  intros Hd Ho Hv. unfold get_s32. fold (get_u32 (put32 d off v) off). rewrite get_put32 by done.
  unfold s32, u32. dlia.
Qed.

Lemma get_put32_ne d off v off' :
  0 <= off -> 0 <= off' -> off' + 4 <= off \/ off + 4 <= off' ->
  get_u32 (put32 d off v) off' = get_u32 d off'.
Proof. intros. apply get_put_le_ne; lia. Qed.

Lemma get_s32_put32_ne d off v off' :
  0 <= off -> 0 <= off' -> off' + 4 <= off \/ off + 4 <= off' ->
  get_s32 (put32 d off v) off' = get_s32 d off'.
Proof. intros. unfold get_s32. f_equal. apply get_put_le_ne; lia. Qed.

Lemma get_put16 d off v :
  block_ok d -> 0 <= off <= BSIZE - 2 -> get_u16 (put16 d off v) off = u16 v.
Proof.
  intros [Hl _] Ho. unfold get_u16, put16. apply get_put_le; unfold BSIZE in *; try lia.
  apply u16_range.
Qed.

Lemma get_le_range d off n :
  block_ok d -> 0 <= get_le d off n < 256 ^ Z.of_nat n.
Proof.
  intros [_ H]. unfold get_le.
  pose proof (le_value_range (take n (drop (Z.to_nat off) d))
    (Forall_take _ _ _ (Forall_drop _ _ _ H))) as R.
  assert (Hle : (length (take n (drop (Z.to_nat off) d)) <= n)%nat) by (rewrite length_take; lia).
  assert (256 ^ Z.of_nat (length (take n (drop (Z.to_nat off) d))) <= 256 ^ Z.of_nat n)
    by (apply Z.pow_le_mono_r; lia).
  lia.
Qed.

#[global] Arguments get_u32 : simpl never.
#[global] Arguments get_s32 : simpl never.
#[global] Arguments put32 : simpl never.
#[global] Arguments put16 : simpl never.
#[global] Arguments get_u16 : simpl never.
#[global] Arguments get_s16 : simpl never.

End Block.
