(* ===== verification/Sleeplock.v ===== *)
(** * kernel/sleeplock.c: long-term locks

    A sleep lock is the pair of its [locked] flag and the pid of its holder;
    the spinlock inside it makes each operation one atomic section.  A process
    that finds the lock held sleeps, which is the outcome [Blocked].  [pid] is
    [myproc()->pid].  [releasesleep] also calls [wakeup] on the lock; the
    component that owns the lock records that event. *)

From S2P Require Import Prelude.
From stdpp Require Import base numbers strings.
From Stdlib Require Import ZArith Lia.

#[local] Open Scope Z_scope.

Record sleeplock : Type := MkSleeplock {
  sl_locked : Z;
  sl_pid : Z
}.

Definition initsleeplock : sleeplock := MkSleeplock 0 0.

(** The body of the loop that waits for the lock runs again after a wakeup. *)
Definition acquiresleep (pid : Z) (lk : sleeplock) : outcome sleeplock :=
  if nz (sl_locked lk) then Blocked "acquiresleep" else Ret (MkSleeplock 1 pid).

Definition releasesleep (lk : sleeplock) : sleeplock := MkSleeplock 0 0.

Definition holdingsleep (pid : Z) (lk : sleeplock) : bool :=
  nz (sl_locked lk) && (sl_pid lk =? pid).

Lemma acquiresleep_free pid lk : sl_locked lk = 0 -> acquiresleep pid lk = Ret (MkSleeplock 1 pid).
Proof. unfold acquiresleep. by intros ->. Qed.

Lemma holding_acquired pid : holdingsleep pid (MkSleeplock 1 pid) = true.
Proof. unfold holdingsleep. simpl. by rewrite Z.eqb_refl. Qed.
