(* ===== verification/Ring.v ===== *)
(** * Circular doubly linked lists

    A ring of indices linked by a successor function [nx] and a predecessor
    function [pv], as the buffer cache keeps its buffers in use order: the
    shape predicate, and what unlinking an element and inserting one after the
    head do to the represented list. *)

From S2P Require Import Prelude.
From stdpp Require Import base list numbers sets.
From Stdlib Require Import ZArith Lia.

#[local] Open Scope Z_scope.

Module Ring.

(** Every two neighbours of [c] are linked both ways. *)
Fixpoint chain (nx pv : Z -> Z) (c : list Z) : Prop :=
  match c with
  | x :: (y :: _) as r => nx x = y /\ pv y = x /\ chain nx pv r
  | _ => True
  end.

(** The list [l] closed through the head [h]. *)
Definition ring (nx pv : Z -> Z) (h : Z) (l : list Z) : Prop :=
  chain nx pv (h :: l ++ [h]) /\ NoDup (h :: l).

Lemma chain_cons nx pv x y r :
  chain nx pv (x :: y :: r) <-> nx x = y /\ pv y = x /\ chain nx pv (y :: r).
Proof. reflexivity. Qed.

Lemma chain_app nx pv q p r :
  chain nx pv (q ++ p :: r) <-> chain nx pv (q ++ [p]) /\ chain nx pv (p :: r).
Proof.
  induction q as [|x q IH]; [simpl; tauto|].
  destruct q as [|y q]; [simpl; tauto|].
  change ((x :: y :: q) ++ p :: r) with (x :: y :: (q ++ p :: r)).
  change ((x :: y :: q) ++ [p]) with (x :: y :: (q ++ [p])).
  rewrite !chain_cons. change (y :: q ++ p :: r) with ((y :: q) ++ p :: r).
  rewrite IH. simpl. tauto.
Qed.

(** A chain uses [nx] on all but its last and [pv] on all but its first
    element. *)
Lemma chain_ext nx pv nx' pv' c :
  (forall x, x ∈ removelast c -> nx' x = nx x) ->
  (forall x, x ∈ tail c -> pv' x = pv x) ->
  chain nx pv c -> chain nx' pv' c.
Proof.
  induction c as [|x c IH]; [done|]. destruct c as [|y c]; [done|].
  intros Hn Hp. rewrite !chain_cons. intros (H1 & H2 & H3).
  change (removelast (x :: y :: c)) with (x :: removelast (y :: c)) in Hn. simpl tail in Hp, IH.
  split_and!.
  - rewrite Hn; [done|constructor].
  - rewrite Hp; [done|constructor].
  - apply IH; [| |done]; intros z Hz; [apply Hn|apply Hp]; by constructor.
Qed.

Lemma removelast_snoc (l : list Z) x : removelast (l ++ [x]) = l.
Proof. apply removelast_last. Qed.

Lemma ring_first nx pv h l : ring nx pv h l -> nx h = hd h l.
Proof. intros [H _]. destruct l as [|y l]; simpl in *; tauto. Qed.

Lemma ring_prev_last nx pv h l x : ring nx pv h (l ++ [x]) -> pv h = x.
Proof.
  intros [H _]. rewrite <- app_assoc in H. change (h :: l ++ [x] ++ [h]) with ((h :: l) ++ x :: [h]) in H.
  apply chain_app in H as [_ H]. simpl in H. tauto.
Qed.

Lemma ring_nx nx pv h l1 x l2 : ring nx pv h (l1 ++ x :: l2) -> nx x = hd h l2.
Proof.
  intros [H _]. rewrite <- app_assoc in H.
  change (h :: l1 ++ (x :: l2) ++ [h]) with ((h :: l1) ++ x :: (l2 ++ [h])) in H.
  apply chain_app in H as [_ H]. destruct l2 as [|y l2]; simpl in *; tauto.
Qed.

Lemma ring_pv nx pv h l1 x l2 : ring nx pv h (l1 ++ x :: l2) -> pv x = List.last l1 h.
Proof.
  intros [H _]. destruct l1 as [|a l1 _] using rev_ind; [simpl in *; tauto|].
  rewrite List.last_last. rewrite <- !app_assoc in H.
  change (h :: l1 ++ [a] ++ (x :: l2) ++ [h]) with ((h :: l1) ++ a :: x :: (l2 ++ [h])) in H.
  apply chain_app in H as [_ H]. simpl in H. tauto.
Qed.

(** Replacing the successor of [x] in [nx]. *)
Definition fset (f : Z -> Z) (x v : Z) (y : Z) : Z := if y =? x then v else f y.

Lemma fset_eq f x v : fset f x v x = v.
Proof. unfold fset. by rewrite Z.eqb_refl. Qed.
Lemma fset_ne f x v y : y <> x -> fset f x v y = f y.
Proof. unfold fset. intros H. by rewrite (proj2 (Z.eqb_neq y x) H). Qed.

Lemma ring_unlink nx pv h l1 b l2 :
  ring nx pv h (l1 ++ b :: l2) ->
  ring (fset nx (pv b) (nx b)) (fset pv (nx b) (pv b)) h (l1 ++ l2).
Proof.
  intros H. rewrite (ring_nx _ _ _ _ _ _ H), (ring_pv _ _ _ _ _ _ H).
  destruct H as [H Hnd]. rewrite <- app_assoc in H.
  change (h :: l1 ++ (b :: l2) ++ [h]) with ((h :: l1) ++ b :: (l2 ++ [h])) in H.
  apply chain_app in H as [H1 H2].
  assert (Eq : exists q p, h :: l1 = q ++ [p] /\ List.last l1 h = p /\ (p = h \/ p ∈ l1)).
  { destruct l1 as [|a l1 _] using rev_ind; [by exists [], h; auto|].
    exists (h :: l1), a. rewrite List.last_last. split_and!; [done|done|set_solver]. }
  destruct Eq as (q & p & Eq & -> & Hpin).
  assert (En : exists n r, l2 ++ [h] = n :: r /\ hd h l2 = n /\ (n = h \/ n ∈ l2)).
  { destruct l2 as [|a l2]; [by exists h, []; auto|].
    exists a, (l2 ++ [h]). split_and!; [done|done|set_solver]. }
  destruct En as (n & r & En & -> & Hnin).
  rewrite Eq, <- app_assoc in H1. apply chain_app in H1 as [H1 _]. rewrite En in H2. apply chain_cons in H2 as (_ & _ & H2).
  apply NoDup_cons in Hnd as [Hh Hnd]. apply NoDup_app in Hnd as (Hnd1 & Hd & Hnd2).
  apply NoDup_cons in Hnd2 as [Hb2 Hnd2].
  assert (Hndq : NoDup (q ++ [p])) by (rewrite <- Eq; apply NoDup_cons; split; [set_solver|done]).
  split.
  - rewrite <- app_assoc, En. change (h :: l1 ++ n :: r) with ((h :: l1) ++ n :: r). rewrite Eq, <- app_assoc.
    apply chain_app. split; [|apply chain_cons; split_and!].
    + revert H1. apply chain_ext; intros x Hx; apply fset_ne.
      * rewrite removelast_snoc in Hx. apply NoDup_app in Hndq as (_ & Hq & _). intros ->.
        apply (Hq p Hx). constructor.
      * rewrite <- Eq in Hx. simpl in Hx. intros ->. destruct Hnin as [->|Hn]; [set_solver|].
        apply (Hd n Hx). by constructor.
    + apply fset_eq.
    + apply fset_eq.
    + revert H2. rewrite <- En. apply chain_ext; intros x Hx; apply fset_ne.
      * rewrite removelast_snoc in Hx. intros ->. destruct Hpin as [->|Hp]; [set_solver|].
        apply (Hd p Hp). by constructor.
      * intros ->. destruct l2 as [|a l2]; simpl in En; injection En as <- <-; [set_solver|].
        simpl in Hx. apply NoDup_cons in Hnd2 as [Ha _]. apply elem_of_app in Hx as [Hx|Hx]; [done|].
        apply list_elem_of_singleton in Hx as ->. set_solver.
  - apply NoDup_cons. split; [set_solver|]. apply NoDup_app. split_and!; [done| |done].
    intros x Hx Hx2. apply (Hd x Hx). by constructor.
Qed.

Lemma ring_push nx pv h l b :
  ring nx pv h l -> b <> h -> b ∉ l ->
  ring (fset (fset nx b (nx h)) h b) (fset (fset pv b h) (nx h) b) h (b :: l).
Proof.
  intros H Hbh Hbl. pose proof (ring_first _ _ _ _ H) as Hf. destruct H as [H Hnd].
  apply NoDup_cons in Hnd as [Hh Hnd].
  assert (Hnh : nx h = h \/ nx h ∈ l) by (rewrite Hf; destruct l; simpl; [by left|right; constructor]).
  split; [|apply NoDup_cons; split; [set_solver|apply NoDup_cons; done]].
  change (h :: (b :: l) ++ [h]) with (h :: b :: (l ++ [h])). rewrite !chain_cons. split_and!.
  - apply fset_eq.
  - rewrite fset_ne by (destruct Hnh as [->|?]; set_solver). apply fset_eq.
  - destruct l as [|y l]; simpl app in *.
    + apply chain_cons. simpl in Hf. split_and!; [|by rewrite Hf; apply fset_eq|done].
      rewrite fset_ne by done. rewrite fset_eq. done.
    + apply chain_cons in H as (H1 & H2 & H3). apply chain_cons. rewrite H1. split_and!.
      * rewrite fset_ne by done. by rewrite fset_eq.
      * apply fset_eq.
      * revert H3. change (y :: l ++ [h]) with ((y :: l) ++ [h]). apply chain_ext; intros x Hx.
        -- rewrite removelast_snoc in Hx. rewrite !fset_ne by set_solver. done.
        -- simpl in Hx. apply NoDup_cons in Hnd as [Hy _].
           assert (x <> y) by (apply elem_of_app in Hx as [Hx|Hx]; set_solver).
           rewrite !fset_ne by set_solver. done.
Qed.

End Ring.
