(* ===== verification/Bio.v ===== *)
(** * kernel/bio.c: the buffer cache

    The [NBUF] buffers and the list head are the entries of one table, indexed
    by 0 .. NBUF - 1 and [HEAD]; [b_prev] and [b_next] are the indices the
    pointers point to.  The disk is the map from block numbers to the contents
    last written ([virtio_disk_rw] addresses the disk by block number and
    ignores the device).  [bc_trace] is the sequence of the effects that leave
    the component: completed disk writes, in order, and wakeups. *)

From S2P Require Import Prelude Riscv ProcDefs Block Sleeplock.
From stdpp Require Import base list numbers gmap strings.
From Stdlib Require Import ZArith Lia.

#[local] Open Scope Z_scope.

Import Block.

Inductive event : Type :=
| EvWrite (blockno : Z) (data : list Z)
| EvWakeup (c : chan).

Record buf : Type := MkBuf {
  b_valid : Z;
  b_dev : Z;
  b_blockno : Z;
  b_lock : sleeplock;
  b_refcnt : Z;
  b_prev : Z;
  b_next : Z;
  b_data : list Z
}.

Definition buf0 : buf := MkBuf 0 0 0 initsleeplock 0 0 0 zero_block.

Definition set_valid (v : Z) (b : buf) : buf :=
  MkBuf v (b_dev b) (b_blockno b) (b_lock b) (b_refcnt b) (b_prev b) (b_next b) (b_data b).
Definition set_dev (v : Z) (b : buf) : buf :=
  MkBuf (b_valid b) v (b_blockno b) (b_lock b) (b_refcnt b) (b_prev b) (b_next b) (b_data b).
Definition set_blockno (v : Z) (b : buf) : buf :=
  MkBuf (b_valid b) (b_dev b) v (b_lock b) (b_refcnt b) (b_prev b) (b_next b) (b_data b).
Definition set_lock (v : sleeplock) (b : buf) : buf :=
  MkBuf (b_valid b) (b_dev b) (b_blockno b) v (b_refcnt b) (b_prev b) (b_next b) (b_data b).
Definition set_refcnt (v : Z) (b : buf) : buf :=
  MkBuf (b_valid b) (b_dev b) (b_blockno b) (b_lock b) v (b_prev b) (b_next b) (b_data b).
Definition set_prev (v : Z) (b : buf) : buf :=
  MkBuf (b_valid b) (b_dev b) (b_blockno b) (b_lock b) (b_refcnt b) v (b_next b) (b_data b).
Definition set_next (v : Z) (b : buf) : buf :=
  MkBuf (b_valid b) (b_dev b) (b_blockno b) (b_lock b) (b_refcnt b) (b_prev b) v (b_data b).
Definition set_data (v : list Z) (b : buf) : buf :=
  MkBuf (b_valid b) (b_dev b) (b_blockno b) (b_lock b) (b_refcnt b) (b_prev b) (b_next b) v.

Record bst : Type := MkBst {
  bc_buf : gmap Z buf;
  bc_disk : gmap Z (list Z);
  bc_trace : list event
}.

Definition HEAD : Z := NBUF.

(** The buffer at index [i], and its update. *)
Definition bf (s : bst) (i : Z) : buf := default buf0 (bc_buf s !! i).
Definition upd (i : Z) (f : buf -> buf) (s : bst) : bst :=
  MkBst (<[i := f (bf s i)]> (bc_buf s)) (bc_disk s) (bc_trace s).
Definition emit (e : event) (s : bst) : bst :=
  MkBst (bc_buf s) (bc_disk s) (bc_trace s ++ [e]).

(** The contents of a disk block. *)
Definition dblock (d : gmap Z (list Z)) (bn : Z) : list Z := default zero_block (d !! bn).

Module Bio.

Definition binit (s : bst) : bst :=
  let s := upd HEAD (set_prev HEAD) s in
  let s := upd HEAD (set_next HEAD) s in
  for_range 0 NBUF (fun s b =>
    let s := upd b (set_next (b_next (bf s HEAD))) s in
    let s := upd b (set_prev HEAD) s in
    let s := upd b (set_lock initsleeplock) s in
    let s := upd (b_next (bf s HEAD)) (set_prev b) s in
    upd HEAD (set_next b) s) s.

(** The two searches of [bget], from [b] on. *)
Fixpoint bget_cached (fuel : nat) (s : bst) (b dev blockno : Z) : outcome (option Z) :=
  if b =? HEAD then Ret None else
  match fuel with
  | O => Fuel
  | S n =>
      if (b_dev (bf s b) =? dev) && (b_blockno (bf s b) =? blockno) then Ret (Some b)
      else bget_cached n s (b_next (bf s b)) dev blockno
  end.

Fixpoint bget_unused (fuel : nat) (s : bst) (b : Z) : outcome (option Z) :=
  if b =? HEAD then Ret None else
  match fuel with
  | O => Fuel
  | S n =>
      if b_refcnt (bf s b) =? 0 then Ret (Some b) else bget_unused n s (b_prev (bf s b))
  end.

Definition bfuel : nat := Z.to_nat NBUF.

(** [acquiresleep(&b->lock)]. *)
Definition lock_buf (pid b : Z) (s : bst) : outcome bst :=
  lk ← acquiresleep pid (b_lock (bf s b)); Ret (upd b (set_lock lk) s).

Definition bget (pid dev blockno : Z) (s : bst) : outcome (Z * bst) :=
  hit ← bget_cached bfuel s (b_next (bf s HEAD)) dev blockno;
  match hit with
  | Some b =>
      let s := upd b (fun x => set_refcnt (u32 (b_refcnt x + 1)) x) s in
      s ← lock_buf pid b s; Ret (b, s)
  | None =>
      free ← bget_unused bfuel s (b_prev (bf s HEAD));
      match free with
      | Some b =>
          let s := upd b (set_dev dev) s in
          let s := upd b (set_blockno blockno) s in
          let s := upd b (set_valid 0) s in
          let s := upd b (set_refcnt 1) s in
          s ← lock_buf pid b s; Ret (b, s)
      | None => Panic "bget: no buffers"
      end
  end.

(** The contract of the driver's [virtio_disk_rw] when a request has
    completed: a read fills the buffer, a write stores its contents. *)
Definition disk_rw (b write : Z) (s : bst) : bst :=
  let bn := b_blockno (bf s b) in
  if nz write then
    emit (EvWrite bn (b_data (bf s b)))
      (MkBst (bc_buf s) (<[bn := b_data (bf s b)]> (bc_disk s)) (bc_trace s))
  else upd b (set_data (dblock (bc_disk s) bn)) s.

Definition bread (pid dev blockno : Z) (s : bst) : outcome (Z * bst) :=
  '(b, s) ← bget pid dev blockno s;
  if nz (b_valid (bf s b)) then Ret (b, s)
  else Ret (b, upd b (set_valid 1) (disk_rw b 0 s)).

Definition bwrite (pid b : Z) (s : bst) : outcome bst :=
  if holdingsleep pid (b_lock (bf s b)) then Ret (disk_rw b 1 s)
  else Panic "bwrite".

Definition brelse (pid b : Z) (s : bst) : outcome bst :=
  if negb (holdingsleep pid (b_lock (bf s b))) then Panic "brelse" else
  let s := upd b (fun x => set_lock (releasesleep (b_lock x)) x) s in
  let s := emit (EvWakeup (ChObj "buf" (Z.to_nat b))) s in
  let s := upd b (fun x => set_refcnt (u32 (b_refcnt x - 1)) x) s in
  if b_refcnt (bf s b) =? 0 then
    let s := upd (b_next (bf s b)) (set_prev (b_prev (bf s b))) s in
    let s := upd (b_prev (bf s b)) (set_next (b_next (bf s b))) s in
    let s := upd b (set_next (b_next (bf s HEAD))) s in
    let s := upd b (set_prev HEAD) s in
    let s := upd (b_next (bf s HEAD)) (set_prev b) s in
    Ret (upd HEAD (set_next b) s)
  else Ret s.

Definition bpin (b : Z) (s : bst) : bst :=
  upd b (fun x => set_refcnt (u32 (b_refcnt x + 1)) x) s.

Definition bunpin (b : Z) (s : bst) : bst :=
  upd b (fun x => set_refcnt (u32 (b_refcnt x - 1)) x) s.

End Bio.
