(* ===== verification/BioSpec.v ===== *)
(** * The buffer cache: invariant and specifications

    [bcache_ok] is the invariant of the cache: the buffers form one ring, a
    block of the root device has at most one buffer, a locked buffer is
    referenced, and a valid buffer nobody references has the contents of its
    disk block.  Seen from outside the cache is [cview] (the current contents
    of each block), [pins] (how many references a block has) and [nfree] (how
    many buffers can be recycled); the specifications of the operations are
    given in these terms and in terms of [held], what a caller knows of a
    buffer it got from [bread]. *)

From S2P Require Import Prelude Riscv ProcDefs Block Sleeplock Ring Bio.
From stdpp Require Import base list numbers gmap strings sets sorting.
From Stdlib Require Import ZArith Lia Permutation.

#[local] Open Scope Z_scope.

Import Block Ring Bio.

Module BioSpec.

Definition bidx (i : Z) : Prop := 0 <= i < NBUF.

Definition nxs (s : bst) (i : Z) : Z := b_next (bf s i).
Definition pvs (s : bst) (i : Z) : Z := b_prev (bf s i).

(** Buffer [i] caches block [bn] of the root device. *)
Definition caches (s : bst) (bn i : Z) : bool :=
  (b_dev (bf s i) =? ROOTDEV) && (b_blockno (bf s i) =? bn).

Definition lookup_buf (s : bst) (bn : Z) : option Z :=
  List.find (caches s bn) (seqZ 0 NBUF).

(** The current contents of a block, the number of its references, and the
    number of buffers that can be recycled. *)
Definition cview (s : bst) (bn : Z) : list Z :=
  match lookup_buf s bn with
  | Some i => if nz (b_valid (bf s i)) then b_data (bf s i) else dblock (bc_disk s) bn
  | None => dblock (bc_disk s) bn
  end.
Definition pins (s : bst) (bn : Z) : Z :=
  match lookup_buf s bn with Some i => b_refcnt (bf s i) | None => 0 end.
Definition unlocked (s : bst) (bn : Z) : Prop :=
  forall i, lookup_buf s bn = Some i -> sl_locked (b_lock (bf s i)) = 0.
Definition nfree (s : bst) : nat :=
  length (filter (fun i => b_refcnt (bf s i) = 0) (seqZ 0 NBUF)).

Record bcache_ok (s : bst) : Prop := MkBcacheOk {
  bo_ring : exists l, ring (nxs s) (pvs s) HEAD l /\ l ≡ₚ seqZ 0 NBUF;
  bo_uniq : forall i j bn, bidx i -> bidx j -> caches s bn i = true -> caches s bn j = true -> i = j;
  bo_valid : forall i, bidx i -> b_valid (bf s i) = 0 \/ b_valid (bf s i) = 1;
  bo_root : forall i, bidx i -> b_valid (bf s i) <> 0 -> b_dev (bf s i) = ROOTDEV;
  bo_refs : forall i, bidx i -> 0 <= b_refcnt (bf s i) < 2 ^ 31;
  bo_lock : forall i, bidx i -> sl_locked (b_lock (bf s i)) <> 0 -> b_refcnt (bf s i) <> 0;
  bo_clean : forall i, bidx i -> b_valid (bf s i) <> 0 -> b_refcnt (bf s i) = 0 ->
    b_data (bf s i) = dblock (bc_disk s) (b_blockno (bf s i))
}.

(** Process [pid] has buffer [b] of block [bn] locked, with contents [d]. *)
Record held (s : bst) (pid b bn : Z) (d : list Z) : Prop := MkHeld {
  h_idx : bidx b;
  h_dev : b_dev (bf s b) = ROOTDEV;
  h_blockno : b_blockno (bf s b) = bn;
  h_valid : b_valid (bf s b) = 1;
  h_lock : b_lock (bf s b) = MkSleeplock 1 pid;
  h_data : b_data (bf s b) = d;
  h_refs : 1 <= b_refcnt (bf s b)
}.

(** ** Updates *)

Lemma bf_upd i f s j : bf (upd i f s) j = if decide (j = i) then f (bf s i) else bf s j.
Proof.
  unfold bf, upd. simpl. case_decide as E; [subst j; by rewrite lookup_insert_eq|].
  by rewrite lookup_insert_ne by done.
Qed.
Lemma bf_upd_eq i f s : bf (upd i f s) i = f (bf s i).
Proof. by rewrite bf_upd, decide_True. Qed.
Lemma bf_upd_ne i f s j : j <> i -> bf (upd i f s) j = bf s j.
Proof. intros H. by rewrite bf_upd, decide_False. Qed.
Lemma bf_emit e s j : bf (emit e s) j = bf s j.
Proof. done. Qed.

Lemma bidx_head i : bidx i -> i <> HEAD.
Proof. unfold bidx, HEAD. lia. Qed.

Lemma elem_seq i : i ∈ seqZ 0 NBUF <-> bidx i.
Proof. rewrite elem_of_seqZ. unfold bidx. lia. Qed.

Lemma caches_true s bn i :
  caches s bn i = true <-> b_dev (bf s i) = ROOTDEV /\ b_blockno (bf s i) = bn.
Proof. unfold caches. rewrite andb_true_iff, !Z.eqb_eq. done. Qed.

Lemma lookup_buf_some s bn i :
  bcache_ok s -> bidx i -> caches s bn i = true -> lookup_buf s bn = Some i.
Proof.
  intros H Hi Hc. unfold lookup_buf. destruct (List.find _ _) as [j|] eqn:E.
  - apply List.find_some in E as [Hj Hcj]. apply list_elem_of_In, elem_seq in Hj.
    f_equal. by eapply bo_uniq.
  - apply (List.find_none _ _) with (x := i) in E; [congruence|].
    by apply list_elem_of_In, elem_seq.
Qed.

Lemma lookup_buf_spec s bn i :
  lookup_buf s bn = Some i -> bidx i /\ caches s bn i = true.
Proof.
  unfold lookup_buf. intros E. apply List.find_some in E as [Hj Hcj].
  by apply list_elem_of_In, elem_seq in Hj.
Qed.

Lemma lookup_buf_none s bn i : lookup_buf s bn = None -> bidx i -> caches s bn i = false.
Proof.
  unfold lookup_buf. intros E Hi. apply (List.find_none _ _) with (x := i) in E; [done|].
  by apply list_elem_of_In, elem_seq.
Qed.

(** The abstract state depends on the fields of the buffers only. *)
Lemma lookup_buf_ext s s' bn :
  (forall i, bidx i -> caches s' bn i = caches s bn i) -> lookup_buf s' bn = lookup_buf s bn.
Proof.
  intros H. unfold lookup_buf. assert (Hall : forall i, i ∈ seqZ 0 NBUF -> caches s' bn i = caches s bn i).
  { intros i Hi. by apply H, elem_seq. }
  clear H. induction (seqZ 0 NBUF) as [|i l IH]; [done|]. simpl.
  rewrite Hall by constructor. destruct (caches s bn i); [done|].
  apply IH. intros j Hj. apply Hall. by constructor.
Qed.

(** ** The searches of bget *)

Lemma bget_cached_ring s dev bn l1 l2 :
  ring (nxs s) (pvs s) HEAD (l1 ++ l2) -> (forall i, i ∈ l1 ++ l2 -> bidx i) ->
  bget_cached (length l2) s (hd HEAD l2) dev bn =
    Ret (List.find (fun i => (b_dev (bf s i) =? dev) && (b_blockno (bf s i) =? bn)) l2).
Proof.
  revert l1. induction l2 as [|i l2 IH]; intros l1 Hr Hi; [done|].
  cbn [length hd bget_cached List.find].
  assert (Hb : bidx i) by (apply Hi; set_solver).
  rewrite (proj2 (Z.eqb_neq _ _) (bidx_head i Hb)). case_if; [done|].
  replace (b_next (bf s i)) with (hd HEAD l2) by (symmetry; exact (ring_nx _ _ _ _ _ _ Hr)).
  apply (IH (l1 ++ [i])); rewrite <- app_assoc; done.
Qed.

Lemma bget_unused_ring s l1 l2 :
  ring (nxs s) (pvs s) HEAD (l1 ++ l2) -> (forall i, i ∈ l1 ++ l2 -> bidx i) ->
  bget_unused (length l1) s (List.last l1 HEAD) =
    Ret (List.find (fun i => b_refcnt (bf s i) =? 0) (rev l1)).
Proof.
  revert l2. induction l1 as [|i l1 IH] using rev_ind; intros l2 Hr Hi; [done|].
  rewrite List.last_last, length_app, Nat.add_comm, rev_unit. cbn [length Nat.add bget_unused List.find].
  assert (Hb : bidx i) by (apply Hi; set_solver).
  rewrite (proj2 (Z.eqb_neq _ _) (bidx_head i Hb)). case_if; [done|].
  rewrite <- app_assoc in Hr, Hi. replace (b_prev (bf s i)) with (List.last l1 HEAD)
    by (symmetry; exact (ring_pv _ _ _ _ _ _ Hr)).
  by apply (IH ([i] ++ l2)).
Qed.

Lemma find_unique (f : Z -> bool) l i :
  i ∈ l -> f i = true -> (forall j, j ∈ l -> f j = true -> j = i) -> List.find f l = Some i.
Proof.
  intros Hi Hf Hu. destruct (List.find f l) as [j|] eqn:E.
  - apply List.find_some in E as [Hj Hfj]. f_equal. apply Hu; [by apply list_elem_of_In|done].
  - apply (List.find_none _ _) with (x := i) in E; [congruence|by apply list_elem_of_In].
Qed.

Lemma find_nothing (f : Z -> bool) l :
  (forall j, j ∈ l -> f j = false) -> List.find f l = None.
Proof.
  intros H. destruct (List.find f l) as [j|] eqn:E; [|done].
  apply List.find_some in E as [Hj Hfj]. apply list_elem_of_In in Hj. rewrite H in Hfj; done.
Qed.

Lemma bget_cached_spec s bn :
  bcache_ok s -> bget_cached bfuel s (b_next (bf s HEAD)) ROOTDEV bn = Ret (lookup_buf s bn).
Proof.
  intros H. destruct (bo_ring s H) as (l & Hr & Hp).
  assert (Hi : forall i, i ∈ l <-> bidx i) by (intros i; rewrite Hp; apply elem_seq).
  replace (b_next (bf s HEAD)) with (hd HEAD l) by (symmetry; exact (ring_first _ _ _ _ Hr)).
  replace bfuel with (length l) by (rewrite Hp; apply length_seqZ).
  rewrite (bget_cached_ring s ROOTDEV bn [] l Hr) by (intros i; apply Hi). f_equal.
  destruct (lookup_buf s bn) as [i|] eqn:E.
  - apply lookup_buf_spec in E as [Hb Hc]. apply find_unique; [by apply Hi|exact Hc|].
    intros j Hj Hcj. eapply bo_uniq; eauto. by apply Hi.
  - apply find_nothing. intros j Hj. apply (lookup_buf_none s bn j E). by apply Hi.
Qed.

Lemma bget_unused_find s :
  bcache_ok s -> exists l, (forall i, i ∈ l <-> bidx i) /\
    bget_unused bfuel s (b_prev (bf s HEAD)) = Ret (List.find (fun i => b_refcnt (bf s i) =? 0) l).
Proof.
  intros H. destruct (bo_ring s H) as (l & Hr & Hp).
  assert (Hi : forall i, i ∈ l <-> bidx i) by (intros i; rewrite Hp; apply elem_seq).
  exists (rev l). split.
  { intros i. rewrite <- Hi, !list_elem_of_In. symmetry. apply in_rev. }
  assert (Hl : b_prev (bf s HEAD) = List.last l HEAD).
  { destruct l as [|x l _] using rev_ind; [|rewrite List.last_last; exact (ring_prev_last _ _ _ _ _ Hr)].
    apply Permutation_nil in Hp. discriminate. }
  rewrite Hl. replace bfuel with (length l) by (rewrite Hp; apply length_seqZ).
  apply (bget_unused_ring s l []); rewrite app_nil_r; [done|]. intros i. apply Hi.
Qed.

Lemma elem_free s i :
  i ∈ filter (fun i => b_refcnt (bf s i) = 0) (seqZ 0 NBUF) <-> b_refcnt (bf s i) = 0 /\ bidx i.
Proof. rewrite list_elem_of_filter, elem_seq. done. Qed.

Lemma bget_unused_spec s :
  bcache_ok s -> (0 < nfree s)%nat ->
  exists b, bget_unused bfuel s (b_prev (bf s HEAD)) = Ret (Some b) /\ bidx b /\ b_refcnt (bf s b) = 0.
Proof.
  intros H Hf. destruct (bget_unused_find s H) as (l & Hi & ->).
  destruct (List.find _ l) as [b|] eqn:E.
  - apply List.find_some in E as [Hb Hz]. exists b. split; [done|].
    split; [by apply Hi, list_elem_of_In|by apply Z.eqb_eq].
  - exfalso. unfold nfree in Hf. destruct (filter _ _) as [|i r] eqn:Ef; [simpl in Hf; lia|].
    assert (Hin : i ∈ i :: r) by constructor. rewrite <- Ef in Hin. apply elem_free in Hin as [Hz Hin].
    apply (List.find_none _ _) with (x := i) in E; [by apply Z.eqb_neq in E|].
    by apply list_elem_of_In, Hi.
Qed.

(** [bget] panics when every buffer is referenced. *)
Lemma bget_none s pid bn :
  bcache_ok s -> lookup_buf s bn = None -> nfree s = O ->
  bget pid ROOTDEV bn s = Panic "bget: no buffers".
Proof.
  intros H Hn Hf. unfold bget. rewrite bget_cached_spec, Hn by done. cbn [mbind outcome_bind].
  destruct (bget_unused_find s H) as (l & Hi & ->).
  rewrite find_nothing; [done|]. intros j Hj. apply Z.eqb_neq. intros Hz.
  assert (Hin := proj2 (elem_free s j) (conj Hz (proj1 (Hi j) Hj))).
  unfold nfree in Hf. apply nil_length_inv in Hf. rewrite Hf in Hin. by apply elem_of_nil in Hin.
Qed.

(** ** bread *)

(** What [bread] does to the table: only buffer [b] changes. *)
Record took (s s' : bst) (pid bn b r : Z) : Prop := MkTook {
  tk_from : lookup_buf s bn = Some b /\ r = b_refcnt (bf s b)
    \/ lookup_buf s bn = None /\ b_refcnt (bf s b) = 0 /\ r = 0;
  tk_idx : bidx b;
  tk_buf : bf s' b = MkBuf 1 ROOTDEV bn (MkSleeplock 1 pid) (r + 1)
             (b_prev (bf s b)) (b_next (bf s b)) (cview s bn);
  tk_rest : forall j, j <> b -> bf s' j = bf s j;
  tk_disk : bc_disk s' = bc_disk s;
  tk_trace : bc_trace s' = bc_trace s
}.

Lemma lock_buf_free pid b s :
  sl_locked (b_lock (bf s b)) = 0 -> lock_buf pid b s = Ret (upd b (set_lock (MkSleeplock 1 pid)) s).
Proof. intros H. unfold lock_buf. by rewrite acquiresleep_free. Qed.

Lemma bget_hit pid bn s b :
  bcache_ok s -> lookup_buf s bn = Some b -> unlocked s bn ->
  bget pid ROOTDEV bn s = Ret (b, upd b (set_lock (MkSleeplock 1 pid))
    (upd b (set_refcnt (b_refcnt (bf s b) + 1)) s)).
Proof.
  intros H E Hu. unfold bget. rewrite bget_cached_spec, E by done. cbn [mbind outcome_bind].
  destruct (lookup_buf_spec _ _ _ E) as [Hb Hc]. pose proof (bo_refs s H b Hb) as Hr.
  rewrite lock_buf_free.
  - cbn [mbind outcome_bind]. do 2 f_equal. unfold upd. rewrite u32_small by lia. done.
  - rewrite bf_upd_eq. simpl. by apply Hu.
Qed.

Lemma bget_miss pid bn s :
  bcache_ok s -> lookup_buf s bn = None -> (0 < nfree s)%nat ->
  exists b, bidx b /\ b_refcnt (bf s b) = 0 /\
  bget pid ROOTDEV bn s = Ret (b, upd b (set_lock (MkSleeplock 1 pid))
    (upd b (set_refcnt 1) (upd b (set_valid 0) (upd b (set_blockno bn) (upd b (set_dev ROOTDEV) s))))).
Proof.
  intros H E Hf. destruct (bget_unused_spec s H Hf) as (b & Eu & Hb & Hz).
  exists b. split; [done|]. split; [done|]. unfold bget.
  rewrite bget_cached_spec, E by done. cbn [mbind outcome_bind]. rewrite Eu.
  cbn [mbind outcome_bind]. rewrite lock_buf_free; [done|].
  rewrite !bf_upd_eq. simpl. destruct (decide (sl_locked (b_lock (bf s b)) = 0)) as [->|Hl]; [done|].
  by destruct (bo_lock s H b Hb Hl).
Qed.

Ltac bf_simpl := repeat (rewrite bf_emit || rewrite bf_upd_eq);
  cbn [set_lock set_refcnt set_valid set_blockno set_dev set_data set_prev set_next
       b_valid b_dev b_blockno b_lock b_refcnt b_prev b_next b_data bc_disk bc_trace upd emit].

Lemma buf_ext x y :
  b_valid x = b_valid y -> b_dev x = b_dev y -> b_blockno x = b_blockno y -> b_lock x = b_lock y ->
  b_refcnt x = b_refcnt y -> b_prev x = b_prev y -> b_next x = b_next y -> b_data x = b_data y -> x = y.
Proof. destruct x, y. simpl. congruence. Qed.

Lemma nz_valid s b : bcache_ok s -> bidx b ->
  nz (b_valid (bf s b)) = true /\ b_valid (bf s b) = 1 \/
  nz (b_valid (bf s b)) = false /\ b_valid (bf s b) = 0.
Proof. intros H Hb. destruct (bo_valid s H b Hb) as [->| ->]; auto. Qed.

Lemma disk_read b s : disk_rw b 0 s = upd b (set_data (dblock (bc_disk s) (b_blockno (bf s b)))) s.
Proof. reflexivity. Qed.

Lemma bread_took pid bn s :
  bcache_ok s -> unlocked s bn -> (0 < pins s bn \/ (0 < nfree s)%nat) ->
  exists b r s', bread pid ROOTDEV bn s = Ret (b, s') /\ took s s' pid bn b r.
Proof.
  intros H Hu Hf. unfold bread. destruct (lookup_buf s bn) as [b|] eqn:E.
  - destruct (lookup_buf_spec _ _ _ E) as [Hb Hc]. apply caches_true in Hc as [Hd Hn].
    rewrite (bget_hit pid bn s b) by done. cbn [mbind outcome_bind].
    rewrite disk_read. bf_simpl. destruct (nz_valid s b H Hb) as [[Ev Ev']|[Ev Ev']]; rewrite Ev;
      (eexists b, _, _; split; [done|]; split;
        [by left|done| |intros j Hj; by rewrite ?bf_upd_ne|done|done]);
      apply buf_ext; bf_simpl; try done; unfold cview; by rewrite E, Ev, ?Hn.
  - destruct Hf as [Hf|Hf]; [unfold pins in Hf; rewrite E in Hf; lia|].
    destruct (bget_miss pid bn s H E Hf) as (b & Hb & Hz & ->). cbn [mbind outcome_bind].
    rewrite disk_read. bf_simpl. change (nz 0) with false. cbv iota.
    eexists b, 0, _. split; [done|]. split; try done; [by right| |].
    + apply buf_ext; bf_simpl; try done. unfold cview. by rewrite E.
    + intros j Hj. by rewrite ?bf_upd_ne.
Qed.

(** ** Changing one buffer *)

Lemma ring_same s s' l :
  (forall i, nxs s' i = nxs s i) -> (forall i, pvs s' i = pvs s i) ->
  ring (nxs s) (pvs s) HEAD l -> ring (nxs s') (pvs s') HEAD l.
Proof. intros Hn Hp [H1 H2]. split; [|done]. revert H1. apply chain_ext; auto. Qed.

Lemma length_filter_pos (P Q : Z -> Prop) `{!forall x, Decision (P x), !forall x, Decision (Q x)} l b :
  NoDup l -> b ∈ l -> (forall i, i ∈ l -> i <> b -> P i <-> Q i) ->
  (length (filter Q l) + (if decide (P b) then 1 else 0))%nat
  = (length (filter P l) + (if decide (Q b) then 1 else 0))%nat.
Proof.
  induction l as [|i l IH]; intros Hnd Hb Hext; [by apply elem_of_nil in Hb|].
  apply NoDup_cons in Hnd as [Hi Hnd]. apply elem_of_cons in Hb as [->|Hb].
  - assert (E : length (filter P l) = length (filter Q l)).
    { clear IH Hnd. assert (Hl : forall j, j ∈ l -> P j <-> Q j)
        by (intros j Hj; apply Hext; [by constructor|by intros ->]). clear Hext Hi.
      induction l as [|j l IH]; [done|]. rewrite !filter_cons.
      pose proof (Hl j (list_elem_of_here _ _)). specialize (IH (fun k Hk => Hl k (list_elem_of_further _ _ _ Hk))).
      destruct (decide (P j)), (decide (Q j)); simpl; try lia; tauto. }
    rewrite !filter_cons. repeat case_decide; simpl; lia.
  - assert (Hne : i <> b) by (intros ->; done).
    specialize (IH Hnd Hb (fun j Hj => Hext j (list_elem_of_further _ _ _ Hj))).
    pose proof (Hext i (list_elem_of_here _ _) Hne) as Hii. rewrite !filter_cons.
    destruct (decide (P i)), (decide (Q i)); simpl; try lia; tauto.
Qed.

(** What an operation on the buffer of block [bn] leaves alone. *)
Record others (s s' : bst) (bn : Z) : Prop := MkOthers {
  ot_unlocked : forall x, x <> bn -> unlocked s x -> unlocked s' x;
  ot_held : forall pid b x d, x <> bn -> held s pid b x d -> held s' pid b x d
}.

Lemma lookup_buf_iff s bn i :
  bcache_ok s -> lookup_buf s bn = Some i <-> bidx i /\ caches s bn i = true.
Proof.
  intros H. split; [apply lookup_buf_spec|]. intros [Hi Hc]. by apply lookup_buf_some.
Qed.

Lemma held_lookup s pid b bn d : bcache_ok s -> held s pid b bn d -> lookup_buf s bn = Some b.
Proof. intros H [Hi Hd Hn _ _ _ _]. apply lookup_buf_some; [done|done|]. by rewrite caches_true. Qed.

Lemma held_view s pid b bn d : bcache_ok s -> held s pid b bn d -> cview s bn = d.
Proof.
  intros H Hh. unfold cview. rewrite (held_lookup _ _ _ _ _ H Hh).
  rewrite (h_valid _ _ _ _ _ Hh). apply Hh.
Qed.

Lemma held_pins s pid b bn d : bcache_ok s -> held s pid b bn d -> pins s bn = b_refcnt (bf s b).
Proof. intros H Hh. unfold pins. by rewrite (held_lookup _ _ _ _ _ H Hh). Qed.

Section Took.
Context (s s' : bst) (pid bn b r : Z).
Hypothesis Hok : bcache_ok s.
Hypothesis T : took s s' pid bn b r.

#[local] Lemma took_caches x i :
  caches s' x i = if decide (i = b) then bool_decide (x = bn) else caches s x i.
Proof using T.
  unfold caches. case_decide as E; [subst i|by rewrite (tk_rest _ _ _ _ _ _ T)].
  rewrite (tk_buf _ _ _ _ _ _ T). cbn [b_dev b_blockno]. rewrite Z.eqb_refl. simpl.
  destruct (bool_decide_reflect (x = bn)) as [->|Hne]; [apply Z.eqb_refl|]. apply Z.eqb_neq. congruence.
Qed.

#[local] Lemma took_hit i : bidx i -> caches s bn i = true -> i = b.
Proof using T Hok.
  intros Hi Hc. destruct (tk_from _ _ _ _ _ _ T) as [[E _]|[E _]].
  - destruct (lookup_buf_spec _ _ _ E) as [Hb Hcb]. by eapply bo_uniq.
  - by rewrite (lookup_buf_none _ _ _ E Hi) in Hc.
Qed.

#[local] Lemma took_pins : pins s bn = r /\ (b_refcnt (bf s b) = 0 <-> r = 0).
Proof using T.
  unfold pins. destruct (tk_from _ _ _ _ _ _ T) as [[-> ->]|(-> & -> & ->)]; done.
Qed.

Lemma took_ok : r < 2 ^ 31 - 1 -> bcache_ok s'.
Proof using T Hok.
  intros Hr. pose proof (tk_buf _ _ _ _ _ _ T) as Eb. pose proof (tk_rest _ _ _ _ _ _ T) as Er.
  pose proof (bo_refs s Hok b (tk_idx _ _ _ _ _ _ T)) as Hrb. destruct took_pins as [_ Hrz].
  assert (Hr0 : 0 <= r) by (destruct (tk_from _ _ _ _ _ _ T) as [[_ ->]|(_ & _ & ->)]; lia).
  split.
  - destruct (bo_ring s Hok) as (l & Hl & Hp). exists l. split; [|done].
    revert Hl. apply ring_same; intros i; unfold nxs, pvs;
      (destruct (decide (i = b)) as [->|Hne]; [by rewrite Eb|by rewrite Er]).
  - intros i j x Hi Hj. rewrite !took_caches. repeat case_decide; subst; try done.
    + intros _ Hc. symmetry. by apply took_hit.
    + intros Hc _. by apply took_hit.
    + by apply (bo_uniq s Hok).
  - intros i Hi. destruct (decide (i = b)) as [->|Hne]; [rewrite Eb; by right|rewrite Er by done; by apply Hok].
  - intros i Hi. destruct (decide (i = b)) as [->|Hne]; [by rewrite Eb|rewrite Er by done; by apply Hok].
  - intros i Hi. destruct (decide (i = b)) as [->|Hne]; [rewrite Eb; simpl; lia|rewrite Er by done; by apply Hok].
  - intros i Hi. destruct (decide (i = b)) as [->|Hne]; [rewrite Eb; simpl; lia|rewrite Er by done; by apply Hok].
  - intros i Hi. rewrite (tk_disk _ _ _ _ _ _ T).
    destruct (decide (i = b)) as [->|Hne]; [rewrite Eb; simpl; lia|rewrite Er by done; by apply Hok].
Qed.

Lemma took_abs :
  bcache_ok s' ->
  held s' pid b bn (cview s bn) /\ (forall x, cview s' x = cview s x)
  /\ (forall x, pins s' x = pins s x + (if decide (x = bn) then 1 else 0))
  /\ nfree s = (nfree s' + (if decide (pins s bn = 0)%Z then 1 else 0))%nat
  /\ others s s' bn.
Proof using T Hok.
  intros Hok'. pose proof (tk_buf _ _ _ _ _ _ T) as Eb. pose proof (tk_rest _ _ _ _ _ _ T) as Er.
  pose proof (tk_idx _ _ _ _ _ _ T) as Hb. destruct took_pins as [Hp Hrz].
  assert (Hr0 : 0 <= r) by (pose proof (bo_refs s' Hok' b Hb) as H1; rewrite Eb in H1; simpl in H1;
    destruct (tk_from _ _ _ _ _ _ T) as [[_ ->]|(_ & _ & ->)]; [apply (bo_refs s Hok b Hb)|lia]).
  assert (Hbn : lookup_buf s' bn = Some b).
  { apply lookup_buf_some; [done|done|]. rewrite took_caches, decide_True by done.
    by apply bool_decide_eq_true. }
  assert (Hx : forall x, x <> bn ->
    (exists i, i <> b /\ lookup_buf s x = Some i /\ lookup_buf s' x = Some i)
    \/ lookup_buf s' x = None /\ (lookup_buf s x = None
          \/ lookup_buf s x = Some b /\ b_refcnt (bf s b) = 0)).
  { intros x Hne. destruct (lookup_buf s' x) as [i|] eqn:E'.
    - apply lookup_buf_iff in E' as [Hi Hc]; [|done]. rewrite took_caches in Hc.
      case_decide as Eib; [by apply bool_decide_eq_true in Hc|].
      left. exists i. split_and!; [done|by apply lookup_buf_some|done].
    - right. split; [done|]. destruct (lookup_buf s x) as [i|] eqn:E; [right|by left].
      apply lookup_buf_iff in E as [Hi Hc]; [|done].
      pose proof (lookup_buf_none _ _ _ E' Hi) as Hc'. rewrite took_caches in Hc'.
      case_decide as Eib; [subst i|congruence]. split; [done|].
      destruct (tk_from _ _ _ _ _ _ T) as [[Eh _]|(_ & Hz & _)]; [|done].
      apply lookup_buf_iff in Eh as [_ Hcb]; [|done]. apply caches_true in Hc as [_ Hc], Hcb as [_ Hcb]. congruence. }
  split; [|split; [|split; [|split]]].
  - split; rewrite ?Eb; simpl; try done. lia.
  - intros x. unfold cview at 1. destruct (decide (x = bn)) as [->|Hne].
    + by rewrite Hbn, Eb.
    + unfold cview. rewrite (tk_disk _ _ _ _ _ _ T).
      destruct (Hx x Hne) as [(i & Hi & -> & ->)|[-> [->|[Eb' Hz]]]]; [by rewrite Er|done|].
      rewrite Eb'. apply lookup_buf_iff in Eb' as [_ Hc]; [|done]. apply caches_true in Hc as [_ Hc].
      destruct (nz_valid s b Hok Hb) as [[-> Hv]|[-> _]]; [|done].
      rewrite (bo_clean s Hok b Hb) by (done || lia). by rewrite Hc.
  - intros x. case_decide as E; [subst x; rewrite Hp; unfold pins; by rewrite Hbn, Eb|].
    unfold pins. destruct (Hx x E) as [(i & Hi & -> & ->)|[-> [->|[-> Hz]]]]; [rewrite Er by done|..]; lia.
  - unfold nfree. pose proof (length_filter_pos (fun i => b_refcnt (bf s i) = 0)
      (fun i => b_refcnt (bf s' i) = 0) (seqZ 0 NBUF) b (NoDup_seqZ _ _)) as Hl.
    rewrite elem_seq in Hl. specialize (Hl Hb).
    rewrite Hp. destruct (decide (b_refcnt (bf s' b) = 0)) as [Hc|_]; [rewrite Eb in Hc; simpl in Hc; lia|].
    specialize (Hl ltac:(intros i _ Hne; by rewrite Er)).
    destruct (decide (b_refcnt (bf s b) = 0)), (decide (r = 0)); lia || tauto.
  - split.
    + intros x Hne Hu i E'. destruct (Hx x Hne) as [(j & Hj & E & Ej)|[E _]]; [|congruence].
      rewrite E' in Ej. injection Ej as <-. rewrite Er by done. by apply Hu.
    + intros pid0 b0 x d Hne Hh. assert (Hb0 : b0 <> b).
      { intros ->. pose proof (held_lookup _ _ _ _ _ Hok Hh) as Hl. pose proof (h_refs _ _ _ _ _ Hh).
        destruct (Hx x Hne) as [(i & Hi & E & _)|[_ [E|[E Hz]]]]; [congruence..|lia]. }
      destruct Hh. split; rewrite ?Er; done.
Qed.

End Took.

(** ** Operations on a held buffer *)

(** Buffer [b] keeps its identity and its place; the disk may change at its
    block only. *)
Record touch (s s' : bst) (b : Z) : Prop := MkTouch {
  tc_dev : b_dev (bf s' b) = b_dev (bf s b);
  tc_blockno : b_blockno (bf s' b) = b_blockno (bf s b);
  tc_valid : b_valid (bf s' b) = b_valid (bf s b);
  tc_prev : b_prev (bf s' b) = b_prev (bf s b);
  tc_next : b_next (bf s' b) = b_next (bf s b);
  tc_rest : forall j, j <> b -> bf s' j = bf s j;
  tc_disk : forall x, x <> b_blockno (bf s b) -> dblock (bc_disk s') x = dblock (bc_disk s) x
}.

Section Touch.
Context (s s' : bst) (pid b bn : Z) (d : list Z).
Hypothesis Hok : bcache_ok s.
Hypothesis Hh : held s pid b bn d.
Hypothesis T : touch s s' b.

#[local] Lemma touch_caches x i : caches s' x i = caches s x i.
Proof using T.
  unfold caches. destruct (decide (i = b)) as [->|Hne].
  - by rewrite (tc_dev _ _ _ T), (tc_blockno _ _ _ T).
  - by rewrite (tc_rest _ _ _ T).
Qed.

Lemma touch_lookup x : lookup_buf s' x = lookup_buf s x.
Proof using T. apply lookup_buf_ext. intros i _. apply touch_caches. Qed.

Lemma touch_ok :
  0 <= b_refcnt (bf s' b) < 2 ^ 31 ->
  (sl_locked (b_lock (bf s' b)) <> 0 -> b_refcnt (bf s' b) <> 0) ->
  (b_refcnt (bf s' b) = 0 -> b_data (bf s' b) = dblock (bc_disk s') bn) ->
  bcache_ok s'.
Proof using T Hok Hh.
  intros Hr Hl Hc. pose proof (tc_rest _ _ _ T) as Er. split.
  - destruct (bo_ring s Hok) as (l & Hring & Hp). exists l. split; [|done].
    revert Hring. apply ring_same; intros i; unfold nxs, pvs; (destruct (decide (i = b)) as [->|Hne];
      [by rewrite ?(tc_prev _ _ _ T), ?(tc_next _ _ _ T)|by rewrite Er]).
  - intros i j x Hi Hj. rewrite !touch_caches. by apply Hok.
  - intros i Hi. destruct (decide (i = b)) as [->|Hne]; [rewrite (tc_valid _ _ _ T)|rewrite Er by done];
      by apply Hok.
  - intros i Hi. destruct (decide (i = b)) as [->|Hne];
      [rewrite (tc_valid _ _ _ T), (tc_dev _ _ _ T)|rewrite Er by done]; by apply Hok.
  - intros i Hi. destruct (decide (i = b)) as [->|Hne]; [done|rewrite Er by done]; by apply Hok.
  - intros i Hi. destruct (decide (i = b)) as [->|Hne]; [done|rewrite Er by done]; by apply Hok.
  - intros i Hi. destruct (decide (i = b)) as [->|Hne].
    + intros _ Hz. rewrite (tc_blockno _ _ _ T), (h_blockno _ _ _ _ _ Hh). by apply Hc.
    + rewrite Er by done. intros Hv Hz. rewrite (tc_disk _ _ _ T); [by apply Hok|].
      intros E. apply Hne. apply (bo_uniq s Hok i b bn Hi (h_idx _ _ _ _ _ Hh)); apply caches_true.
      * split; [by apply (bo_root s Hok)|]. rewrite E. apply Hh.
      * split; apply Hh.
Qed.

Lemma touch_abs :
  (forall x, cview s' x = if decide (x = bn) then b_data (bf s' b) else cview s x)
  /\ (forall x, pins s' x = if decide (x = bn) then b_refcnt (bf s' b) else pins s x)
  /\ (b_refcnt (bf s' b) <> 0 -> nfree s' = nfree s)
  /\ (b_refcnt (bf s' b) = 0 -> nfree s' = S (nfree s))
  /\ others s s' bn.
Proof using T Hok Hh.
  pose proof (tc_rest _ _ _ T) as Er. pose proof (held_lookup _ _ _ _ _ Hok Hh) as Hl.
  pose proof (h_refs _ _ _ _ _ Hh) as Href.
  assert (Hx : forall x i, x <> bn -> lookup_buf s x = Some i -> i <> b).
  { intros x i Hne E ->. apply lookup_buf_spec in E as [_ E]. apply caches_true in E as [_ E].
    rewrite (h_blockno _ _ _ _ _ Hh) in E. done. }
  pose proof (length_filter_pos (fun i => b_refcnt (bf s i) = 0)
    (fun i => b_refcnt (bf s' i) = 0) (seqZ 0 NBUF) b (NoDup_seqZ _ _)
    (proj2 (elem_seq b) (h_idx _ _ _ _ _ Hh)) ltac:(intros i _ Hne; cbv beta; by rewrite Er)) as Hn.
  fold (nfree s) in Hn. fold (nfree s') in Hn.
  destruct (decide (b_refcnt (bf s b) = 0)); [lia|].
  split_and!.
  - intros x. unfold cview. rewrite touch_lookup. destruct (decide (x = bn)) as [->|E].
    + by rewrite Hl, (tc_valid _ _ _ T), (h_valid _ _ _ _ _ Hh).
    + rewrite (tc_disk _ _ _ T) by (rewrite (h_blockno _ _ _ _ _ Hh); done).
      destruct (lookup_buf s x) as [i|] eqn:E'; [|done]. by rewrite Er by eauto.
  - intros x. unfold pins. rewrite touch_lookup. destruct (decide (x = bn)) as [->|E]; [by rewrite Hl|].
    destruct (lookup_buf s x) as [i|] eqn:E'; [|done]. by rewrite Er by eauto.
  - intros Hz. rewrite decide_False in Hn by done. lia.
  - intros Hz. rewrite decide_True in Hn by done. lia.
  - split.
    + intros x Hne Hu i E'. rewrite touch_lookup in E'. rewrite Er by eauto. by apply Hu.
    + intros pid0 b0 x d0 Hne Hh0. assert (Hb0 : b0 <> b).
      { eapply Hx; [exact Hne|]. by eapply held_lookup. }
      destruct Hh0. split; rewrite ?Er; done.
Qed.

End Touch.

Lemma bread_spec pid bn s :
  bcache_ok s -> unlocked s bn -> pins s bn < 2 ^ 31 - 1 -> (0 < pins s bn \/ (0 < nfree s)%nat) ->
  exists b s', bread pid ROOTDEV bn s = Ret (b, s') /\ bcache_ok s'
    /\ held s' pid b bn (cview s bn) /\ (forall x, cview s' x = cview s x)
    /\ (forall x, pins s' x = pins s x + (if decide (x = bn) then 1 else 0))
    /\ nfree s = (nfree s' + (if decide (pins s bn = 0)%Z then 1 else 0))%nat
    /\ others s s' bn /\ bc_disk s' = bc_disk s /\ bc_trace s' = bc_trace s.
Proof.
  intros H Hu Hp Hf. destruct (bread_took pid bn s H Hu Hf) as (b & r & s' & E & T).
  assert (Hr : r < 2 ^ 31 - 1).
  { unfold pins in Hp. destruct (tk_from _ _ _ _ _ _ T) as [[El ->]|(_ & _ & ->)]; [by rewrite El in Hp|lia]. }
  pose proof (took_ok _ _ _ _ _ _ H T Hr) as H'.
  destruct (took_abs _ _ _ _ _ _ H T H') as (A1 & A2 & A3 & A4 & A5).
  exists b, s'. split_and!; try done; apply T.
Qed.

(** Storing into the data of a held buffer. *)
Lemma set_data_spec pid b bn d d' s :
  bcache_ok s -> held s pid b bn d ->
  let s' := upd b (set_data d') s in
  bcache_ok s' /\ held s' pid b bn d'
  /\ (forall x, cview s' x = if decide (x = bn) then d' else cview s x)
  /\ (forall x, pins s' x = pins s x) /\ nfree s' = nfree s /\ others s s' bn.
Proof.
  intros H Hh s'. assert (T : touch s s' b).
  { subst s'. split; bf_simpl; try done. intros j Hj. by rewrite bf_upd_ne. }
  pose proof (h_refs _ _ _ _ _ Hh) as Hr. pose proof (bo_refs s H b (h_idx _ _ _ _ _ Hh)) as Hr2.
  assert (Er : b_refcnt (bf s' b) = b_refcnt (bf s b)) by (subst s'; by bf_simpl).
  assert (Ed : b_data (bf s' b) = d') by (subst s'; by bf_simpl).
  destruct (touch_abs _ _ _ _ _ _ H Hh T) as (A1 & A2 & A3 & _ & A5).
  split_and!; try done.
  - apply (touch_ok _ _ _ _ _ _ H Hh T); rewrite Er; lia.
  - destruct Hh. split; subst s'; bf_simpl; done.
  - intros x. by rewrite A1, Ed.
  - intros x. rewrite A2, Er. case_decide as E; [|done]. subst x. by rewrite (held_pins _ _ _ _ _ H Hh).
  - apply A3. rewrite Er. lia.
Qed.

Lemma dblock_insert m x d y : dblock (<[x := d]> m) y = if decide (y = x) then d else dblock m y.
Proof.
  unfold dblock. case_decide as E; [subst; by rewrite lookup_insert_eq|by rewrite lookup_insert_ne].
Qed.

Lemma bwrite_spec pid b bn d s :
  bcache_ok s -> held s pid b bn d ->
  exists s', bwrite pid b s = Ret s' /\ bcache_ok s' /\ held s' pid b bn d
  /\ (forall x, cview s' x = cview s x)
  /\ (forall x, pins s' x = pins s x) /\ nfree s' = nfree s /\ others s s' bn
  /\ bc_disk s' = <[bn := d]> (bc_disk s) /\ bc_trace s' = bc_trace s ++ [EvWrite bn d].
Proof.
  intros H Hh. unfold bwrite. rewrite (h_lock _ _ _ _ _ Hh), holding_acquired.
  eexists. split; [done|]. unfold disk_rw. change (nz 1) with true. cbv iota zeta.
  rewrite (h_blockno _ _ _ _ _ Hh), (h_data _ _ _ _ _ Hh).
  set (s' := emit _ _). assert (T : touch s s' b).
  { split; try done. intros x Hx. simpl. rewrite dblock_insert.
    rewrite (h_blockno _ _ _ _ _ Hh) in Hx. by rewrite decide_False. }
  pose proof (h_refs _ _ _ _ _ Hh) as Hr. pose proof (bo_refs s H b (h_idx _ _ _ _ _ Hh)) as Hr2.
  assert (Eb : bf s' b = bf s b) by done.
  destruct (touch_abs _ _ _ _ _ _ H Hh T) as (A1 & A2 & A3 & _ & A5).
  split_and!; try done.
  - apply (touch_ok _ _ _ _ _ _ H Hh T); rewrite Eb; lia.
  - destruct Hh. split; rewrite ?Eb; done.
  - intros x. rewrite A1, Eb. case_decide as E; [|done]. subst x.
    by rewrite (held_view _ _ _ _ _ H Hh), (h_data _ _ _ _ _ Hh).
Qed.

(** A change of the reference count that leaves the buffer referenced:
    [bpin], and [bunpin] while the buffer is also held. *)
Lemma repin_spec pid b bn d s r :
  bcache_ok s -> held s pid b bn d -> 1 <= r < 2 ^ 31 ->
  let s' := upd b (set_refcnt r) s in
  bcache_ok s' /\ held s' pid b bn d /\ (forall x, cview s' x = cview s x)
  /\ (forall x, pins s' x = if decide (x = bn) then r else pins s x)
  /\ nfree s' = nfree s /\ others s s' bn.
Proof.
  intros H Hh Hr s'. assert (T : touch s s' b).
  { subst s'. split; bf_simpl; try done. intros j Hj. by rewrite bf_upd_ne. }
  assert (Er : b_refcnt (bf s' b) = r) by (subst s'; by bf_simpl).
  assert (Ed : b_data (bf s' b) = d) by (subst s'; bf_simpl; apply Hh).
  destruct (touch_abs _ _ _ _ _ _ H Hh T) as (A1 & A2 & A3 & _ & A5).
  split_and!; try done.
  - apply (touch_ok _ _ _ _ _ _ H Hh T); rewrite Er; lia.
  - destruct Hh. split; subst s'; bf_simpl; try done; lia.
  - intros x. rewrite A1, Ed. case_decide as E; [|done]. subst x. by rewrite (held_view _ _ _ _ _ H Hh).
  - intros x. by rewrite A2, Er.
  - apply A3. rewrite Er. lia.
Qed.

Lemma bpin_spec pid b bn d s :
  bcache_ok s -> held s pid b bn d -> pins s bn < 2 ^ 31 - 1 ->
  let s' := bpin b s in
  bcache_ok s' /\ held s' pid b bn d /\ (forall x, cview s' x = cview s x)
  /\ (forall x, pins s' x = if decide (x = bn) then pins s bn + 1 else pins s x)
  /\ nfree s' = nfree s /\ others s s' bn.
Proof.
  intros H Hh Hp. pose proof (h_refs _ _ _ _ _ Hh). rewrite (held_pins _ _ _ _ _ H Hh) in *.
  unfold bpin, upd. rewrite u32_small by lia. apply repin_spec with (r := b_refcnt (bf s b) + 1); [done..|lia].
Qed.

Lemma bunpin_spec pid b bn d s :
  bcache_ok s -> held s pid b bn d -> 2 <= pins s bn ->
  let s' := bunpin b s in
  bcache_ok s' /\ held s' pid b bn d /\ (forall x, cview s' x = cview s x)
  /\ (forall x, pins s' x = if decide (x = bn) then pins s bn - 1 else pins s x)
  /\ nfree s' = nfree s /\ others s s' bn.
Proof.
  intros H Hh Hp. pose proof (bo_refs s H b (h_idx _ _ _ _ _ Hh)) as Hr.
  rewrite (held_pins _ _ _ _ _ H Hh) in *.
  unfold bunpin, upd. rewrite u32_small by lia. apply repin_spec with (r := b_refcnt (bf s b) - 1); [done..|lia].
Qed.

(** ** brelse *)

(** The moves of [brelse] that make [b] the most recently used buffer. *)
Definition move_front (b : Z) (s : bst) : bst :=
  let s := upd (b_next (bf s b)) (set_prev (b_prev (bf s b))) s in
  let s := upd (b_prev (bf s b)) (set_next (b_next (bf s b))) s in
  let s := upd b (set_next (b_next (bf s HEAD))) s in
  let s := upd b (set_prev HEAD) s in
  let s := upd (b_next (bf s HEAD)) (set_prev b) s in
  upd HEAD (set_next b) s.

Lemma nxs_set_next s i v j : nxs (upd i (set_next v) s) j = fset (nxs s) i v j.
Proof.
  unfold nxs, fset. rewrite bf_upd. destruct (decide (j = i)) as [->|Hne]; [by rewrite Z.eqb_refl|].
  by rewrite (proj2 (Z.eqb_neq _ _) Hne).
Qed.
Lemma nxs_set_prev s i v j : nxs (upd i (set_prev v) s) j = nxs s j.
Proof. unfold nxs. rewrite bf_upd. by destruct (decide (j = i)) as [->|Hne]. Qed.
Lemma pvs_set_prev s i v j : pvs (upd i (set_prev v) s) j = fset (pvs s) i v j.
Proof.
  unfold pvs, fset. rewrite bf_upd. destruct (decide (j = i)) as [->|Hne]; [by rewrite Z.eqb_refl|].
  by rewrite (proj2 (Z.eqb_neq _ _) Hne).
Qed.
Lemma pvs_set_next s i v j : pvs (upd i (set_next v) s) j = pvs s j.
Proof. unfold pvs. rewrite bf_upd. by destruct (decide (j = i)) as [->|Hne]. Qed.

(** All fields but the links agree. *)
Definition same_fields (x y : buf) : Prop :=
  b_valid x = b_valid y /\ b_dev x = b_dev y /\ b_blockno x = b_blockno y /\ b_lock x = b_lock y
  /\ b_refcnt x = b_refcnt y /\ b_data x = b_data y.

Lemma upd_links i f s j :
  (forall x, same_fields (f x) x) -> same_fields (bf (upd i f s) j) (bf s j).
Proof.
  intros H. rewrite bf_upd. destruct (decide (j = i)) as [->|Hne]; [apply H|]. by split_and!.
Qed.

Lemma same_fields_trans x y z : same_fields x y -> same_fields y z -> same_fields x z.
Proof. unfold same_fields. intuition congruence. Qed.

Lemma move_front_fields b s j : same_fields (bf (move_front b s) j) (bf s j).
Proof.
  unfold move_front. cbv zeta.
  repeat (eapply same_fields_trans; [apply upd_links; intros x; by split_and!|]). by split_and!.
Qed.

Lemma move_front_disk b s : bc_disk (move_front b s) = bc_disk s /\ bc_trace (move_front b s) = bc_trace s.
Proof. done. Qed.

Lemma ring_ext nx pv nx' pv' h l :
  (forall i, nx' i = nx i) -> (forall i, pv' i = pv i) -> ring nx pv h l -> ring nx' pv' h l.
Proof. intros Hn Hp [H1 H2]. split; [|done]. revert H1. apply chain_ext; auto. Qed.

Lemma move_front_ring s b l1 l2 :
  ring (nxs s) (pvs s) HEAD (l1 ++ b :: l2) ->
  ring (nxs (move_front b s)) (pvs (move_front b s)) HEAD (b :: l1 ++ l2).
Proof.
  intros Hr. pose proof (ring_nx _ _ _ _ _ _ Hr) as En. pose proof (ring_pv _ _ _ _ _ _ Hr) as Ep.
  pose proof (proj2 Hr) as Hnd. apply NoDup_cons in Hnd as [Hh Hnd].
  apply NoDup_app in Hnd as (_ & Hd & Hnd2). apply NoDup_cons in Hnd2 as [Hb2 _].
  assert (Hbh : b <> HEAD) by set_solver.
  assert (Hnb : nxs s b <> b).
  { rewrite En. destruct l2 as [|x l2]; simpl; [done|]. intros ->. apply Hb2. constructor. }
  pose proof (ring_unlink _ _ _ _ _ _ Hr) as Hr1.
  apply ring_push with (b := b) in Hr1; [|done|set_solver].
  revert Hr1. apply ring_ext; intros i; unfold move_front; cbv zeta;
    set (s1 := upd (b_next (bf s b)) (set_prev (b_prev (bf s b))) s);
    assert (E1 : b_next (bf s1 b) = nxs s b) by (fold (nxs s1 b); apply nxs_set_prev);
    assert (E2 : b_prev (bf s1 b) = pvs s b)
      by (fold (pvs s1 b); unfold s1; rewrite pvs_set_prev; by apply fset_ne);
    rewrite E1, E2; set (s2 := upd (pvs s b) (set_next (nxs s b)) s1);
    assert (E3 : forall j, nxs s2 j = fset (nxs s) (pvs s b) (nxs s b) j)
      by (intros j; unfold s2; rewrite nxs_set_next; unfold fset, s1; by rewrite nxs_set_prev);
    assert (E4 : forall j, pvs s2 j = fset (pvs s) (nxs s b) (pvs s b) j)
      by (intros j; unfold s2; rewrite pvs_set_next; apply pvs_set_prev);
    fold (nxs s2 HEAD); set (s3 := upd b (set_next (nxs s2 HEAD)) s2);
    set (s4 := upd b (set_prev HEAD) s3);
    assert (E5 : b_next (bf s4 HEAD) = nxs s2 HEAD)
      by (fold (nxs s4 HEAD); unfold s4; rewrite nxs_set_prev; unfold s3; rewrite nxs_set_next; by apply fset_ne);
    rewrite E5.
  - rewrite nxs_set_next. unfold fset at 1 2. case_if; [done|]. rewrite nxs_set_prev. unfold s4.
    rewrite nxs_set_prev. unfold s3. rewrite nxs_set_next, E3. unfold fset at 1 3. by rewrite E3.
  - rewrite pvs_set_next, pvs_set_prev, E3. unfold fset at 1 3. case_if; [done|]. unfold s4.
    rewrite pvs_set_prev. unfold s3. unfold fset at 1 2. case_if; [done|]. by rewrite pvs_set_next, E4.
Qed.

(** Relinking the buffers changes nothing else. *)
Section Relink.
Context (s s' : bst).
Hypothesis F : forall j, same_fields (bf s' j) (bf s j).
Hypothesis D : bc_disk s' = bc_disk s.

Lemma relink_lookup x : lookup_buf s' x = lookup_buf s x.
Proof using F.
  apply lookup_buf_ext. intros i _. unfold caches. by destruct (F i) as (_ & -> & -> & _).
Qed.

Lemma relink_ok :
  bcache_ok s -> (exists l, ring (nxs s') (pvs s') HEAD l /\ l ≡ₚ seqZ 0 NBUF) -> bcache_ok s'.
Proof using F D.
  intros H Hr. split; [done|..].
  - intros i j x Hi Hj. unfold caches. destruct (F i) as (_ & -> & -> & _), (F j) as (_ & -> & -> & _).
    by apply (bo_uniq s H).
  - intros i Hi. destruct (F i) as (-> & _). by apply H.
  - intros i Hi. destruct (F i) as (-> & -> & _). by apply H.
  - intros i Hi. destruct (F i) as (_ & _ & _ & _ & -> & _). by apply H.
  - intros i Hi. destruct (F i) as (_ & _ & _ & -> & -> & _). by apply H.
  - intros i Hi. destruct (F i) as (-> & _ & -> & _ & -> & ->). rewrite D. by apply H.
Qed.

Lemma relink_abs :
  (forall x, cview s' x = cview s x) /\ (forall x, pins s' x = pins s x) /\ nfree s' = nfree s
  /\ (forall x, unlocked s x -> unlocked s' x)
  /\ (forall pid b x d, held s pid b x d -> held s' pid b x d).
Proof using F D.
  split_and!.
  - intros x. unfold cview. rewrite relink_lookup, D. destruct (lookup_buf s x) as [i|]; [|done].
    by destruct (F i) as (-> & _ & _ & _ & _ & ->).
  - intros x. unfold pins. rewrite relink_lookup. destruct (lookup_buf s x) as [i|]; [|done].
    by destruct (F i) as (_ & _ & _ & _ & -> & _).
  - unfold nfree. f_equal. apply list_filter_iff. intros i. by destruct (F i) as (_ & _ & _ & _ & -> & _).
  - intros x Hu i. rewrite relink_lookup. destruct (F i) as (_ & _ & _ & -> & _). apply Hu.
  - intros pid b x d []. destruct (F b) as (E1 & E2 & E3 & E4 & E5 & E6). split; congruence.
Qed.

End Relink.

Lemma others_trans s1 s2 s3 bn : others s1 s2 bn -> others s2 s3 bn -> others s1 s3 bn.
Proof. intros [A1 A2] [B1 B2]. split; eauto. Qed.

Lemma brelse_spec pid b bn d s :
  bcache_ok s -> held s pid b bn d -> (1 < pins s bn \/ d = dblock (bc_disk s) bn) ->
  exists s', brelse pid b s = Ret s' /\ bcache_ok s' /\ (forall x, cview s' x = cview s x)
    /\ (forall x, pins s' x = pins s x - (if decide (x = bn) then 1 else 0))
    /\ nfree s' = (nfree s + (if decide (pins s bn = 1)%Z then 1 else 0))%nat
    /\ others s s' bn /\ unlocked s' bn /\ bc_disk s' = bc_disk s
    /\ bc_trace s' = bc_trace s ++ [EvWakeup (ChObj "buf" (Z.to_nat b))].
Proof.
  intros H Hh Hc. pose proof (h_refs _ _ _ _ _ Hh) as Hr.
  pose proof (bo_refs s H b (h_idx _ _ _ _ _ Hh)) as Hr2. pose proof (held_pins _ _ _ _ _ H Hh) as Hp.
  unfold brelse. rewrite (h_lock _ _ _ _ _ Hh), holding_acquired. simpl negb. cbv iota zeta.
  set (s1 := upd b _ (emit _ _)).
  assert (Er : b_refcnt (bf s1 b) = b_refcnt (bf s b) - 1).
  { subst s1. bf_simpl. apply u32_small. lia. }
  assert (El : sl_locked (b_lock (bf s1 b)) = 0) by (subst s1; by bf_simpl).
  assert (Ed : b_data (bf s1 b) = d) by (subst s1; bf_simpl; apply Hh).
  assert (T : touch s s1 b).
  { subst s1. split; bf_simpl; try done. intros j Hj. rewrite bf_upd_ne, bf_emit, bf_upd_ne; done. }
  destruct (touch_abs _ _ _ _ _ _ H Hh T) as (A1 & A2 & A3 & A4 & A5).
  assert (H1 : bcache_ok s1).
  { apply (touch_ok _ _ _ _ _ _ H Hh T); rewrite ?Er, ?El, ?Ed; [lia|lia|]. intros Hz.
    destruct Hc as [Hc| ->]; [lia|done]. }
  assert (V1 : forall x, cview s1 x = cview s x).
  { intros x. rewrite A1, Ed. case_decide as E; [|done]. subst x. by rewrite (held_view _ _ _ _ _ H Hh). }
  assert (P1 : forall x, pins s1 x = pins s x - (if decide (x = bn) then 1 else 0)).
  { intros x. rewrite A2, Er. case_decide as E; [subst x; lia|lia]. }
  assert (U1 : unlocked s1 bn).
  { intros i. rewrite (touch_lookup _ _ _ T), (held_lookup _ _ _ _ _ H Hh). intros [= <-]. done. }
  rewrite Er, Hp. destruct (decide (b_refcnt (bf s b) = 1)) as [E1|E1].
  - rewrite E1 in *. change (1 - 1 =? 0) with true. cbv iota. fold (move_front b s1).
    eexists. split; [done|].
    destruct (relink_abs s1 (move_front b s1) (move_front_fields b s1) eq_refl) as (B1 & B2 & B3 & B4 & B5).
    assert (H2 : bcache_ok (move_front b s1)).
    { apply (relink_ok s1); [apply move_front_fields|done|done|].
      destruct (bo_ring s1 H1) as (l & Hl & Hperm).
      assert (Hb : b ∈ l) by (rewrite Hperm; apply elem_seq, Hh).
      apply list_elem_of_split in Hb as (l1 & l2 & ->). exists (b :: l1 ++ l2).
      split; [by apply move_front_ring|]. by rewrite <- Hperm, Permutation_middle. }
    split_and!; try done.
    + intros x. by rewrite B1.
    + intros x. by rewrite B2.
    + rewrite B3, A4; [lia|]. lia.
    + eapply others_trans; [exact A5|]. split; eauto.
    + by apply B4.
  - rewrite (proj2 (Z.eqb_neq _ _)) by lia. eexists. split; [done|]. split_and!; try done.
    rewrite A3; lia.
Qed.

(** ** binit *)

Definition fresh_buf (x : buf) : bool :=
  (b_valid x =? 0) && (b_dev x =? 0) && (b_refcnt x =? 0) && (sl_locked (b_lock x) =? 0).

Lemma fresh_buf_spec x : fresh_buf x = true ->
  b_valid x = 0 /\ b_dev x = 0 /\ b_refcnt x = 0 /\ sl_locked (b_lock x) = 0.
Proof. unfold fresh_buf. rewrite !andb_true_iff, !Z.eqb_eq. tauto. Qed.

Section Fresh.
Context (s : bst).
Hypothesis Hring : ring (nxs s) (pvs s) HEAD (reverse (seqZ 0 NBUF)).
Hypothesis Hfresh : forallb (fun i => fresh_buf (bf s i)) (seqZ 0 NBUF) = true.

#[local] Lemma fresh_fields i : bidx i ->
  b_valid (bf s i) = 0 /\ b_dev (bf s i) = 0 /\ b_refcnt (bf s i) = 0 /\ sl_locked (b_lock (bf s i)) = 0.
Proof using Hfresh.
  intros Hi. apply fresh_buf_spec. rewrite forallb_forall in Hfresh. apply Hfresh.
  by apply list_elem_of_In, elem_seq.
Qed.

#[local] Lemma fresh_lookup x : lookup_buf s x = None.
Proof using Hfresh.
  unfold lookup_buf. apply find_nothing. intros i Hi%elem_seq. unfold caches.
  by destruct (fresh_fields i Hi) as (_ & -> & _).
Qed.

Lemma fresh_ok : bcache_ok s.
Proof using Hring Hfresh.
  split.
  - exists (reverse (seqZ 0 NBUF)). split; [done|apply reverse_Permutation].
  - intros i j x Hi Hj Hc. apply caches_true in Hc as [Hc _].
    destruct (fresh_fields i Hi) as (_ & E & _). by rewrite E in Hc.
  - intros i Hi. left. by apply fresh_fields.
  - intros i Hi Hv. by destruct (fresh_fields i Hi) as (E & _).
  - intros i Hi. destruct (fresh_fields i Hi) as (_ & _ & -> & _). lia.
  - intros i Hi Hl. by destruct (fresh_fields i Hi) as (_ & _ & _ & E).
  - intros i Hi Hv. by destruct (fresh_fields i Hi) as (E & _).
Qed.

Lemma fresh_abs :
  (forall x, cview s x = dblock (bc_disk s) x) /\ (forall x, pins s x = 0) /\ (forall x, unlocked s x)
  /\ nfree s = Z.to_nat NBUF.
Proof using Hfresh.
  split_and!.
  - intros x. unfold cview. by rewrite fresh_lookup.
  - intros x. unfold pins. by rewrite fresh_lookup.
  - intros x i. by rewrite fresh_lookup.
  - unfold nfree. transitivity (length (seqZ 0 NBUF)); [|apply length_seqZ].
    assert (H : forall i, i ∈ seqZ 0 NBUF -> b_refcnt (bf s i) = 0) by (intros i Hi%elem_seq; by apply fresh_fields).
    revert H. generalize (seqZ 0 NBUF). intros L. induction L as [|i l IH]; intros H; [done|].
    rewrite filter_cons_True by (apply H; constructor). simpl. f_equal. apply IH. intros j Hj. apply H. by constructor.
Qed.

End Fresh.

(** The cache at boot, over a disk [D]: the static table is zeroed. *)
Definition boot (D : gmap Z (list Z)) : bst := binit (MkBst ∅ D []).

Lemma boot_check D : forallb (fun i => fresh_buf (bf (boot D) i)) (seqZ 0 NBUF) = true.
Proof. vm_compute. reflexivity. Qed.

Lemma boot_ring D : ring (nxs (boot D)) (pvs (boot D)) HEAD (reverse (seqZ 0 NBUF)).
Proof.
  split; [vm_compute; repeat split|]. apply NoDup_cons. split.
  - rewrite elem_of_reverse, elem_seq. unfold bidx, HEAD. lia.
  - rewrite reverse_Permutation. apply NoDup_seqZ.
Qed.

Lemma boot_disk D : bc_disk (boot D) = D.
Proof. reflexivity. Qed.

#[global] Opaque nfree cview pins lookup_buf.

(** ** The cache is transparent *)

Inductive bop : Type :=
| BRead (bn : Z)
| BWrite (bn : Z) (d : list Z).

(** A client reading or overwriting one block. *)
Definition run_bop (pid : Z) (o : bop) (s : bst) : outcome (option (list Z) * bst) :=
  match o with
  | BRead bn =>
      '(b, s) ← bread pid ROOTDEV bn s;
      s' ← brelse pid b s;
      Ret (Some (b_data (bf s b)), s')
  | BWrite bn d =>
      '(b, s) ← bread pid ROOTDEV bn s;
      s ← bwrite pid b (upd b (set_data d) s);
      s ← brelse pid b s;
      Ret (None, s)
  end.

Fixpoint run_bops (pid : Z) (os : list bop) (s : bst) : outcome (list (option (list Z)) * bst) :=
  match os with
  | [] => Ret ([], s)
  | o :: os =>
      '(r, s) ← run_bop pid o s;
      '(rs, s) ← run_bops pid os s;
      Ret (r :: rs, s)
  end.

(** The same client on a plain array of blocks. *)
Definition spec_bop (o : bop) (m : gmap Z (list Z)) : option (list Z) * gmap Z (list Z) :=
  match o with
  | BRead bn => (Some (dblock m bn), m)
  | BWrite bn d => (None, <[bn := d]> m)
  end.

Fixpoint spec_bops (os : list bop) (m : gmap Z (list Z)) : list (option (list Z)) * gmap Z (list Z) :=
  match os with
  | [] => ([], m)
  | o :: os =>
      let '(r, m) := spec_bop o m in
      let '(rs, m) := spec_bops os m in (r :: rs, m)
  end.

(** Nobody uses the cache, and what it shows is on the disk. *)
Record idle (s : bst) (m : gmap Z (list Z)) : Prop := MkIdle {
  id_ok : bcache_ok s;
  id_pins : forall x, pins s x = 0;
  id_unlocked : forall x, unlocked s x;
  id_free : (0 < nfree s)%nat;
  id_view : forall x, cview s x = dblock m x;
  id_disk : forall x, dblock (bc_disk s) x = dblock m x
}.

Lemma run_bop_spec pid o s m :
  idle s m -> exists s', run_bop pid o s = Ret ((spec_bop o m).1, s') /\ idle s' (spec_bop o m).2.
Proof.
  intros [H Hp Hu Hf Hv Hd]. destruct o as [bn|bn d]; simpl.
  - destruct (bread_spec pid bn s H (Hu bn)) as (b & s1 & -> & H1 & Hh & V1 & P1 & N1 & O1 & D1 & _);
      [rewrite Hp; lia|by right|]. cbn [mbind outcome_bind].
    destruct (brelse_spec pid b bn (cview s bn) s1 H1 Hh) as (s2 & -> & H2 & V2 & P2 & N2 & O2 & U2 & D2 & _);
      [right; by rewrite D1, Hv, Hd|]. cbn [mbind outcome_bind].
    rewrite (h_data _ _ _ _ _ Hh), Hv. eexists. split; [reflexivity|]. split; [exact H2|..].
    + intros x. rewrite P2, P1, Hp. lia.
    + intros x. destruct (decide (x = bn)) as [->|Hne]; [done|].
      apply (ot_unlocked _ _ _ O2); [done|]. by apply (ot_unlocked _ _ _ O1).
    + assert (E1 : pins s1 bn = 1) by (rewrite P1, Hp, decide_True; done).
      rewrite E1, decide_True in N2 by done. lia.
    + intros x. by rewrite V2, V1.
    + intros x. by rewrite D2, D1.
  - destruct (bread_spec pid bn s H (Hu bn)) as (b & s1 & -> & H1 & Hh & V1 & P1 & N1 & O1 & D1 & _);
      [rewrite Hp; lia|by right|]. cbn [mbind outcome_bind].
    destruct (set_data_spec pid b bn (cview s bn) d s1 H1 Hh) as (H2 & Hh2 & V2 & P2 & N2 & O2).
    destruct (bwrite_spec pid b bn d _ H2 Hh2) as (s3 & -> & H3 & Hh3 & V3 & P3 & N3 & O3 & D3 & _).
    cbn [mbind outcome_bind].
    destruct (brelse_spec pid b bn d s3 H3 Hh3) as (s4 & -> & H4 & V4 & P4 & N4 & O4 & U4 & D4 & _).
    { right. by rewrite D3, dblock_insert, decide_True. }
    cbn [mbind outcome_bind]. eexists. split; [reflexivity|]. split; [exact H4|..].
    + intros x. rewrite P4, P3, P2, P1, Hp. lia.
    + intros x. destruct (decide (x = bn)) as [->|Hne]; [done|].
      apply (ot_unlocked _ _ _ O4), (ot_unlocked _ _ _ O3), (ot_unlocked _ _ _ O2), (ot_unlocked _ _ _ O1); done.
    + assert (E1 : pins s3 bn = 1) by (rewrite P3, P2, P1, Hp, decide_True; done).
      rewrite E1, decide_True in N4 by done. lia.
    + intros x. rewrite V4, V3, V2, V1, dblock_insert, Hv. done.
    + intros x. rewrite D4, D3. simpl. rewrite D1, !dblock_insert, Hd. done.
Qed.

(** (C9) The buffer cache is transparent: from boot, any sequence of block
    reads and overwrites, of any number of blocks (so with buffers recycled
    in between), runs without panicking or blocking, every read returns the
    last contents written to its block or what the disk held at boot, and at
    the end every block is on the disk. *)
Theorem bcache_transparent pid os D :
  exists s', run_bops pid os (boot D) = Ret ((spec_bops os D).1, s')
    /\ bcache_ok s' /\ (forall x, dblock (bc_disk s') x = dblock (spec_bops os D).2 x).
Proof.
  assert (Hgen : forall s m, idle s m -> exists s', run_bops pid os s = Ret ((spec_bops os m).1, s')
    /\ idle s' (spec_bops os m).2).
  { induction os as [|o os IH]; intros s m Hi; [by exists s|]. simpl.
    destruct (run_bop_spec pid o s m Hi) as (s1 & -> & Hi1). cbn [mbind outcome_bind].
    destruct (spec_bop o m) as [r m1]. simpl in *.
    destruct (IH s1 m1 Hi1) as (s2 & -> & Hi2). cbn [mbind outcome_bind].
    destruct (spec_bops os m1) as [rs m2]. simpl in *. by exists s2. }
  pose proof (fresh_ok _ (boot_ring D) (boot_check D)) as Hok.
  destruct (fresh_abs _ (boot_check D)) as (V & P & U & N). rewrite boot_disk in V.
  pose proof (boot_disk D) as E. revert Hok V P U N E. generalize (boot D). intros s Hok V P U N E.
  destruct (Hgen s D) as (s' & E' & Hi).
  { split; try done; [rewrite N; unfold NBUF, MAXOPBLOCKS; lia|]. intros x. by rewrite E. }
  exists s'. split; [done|]. split; apply Hi.
Qed.

End BioSpec.
