(* ===== verification/Virtio.v ===== *)
(** * The virtio disk driver (kernel/virtio_disk.c, include/virtio.h)

    The driver and the device share the descriptor table and two rings of
    descriptor numbers with free-running 16-bit indices.  A transfer is a chain
    of three descriptors; the driver enters its head in the [avail] ring, the
    device carries it out at any later time and in any order, writes the status
    byte and enters the head in the [used] ring, and the interrupt handler marks
    the buffer as done.

    [sys] is the driver's [struct disk], the buffers, the processes that are in
    [virtio_disk_rw], and the device.  Code between taking and dropping
    [vdisk_lock] runs in as many steps as the device can tell apart: the chain
    and the ring entry are written in one, [avail->idx] is advanced and the
    device notified in another, the handler acknowledges the interrupt in one
    and each of its turns is one.  Addresses the driver gives to the device are
    named by what they point to. *)

From S2P Require Import Prelude Riscv ProcDefs Block Sleeplock RingBuf Bio.
From stdpp Require Import base list numbers gmap strings functions.
From Stdlib Require Import ZArith Lia.

#[local] Open Scope Z_scope.

Import Block.

Module Virtio.

Definition NUM : Z := 8.
Definition VRING_DESC_F_NEXT : Z := 1.
Definition VRING_DESC_F_WRITE : Z := 2.
Definition VIRTIO_BLK_T_IN : Z := 0.
Definition VIRTIO_BLK_T_OUT : Z := 1.

(** What an address in a descriptor points to: [disk.ops[i]], the data of
    buffer [b], [disk.info[i].status]. *)
Inductive dma : Type :=
| NullAddr
| OpAddr (i : Z)
| DataAddr (b : Z)
| StatusAddr (i : Z).

Record virtq_desc : Type := MkDesc {
  d_addr : dma;
  d_len : Z;
  d_flags : Z;
  d_next : Z
}.

Record virtq_avail : Type := MkAvail {
  av_idx : Z;
  av_ring : list Z
}.

(** The ids of the used ring; the driver never looks at the lengths. *)
Record virtq_used : Type := MkUsed {
  us_idx : Z;
  us_ring : list Z
}.

Record virtio_blk_req : Type := MkReq {
  r_type : Z;
  r_reserved : Z;
  r_sector : Z
}.

Record vdisk : Type := MkDisk {
  desc : Z -> virtq_desc;
  avail : virtq_avail;
  used : virtq_used;
  free : Z -> bool;
  used_idx : Z;
  info_b : Z -> option Z;
  info_status : Z -> Z;
  ops : Z -> virtio_blk_req
}.

(** Where a process is in [virtio_disk_rw(b, write)]; once it has its
    descriptors, [idx] is the local array of the source. *)
Inductive vpos : Type :=
| VIdle
| VEnter (b w : Z)                    (* at acquire, or woken up to try again *)
| VDesc (b w : Z)                     (* asleep on &disk.free[0] *)
| VRing (b w i0 i1 i2 : Z)            (* at avail->idx += 1, lock held *)
| VTest (b w i0 i1 i2 : Z)            (* at the test of b->disk, lock held *)
| VAsleep (b w i0 i1 i2 : Z)          (* asleep on b *)
| VWoken (b w i0 i1 i2 : Z).          (* woken up, wants the lock again *)

(** The holder of [vdisk_lock]. *)
Inductive owner : Type :=
| Nobody
| Proc (p : nat)
| Handler.

(** The registers through which the driver and the device call each other:
    [kick], a notification the device has not looked after yet; [isr], the
    register INTERRUPT_STATUS; [irq], an interrupt that is on its way. *)
Record mmio : Type := MkMmio {
  kick : bool;
  isr : Z;
  irq : bool
}.

(** [b_disk] is the field [disk] of the buffers.  [media] has the contents of
    the sectors; [dev_idx] and [inflight] are the device's: how far it has read
    the avail ring, and the chains it has taken and not finished. *)
Record sys : Type := MkSys {
  dk : vdisk;
  bufs : gmap Z buf;
  b_disk : Z -> Z;
  media : gmap Z (list Z);
  dev_idx : Z;
  inflight : list Z;
  vlock : owner;
  pos : nat -> vpos;
  io : mmio
}.

Definition set_dk (v : vdisk) (s : sys) : sys :=
  MkSys v (bufs s) (b_disk s) (media s) (dev_idx s) (inflight s) (vlock s) (pos s) (io s).
Definition set_bufs (v : gmap Z buf) (s : sys) : sys :=
  MkSys (dk s) v (b_disk s) (media s) (dev_idx s) (inflight s) (vlock s) (pos s) (io s).
Definition set_bdisk (b v : Z) (s : sys) : sys :=
  MkSys (dk s) (bufs s) (<[b := v]> (b_disk s)) (media s) (dev_idx s) (inflight s) (vlock s) (pos s) (io s).
Definition set_media (v : gmap Z (list Z)) (s : sys) : sys :=
  MkSys (dk s) (bufs s) (b_disk s) v (dev_idx s) (inflight s) (vlock s) (pos s) (io s).
Definition set_dev (i : Z) (l : list Z) (s : sys) : sys :=
  MkSys (dk s) (bufs s) (b_disk s) (media s) i l (vlock s) (pos s) (io s).
Definition set_vlock (v : owner) (s : sys) : sys :=
  MkSys (dk s) (bufs s) (b_disk s) (media s) (dev_idx s) (inflight s) v (pos s) (io s).
Definition set_pos (p : nat) (v : vpos) (s : sys) : sys :=
  MkSys (dk s) (bufs s) (b_disk s) (media s) (dev_idx s) (inflight s) (vlock s) (<[p := v]> (pos s)) (io s).
Definition set_io (v : mmio) (s : sys) : sys :=
  MkSys (dk s) (bufs s) (b_disk s) (media s) (dev_idx s) (inflight s) (vlock s) (pos s) v.

Definition set_desc (i : Z) (d : virtq_desc) (k : vdisk) : vdisk :=
  MkDisk (<[i := d]> (desc k)) (avail k) (used k) (free k) (used_idx k) (info_b k) (info_status k) (ops k).
Definition set_free (i : Z) (v : bool) (k : vdisk) : vdisk :=
  MkDisk (desc k) (avail k) (used k) (<[i := v]> (free k)) (used_idx k) (info_b k) (info_status k) (ops k).
Definition set_info_b (i : Z) (v : option Z) (k : vdisk) : vdisk :=
  MkDisk (desc k) (avail k) (used k) (free k) (used_idx k) (<[i := v]> (info_b k)) (info_status k) (ops k).
Definition set_status (i v : Z) (k : vdisk) : vdisk :=
  MkDisk (desc k) (avail k) (used k) (free k) (used_idx k) (info_b k) (<[i := v]> (info_status k)) (ops k).
Definition set_op (i : Z) (v : virtio_blk_req) (k : vdisk) : vdisk :=
  MkDisk (desc k) (avail k) (used k) (free k) (used_idx k) (info_b k) (info_status k) (<[i := v]> (ops k)).
Definition set_avail (v : virtq_avail) (k : vdisk) : vdisk :=
  MkDisk (desc k) v (used k) (free k) (used_idx k) (info_b k) (info_status k) (ops k).
Definition set_used (v : virtq_used) (k : vdisk) : vdisk :=
  MkDisk (desc k) (avail k) v (free k) (used_idx k) (info_b k) (info_status k) (ops k).
Definition set_used_idx (v : Z) (k : vdisk) : vdisk :=
  MkDisk (desc k) (avail k) (used k) (free k) v (info_b k) (info_status k) (ops k).

(** ** The driver *)

(** What a process sleeps on. *)
Inductive vchan : Type :=
| OnFree
| OnBuf (b : Z).

Definition woken (c : vchan) (x : vpos) : vpos :=
  match c, x with
  | OnFree, VDesc b w => VEnter b w
  | OnBuf b', VAsleep b w i0 i1 i2 => if b =? b' then VWoken b w i0 i1 i2 else x
  | _, _ => x
  end.

Definition wakeup (c : vchan) (s : sys) : sys :=
  MkSys (dk s) (bufs s) (b_disk s) (media s) (dev_idx s) (inflight s) (vlock s) (fun p => woken c (pos s p)) (io s).

Definition alloc_desc (s : sys) : Z * sys :=
  match find (free (dk s)) (seqZ 0 NUM) with
  | Some i => (i, set_dk (set_free i false (dk s)) s)
  | None => (-1, s)
  end.

Definition free_desc (i : Z) (s : sys) : outcome sys :=
  if NUM <=? i then Panic "free_desc 1" else
  if free (dk s) i then Panic "free_desc 2" else
  let k := set_desc i (MkDesc NullAddr 0 0 0) (dk s) in
  Ret (wakeup OnFree (set_dk (set_free i true k) s)).

(** A chain has at most [NUM] descriptors: freeing one twice panics. *)
Fixpoint free_chain_from (fuel : nat) (i : Z) (s : sys) : outcome sys :=
  match fuel with
  | O => Fuel
  | S n =>
      let flag := d_flags (desc (dk s) i) in
      let nxt := d_next (desc (dk s) i) in
      s ← free_desc i s;
      if nz (Z.land flag VRING_DESC_F_NEXT) then free_chain_from n nxt s else Ret s
  end.

Definition free_chain (i : Z) (s : sys) : outcome sys := free_chain_from (Z.to_nat NUM) i s.

(** [for (j = 0; j < i; j++) free_desc(idx[j])]. *)
Fixpoint free_descs (l : list Z) (s : sys) : outcome sys :=
  match l with
  | [] => Ret s
  | i :: l => s ← free_desc i s; free_descs l s
  end.

Fixpoint alloc_descs (n : nat) (idx : list Z) (s : sys) : outcome (option (list Z) * sys) :=
  match n with
  | O => Ret (Some idx, s)
  | S n =>
      let '(i, s) := alloc_desc s in
      if i <? 0 then s ← free_descs idx s; Ret (None, s)
      else alloc_descs n (idx ++ [i]) s
  end.

(** [Some idx] is the return value 0 with the array filled in, [None] is -1. *)
Definition alloc3_desc (s : sys) : outcome (option (list Z) * sys) := alloc_descs 3 [] s.

Definition blockno_of (s : sys) (b : Z) : Z := b_blockno (default buf0 (bufs s !! b)).

(** The chain of descriptors and the book-keeping of a request. *)
Definition rw_format (b write i0 i1 i2 : Z) (s : sys) : sys :=
  let sector := u64 (u32 (blockno_of s b * (BSIZE / 512))) in
  let k := dk s in
  let k := set_op i0 (MkReq (if nz write then VIRTIO_BLK_T_OUT else VIRTIO_BLK_T_IN) 0 sector) k in
  let k := set_desc i0 (MkDesc (OpAddr i0) 16 VRING_DESC_F_NEXT (u16 i1)) k in
  let k := set_desc i1 (MkDesc (DataAddr b) BSIZE
                          (Z.lor (if nz write then 0 else VRING_DESC_F_WRITE) VRING_DESC_F_NEXT) (u16 i2)) k in
  let k := set_status i0 255 k in
  let k := set_desc i2 (MkDesc (StatusAddr i0) 1 VRING_DESC_F_WRITE 0) k in
  let s := set_bdisk b 1 s in
  let k := set_info_b i0 (Some b) k in
  let ring := <[RingBuf.slot NUM (av_idx (avail k)) := u16 i0]> (av_ring (avail k)) in
  set_dk (set_avail (MkAvail (av_idx (avail k)) ring) k) s.

(** [virtio_disk_rw] up to the ring entry, with the lock taken; a process that
    does not get its descriptors drops the lock and sleeps. *)
Definition rw_submit (p : nat) (b write : Z) (s : sys) : outcome sys :=
  '(r, s) ← alloc3_desc (set_vlock (Proc p) s);
  match r with
  | Some [i0; i1; i2] => Ret (set_pos p (VRing b write i0 i1 i2) (rw_format b write i0 i1 i2 s))
  | _ => Ret (set_pos p (VDesc b write) (set_vlock Nobody s))
  end.

(** The write to QUEUE_NOTIFY. *)
Definition notify (x : mmio) : mmio := MkMmio true (isr x) (irq x).

(** The step of [avail->idx], and the notification. *)
Definition rw_publish (p : nat) (b write i0 i1 i2 : Z) (s : sys) : sys :=
  let k := dk s in
  let k := set_avail (MkAvail (u16 (av_idx (avail k) + 1)) (av_ring (avail k))) k in
  set_pos p (VTest b write i0 i1 i2) (set_io (notify (io s)) (set_dk k s)).

(** One turn of [while (b->disk == 1)], or what follows it. *)
Definition rw_sleep (p : nat) (b write i0 i1 i2 : Z) (s : sys) : sys :=
  set_pos p (VAsleep b write i0 i1 i2) (set_vlock Nobody s).

Definition rw_finish (p : nat) (i0 : Z) (s : sys) : outcome sys :=
  s ← free_chain i0 (set_dk (set_info_b i0 None (dk s)) s);
  Ret (set_pos p VIdle (set_vlock Nobody s)).

(** INTERRUPT_ACK gets what INTERRUPT_STATUS has, and clears it there. *)
Definition ack (x : mmio) : mmio := MkMmio (kick x) (Z.ldiff (isr x) (Z.land (isr x) 3)) (irq x).

(** [virtio_disk_intr] up to its loop; the interrupt has arrived. *)
Definition intr_enter (s : sys) : sys :=
  set_vlock Handler (set_io (ack (MkMmio (kick (io s)) (isr (io s)) false)) s).

(** One turn of the loop of [virtio_disk_intr]. *)
Definition intr_turn (s : sys) : outcome sys :=
  let k := dk s in
  let id := nth (RingBuf.slot NUM (used_idx k)) (us_ring (used k)) 0 in
  if nz (info_status k id) then Panic "virtio_disk_intr status" else
  match info_b k id with
  | None => Panic "virtio_disk_intr null"
  | Some b =>
      let s := wakeup (OnBuf b) (set_bdisk b 0 s) in
      Ret (set_dk (set_used_idx (u16 (used_idx k + 1)) (dk s)) s)
  end.

(** ** The device

    What the virtio specification says of a block device on a split virtqueue
    (sections 2.6 and 5.2.6).  It takes chains from the avail ring in order and
    finishes them in any order; a request is three descriptors: a 16-byte header
    it reads, the data, a status byte it writes.  A chain that is not of this
    form has no meaning ([Panic]).  [st] is the status it reports: 0, or the
    code of an error, when it has transferred nothing.  When it has put a chain
    on the used ring it sets its bit in INTERRUPT_STATUS, and it sends an
    interrupt only if the register was clear.  It may look at the avail ring at
    any time, but after a notification it must, until the ring is empty. *)

Definition sector_data (m : gmap Z (list Z)) (n : Z) : list Z := default (replicate 512 0) (m !! n).

(** [n] sectors from [sec] on. *)
Fixpoint read_sectors (n : nat) (sec : Z) (m : gmap Z (list Z)) : list Z :=
  match n with
  | O => []
  | S n => sector_data m sec ++ read_sectors n (sec + 1) m
  end.
Fixpoint write_sectors (n : nat) (sec : Z) (d : list Z) (m : gmap Z (list Z)) : gmap Z (list Z) :=
  match n with
  | O => m
  | S n => write_sectors n (sec + 1) (drop 512 d) (<[sec := take 512 d]> m)
  end.

Definition has_flag (d : virtq_desc) (f : Z) : bool := nz (Z.land (d_flags d) f).

(** The header, the buffer and the status of the chain that starts at [h]. *)
Definition dev_chain (h : Z) (k : vdisk) : option (virtio_blk_req * virtq_desc * Z * Z) :=
  let d0 := desc k h in
  let d1 := desc k (d_next d0) in
  let d2 := desc k (d_next d1) in
  match d_addr d0, d_addr d1, d_addr d2 with
  | OpAddr o, DataAddr b, StatusAddr t =>
      if has_flag d0 VRING_DESC_F_NEXT && has_flag d1 VRING_DESC_F_NEXT && negb (has_flag d2 VRING_DESC_F_NEXT)
         && negb (has_flag d0 VRING_DESC_F_WRITE) && has_flag d2 VRING_DESC_F_WRITE
         && (d_len d0 =? 16) && (d_len d1 mod 512 =? 0) && (d_len d2 =? 1)
      then Some (ops k o, d1, b, t) else None
  | _, _, _ => None
  end.

Definition dev_transfer (r : virtio_blk_req) (d : virtq_desc) (b : Z) (s : sys) : option sys :=
  let n := Z.to_nat (d_len d / 512) in
  let x := default buf0 (bufs s !! b) in
  if (r_type r =? VIRTIO_BLK_T_OUT) && negb (has_flag d VRING_DESC_F_WRITE) then
    Some (set_media (write_sectors n (r_sector r) (b_data x) (media s)) s)
  else if (r_type r =? VIRTIO_BLK_T_IN) && has_flag d VRING_DESC_F_WRITE then
    Some (set_bufs (<[b := set_data (read_sectors n (r_sector r) (media s)) x]> (bufs s)) s)
  else None.

Definition dev_fetch (s : sys) : sys :=
  let h := nth (RingBuf.slot NUM (dev_idx s)) (av_ring (avail (dk s))) 0 in
  set_dev (u16 (dev_idx s + 1)) (inflight s ++ [h]) s.

Definition raise_irq (x : mmio) : mmio := MkMmio (kick x) (Z.lor (isr x) 1) (irq x || (isr x =? 0)).

Definition dev_complete (h st : Z) (s : sys) : outcome sys :=
  match dev_chain h (dk s) with
  | None => Panic "device: bad chain"
  | Some (r, d, b, t) =>
      match (if st =? 0 then dev_transfer r d b s else Some s) with
      | None => Panic "device: bad request"
      | Some s =>
          let k := set_status t (u8 st) (dk s) in
          let u := used k in
          let ring := <[RingBuf.slot NUM (us_idx u) := h]> (us_ring u) in
          let k := set_used (MkUsed (u16 (us_idx u + 1)) ring) k in
          Ret (set_io (raise_irq (io s)) (set_dev (dev_idx s) (filter (fun x => x <> h) (inflight s)) (set_dk k s)))
      end
  end.

(** The avail ring is empty, and the notification is dealt with. *)
Definition dev_rest (s : sys) : sys := set_io (MkMmio false (isr (io s)) (irq (io s))) s.

Inductive dev_step (s : sys) : outcome sys -> Prop :=
| dev_takes : dev_idx s <> av_idx (avail (dk s)) -> dev_step s (Ret (dev_fetch s))
| dev_finishes h st : h ∈ inflight s -> 0 <= st < 255 -> dev_step s (dev_complete h st s)
| dev_rests : kick (io s) = true -> dev_idx s = av_idx (avail (dk s)) -> dev_step s (Ret (dev_rest s)).

(** ** The whole system *)

(** What is seen from outside: a call, its return, and a store by the holder of
    a buffer that has no request. *)
Inductive label : Type :=
| LCall (p : nat) (b w : Z)
| LRet (p : nat)
| LStore (b : Z) (x : buf).

(** The buffer a process has handed over. *)
Definition buf_of (x : vpos) : option Z :=
  match x with
  | VIdle => None
  | VEnter b _ | VDesc b _ | VRing b _ _ _ _ | VTest b _ _ _ _ | VAsleep b _ _ _ _ | VWoken b _ _ _ _ => Some b
  end.

(** No process has buffer [b] in a request: the caller holds its sleep lock. *)
Definition unused (s : sys) (b : Z) : Prop := forall p, buf_of (pos s p) <> Some b.

(** A buffer a caller may hand over: a block of the disk, and [BSIZE] bytes. *)
Definition ready (s : sys) (b : Z) : Prop :=
  0 <= blockno_of s b < 2 ^ 31 /\ length (b_data (default buf0 (bufs s !! b))) = Z.to_nat BSIZE.

Section System.
(** The device. *)
Context (dev : sys -> outcome sys -> Prop).

Inductive step (s : sys) : option label -> outcome sys -> Prop :=
| s_call p b w : (p < Z.to_nat NPROC)%nat -> pos s p = VIdle -> unused s b -> ready s b ->
    step s (Some (LCall p b w)) (Ret (set_pos p (VEnter b w) s))
| s_store b x : unused s b -> step s (Some (LStore b x)) (Ret (set_bufs (<[b := x]> (bufs s)) s))
| s_submit p b w : pos s p = VEnter b w -> vlock s = Nobody -> step s None (rw_submit p b w s)
| s_publish p b w i0 i1 i2 : pos s p = VRing b w i0 i1 i2 -> step s None (Ret (rw_publish p b w i0 i1 i2 s))
| s_wait p b w i0 i1 i2 : pos s p = VTest b w i0 i1 i2 -> b_disk s b = 1 ->
    step s None (Ret (rw_sleep p b w i0 i1 i2 s))
| s_relock p b w i0 i1 i2 : pos s p = VWoken b w i0 i1 i2 -> vlock s = Nobody ->
    step s None (Ret (set_pos p (VTest b w i0 i1 i2) (set_vlock (Proc p) s)))
| s_finish p b w i0 i1 i2 : pos s p = VTest b w i0 i1 i2 -> b_disk s b <> 1 ->
    step s (Some (LRet p)) (rw_finish p i0 s)
| s_intr : vlock s = Nobody -> irq (io s) = true -> step s None (Ret (intr_enter s))
| s_turn : vlock s = Handler -> used_idx (dk s) <> us_idx (used (dk s)) -> step s None (intr_turn s)
| s_exit : vlock s = Handler -> used_idx (dk s) = us_idx (used (dk s)) -> step s None (Ret (set_vlock Nobody s))
| s_dev o : dev s o -> step s None o.

(** Executions, with the labels of their steps. *)
Inductive run (s : sys) : list label -> sys -> Prop :=
| run_nil : run s [] s
| run_tau t s1 s2 : run s t s1 -> step s1 None (Ret s2) -> run s t s2
| run_vis t l s1 s2 : run s t s1 -> step s1 (Some l) (Ret s2) -> run s (t ++ [l]) s2.

End System.

(** ** Initialisation *)

(** The device registers [virtio_disk_init] reads. *)
Record regs : Type := MkRegs {
  rg_magic : Z;
  rg_version : Z;
  rg_device : Z;
  rg_vendor : Z;
  rg_features : Z;
  rg_num_max : Z
}.

Definition VIRTIO_MMIO_DRIVER_FEATURES : Z := 32.
Definition VIRTIO_MMIO_GUEST_PAGE_SIZE : Z := 40.
Definition VIRTIO_MMIO_QUEUE_SEL : Z := 48.
Definition VIRTIO_MMIO_QUEUE_NUM : Z := 56.
Definition VIRTIO_MMIO_QUEUE_PFN : Z := 64.
Definition VIRTIO_MMIO_STATUS : Z := 112.

(** [features &= ~(1 << n)], and the seven features the driver declines. *)
Definition clear_bit (n : Z) (f : Z) : Z := Z.land f (u64 (Z.lnot (Z.shiftl 1 n))).
Definition declined : list Z := [5; 7; 11; 12; 27; 29; 28].

Definition vdisk0 : vdisk :=
  MkDisk (fun _ => MkDesc NullAddr 0 0 0) (MkAvail 0 (replicate (Z.to_nat NUM) 0))
    (MkUsed 0 (replicate (Z.to_nat NUM) 0)) (fun i => bool_decide (0 <= i < NUM)) 0 (fun _ => None) (fun _ => 0)
    (fun _ => MkReq 0 0 0).

(** The register writes in their order, and [struct disk] afterwards ([pages]
    is its address).  The static variable starts out zeroed. *)
Definition virtio_disk_init (pages : Z) (r : regs) : outcome (list (Z * Z) * vdisk) :=
  if negb (rg_magic r =? 0x74726976) || negb (rg_version r =? 1) || negb (rg_device r =? 2)
     || negb (rg_vendor r =? 0x554d4551)
  then Panic "could not find virtio disk" else
  let features := u32 (foldl (fun f n => clear_bit n f) (rg_features r) declined) in
  let ws := [(VIRTIO_MMIO_STATUS, 1); (VIRTIO_MMIO_STATUS, Z.lor 1 2); (VIRTIO_MMIO_DRIVER_FEATURES, features);
             (VIRTIO_MMIO_STATUS, Z.lor (Z.lor 1 2) 8); (VIRTIO_MMIO_STATUS, Z.lor (Z.lor (Z.lor 1 2) 8) 4);
             (VIRTIO_MMIO_GUEST_PAGE_SIZE, PGSIZE); (VIRTIO_MMIO_QUEUE_SEL, 0)] in
  if rg_num_max r =? 0 then Panic "virtio disk has no queue 0" else
  if rg_num_max r <? NUM then Panic "virtio disk max queue too short" else
  Ret (ws ++ [(VIRTIO_MMIO_QUEUE_NUM, NUM); (VIRTIO_MMIO_QUEUE_PFN, u32 (pages / PGSIZE))], vdisk0).

(** After initialisation, with the buffers and the medium as they are. *)
Definition boot (bs : gmap Z buf) (m : gmap Z (list Z)) : sys :=
  MkSys vdisk0 bs (fun _ => 0) m 0 [] Nobody (fun _ => VIdle) (MkMmio false 0 false).

End Virtio.
