(* ===== verification/VirtioInv.v ===== *)
(** * The virtio driver and its device: who owns what

    The invariant of the whole system of [Virtio]: every descriptor in use
    belongs to one request, the chains the device can see are well formed and
    not touched while it has them, the two rings never overflow, and the status
    byte tells how far a request has come. *)

From S2P Require Import Prelude Riscv ProcDefs Block Sleeplock RingBuf Bio Virtio.
From stdpp Require Import base list numbers gmap strings functions sets.
From Stdlib Require Import ZArith Lia.

#[local] Open Scope Z_scope.

Import Block Virtio.

Module VirtioInv.

(** ** The state of a request *)

(** A request that has its descriptors: buffer, direction, [idx]. *)
Definition chain_of (x : vpos) : option (Z * Z * Z * Z * Z) :=
  match x with
  | VRing b w i0 i1 i2 | VTest b w i0 i1 i2 | VAsleep b w i0 i1 i2 | VWoken b w i0 i1 i2 => Some (b, w, i0, i1, i2)
  | _ => None
  end.

(** Its head has been entered in the avail ring for the device to see. *)
Definition published (x : vpos) : bool :=
  match x with VTest _ _ _ _ _ | VAsleep _ _ _ _ _ | VWoken _ _ _ _ _ => true | _ => false end.

Definition has_lock (x : vpos) : bool :=
  match x with VRing _ _ _ _ _ | VTest _ _ _ _ _ => true | _ => false end.

Definition descs (x : vpos) : list Z :=
  match chain_of x with Some (_, _, i0, i1, i2) => [i0; i1; i2] | None => [] end.

(** The heads in the part of the avail ring the device has not read, and in the
    part of the used ring the driver has not read. *)
Definition availq (s : sys) : list Z :=
  RingBuf.region NUM (av_ring (avail (dk s))) (dev_idx s) (u16 (av_idx (avail (dk s)) - dev_idx s)).
Definition usedq (s : sys) : list Z :=
  RingBuf.region NUM (us_ring (used (dk s))) (used_idx (dk s)) (u16 (us_idx (used (dk s)) - used_idx (dk s))).

(** The requests the device has not answered, and all that are not done. *)
Definition queued (s : sys) : list Z := availq s ++ inflight s.
Definition outstanding (s : sys) : list Z := queued s ++ usedq s.

(** The three descriptors of a request say what the driver meant. *)
Record chain_ok (s : sys) (b w i0 i1 i2 : Z) : Prop := MkChainOk {
  ch_nodup : NoDup [i0; i1; i2];
  ch_range : Forall (fun i => 0 <= i < NUM) [i0; i1; i2];
  ch_d0 : desc (dk s) i0 = MkDesc (OpAddr i0) 16 VRING_DESC_F_NEXT i1;
  ch_d1 : desc (dk s) i1 = MkDesc (DataAddr b) BSIZE (if nz w then 1 else 3) i2;
  ch_d2 : desc (dk s) i2 = MkDesc (StatusAddr i0) 1 VRING_DESC_F_WRITE 0;
  ch_op : ops (dk s) i0 = MkReq (if nz w then VIRTIO_BLK_T_OUT else VIRTIO_BLK_T_IN) 0 (2 * blockno_of s b);
  ch_info : info_b (dk s) i0 = Some b
}.

(** How far a request with descriptors has come. *)
Definition progress (s : sys) (x : vpos) (b i0 : Z) : Prop :=
  if published x then
    b_disk s b = 1 /\ i0 ∈ outstanding s
    \/ b_disk s b = 0 /\ (i0 ∉ outstanding s) /\ info_status (dk s) i0 = 0
  else b_disk s b = 1 /\ (i0 ∉ outstanding s) /\ info_status (dk s) i0 = 255
       /\ nth (RingBuf.slot NUM (av_idx (avail (dk s)))) (av_ring (avail (dk s))) 0 = i0.

Record rings_ok (s : sys) : Prop := MkRingsOk {
  rg_av : length (av_ring (avail (dk s))) = 8%nat;
  rg_us : length (us_ring (used (dk s))) = 8%nat;
  rg_avi : 0 <= av_idx (avail (dk s)) < 65536;
  rg_usi : 0 <= us_idx (used (dk s)) < 65536;
  rg_dev : 0 <= dev_idx s < 65536;
  rg_drv : 0 <= used_idx (dk s) < 65536
}.

Record inv (s : sys) : Prop := MkInv {
  v_lock : forall p, vlock s = Proc p <-> has_lock (pos s p) = true;
  v_bufs : forall p q b, buf_of (pos s p) = Some b -> buf_of (pos s q) = Some b -> p = q;
  v_blk : forall p b, buf_of (pos s p) = Some b -> 0 <= blockno_of s b < 2 ^ 31;
  v_owned : forall i, 0 <= i < NUM -> (free (dk s) i = false <-> exists p, i ∈ descs (pos s p));
  v_disj : forall p q i, i ∈ descs (pos s p) -> i ∈ descs (pos s q) -> p = q;
  v_chain : forall p b w i0 i1 i2, chain_of (pos s p) = Some (b, w, i0, i1, i2) ->
    chain_ok s b w i0 i1 i2 /\ progress s (pos s p) b i0;
  v_heads : forall h, h ∈ outstanding s -> exists p b w i1 i2, chain_of (pos s p) = Some (b, w, h, i1, i2);
  v_nodup : NoDup (outstanding s);
  v_status : forall h, h ∈ queued s -> info_status (dk s) h = 255;
  v_rings : rings_ok s
}.

(** ** Waking up changes no request *)

Lemma woken_chain c x : chain_of (woken c x) = chain_of x.
Proof. destruct c, x; simpl; try done. by destruct (_ =? _). Qed.
Lemma woken_published c x : published (woken c x) = published x.
Proof. destruct c, x; simpl; try done. by destruct (_ =? _). Qed.
Lemma woken_has_lock c x : has_lock (woken c x) = has_lock x.
Proof. destruct c, x; simpl; try done. by destruct (_ =? _). Qed.
Lemma woken_buf c x : buf_of (woken c x) = buf_of x.
Proof. destruct c, x; simpl; try done. by destruct (_ =? _). Qed.
Lemma woken_descs c x : descs (woken c x) = descs x.
Proof. unfold descs. by rewrite woken_chain. Qed.

Lemma chain_buf x b w i0 i1 i2 : chain_of x = Some (b, w, i0, i1, i2) -> buf_of x = Some b.
Proof. destruct x; simpl; intros H; by inversion H. Qed.
Lemma chain_descs x b w i0 i1 i2 : chain_of x = Some (b, w, i0, i1, i2) -> descs x = [i0; i1; i2].
Proof. unfold descs. by intros ->. Qed.
Lemma descs_chain x i : i ∈ descs x -> exists b w i0 i1 i2, chain_of x = Some (b, w, i0, i1, i2) /\ i ∈ [i0; i1; i2].
Proof.
  unfold descs. destruct (chain_of x) as [[[[[b w] i0] i1] i2]|]; [|by intros ?%not_elem_of_nil]. intros H. eauto 10.
Qed.

(** ** Freeing descriptors *)

(** [l] has been freed, and those who wait for descriptors woken up. *)
Record freed (l : list Z) (s s' : sys) : Prop := MkFreed {
  fr_desc : forall i, i ∉ l -> desc (dk s') i = desc (dk s) i;
  fr_free : forall i, free (dk s') i = if decide (i ∈ l) then true else free (dk s) i;
  fr_disk : avail (dk s') = avail (dk s) /\ used (dk s') = used (dk s) /\ used_idx (dk s') = used_idx (dk s)
            /\ info_b (dk s') = info_b (dk s) /\ info_status (dk s') = info_status (dk s) /\ ops (dk s') = ops (dk s);
  fr_sys : bufs s' = bufs s /\ b_disk s' = b_disk s /\ media s' = media s /\ dev_idx s' = dev_idx s
           /\ inflight s' = inflight s /\ vlock s' = vlock s;
  fr_pos : forall p, pos s' p = match l with [] => pos s p | _ => woken OnFree (pos s p) end
}.

Lemma freed_nil s : freed [] s s.
Proof. split; try done. Qed.

Lemma woken_twice c x : woken c (woken c x) = woken c x.
Proof. destruct c, x; simpl; try done. destruct (_ =? _) eqn:E; simpl; [done|by rewrite E]. Qed.

Lemma freed_app l1 l2 s s1 s2 : freed l1 s s1 -> freed l2 s1 s2 -> freed (l1 ++ l2) s s2.
Proof.
  intros [d1 f1 (k1&k2&k3&k4&k5&k6) (m1&m2&m3&m4&m5&m6) p1] [d2 f2 (k1'&k2'&k3'&k4'&k5'&k6') (m1'&m2'&m3'&m4'&m5'&m6') p2].
  split; [| | | |].
  - intros i Hi. rewrite elem_of_app in Hi. rewrite d2, d1 by tauto. done.
  - intros i. rewrite f2, f1. repeat case_decide; rewrite elem_of_app in *; tauto.
  - repeat split; congruence.
  - repeat split; congruence.
  - intros p. specialize (p1 p). specialize (p2 p). destruct l1, l2; cbn [app] in *; rewrite p2, p1, ?woken_twice; done.
Qed.

Lemma free_desc_spec i s : i < NUM -> free (dk s) i = false -> exists s', free_desc i s = Ret s' /\ freed [i] s s'.
Proof.
  intros Hi Hf. unfold free_desc. rewrite Hf, (proj2 (Z.leb_gt _ _)) by lia. eexists. split; [reflexivity|].
  split; try done; simpl.
  - intros j Hj. rewrite list_elem_of_singleton in Hj. by rewrite fn_lookup_insert_ne.
  - intros j. case_decide as Hj; rewrite list_elem_of_singleton in Hj; [subst; by rewrite fn_lookup_insert|].
    by rewrite fn_lookup_insert_ne by done.
Qed.

Lemma free_descs_spec l s : NoDup l -> Forall (fun i => i < NUM /\ free (dk s) i = false) l ->
  exists s', free_descs l s = Ret s' /\ freed l s s'.
Proof.
  revert s. induction l as [|i l IH]; intros s Hn Hl; [exists s; split; [done|apply freed_nil]|].
  inversion Hn as [|? ? Hi Hn']; subst. inversion Hl as [|? ? [Hr Hf] Hl']; subst. simpl.
  destruct (free_desc_spec i s Hr Hf) as (s1 & -> & F1). destruct (IH s1 Hn') as (s2 & E2 & F2).
  { rewrite Forall_forall in Hl' |- *. intros j Hj. destruct (Hl' j Hj) as [Hjr Hjf]. split; [done|].
    rewrite (fr_free _ _ _ F1), decide_False; [done|]. rewrite list_elem_of_singleton. intros ->. exact (Hi Hj). }
  exists s2. split; [done|]. exact (freed_app [i] l s s1 s2 F1 F2).
Qed.

Lemma free_chain_spec s0 s b w i0 i1 i2 : chain_ok s0 b w i0 i1 i2 -> desc (dk s) = desc (dk s0) ->
  Forall (fun i => free (dk s) i = false) [i0; i1; i2] -> exists s', free_chain i0 s = Ret s' /\ freed [i0; i1; i2] s s'.
Proof.
  intros [Hn Hr E0 E1 E2 _ _] Ed Hf. rewrite <- Ed in E0, E1, E2. rewrite !Forall_cons in Hr, Hf. destruct Hr as (R0 & R1 & R2 & _).
  destruct Hf as (F0 & F1 & F2 & _). rewrite !NoDup_cons, !not_elem_of_cons in Hn. destruct Hn as ((N01 & N02 & _) & (N12 & _) & _).
  unfold free_chain. change (Z.to_nat NUM) with 8%nat. cbn [free_chain_from].
  destruct (free_desc_spec i0 s) as (s1 & -> & G0); [lia|done|]. cbn [mbind outcome_bind].
  rewrite E0. cbn [d_flags d_next]. change (nz (Z.land VRING_DESC_F_NEXT VRING_DESC_F_NEXT)) with true. cbv iota.
  destruct (free_desc_spec i1 s1) as (s2 & -> & G1); [lia|rewrite (fr_free _ _ _ G0), decide_False; [done|by rewrite list_elem_of_singleton]|].
  pose proof (freed_app _ _ _ _ _ G0 G1) as G01. cbn [mbind outcome_bind].
  rewrite (fr_desc _ _ _ G0) by (by rewrite list_elem_of_singleton). rewrite E1. cbn [d_flags d_next].
  replace (nz (Z.land (if nz w then 1 else 3) VRING_DESC_F_NEXT)) with true by (by destruct (nz w)). cbv iota.
  assert (Hd2 : i2 ∉ [i0] ++ [i1]) by (simpl; rewrite !not_elem_of_cons; auto using not_elem_of_nil).
  destruct (free_desc_spec i2 s2) as (s3 & -> & G2); [lia|rewrite (fr_free _ _ _ G01), decide_False; done|]. cbn [mbind outcome_bind].
  rewrite (fr_desc _ _ _ G01), E2 by done. cbn [d_flags]. change (nz (Z.land VRING_DESC_F_WRITE VRING_DESC_F_NEXT)) with false.
  exists s3. split; [done|]. exact (freed_app _ _ _ _ _ G01 G2).
Qed.

(** ** Taking descriptors *)

(** [l] has been taken. *)
Record taken (l : list Z) (s s' : sys) : Prop := MkTaken {
  tk_free : forall i, free (dk s') i = if decide (i ∈ l) then false else free (dk s) i;
  tk_disk : desc (dk s') = desc (dk s) /\ avail (dk s') = avail (dk s) /\ used (dk s') = used (dk s)
            /\ used_idx (dk s') = used_idx (dk s) /\ info_b (dk s') = info_b (dk s)
            /\ info_status (dk s') = info_status (dk s) /\ ops (dk s') = ops (dk s);
  tk_sys : bufs s' = bufs s /\ b_disk s' = b_disk s /\ media s' = media s /\ dev_idx s' = dev_idx s
           /\ inflight s' = inflight s /\ vlock s' = vlock s /\ pos s' = pos s
}.

(** Nothing in use has changed, and some may have been woken up for nothing. *)
Record unchanged (s s' : sys) : Prop := MkUnchanged {
  uc_free : forall i, free (dk s') i = free (dk s) i;
  uc_desc : forall i, free (dk s) i = false -> desc (dk s') i = desc (dk s) i;
  uc_disk : avail (dk s') = avail (dk s) /\ used (dk s') = used (dk s) /\ used_idx (dk s') = used_idx (dk s)
            /\ info_b (dk s') = info_b (dk s) /\ info_status (dk s') = info_status (dk s) /\ ops (dk s') = ops (dk s);
  uc_sys : bufs s' = bufs s /\ b_disk s' = b_disk s /\ media s' = media s /\ dev_idx s' = dev_idx s
           /\ inflight s' = inflight s /\ vlock s' = vlock s;
  uc_pos : forall p, pos s' p = pos s p \/ pos s' p = woken OnFree (pos s p)
}.

Lemma taken_nil s : taken [] s s.
Proof. split; done. Qed.

Lemma taken_snoc l i s s1 s2 : taken l s s1 -> taken [i] s1 s2 -> taken (l ++ [i]) s s2.
Proof.
  intros [f1 (k0&k1&k2&k3&k4&k5&k6) (m1&m2&m3&m4&m5&m6&m7)] [f2 (k0'&k1'&k2'&k3'&k4'&k5'&k6') (m1'&m2'&m3'&m4'&m5'&m6'&m7')].
  split; [|repeat split; congruence..]. intros j. rewrite f2, f1. repeat case_decide; rewrite elem_of_app in *; tauto.
Qed.

Lemma taken_freed l s s1 s2 : Forall (fun i => free (dk s) i = true) l ->
  taken l s s1 -> freed l s1 s2 -> unchanged s s2.
Proof.
  intros Hl [f1 (k0&k1&k2&k3&k4&k5&k6) (m1&m2&m3&m4&m5&m6&m7)] [d2 f2 (k1'&k2'&k3'&k4'&k5'&k6') (m1'&m2'&m3'&m4'&m5'&m6') p2].
  rewrite Forall_forall in Hl. split; [| |repeat split; congruence..|].
  - intros i. rewrite f2, f1. case_decide as Hi; [symmetry; auto|done].
  - intros i Hi. rewrite d2, k0; [done|]. intros Hin. rewrite (Hl i Hin) in Hi. discriminate.
  - intros p. rewrite p2, m7. destruct l; auto.
Qed.

Lemma alloc_desc_spec s :
  (exists i s', alloc_desc s = (i, s') /\ 0 <= i < NUM /\ free (dk s) i = true /\ taken [i] s s')
  \/ alloc_desc s = (-1, s) /\ forall i, 0 <= i < NUM -> free (dk s) i = false.
Proof.
  unfold alloc_desc. destruct (find (free (dk s)) (seqZ 0 NUM)) as [i|] eqn:E.
  - apply find_some in E as [Hi Hf]. rewrite <- list_elem_of_In, elem_of_seqZ in Hi. left. eexists i, _.
    split; [done|]. split; [lia|]. split; [done|]. split; [|done..]. intros j. simpl.
    case_decide as Hj; rewrite list_elem_of_singleton in Hj; [subst; by rewrite fn_lookup_insert|]. by rewrite fn_lookup_insert_ne by done.
  - right. split; [done|]. intros i Hi. apply (find_none _ _ E). rewrite <- list_elem_of_In, elem_of_seqZ. lia.
Qed.

Lemma alloc_descs_spec n idx s0 s : taken idx s0 s -> NoDup idx ->
  Forall (fun i => 0 <= i < NUM /\ free (dk s0) i = true) idx ->
  exists r s', alloc_descs n idx s = Ret (r, s') /\
    match r with
    | Some l => exists l', l = idx ++ l' /\ length l' = n /\ NoDup l /\
                  Forall (fun i => 0 <= i < NUM /\ free (dk s0) i = true) l /\ taken l s0 s'
    | None => unchanged s0 s' /\ exists l, (length l < length idx + n)%nat /\
                forall i, 0 <= i < NUM -> free (dk s0) i = true -> i ∈ l
    end.
Proof.
  revert idx s. induction n as [|n IH]; intros idx s T Hn Hl; cbn [alloc_descs].
  { exists (Some idx), s. split; [done|]. exists []. rewrite app_nil_r. auto. }
  destruct (alloc_desc_spec s) as [(i & s1 & -> & Hi & Hf & T1)|[-> Hnone]].
  - rewrite (proj2 (Z.ltb_ge _ _)) by lia. rewrite (tk_free _ _ _ T) in Hf. case_decide as Hin; [discriminate|].
    destruct (IH (idx ++ [i]) s1) as (r & s' & E & Hr).
    + eapply taken_snoc; eauto.
    + apply NoDup_app. split; [done|]. split; [|apply NoDup_singleton]. intros x Hx. rewrite list_elem_of_singleton. by intros ->.
    + apply Forall_app. auto.
    + exists r, s'. split; [done|]. destruct r as [l|].
      * destruct Hr as (l' & -> & Hlen & Hr). exists (i :: l'). rewrite <- app_assoc in *. simpl. auto.
      * destruct Hr as (U & l & Hlen & Hall). split; [done|]. exists l. rewrite length_app in Hlen. simpl in Hlen.
        split; [lia|done].
  - change (-1 <? 0) with true. cbv iota. destruct (free_descs_spec idx s) as (s' & -> & F); [done|..].
    { rewrite Forall_forall in Hl |- *. intros x Hx. destruct (Hl x Hx). split; [lia|].
      rewrite (tk_free _ _ _ T), decide_True; done. }
    exists None, s'. split; [done|]. split.
    + eapply taken_freed; [|done..]. eapply Forall_impl; [exact Hl|]. by intros x [].
    + exists idx. split; [lia|]. intros i Hi Hf. specialize (Hnone i Hi). rewrite (tk_free _ _ _ T) in Hnone.
      case_decide; [done|congruence].
Qed.

Lemma alloc3_spec s : exists r s', alloc3_desc s = Ret (r, s') /\
  match r with
  | Some l => exists i0 i1 i2, l = [i0; i1; i2] /\ NoDup l /\
                Forall (fun i => 0 <= i < NUM /\ free (dk s) i = true) l /\ taken l s s'
  | None => unchanged s s' /\ exists i, 0 <= i < NUM /\ free (dk s) i = false
  end.
Proof.
  destruct (alloc_descs_spec 3 [] s s (taken_nil s)) as (r & s' & E & Hr); [constructor|constructor|].
  exists r, s'. split; [done|]. destruct r as [l|].
  - destruct Hr as (l' & -> & Hlen & Hr). destruct l' as [|i0 [|i1 [|i2 [|]]]]; try discriminate. eauto.
  - destruct Hr as (U & l & Hlen & Hall). split; [done|].
    destruct (decide (Forall (fun i => free (dk s) i = true) [0; 1; 2])) as [Hf|Hf].
    + exfalso. rewrite Forall_forall in Hf. assert (H : [0; 1; 2] ⊆+ l).
      { apply NoDup_submseteq; [apply (bool_decide_unpack _); vm_compute; exact Logic.I|].
        intros i Hi. apply Hall; [|by apply Hf]. rewrite !elem_of_cons in Hi. unfold NUM.
        destruct Hi as [->|[->|[->|Hi]]]; [lia..|by apply not_elem_of_nil in Hi]. }
      apply submseteq_length in H. simpl in H, Hlen. lia.
    + apply not_Forall_Exists in Hf; [|intros x; apply _]. apply Exists_exists in Hf as (i & Hi & Hf). exists i.
      rewrite !elem_of_cons in Hi. unfold NUM. simpl in Hf. apply not_true_is_false in Hf. split; [|done].
      destruct Hi as [->|[->|[->|Hi]]]; [lia..|by apply not_elem_of_nil in Hi].
Qed.

(** ** Steps that change no request *)

Record same (s s' : sys) : Prop := MkSame {
  sm_free : forall i, free (dk s') i = free (dk s) i;
  sm_desc : forall i, free (dk s) i = false -> desc (dk s') i = desc (dk s) i;
  sm_disk : avail (dk s') = avail (dk s) /\ used (dk s') = used (dk s) /\ used_idx (dk s') = used_idx (dk s)
            /\ info_b (dk s') = info_b (dk s) /\ info_status (dk s') = info_status (dk s) /\ ops (dk s') = ops (dk s);
  sm_sys : b_disk s' = b_disk s /\ dev_idx s' = dev_idx s /\ inflight s' = inflight s;
  sm_blk : forall p b, buf_of (pos s p) = Some b -> blockno_of s' b = blockno_of s b;
  sm_pos : forall p, chain_of (pos s' p) = chain_of (pos s p) /\ published (pos s' p) = published (pos s p)
}.

Lemma same_queues s s' : same s s' -> queued s' = queued s /\ outstanding s' = outstanding s.
Proof.
  intros [_ _ (E1 & E2 & E3 & _) (_ & E4 & E5) _ _]. unfold outstanding, queued, availq, usedq. by rewrite E1, E2, E3, E4, E5.
Qed.

Lemma same_descs s s' p : same s s' -> descs (pos s' p) = descs (pos s p).
Proof. intros S. unfold descs. by rewrite (proj1 (sm_pos _ _ S p)). Qed.

(** The descriptors of a request are not free. *)
Lemma owned_not_free s p b w i0 i1 i2 : inv s -> chain_of (pos s p) = Some (b, w, i0, i1, i2) ->
  Forall (fun i => free (dk s) i = false) [i0; i1; i2].
Proof.
  intros I E. destruct (v_chain _ I _ _ _ _ _ _ E) as [[_ Hr _ _ _ _ _] _]. rewrite Forall_forall in *. intros i Hi.
  apply (v_owned _ I); [by apply Hr|]. exists p. by rewrite (chain_descs _ _ _ _ _ _ E).
Qed.

Lemma chain_ok_frame s s' b w i0 i1 i2 : chain_ok s b w i0 i1 i2 ->
  (forall i, i ∈ [i0; i1; i2] -> desc (dk s') i = desc (dk s) i) ->
  ops (dk s') i0 = ops (dk s) i0 -> info_b (dk s') i0 = info_b (dk s) i0 -> blockno_of s' b = blockno_of s b ->
  chain_ok s' b w i0 i1 i2.
Proof.
  intros [Hn Hr E0 E1 E2 Eo Ei] Hd Ho Hi Hb. split; try done.
  - rewrite Hd; [done|]. apply list_elem_of_here.
  - rewrite Hd; [done|]. apply list_elem_of_further, list_elem_of_here.
  - rewrite Hd; [done|]. apply list_elem_of_further, list_elem_of_further, list_elem_of_here.
  - by rewrite Ho, Hb.
  - by rewrite Hi.
Qed.

Lemma inv_same s s' : inv s -> same s s' ->
  (forall p, vlock s' = Proc p <-> has_lock (pos s' p) = true) ->
  (forall p q b, buf_of (pos s' p) = Some b -> buf_of (pos s' q) = Some b -> p = q) ->
  (forall p b, buf_of (pos s' p) = Some b -> 0 <= blockno_of s' b < 2 ^ 31) -> inv s'.
Proof.
  intros I S HL HB HK. destruct (same_queues _ _ S) as [Q1 Q2].
  destruct (sm_disk _ _ S) as (K1 & K2 & K3 & K4 & K5 & K6). destruct (sm_sys _ _ S) as (M1 & M2 & M3).
  split; try done.
  - intros i Hi. rewrite (sm_free _ _ S), (v_owned _ I i Hi). split; intros [p Hp]; exists p; rewrite (same_descs s s') in *; done.
  - intros p q i. rewrite !(same_descs s s') by done. apply (v_disj _ I).
  - intros p b w i0 i1 i2 E. rewrite (proj1 (sm_pos _ _ S p)) in E. destruct (v_chain _ I _ _ _ _ _ _ E) as [Hc Hp]. split.
    + apply (chain_ok_frame s); [done|..]; [|by rewrite K6|by rewrite K4|].
      * intros i Hi. apply (sm_desc _ _ S). revert i Hi. apply Forall_forall. by apply (owned_not_free s p b w).
      * apply (sm_blk _ _ S p). by apply chain_buf in E.
    + unfold progress in *. by rewrite (proj2 (sm_pos _ _ S p)), Q2, M1, K5, K1.
  - intros h Hh. rewrite Q2 in Hh. destruct (v_heads _ I h Hh) as (p & b & w & i1 & i2 & E). exists p, b, w, i1, i2.
    by rewrite (proj1 (sm_pos _ _ S p)).
  - rewrite Q2. apply (v_nodup _ I).
  - intros h Hh. rewrite Q1 in Hh. rewrite K5. by apply (v_status _ I).
  - destruct (v_rings _ I). split; rewrite ?K1, ?K2, ?K3, ?M2; done.
Qed.

End VirtioInv.
