(* ===== verification/VirtioSteps.v ===== *)
(** * The virtio driver and its device: every step keeps the invariant

    The windows of the two rings under the operations of the driver and of the
    device, and [inv] step by step.  The one way to panic is a device that
    reports an error. *)

From S2P Require Import Prelude Riscv ProcDefs Block Sleeplock RingBuf Bio Virtio VirtioInv.
From stdpp Require Import base list numbers gmap strings functions sets.
From Stdlib Require Import ZArith Lia.

#[local] Open Scope Z_scope.

Import Block Virtio VirtioInv.

Module VirtioSteps.

(** ** Windows of a ring *)

Definition win (ring : list Z) (lo hi : Z) : list Z := RingBuf.region NUM ring lo (u16 (hi - lo)).

Section Window.
Context (ring : list Z) (lo hi : Z).
Hypothesis Hlen : length ring = 8%nat.
Hypothesis Hlo : 0 <= lo < 65536.
Hypothesis Hhi : 0 <= hi < 65536.

Lemma win_length : length (win ring lo hi) = Z.to_nat (u16 (hi - lo)).
Proof using Type. apply RingBuf.length_region. Qed.

Lemma win_slot : RingBuf.slot NUM hi = RingBuf.slot NUM (lo + u16 (hi - lo)).
Proof using Type.
  clear Hlen Hlo Hhi. apply RingBuf.slot_mod. unfold u16, NUM. change (2 ^ 16) with 65536. dlia.
Qed.

Lemma win_next : (length (win ring lo hi) < 8)%nat -> u16 (u16 (hi + 1) - lo) = u16 (hi - lo) + 1 /\ 0 <= u16 (hi - lo) < 8.
Proof using Hlo Hhi.
  clear Hlen. rewrite win_length. pose proof (u16_range (hi - lo)). intros H1.
  assert (H2 : u16 (hi - lo) < 8) by lia. split; [|lia]. revert H2. unfold u16. change (2 ^ 16) with 65536. intros. dlia.
Qed.

Lemma win_push v : (length (win ring lo hi) < 8)%nat ->
  win (<[RingBuf.slot NUM hi := v]> ring) lo (u16 (hi + 1)) = win ring lo hi ++ [v].
Proof using Hlen Hlo Hhi.
  intros H. destruct (win_next H) as [E R]. unfold win. rewrite E, win_slot. apply RingBuf.region_snoc; [done|..].
  - rewrite Hlen. reflexivity.
  - unfold NUM. lia.
Qed.

Lemma win_store v : (length (win ring lo hi) < 8)%nat ->
  win (<[RingBuf.slot NUM hi := v]> ring) lo hi = win ring lo hi.
Proof using Hlen Hlo Hhi.
  intros H. destruct (win_next H) as [E R]. pose proof (win_push v H) as P. unfold win in P at 1. rewrite E in P.
  rewrite RingBuf.region_app in P by (done || lia). apply app_inj_1 in P as [P _]; [exact P|].
  unfold win. by rewrite !RingBuf.length_region.
Qed.

Lemma win_step : (length (win ring lo hi) < 8)%nat ->
  win ring lo (u16 (hi + 1)) = win ring lo hi ++ [nth (RingBuf.slot NUM hi) ring 0].
Proof using Hlen Hlo Hhi.
  intros H. destruct (win_next H) as [E R]. unfold win. rewrite E, RingBuf.region_app by (done || lia). f_equal.
  rewrite RingBuf.region_cons by (done || lia). by rewrite win_slot.
Qed.

Lemma win_pop : lo <> hi -> win ring lo hi = nth (RingBuf.slot NUM lo) ring 0 :: win ring (u16 (lo + 1)) hi.
Proof using Hlo Hhi.
  clear Hlen. intros Hne. assert (E : 0 < u16 (hi - lo) /\ u16 (hi - u16 (lo + 1)) = u16 (hi - lo) - 1).
  { unfold u16. change (2 ^ 16) with 65536. dlia. }
  destruct E as [E1 E2]. unfold win. rewrite RingBuf.region_cons by done. rewrite E2. f_equal.
  apply RingBuf.region_mod; [done|]. unfold u16, NUM. change (2 ^ 16) with 65536. dlia.
Qed.

End Window.

Lemma availq_win s : availq s = win (av_ring (avail (dk s))) (dev_idx s) (av_idx (avail (dk s))).
Proof. done. Qed.
Lemma usedq_win s : usedq s = win (us_ring (used (dk s))) (used_idx (dk s)) (us_idx (used (dk s))).
Proof. done. Qed.

(** At most [NUM] requests are under way; with a head that is none of them,
    there is room. *)
Lemma outstanding_range s h : inv s -> h ∈ outstanding s -> 0 <= h < 8.
Proof.
  intros I Hh. destruct (v_heads _ I h Hh) as (p & b & w & i1 & i2 & E).
  destruct (v_chain _ I _ _ _ _ _ _ E) as [[_ Hr _ _ _ _ _] _]. by apply Forall_inv in Hr.
Qed.

Lemma heads_bound (l : list Z) : NoDup l -> (forall h, h ∈ l -> 0 <= h < 8) -> (length l <= 8)%nat.
Proof.
  intros Hn Hr. pose proof (NoDup_bounded_length l 0 8 Hn) as H. rewrite Forall_forall in H. specialize (H Hr). lia.
Qed.

Lemma room_for s h : inv s -> 0 <= h < 8 -> h ∉ outstanding s -> (length (outstanding s) < 8)%nat.
Proof.
  intros I Hh Hn. enough (length (h :: outstanding s) <= 8)%nat by (simpl in *; lia). apply heads_bound.
  - apply NoDup_cons. split; [done|apply (v_nodup _ I)].
  - intros x [->|Hx]%elem_of_cons; [done|]. by apply (outstanding_range s).
Qed.

Lemma outstanding_length s : inv s -> (length (outstanding s) <= 8)%nat.
Proof. intros I. apply heads_bound; [apply (v_nodup _ I)|intros h; by apply outstanding_range]. Qed.

Lemma length_outstanding s : length (outstanding s) = (length (availq s) + length (inflight s) + length (usedq s))%nat.
Proof. unfold outstanding, queued. rewrite !length_app. done. Qed.

(** ** Steps that move requests along *)

Lemma chain_inj s p q b w i0 i1 i2 b' w' i1' i2' : inv s ->
  chain_of (pos s p) = Some (b, w, i0, i1, i2) -> chain_of (pos s q) = Some (b', w', i0, i1', i2') -> p = q.
Proof.
  intros I E E'. apply (v_disj _ I p q i0); [rewrite (chain_descs _ _ _ _ _ _ E)|rewrite (chain_descs _ _ _ _ _ _ E')];
    apply list_elem_of_here.
Qed.

Record keeps (s s' : sys) : Prop := MkKeeps {
  kp_disk : free (dk s') = free (dk s) /\ desc (dk s') = desc (dk s) /\ info_b (dk s') = info_b (dk s) /\ ops (dk s') = ops (dk s);
  kp_blk : forall b, blockno_of s' b = blockno_of s b;
  kp_pos : forall p, chain_of (pos s' p) = chain_of (pos s p) /\ buf_of (pos s' p) = buf_of (pos s p);
  kp_lock : forall p, vlock s' = Proc p <-> has_lock (pos s' p) = true
}.

Lemma inv_keeps s s' : inv s -> keeps s s' ->
  (forall p b w i0 i1 i2, chain_of (pos s p) = Some (b, w, i0, i1, i2) -> progress s' (pos s' p) b i0) ->
  (forall h, h ∈ outstanding s' -> h ∈ outstanding s \/ exists p b w i1 i2, chain_of (pos s p) = Some (b, w, h, i1, i2)) ->
  NoDup (outstanding s') -> (forall h, h ∈ queued s' -> info_status (dk s') h = 255) -> rings_ok s' -> inv s'.
Proof.
  intros I [(K1 & K2 & K3 & K4) B P L] HP HO HN HS HR.
  assert (D : forall p, descs (pos s' p) = descs (pos s p)) by (intros p; unfold descs; by rewrite (proj1 (P p))).
  split; try done.
  - intros p q b. rewrite !(proj2 (P _)). apply (v_bufs _ I).
  - intros p b. rewrite (proj2 (P _)), B. apply (v_blk _ I).
  - intros i Hi. rewrite K1, (v_owned _ I i Hi). split; intros [p Hp]; exists p; rewrite D in *; done.
  - intros p q i. rewrite !D. apply (v_disj _ I).
  - intros p b w i0 i1 i2 E. rewrite (proj1 (P _)) in E. split; [|by eapply HP].
    apply (chain_ok_frame s); [by apply (v_chain _ I p)|..]; rewrite ?K2, ?K3, ?K4; done || apply B.
  - intros h Hh. destruct (HO h Hh) as [Hh'|(p & b & w & i1 & i2 & E)].
    + destruct (v_heads _ I h Hh') as (p & b & w & i1 & i2 & E). exists p, b, w, i1, i2. by rewrite (proj1 (P _)).
    + exists p, b, w, i1, i2. by rewrite (proj1 (P _)).
Qed.

Lemma publish_inv s p b w i0 i1 i2 : inv s -> pos s p = VRing b w i0 i1 i2 -> inv (rw_publish p b w i0 i1 i2 s).
Proof.
  intros I Ep. set (s' := rw_publish p b w i0 i1 i2 s). destruct (v_rings _ I) as [R1 R2 R3 R4 R5 R6].
  assert (Ec : chain_of (pos s p) = Some (b, w, i0, i1, i2)) by (by rewrite Ep).
  destruct (v_chain _ I p b w i0 i1 i2 Ec) as [Hc Hp]. rewrite Ep in Hp. destruct Hp as (Hb & Hn & Hst & Hring).
  pose proof (room_for s i0 I) as Hroom. pose proof (ch_range _ _ _ _ _ _ Hc) as Hr. apply Forall_inv in Hr.
  specialize (Hroom Hr Hn). rewrite length_outstanding in Hroom.
  assert (Hav : availq s' = availq s ++ [i0]).
  { rewrite !availq_win. simpl. rewrite win_step; [by rewrite Hring|done..|rewrite <- availq_win; lia]. }
  assert (Ho : outstanding s' ≡ₚ i0 :: outstanding s).
  { unfold outstanding, queued. rewrite Hav. change (inflight s') with (inflight s). change (usedq s') with (usedq s).
    rewrite <- !app_assoc. simpl. by rewrite <- Permutation_middle. }
  assert (Hpos : forall q, q <> p -> pos s' q = pos s q) by (intros q Hq; simpl; by rewrite fn_lookup_insert_ne by done).
  assert (Hpp : pos s' p = VTest b w i0 i1 i2) by (simpl; by rewrite fn_lookup_insert).
  assert (Hin : forall j, j ∈ outstanding s' <-> j = i0 \/ j ∈ outstanding s) by (intros j; by rewrite Ho, elem_of_cons).
  assert (HB : b_disk s' = b_disk s) by done. assert (HS : info_status (dk s') = info_status (dk s)) by done.
  assert (HR : rings_ok s') by (split; simpl; try done; apply u16_range).
  assert (HK : keeps s s').
  { split; [done|done|..]; intros q; [|change (vlock s') with (vlock s); rewrite (v_lock _ I)];
      (destruct (decide (q = p)) as [->|Hq]; [by rewrite Hpp, Ep|by rewrite Hpos]). }
  assert (Hq : forall h, h ∈ queued s' -> h ∈ queued s \/ h = i0).
  { intros h. unfold queued. rewrite Hav, !elem_of_app, list_elem_of_singleton. change (inflight s') with (inflight s). tauto. }
  clearbody s'. apply (inv_keeps s); [done|done| | | | |done].
  - intros q b' w' j0 j1 j2 E. unfold progress. destruct (decide (q = p)) as [->|Hqp].
    + rewrite Ep in E. inversion E; subst. rewrite Hpp, HB. left. split; [done|]. apply Hin. by left.
    + assert (j0 <> i0) by (intros ->; apply Hqp; by eapply chain_inj). rewrite Hpos by done.
      destruct (v_chain _ I _ _ _ _ _ _ E) as [_ Hpr]. unfold progress in Hpr. rewrite HB, HS.
      destruct (published (pos s q)) eqn:Epub; [rewrite Hin; intuition|].
      exfalso. apply Hqp. assert (Hl : has_lock (pos s q) = true) by (destruct (pos s q); done).
      apply (v_lock _ I) in Hl. assert (Hl' : vlock s = Proc p) by (apply (v_lock _ I); by rewrite Ep). congruence.
  - intros h. rewrite Hin. intros [->|Hh]; [right; eauto 10|by left].
  - rewrite Ho. apply NoDup_cons. split; [done|apply (v_nodup _ I)].
  - intros h [Hh| ->]%Hq; rewrite HS; [by apply (v_status _ I)|done].
Qed.

(** A step that only reorders the requests. *)
Lemma progress_perm s s' x b i0 : (forall j, j ∈ outstanding s' <-> j ∈ outstanding s) ->
  b_disk s' = b_disk s -> (i0 ∉ outstanding s -> info_status (dk s') i0 = info_status (dk s) i0) ->
  avail (dk s') = avail (dk s) -> progress s x b i0 -> progress s' x b i0.
Proof.
  intros Ho Hb Hs Ha. unfold progress. rewrite Hb, Ha. destruct (published x); rewrite (Ho i0).
  - intros [?|(? & Hn & ?)]; [auto|]. right. rewrite Hs by done. auto.
  - intros (? & Hn & ? & ?). rewrite Hs by done. auto.
Qed.

Lemma fetch_inv s : inv s -> dev_idx s <> av_idx (avail (dk s)) -> inv (dev_fetch s).
Proof.
  intros I Hne. set (s' := dev_fetch s). destruct (v_rings _ I) as [R1 R2 R3 R4 R5 R6].
  set (h := nth (RingBuf.slot NUM (dev_idx s)) (av_ring (avail (dk s))) 0).
  assert (Hav : availq s = h :: availq s') by (rewrite availq_win, win_pop by done; done).
  assert (Hq : queued s' ≡ₚ queued s).
  { unfold queued. rewrite Hav. change (inflight s') with (inflight s ++ [h]). rewrite app_assoc, Permutation_app_comm. done. }
  assert (Ho : outstanding s' ≡ₚ outstanding s) by (unfold outstanding; rewrite Hq; done).
  assert (Hin : forall j, j ∈ outstanding s' <-> j ∈ outstanding s) by (intros j; by rewrite Ho).
  assert (HR : rings_ok s') by (split; simpl; try done; apply u16_range).
  assert (HK : keeps s s') by (split; [done|done|done|apply (v_lock _ I)]).
  assert (E : dk s' = dk s /\ b_disk s' = b_disk s /\ pos s' = pos s) by done. destruct E as (E1 & E2 & E3).
  clearbody s' h. apply (inv_keeps s); [done|done| | | | |done].
  - intros p b w i0 i1 i2 E. rewrite E3. apply (progress_perm s s'); [done|done|by rewrite E1|by rewrite E1|]. exact (proj2 (v_chain _ I _ _ _ _ _ _ E)).
  - intros j Hj. left. by apply Hin.
  - rewrite Ho. apply (v_nodup _ I).
  - intros j Hj. rewrite E1. apply (v_status _ I). by rewrite Hq in Hj.
Qed.

(** What the device finds at the head of a chain. *)
Lemma chain_seen s b w i0 i1 i2 : chain_ok s b w i0 i1 i2 ->
  dev_chain i0 (dk s) = Some (MkReq (if nz w then VIRTIO_BLK_T_OUT else VIRTIO_BLK_T_IN) 0 (2 * blockno_of s b),
                              MkDesc (DataAddr b) BSIZE (if nz w then 1 else 3) i2, b, i0).
Proof.
  intros [_ _ E0 E1 E2 Eo _]. unfold dev_chain. rewrite E0. cbn [d_addr d_next]. rewrite E1. cbn [d_addr d_next].
  rewrite E2, Eo. cbn [d_addr]. by destruct (nz w).
Qed.

(** A request carried out: what [virtio_disk_rw] promises. *)
Definition transfer (b w : Z) (s : sys) : sys :=
  let x := default buf0 (bufs s !! b) in
  let sec := 2 * b_blockno x in
  if nz w then set_media (write_sectors 2 sec (b_data x) (media s)) s
  else set_bufs (<[b := set_data (read_sectors 2 sec (media s)) x]> (bufs s)) s.

Lemma dev_transfer_spec s b w i2 :
  dev_transfer (MkReq (if nz w then VIRTIO_BLK_T_OUT else VIRTIO_BLK_T_IN) 0 (2 * blockno_of s b))
    (MkDesc (DataAddr b) BSIZE (if nz w then 1 else 3) i2) b s = Some (transfer b w s).
Proof. unfold dev_transfer, transfer, blockno_of. by destruct (nz w). Qed.

(** The device's answer: status byte, used ring, its own list. *)
Definition answered (h st : Z) (s : sys) : sys :=
  let k := set_status h (u8 st) (dk s) in
  let u := used k in
  set_io (raise_irq (io s)) (set_dev (dev_idx s) (filter (fun x => x <> h) (inflight s))
    (set_dk (set_used (MkUsed (u16 (us_idx u + 1)) (<[RingBuf.slot NUM (us_idx u) := h]> (us_ring u))) k) s)).

Lemma inflight_chain s h : inv s -> h ∈ inflight s ->
  exists p b w i1 i2, chain_of (pos s p) = Some (b, w, h, i1, i2) /\ chain_ok s b w h i1 i2.
Proof.
  intros I Hh. destruct (v_heads _ I h) as (p & b & w & i1 & i2 & E).
  { unfold outstanding, queued. rewrite !elem_of_app. auto. }
  exists p, b, w, i1, i2. split; [done|]. by apply (v_chain _ I p).
Qed.

Lemma complete_eq s h st b w i1 i2 : chain_ok s b w h i1 i2 ->
  dev_complete h st s = Ret (answered h st (if st =? 0 then transfer b w s else s)).
Proof.
  intros Hc. unfold dev_complete. rewrite (chain_seen _ _ _ _ _ _ Hc), dev_transfer_spec. destruct (st =? 0); [|done].
  unfold transfer. by destruct (nz w).
Qed.

Lemma transfer_fields b w s : let s' := transfer b w s in
  dk s' = dk s /\ b_disk s' = b_disk s /\ dev_idx s' = dev_idx s /\ inflight s' = inflight s /\ vlock s' = vlock s /\ pos s' = pos s
  /\ forall b', blockno_of s' b' = blockno_of s b'.
Proof.
  unfold transfer. destruct (nz w); simpl; repeat (split; [done|]); [done|]. intros b'. unfold blockno_of. simpl.
  destruct (decide (b = b')) as [->|]; [by rewrite lookup_insert_eq|by rewrite lookup_insert_ne].
Qed.

Lemma transfer_inv b w s : inv s -> inv (transfer b w s).
Proof.
  intros I. destruct (transfer_fields b w s) as (E1 & E2 & E3 & E4 & E5 & E6 & E7). set (s' := transfer b w s) in *. clearbody s'.
  apply (inv_same s); [done| | | |].
  - split; rewrite ?E1, ?E2, ?E3, ?E4, ?E6; done.
  - intros p. rewrite E5, E6. apply (v_lock _ I).
  - intros p q b'. rewrite E6. apply (v_bufs _ I).
  - intros p b'. rewrite E6, E7. apply (v_blk _ I).
Qed.

Lemma filter_perm (l : list Z) h : NoDup l -> h ∈ l -> l ≡ₚ h :: filter (fun x => x <> h) l.
Proof.
  intros Hn Hh. apply NoDup_Permutation; [done|..].
  - apply NoDup_cons. rewrite list_elem_of_filter. split; [tauto|by apply NoDup_filter].
  - intros x. rewrite elem_of_cons, list_elem_of_filter. destruct (decide (x = h)) as [->|]; tauto.
Qed.

Lemma answered_inv s h st : inv s -> h ∈ inflight s -> inv (answered h st s).
Proof.
  intros I Hh. set (s' := answered h st s). destruct (v_rings _ I) as [R1 R2 R3 R4 R5 R6]. pose proof (v_nodup _ I) as Hnd.
  pose proof (outstanding_length s I) as Hlen. rewrite length_outstanding in Hlen.
  assert (Hi : inflight s ≡ₚ h :: inflight s').
  { apply filter_perm; [|done]. unfold outstanding, queued in Hnd. rewrite !NoDup_app in Hnd. tauto. }
  assert (Hu : usedq s' = usedq s ++ [h]).
  { rewrite !usedq_win. simpl. rewrite win_push; [done..|]. rewrite <- usedq_win. rewrite Hi in Hlen. simpl in Hlen. lia. }
  assert (Ho : outstanding s' ≡ₚ outstanding s).
  { unfold outstanding, queued. rewrite Hu, Hi. change (availq s') with (availq s). rewrite (Permutation_app_comm (usedq s)).
    rewrite <- !app_assoc. simpl. by rewrite Permutation_middle. }
  assert (Hin : forall j, j ∈ outstanding s' <-> j ∈ outstanding s) by (intros j; by rewrite Ho).
  assert (Hq : forall j, j ∈ queued s' -> j ∈ queued s /\ j <> h).
  { unfold queued. change (availq s') with (availq s). intros j Hj. rewrite Hi.
    assert (Hnd' : NoDup (availq s ++ h :: inflight s')) by (rewrite <- Hi; by apply NoDup_app in Hnd as (? & _)).
    rewrite <- Permutation_middle in Hnd' |- *. apply NoDup_cons in Hnd' as [Hnd' _]. split; [by apply list_elem_of_further|].
    by intros ->. }
  assert (HR : rings_ok s') by (split; simpl; rewrite ?length_insert; try done; apply u16_range).
  assert (HK : keeps s s') by (split; [done|done|done|apply (v_lock _ I)]).
  assert (HS : forall j, j <> h -> info_status (dk s') j = info_status (dk s) j).
  { intros j Hj. simpl. by rewrite fn_lookup_insert_ne by done. }
  assert (E : b_disk s' = b_disk s /\ pos s' = pos s /\ avail (dk s') = avail (dk s)) by done. destruct E as (E2 & E3 & E4).
  assert (Hho : h ∈ outstanding s) by (unfold outstanding, queued; rewrite !elem_of_app; auto).
  clearbody s'. apply (inv_keeps s); [done|done| | | | |done].
  - intros p b w i0 i1 i2 E. rewrite E3. apply (progress_perm s s'); [done|done| |done|exact (proj2 (v_chain _ I _ _ _ _ _ _ E))].
    intros Hn. apply HS. by intros ->.
  - intros j Hj. left. by apply Hin.
  - by rewrite Ho.
  - intros j [Hj Hne]%Hq. rewrite HS by done. by apply (v_status _ I).
Qed.

(** ** The interrupt handler *)

Lemma turn_head s : inv s -> used_idx (dk s) <> us_idx (used (dk s)) ->
  exists id p b w i1 i2, usedq s = id :: win (us_ring (used (dk s))) (u16 (used_idx (dk s) + 1)) (us_idx (used (dk s)))
    /\ nth (RingBuf.slot NUM (used_idx (dk s))) (us_ring (used (dk s))) 0 = id
    /\ chain_of (pos s p) = Some (b, w, id, i1, i2) /\ info_b (dk s) id = Some b.
Proof.
  intros I Hne. destruct (v_rings _ I) as [R1 R2 R3 R4 R5 R6].
  pose proof (win_pop (us_ring (used (dk s))) _ _ R6 R4 Hne) as Hp. rewrite <- usedq_win in Hp.
  destruct (v_heads _ I (nth (RingBuf.slot NUM (used_idx (dk s))) (us_ring (used (dk s))) 0)) as (p & b & w & i1 & i2 & E).
  { unfold outstanding. rewrite Hp, elem_of_app, elem_of_cons. auto. }
  eexists _, p, b, w, i1, i2. split; [exact Hp|]. split; [done|]. split; [exact E|].
  exact (ch_info _ _ _ _ _ _ (proj1 (v_chain _ I _ _ _ _ _ _ E))).
Qed.

(** The state after a turn that found the request of buffer [b]. *)
Definition turned (b : Z) (s : sys) : sys :=
  set_dk (set_used_idx (u16 (used_idx (dk s) + 1)) (dk s)) (wakeup (OnBuf b) (set_bdisk b 0 s)).

Lemma turned_inv s id p b w i1 i2 : inv s -> chain_of (pos s p) = Some (b, w, id, i1, i2) ->
  usedq s = id :: win (us_ring (used (dk s))) (u16 (used_idx (dk s) + 1)) (us_idx (used (dk s))) ->
  info_status (dk s) id = 0 -> inv (turned b s).
Proof.
  intros I Ec Hu Hst. set (s' := turned b s). destruct (v_rings _ I) as [R1 R2 R3 R4 R5 R6]. pose proof (v_nodup _ I) as Hnd.
  assert (Ho : outstanding s ≡ₚ id :: outstanding s').
  { unfold outstanding. rewrite Hu. change (queued s') with (queued s). by rewrite <- Permutation_middle. }
  rewrite Ho in Hnd. apply NoDup_cons in Hnd as [Hid Hnd].
  assert (Hin : forall j, j ∈ outstanding s <-> j = id \/ j ∈ outstanding s') by (intros j; by rewrite Ho, elem_of_cons).
  assert (HR : rings_ok s') by (split; simpl; try done; apply u16_range).
  assert (HK : keeps s s').
  { split; [done|done|..]; intros q; change (pos s' q) with (woken (OnBuf b) (pos s q)); rewrite ?woken_chain, ?woken_buf, ?woken_has_lock; [done|apply (v_lock _ I)]. }
  assert (Hq : queued s' = queued s) by done.
  assert (E : info_status (dk s') = info_status (dk s) /\ b_disk s' = <[b := 0]> (b_disk s) /\ avail (dk s') = avail (dk s)) by done.
  destruct E as (E1 & E2 & E3). assert (E4 : forall q, published (pos s' q) = published (pos s q)) by (intros q; apply woken_published).
  clearbody s'. apply (inv_keeps s); [done|done| | |done| |done].
  - intros q b' w' j0 j1 j2 E. unfold progress. rewrite E1, E2, E3, E4. destruct (v_chain _ I _ _ _ _ _ _ E) as [_ Hp].
    unfold progress in Hp. pose proof (Hin j0) as Hj. destruct (decide (q = p)) as [->|Hqp].
    + rewrite Ec in E. inversion E; subst. rewrite fn_lookup_insert.
      destruct (published (pos s p)); [right; auto|]. destruct Hp as (_ & Hp & _). tauto.
    + assert (j0 <> id) by (intros ->; apply Hqp; by eapply chain_inj).
      assert (b' <> b) by (intros ->; apply Hqp; exact (v_bufs _ I q p b (chain_buf _ _ _ _ _ _ E) (chain_buf _ _ _ _ _ _ Ec))).
      rewrite fn_lookup_insert_ne by done. destruct (published (pos s q)); tauto.
  - intros h Hh. left. rewrite Hin. by right.
  - intros h. rewrite Hq, E1. apply (v_status _ I).
Qed.

Lemma turn_spec s : inv s -> used_idx (dk s) <> us_idx (used (dk s)) ->
  (exists h, h ∈ usedq s /\ info_status (dk s) h <> 0 /\ intr_turn s = Panic "virtio_disk_intr status")
  \/ exists b, intr_turn s = Ret (turned b s) /\ inv (turned b s).
Proof.
  intros I Hne. destruct (turn_head s I Hne) as (id & p & b & w & i1 & i2 & Hu & Hid & Ec & Hb).
  unfold intr_turn. rewrite Hid. destruct (nz (info_status (dk s) id)) eqn:Est.
  - left. exists id. split; [rewrite Hu; apply list_elem_of_here|]. split; [by apply nz_true|done].
  - right. exists b. rewrite Hb. split; [done|]. eapply turned_inv; eauto. by apply nz_false.
Qed.

(** ** The end of a request *)

Lemma finish_spec s p b w i0 i1 i2 : inv s -> pos s p = VTest b w i0 i1 i2 -> b_disk s b <> 1 ->
  info_status (dk s) i0 = 0 /\ exists s1,
    freed [i0; i1; i2] (set_dk (set_info_b i0 None (dk s)) s) s1
    /\ rw_finish p i0 s = Ret (set_pos p VIdle (set_vlock Nobody s1)).
Proof.
  intros I Ep Hb. assert (Ec : chain_of (pos s p) = Some (b, w, i0, i1, i2)) by (by rewrite Ep).
  destruct (v_chain _ I _ _ _ _ _ _ Ec) as [Hc Hp]. rewrite Ep in Hp. destruct Hp as [[? _]|(_ & _ & Hst)]; [done|]. split; [done|].
  destruct (free_chain_spec s (set_dk (set_info_b i0 None (dk s)) s) _ _ _ _ _ Hc) as (s1 & E & F); [done|by eapply (owned_not_free s p)|].
  exists s1. split; [done|]. unfold rw_finish. by rewrite E.
Qed.

(** Process [p] gives up or takes descriptors; the requests of the others and
    the rings stay as they are. *)
Record apart (p : nat) (s s' : sys) : Prop := MkApart {
  ap_pos : forall q, q <> p -> chain_of (pos s' q) = chain_of (pos s q) /\ published (pos s' q) = published (pos s q)
                     /\ buf_of (pos s' q) = buf_of (pos s q) /\ has_lock (pos s' q) = has_lock (pos s q);
  ap_free : forall i, 0 <= i < NUM -> i ∉ descs (pos s p) -> i ∉ descs (pos s' p) -> free (dk s') i = free (dk s) i;
  ap_disk : forall q i, q <> p -> i ∈ descs (pos s q) ->
    desc (dk s') i = desc (dk s) i /\ ops (dk s') i = ops (dk s) i /\ info_b (dk s') i = info_b (dk s) i
    /\ info_status (dk s') i = info_status (dk s) i;
  ap_bdisk : forall q b, q <> p -> buf_of (pos s q) = Some b -> b_disk s' b = b_disk s b;
  ap_blk : forall b, blockno_of s' b = blockno_of s b;
  ap_lock : forall q, q <> p -> vlock s <> Proc q /\ vlock s' <> Proc q;
  ap_queues : queued s' = queued s /\ outstanding s' = outstanding s;
  ap_heads : forall h, h ∈ outstanding s -> h ∉ descs (pos s p)
}.

Lemma apart_published p q s s' : inv s -> apart p s s' -> q <> p -> is_Some (chain_of (pos s q)) -> published (pos s q) = true.
Proof.
  intros I A Hq [c Hc]. destruct (published (pos s q)) eqn:E; [done|]. exfalso.
  assert (Hl : has_lock (pos s q) = true) by (destruct (pos s q); done). apply (v_lock _ I) in Hl. by apply (ap_lock _ _ _ A q Hq) in Hl.
Qed.

Lemma inv_apart p s s' : inv s -> apart p s s' ->
  (vlock s' = Proc p <-> has_lock (pos s' p) = true) ->
  (forall b, buf_of (pos s' p) = Some b -> buf_of (pos s p) = Some b) ->
  (forall i, i ∈ descs (pos s' p) -> free (dk s') i = false /\ forall q, i ∉ descs (pos s q)) ->
  (forall i, i ∈ descs (pos s p) -> free (dk s') i = true) ->
  (forall b w i0 i1 i2, chain_of (pos s' p) = Some (b, w, i0, i1, i2) -> chain_ok s' b w i0 i1 i2 /\ progress s' (pos s' p) b i0) ->
  rings_ok s' -> inv s'.
Proof.
  intros I A HL HB HN HO HC HR. destruct (ap_queues _ _ _ A) as [Q1 Q2].
  assert (D : forall q, q <> p -> descs (pos s' q) = descs (pos s q)).
  { intros q Hq. unfold descs. by rewrite (proj1 (ap_pos _ _ _ A q Hq)). }
  assert (B : forall q b, buf_of (pos s' q) = Some b -> buf_of (pos s q) = Some b).
  { intros q b. destruct (decide (q = p)) as [->|Hq]; [apply HB|]. by destruct (ap_pos _ _ _ A q Hq) as (_ & _ & -> & _). }
  split; [| | | | | | | | |done].
  - intros q. destruct (decide (q = p)) as [->|Hq]; [done|]. destruct (ap_pos _ _ _ A q Hq) as (_ & _ & _ & ->).
    destruct (ap_lock _ _ _ A q Hq). rewrite <- (v_lock _ I). tauto.
  - intros q1 q2 b H1%B H2%B. by apply (v_bufs _ I q1 q2 b).
  - intros q b H%B. rewrite (ap_blk _ _ _ A). by apply (v_blk _ I q).
  - intros i Hi. destruct (decide (i ∈ descs (pos s' p))) as [Hin|Hin]; [split; [eauto|by intros _; apply HN]|].
    destruct (decide (i ∈ descs (pos s p))) as [Hip|Hip].
    + rewrite (HO i Hip). split; [done|]. intros [q Hq]. destruct (decide (q = p)) as [->|Hqp]; [done|]. rewrite D in Hq by done.
      exfalso. apply Hqp. by apply (v_disj _ I q p i).
    + rewrite (ap_free _ _ _ A), (v_owned _ I) by done. split; intros [q Hq]; exists q.
      * by rewrite D by (by intros ->).
      * by rewrite <- D by (by intros ->).
  - intros q1 q2 i H1 H2. destruct (decide (q1 = p)) as [->|N1], (decide (q2 = p)) as [->|N2]; [done|..].
    + rewrite D in H2 by done. by apply HN in H1 as [_ H1]; apply H1 in H2.
    + rewrite D in H1 by done. by apply HN in H2 as [_ H2]; apply H2 in H1.
    + rewrite D in H1, H2 by done. by apply (v_disj _ I q1 q2 i).
  - intros q b w i0 i1 i2 E. destruct (decide (q = p)) as [->|Hq]; [by apply (HC b w i0 i1 i2)|].
    destruct (ap_pos _ _ _ A q Hq) as (Ec & Ep & _). rewrite Ec in E. destruct (v_chain _ I _ _ _ _ _ _ E) as [Hc Hp].
    pose proof (chain_descs _ _ _ _ _ _ E) as Ed. assert (Hpub := apart_published p q s s' I A Hq ltac:(by rewrite E)).
    assert (H0 : i0 ∈ descs (pos s q)) by (rewrite Ed; apply list_elem_of_here).
    destruct (ap_disk _ _ _ A q i0 Hq H0) as (_ & Eo & Ei & Es). split.
    + apply (chain_ok_frame s); try done; [|apply A]. intros i Hi. apply (ap_disk _ _ _ A q i Hq). by rewrite Ed.
    + unfold progress in *. rewrite Ep, Hpub, Q2, Es in *. rewrite (ap_bdisk _ _ _ A q b Hq); [done|]. by apply chain_buf in E.
  - intros h Hh. rewrite Q2 in Hh. destruct (v_heads _ I h Hh) as (q & b & w & i1 & i2 & E). exists q, b, w, i1, i2.
    assert (Hq : q <> p).
    { intros ->. apply (ap_heads _ _ _ A h Hh). rewrite (chain_descs _ _ _ _ _ _ E). apply list_elem_of_here. }
    by rewrite (proj1 (ap_pos _ _ _ A q Hq)).
  - rewrite Q2. apply (v_nodup _ I).
  - intros h Hh. rewrite Q1 in Hh. destruct (v_heads _ I h) as (q & b & w & i1 & i2 & E); [unfold outstanding; rewrite elem_of_app; by left|].
    assert (H0 : h ∈ descs (pos s q)) by (rewrite (chain_descs _ _ _ _ _ _ E); apply list_elem_of_here).
    assert (Hq : q <> p).
    { intros ->. apply (ap_heads _ _ _ A h); [unfold outstanding; rewrite elem_of_app; by left|done]. }
    destruct (ap_disk _ _ _ A q h Hq H0) as (_ & _ & _ & ->). by apply (v_status _ I).
Qed.

Lemma finish_inv s p b w i0 i1 i2 s1 : inv s -> pos s p = VTest b w i0 i1 i2 -> b_disk s b <> 1 ->
  freed [i0; i1; i2] (set_dk (set_info_b i0 None (dk s)) s) s1 -> inv (set_pos p VIdle (set_vlock Nobody s1)).
Proof.
  intros I Ep Hb [D Fr (K1 & K2 & K3 & K4 & K5 & K6) (M1 & M2 & M3 & M4 & M5 & M6) P]. simpl in D, Fr, K1, K2, K3, K4, K5, K6, M1, M2, M3, M4, M5, M6.
  assert (Ec : chain_of (pos s p) = Some (b, w, i0, i1, i2)) by (by rewrite Ep). pose proof (chain_descs _ _ _ _ _ _ Ec) as Ed.
  assert (Hl : vlock s = Proc p) by (apply (v_lock _ I); by rewrite Ep).
  set (s' := set_pos p VIdle (set_vlock Nobody s1)).
  assert (Hpp : pos s' p = VIdle) by (simpl; by rewrite fn_lookup_insert).
  assert (Hpos : forall q, q <> p -> pos s' q = woken OnFree (pos s q)) by (intros q Hq; simpl; rewrite fn_lookup_insert_ne by done; apply P).
  assert (Hno : forall q i, q <> p -> i ∈ descs (pos s q) -> i ∉ [i0; i1; i2]).
  { intros q i Hq Hi Hi'. apply Hq. apply (v_disj _ I q p i); [done|by rewrite Ed]. }
  apply (inv_apart p s); [done|split| | | | | |]; rewrite ?Hpp, ?Ed; try done.
  - intros q Hq. rewrite Hpos, woken_chain, woken_published, woken_buf, woken_has_lock by done. done.
  - intros i _ Hi _. simpl. by rewrite Fr, decide_False.
  - intros q i Hq Hi. pose proof (Hno q i Hq Hi) as Hn. simpl. rewrite D, K4, K5, K6, fn_lookup_insert_ne; [done| |done].
    intros ->. apply Hn, list_elem_of_here.
  - intros q b' _ _. simpl. by rewrite M2.
  - intros b'. unfold blockno_of. simpl. by rewrite M1.
  - intros q Hq. split; [congruence|done].
  - unfold outstanding, queued, availq, usedq. simpl. by rewrite K1, K2, K3, M4, M5.
  - intros h Hh Hin. destruct (v_heads _ I h Hh) as (q & b' & w' & j1 & j2 & E).
    assert (q = p) as -> by (apply (v_disj _ I q p h); [rewrite (chain_descs _ _ _ _ _ _ E); apply list_elem_of_here|by rewrite Ed]).
    rewrite Ec in E. inversion E; subst. destruct (v_chain _ I _ _ _ _ _ _ Ec) as [_ Hp]. rewrite Ep in Hp.
    destruct Hp as [[? _]|(_ & Hn & _)]; [done|exact (Hn Hh)].
  - intros i Hi. by apply not_elem_of_nil in Hi.
  - intros i Hi. simpl. by rewrite Fr, decide_True.
  - destruct (v_rings _ I). split; simpl; rewrite ?K1, ?K2, ?K3, ?M4; done.
Qed.

(** ** The start of a request *)

(** What [rw_format] does to each part. *)
Lemma format_fields s b w i0 i1 i2 : NoDup [i0; i1; i2] -> Forall (fun i => 0 <= i < NUM) [i0; i1; i2] ->
  0 <= blockno_of s b < 2 ^ 31 -> let s' := rw_format b w i0 i1 i2 s in
  chain_ok s' b w i0 i1 i2
  /\ (forall i, i ∉ [i0; i1; i2] -> desc (dk s') i = desc (dk s) i)
  /\ ops (dk s') = <[i0 := ops (dk s') i0]> (ops (dk s)) /\ info_b (dk s') = <[i0 := Some b]> (info_b (dk s))
  /\ info_status (dk s') = <[i0 := 255]> (info_status (dk s)) /\ b_disk s' = <[b := 1]> (b_disk s)
  /\ av_idx (avail (dk s')) = av_idx (avail (dk s))
  /\ av_ring (avail (dk s')) = <[RingBuf.slot NUM (av_idx (avail (dk s))) := i0]> (av_ring (avail (dk s)))
  /\ used (dk s') = used (dk s) /\ used_idx (dk s') = used_idx (dk s) /\ free (dk s') = free (dk s)
  /\ dev_idx s' = dev_idx s /\ inflight s' = inflight s /\ vlock s' = vlock s /\ pos s' = pos s /\ bufs s' = bufs s.
Proof.
  intros Hn Hr Hk s'. pose proof Hn as Hn'. rewrite !NoDup_cons, !not_elem_of_cons in Hn'.
  destruct Hn' as ((N01 & N02 & _) & (N12 & _) & _). pose proof Hr as Hr'. rewrite !Forall_cons in Hr'. unfold NUM in Hr'.
  destruct Hr' as (R0 & R1 & R2 & _). assert (Hu : u16 i0 = i0 /\ u16 i1 = i1 /\ u16 i2 = i2) by (rewrite !u16_small by lia; done).
  destruct Hu as (U0 & U1 & U2).
  assert (Ed0 : desc (dk s') i0 = MkDesc (OpAddr i0) 16 VRING_DESC_F_NEXT i1).
  { simpl. rewrite !fn_lookup_insert_ne by done. by rewrite fn_lookup_insert, U1. }
  assert (Ed1 : desc (dk s') i1 = MkDesc (DataAddr b) BSIZE (if nz w then 1 else 3) i2).
  { simpl. rewrite fn_lookup_insert_ne by done. rewrite fn_lookup_insert, U2. by destruct (nz w). }
  assert (Ed2 : desc (dk s') i2 = MkDesc (StatusAddr i0) 1 VRING_DESC_F_WRITE 0) by (simpl; by rewrite fn_lookup_insert).
  assert (Eop : ops (dk s') i0 = MkReq (if nz w then VIRTIO_BLK_T_OUT else VIRTIO_BLK_T_IN) 0 (2 * blockno_of s' b)).
  { simpl. rewrite fn_lookup_insert. f_equal. change (BSIZE / 512) with 2. change (blockno_of s' b) with (blockno_of s b).
    rewrite u32_small, u64_small by lia. lia. }
  assert (Ei : info_b (dk s') i0 = Some b) by (simpl; by rewrite fn_lookup_insert).
  split; [by split|]. split.
  { intros i Hi. rewrite !not_elem_of_cons in Hi. destruct Hi as (H0 & H1 & H2 & _). simpl. by rewrite !fn_lookup_insert_ne by done. }
  split; [simpl; by rewrite fn_lookup_insert|]. do 4 (split; [done|]). split; [simpl; by rewrite U0|]. done.
Qed.

Lemma submitted_inv s p b w i0 i1 i2 s1 : inv s -> pos s p = VEnter b w -> vlock s = Nobody ->
  NoDup [i0; i1; i2] -> Forall (fun i => 0 <= i < NUM /\ free (dk s) i = true) [i0; i1; i2] ->
  taken [i0; i1; i2] (set_vlock (Proc p) s) s1 -> inv (set_pos p (VRing b w i0 i1 i2) (rw_format b w i0 i1 i2 s1)).
Proof.
  intros I Ep Hl Hn Hf [Fr (K0 & K1 & K2 & K3 & K4 & K5 & K6) (M1 & M2 & M3 & M4 & M5 & M6 & M7)].
  simpl in K0, K1, K2, K3, K4, K5, K6, M1, M2, M3, M4, M5, M6, M7, Fr.
  assert (Hr : Forall (fun i => 0 <= i < NUM) [i0; i1; i2]) by (eapply Forall_impl; [exact Hf|]; by intros i []).
  assert (Hfree : forall i, i ∈ [i0; i1; i2] -> free (dk s) i = true) by (intros i Hi; rewrite Forall_forall in Hf; by apply Hf).
  assert (Hb : buf_of (pos s p) = Some b) by (by rewrite Ep).
  assert (Hblk1 : forall b', blockno_of s1 b' = blockno_of s b') by (intros b'; unfold blockno_of; by rewrite M1).
  destruct (format_fields s1 b w i0 i1 i2 Hn Hr) as (Hc & D & O & IB & IS & BD & AI & AR & U & UI & F & DV & IF & VL & PS & BS).
  { rewrite Hblk1. by apply (v_blk _ I p). }
  set (s2 := rw_format b w i0 i1 i2 s1) in *. clearbody s2. set (s' := set_pos p (VRing b w i0 i1 i2) s2).
  assert (Hblk : forall b', blockno_of s' b' = blockno_of s b') by (intros b'; rewrite <- Hblk1; unfold blockno_of; simpl; by rewrite BS).
  assert (Hpp : pos s' p = VRing b w i0 i1 i2) by (simpl; by rewrite fn_lookup_insert).
  assert (Hpos : forall q, q <> p -> pos s' q = pos s q) by (intros q Hq; simpl; rewrite fn_lookup_insert_ne by done; by rewrite PS, M7).
  assert (Hown : forall q i, i ∈ [i0; i1; i2] -> i ∉ descs (pos s q)).
  { intros q i Hi Hd. assert (0 <= i < NUM) as Hri by (rewrite Forall_forall in Hr; by apply Hr).
    assert (free (dk s) i = false) by (apply (v_owned _ I i Hri); eauto). rewrite (Hfree i Hi) in *. done. }
  assert (Hi0 : i0 ∉ outstanding s).
  { intros Hh. destruct (v_heads _ I i0 Hh) as (q & b' & w' & j1 & j2 & E). apply (Hown q i0); [apply list_elem_of_here|].
    rewrite (chain_descs _ _ _ _ _ _ E). apply list_elem_of_here. }
  destruct (v_rings _ I) as [R1 R2 R3 R4 R5 R6].
  assert (Hav : availq s' = availq s).
  { rewrite !availq_win. simpl. rewrite AI, AR, DV, K1, M4. apply win_store; try done. rewrite <- availq_win.
    pose proof (room_for s i0 I) as Hroom. apply Forall_inv in Hr. specialize (Hroom Hr Hi0). rewrite length_outstanding in Hroom. lia. }
  assert (Hq : queued s' = queued s) by (unfold queued; rewrite Hav; simpl; by rewrite IF, M5).
  assert (Ho : outstanding s' = outstanding s) by (unfold outstanding; rewrite Hq; unfold usedq; simpl; by rewrite U, UI, K2, K3).
  apply (inv_apart p s); [done|split| | | | | |]; rewrite ?Hpp, ?Ep; try done.
  - intros q Hqp. by rewrite Hpos.
  - intros i _ _ Hi. simpl. by rewrite F, Fr, decide_False.
  - intros q i Hqp Hi. assert (Hn' : i ∉ [i0; i1; i2]) by (intros Hin; by apply (Hown q i Hin)).
    assert (i <> i0) by (intros ->; apply Hn', list_elem_of_here).
    simpl. rewrite D, O, IB, IS, !fn_lookup_insert_ne, K0, K4, K5, K6 by done. done.
  - intros q b' Hqp Hb'. simpl. rewrite BD, fn_lookup_insert_ne, M2; [done|]. intros <-. apply Hqp. by apply (v_bufs _ I q p b).
  - intros q Hqp. rewrite Hl. split; [done|]. simpl. rewrite VL, M6. congruence.
  - intros h Hh. by intros ?%not_elem_of_nil.
  - simpl. by rewrite VL, M6.
  - intros i Hi. split; [simpl; by rewrite F, Fr, decide_True|]. intros q. by apply Hown.
  - intros i Hi. by apply not_elem_of_nil in Hi.
  - intros b' w' j0 j1 j2 [= <- <- <- <- <-]. split; [by apply (chain_ok_frame s2)|]. unfold progress. cbn [published]. rewrite Ho. simpl.
    rewrite BD, IS, !fn_lookup_insert, AI, AR, K1, nth_lookup, list_lookup_insert_eq; [done|].
    rewrite R1. unfold RingBuf.slot, NUM. pose proof (Z.mod_pos_bound (av_idx (avail (dk s))) 8). lia.
  - split; simpl; rewrite ?AR, ?AI, ?U, ?UI, ?DV, ?length_insert, ?K1, ?K2, ?K3, ?M4; done.
Qed.

(** ** Every step *)

(** A step of process [p] (if any) that does not touch its request. *)
Lemma inv_move s s' : inv s -> dk s' = dk s -> bufs s' = bufs s -> b_disk s' = b_disk s -> dev_idx s' = dev_idx s ->
  inflight s' = inflight s ->
  (forall p, chain_of (pos s' p) = chain_of (pos s p) /\ published (pos s' p) = published (pos s p)
             /\ buf_of (pos s' p) = buf_of (pos s p)) ->
  (forall p, vlock s' = Proc p <-> has_lock (pos s' p) = true) -> inv s'.
Proof.
  intros I E1 E2 E3 E4 E5 P L. assert (B : forall b, blockno_of s' b = blockno_of s b) by (intros b; unfold blockno_of; by rewrite E2).
  apply (inv_same s); [done| |done|..].
  - split; rewrite ?E1; try done. intros p. destruct (P p) as (? & ? & _). auto.
  - intros p q b. rewrite !(proj2 (proj2 (P _))). apply (v_bufs _ I).
  - intros p b. rewrite (proj2 (proj2 (P _))), B. apply (v_blk _ I).
Qed.

(** Process [p] changes its position, and takes or drops the lock. *)
Lemma inv_goto s p x o : inv s -> chain_of x = chain_of (pos s p) -> published x = published (pos s p) ->
  buf_of x = buf_of (pos s p) -> (o = Proc p <-> has_lock x = true) -> (forall q, q <> p -> o <> Proc q) ->
  (forall q, q <> p -> vlock s <> Proc q) -> inv (set_pos p x (set_vlock o s)).
Proof.
  intros I Hc Hp Hb Ho Ho' Hv. apply (inv_move s); try done; intros q; simpl;
    (destruct (decide (q = p)) as [->|Hq]; [rewrite fn_lookup_insert|rewrite fn_lookup_insert_ne by done]); auto.
  split; [intros E; by apply Ho' in E|]. intros E%(v_lock _ I). by apply Hv in E.
Qed.

(** The registers have no part in the invariant. *)
Lemma inv_io s v : inv s -> inv (set_io v s).
Proof. intros I. apply (inv_move s); try done. intros p. apply (v_lock _ I). Qed.

Lemma inv_lock s o : inv s -> (forall p, vlock s <> Proc p) -> (forall p, o <> Proc p) -> inv (set_vlock o s).
Proof.
  intros I Hv Ho. apply (inv_move s); try done. intros p. simpl. split; [intros E; by apply Ho in E|].
  intros E%(v_lock _ I). by apply Hv in E.
Qed.

Lemma holder_only s p : inv s -> has_lock (pos s p) = true -> forall q, q <> p -> vlock s <> Proc q.
Proof. intros I Hp q Hq E. apply (v_lock _ I) in Hp. congruence. Qed.

Lemma submit_spec s p b w : inv s -> pos s p = VEnter b w -> vlock s = Nobody ->
  exists s', rw_submit p b w s = Ret s' /\ inv s' /\
    ((exists i0 i1 i2 s1, NoDup [i0; i1; i2] /\ Forall (fun i => 0 <= i < NUM /\ free (dk s) i = true) [i0; i1; i2]
        /\ taken [i0; i1; i2] (set_vlock (Proc p) s) s1
        /\ s' = set_pos p (VRing b w i0 i1 i2) (rw_format b w i0 i1 i2 s1))
     \/ exists s1, unchanged (set_vlock (Proc p) s) s1 /\ s' = set_pos p (VDesc b w) (set_vlock Nobody s1)
        /\ exists i, 0 <= i < NUM /\ free (dk s) i = false).
Proof.
  intros I Ep Hl. unfold rw_submit. destruct (alloc3_spec (set_vlock (Proc p) s)) as (r & s1 & -> & Hr). cbn [mbind outcome_bind].
  destruct r as [l|].
  - destruct Hr as (i0 & i1 & i2 & -> & Hn & Hf & T). eexists. split; [done|]. split; [by apply (submitted_inv s)|].
    left. exists i0, i1, i2, s1. auto.
  - destruct Hr as [U Hi]. eexists. split; [done|]. split; [|right; eauto].
    destruct U as [F D (K1 & K2 & K3 & K4 & K5 & K6) (M1 & M2 & M3 & M4 & M5 & M6) P]. simpl in F, D, K1, K2, K3, K4, K5, K6, M1, M2, M4, M5.
    assert (B : forall b', blockno_of (set_pos p (VDesc b w) (set_vlock Nobody s1)) b' = blockno_of s b').
    { intros b'. unfold blockno_of. simpl. by rewrite M1. }
    assert (Hpos : forall q, chain_of (<[p := VDesc b w]> (pos s1) q) = chain_of (pos s q)
              /\ published (<[p := VDesc b w]> (pos s1) q) = published (pos s q)
              /\ buf_of (<[p := VDesc b w]> (pos s1) q) = buf_of (pos s q)
              /\ has_lock (<[p := VDesc b w]> (pos s1) q) = has_lock (pos s q)).
    { intros q. destruct (decide (q = p)) as [->|Hq]; [by rewrite fn_lookup_insert, Ep|]. rewrite fn_lookup_insert_ne by done.
      destruct (P q) as [->| ->]; simpl pos; rewrite ?woken_chain, ?woken_published, ?woken_buf, ?woken_has_lock; done. }
    apply (inv_same s); [done| | | |].
    + split; try done. intros q. split; apply Hpos.
    + intros q. cbn [pos vlock set_pos set_vlock]. destruct (Hpos q) as (_ & _ & _ & ->). rewrite <- (v_lock _ I), Hl. done.
    + intros q1 q2 b'. cbn [pos set_pos set_vlock]. destruct (Hpos q1) as (_ & _ & -> & _), (Hpos q2) as (_ & _ & -> & _). apply (v_bufs _ I).
    + intros q b'. cbn [pos set_pos set_vlock]. rewrite B. destruct (Hpos q) as (_ & _ & -> & _). apply (v_blk _ I).
Qed.

(** [virtio_disk_rw] called, and stores to buffers that are not in a request. *)
Lemma call_inv s p b w : inv s -> pos s p = VIdle -> unused s b -> 0 <= blockno_of s b < 2 ^ 31 -> inv (set_pos p (VEnter b w) s).
Proof.
  intros I Ep Hu Hk. apply (inv_same s); [done| | | |].
  - split; try done. intros q. simpl. destruct (decide (q = p)) as [->|]; [by rewrite fn_lookup_insert, Ep|by rewrite fn_lookup_insert_ne].
  - intros q. simpl. rewrite (v_lock _ I). destruct (decide (q = p)) as [->|]; [by rewrite fn_lookup_insert, Ep|by rewrite fn_lookup_insert_ne].
  - intros q1 q2 b'. simpl. destruct (decide (q1 = p)) as [->|], (decide (q2 = p)) as [->|]; rewrite ?fn_lookup_insert, ?fn_lookup_insert_ne by done;
      [done|intros [= <-] H; by apply Hu in H|intros H [= <-]; by apply Hu in H|apply (v_bufs _ I)].
  - intros q b'. simpl. change (blockno_of (set_pos p (VEnter b w) s) b') with (blockno_of s b').
    destruct (decide (q = p)) as [->|]; [rewrite fn_lookup_insert; intros [= <-]; done|rewrite fn_lookup_insert_ne by done; apply (v_blk _ I)].
Qed.

Lemma store_inv s b x : inv s -> unused s b -> inv (set_bufs (<[b := x]> (bufs s)) s).
Proof.
  intros I Hu. assert (B : forall p b', buf_of (pos s p) = Some b' -> blockno_of (set_bufs (<[b := x]> (bufs s)) s) b' = blockno_of s b').
  { intros p b' Hb. unfold blockno_of. simpl. rewrite lookup_insert_ne; [done|]. intros ->. by apply Hu in Hb. }
  apply (inv_same s); [done|by split|apply (v_lock _ I)|apply (v_bufs _ I)|]. intros p b' Hb. rewrite (B p) by done. by apply (v_blk _ I p).
Qed.

Lemma dev_spec s o : inv s -> dev_step s o -> exists s', o = Ret s' /\ inv s'.
Proof.
  intros I [Hne|h st Hh Hst|Hk Hne]; [eexists; split; [done|by apply fetch_inv]| |eexists; split; [done|by apply inv_io]].
  destruct (inflight_chain s h I Hh) as (p & b & w & i1 & i2 & _ & Hc). rewrite (complete_eq _ _ _ _ _ _ _ Hc). eexists. split; [done|].
  apply answered_inv; destruct (st =? 0); try done; [by apply transfer_inv|]. by rewrite (proj1 (proj2 (proj2 (proj2 (transfer_fields b w s))))).
Qed.

(** Whatever happens, the invariant is kept; the only panic is the one for a
    device that reported an error. *)
Lemma step_inv s l o : inv s -> step dev_step s l o ->
  (exists s', o = Ret s' /\ inv s')
  \/ o = Panic "virtio_disk_intr status" /\ exists h, h ∈ usedq s /\ info_status (dk s) h <> 0.
Proof.
  intros I St. destruct St as [p b w Hp Ep Hu [Hk _]|b x Hu|p b w Ep Hl|p b w i0 i1 i2 Ep|p b w i0 i1 i2 Ep Hb|p b w i0 i1 i2 Ep Hl
    |p b w i0 i1 i2 Ep Hb|Hl Hq|Hl Hne|Hl He|o Hd].
  - left. eexists. split; [done|by apply call_inv].
  - left. eexists. split; [done|by apply store_inv].
  - left. destruct (submit_spec s p b w I Ep Hl) as (s' & E & I' & _). eauto.
  - left. eexists. split; [done|by apply publish_inv].
  - left. eexists. split; [done|]. apply inv_goto; rewrite ?Ep; try done. apply holder_only; [done|by rewrite Ep].
  - left. eexists. split; [done|]. apply inv_goto; rewrite ?Ep; try done; [|by rewrite Hl]. intros q Hq. congruence.
  - left. destruct (finish_spec s p b w i0 i1 i2 I Ep Hb) as (_ & s1 & F & ->). eexists. split; [done|by eapply finish_inv].
  - left. eexists. split; [done|]. apply inv_lock; [by apply inv_io|simpl; by rewrite Hl|done].
  - destruct (turn_spec s I Hne) as [(h & Hh & Hs & E)|(b & E & I')]; [right; eauto|left; eauto].
  - left. eexists. split; [done|]. apply inv_lock; [done|by rewrite Hl|done].
  - left. by apply (dev_spec s).
Qed.

End VirtioSteps.
