(* ===== verification/VirtioSpec.v ===== *)
(** * The virtio driver implements an atomic disk

    The contract of [virtio_disk_rw] that the buffer cache relies on is
    [Bio.disk_rw]: a completed request has read or written its block.  [atomic]
    below is the machine in which every request takes effect at one moment
    between its call and its return by exactly that function.  The driver with
    its rings, its sleeping processes, the interrupt handler and any device that
    obeys the virtio specification shows no behaviour that this machine does not
    have; it never panics unless the device reports an error; and no request is
    left waiting. *)

From S2P Require Import Prelude Riscv ProcDefs Block Sleeplock RingBuf Bio Virtio VirtioInv VirtioSteps.
From stdpp Require Import base list numbers gmap strings functions sets.
From Stdlib Require Import ZArith Lia.

#[local] Open Scope Z_scope.

Import Block Virtio VirtioInv VirtioSteps.

Module VirtioSpec.

(** ** The atomic disk *)

Inductive areq : Type :=
| ANone
| APending (b w : Z)
| ADone.

Record atomic : Type := MkAtomic {
  a_bst : bst;
  a_req : nat -> areq
}.

Inductive astep (a : atomic) : option label -> atomic -> Prop :=
| a_call p b w : a_req a p = ANone ->
    astep a (Some (LCall p b w)) (MkAtomic (a_bst a) (<[p := APending b w]> (a_req a)))
| a_store b x : astep a (Some (LStore b x)) (MkAtomic (upd b (fun _ => x) (a_bst a)) (a_req a))
| a_commit p b w : a_req a p = APending b w ->
    astep a None (MkAtomic (Bio.disk_rw b w (a_bst a)) (<[p := ADone]> (a_req a)))
| a_return p : a_req a p = ADone ->
    astep a (Some (LRet p)) (MkAtomic (a_bst a) (<[p := ANone]> (a_req a))).

Inductive arun (a : atomic) : list label -> atomic -> Prop :=
| arun_nil : arun a [] a
| arun_tau t a1 a2 : arun a t a1 -> astep a1 None a2 -> arun a t a2
| arun_vis t l a1 a2 : arun a t a1 -> astep a1 (Some l) a2 -> arun a (t ++ [l]) a2.

(** ** The simulation *)

(** The blocks of a medium: two sectors each. *)
Definition holds (m d : gmap Z (list Z)) : Prop :=
  forall bn, 0 <= bn < 2 ^ 31 -> dblock d bn = sector_data m (2 * bn) ++ sector_data m (2 * bn + 1).

(** The status byte of a request says whether it has taken effect. *)
Definition areq_of (st : Z -> Z) (x : vpos) : areq :=
  match x with
  | VIdle => ANone
  | VEnter b w | VDesc b w => APending b w
  | VRing b w i0 _ _ | VTest b w i0 _ _ | VAsleep b w i0 _ _ | VWoken b w i0 _ _ =>
      if st i0 =? 0 then ADone else APending b w
  end.

Record rel (s : sys) (a : atomic) : Prop := MkRel {
  re_bufs : bc_buf (a_bst a) = bufs s;
  re_disk : holds (media s) (bc_disk (a_bst a));
  re_req : forall p, a_req a p = areq_of (info_status (dk s)) (pos s p);
  re_len : forall p b w, a_req a p = APending b w -> length (b_data (default buf0 (bufs s !! b))) = Z.to_nat BSIZE
}.

Lemma areq_woken st c x : areq_of st (woken c x) = areq_of st x.
Proof. destruct c, x; simpl; try done. by destruct (_ =? _). Qed.

Lemma areq_chain st x b w i0 i1 i2 : chain_of x = Some (b, w, i0, i1, i2) -> areq_of st x = if st i0 =? 0 then ADone else APending b w.
Proof. destruct x; intros E; inversion E; done. Qed.

(** The request of a process looks the same when the statuses of its own
    descriptors are. *)
Lemma areq_ext st st' x : (forall i, i ∈ descs x -> st' i = st i) -> areq_of st' x = areq_of st x.
Proof. intros H. destruct x; simpl; try done; rewrite H by apply list_elem_of_here; done. Qed.

Lemma pending_buf st x b w : areq_of st x = APending b w -> buf_of x = Some b.
Proof. destruct x; simpl; try done; try (by intros [= <- _]); by destruct (_ =? 0); [|intros [= <- _]]. Qed.

Lemma rel_frame s s' a : rel s a -> bufs s' = bufs s -> media s' = media s ->
  (forall p, areq_of (info_status (dk s')) (pos s' p) = areq_of (info_status (dk s)) (pos s p)) -> rel s' a.
Proof. intros [R1 R2 R3 R4] E1 E2 E3. split; rewrite ?E1, ?E2; try done. intros p. by rewrite E3. Qed.

(** Process [p] moves to [x]. *)
Lemma rel_goto s p x o a : rel s a -> areq_of (info_status (dk s)) x = areq_of (info_status (dk s)) (pos s p) ->
  rel (set_pos p x (set_vlock o s)) a.
Proof.
  intros R E. apply (rel_frame s); try done. intros q. simpl.
  destruct (decide (q = p)) as [->|]; [by rewrite fn_lookup_insert|by rewrite fn_lookup_insert_ne].
Qed.

(** ** The transfer *)

Lemma holds_write m d bn x : holds m d -> 0 <= bn < 2 ^ 31 -> length x = Z.to_nat BSIZE ->
  holds (write_sectors 2 (2 * bn) x m) (<[bn := x]> d).
Proof.
  intros H Hb Hx bn' Hb'. cbn [write_sectors]. unfold dblock, sector_data. destruct (decide (bn = bn')) as [->|Hne].
  - rewrite lookup_insert_eq, lookup_insert_ne, !lookup_insert_eq by lia. simpl default.
    rewrite (take_ge (drop 512 x)); [by rewrite take_drop|]. rewrite length_drop, Hx. unfold BSIZE. lia.
  - rewrite lookup_insert_ne by done. rewrite !lookup_insert_ne by lia. by apply H.
Qed.

Lemma holds_read m d bn : holds m d -> 0 <= bn < 2 ^ 31 -> read_sectors 2 (2 * bn) m = dblock d bn.
Proof. intros H Hb. rewrite H by done. cbn [read_sectors]. by rewrite app_nil_r. Qed.

(** The device carrying out a request is [Bio.disk_rw]. *)
Lemma transfer_rw s b w bs : bc_buf bs = bufs s -> holds (media s) (bc_disk bs) -> 0 <= blockno_of s b < 2 ^ 31 ->
  length (b_data (default buf0 (bufs s !! b))) = Z.to_nat BSIZE ->
  bc_buf (Bio.disk_rw b w bs) = bufs (transfer b w s) /\ holds (media (transfer b w s)) (bc_disk (Bio.disk_rw b w bs)).
Proof.
  intros E H Hb Hl. unfold Bio.disk_rw, transfer, bf. rewrite E. unfold blockno_of in Hb.
  destruct (nz w).
  - split; [done|]. by apply holds_write.
  - split; [|done]. unfold upd, bf. cbn [bc_buf bufs set_bufs]. by rewrite E, (holds_read _ _ _ H).
Qed.

(** The device finishes request [h]. *)
Lemma complete_sim s a h st s' : inv s -> rel s a -> h ∈ inflight s -> 0 <= st < 255 -> dev_complete h st s = Ret s' ->
  exists a', (a' = a \/ astep a None a') /\ rel s' a'.
Proof.
  intros I R Hh Hst E. destruct (inflight_chain s h I Hh) as (p & b & w & i1 & i2 & Ec & Hc).
  rewrite (complete_eq _ _ _ _ _ _ _ Hc) in E. injection E as <-.
  assert (Hs : info_status (dk s) h = 255) by (apply (v_status _ I); unfold queued; rewrite elem_of_app; auto).
  assert (Hp : a_req a p = APending b w) by (by rewrite (re_req _ _ R), (areq_chain _ _ _ _ _ _ _ Ec), Hs).
  assert (Ho : forall q, q <> p -> h ∉ descs (pos s q)).
  { intros q Hq Hd. apply Hq. apply (v_disj _ I q p h); [done|]. rewrite (chain_descs _ _ _ _ _ _ Ec). apply list_elem_of_here. }
  assert (Hu : u8 st = st) by (apply u8_small; lia).
  destruct (Z.eqb_spec st 0) as [->|Hne].
  - destruct (transfer_fields b w s) as (T1 & T2 & T3 & T4 & T5 & T6 & T7).
    destruct (transfer_rw s b w (a_bst a)) as [B D]; [apply R|apply R|by apply (v_blk _ I p b), (chain_buf _ _ _ _ _ _ Ec)|by apply (re_len _ _ R p b w)|].
    exists (MkAtomic (Bio.disk_rw b w (a_bst a)) (<[p := ADone]> (a_req a))). split; [right; by apply a_commit|].
    assert (HR : forall q, <[p := ADone]> (a_req a) q = areq_of (<[h := 0]> (info_status (dk s))) (pos s q)).
    { intros q. destruct (decide (q = p)) as [->|Hq].
      - by rewrite fn_lookup_insert, (areq_chain _ _ _ _ _ _ _ Ec), fn_lookup_insert.
      - rewrite fn_lookup_insert_ne, (re_req _ _ R) by done. symmetry. apply areq_ext. intros i Hi.
        rewrite fn_lookup_insert_ne; [done|]. intros ->. by apply (Ho q). }
    split; [exact B|exact D| |].
    + intros q. cbn [a_req]. rewrite HR. cbn [answered set_io info_status dk set_dev set_dk set_used set_status pos].
      by rewrite T1, T6.
    + intros q b' w' Hq. cbn [a_req] in Hq. assert (q <> p) by (intros ->; by rewrite fn_lookup_insert in Hq).
      rewrite fn_lookup_insert_ne in Hq by done. assert (b' <> b).
      { intros ->. rewrite (re_req _ _ R) in Hq. apply pending_buf in Hq.
        by pose proof (v_bufs _ I q p b Hq (chain_buf _ _ _ _ _ _ Ec)). }
      cbn [answered set_io bufs set_dev set_dk]. rewrite <- (re_len _ _ R q b' w' Hq). unfold transfer. destruct (nz w); [done|].
      simpl. by rewrite lookup_insert_ne.
  - exists a. split; [by left|]. apply (rel_frame s); try done. intros q.
    cbn [answered set_io info_status dk set_dev set_dk set_used set_status pos]. rewrite Hu. destruct (decide (q = p)) as [->|Hq].
    + rewrite !(areq_chain _ _ _ _ _ _ _ Ec), fn_lookup_insert, Hs. destruct (Z.eqb_spec st 0); done.
    + apply areq_ext. intros i Hi. rewrite fn_lookup_insert_ne; [done|]. intros ->. by apply (Ho q).
Qed.

Lemma submit_sim s a p b w s' : inv s -> rel s a -> pos s p = VEnter b w -> vlock s = Nobody ->
  rw_submit p b w s = Ret s' -> rel s' a.
Proof.
  intros I R Ep Hl E. destruct (submit_spec s p b w I Ep Hl) as (s2 & E2 & _ & H). rewrite E in E2. injection E2 as <-.
  destruct H as [(i0 & i1 & i2 & s1 & Hn & Hf & T & ->)|(s1 & U & -> & _)].
  - destruct (tk_disk _ _ _ T) as (_ & _ & _ & _ & _ & K5 & _). destruct (tk_sys _ _ _ T) as (M1 & _ & M3 & _ & _ & _ & M7).
    apply (rel_frame s); [done|exact M1|exact M3|]. intros q. cbn [pos set_pos dk rw_format set_dk info_status set_avail set_info_b set_desc set_status set_op set_bdisk].
    rewrite K5, M7. cbn [dk set_vlock pos]. destruct (decide (q = p)) as [->|Hq].
    + rewrite fn_lookup_insert, Ep. cbn [areq_of]. by rewrite fn_lookup_insert.
    + rewrite fn_lookup_insert_ne by done. apply areq_ext. intros i Hi. rewrite fn_lookup_insert_ne; [done|]. intros <-.
      apply Forall_inv in Hf as [Hr Hf]. assert (free (dk s) i0 = false) by (apply (v_owned _ I _ Hr); eauto). congruence.
  - destruct (uc_disk _ _ U) as (_ & _ & _ & _ & K5 & _). destruct (uc_sys _ _ U) as (M1 & _ & M3 & _).
    apply (rel_frame s); [done|exact M1|exact M3|]. intros q. cbn [pos set_pos dk info_status set_vlock]. rewrite K5. cbn [dk set_vlock].
    destruct (decide (q = p)) as [->|Hq]; [by rewrite fn_lookup_insert, Ep|]. rewrite fn_lookup_insert_ne by done.
    destruct (uc_pos _ _ U q) as [->| ->]; cbn [pos set_vlock]; by rewrite ?areq_woken.
Qed.

Lemma finish_sim s a p b w i0 i1 i2 s' : inv s -> rel s a -> pos s p = VTest b w i0 i1 i2 -> b_disk s b <> 1 ->
  rw_finish p i0 s = Ret s' -> exists a', astep a (Some (LRet p)) a' /\ rel s' a'.
Proof.
  intros I R Ep Hb E. destruct (finish_spec s p b w i0 i1 i2 I Ep Hb) as (Hst & s1 & F & E2). rewrite E in E2. injection E2 as ->.
  destruct (fr_disk _ _ _ F) as (_ & _ & _ & _ & K5 & _). destruct (fr_sys _ _ _ F) as (M1 & _ & M3 & _).
  eexists. split; [apply a_return; by rewrite (re_req _ _ R), Ep; cbn [areq_of]; rewrite Hst|].
  assert (HP : forall q b' w', <[p := ANone]> (a_req a) q = APending b' w' -> a_req a q = APending b' w').
  { intros q b' w'. destruct (decide (q = p)) as [->|]; [by rewrite fn_lookup_insert|by rewrite fn_lookup_insert_ne]. }
  split; cbn [a_bst a_req bufs media set_pos set_vlock dk pos]; rewrite ?M1, ?M3; [apply R|apply R| |].
  - intros q. rewrite K5. destruct (decide (q = p)) as [->|Hq]; [by rewrite !fn_lookup_insert|]. rewrite !fn_lookup_insert_ne by done.
    rewrite (re_req _ _ R), (fr_pos _ _ _ F), areq_woken. done.
  - intros q b' w' Hq%HP. by apply (re_len _ _ R q b' w').
Qed.

(** Every step of the driver and the device is a step of the atomic disk with
    the same label, or none. *)
Lemma step_sim s a l s' : inv s -> rel s a -> step dev_step s l (Ret s') ->
  exists a', (l = None /\ a' = a \/ astep a l a') /\ rel s' a'.
Proof.
  intros I R St. remember (Ret s') as o eqn:Eo. destruct St as [p b w Hp Ep Hu [Hk Hlen]|b x Hu|p b w Ep Hl|p b w i0 i1 i2 Ep|p b w i0 i1 i2 Ep Hb
    |p b w i0 i1 i2 Ep Hl|p b w i0 i1 i2 Ep Hb|Hl Hq|Hl Hne|Hl He|o [Hne|h st Hh Hst|Hk Hne]].
  - injection Eo as <-. eexists. split; [right; apply a_call; by rewrite (re_req _ _ R), Ep|]. split; [apply R|apply R|..]; cbn [a_req set_pos dk pos bufs].
    + intros q. destruct (decide (q = p)) as [->|]; [by rewrite !fn_lookup_insert|]. rewrite !fn_lookup_insert_ne by done. apply R.
    + intros q b' w'. destruct (decide (q = p)) as [->|]; [rewrite fn_lookup_insert; by intros [= <- <-]|].
      rewrite fn_lookup_insert_ne by done. apply (re_len _ _ R).
  - injection Eo as <-. eexists. split; [right; apply a_store|]. split; cbn [a_bst upd bc_buf bc_disk bufs set_bufs media a_req dk pos]; [by rewrite (re_bufs _ _ R)|apply R|apply R|].
    intros q b' w' Hq. rewrite lookup_insert_ne; [by apply (re_len _ _ R q b' w')|]. intros <-. rewrite (re_req _ _ R) in Hq.
    apply pending_buf in Hq. by apply Hu in Hq.
  - exists a. split; [by left|]. by apply (submit_sim s a p b w).
  - injection Eo as <-. exists a. split; [by left|]. apply (rel_frame s); try done. intros q. simpl.
    destruct (decide (q = p)) as [->|]; [by rewrite fn_lookup_insert, Ep|by rewrite fn_lookup_insert_ne].
  - injection Eo as <-. exists a. split; [by left|]. apply rel_goto; [done|by rewrite Ep].
  - injection Eo as <-. exists a. split; [by left|]. apply rel_goto; [done|by rewrite Ep].
  - destruct (finish_sim s a p b w i0 i1 i2 s' I R Ep Hb Eo) as (a' & ? & ?). eauto.
  - injection Eo as <-. exists a. split; [by left|]. by apply (rel_frame s).
  - exists a. split; [by left|]. destruct (turn_spec s I Hne) as [(? & _ & _ & E)|(b & E & _)]; rewrite E in Eo; [done|]. injection Eo as <-.
    apply (rel_frame s); try done. intros q. apply areq_woken.
  - injection Eo as <-. exists a. split; [by left|]. by apply (rel_frame s).
  - injection Eo as <-. exists a. split; [by left|]. by apply (rel_frame s).
  - destruct (complete_sim s a h st s' I R Hh Hst Eo) as (a' & [->|?] & ?); eauto.
  - injection Eo as <-. exists a. split; [by left|]. by apply (rel_frame s).
Qed.

(** ** The theorems *)

Lemma boot_inv bs m : inv (boot bs m).
Proof.
  split; simpl; try done.
  - intros i Hi. rewrite bool_decide_true by done. split; [done|]. intros [p Hp]. by apply not_elem_of_nil in Hp.
  - intros p q i Hi. by apply not_elem_of_nil in Hi.
  - intros h Hh. by apply not_elem_of_nil in Hh.
  - constructor.
  - intros h Hh. by apply not_elem_of_nil in Hh.
Qed.

Lemma boot_rel bs m d tr : holds m d -> rel (boot bs m) (MkAtomic (MkBst bs d tr) (fun _ => ANone)).
Proof. intros H. by split. Qed.

Section Device.
(** Any device that does only what the specification allows. *)
Context (dev : sys -> outcome sys -> Prop).
Hypothesis dev_obeys : forall s o, dev s o -> dev_step s o.

Lemma step_mono s l o : step dev s l o -> step dev_step s l o.
Proof using dev_obeys. intros []; econstructor; eauto. Qed.

Lemma run_inv bs m t s : run dev (boot bs m) t s -> inv s.
Proof using dev_obeys.
  intros H. induction H as [|t s1 s2 _ I St|t l s1 s2 _ I St]; [apply boot_inv|..]; apply step_mono in St;
    destruct (step_inv _ _ _ I St) as [(s' & [= <-] & I')|[? _]]; done.
Qed.

Lemma run_sim bs m d t s : holds m d -> run dev (boot bs m) t s ->
  exists a, arun (MkAtomic (MkBst bs d []) (fun _ => ANone)) t a /\ rel s a.
Proof using dev_obeys.
  intros Hd H. induction H as [|t s1 s2 H (a & Ha & R) St|t l s1 s2 H (a & Ha & R) St].
  - eexists. split; [apply arun_nil|by apply boot_rel].
  - apply run_inv in H. apply step_mono in St. destruct (step_sim s1 a None s2 H R St) as (a' & [[_ ->]|Sa] & R'); [eauto|].
    exists a'. split; [by eapply arun_tau|done].
  - apply run_inv in H. apply step_mono in St. destruct (step_sim s1 a (Some l) s2 H R St) as (a' & [[? _]|Sa] & R'); [done|].
    exists a'. split; [by eapply arun_vis|done].
Qed.

End Device.

(** ** A concrete run

    One process writes a buffer of ones to block 3 and waits; the device takes
    the request and answers it; the interrupt handler wakes the process up. *)

Definition demo_bufs : gmap Z buf := {[5 := set_data (replicate 1024 1) (set_blockno 3 buf0)]}.

Definition got (o : outcome sys) (s : sys) : sys := match o with Ret s' => s' | _ => s end.

Definition run_called : sys := set_pos 0 (VEnter 5 1) (boot demo_bufs ∅).
Definition run_formatted : sys := got (rw_submit 0 5 1 run_called) run_called.
Definition run_waiting : sys := rw_sleep 0 5 1 0 1 2 (rw_publish 0 5 1 0 1 2 run_formatted).
Definition run_answered : sys := got (dev_complete 0 0 (dev_fetch run_waiting)) run_waiting.
Definition run_handler : sys := intr_enter run_answered.
Definition run_woken : sys := set_vlock Nobody (got (intr_turn run_handler) run_handler).
Definition run_last : sys := set_pos 0 (VTest 5 1 0 1 2) (set_vlock (Proc 0) run_woken).
Definition run_returned : sys := got (rw_finish 0 0 run_last) run_last.

Lemma demo_waiting : run dev_step (boot demo_bufs ∅) [LCall 0 5 1] run_waiting.
Proof.
  assert (R1 : run dev_step (boot demo_bufs ∅) ([] ++ [LCall 0 5 1]) run_called).
  { eapply run_vis; [apply run_nil|]. apply s_call; [unfold NPROC; lia|done|intros p; done|].
    split; [split; vm_compute; congruence|vm_compute; reflexivity]. }
  assert (R2 : run dev_step (boot demo_bufs ∅) [LCall 0 5 1] run_formatted).
  { eapply run_tau; [exact R1|]. replace (Ret run_formatted) with (rw_submit 0 5 1 run_called) by (vm_compute; reflexivity).
    by apply s_submit. }
  eapply run_tau; [eapply run_tau; [exact R2|apply (s_publish dev_step run_formatted 0%nat 5 1 0 1 2); vm_compute; reflexivity]|].
  apply (s_wait dev_step _ 0%nat 5 1 0 1 2); vm_compute; reflexivity.
Qed.

Lemma demo_handler : run dev_step (boot demo_bufs ∅) [LCall 0 5 1] run_handler.
Proof.
  assert (R3 : run dev_step (boot demo_bufs ∅) [LCall 0 5 1] run_answered).
  { eapply run_tau; [eapply run_tau; [exact demo_waiting|]|].
    - apply s_dev, dev_takes. vm_compute. congruence.
    - replace (Ret run_answered) with (dev_complete 0 0 (dev_fetch run_waiting)) by (vm_compute; reflexivity).
      apply s_dev, dev_finishes; [|lia]. apply (bool_decide_unpack _). vm_compute. exact Logic.I. }
  eapply run_tau; [exact R3|]. apply s_intr; vm_compute; reflexivity.
Qed.

Lemma demo_run : run dev_step (boot demo_bufs ∅) [LCall 0 5 1; LRet 0] run_returned.
Proof.
  assert (R4 : run dev_step (boot demo_bufs ∅) [LCall 0 5 1] run_woken).
  { eapply run_tau; [eapply (run_tau _ _ _ _ (got (intr_turn run_handler) run_handler)); [exact demo_handler|]|].
    - replace (Ret (got (intr_turn run_handler) run_handler)) with (intr_turn run_handler) by (vm_compute; reflexivity).
      apply s_turn; [done|vm_compute; congruence].
    - apply s_exit; vm_compute; reflexivity. }
  change [LCall 0 5 1; LRet 0] with ([LCall 0 5 1] ++ [LRet 0]).
  eapply run_vis; [eapply run_tau; [exact R4|]|].
  - apply (s_relock dev_step run_woken 0%nat 5 1 0 1 2); vm_compute; reflexivity.
  - replace (Ret run_returned) with (rw_finish 0 0 run_last) by (vm_compute; reflexivity).
    apply (s_finish dev_step run_last 0%nat 5 1 0 1 2); [vm_compute; reflexivity|]. vm_compute. congruence.
Qed.

Lemma demo_holds : holds ∅ ∅.
Proof. intros bn _. reflexivity. Qed.

(** (C10) The driver refines the atomic disk.  Take any device that obeys the
    virtio specification, any processes calling [virtio_disk_rw] on buffers they
    have locked, and any interleaving of the driver's code, the interrupt handler
    and the device.  The calls, returns and stores seen from outside could have
    been produced by a machine in which each request is, at one moment between
    its call and its return, the function [Bio.disk_rw]; and the buffers and the
    sectors of the medium are those of that machine. *)
Theorem virtio_refines (dev : sys -> outcome sys -> Prop) bs m d t s :
  (forall s o, dev s o -> dev_step s o) -> holds m d -> run dev (boot bs m) t s ->
  exists a, arun (MkAtomic (MkBst bs d []) (fun _ => ANone)) t a
    /\ bc_buf (a_bst a) = bufs s /\ holds (media s) (bc_disk (a_bst a))
    /\ forall p, a_req a p = areq_of (info_status (dk s)) (pos s p).
Proof.
  intros Hdev Hd H. destruct (run_sim dev Hdev bs m d t s Hd H) as (a & Ha & [R1 R2 R3 _]). eauto 10.
Qed.

(** The driver is safe.  In every reachable state the next step succeeds:
    no descriptor is freed twice, no chain the device meets is malformed, no
    request of the used ring is without its buffer, and neither ring overflows;
    the one panic is that of [virtio_disk_intr] when the device has reported a
    failed request. *)
Theorem virtio_safe (dev : sys -> outcome sys -> Prop) bs m t s l o :
  (forall s o, dev s o -> dev_step s o) -> run dev (boot bs m) t s -> step dev s l o ->
  (length (availq s) + length (inflight s) + length (usedq s) <= 8)%nat
  /\ ((exists s', o = Ret s')
      \/ o = Panic "virtio_disk_intr status" /\ exists h, h ∈ usedq s /\ info_status (dk s) h <> 0).
Proof.
  intros Hdev H St. pose proof (run_inv dev Hdev bs m t s H) as I. split.
  - rewrite <- length_outstanding. by apply outstanding_length.
  - destruct (step_inv s l o I (step_mono dev Hdev _ _ _ St)) as [(s' & -> & _)|?]; eauto.
Qed.

(** The written block is on the medium when the call has returned. *)
Lemma virtio_refines_witness :
  run dev_step (boot demo_bufs ∅) [LCall 0 5 1; LRet 0] run_returned
  /\ media run_returned !! 6 = Some (replicate 512 1)
  /\ exists a, arun (MkAtomic (MkBst demo_bufs ∅ []) (fun _ => ANone)) [LCall 0 5 1; LRet 0] a
       /\ bc_buf (a_bst a) = bufs run_returned /\ holds (media run_returned) (bc_disk (a_bst a))
       /\ forall p, a_req a p = areq_of (info_status (dk run_returned)) (pos run_returned p).
Proof.
  split; [exact demo_run|]. split; [vm_compute; reflexivity|].
  apply (virtio_refines dev_step demo_bufs ∅ ∅ _ _ (fun _ _ X => X) demo_holds demo_run).
Defined.

Lemma virtio_safe_witness :
  (length (availq run_handler) + length (inflight run_handler) + length (usedq run_handler) <= 8)%nat
  /\ ((exists s', intr_turn run_handler = Ret s')
      \/ intr_turn run_handler = Panic "virtio_disk_intr status"
         /\ exists h, h ∈ usedq run_handler /\ info_status (dk run_handler) h <> 0).
Proof.
  apply (virtio_safe dev_step demo_bufs ∅ _ run_handler None _ (fun _ _ X => X) demo_handler).
  apply s_turn; [reflexivity|vm_compute; congruence].
Defined.

End VirtioSpec.
