(* ===== verification/VirtioLive.v ===== *)
(** * No disk request is left waiting

    From every reachable state of [Virtio] in which the device has reported no
    error, the processes, the handler and the device can go on until every
    request has returned: nobody sleeps on a buffer that is done, nobody sleeps
    for descriptors when no request will give any back, no lock is held for
    ever, no chain waits for a notification that was not sent, and no answer for
    an interrupt that will not come.  A measure of the work left shrinks with
    every step but the ones in which a call finds no descriptors. *)

From S2P Require Import Prelude Riscv ProcDefs Block Sleeplock RingBuf SleepWake Bio Virtio VirtioInv VirtioSteps VirtioSpec.
From stdpp Require Import base list numbers gmap strings functions sets.
From Stdlib Require Import ZArith Lia.

#[local] Open Scope Z_scope.

Import Block Virtio VirtioInv VirtioSteps VirtioSpec.

Module VirtioLive.

Abbreviation N := (Z.to_nat NPROC).

(** ** What sleepers wait for *)

Record live (s : sys) : Prop := MkLive {
  lv_desc : forall p b w, pos s p = VDesc b w -> exists q, is_Some (chain_of (pos s q));
  lv_asleep : forall p b w i0 i1 i2, pos s p = VAsleep b w i0 i1 i2 -> b_disk s b = 1;
  lv_woken : forall p b w i0 i1 i2, pos s p = VWoken b w i0 i1 i2 -> b_disk s b <> 1;
  lv_small : forall p, pos s p <> VIdle -> (p < N)%nat
}.

Lemma woken_desc c x b w : woken c x = VDesc b w -> x = VDesc b w /\ c <> OnFree.
Proof. destruct c as [|c], x as [| | | | |b0 w0 i0 i1 i2|]; simpl; intros E; try discriminate; [|destruct (b0 =? c); discriminate]. done. Qed.
Lemma vwoken_asleep c x b w i0 i1 i2 : woken c x = VAsleep b w i0 i1 i2 -> x = VAsleep b w i0 i1 i2 /\ c <> OnBuf b.
Proof.
  destruct c as [|c], x as [| | | | |b0 w0 j0 j1 j2|]; simpl; intros E; try discriminate; [done|].
  destruct (Z.eqb_spec b0 c) as [|Hne]; [discriminate|]. injection E as -> -> -> -> ->. split; [done|]. by intros [= ->].
Qed.
Lemma vwoken_free x b w i0 i1 i2 : woken OnFree x = VWoken b w i0 i1 i2 -> x = VWoken b w i0 i1 i2.
Proof. by destruct x. Qed.
Lemma vwoken_buf c x b w i0 i1 i2 : woken (OnBuf c) x = VWoken b w i0 i1 i2 -> x = VWoken b w i0 i1 i2 \/ b = c.
Proof.
  destruct x as [| | | | |b0 w0 j0 j1 j2|]; simpl; intros E; try discriminate; [|by left].
  destruct (Z.eqb_spec b0 c) as [->|Hne]; [|discriminate]. injection E as -> -> -> -> ->. by right.
Qed.
Lemma woken_idle c x : woken c x = VIdle <-> x = VIdle.
Proof. destruct c as [|c], x as [| | | | |b0 w0 j0 j1 j2|]; simpl; try done. by destruct (b0 =? c). Qed.

Lemma live_frame s s' : live s ->
  (forall q b w, pos s' q = VDesc b w -> pos s q = VDesc b w /\ (forall r, is_Some (chain_of (pos s r)) -> is_Some (chain_of (pos s' r)))
     \/ exists r, is_Some (chain_of (pos s' r))) ->
  (forall q b w i0 i1 i2, pos s' q = VAsleep b w i0 i1 i2 -> b_disk s' b = 1) ->
  (forall q b w i0 i1 i2, pos s' q = VWoken b w i0 i1 i2 -> b_disk s' b <> 1) ->
  (forall q, pos s' q <> VIdle -> pos s q <> VIdle \/ (q < N)%nat) -> live s'.
Proof.
  intros L HD HA HW HI. split; [|done|done|].
  - intros q b w E. destruct (HD q b w E) as [[E' Hc]|?]; [|done]. destruct (lv_desc _ L _ _ _ E') as [r Hr]. eauto.
  - intros q Hq. destruct (HI q Hq); [|done]. by apply (lv_small _ L).
Qed.

(** Process [p] moves from one position inside the routine to another. *)
Lemma live_goto s s' p x : live s -> pos s' = <[p := x]> (pos s) -> b_disk s' = b_disk s -> pos s p <> VIdle -> (is_Some (chain_of (pos s p)) -> is_Some (chain_of x)) ->
  (forall b w, x <> VDesc b w) -> (forall b w i0 i1 i2, x = VAsleep b w i0 i1 i2 -> b_disk s b = 1) ->
  (forall b w i0 i1 i2, x <> VWoken b w i0 i1 i2) -> live s'.
Proof.
  intros L EP EB Hp Hc Hd Ha Hwk. apply (live_frame s); rewrite ?EP, ?EB; [done|..]; intros q.
  - intros b w. destruct (decide (q = p)) as [->|]; [rewrite fn_lookup_insert; by intros ?%Hd|]. rewrite fn_lookup_insert_ne by done.
    left. split; [done|]. intros r. destruct (decide (r = p)) as [->|]; [by rewrite fn_lookup_insert|by rewrite fn_lookup_insert_ne].
  - intros b w i0 i1 i2. destruct (decide (q = p)) as [->|]; [rewrite fn_lookup_insert; apply Ha|].
    rewrite fn_lookup_insert_ne by done. apply (lv_asleep _ L).
  - intros b w i0 i1 i2. destruct (decide (q = p)) as [->|]; [rewrite fn_lookup_insert; by intros ?%Hwk|].
    rewrite fn_lookup_insert_ne by done. apply (lv_woken _ L).
  - destruct (decide (q = p)) as [->|]; [by left|]. rewrite fn_lookup_insert_ne by done. by left.
Qed.

Lemma boot_live bs m : live (boot bs m).
Proof. by split. Qed.

Lemma submit_live s p b w s' : inv s -> live s -> pos s p = VEnter b w -> vlock s = Nobody -> rw_submit p b w s = Ret s' -> live s'.
Proof.
  intros I L Ep Hl E. destruct (submit_spec s p b w I Ep Hl) as (s2 & E2 & _ & H). rewrite E in E2. injection E2 as <-.
  assert (Hp : (p < N)%nat) by (apply (lv_small _ L); by rewrite Ep).
  destruct H as [(i0 & i1 & i2 & s1 & Hn & Hf & T & ->)|(s1 & U & -> & i & Hi & Hfi)].
  - destruct (tk_sys _ _ _ T) as (_ & M2 & _ & _ & _ & _ & M7). cbn [b_disk pos set_vlock] in M2, M7.
    apply (live_frame s); [done|..]; intros q; simpl; rewrite ?M2, ?M7.
    + intros b' w' _. right. exists p. by rewrite fn_lookup_insert.
    + intros b' w' j0 j1 j2 Eq. destruct (decide (q = p)) as [->|]; [by rewrite fn_lookup_insert in Eq|]. rewrite fn_lookup_insert_ne in Eq by done.
      destruct (decide (b' = b)) as [->|]; [by rewrite fn_lookup_insert|]. rewrite fn_lookup_insert_ne by done. by eapply (lv_asleep _ L).
    + intros b' w' j0 j1 j2 Eq. destruct (decide (q = p)) as [->|Hqp]; [by rewrite fn_lookup_insert in Eq|]. rewrite fn_lookup_insert_ne in Eq by done.
      rewrite fn_lookup_insert_ne; [by eapply (lv_woken _ L)|]. intros <-. apply Hqp, (v_bufs _ I q p b); [by rewrite Eq|by rewrite Ep].
    + destruct (decide (q = p)) as [->|]; [by right|]. rewrite fn_lookup_insert_ne by done. by left.
  - destruct (proj1 (v_owned _ I i Hi) Hfi) as [r Hr]. apply descs_chain in Hr as (b1 & w1 & j0 & j1 & j2 & Er & _).
    assert (Hr : r <> p) by (intros ->; by rewrite Ep in Er).
    apply (live_frame s); [done|..]; intros q; simpl.
    + intros b' w' _. right. exists r. rewrite fn_lookup_insert_ne by done. destruct (uc_pos _ _ U r) as [->| ->]; cbn [pos set_vlock];
        rewrite ?woken_chain, Er; eauto.
    + intros b' w' k0 k1 k2 Eq. destruct (uc_sys _ _ U) as (_ & -> & _). cbn [b_disk set_vlock].
      destruct (decide (q = p)) as [->|]; [by rewrite fn_lookup_insert in Eq|]. rewrite fn_lookup_insert_ne in Eq by done.
      destruct (uc_pos _ _ U q) as [E'|E']; rewrite E' in Eq; cbn [pos set_vlock] in Eq; [by eapply (lv_asleep _ L)|].
      apply vwoken_asleep in Eq as [Eq _]. by eapply (lv_asleep _ L).
    + intros b' w' k0 k1 k2 Eq. destruct (uc_sys _ _ U) as (_ & -> & _). cbn [b_disk set_vlock].
      destruct (decide (q = p)) as [->|]; [by rewrite fn_lookup_insert in Eq|]. rewrite fn_lookup_insert_ne in Eq by done.
      destruct (uc_pos _ _ U q) as [E'|E']; rewrite E' in Eq; cbn [pos set_vlock] in Eq; [by eapply (lv_woken _ L)|].
      apply vwoken_free in Eq. by eapply (lv_woken _ L).
    + destruct (decide (q = p)) as [->|]; [by right|]. rewrite fn_lookup_insert_ne by done. left.
      destruct (uc_pos _ _ U q) as [E'|E']; rewrite E' in *; cbn [pos set_vlock] in *; [done|]. by rewrite woken_idle in *.
Qed.

Lemma finish_live s p b w i0 i1 i2 s' : inv s -> live s -> pos s p = VTest b w i0 i1 i2 -> b_disk s b <> 1 ->
  rw_finish p i0 s = Ret s' -> live s'.
Proof.
  intros I L Ep Hb E. destruct (finish_spec s p b w i0 i1 i2 I Ep Hb) as (_ & s1 & F & E2). rewrite E in E2. injection E2 as ->.
  pose proof (fr_pos _ _ _ F) as P. cbn [pos set_dk] in P. destruct (fr_sys _ _ _ F) as (_ & M2 & _). cbn [b_disk set_dk] in M2.
  apply (live_frame s); [done|..]; intros q; simpl; (destruct (decide (q = p)) as [->|]; [rewrite fn_lookup_insert|rewrite fn_lookup_insert_ne, P by done]);
    try done; rewrite ?M2.
  - intros b' w' [_ Eq]%woken_desc. done.
  - intros b' w' k0 k1 k2 [Eq _]%vwoken_asleep. by eapply (lv_asleep _ L).
  - intros b' w' k0 k1 k2 Eq%vwoken_free. by eapply (lv_woken _ L).
  - rewrite woken_idle. by left.
Qed.

Lemma turned_live s b : live s -> live (turned b s).
Proof.
  intros L. apply (live_frame s); [done|..]; intros q;
    change (pos (turned b s)) with (fun p => woken (OnBuf b) (pos s p)); cbv beta.
  - intros b' w' [Eq _]%woken_desc. left. split; [done|]. intros r. by rewrite woken_chain.
  - intros b' w' k0 k1 k2 [Eq Hne]%vwoken_asleep. simpl. rewrite fn_lookup_insert_ne by congruence. by eapply (lv_asleep _ L).
  - intros b' w' k0 k1 k2 Eq%vwoken_buf. simpl. destruct (decide (b' = b)) as [->|]; [by rewrite fn_lookup_insert|].
    rewrite fn_lookup_insert_ne by done. destruct Eq as [Eq|]; [by eapply (lv_woken _ L)|done].
  - rewrite woken_idle. by left.
Qed.

Lemma step_live s l s' : inv s -> live s -> step dev_step s l (Ret s') -> live s'.
Proof.
  intros I L St. remember (Ret s') as o eqn:Eo. destruct St as [p b w Hp Ep Hu Hk|b x Hu|p b w Ep Hl|p b w i0 i1 i2 Ep|p b w i0 i1 i2 Ep Hb
    |p b w i0 i1 i2 Ep Hl|p b w i0 i1 i2 Ep Hb|Hl Hq|Hl Hne|Hl He|o [Hne|h st Hh Hst|Hk Hne]].
  - injection Eo as <-. apply (live_frame s); [done|..]; intros q; simpl; (destruct (decide (q = p)) as [->|];
      [rewrite fn_lookup_insert|rewrite fn_lookup_insert_ne by done]); try done; auto; [|intros; by eapply (lv_asleep _ L)|intros; by eapply (lv_woken _ L)].
    intros b' w' Eq. left. split; [done|]. intros r. destruct (decide (r = p)) as [->|]; [rewrite Ep; by intros []|by rewrite fn_lookup_insert_ne].
  - injection Eo as <-. by apply (live_frame s); [done|left|apply (lv_asleep _ L)|apply (lv_woken _ L)|left].
  - by apply (submit_live s p b w).
  - injection Eo as <-. apply (live_goto s _ p (VTest b w i0 i1 i2)); rewrite ?Ep; done.
  - injection Eo as <-. eapply (live_goto s _ p); rewrite ?Ep; try done. by intros ? ? ? ? ? [= <- <- <- <- <-].
  - injection Eo as <-. eapply (live_goto s _ p); rewrite ?Ep; done.
  - by apply (finish_live s p b w i0 i1 i2).
  - injection Eo as <-. by apply (live_frame s); [done|left|apply (lv_asleep _ L)|apply (lv_woken _ L)|left].
  - destruct (turn_spec s I Hne) as [(? & _ & _ & E)|(b & E & _)]; rewrite E in Eo; [done|]. injection Eo as <-. by apply turned_live.
  - injection Eo as <-. by apply (live_frame s); [done|left|apply (lv_asleep _ L)|apply (lv_woken _ L)|left].
  - injection Eo as <-. by apply (live_frame s); [done|left|apply (lv_asleep _ L)|apply (lv_woken _ L)|left].
  - destruct (inflight_chain s h I Hh) as (p & b & w & i1 & i2 & _ & Hc). rewrite (complete_eq _ _ _ _ _ _ _ Hc) in Eo. injection Eo as <-.
    destruct (transfer_fields b w s) as (_ & T2 & _ & _ & _ & T6 & _).
    assert (E : b_disk (answered h st (if st =? 0 then transfer b w s else s)) = b_disk s
             /\ pos (answered h st (if st =? 0 then transfer b w s else s)) = pos s).
    { destruct (st =? 0); cbn [answered set_io b_disk pos set_dev set_dk]; rewrite ?T2, ?T6; done. }
    destruct E as [E1 E2]. apply (live_frame s); rewrite ?E1, ?E2; [done|by left|apply (lv_asleep _ L)|apply (lv_woken _ L)|by left].
  - injection Eo as <-. by apply (live_frame s); [done|left|apply (lv_asleep _ L)|apply (lv_woken _ L)|left].
Qed.

(** ** Who calls whom *)

(** A chain the device has not seen has been notified, and a chain in the used
    ring has an interrupt on its way or the handler at work; INTERRUPT_STATUS is
    set exactly while an interrupt is on its way. *)
Record calls (s : sys) : Prop := MkCalls {
  ca_kick : dev_idx s <> av_idx (avail (dk s)) -> kick (io s) = true;
  ca_isr : isr (io s) = 0 /\ irq (io s) = false \/ isr (io s) = 1 /\ irq (io s) = true;
  ca_irq : used_idx (dk s) <> us_idx (used (dk s)) -> irq (io s) = true \/ vlock s = Handler
}.

Lemma boot_calls bs m : calls (boot bs m).
Proof. split; simpl; [done|by left|done]. Qed.

Lemma free_desc_io i s s' : free_desc i s = Ret s' -> io s' = io s.
Proof. unfold free_desc. case_if; [done|]. case_if; [done|]. by intros [= <-]. Qed.

Lemma free_chain_io k i s s' : free_chain_from k i s = Ret s' -> io s' = io s.
Proof.
  revert i s. induction k as [|k IH]; intros i s; cbn [free_chain_from]; [done|]. intros (s1 & E1 & H)%bind_Ret.
  apply free_desc_io in E1. rewrite <- E1. revert H. case_if; [apply IH|by intros [= ->]].
Qed.

Lemma free_descs_io l s s' : free_descs l s = Ret s' -> io s' = io s.
Proof.
  revert s. induction l as [|i l IH]; intros s; cbn [free_descs]; [by intros [= ->]|]. intros (s1 & E1 & H)%bind_Ret.
  apply free_desc_io in E1. rewrite <- E1. by apply IH.
Qed.

Lemma alloc_descs_io n idx s r s' : alloc_descs n idx s = Ret (r, s') -> io s' = io s.
Proof.
  revert idx s. induction n as [|n IH]; intros idx s; cbn [alloc_descs]; [by intros [= _ ->]|].
  unfold alloc_desc. destruct (find (free (dk s)) (seqZ 0 NUM)) as [i|]; case_if; try (intros (s1 & E1 & [= _ <-])%bind_Ret; by apply free_descs_io in E1);
    intros H; by apply IH in H.
Qed.

Lemma submit_io p b w s s' : rw_submit p b w s = Ret s' -> io s' = io s.
Proof.
  unfold rw_submit, alloc3_desc. intros ([r s1] & E1 & H)%bind_Ret. apply alloc_descs_io in E1. simpl in E1. rewrite <- E1.
  destruct r as [[|? [|? [|? [|? ?]]]]|]; by injection H as <-.
Qed.

Lemma finish_io p i0 s s' : rw_finish p i0 s = Ret s' -> io s' = io s.
Proof. unfold rw_finish. intros (s1 & E1 & [= <-])%bind_Ret. by apply free_chain_io in E1. Qed.

(** What a step that touches neither the registers nor the indices leaves. *)
Lemma calls_frame s s' : calls s -> io s' = io s -> dev_idx s' = dev_idx s -> av_idx (avail (dk s')) = av_idx (avail (dk s)) ->
  used_idx (dk s') = used_idx (dk s) -> us_idx (used (dk s')) = us_idx (used (dk s)) ->
  (vlock s = Handler -> vlock s' = Handler \/ used_idx (dk s) = us_idx (used (dk s))) -> calls s'.
Proof.
  intros [C1 C2 C3] E1 E2 E3 E4 E5 HL. split; rewrite ?E1, ?E2, ?E3, ?E4, ?E5; [done|done|].
  intros Hne. destruct (C3 Hne) as [?|Hh]; [by left|]. destruct (HL Hh); [by right|done].
Qed.

Lemma submit_calls s p b w s' : inv s -> calls s -> pos s p = VEnter b w -> vlock s = Nobody -> rw_submit p b w s = Ret s' -> calls s'.
Proof.
  intros I C Ep Hl E. pose proof (submit_io _ _ _ _ _ E) as Hio. destruct (submit_spec s p b w I Ep Hl) as (s2 & E2 & _ & H).
  rewrite E in E2. injection E2 as <-. destruct H as [(i0 & i1 & i2 & s1 & _ & _ & T & ->)|(s1 & U & -> & _)].
  - destruct (tk_disk _ _ _ T) as (_ & K1 & K2 & K3 & _). destruct (tk_sys _ _ _ T) as (_ & _ & _ & M4 & _ & M6 & _).
    cbn [avail used used_idx dk set_vlock dev_idx vlock] in *.
    apply (calls_frame s); [done|done|by simpl; rewrite M4|by simpl; rewrite K1|by simpl; rewrite K3|by simpl; rewrite K2|congruence].
  - destruct U as [_ _ (K1 & K2 & K3 & _) (_ & _ & _ & M4 & _) _]. cbn [avail used used_idx dk set_vlock dev_idx] in *.
    apply (calls_frame s); [done|done|by simpl; rewrite M4|by simpl; rewrite K1|by simpl; rewrite K3|by simpl; rewrite K2|congruence].
Qed.

Lemma finish_calls s p b w i0 i1 i2 s' : inv s -> calls s -> pos s p = VTest b w i0 i1 i2 -> b_disk s b <> 1 -> rw_finish p i0 s = Ret s' -> calls s'.
Proof.
  intros I C Ep Hb E. pose proof (finish_io _ _ _ _ E) as Hio. destruct (finish_spec s p b w i0 i1 i2 I Ep Hb) as (_ & s1 & F & E2).
  rewrite E in E2. injection E2 as ->. destruct (fr_disk _ _ _ F) as (K1 & K2 & K3 & _). destruct (fr_sys _ _ _ F) as (_ & _ & _ & M4 & _).
  cbn [avail used used_idx dk set_dk set_info_b dev_idx] in *.
  assert (Hl : vlock s = Proc p) by (apply (v_lock _ I); by rewrite Ep).
  apply (calls_frame s); [done|done|by simpl; rewrite M4|by simpl; rewrite K1|by simpl; rewrite K3|by simpl; rewrite K2|congruence].
Qed.

(** The device's answer is followed by an interrupt. *)
Lemma answered_calls s h st b w : calls s -> calls (answered h st (if st =? 0 then transfer b w s else s)).
Proof.
  intros [C1 C2 _]. assert (E : io (if st =? 0 then transfer b w s else s) = io s /\ dk (if st =? 0 then transfer b w s else s) = dk s
    /\ dev_idx (if st =? 0 then transfer b w s else s) = dev_idx s) by (unfold transfer; destruct (st =? 0), (nz w); done).
  set (s1 := if st =? 0 then transfer b w s else s) in *. clearbody s1. destruct E as (E1 & E2 & E3).
  split; cbn [answered set_io set_dev set_dk io dk dev_idx avail set_used set_status raise_irq kick isr irq]; rewrite ?E1, ?E2, ?E3.
  - done.
  - destruct C2 as [[-> ->]|[-> ->]]; by right.
  - intros _. left. destruct C2 as [[-> ->]|[-> ->]]; done.
Qed.

Lemma step_calls s l s' : inv s -> calls s -> step dev_step s l (Ret s') -> calls s'.
Proof.
  intros I C St. remember (Ret s') as o eqn:Eo. destruct St as [p b w Hp Ep Hu Hk|b x Hu|p b w Ep Hl|p b w i0 i1 i2 Ep|p b w i0 i1 i2 Ep Hb
    |p b w i0 i1 i2 Ep Hl|p b w i0 i1 i2 Ep Hb|Hl Hq|Hl Hne|Hl He|o [Hne|h st Hh Hst|Hk Hne]].
  - injection Eo as <-. apply (calls_frame s); try done. by left.
  - injection Eo as <-. apply (calls_frame s); try done. by left.
  - by apply (submit_calls s p b w).
  - injection Eo as <-. destruct C as [C1 C2 C3]. by split.
  - injection Eo as <-. assert (Hl : vlock s = Proc p) by (apply (v_lock _ I); by rewrite Ep). apply (calls_frame s); try done. congruence.
  - injection Eo as <-. apply (calls_frame s); try done. congruence.
  - by apply (finish_calls s p b w i0 i1 i2).
  - injection Eo as <-. destruct C as [C1 C2 C3]. split; simpl; [done| |by right]. left. destruct C2 as [[-> _]|[-> _]]; done.
  - destruct (turn_spec s I Hne) as [(? & _ & _ & E)|(b & E & _)]; rewrite E in Eo; [done|]. injection Eo as <-.
    destruct C as [C1 C2 C3]. split; [done|done|]. intros _. by right.
  - injection Eo as <-. apply (calls_frame s); try done. by right.
  - injection Eo as <-. destruct C as [C1 C2 C3]. split; [|done|done]. intros _. by apply C1.
  - destruct (inflight_chain s h I Hh) as (p & b & w & i1 & i2 & _ & Hc). rewrite (complete_eq _ _ _ _ _ _ _ Hc) in Eo. injection Eo as <-.
    by apply answered_calls.
  - injection Eo as <-. destruct C as [C1 C2 C3]. split; [by intros ?|done|done].
Qed.

(** ** A measure of the work left *)

Definition weight (s : sys) (x : vpos) : nat :=
  match x with
  | VIdle => 0
  | VEnter _ _ | VDesc _ _ => 40
  | VRing _ _ _ _ _ => 39
  | VTest b _ _ _ _ => if b_disk s b =? 1 then 30 else 2
  | VAsleep _ _ _ _ _ => 20
  | VWoken _ _ _ _ _ => 3
  end.

Definition positions (s : sys) : nat := SleepWake.msum (fun p => weight s (pos s p)) N.
#[local] Arguments positions : simpl never.

(** What the handler has to do besides the used ring, and the device besides the
    chains. *)
Definition call_work (s : sys) : nat :=
  ((if vlock s is Handler then 1 else 0) + (if irq (io s) then 2 else 0) + (if kick (io s) then 1 else 0))%nat.

Definition work (s : sys) : nat :=
  (positions s + 7 * length (availq s) + 6 * length (inflight s) + 2 * length (usedq s) + call_work s)%nat.

Lemma msum_drop (f g : nat -> nat) n p k : (p < n)%nat -> (forall q, g q <= f q)%nat -> (g p + k <= f p)%nat ->
  (SleepWake.msum g n + k <= SleepWake.msum f n)%nat.
Proof.
  intros Hp Ho Hk. assert (H : forall m, (SleepWake.msum g m + (if decide (p < m)%nat then k else 0) <= SleepWake.msum f m)%nat).
  { induction m as [|m IH]; cbn [SleepWake.msum]; [rewrite decide_False by lia; lia|]. specialize (Ho m). destruct (decide (m = p)) as [->|]; repeat case_decide; lia. }
  specialize (H n). rewrite decide_True in H by done. done.
Qed.

Lemma msum_le (f g : nat -> nat) n : (forall q, g q <= f q)%nat -> (SleepWake.msum g n <= SleepWake.msum f n)%nat.
Proof. intros H. induction n as [|n IH]; simpl; [done|]. specialize (H n). lia. Qed.

(** The device has reported no error. *)
Definition healthy (s : sys) : Prop := forall h, h ∈ usedq s -> info_status (dk s) h = 0.

(** What the device is sure to do: it takes chains after a notification only,
    until there are none, and carries out those it has taken. *)
Inductive prompt (s : sys) : outcome sys -> Prop :=
| pr_takes : kick (io s) = true -> dev_idx s <> av_idx (avail (dk s)) -> prompt s (Ret (dev_fetch s))
| pr_finishes h : h ∈ inflight s -> prompt s (dev_complete h 0 s)
| pr_rests : kick (io s) = true -> dev_idx s = av_idx (avail (dk s)) -> prompt s (Ret (dev_rest s)).

Lemma prompt_dev s o : prompt s o -> dev_step s o.
Proof. destruct 1; [by apply dev_takes|by apply dev_finishes; [|lia]|by apply dev_rests]. Qed.

Lemma step_prompt s l o : step prompt s l o -> step dev_step s l o.
Proof.
  destruct 1; [by apply s_call|by apply s_store|by apply s_submit|by apply s_publish|by apply s_wait|by apply s_relock
    |by eapply s_finish|by apply s_intr|by apply s_turn|by apply s_exit|by apply s_dev, prompt_dev].
Qed.

(** The steps without new calls: silent ones, and returns. *)
Definition onward (s s' : sys) : Prop :=
  exists l, step prompt s l (Ret s') /\ (l = None \/ exists p, l = Some (LRet p)).

(** A call that did not get its descriptors and goes to sleep. *)
Definition turned_away (s s' : sys) : Prop := exists p b w, pos s p = VEnter b w /\ pos s' p = VDesc b w.

Lemma woken_weight s s' c x : (forall b, b_disk s' b = 1 -> b_disk s b = 1) -> (weight s' (woken c x) <= weight s x)%nat.
Proof.
  intros Hb. destruct c as [|c], x as [|b w|b w|b w i0 i1 i2|b w i0 i1 i2|b w i0 i1 i2|b w i0 i1 i2]; simpl; try lia;
    try (destruct (b =? c); simpl; lia); destruct (Z.eqb_spec (b_disk s' b) 1) as [E|]; rewrite ?(proj2 (Z.eqb_eq _ _) (Hb b E)); try lia;
    destruct (b_disk s b =? 1); lia.
Qed.

(** One process gets on, the rest stays. *)
Lemma work_goto s s' p x k : (p < N)%nat -> pos s' = <[p := x]> (pos s) -> (forall q, q <> p -> weight s' (pos s q) <= weight s (pos s q))%nat ->
  (weight s' x + k <= weight s (pos s p))%nat ->
  (positions s' + k <= positions s)%nat.
Proof.
  intros Hp E Hw Hx. apply (msum_drop _ _ N p k Hp).
  - intros q. rewrite E. destruct (decide (q = p)) as [->|]; [rewrite fn_lookup_insert; lia|]. rewrite fn_lookup_insert_ne by done. by apply Hw.
  - by rewrite E, fn_lookup_insert.
Qed.

(** One process has got on, the rings and registers are as they were. *)
Lemma work_less s s' : (positions s' < positions s)%nat -> length (availq s') = length (availq s) -> inflight s' = inflight s ->
  usedq s' = usedq s -> (call_work s' <= call_work s)%nat -> (work s' < work s)%nat.
Proof. intros H1 H2 H3 H4 H5. unfold work. rewrite H2, H3, H4. lia. Qed.

Lemma publish_work s p b w i0 i1 i2 : inv s -> live s -> pos s p = VRing b w i0 i1 i2 -> (work (rw_publish p b w i0 i1 i2 s) < work s)%nat.
Proof.
  intros I L Ep. assert (Hp : (p < N)%nat) by (apply (lv_small _ L); by rewrite Ep).
  assert (Ec : chain_of (pos s p) = Some (b, w, i0, i1, i2)) by (by rewrite Ep). destruct (v_rings _ I) as [R1 R2 R3 R4 R5 R6].
  destruct (v_chain _ I _ _ _ _ _ _ Ec) as [Hc Hpr]. rewrite Ep in Hpr. destruct Hpr as (Hb & Hn & _).
  pose proof (ch_range _ _ _ _ _ _ Hc) as Hr. apply Forall_inv in Hr. pose proof (room_for s i0 I Hr Hn) as Hroom. rewrite length_outstanding in Hroom.
  assert (Hav : length (availq (rw_publish p b w i0 i1 i2 s)) = S (length (availq s))).
  { rewrite !availq_win. simpl. rewrite win_step; [rewrite length_app; simpl; lia|done..|rewrite <- availq_win; lia]. }
  assert (Hm := work_goto s (rw_publish p b w i0 i1 i2 s) p (VTest b w i0 i1 i2) 9 Hp eq_refl).
  rewrite Ep in Hm. cbn [weight] in Hm. change (b_disk (rw_publish p b w i0 i1 i2 s)) with (b_disk s) in Hm. rewrite Hb in Hm.
  change (1 =? 1) with true in Hm. specialize (Hm (fun _ _ => le_n _) (le_n _)).
  unfold work. rewrite Hav. change (inflight (rw_publish p b w i0 i1 i2 s)) with (inflight s). change (usedq (rw_publish p b w i0 i1 i2 s)) with (usedq s).
  assert (Hcw : (call_work (rw_publish p b w i0 i1 i2 s) <= call_work s + 1)%nat) by (unfold call_work; simpl; destruct (kick (io s)); lia). lia.
Qed.

Lemma wait_work s p b w i0 i1 i2 : inv s -> live s -> pos s p = VTest b w i0 i1 i2 -> b_disk s b = 1 -> (work (rw_sleep p b w i0 i1 i2 s) < work s)%nat.
Proof.
  intros I L Ep Hb. assert (Hp : (p < N)%nat) by (apply (lv_small _ L); by rewrite Ep).
  assert (Hl : vlock s = Proc p) by (apply (v_lock _ I); by rewrite Ep).
  assert (Hm := work_goto s (rw_sleep p b w i0 i1 i2 s) p (VAsleep b w i0 i1 i2) 10 Hp eq_refl).
  rewrite Ep in Hm. cbn [weight] in Hm. rewrite Hb in Hm. specialize (Hm (fun _ _ => le_n _) (le_n _)).
  apply work_less; try done; [lia|]. unfold call_work. simpl. rewrite Hl. lia.
Qed.

Lemma relock_work s p b w i0 i1 i2 : live s -> pos s p = VWoken b w i0 i1 i2 -> vlock s = Nobody ->
  (work (set_pos p (VTest b w i0 i1 i2) (set_vlock (Proc p) s)) < work s)%nat.
Proof.
  intros L Ep Hl. assert (Hp : (p < N)%nat) by (apply (lv_small _ L); by rewrite Ep). set (s' := set_pos p _ _).
  pose proof (lv_woken _ L _ _ _ _ _ _ Ep) as Hb. assert (Hm := work_goto s s' p (VTest b w i0 i1 i2) 1 Hp eq_refl).
  rewrite Ep in Hm. cbn [weight] in Hm. change (b_disk s' b) with (b_disk s b) in Hm. rewrite (proj2 (Z.eqb_neq _ _) Hb) in Hm.
  specialize (Hm (fun _ _ => le_n _) (le_n _)). apply work_less; try done; [lia|]. unfold call_work. simpl. rewrite Hl. lia.
Qed.

Lemma finish_work s p b w i0 i1 i2 s' : inv s -> live s -> pos s p = VTest b w i0 i1 i2 -> b_disk s b <> 1 -> rw_finish p i0 s = Ret s' ->
  healthy s -> healthy s' /\ (work s' < work s)%nat.
Proof.
  intros I L Ep Hb E H. assert (Hp : (p < N)%nat) by (apply (lv_small _ L); by rewrite Ep). pose proof (finish_io _ _ _ _ E) as Hio.
  destruct (finish_spec s p b w i0 i1 i2 I Ep Hb) as (_ & s1 & F & E2). rewrite E in E2. injection E2 as ->. set (s' := set_pos p VIdle _) in *.
  destruct (fr_disk _ _ _ F) as (K1 & K2 & K3 & _ & K5 & _). destruct (fr_sys _ _ _ F) as (_ & M2 & _ & M4 & M5 & _).
  cbn [avail used used_idx info_status dk set_dk set_info_b b_disk dev_idx inflight] in *.
  assert (Ha : availq s' = availq s) by (unfold availq; simpl; by rewrite K1, M4).
  assert (Hu : usedq s' = usedq s) by (unfold usedq; simpl; by rewrite K2, K3). split; [intros h; rewrite Hu; simpl; rewrite K5; apply H|].
  assert (Hm : (positions s' + 2 <= positions s)%nat).
  { apply (msum_drop _ _ N p 2 Hp).
    - intros q. simpl. destruct (decide (q = p)) as [->|]; [rewrite fn_lookup_insert; simpl; lia|].
      rewrite fn_lookup_insert_ne, (fr_pos _ _ _ F) by done. apply woken_weight. intros b'. simpl. by rewrite M2.
    - simpl. rewrite fn_lookup_insert, Ep. simpl. rewrite (proj2 (Z.eqb_neq _ _) Hb). lia. }
  apply work_less; [lia|by rewrite Ha|done|done|]. unfold call_work. rewrite Hio. simpl. destruct (vlock s); lia.
Qed.

(** A call gets its descriptors and is closer to its end, or is turned away and
    nothing has changed but who tries next. *)
Lemma submit_work s p b w s' : inv s -> live s -> pos s p = VEnter b w -> vlock s = Nobody -> rw_submit p b w s = Ret s' ->
  healthy s -> healthy s' /\ ((work s' < work s)%nat \/ turned_away s s' /\ (work s' <= work s)%nat /\ exists i, 0 <= i < NUM /\ free (dk s) i = false).
Proof.
  intros I L Ep Hl E H. assert (Hp : (p < N)%nat) by (apply (lv_small _ L); by rewrite Ep). pose proof (submit_io _ _ _ _ _ E) as Hio.
  destruct (submit_spec s p b w I Ep Hl) as (s2 & E2 & _ & Hs). rewrite E in E2. injection E2 as <-.
  destruct Hs as [(i0 & i1 & i2 & s1 & Hn & Hf & T & Es)|(s1 & U & Es & Hfree)].
  - destruct (tk_disk _ _ _ T) as (_ & K1 & K2 & K3 & _ & K5 & _). destruct (tk_sys _ _ _ T) as (_ & M2 & _ & M4 & M5 & M6 & M7).
    cbn [avail used used_idx info_status dk set_vlock b_disk dev_idx inflight vlock pos] in *.
    assert (Ha' : length (availq s') = length (availq s)) by (unfold availq; rewrite !RingBuf.length_region; subst s'; simpl; by rewrite K1, M4).
    assert (Hu' : usedq s' = usedq s) by (unfold usedq; subst s'; simpl; by rewrite K2, K3).
    split.
    { intros h. rewrite Hu'. intros Hh. subst s'. simpl. destruct (decide (h = i0)) as [->|Hne]; [|rewrite fn_lookup_insert_ne, K5 by done; by apply H].
      exfalso. destruct (v_heads _ I i0) as (q & b' & w' & j1 & j2 & Eq); [unfold outstanding; apply elem_of_app; by right|].
      pose proof (owned_not_free s q b' w' i0 j1 j2 I Eq) as Ho. apply Forall_inv in Ho. apply Forall_inv in Hf. destruct Hf as [_ Hf]. congruence. }
    left. assert (EP : pos s' = <[p := VRing b w i0 i1 i2]> (pos s)) by (subst s'; simpl; by rewrite M7).
    assert (Hm := work_goto s s' p (VRing b w i0 i1 i2) 1 Hp EP). rewrite Ep in Hm. specialize (fun X => Hm X (le_n _)).
    assert (Hw : forall q, q <> p -> (weight s' (pos s q) <= weight s (pos s q))%nat).
    { intros q Hq. destruct (pos s q) as [| | | |b' w' j0 j1 j2| |] eqn:Eq; simpl; try lia.
      assert (Hbb : b' <> b) by (intros ->; apply Hq, (v_bufs _ I q p b); [by rewrite Eq|by rewrite Ep]).
      subst s'. simpl. by rewrite fn_lookup_insert_ne, M2 by done. }
    specialize (Hm Hw). apply work_less; [lia|done|by subst s'|done|]. unfold call_work. rewrite Hio. subst s'. simpl. rewrite M6, Hl. lia.
  - destruct U as [_ _ (K1 & K2 & K3 & _ & K5 & _) (_ & M2 & _ & M4 & M5 & M6) P]. cbn [avail used used_idx info_status dk set_vlock b_disk dev_idx inflight pos] in *.
    assert (Ha' : availq s' = availq s) by (unfold availq; subst s'; simpl; by rewrite K1, M4).
    assert (Hu' : usedq s' = usedq s) by (unfold usedq; subst s'; simpl; by rewrite K2, K3).
    split; [intros h; rewrite Hu'; intros Hh; subst s'; simpl; rewrite K5; by apply H|]. right. split; [|split; [|done]].
    { exists p, b, w. split; [done|]. subst s'. simpl. by rewrite fn_lookup_insert. }
    assert (Hm : (positions s' <= positions s)%nat).
    { apply msum_le. intros q. subst s'. simpl. destruct (decide (q = p)) as [->|]; [by rewrite fn_lookup_insert, Ep|]. rewrite fn_lookup_insert_ne by done.
      assert (Hbd : forall b', b_disk (set_pos p (VDesc b w) (set_vlock Nobody s1)) b' = 1 -> b_disk s b' = 1) by (intros b'; simpl; by rewrite M2).
      destruct (P q) as [-> | ->]; [|by apply woken_weight]. pose proof (woken_weight s _ (OnBuf (-1)) (pos s q) Hbd) as Hx. revert Hx.
      destruct (pos s q) as [| | | |b' w' j0 j1 j2| |]; simpl; try lia; case_if; simpl; lia. }
    unfold work, call_work. rewrite Ha', Hu', Hio. subst s'. simpl. rewrite M5, Hl. simpl in Hm. lia.
Qed.

(** The handler: it comes, takes a chain from the ring, goes. *)
Lemma enter_work s : vlock s = Nobody -> irq (io s) = true -> (work (intr_enter s) < work s)%nat.
Proof.
  intros Hl Hq. unfold work. change (usedq (intr_enter s)) with (usedq s). change (availq (intr_enter s)) with (availq s).
  change (positions (intr_enter s)) with (positions s). change (inflight (intr_enter s)) with (inflight s). unfold call_work. rewrite Hl, Hq. simpl. lia.
Qed.

Lemma exit_work s : vlock s = Handler -> (work (set_vlock Nobody s) < work s)%nat.
Proof.
  intros Hl. unfold work. change (usedq (set_vlock Nobody s)) with (usedq s). change (availq (set_vlock Nobody s)) with (availq s).
  change (positions (set_vlock Nobody s)) with (positions s). change (inflight (set_vlock Nobody s)) with (inflight s). unfold call_work. rewrite Hl. simpl. lia.
Qed.

Lemma turn_work s s' : inv s -> healthy s -> used_idx (dk s) <> us_idx (used (dk s)) -> intr_turn s = Ret s' -> healthy s' /\ (work s' < work s)%nat.
Proof.
  intros I H Hne Es. destruct (turn_head s I Hne) as (id & p & b0 & w & i1 & i2 & Hu & _).
  destruct (turn_spec s I Hne) as [(h & Hh & Hs & _)|(b & E & _)]; [by apply H in Hh|]. rewrite E in Es. injection Es as <-.
  assert (Hu' : usedq s = id :: usedq (turned b s)) by exact Hu.
  split; [intros h Hh; apply H; rewrite Hu'; by apply list_elem_of_further|].
  assert (Hm : (positions (turned b s) <= positions s)%nat).
  { apply msum_le. intros q. apply woken_weight. intros b'. simpl. destruct (decide (b' = b)) as [->|];
      [by rewrite fn_lookup_insert|by rewrite fn_lookup_insert_ne]. }
  unfold work. rewrite Hu'. change (call_work (turned b s)) with (call_work s).
  change (availq (turned b s)) with (availq s). change (inflight (turned b s)) with (inflight s). simpl length. lia.
Qed.

(** The device takes a chain, answers one, and has dealt with a notification. *)
Lemma fetch_work s : inv s -> dev_idx s <> av_idx (avail (dk s)) -> (work (dev_fetch s) < work s)%nat.
Proof.
  intros I Hne. destruct (v_rings _ I) as [R1 R2 R3 R4 R5 R6].
  pose proof (win_pop (av_ring (avail (dk s))) _ _ R5 R3 Hne) as Hp. rewrite <- availq_win in Hp.
  assert (Ha' : length (availq s) = S (length (availq (dev_fetch s)))) by (by rewrite Hp).
  unfold work. rewrite Ha'. change (call_work (dev_fetch s)) with (call_work s). change (usedq (dev_fetch s)) with (usedq s).
  change (positions (dev_fetch s)) with (positions s).
  change (inflight (dev_fetch s)) with (inflight s ++ [nth (RingBuf.slot NUM (dev_idx s)) (av_ring (avail (dk s))) 0]).
  rewrite length_app. simpl length. lia.
Qed.

Lemma rest_work s : kick (io s) = true -> (work (dev_rest s) < work s)%nat.
Proof.
  intros Hk. unfold work. change (usedq (dev_rest s)) with (usedq s). change (availq (dev_rest s)) with (availq s).
  change (positions (dev_rest s)) with (positions s). change (inflight (dev_rest s)) with (inflight s). unfold call_work. rewrite Hk. simpl. lia.
Qed.

Lemma answer_work s h s' : inv s -> healthy s -> h ∈ inflight s -> dev_complete h 0 s = Ret s' -> healthy s' /\ (work s' < work s)%nat.
Proof.
  intros I H Hh Es. destruct (inflight_chain s h I Hh) as (p & b & w & i1 & i2 & _ & Hc).
  rewrite (complete_eq _ _ _ _ _ _ _ Hc) in Es. change (0 =? 0) with true in Es. cbv iota in Es. injection Es as <-.
  destruct (transfer_fields b w s) as (T1 & T2 & T3 & T4 & T5 & T6 & _). pose proof (transfer_inv b w s I) as I1.
  assert (T7 : io (transfer b w s) = io s) by (unfold transfer; by destruct (nz w)). set (s1 := transfer b w s) in *. clearbody s1.
  destruct (v_rings _ I1) as [R1 R2 R3 R4 R5 R6]. pose proof (outstanding_length s1 I1) as Hlen. rewrite length_outstanding in Hlen.
  assert (Hi : inflight s1 ≡ₚ h :: inflight (answered h 0 s1)).
  { apply filter_perm; [|by rewrite T4]. pose proof (v_nodup _ I1) as Hnd. unfold outstanding, queued in Hnd. rewrite !NoDup_app in Hnd. tauto. }
  apply Permutation_length in Hi. simpl in Hi.
  assert (Hu : usedq (answered h 0 s1) = usedq s1 ++ [h]) by (rewrite !usedq_win; simpl; rewrite win_push; [done..|rewrite <- usedq_win; lia]).
  assert (Eu : usedq s1 = usedq s) by (unfold usedq; by rewrite T1). assert (Ea : availq s1 = availq s) by (unfold availq; by rewrite T1, T3).
  split.
  - intros j. rewrite Hu, Eu, elem_of_app, list_elem_of_singleton. simpl. rewrite T1. intros Hj. destruct (decide (j = h)) as [->|Hne].
    + by rewrite fn_lookup_insert.
    + rewrite fn_lookup_insert_ne by done. apply H. tauto.
  - unfold work. rewrite Hu, Eu, length_app. change (availq (answered h 0 s1)) with (availq s1). rewrite Ea.
    assert (Hm : positions (answered h 0 s1) = positions s).
    { unfold positions. cbn [answered set_io pos set_dev set_dk]. rewrite T6. unfold weight. cbn [answered set_io b_disk set_dev set_dk]. by rewrite T2. }
    rewrite Hm. assert (Hw : (call_work (answered h 0 s1) <= call_work s + 2)%nat).
    { unfold call_work. cbn [answered set_io vlock set_dev set_dk io raise_irq irq kick]. rewrite T5, T7. destruct (vlock s), (irq (io s)), (isr (io s) =? 0), (kick (io s)); simpl; lia. }
    rewrite T4 in Hi. cbn [answered set_io inflight set_dev set_dk] in Hi |- *. rewrite T4 in *. simpl length. lia.
Qed.

(** Every step without a new call takes the requests further, except that a call
    may be turned away again. *)
Lemma onward_work s s' : inv s -> live s -> healthy s -> onward s s' ->
  healthy s' /\ ((work s' < work s)%nat \/ turned_away s s' /\ (work s' <= work s)%nat).
Proof.
  intros I L H (l & St & Hl0). remember (Ret s') as o eqn:Eo. destruct St as [p b w Hp Ep Hu Hk|b x Hu|p b w Ep Hl|p b w i0 i1 i2 Ep|p b w i0 i1 i2 Ep Hb
    |p b w i0 i1 i2 Ep Hl|p b w i0 i1 i2 Ep Hb|Hl Hq|Hl Hne|Hl He|o [Hk Hne|h Hh|Hk Hne]]; try (injection Eo as <-).
  - by destruct Hl0 as [?|[? ?]].
  - by destruct Hl0 as [?|[? ?]].
  - destruct (submit_work s p b w s' I L Ep Hl Eo H) as (H' & [?|(? & ? & _)]); auto.
  - split; [done|left]. by apply publish_work.
  - split; [done|left]. by apply wait_work.
  - split; [done|left]. by apply relock_work.
  - destruct (finish_work s p b w i0 i1 i2 s' I L Ep Hb Eo H); auto.
  - split; [done|left]. by apply enter_work.
  - destruct (turn_work s s' I H Hne Eo); auto.
  - split; [done|left]. by apply exit_work.
  - split; [done|left]. by apply fetch_work.
  - destruct (answer_work s h s' I H Hh Eo); auto.
  - split; [done|left]. by apply rest_work.
Qed.

#[local] Instance vpos_eq_dec : EqDecision vpos.
Proof. solve_decision. Defined.

(** Without chains in any ring, the only processes that have descriptors have
    been woken up. *)
Lemma rings_empty s : inv s -> live s -> vlock s = Nobody -> outstanding s = [] -> forall q b w i0 i1 i2,
  chain_of (pos s q) = Some (b, w, i0, i1, i2) -> pos s q = VWoken b w i0 i1 i2.
Proof.
  intros I L Hl Ho q b w i0 i1 i2 E. destruct (v_chain _ I _ _ _ _ _ _ E) as [_ Hpr]. assert (Hnl : has_lock (pos s q) <> true)
    by (intros X%(v_lock _ I); by rewrite Hl in X). pose proof (lv_asleep _ L q) as Has. unfold progress in Hpr. rewrite Ho in Hpr.
  destruct (pos s q) eqn:Eq; try done; inversion E; subst; simpl in Hpr, Hnl; try done;
    (destruct Hpr as [[_ Hn]|(Hb & _)]; [by apply not_elem_of_nil in Hn|]); by rewrite (Has _ _ _ _ _ eq_refl) in Hb.
Qed.

(** A step of the rings: the device or the handler can go on. *)
Lemma rings_onward s : inv s -> healthy s -> calls s -> vlock s = Nobody -> outstanding s <> [] -> exists s', onward s s' /\ (work s' < work s)%nat.
Proof.
  intros I H C Hl Ho. destruct (decide (used_idx (dk s) = us_idx (used (dk s)))) as [Eu|Eu].
  2: { destruct (ca_irq _ C Eu) as [Hq|?]; [|congruence]. exists (intr_enter s). split; [exists None; split; [by apply s_intr|by left]|by apply enter_work]. }
  destruct (decide (dev_idx s = av_idx (avail (dk s)))) as [Ea|Ea].
  2: { exists (dev_fetch s). split; [exists None; split; [apply s_dev, pr_takes; [by apply (ca_kick _ C)|done]|by left]|by apply fetch_work]. }
  destruct (inflight s) as [|h l] eqn:Ei.
  { destruct Ho. unfold outstanding, queued. rewrite Ei. unfold availq, usedq. rewrite Ea, Eu, !Z.sub_diag. by rewrite !RingBuf.region_nil. }
  assert (Hh : h ∈ inflight s) by (rewrite Ei; apply list_elem_of_here). destruct (inflight_chain s h I Hh) as (p & b & w & i1 & i2 & _ & Hc).
  pose proof (complete_eq _ _ 0 _ _ _ _ Hc) as Ec. eexists. split; [exists None; split; [rewrite <- Ec; by apply s_dev, pr_finishes|by left]|].
  by destruct (answer_work s h _ I H Hh Ec).
Qed.

(** While a call is under way, some step takes the requests further. *)
Lemma onward_exists s p : inv s -> live s -> healthy s -> calls s -> pos s p <> VIdle -> exists s', onward s s' /\ (work s' < work s)%nat.
Proof.
  intros I L H C Hp. destruct (vlock s) as [|q|] eqn:Hl.
  - destruct (decide (outstanding s = [])) as [Ho|Ho]; [|by apply rings_onward]. pose proof (rings_empty s I L Hl Ho) as Hc.
    destruct (decide (Exists (fun q => is_Some (chain_of (pos s q))) (seq 0 N))) as [(q & _ & [[[[[b w] i0] i1] i2] E])%Exists_exists|Hno].
    + pose proof (Hc q b w i0 i1 i2 E) as Eq. eexists. split; [exists None; split; [by eapply s_relock|by left]|by apply relock_work].
    + assert (Hno' : forall q, chain_of (pos s q) = None).
      { intros q. destruct (chain_of (pos s q)) eqn:E; [|done]. exfalso. apply Hno. apply Exists_exists. exists q. split; [|by rewrite E].
        apply elem_of_seq. split; [lia|]. apply (lv_small _ L). intros X. by rewrite X in E. }
      destruct (pos s p) as [|b w|b w| | | |] eqn:Ep; try done; try (specialize (Hno' p); by rewrite Ep in Hno').
      * destruct (submit_spec s p b w I Ep Hl) as (s' & E & _ & _). pose proof (s_submit prompt _ _ _ _ Ep Hl) as St. rewrite E in St.
        exists s'. split; [exists None; split; [done|by left]|]. destruct (submit_work s p b w s' I L Ep Hl E H) as [_ [?|(_ & _ & i & Hi & Hfi)]]; [done|].
        exfalso. destruct (proj1 (v_owned _ I i Hi) Hfi) as [r Hr]. apply descs_chain in Hr as (? & ? & ? & ? & ? & Er & _). by rewrite Hno' in Er.
      * destruct (lv_desc _ L _ _ _ Ep) as [q [? Hq]]. by rewrite Hno' in Hq.
  - apply (v_lock _ I) in Hl. destruct (pos s q) as [| | |b w i0 i1 i2|b w i0 i1 i2| |] eqn:Eq; try done.
    + eexists. split; [exists None; split; [by eapply s_publish|by left]|by apply publish_work].
    + destruct (decide (b_disk s b = 1)) as [Hb|Hb].
      * eexists. split; [exists None; split; [by eapply s_wait|by left]|by apply wait_work].
      * destruct (finish_spec s q b w i0 i1 i2 I Eq Hb) as (_ & s1 & F & E). pose proof (s_finish prompt _ _ _ _ _ _ _ Eq Hb) as St. rewrite E in St.
        eexists. split; [exists (Some (LRet q)); split; [exact St|right; eauto]|]. by destruct (finish_work s q b w i0 i1 i2 _ I L Eq Hb E H).
  - destruct (decide (used_idx (dk s) = us_idx (used (dk s)))) as [Eu|Eu].
    + eexists. split; [exists None; split; [by apply s_exit|by left]|by apply exit_work].
    + pose proof (s_turn prompt s Hl Eu) as St. destruct (turn_spec s I Eu) as [(h & Hh & Hs & _)|(b & E & _)]; [by apply H in Hh|]. rewrite E in St.
      eexists. split; [exists None; split; [exact St|by left]|]. by destruct (turn_work s _ I H Eu E).
Qed.

Lemma onward_inv s s' : inv s -> live s -> calls s -> onward s s' -> inv s' /\ live s' /\ calls s'.
Proof.
  intros I L C (l & St%step_prompt & _). destruct (step_inv s l _ I St) as [(s2 & [= <-] & I')|[? _]]; [|done].
  split; [done|]. split; [by apply (step_live s l)|by apply (step_calls s l)].
Qed.

(** Steps that take the requests further. *)
Definition forward (s s' : sys) : Prop := onward s s' /\ (work s' < work s)%nat.

Lemma forward_all n s : inv s -> live s -> healthy s -> calls s -> (work s <= n)%nat -> exists s', rtc forward s s' /\ forall p, pos s' p = VIdle.
Proof.
  revert s. induction n as [n IH] using lt_wf_ind. intros s I L H C Hn.
  destruct (decide (Exists (fun p => pos s p <> VIdle) (seq 0 N))) as [(p & _ & Hp)%Exists_exists|Hno].
  - destruct (onward_exists s p I L H C Hp) as (s1 & St & Hw). destruct (onward_inv s s1 I L C St) as (I1 & L1 & C1).
    destruct (onward_work s s1 I L H St) as [H1 _].
    destruct (IH (work s1)) with (s := s1) as (s2 & Hs & Hi); [lia|done..|]. exists s2. split; [by eapply rtc_l|done].
  - exists s. split; [done|]. intros p. destruct (decide (pos s p = VIdle)) as [|Hp]; [done|]. exfalso. apply Hno. apply Exists_exists. exists p.
    split; [|done]. apply elem_of_seq. split; [lia|]. by apply (lv_small _ L).
Qed.

Lemma run_dev_inv bs m t s : run dev_step (boot bs m) t s -> inv s.
Proof. by apply run_inv. Qed.

Lemma run_live bs m t s : run dev_step (boot bs m) t s -> live s /\ calls s.
Proof.
  intros H. induction H as [|t s1 s2 H [L C] St|t l s1 s2 H [L C] St].
  - split; [apply boot_live|apply boot_calls].
  - apply run_dev_inv in H. split; [by eapply step_live|by eapply step_calls].
  - apply run_dev_inv in H. split; [by eapply step_live|by eapply step_calls].
Qed.

(** (C27) Every disk request can be completed.  Take any reachable state in which the
    device has reported no error, with any number of calls of [virtio_disk_rw]
    waiting for descriptors, for the device or for the interrupt handler, and a
    device that looks at the avail ring only after a notification and sends an
    interrupt only when the last one has been acknowledged.  Every step without
    a new call makes [work] smaller, except that a call that finds too few free
    descriptors goes back to sleep with [work] no larger; while a call is under
    way some step makes it smaller; so there are such steps that lead to a
    state in which every call has returned. *)
Theorem virtio_completes bs m t s : run dev_step (boot bs m) t s -> healthy s ->
  (forall s', onward s s' -> healthy s' /\ ((work s' < work s)%nat \/ turned_away s s' /\ (work s' <= work s)%nat))
  /\ (forall p, pos s p <> VIdle -> exists s', forward s s')
  /\ exists s', rtc forward s s' /\ forall p, pos s' p = VIdle.
Proof.
  intros H Hh. destruct (run_live bs m t s H) as [L C]. pose proof (run_dev_inv bs m t s H) as I. split_and!.
  - intros s'. by apply onward_work.
  - intros p Hp. by apply (onward_exists s p).
  - by apply (forward_all (work s)).
Qed.

Lemma virtio_completes_witness :
  pos run_waiting 0%nat = VAsleep 5 1 0 1 2 /\ exists s', rtc forward run_waiting s' /\ forall p, pos s' p = VIdle.
Proof.
  split; [vm_compute; reflexivity|]. apply (virtio_completes demo_bufs ∅ _ run_waiting demo_waiting).
  intros h Hh. by apply not_elem_of_nil in Hh.
Defined.

End VirtioLive.
