(* ===== verification/Log.v ===== *)
(** * kernel/log.c: the redo log

    The log keeps its header in memory ([struct log]) and drives the buffer
    cache.  [sleep] in [begin_op] is the outcome [Blocked]; [end_op] is split
    where it drops the log lock, into the decrement ([end_op_dec]) and, for the
    last operation, the commit and the release of waiters.  Storing outside
    [lh.block], which C leaves undefined, is the panic "lh.block out of
    bounds". *)

From S2P Require Import Prelude Riscv ProcDefs Block Sleeplock Bio.
From stdpp Require Import base list numbers gmap strings.
From Stdlib Require Import ZArith Lia.

#[local] Open Scope Z_scope.

Import Block Bio.

(** The super block (kernel/include/fs.h). *)
Record superblock : Type := MkSuperblock {
  sb_magic : Z;
  sb_size : Z;
  sb_nblocks : Z;
  sb_ninodes : Z;
  sb_nlog : Z;
  sb_logstart : Z;
  sb_inodestart : Z;
  sb_bmapstart : Z
}.

(** [struct log]; [lg_n] and [lg_block] are the fields of its [lh]. *)
Record log : Type := MkLog {
  lg_start : Z;
  lg_size : Z;
  lg_outstanding : Z;
  lg_committing : Z;
  lg_dev : Z;
  lg_n : Z;
  lg_block : list Z
}.

Definition log0 : log := MkLog 0 0 0 0 0 0 (replicate (Z.to_nat LOGSIZE) 0).

Definition set_outstanding (v : Z) (l : log) : log :=
  MkLog (lg_start l) (lg_size l) v (lg_committing l) (lg_dev l) (lg_n l) (lg_block l).
Definition set_committing (v : Z) (l : log) : log :=
  MkLog (lg_start l) (lg_size l) (lg_outstanding l) v (lg_dev l) (lg_n l) (lg_block l).
Definition set_n (v : Z) (l : log) : log :=
  MkLog (lg_start l) (lg_size l) (lg_outstanding l) (lg_committing l) (lg_dev l) v (lg_block l).
Definition set_block (v : list Z) (l : log) : log :=
  MkLog (lg_start l) (lg_size l) (lg_outstanding l) (lg_committing l) (lg_dev l) (lg_n l) v.

Module Log.

(** [log.lh.block[i]]. *)
Definition lblock (l : log) (i : Z) : Z := nth (Z.to_nat i) (lg_block l) 0.

(** Byte offset of [block[i]] in the header block. *)
Definition hb_block (i : Z) : Z := 4 + 4 * i.

Section Process.
Context (pid : Z).

(** Iterations [tail], [tail + 1], .. of the loop of [install_trans]. *)
Fixpoint install_loop (k : nat) (recovering : Z) (l : log) (tail : Z) (s : bst) : outcome bst :=
  match k with
  | O => Ret s
  | S k =>
      '(lbuf, s) ← bread pid (u32 (lg_dev l)) (u32 (lg_start l + tail + 1)) s;
      '(dbuf, s) ← bread pid (u32 (lg_dev l)) (u32 (lblock l tail)) s;
      let s := upd dbuf (set_data (b_data (bf s lbuf))) s in
      s ← bwrite pid dbuf s;
      let s := if recovering =? 0 then bunpin dbuf s else s in
      s ← brelse pid lbuf s;
      s ← brelse pid dbuf s;
      install_loop k recovering l (tail + 1) s
  end.

Definition install_trans (recovering : Z) (l : log) (s : bst) : outcome bst :=
  install_loop (Z.to_nat (lg_n l)) recovering l 0 s.

Fixpoint read_blocks (k : nat) (d : list Z) (i : Z) (l : log) : outcome log :=
  match k with
  | O => Ret l
  | S k =>
      if LOGSIZE <=? i then Panic "lh.block out of bounds" else
      read_blocks k d (i + 1) (set_block (<[Z.to_nat i := get_s32 d (hb_block i)]> (lg_block l)) l)
  end.

Definition read_head (l : log) (s : bst) : outcome (log * bst) :=
  '(b, s) ← bread pid (u32 (lg_dev l)) (u32 (lg_start l)) s;
  let d := b_data (bf s b) in
  let l := set_n (get_s32 d 0) l in
  l ← read_blocks (Z.to_nat (lg_n l)) d 0 l;
  s ← brelse pid b s;
  Ret (l, s).

Definition write_head (l : log) (s : bst) : outcome bst :=
  '(b, s) ← bread pid (u32 (lg_dev l)) (u32 (lg_start l)) s;
  let s := upd b (fun x => set_data (put32 (b_data x) 0 (lg_n l)) x) s in
  let s := for_range 0 (lg_n l) (fun s i =>
             upd b (fun x => set_data (put32 (b_data x) (hb_block i) (lblock l i)) x) s) s in
  s ← bwrite pid b s;
  brelse pid b s.

Definition recover_from_log (l : log) (s : bst) : outcome (log * bst) :=
  '(l, s) ← read_head l s;
  s ← install_trans 1 l s;
  let l := set_n 0 l in
  s ← write_head l s;
  Ret (l, s).

(** [sizeof(struct logheader)] is 4 + 4 * LOGSIZE. *)
Definition initlog (dev : Z) (sb : superblock) (l : log) (s : bst) : outcome (log * bst) :=
  if BSIZE <=? 4 + 4 * LOGSIZE then Panic "initlog: too big logheader" else
  recover_from_log (MkLog (s32 (sb_logstart sb)) (s32 (sb_nlog sb)) (lg_outstanding l)
                      (lg_committing l) dev (lg_n l) (lg_block l)) s.

Definition begin_op (l : log) : outcome log :=
  if nz (lg_committing l) then Blocked "begin_op"
  else if LOGSIZE <? lg_n l + (lg_outstanding l + 1) * MAXOPBLOCKS then Blocked "begin_op"
  else Ret (set_outstanding (lg_outstanding l + 1) l).

Fixpoint write_log_loop (k : nat) (l : log) (tail : Z) (s : bst) : outcome bst :=
  match k with
  | O => Ret s
  | S k =>
      '(to, s) ← bread pid (u32 (lg_dev l)) (u32 (lg_start l + tail + 1)) s;
      '(from, s) ← bread pid (u32 (lg_dev l)) (u32 (lblock l tail)) s;
      let s := upd to (set_data (b_data (bf s from))) s in
      s ← bwrite pid to s;
      s ← brelse pid from s;
      s ← brelse pid to s;
      write_log_loop k l (tail + 1) s
  end.

Definition write_log (l : log) (s : bst) : outcome bst :=
  write_log_loop (Z.to_nat (lg_n l)) l 0 s.

Definition commit (l : log) (s : bst) : outcome (log * bst) :=
  if 0 <? lg_n l then
    s ← write_log l s;
    s ← write_head l s;
    s ← install_trans 0 l s;
    let l := set_n 0 l in
    s ← write_head l s;
    Ret (l, s)
  else Ret (l, s).

Definition log_chan : chan := ChObj "log" 0.

(** The first section of [end_op] under the log lock; the flag is [do_commit]. *)
Definition end_op_dec (l : log) (s : bst) : outcome (bool * log * bst) :=
  let l := set_outstanding (lg_outstanding l - 1) l in
  if nz (lg_committing l) then Panic "log.committing"
  else if lg_outstanding l =? 0 then Ret (true, set_committing 1 l, s)
  else Ret (false, l, emit (EvWakeup log_chan) s).

Definition end_op (l : log) (s : bst) : outcome (log * bst) :=
  '(do_commit, l, s) ← end_op_dec l s;
  if (do_commit : bool) then
    '(l, s) ← commit l s;
    Ret (set_committing 0 l, emit (EvWakeup log_chan) s)
  else Ret (l, s).

(** The loop of [log_write]: the first index from [i] on whose entry is
    [blockno] (compared as [uint]), or [n]. *)
Fixpoint absorb (k : nat) (l : log) (i blockno : Z) : Z :=
  match k with
  | O => i
  | S k => if u32 (lblock l i) =? blockno then i else absorb k l (i + 1) blockno
  end.

Definition log_write (b : Z) (l : log) (s : bst) : outcome (log * bst) :=
  if (LOGSIZE <=? lg_n l) || (lg_size l - 1 <=? lg_n l) then Panic "too big a transaction"
  else if lg_outstanding l <? 1 then Panic "log_write outside of trans" else
  let i := absorb (Z.to_nat (lg_n l)) l 0 (b_blockno (bf s b)) in
  let l := set_block (<[Z.to_nat i := s32 (b_blockno (bf s b))]> (lg_block l)) l in
  if i =? lg_n l then Ret (set_n (lg_n l + 1) l, bpin b s)
  else Ret (l, s).

End Process.

End Log.
