(* ===== verification/LogSpec.v ===== *)
(** * The redo log: atomic commits

    What [commit] and [recover_from_log] write to the disk, block by block, and
    the theorem that a crash after any number of those writes is repaired by
    recovery to the state before or the state after the transaction. *)

From S2P Require Import Prelude Riscv ProcDefs Block Sleeplock Bio BioSpec Log.
From stdpp Require Import base list numbers gmap strings sets.
From Stdlib Require Import ZArith Lia.

#[local] Open Scope Z_scope.

Import Block Bio BioSpec Log.

Module LogSpec.

(** ** Disk writes *)

Fixpoint writes_of (tr : list event) : list (Z * list Z) :=
  match tr with
  | [] => []
  | EvWrite bn d :: tr => (bn, d) :: writes_of tr
  | EvWakeup _ :: tr => writes_of tr
  end.

Definition apply_writes (ws : list (Z * list Z)) (D : gmap Z (list Z)) : gmap Z (list Z) :=
  foldl (fun D w => <[w.1 := w.2]> D) D ws.

Lemma writes_of_app t1 t2 : writes_of (t1 ++ t2) = writes_of t1 ++ writes_of t2.
Proof. induction t1 as [|[bn d|c] t1 IH]; simpl; [done|by rewrite IH|done]. Qed.

Lemma apply_writes_app w1 w2 D : apply_writes (w1 ++ w2) D = apply_writes w2 (apply_writes w1 D).
Proof. apply foldl_app. Qed.

(** From [s] to [s'] the writes [ws] reached the disk, in this order. *)
Definition wrote (s s' : bst) (ws : list (Z * list Z)) : Prop :=
  exists evs, bc_trace s' = bc_trace s ++ evs /\ writes_of evs = ws
    /\ bc_disk s' = apply_writes ws (bc_disk s).

Lemma wrote_nil s s' : bc_trace s' = bc_trace s -> bc_disk s' = bc_disk s -> wrote s s' [].
Proof. intros H1 H2. exists []. by rewrite app_nil_r. Qed.

Lemma wrote_trans s1 s2 s3 w1 w2 : wrote s1 s2 w1 -> wrote s2 s3 w2 -> wrote s1 s3 (w1 ++ w2).
Proof.
  intros (e1 & A1 & A2 & A3) (e2 & B1 & B2 & B3). exists (e1 ++ e2).
  rewrite B1, A1, app_assoc, writes_of_app, A2, B2, B3, A3, apply_writes_app. done.
Qed.

Lemma wrote_wakeup s s' c : bc_trace s' = bc_trace s ++ [EvWakeup c] -> bc_disk s' = bc_disk s -> wrote s s' [].
Proof. intros H1 H2. by exists [EvWakeup c]. Qed.

Lemma wrote_write s s' bn d :
  bc_trace s' = bc_trace s ++ [EvWrite bn d] -> bc_disk s' = <[bn := d]> (bc_disk s) ->
  wrote s s' [(bn, d)].
Proof. intros H1 H2. by exists [EvWrite bn d]. Qed.

(** ** Copying a block to another *)

(** No buffer is locked, and reference counts are far from overflow. *)
Record quiet (s : bst) : Prop := MkQuiet {
  q_ok : bcache_ok s;
  q_unlocked : forall x, unlocked s x;
  q_pins : forall x, 0 <= pins s x < 2 ^ 30
}.

(** Block [c] now shows [d]. *)
Definition view_set (s : bst) (c : Z) (d : list Z) (x : Z) : list Z :=
  if decide (x = c) then d else cview s x.

Lemma others_unlocked s s' bn :
  others s s' bn -> unlocked s' bn -> (forall x, x <> bn -> unlocked s x) -> forall x, unlocked s' x.
Proof. intros O H U x. destruct (decide (x = bn)) as [->|Hne]; [done|]. apply O; auto. Qed.

(** One iteration of [write_log]: block [a] := block [c], [c] in the cache. *)
Lemma copy_to_log pid a c s :
  quiet s -> a <> c -> (0 < nfree s)%nat -> 1 <= pins s c ->
  exists to s1 from s2 s3 s4 s5,
    bread pid ROOTDEV a s = Ret (to, s1) /\ bread pid ROOTDEV c s1 = Ret (from, s2)
    /\ bwrite pid to (upd to (set_data (b_data (bf s2 from))) s2) = Ret s3
    /\ brelse pid from s3 = Ret s4 /\ brelse pid to s4 = Ret s5
    /\ quiet s5 /\ wrote s s5 [(a, cview s c)] /\ (forall x, cview s5 x = view_set s a (cview s c) x)
    /\ (forall x, pins s5 x = pins s x) /\ nfree s5 = nfree s.
Proof.
  intros [H U P] Hac Hf Hc.
  destruct (bread_spec pid a s H (U a)) as (to & s1 & E1 & H1 & Hh1 & V1 & P1 & N1 & O1 & D1 & T1);
    [pose proof (P a); lia|by right|].
  destruct (bread_spec pid c s1 H1) as (from & s2 & E2 & H2 & Hh2 & V2 & P2 & N2 & O2 & D2 & T2);
    [by apply (ot_unlocked _ _ _ O1)|rewrite P1, decide_False by done; pose proof (P c); lia|
     left; rewrite P1, decide_False by done; lia|].
  pose proof (ot_held _ _ _ O2 _ _ _ _ Hac Hh1) as Hh1'.
  destruct (set_data_spec pid to a _ (b_data (bf s2 from)) s2 H2 Hh1') as (H2' & Hh2' & V2' & P2' & N2' & O2').
  destruct (bwrite_spec pid to a _ _ H2' Hh2') as (s3 & E3 & H3 & Hh3 & V3 & P3 & N3 & O3 & D3 & T3).
  assert (Hf3 : held s3 pid from c (cview s1 c)) by (apply (ot_held _ _ _ O3), (ot_held _ _ _ O2'); done).
  assert (Pc : forall x, pins s3 x = pins s x + (if decide (x = a) then 1 else 0) + (if decide (x = c) then 1 else 0)).
  { intros x. rewrite P3, P2', P2, P1. done. }
  assert (Ed : b_data (bf s2 from) = cview s c) by (rewrite (h_data _ _ _ _ _ Hh2); apply V1).
  destruct (brelse_spec pid from c _ s3 H3 Hf3) as (s4 & E4 & H4 & V4 & P4 & N4 & O4 & U4 & D4 & T4).
  { left. rewrite Pc, decide_False, decide_True by done. lia. }
  pose proof (ot_held _ _ _ O4 _ _ _ _ Hac Hh3) as Hh4.
  destruct (brelse_spec pid to a _ s4 H4 Hh4) as (s5 & E5 & H5 & V5 & P5 & N5 & O5 & U5 & D5 & T5).
  { right. by rewrite D4, D3, dblock_insert, decide_True. }
  assert (P5' : forall x, pins s5 x = pins s x) by (intros x; rewrite P5, P4, Pc; lia).
  exists to, s1, from, s2, s3, s4, s5. do 5 (split; [eassumption|]). split; [|split; [|split; [|split; [exact P5'|]]]].
  - split; [done| |intros x; rewrite P5'; apply P].
    eapply others_unlocked; [exact O5|exact U5|]. intros x Hx.
    destruct (decide (x = c)) as [->|Hxc]; [done|].
    apply (ot_unlocked _ _ _ O4), (ot_unlocked _ _ _ O3), (ot_unlocked _ _ _ O2'), (ot_unlocked _ _ _ O2),
      (ot_unlocked _ _ _ O1); auto.
  - apply (wrote_trans s s2 s5 []); [apply wrote_nil; congruence|].
    apply (wrote_trans s2 s3 s5 [(a, cview s c)] []); [by apply wrote_write; rewrite Ed in *|].
    apply (wrote_trans s3 s4 s5 [] []); by eapply wrote_wakeup.
  - intros x. rewrite V5, V4, V3, V2', V2, V1, Ed. done.
  - assert (E3c : pins s3 c <> 1) by (rewrite Pc, decide_False, decide_True by done; lia).
    rewrite decide_False in N4 by done.
    rewrite P1, (decide_False (P := c = a)), decide_False in N2 by (done || lia).
    assert (E4a : pins s4 a = pins s a + 1).
    { rewrite P4, Pc, decide_True, !decide_False by done. lia. }
    rewrite E4a in N5. destruct (decide (pins s a = 0)), (decide (pins s a + 1 = 1)); lia.
Qed.

(** [install_trans] unpins the home buffer, except while it recovers. *)
Lemma unpin_home pid recovering db c d s :
  bcache_ok s -> held s pid db c d -> (recovering = 0 -> 2 <= pins s c) ->
  let s' := if recovering =? 0 then bunpin db s else s in
  bcache_ok s' /\ held s' pid db c d /\ (forall x, cview s' x = cview s x)
  /\ (forall x, pins s' x = if decide (x = c) then pins s c - (if recovering =? 0 then 1 else 0) else pins s x)
  /\ nfree s' = nfree s /\ others s s' c /\ bc_disk s' = bc_disk s /\ bc_trace s' = bc_trace s.
Proof.
  intros H Hh Hp. destruct (Z.eqb_spec recovering 0) as [Er|Er]; intros s'; subst s'.
  - destruct (bunpin_spec pid db c d s H Hh ltac:(lia)) as (B1 & B2 & B3 & B4 & B5 & B6). by split_and!.
  - split_and!; try done. intros x. case_decide; [subst; lia|done].
Qed.

(** One iteration of [install_trans]: block [c] := log block [a]. *)
Lemma copy_home pid recovering a c s :
  quiet s -> a <> c -> cview s a = dblock (bc_disk s) a -> (0 < nfree s)%nat ->
  (recovering = 0 -> 1 <= pins s c) -> (1 <= pins s c \/ (2 <= nfree s)%nat) ->
  exists lb s1 db s2 s3 s5 s6,
    bread pid ROOTDEV a s = Ret (lb, s1) /\ bread pid ROOTDEV c s1 = Ret (db, s2)
    /\ bwrite pid db (upd db (set_data (b_data (bf s2 lb))) s2) = Ret s3
    /\ brelse pid lb (if recovering =? 0 then bunpin db s3 else s3) = Ret s5 /\ brelse pid db s5 = Ret s6
    /\ quiet s6 /\ wrote s s6 [(c, cview s a)] /\ (forall x, cview s6 x = view_set s c (cview s a) x)
    /\ (forall x, pins s6 x = pins s x - (if decide (x = c) then if recovering =? 0 then 1 else 0 else 0))
    /\ (nfree s <= nfree s6)%nat
    /\ (recovering = 0 -> pins s c = 1 -> nfree s6 = S (nfree s)).
Proof.
  intros [H U P] Hac Hcl Hf Hrc Hf2. pose proof (P c) as Pc0. pose proof (P a) as Pa0.
  destruct (bread_spec pid a s H (U a)) as (lb & s1 & E1 & H1 & Hh1 & V1 & P1 & N1 & O1 & D1 & T1);
    [lia|by right|].
  destruct (bread_spec pid c s1 H1) as (db & s2 & E2 & H2 & Hh2 & V2 & P2 & N2 & O2 & D2 & T2);
    [by apply (ot_unlocked _ _ _ O1)|rewrite P1, decide_False by done; lia|
     rewrite P1, decide_False by done; destruct Hf2; [left|right];
       [lia|destruct (decide (pins s a = 0)); lia]|].
  pose proof (ot_held _ _ _ O2 _ _ _ _ Hac Hh1) as Hh1'.
  assert (Ed : b_data (bf s2 lb) = cview s a) by apply Hh1'.
  destruct (set_data_spec pid db c _ (b_data (bf s2 lb)) s2 H2 Hh2) as (H2' & Hh2' & V2' & P2' & N2' & O2').
  destruct (bwrite_spec pid db c _ _ H2' Hh2') as (s3 & E3 & H3 & Hh3 & V3 & P3 & N3 & O3 & D3 & T3).
  assert (Ha3 : held s3 pid lb a (cview s a)) by (apply (ot_held _ _ _ O3), (ot_held _ _ _ O2'); done).
  assert (Pc : forall x, pins s3 x = pins s x + (if decide (x = a) then 1 else 0) + (if decide (x = c) then 1 else 0)).
  { intros x. rewrite P3, P2', P2, P1. done. }
  assert (Pcc : pins s3 c = pins s c + 1) by (rewrite Pc, decide_False, decide_True by done; lia).
  destruct (unpin_home pid recovering db c _ s3 H3 Hh3) as (H4 & Hh4 & V4 & P4 & N4 & O4 & D4 & T4).
  { rewrite Pcc. lia. }
  set (dec := if recovering =? 0 then 1 else 0) in *. rewrite Pcc in P4.
  remember (if recovering =? 0 then bunpin db s3 else s3) as s4 eqn:Es4.
  pose proof (ot_held _ _ _ O4 _ _ _ _ Hac Ha3) as Ha4.
  destruct (brelse_spec pid lb a _ s4 H4 Ha4) as (s5 & E5 & H5 & V5 & P5 & N5 & O5 & U5 & D5 & T5).
  { right. rewrite D4, D3, dblock_insert, decide_False by done. cbn [bc_disk upd]. by rewrite D2, D1. }
  assert (Hca : c <> a) by done.
  pose proof (ot_held _ _ _ O5 _ _ _ _ Hca Hh4) as Hh5.
  destruct (brelse_spec pid db c _ s5 H5 Hh5) as (s6 & E6 & H6 & V6 & P6 & N6 & O6 & U6 & D6 & T6).
  { right. by rewrite D5, D4, D3, dblock_insert, decide_True. }
  assert (P6' : forall x, pins s6 x = pins s x - (if decide (x = c) then dec else 0)).
  { intros x. rewrite P6, P5, P4. destruct (decide (x = c)) as [->|Hx].
    - rewrite decide_False by done. lia.
    - rewrite Pc, (decide_False (P := x = c)) by done. lia. }
  exists lb, s1, db, s2, s3, s5, s6. rewrite <- Es4. do 5 (split; [eassumption|]).
  split; [|split; [|split; [|split; [exact P6'|]]]].
  - split; [done| |].
    + eapply others_unlocked; [exact O6|exact U6|]. intros x Hx.
      destruct (decide (x = a)) as [->|Hxa]; [done|].
      apply (ot_unlocked _ _ _ O5), (ot_unlocked _ _ _ O4), (ot_unlocked _ _ _ O3), (ot_unlocked _ _ _ O2'),
        (ot_unlocked _ _ _ O2), (ot_unlocked _ _ _ O1); auto.
    + intros x. pose proof (P x). rewrite P6'. destruct (decide (x = c)) as [->|]; [|lia].
      subst dec. destruct (recovering =? 0) eqn:Er; [apply Z.eqb_eq, Hrc in Er|]; lia.
  - apply (wrote_trans s s2 s6 []); [apply wrote_nil; congruence|].
    apply (wrote_trans s2 s3 s6 [(c, cview s a)] []); [by apply wrote_write; rewrite Ed in *|].
    apply (wrote_trans s3 s4 s6 [] []); [by apply wrote_nil|].
    apply (wrote_trans s4 s5 s6 [] []); by eapply wrote_wakeup.
  - intros x. rewrite V6, V5, V4, V3, V2', V2, V1, Ed. done.
  - assert (E4a : pins s4 a = pins s a + 1).
    { rewrite P4, decide_False, Pc, decide_True, decide_False by done. lia. }
    assert (E5c : pins s5 c = pins s c + 1 - dec).
    { rewrite P5, P4, decide_True, decide_False by done. lia. }
    assert (E1c : pins s1 c = pins s c) by (rewrite P1, decide_False by done; lia).
    rewrite E4a in N5. rewrite E5c in N6. rewrite E1c in N2.
    assert (Hdec : recovering <> 0 /\ dec = 0 \/ dec = 1 /\ 1 <= pins s c).
    { subst dec. destruct (Z.eqb_spec recovering 0) as [Er|Er]; [apply Hrc in Er|]; lia. }
    split; [repeat case_decide; lia|]. intros Hr0 Hp1. repeat case_decide; lia.
Qed.

(** ** The header block *)

(** The contents of the header block after [write_head]. *)
Definition enc_head (l : log) (d : list Z) : list Z :=
  for_range 0 (lg_n l) (fun d i => put32 d (hb_block i) (lblock l i)) (put32 d 0 (lg_n l)).

(** Header block [d] lists [blocks]. *)
Definition head_lists (d : list Z) (blocks : list Z) : Prop :=
  get_s32 d 0 = Z.of_nat (length blocks)
  /\ forall i x, blocks !! i = Some x -> get_s32 d (hb_block (Z.of_nat i)) = x.

(** The in-memory log lists [blocks]. *)
Record log_lists (l : log) (blocks : list Z) : Prop := MkLogLists {
  ll_n : lg_n l = Z.of_nat (length blocks);
  ll_block : take (length blocks) (lg_block l) = blocks
}.

(** The log area is sane and its blocks are valid block numbers. *)
Record geom (l : log) : Prop := MkGeom {
  gm_dev : lg_dev l = ROOTDEV;
  gm_start : 0 <= lg_start l;
  gm_end : lg_start l + lg_size l < 2 ^ 31;
  gm_array : length (lg_block l) = Z.to_nat LOGSIZE
}.

(** [x] is a block outside the log area, with a number that fits an [int]. *)
Definition home (l : log) (x : Z) : Prop :=
  0 <= x < 2 ^ 31 /\ ~ (lg_start l <= x < lg_start l + lg_size l).

(** A list of blocks that fits the log. *)
Record blocks_ok (l : log) (blocks : list Z) : Prop := MkBlocksOk {
  bk_len : Z.of_nat (length blocks) <= LOGSIZE /\ Z.of_nat (length blocks) < lg_size l;
  bk_home : Forall (home l) blocks;
  bk_nodup : NoDup blocks
}.

Lemma lblock_lists l blocks i x :
  log_lists l blocks -> blocks !! i = Some x -> lblock l (Z.of_nat i) = x.
Proof.
  intros [_ H] Hi. unfold lblock. rewrite Nat2Z.id. apply nth_lookup_Some.
  rewrite <- H in Hi. by apply lookup_take_Some in Hi as [? _].
Qed.

Lemma enc_head_lists l blocks d :
  block_ok d -> log_lists l blocks -> blocks_ok l blocks ->
  block_ok (enc_head l d) /\ head_lists (enc_head l d) blocks.
Proof.
  intros Hd Hl [[Hlen _] Hhome _]. unfold enc_head, head_lists. rewrite (ll_n _ _ Hl).
  set (n := Z.of_nat (length blocks)) in *. unfold LOGSIZE, MAXOPBLOCKS in Hlen.
  match goal with |- context [for_range 0 n ?g ?z] =>
    pose proof (for_range_ind (fun k d => block_ok d /\ get_s32 d 0 = n
      /\ forall i x, Z.of_nat i < k -> blocks !! i = Some x -> get_s32 d (hb_block (Z.of_nat i)) = x)
      0 n g z) as H end.
  destruct H as (H1 & H2 & H3).
  - lia.
  - split_and!.
    + by apply put32_ok.
    + apply get_s32_put32; [done|unfold BSIZE; lia|lia].
    + intros i x Hi. lia.
  - intros k t Hk (A & B & C). split_and!.
    + by apply put32_ok.
    + rewrite get_s32_put32_ne; [done|unfold hb_block; lia..].
    + intros i x Hi Hx. destruct (decide (Z.of_nat i = k)) as [E|E].
      * rewrite Z.add_0_l, <- E, (lblock_lists _ _ _ _ Hl Hx). apply get_s32_put32; [done|..].
        -- unfold hb_block, BSIZE. lia.
        -- rewrite Forall_forall in Hhome. destruct (Hhome x) as [? _]; [by eapply list_elem_of_lookup_2|lia].
      * rewrite get_s32_put32_ne; [apply C; [lia|done]|unfold hb_block; lia..].
  - split_and!; try done. intros i x Hx. apply H3; [|done]. apply lookup_lt_Some in Hx. lia.
Qed.

Lemma upd_upd b f g s : upd b f (upd b g s) = upd b (fun x => f (g x)) s.
Proof.
  unfold upd. simpl. f_equal. unfold bf at 1. simpl. rewrite lookup_insert_eq. simpl.
  apply insert_insert_eq.
Qed.

Lemma fold_set_data (g : list Z -> Z -> list Z) b L d s :
  fold_left (fun s i => upd b (fun x => set_data (g (b_data x) i) x) s) L (upd b (set_data d) s)
  = upd b (set_data (fold_left g L d)) s.
Proof.
  revert d. induction L as [|i L IH]; intros d; [done|]. simpl. rewrite <- IH. f_equal.
  rewrite upd_upd. reflexivity.
Qed.

Lemma write_head_data b l s :
  for_range 0 (lg_n l) (fun s i => upd b (fun x => set_data (put32 (b_data x) (hb_block i) (lblock l i)) x) s)
    (upd b (fun x => set_data (put32 (b_data x) 0 (lg_n l)) x) s)
  = upd b (set_data (enc_head l (b_data (bf s b)))) s.
Proof.
  apply (fold_set_data (fun d i => put32 d (hb_block i) (lblock l i)) b (seqZ 0 (lg_n l))
    (put32 (b_data (bf s b)) 0 (lg_n l))).
Qed.

Lemma u32_dev l : geom l -> u32 (lg_dev l) = ROOTDEV.
Proof. intros []. by rewrite gm_dev0. Qed.

Lemma write_head_spec pid l s :
  quiet s -> geom l -> 0 <= lg_size l -> (0 < nfree s)%nat ->
  let h := lg_start l in let d := enc_head l (cview s h) in
  exists s', write_head pid l s = Ret s' /\ quiet s' /\ wrote s s' [(h, d)]
    /\ (forall x, cview s' x = view_set s h d x)
    /\ (forall x, pins s' x = pins s x) /\ nfree s' = nfree s.
Proof.
  intros [H U P] G Hsz Hf h d. pose proof (P h) as Ph.
  unfold write_head. rewrite (u32_dev l G), u32_small by (destruct G; lia). fold h.
  destruct (bread_spec pid h s H (U h)) as (b & s1 & -> & H1 & Hh1 & V1 & P1 & N1 & O1 & D1 & T1);
    [lia|by right|]. cbn [mbind outcome_bind]. cbv zeta. rewrite write_head_data.
  rewrite (h_data _ _ _ _ _ Hh1). fold d.
  destruct (set_data_spec pid b h _ d s1 H1 Hh1) as (H2 & Hh2 & V2 & P2 & N2 & O2).
  destruct (bwrite_spec pid b h d _ H2 Hh2) as (s3 & -> & H3 & Hh3 & V3 & P3 & N3 & O3 & D3 & T3).
  cbn [mbind outcome_bind].
  destruct (brelse_spec pid b h d s3 H3 Hh3) as (s4 & -> & H4 & V4 & P4 & N4 & O4 & U4 & D4 & T4).
  { right. by rewrite D3, dblock_insert, decide_True. }
  assert (P4' : forall x, pins s4 x = pins s x) by (intros x; rewrite P4, P3, P2, P1; lia).
  exists s4. split; [reflexivity|]. split; [|split; [|split; [|split; [exact P4'|]]]].
  - split; [done| |intros x; rewrite P4'; apply P].
    eapply others_unlocked; [exact O4|exact U4|]. intros x Hx.
    apply (ot_unlocked _ _ _ O3), (ot_unlocked _ _ _ O2), (ot_unlocked _ _ _ O1); auto.
  - apply (wrote_trans s s1 s4 []); [by apply wrote_nil|].
    apply (wrote_trans s1 s3 s4 [(h, d)] []); [by apply wrote_write|]. by eapply wrote_wakeup.
  - intros x. rewrite V4, V3, V2, V1. done.
  - assert (E3 : pins s3 h = pins s h + 1) by (rewrite P3, P2, P1, decide_True; done).
    rewrite E3 in N4. repeat case_decide; lia.
Qed.

Lemma read_blocks_spec d blocks l k i :
  length (lg_block l) = Z.to_nat LOGSIZE -> head_lists d blocks ->
  Z.of_nat (length blocks) <= LOGSIZE -> (i + k = length blocks)%nat ->
  take i (lg_block l) = take i blocks ->
  exists l', read_blocks k d (Z.of_nat i) l = Ret l'
    /\ l' = set_block (lg_block l') l /\ take (length blocks) (lg_block l') = blocks
    /\ length (lg_block l') = Z.to_nat LOGSIZE.
Proof.
  revert i l. induction k as [|k IH]; intros i l Hlen Hh Hmax Hik Ht; simpl.
  - exists l. split_and!; [done|by destruct l| |done].
    replace (length blocks) with i by lia. rewrite Ht. apply take_ge. lia.
  - rewrite (proj2 (Z.leb_gt _ _)) by lia. rewrite Nat2Z.id.
    destruct (lookup_lt_is_Some_2 blocks i ltac:(lia)) as [x Hx].
    rewrite (proj2 Hh i x Hx). replace (Z.of_nat i + 1) with (Z.of_nat (S i)) by lia.
    destruct (IH (S i) (set_block (<[i := x]> (lg_block l)) l)) as (l' & E & E' & Ht' & Hl').
    + simpl. by rewrite length_insert.
    + done.
    + done.
    + lia.
    + simpl. rewrite (take_S_r _ _ x); [|rewrite list_lookup_insert_eq; [done|lia]].
      rewrite (take_S_r blocks _ x) by done. rewrite take_insert_ge by lia. by rewrite Ht.
    + exists l'. by split_and!.
Qed.

Lemma read_head_spec pid l s blocks :
  quiet s -> geom l -> 0 <= lg_size l -> (0 < nfree s)%nat ->
  head_lists (cview s (lg_start l)) blocks -> Z.of_nat (length blocks) <= LOGSIZE ->
  cview s (lg_start l) = dblock (bc_disk s) (lg_start l) ->
  exists l' s', read_head pid l s = Ret (l', s')
    /\ l' = set_n (Z.of_nat (length blocks)) (set_block (lg_block l') l)
    /\ geom l' /\ log_lists l' blocks /\ quiet s' /\ wrote s s' []
    /\ (forall x, cview s' x = cview s x) /\ (forall x, pins s' x = pins s x) /\ nfree s' = nfree s.
Proof.
  intros [H U P] G Hsz Hf Hl Hmax Hcl. set (h := lg_start l) in *. pose proof (P h) as Ph.
  unfold read_head. rewrite (u32_dev l G), u32_small by (destruct G; lia). fold h.
  destruct (bread_spec pid h s H (U h)) as (b & s1 & -> & H1 & Hh1 & V1 & P1 & N1 & O1 & D1 & T1);
    [lia|by right|]. cbn [mbind outcome_bind]. cbv zeta. rewrite (h_data _ _ _ _ _ Hh1).
  rewrite (proj1 Hl). cbn [set_n lg_n]. rewrite Nat2Z.id.
  destruct (read_blocks_spec (cview s h) blocks (set_n (Z.of_nat (length blocks)) l) (length blocks) 0)
    as (l' & Er & El' & Ht & Hlen); [by destruct G|done|done|done|done|].
  change (Z.of_nat 0) with 0 in Er. rewrite Er. cbn [mbind outcome_bind].
  destruct (brelse_spec pid b h _ s1 H1 Hh1) as (s4 & -> & H4 & V4 & P4 & N4 & O4 & U4 & D4 & T4).
  { right. by rewrite D1. }
  assert (P4' : forall x, pins s4 x = pins s x) by (intros x; rewrite P4, P1; lia).
  exists l', s4. split; [reflexivity|]. split; [exact El'|].
  split; [rewrite El'; destruct G; split; done|].
  split; [split; [by rewrite El'|done]|].
  split; [|split; [|split; [|split; [exact P4'|]]]].
  - split; [done| |intros x; rewrite P4'; apply P].
    eapply others_unlocked; [exact O4|exact U4|]. intros x Hx. apply (ot_unlocked _ _ _ O1); auto.
  - apply (wrote_trans s s1 s4 []); [by apply wrote_nil|]. by eapply wrote_wakeup.
  - intros x. by rewrite V4, V1.
  - assert (E3 : pins s1 h = pins s h + 1) by (rewrite P1, decide_True; done).
    rewrite E3 in N4. repeat case_decide; lia.
Qed.

(** ** The loops *)

(** The contents of block [x] after the writes [ws] over [f]. *)
Definition wview (ws : list (Z * list Z)) (f : Z -> list Z) : Z -> list Z :=
  foldl (fun f w x => if decide (x = w.1) then w.2 else f x) f ws.

Lemma wview_app w1 w2 f x : wview (w1 ++ w2) f x = wview w2 (wview w1 f) x.
Proof. unfold wview. by rewrite foldl_app. Qed.

Lemma wview_ext ws f g : (forall x, f x = g x) -> forall x, wview ws f x = wview ws g x.
Proof.
  revert f g. induction ws as [|w ws IH]; intros f g H x; [apply H|]. simpl. apply IH.
  intros y. case_decide; [done|apply H].
Qed.

Lemma dblock_apply ws D x : dblock (apply_writes ws D) x = wview ws (dblock D) x.
Proof.
  revert D. induction ws as [|w ws IH]; intros D; [done|]. simpl. rewrite IH.
  apply wview_ext. intros y. apply dblock_insert.
Qed.

Lemma wview_out ws f x : x ∉ ws.*1 -> wview ws f x = f x.
Proof.
  revert f. induction ws as [|w ws IH]; intros f Hx; [done|]. simpl.
  rewrite IH by set_solver. rewrite decide_False; [done|set_solver].
Qed.

Lemma wview_in ws f x d :
  (x, d) ∈ ws -> NoDup (ws.*1) -> wview ws f x = d.
Proof.
  revert f. induction ws as [|w ws IH]; intros f Hx Hnd; [by apply elem_of_nil in Hx|].
  simpl in *. apply NoDup_cons in Hnd as [Hw Hnd]. apply elem_of_cons in Hx as [<-|Hx].
  - simpl in *. rewrite wview_out by done. by rewrite decide_True.
  - by apply IH.
Qed.

(** The writes of [write_log] and of [install_trans] for entries [i], [i + 1],
    .. of a transaction whose new contents are [V]. *)
Fixpoint logw (start i : Z) (bs : list Z) (V : Z -> list Z) : list (Z * list Z) :=
  match bs with
  | [] => []
  | b :: bs => (start + i + 1, V b) :: logw start (i + 1) bs V
  end.
Definition homew (bs : list Z) (V : Z -> list Z) : list (Z * list Z) := (fun b => (b, V b)) <$> bs.

Section Loops.
Context (pid : Z) (l : log) (blocks : list Z) (V : Z -> list Z).
Hypothesis G : geom l.
Hypothesis L : log_lists l blocks.
Hypothesis B : blocks_ok l blocks.

#[local] Lemma block_home i b : blocks !! i = Some b -> home l b /\ u32 (lblock l (Z.of_nat i)) = b.
Proof using L B.
  intros Hi. destruct B as [_ Hh _]. rewrite Forall_forall in Hh.
  assert (Hb : home l b) by (apply Hh; by eapply list_elem_of_lookup_2).
  split; [done|]. rewrite (lblock_lists l blocks i b) by done. destruct Hb as [Hb _]. apply u32_small. lia.
Qed.

#[local] Lemma log_block i b : blocks !! i = Some b ->
  u32 (lg_start l + Z.of_nat i + 1) = lg_start l + Z.of_nat i + 1 /\ lg_start l + Z.of_nat i + 1 <> b.
Proof using L B G.
  intros Hi. destruct (block_home i b Hi) as [[_ Hb] _]. apply lookup_lt_Some in Hi.
  destruct B as [[_ Hlen] _ _], G. split; [apply u32_small|]; lia.
Qed.

Lemma write_log_loop_spec k i s :
  (i + k = length blocks)%nat -> quiet s -> (0 < nfree s)%nat ->
  (forall b, b ∈ blocks -> 1 <= pins s b /\ cview s b = V b) ->
  let ws := logw (lg_start l) (Z.of_nat i) (drop i blocks) V in
  exists s', write_log_loop pid k l (Z.of_nat i) s = Ret s' /\ quiet s' /\ wrote s s' ws
    /\ (forall x, cview s' x = wview ws (cview s) x)
    /\ (forall x, pins s' x = pins s x) /\ nfree s' = nfree s.
Proof using L B G.
  revert i s. induction k as [|k IH]; intros i s Hik Q Hf Hb ws; subst ws.
  - rewrite drop_ge by lia. exists s. simpl. split_and!; try done. by apply wrote_nil.
  - destruct (lookup_lt_is_Some_2 blocks i ltac:(lia)) as [b Hi].
    destruct (log_block i b Hi) as [Ea Hab]. destruct (block_home i b Hi) as [Hbh Eb].
    assert (Hbin : b ∈ blocks) by by eapply list_elem_of_lookup_2.
    rewrite (drop_S _ b) by done.
    destruct (copy_to_log pid _ b s Q Hab Hf (proj1 (Hb b Hbin)))
      as (to & s1 & from & s2 & s3 & s4 & s5 & E1 & E2 & E3 & E4 & E5 & Q5 & W5 & V5 & P5 & N5).
    cbn [write_log_loop]. rewrite (u32_dev l G), Ea, Eb, E1. cbn [mbind outcome_bind].
    rewrite E2. cbn [mbind outcome_bind]. rewrite E3. cbn [mbind outcome_bind]. rewrite E4.
    cbn [mbind outcome_bind]. rewrite E5. cbn [mbind outcome_bind].
    replace (Z.of_nat i + 1) with (Z.of_nat (S i)) by lia.
    destruct (IH (S i) s5) as (s' & E & Q' & W' & V' & P' & N'); [lia|done|lia| |].
    { intros c Hc. rewrite P5, V5. split; [by apply Hb|]. unfold view_set. rewrite decide_False; [by apply Hb|].
      apply list_elem_of_lookup in Hc as [j Hj]. intros ->. destruct (block_home _ _ Hj) as [[_ Hn] _].
      apply lookup_lt_Some in Hi. destruct B as [[_ Hlen] _ _]. lia. }
    exists s'. split; [exact E|]. split; [done|]. rewrite (proj2 (Hb b Hbin)) in W5, V5.
    simpl logw. replace (Z.of_nat i + 1) with (Z.of_nat (S i)) by lia. split; [|split; [|split]].
    + exact (wrote_trans _ _ _ [_] _ W5 W').
    + intros x. rewrite V'. simpl. apply wview_ext. intros y. rewrite V5. reflexivity.
    + intros x. by rewrite P'.
    + lia.
Qed.

Lemma install_loop_spec recovering k i s :
  (i + k = length blocks)%nat -> quiet s -> (2 <= nfree s)%nat \/ recovering = 0 /\ (1 <= nfree s)%nat ->
  (forall j b, (i <= j)%nat -> blocks !! j = Some b ->
     (recovering = 0 -> 1 <= pins s b) /\ cview s (lg_start l + Z.of_nat j + 1) = V b
     /\ dblock (bc_disk s) (lg_start l + Z.of_nat j + 1) = V b) ->
  let ws := homew (drop i blocks) V in
  exists s', install_loop pid k recovering l (Z.of_nat i) s = Ret s' /\ quiet s' /\ wrote s s' ws
    /\ (forall x, cview s' x = wview ws (cview s) x)
    /\ (forall x, pins s' x = pins s x - (if recovering =? 0 then if decide (x ∈ drop i blocks) then 1 else 0 else 0))
    /\ (nfree s <= nfree s')%nat
    /\ (recovering = 0 -> (forall b, b ∈ drop i blocks -> pins s b = 1) ->
        nfree s' = (nfree s + length (drop i blocks))%nat).
Proof using L B G.
  revert i s. induction k as [|k IH]; intros i s Hik Q Hf Hb ws; subst ws.
  - rewrite drop_ge by lia. exists s. split; [done|]. split; [done|].
    split; [by apply wrote_nil|]. split; [done|]. split; [|split; [done|simpl; lia]].
    intros x. rewrite decide_False by apply not_elem_of_nil. case_if; lia.
  - destruct (lookup_lt_is_Some_2 blocks i ltac:(lia)) as [b Hi].
    destruct (log_block i b Hi) as [Ea Hab]. destruct (block_home i b Hi) as [Hbh Eb].
    destruct (Hb i b ltac:(lia) Hi) as (Hpin & Hv & Hd).
    rewrite (drop_S _ b) by done.
    destruct (copy_home pid recovering _ b s Q Hab)
      as (lb & s1 & db & s2 & s3 & s5 & s6 & E1 & E2 & E3 & E4 & E5 & Q6 & W6 & V6 & P6 & N6 & C6);
      [by rewrite Hv, Hd|lia|done|destruct Hf as [|[Hr ?]]; [by right|left; by apply Hpin]|].
    cbn [install_loop]. rewrite (u32_dev l G), Ea, Eb, E1. cbn [mbind outcome_bind].
    rewrite E2. cbn [mbind outcome_bind]. rewrite E3. cbn [mbind outcome_bind]. rewrite E4.
    cbn [mbind outcome_bind]. rewrite E5. cbn [mbind outcome_bind].
    replace (Z.of_nat i + 1) with (Z.of_nat (S i)) by lia.
    pose proof (bk_nodup _ _ B) as Hnd.
    destruct (IH (S i) s6) as (s' & E & Q' & W' & V' & P' & N' & C'); [lia|done|lia| |].
    { intros j c Hj Hc. destruct (Hb j c ltac:(lia) Hc) as (Hpj & Hvj & Hdj).
      assert (Hcb : c <> b).
      { intros ->. pose proof (NoDup_lookup _ _ _ _ Hnd Hc Hi). lia. }
      assert (Hlb : lg_start l + Z.of_nat j + 1 <> b).
      { apply lookup_lt_Some in Hc. destruct Hbh as [_ Hbh], B as [[_ Hlen] _ _]. lia. }
      split_and!.
      - intros Hr. rewrite P6, decide_False by done. specialize (Hpj Hr). lia.
      - rewrite V6. unfold view_set. by rewrite decide_False.
      - destruct W6 as (_ & _ & _ & ->). simpl. by rewrite dblock_insert, decide_False. }
    exists s'. split; [exact E|]. split; [done|]. rewrite Hv in W6, V6.
    assert (Hbd : b ∉ drop (S i) blocks).
    { intros Hin. apply list_elem_of_lookup in Hin as [j Hj]. rewrite lookup_drop in Hj.
      pose proof (NoDup_lookup _ _ _ _ Hnd Hj Hi). lia. }
    split; [|split; [|split; [|split]]].
    + exact (wrote_trans _ _ _ [_] _ W6 W').
    + intros x. rewrite V'. simpl. apply wview_ext. intros y. rewrite V6. reflexivity.
    + intros x. rewrite P', P6. destruct (recovering =? 0); [|case_decide; lia].
      destruct (decide (x = b)) as [->|Hx].
      * rewrite decide_False by done. rewrite decide_True by constructor. lia.
      * rewrite (decide_ext (x ∈ b :: drop (S i) blocks) (x ∈ drop (S i) blocks)) by set_solver. lia.
    + lia.
    + intros Hr Hp1. rewrite C'; [|done|].
      * rewrite C6; [simpl; lia|done|]. apply Hp1. constructor.
      * intros c Hc. rewrite P6, decide_False by (intros ->; done). rewrite Hp1 by by apply list_elem_of_further. lia.
Qed.

End Loops.

(** ** commit *)

Lemma home_not_log l blocks x j :
  geom l -> blocks_ok l blocks -> home l x -> (j < length blocks)%nat -> x <> lg_start l + Z.of_nat j + 1.
Proof. intros [] [[_ H] _ _] [_ Hx] Hj. lia. Qed.

Lemma home_not_head l x : 0 < lg_size l -> home l x -> x <> lg_start l.
Proof. intros H [_ Hx]. lia. Qed.

Lemma logw_keys start i bs V x :
  x ∈ (logw start i bs V).*1 -> start + i + 1 <= x < start + i + 1 + Z.of_nat (length bs).
Proof.
  revert i. induction bs as [|b bs IH]; intros i; simpl; [by rewrite elem_of_nil|].
  rewrite elem_of_cons. intros [->|H]; [lia|]. apply IH in H. lia.
Qed.

Lemma logw_nodup start i bs V : NoDup (logw start i bs V).*1.
Proof.
  revert i. induction bs as [|b bs IH]; intros i; simpl; [constructor|].
  apply NoDup_cons. split; [|done]. intros H. apply logw_keys in H. lia.
Qed.

Lemma logw_in start i bs V j b :
  bs !! j = Some b -> (start + i + Z.of_nat j + 1, V b) ∈ logw start i bs V.
Proof.
  revert i j. induction bs as [|c bs IH]; intros i j Hj; [done|]. simpl.
  destruct j as [|j]; simpl in Hj.
  - injection Hj as ->. rewrite Z.add_0_r. constructor.
  - apply list_elem_of_further. replace (start + i + Z.of_nat (S j) + 1) with (start + (i + 1) + Z.of_nat j + 1) by lia.
    by apply IH.
Qed.

Lemma wview_logw start bs V f j b :
  bs !! j = Some b -> wview (logw start 0 bs V) f (start + Z.of_nat j + 1) = V b.
Proof.
  intros H. apply wview_in; [|apply logw_nodup].
  replace (start + Z.of_nat j + 1) with (start + 0 + Z.of_nat j + 1) by lia. by apply logw_in.
Qed.

Lemma wview_homew bs V f x : wview (homew bs V) f x = if decide (x ∈ bs) then V x else f x.
Proof.
  revert f. induction bs as [|b bs IH]; intros f; [done|]. simpl. rewrite IH.
  destruct (decide (x ∈ bs)) as [H|H].
  - rewrite decide_True; [done|by apply list_elem_of_further].
  - destruct (decide (x = b)) as [->|Hne].
    + rewrite decide_True; [done|constructor].
    + rewrite decide_False; [done|]. rewrite elem_of_cons. tauto.
Qed.

(** The writes of a commit. *)
Definition commit_writes (l : log) (blocks : list Z) (V : Z -> list Z) : list (Z * list Z) :=
  let H := enc_head l (V (lg_start l)) in
  logw (lg_start l) 0 blocks V ++ [(lg_start l, H)] ++ homew blocks V
    ++ [(lg_start l, enc_head (set_n 0 l) H)].

Lemma geom_set_n l n : geom l -> geom (set_n n l).
Proof. intros []. by split. Qed.

Lemma commit_spec pid l blocks s :
  quiet s -> geom l -> log_lists l blocks -> blocks_ok l blocks -> blocks <> [] -> (0 < nfree s)%nat ->
  (forall b, b ∈ blocks -> 1 <= pins s b) ->
  exists s', commit pid l s = Ret (set_n 0 l, s') /\ quiet s'
    /\ wrote s s' (commit_writes l blocks (cview s))
    /\ (forall x, cview s' x = wview (commit_writes l blocks (cview s)) (cview s) x)
    /\ (forall x, pins s' x = pins s x - (if decide (x ∈ blocks) then 1 else 0))
    /\ ((forall b, b ∈ blocks -> pins s b = 1) -> nfree s' = (nfree s + length blocks)%nat).
Proof.
  intros Q G L B Hne Hf Hp. set (h := lg_start l). set (V := cview s).
  assert (Hlen : (0 < length blocks)%nat) by (destruct blocks; simpl; [done|lia]).
  pose proof (proj2 (bk_len _ _ B)) as Hsz.
  unfold commit. rewrite (ll_n _ _ L), (proj2 (Z.ltb_lt _ _)) by lia.
  unfold write_log, install_trans. rewrite (ll_n _ _ L), Nat2Z.id.
  destruct (write_log_loop_spec pid l blocks V G L B (length blocks) 0 s) as (s1 & E1 & Q1 & W1 & V1 & P1 & N1);
    [lia|done|done|by split; auto|]. change (Z.of_nat 0) with 0 in E1. rewrite E1. cbn [mbind outcome_bind].
  rewrite drop_0 in W1, V1. change (Z.of_nat 0) with 0 in W1, V1.
  assert (Hh1 : cview s1 h = V h).
  { rewrite V1. apply wview_out. intros Hin. apply logw_keys in Hin. fold h in Hin. lia. }
  destruct (write_head_spec pid l s1 Q1 G) as (s2 & -> & Q2 & W2 & V2 & P2 & N2); [lia|lia|].
  cbn [mbind outcome_bind]. fold h in W2, V2. rewrite Hh1 in W2, V2.
  assert (Hlog : forall j b, blocks !! j = Some b -> cview s2 (h + Z.of_nat j + 1) = V b
    /\ dblock (bc_disk s2) (h + Z.of_nat j + 1) = V b).
  { intros j b Hj. assert (Hnh : h + Z.of_nat j + 1 <> h) by lia. split.
    - rewrite V2. unfold view_set. rewrite decide_False, V1 by done. by apply wview_logw.
    - destruct W2 as (_ & _ & _ & ->), W1 as (_ & _ & _ & ->). simpl.
      rewrite dblock_insert, decide_False, dblock_apply by done. by apply wview_logw. }
  destruct (install_loop_spec pid l blocks V G L B 0 (length blocks) 0 s2) as (s3 & E3 & Q3 & W3 & V3 & P3 & N3 & C3);
    [lia|done|right; split; [done|lia]| |].
  { intros j b _ Hj. split; [|by apply Hlog]. intros _. rewrite P2, P1. apply Hp. by eapply list_elem_of_lookup_2. }
  change (Z.of_nat 0) with 0 in E3. rewrite E3. cbn [mbind outcome_bind]. rewrite drop_0 in W3, V3, P3, C3.
  pose proof (geom_set_n l 0 G) as G0.
  destruct (write_head_spec pid (set_n 0 l) s3 Q3 G0) as (s4 & -> & Q4 & W4 & V4 & P4 & N4); [simpl; lia|lia|].
  cbn [mbind outcome_bind]. cbn [set_n lg_start] in W4, V4. fold h in W4, V4.
  assert (Hhh : forall x, x ∈ blocks -> x <> h).
  { intros x Hx. pose proof (bk_home _ _ B) as HF. rewrite Forall_forall in HF.
    apply (home_not_head l); [lia|by apply HF]. }
  assert (Hh3 : cview s3 h = enc_head l (V h)).
  { rewrite V3, wview_homew, decide_False by (intros Hin; by apply (Hhh h)).
    rewrite V2. unfold view_set. by rewrite decide_True. }
  rewrite Hh3 in W4.
  exists s4. split; [done|]. split; [done|]. split; [|split; [|split]].
  - unfold commit_writes. eapply wrote_trans; [exact W1|]. eapply wrote_trans; [exact W2|].
    eapply wrote_trans; [exact W3|]. exact W4.
  - intros x. unfold commit_writes. fold h V. rewrite !wview_app. rewrite V4. unfold view_set. simpl.
    rewrite Hh3. case_decide; [done|]. rewrite V3. apply wview_ext. intros y. rewrite V2. unfold view_set.
    case_decide; [done|apply V1].
  - intros x. rewrite P4, P3, P2, P1. done.
  - intros Hp1. rewrite N4, C3; [lia|done|]. intros b Hb. rewrite P2, P1. by apply Hp1.
Qed.

(** ** Recovery *)

(** The contents of [x] that recovery of disk [D], whose log lists [blocks],
    should restore. *)
Definition rec_view (l : log) (blocks : list Z) (D : gmap Z (list Z)) (x : Z) : list Z :=
  match list_find (eq x) blocks with
  | Some (j, _) => dblock D (lg_start l + Z.of_nat j + 1)
  | None => dblock D x
  end.

Lemma rec_view_in l blocks D j x :
  NoDup blocks -> blocks !! j = Some x -> rec_view l blocks D x = dblock D (lg_start l + Z.of_nat j + 1).
Proof.
  intros Hnd Hj. unfold rec_view. destruct (list_find (eq x) blocks) as [[k y]|] eqn:E.
  - apply list_find_Some in E as (Hk & <- & _). by rewrite (NoDup_lookup _ _ _ _ Hnd Hk Hj).
  - apply list_find_None in E. rewrite Forall_forall in E. destruct (E x); [by eapply list_elem_of_lookup_2|done].
Qed.

Lemma rec_view_out l blocks D x : x ∉ blocks -> rec_view l blocks D x = dblock D x.
Proof.
  intros H. unfold rec_view. destruct (list_find (eq x) blocks) as [[k y]|] eqn:E; [|done].
  apply list_find_Some in E as (Hk & <- & _). destruct H. by eapply list_elem_of_lookup_2.
Qed.

(** Recovery of [D] should give the home blocks the contents [f]. *)
Record recoverable (l : log) (D : gmap Z (list Z)) (f : Z -> list Z) : Prop := MkRecoverable {
  rv_block : block_ok (dblock D (lg_start l));
  rv_view : exists blocks, head_lists (dblock D (lg_start l)) blocks /\ blocks_ok l blocks
    /\ forall x, home l x -> rec_view l blocks D x = f x
}.

Lemma nil_lists l : log_lists (set_n 0 l) [].
Proof. by split. Qed.

Lemma nil_ok l : 0 < lg_size l -> blocks_ok l [].
Proof. intros H. split; [split; simpl; [unfold LOGSIZE, MAXOPBLOCKS; lia|done]|constructor|constructor]. Qed.

(** The disk while recovery writes: each prefix of the home writes, and the
    cleared header at the end. *)
Lemma rec_prefix l blocks D f V H0 k :
  0 < lg_size l -> geom l -> blocks_ok l blocks -> block_ok (dblock D (lg_start l)) ->
  head_lists (dblock D (lg_start l)) blocks ->
  (forall x, home l x -> rec_view l blocks D x = f x) ->
  (forall j b, blocks !! j = Some b -> V b = dblock D (lg_start l + Z.of_nat j + 1)) ->
  block_ok H0 -> head_lists H0 [] ->
  recoverable l (apply_writes (take k (homew blocks V ++ [(lg_start l, H0)])) D) f.
Proof.
  intros Hsz G B Hb Hh Hf HV Hb0 Hh0. set (h := lg_start l) in *.
  pose proof (bk_home _ _ B) as HF. rewrite Forall_forall in HF.
  assert (Hhb : h ∉ blocks) by (intros Hin; by destruct (home_not_head l h Hsz (HF h Hin))).
  destruct (decide (k <= length (homew blocks V))%nat) as [Hk|Hk].
  - rewrite take_app_le by done. set (D' := apply_writes _ D).
    assert (Hv : forall x, dblock D' x = if decide (x ∈ take k blocks) then V x else dblock D x).
    { intros x. subst D'. rewrite dblock_apply. unfold homew. rewrite <- fmap_take. apply wview_homew. }
    assert (Hout : forall x, x ∉ blocks -> dblock D' x = dblock D x).
    { intros x Hx. rewrite Hv, decide_False; [done|]. intros Hin. apply Hx. by eapply subseteq_take. }
    assert (Hlog : forall j, (j < length blocks)%nat -> dblock D' (h + Z.of_nat j + 1) = dblock D (h + Z.of_nat j + 1)).
    { intros j Hj. apply Hout. intros Hin. by apply (home_not_log l blocks _ j G B (HF _ Hin) Hj). }
    split; [by rewrite Hout|]. exists blocks. rewrite (Hout (lg_start l)) by done. split_and!; try done.
    intros x Hx. rewrite <- Hf by done. destruct (decide (x ∈ blocks)) as [Hin|Hin].
    + apply list_elem_of_lookup in Hin as [j Hj]. pose proof (bk_nodup _ _ B) as Hnd.
      rewrite !(rec_view_in l blocks _ j x Hnd Hj). apply Hlog. by eapply lookup_lt_Some.
    + rewrite !rec_view_out by done. by apply Hout.
  - rewrite take_ge by (rewrite length_app; simpl; lia). set (D' := apply_writes _ D).
    assert (Hv : forall x, dblock D' x = if decide (x = h) then H0 else if decide (x ∈ blocks) then V x else dblock D x).
    { intros x. subst D'. rewrite dblock_apply, wview_app. simpl. case_decide; [done|]. apply wview_homew. }
    assert (Eh : dblock D' (lg_start l) = H0) by (rewrite Hv; by rewrite decide_True).
    split; [by rewrite Eh|]. exists []. rewrite Eh. split_and!; [done|by apply nil_ok|].
    intros x Hx. rewrite rec_view_out by apply not_elem_of_nil. rewrite Hv, decide_False by by apply home_not_head.
    rewrite <- Hf by done. case_decide as Hin; [|by rewrite rec_view_out].
    apply list_elem_of_lookup in Hin as [j Hj]. rewrite (HV j x Hj). symmetry.
    apply rec_view_in; [apply B|done].
Qed.

(** A cache with nothing in use, as after boot. *)
Record clean (s : bst) : Prop := MkClean {
  cl_quiet : quiet s;
  cl_view : forall x, cview s x = dblock (bc_disk s) x;
  cl_free : (2 <= nfree s)%nat
}.

Lemma recover_spec pid l s f :
  0 < lg_size l -> geom l -> clean s -> recoverable l (bc_disk s) f ->
  exists l' s' ws, recover_from_log pid l s = Ret (l', s') /\ lg_n l' = 0 /\ geom l'
    /\ lg_start l' = lg_start l /\ lg_size l' = lg_size l
    /\ clean s' /\ wrote s s' ws
    /\ (forall k, recoverable l (apply_writes (take k ws) (bc_disk s)) f)
    /\ (forall x, home l x -> dblock (bc_disk s') x = f x)
    /\ head_lists (dblock (bc_disk s') (lg_start l)) [].
Proof.
  intros Hsz G [Q Hv Hf] [Rb (blocks & Rh & B & Rv)]. set (h := lg_start l) in *. set (D := bc_disk s) in *.
  pose proof (bk_len _ _ B) as [Hlen Hlen2].
  set (V := fun x => rec_view l blocks D x).
  assert (HV : forall j b, blocks !! j = Some b -> V b = dblock D (h + Z.of_nat j + 1)).
  { intros j b Hj. apply rec_view_in; [apply B|done]. }
  unfold recover_from_log.
  destruct (read_head_spec pid l s blocks Q G) as (l1 & s1 & -> & El1 & G1 & L1 & Q1 & W1 & V1 & P1 & N1);
    [lia|lia|fold h; by rewrite Hv|done|fold h; by rewrite Hv|]. cbn [mbind outcome_bind].
  assert (Est : lg_start l1 = h) by by rewrite El1. assert (Esz : lg_size l1 = lg_size l) by by rewrite El1.
  assert (D1 : bc_disk s1 = D) by by destruct W1 as (_ & _ & _ & ->).
  assert (B1 : blocks_ok l1 blocks).
  { destruct B as [Ba Bb Bc]. split; [by rewrite Esz| |done]. eapply Forall_impl; [exact Bb|].
    intros x. unfold home. by rewrite Est, Esz. }
  unfold install_trans. rewrite (ll_n _ _ L1), Nat2Z.id.
  destruct (install_loop_spec pid l1 blocks V G1 L1 B1 1 (length blocks) 0 s1) as (s2 & E2 & Q2 & W2 & V2 & P2 & N2 & _);
    [lia|done|left; lia| |].
  { intros j b _ Hj. split; [done|]. rewrite V1, Hv, D1, Est. fold D. by rewrite (HV j b Hj). }
  change (Z.of_nat 0) with 0 in E2. rewrite E2. cbn [mbind outcome_bind]. rewrite drop_0 in W2, V2, P2.
  destruct (write_head_spec pid (set_n 0 l1) s2 Q2 (geom_set_n l1 0 G1)) as (s3 & -> & Q3 & W3 & V3 & P3 & N3);
    [simpl; lia|lia|]. cbn [mbind outcome_bind]. cbn [set_n lg_start] in W3, V3. rewrite Est in W3, V3.
  set (H0 := enc_head (set_n 0 l1) (cview s2 h)) in *.
  pose proof (bk_home _ _ B) as HF. rewrite Forall_forall in HF.
  assert (Hhb : h ∉ blocks) by (intros Hin; by destruct (home_not_head l h Hsz (HF h Hin))).
  assert (Hc2 : cview s2 h = dblock D h).
  { rewrite V2, wview_homew, decide_False by done. by rewrite V1, Hv. }
  assert (E0 : block_ok H0 /\ head_lists H0 []).
  { apply enc_head_lists; [by rewrite Hc2|apply nil_lists|]. apply nil_ok. simpl. lia. }
  destruct E0 as [Hb0 Hh0].
  set (ws := homew blocks V ++ [(h, H0)]).
  assert (W : wrote s s3 ws).
  { apply (wrote_trans s s1 s3 [] ws W1). exact (wrote_trans _ _ _ _ _ W2 W3). }
  assert (Hpre : forall k, recoverable l (apply_writes (take k ws) D) f).
  { intros k. by apply rec_prefix. }
  assert (D3 : bc_disk s3 = apply_writes ws D) by by destruct W as (_ & _ & _ & ->).
  exists (set_n 0 l1), s3, ws. do 2 (split; [reflexivity|]). split; [by apply geom_set_n|].
  split; [done|]. split; [done|].
  split; [|split; [done|split; [exact Hpre|]]].
  - split; [done| |lia]. intros x. rewrite V3, D3, dblock_apply. unfold ws. rewrite wview_app. simpl.
    unfold view_set. case_decide; [done|]. rewrite V2. apply wview_ext. intros y. by rewrite V1, Hv.
  - assert (Eh : dblock (bc_disk s3) h = H0).
    { rewrite D3, dblock_apply. unfold ws. rewrite wview_app. simpl. by rewrite decide_True. }
    split; [|by rewrite Eh]. intros x Hx. rewrite D3, dblock_apply. unfold ws. rewrite wview_app. simpl.
    rewrite decide_False by by apply home_not_head. rewrite wview_homew, <- Rv by done.
    case_decide; [done|]. by rewrite rec_view_out.
Qed.

(** ** Crashes *)

Lemma boot_clean D : clean (boot D).
Proof.
  pose proof (fresh_ok _ (boot_ring D) (boot_check D)) as Hok.
  destruct (fresh_abs _ (boot_check D)) as (V & P & U & N).
  split; [split; [exact Hok|exact U|]|exact V|].
  - intros x. rewrite P. lia.
  - rewrite N. unfold NBUF, MAXOPBLOCKS. lia.
Qed.

Lemma wrote_inj s s' w1 w2 : wrote s s' w1 -> wrote s s' w2 -> w1 = w2.
Proof.
  intros (e1 & A1 & <- & _) (e2 & B1 & <- & _). rewrite A1 in B1. by apply app_inv_head in B1 as ->.
Qed.

(** The disks a machine can be left with when it boots from [D] and crashes
    during recovery, any number of times, each time after some of the writes
    of [initlog]. *)
Inductive crash_reboot (pid : Z) (sb : superblock) (D : gmap Z (list Z)) : gmap Z (list Z) -> Prop :=
| no_crash : crash_reboot pid sb D D
| crash_again D1 l' s' ws k :
    crash_reboot pid sb D D1 ->
    initlog pid ROOTDEV sb log0 (boot D1) = Ret (l', s') ->
    wrote (boot D1) s' ws ->
    crash_reboot pid sb D (apply_writes (take k ws) D1).

(** The log as [initlog] finds it. *)
Definition boot_log (l : log) : log := MkLog (lg_start l) (lg_size l) 0 0 ROOTDEV 0 (lg_block log0).

Lemma initlog_boot pid sb l s :
  geom l -> 0 < lg_size l -> sb_logstart sb = lg_start l -> sb_nlog sb = lg_size l ->
  initlog pid ROOTDEV sb log0 s = recover_from_log pid (boot_log l) s /\ geom (boot_log l).
Proof.
  intros [] Hs E1 E2. unfold initlog. rewrite E1, E2, !s32_small by lia. split; [done|]. by split.
Qed.

Lemma recoverable_boot l D f : recoverable l D f <-> recoverable (boot_log l) D f.
Proof.
  split; intros [H1 (bs & H2 & [H3 H4 H5] & H6)]; (split; [exact H1|]; exists bs; split; [exact H2|];
    split; [split; [exact H3| |exact H5]; exact H4|exact H6]).
Qed.

Lemma crash_reboot_recoverable pid sb l D D' f :
  geom l -> 0 < lg_size l -> sb_logstart sb = lg_start l -> sb_nlog sb = lg_size l ->
  recoverable l D f -> crash_reboot pid sb D D' -> recoverable l D' f.
Proof.
  intros G Hs E1 E2 R. induction 1 as [|D1 l' s' ws k _ IH E W]; [done|].
  destruct (initlog_boot pid sb l (boot D1) G Hs E1 E2) as [Ei Gb]. rewrite Ei in E.
  apply recoverable_boot. apply recoverable_boot in IH. rewrite <- (boot_disk D1) in IH.
  destruct (recover_spec pid (boot_log l) (boot D1) f Hs Gb (boot_clean D1) IH)
    as (l2 & s2 & ws2 & Er & _ & _ & _ & _ & _ & W2 & Hp & _).
  rewrite E in Er. injection Er as <- <-. rewrite (wrote_inj _ _ _ _ W W2).
  rewrite boot_disk in Hp. apply Hp.
Qed.

(** After any number of crashes during recovery, [initlog] completes and
    restores [f]. *)
Lemma reboot_spec pid sb l D D' f :
  geom l -> 0 < lg_size l -> sb_logstart sb = lg_start l -> sb_nlog sb = lg_size l ->
  recoverable l D f -> crash_reboot pid sb D D' ->
  exists l2 s2, initlog pid ROOTDEV sb log0 (boot D') = Ret (l2, s2)
    /\ (forall x, home l x -> dblock (bc_disk s2) x = f x).
Proof.
  intros G Hs E1 E2 R Hcr. destruct (initlog_boot pid sb l (boot D') G Hs E1 E2) as [-> Gb].
  pose proof (crash_reboot_recoverable pid sb l _ D' f G Hs E1 E2 R Hcr) as R'.
  apply recoverable_boot in R'. rewrite <- (boot_disk D') in R'.
  destruct (recover_spec pid (boot_log l) (boot D') f Hs Gb (boot_clean D') R')
    as (l2 & s2 & ws2 & Er & _ & _ & _ & _ & _ & _ & _ & Hx & _). exists l2, s2. split; [done|]. exact Hx.
Qed.

(** The home contents after a transaction. *)
Definition new_view (s : bst) (blocks : list Z) (x : Z) : list Z :=
  if decide (x ∈ blocks) then cview s x else dblock (bc_disk s) x.

Lemma commit_prefix l blocks s k :
  0 < lg_size l -> geom l -> log_lists l blocks -> blocks_ok l blocks ->
  cview s (lg_start l) = dblock (bc_disk s) (lg_start l) ->
  block_ok (dblock (bc_disk s) (lg_start l)) -> head_lists (dblock (bc_disk s) (lg_start l)) [] ->
  let D := apply_writes (take k (commit_writes l blocks (cview s))) (bc_disk s) in
  recoverable l D (dblock (bc_disk s)) \/ recoverable l D (new_view s blocks).
Proof.
  intros Hs G L B Hc Hb Hh D. subst D. unfold commit_writes. rewrite Hc.
  set (h := lg_start l) in *. set (V := cview s) in *. set (H := enc_head l (dblock (bc_disk s) h)).
  pose proof (bk_len _ _ B) as [_ Hlen].
  assert (Hkey : forall x, x ∈ (logw h 0 blocks V).*1 -> x <> h /\ ~ home l x).
  { intros x Hx. apply logw_keys in Hx. unfold home. fold h. lia. }
  set (A := logw h 0 blocks V) in *.
  destruct (decide (k <= length A)%nat) as [Hk|Hk].
  - left. rewrite take_app_le by done. set (D := apply_writes _ _).
    assert (Hout : forall x, x ∉ A.*1 -> dblock D x = dblock (bc_disk s) x).
    { intros x Hx. subst D. rewrite dblock_apply. apply wview_out. intros Hin. apply Hx.
      rewrite <- (take_drop k A), fmap_app. apply elem_of_app. by left. }
    assert (Eh : dblock D h = dblock (bc_disk s) h) by (apply Hout; intros Hin; by apply Hkey in Hin as [? _]).
    split; fold h; rewrite Eh; [done|]. exists []. split_and!; [done|by apply nil_ok|].
    intros x Hx. rewrite rec_view_out by apply not_elem_of_nil. apply Hout. intros Hin. by apply Hkey in Hin as [_ ?].
  - right. destruct (enc_head_lists l blocks (dblock (bc_disk s) h) Hb L B) as [HbH HhH]. fold H in HbH, HhH.
    destruct (enc_head_lists (set_n 0 l) [] H HbH (nil_lists l)) as [Hb0 Hh0]; [by apply nil_ok|].
    rewrite app_assoc, take_app_ge by (rewrite length_app; simpl; lia). rewrite apply_writes_app.
    set (D1 := apply_writes (A ++ [(h, H)]) (bc_disk s)).
    assert (Hd1 : forall x, dblock D1 x = if decide (x = h) then H else wview A (dblock (bc_disk s)) x).
    { intros x. subst D1. rewrite dblock_apply, wview_app. done. }
    assert (Eh : dblock D1 h = H) by (rewrite Hd1; by rewrite decide_True).
    assert (HV : forall j b, blocks !! j = Some b -> V b = dblock D1 (h + Z.of_nat j + 1)).
    { intros j b Hj. rewrite Hd1, decide_False by lia. symmetry. by apply wview_logw. }
    apply rec_prefix; try done; try (fold h; by rewrite Eh).
    intros x Hx. unfold new_view. case_decide as Hin.
    + apply list_elem_of_lookup in Hin as [j Hj]. rewrite (rec_view_in _ _ _ j) by (apply B || done).
      symmetry. by apply HV.
    + rewrite rec_view_out, Hd1, decide_False by (done || by apply home_not_head).
      apply wview_out. intros Hin'. by apply Hkey in Hin' as [_ ?].
Qed.

(** When all its writes are done, the transaction is installed. *)
Lemma commit_final l blocks s x :
  0 < lg_size l -> blocks_ok l blocks -> home l x ->
  dblock (apply_writes (commit_writes l blocks (cview s)) (bc_disk s)) x = new_view s blocks x.
Proof.
  intros Hs B Hx. pose proof (bk_len _ _ B) as [_ Hlen]. rewrite dblock_apply. unfold commit_writes, new_view.
  rewrite !wview_app. simpl. rewrite decide_False, wview_homew by by apply home_not_head.
  case_decide; [done|]. rewrite decide_False by by apply home_not_head. apply wview_out.
  intros Hin. apply logw_keys in Hin. destruct Hx as [_ Hx]. lia.
Qed.

(** Commits are atomic and durable.  From a state in which no buffer is
    locked, every logged block is pinned, one buffer is free and the log on
    disk is empty, [commit] returns (it neither panics nor blocks), and if the
    machine stops after any number of its disk writes, and then again during
    any number of recoveries at boot, the next [initlog] completes and leaves
    every block outside the log with either its contents before the
    transaction, for all blocks, or the contents of the transaction, for all
    blocks.  When [commit] completes the new contents are on the disk. *)
Lemma commit_crash_safe pid pid' sb l blocks s :
  quiet s -> geom l -> log_lists l blocks -> blocks_ok l blocks -> blocks <> [] -> (0 < nfree s)%nat ->
  (forall b, b ∈ blocks -> 1 <= pins s b) ->
  cview s (lg_start l) = dblock (bc_disk s) (lg_start l) ->
  block_ok (dblock (bc_disk s) (lg_start l)) -> head_lists (dblock (bc_disk s) (lg_start l)) [] ->
  sb_logstart sb = lg_start l -> sb_nlog sb = lg_size l ->
  exists s' ws, commit pid l s = Ret (set_n 0 l, s') /\ wrote s s' ws
    /\ (forall x, home l x -> dblock (bc_disk s') x = new_view s blocks x)
    /\ forall k D, crash_reboot pid' sb (apply_writes (take k ws) (bc_disk s)) D ->
         exists l2 s2, initlog pid' ROOTDEV sb log0 (boot D) = Ret (l2, s2)
           /\ ((forall x, home l x -> dblock (bc_disk s2) x = dblock (bc_disk s) x)
               \/ (forall x, home l x -> dblock (bc_disk s2) x = new_view s blocks x)).
Proof.
  intros Q G L B Hne Hf Hp Hc Hb Hh E1 E2. pose proof (bk_len _ _ B) as [_ Hlen].
  assert (Hs : 0 < lg_size l) by lia.
  destruct (commit_spec pid l blocks s Q G L B Hne Hf Hp) as (s' & E & Q' & W & V' & _ & _).
  exists s', (commit_writes l blocks (cview s)). split; [done|]. split; [done|]. split.
  - intros x Hx. destruct W as (_ & _ & _ & ->). by apply commit_final.
  - intros k D Hcr. destruct (commit_prefix l blocks s k Hs G L B Hc Hb Hh) as [R|R];
      destruct (reboot_spec pid' sb l _ D _ G Hs E1 E2 R Hcr) as (l2 & s2 & El & Hx);
      exists l2, s2; split; [exact El|by left|exact El|by right].
Qed.

End LogSpec.
