(* ===== verification/LogTxn.v ===== *)
(** * Transactions

    A file-system operation brackets its block updates with [begin_op] and
    [end_op] and passes each modified buffer to [log_write].  This file proves
    that such an operation, run alone, is one atomic update of the disk. *)

From S2P Require Import Prelude Riscv ProcDefs Block Sleeplock Bio BioSpec Log LogSpec.
From stdpp Require Import base list numbers gmap strings sets.
From Stdlib Require Import ZArith Lia.

#[local] Open Scope Z_scope.

Import Block Bio BioSpec Log LogSpec.

Module LogTxn.

(** ** log_write *)

Lemma absorb_spec l blocks bn k i :
  log_lists l blocks -> blocks_ok l blocks -> (i + k = length blocks)%nat -> bn ∉ take i blocks ->
  exists j, absorb k l (Z.of_nat i) bn = Z.of_nat j
    /\ (blocks !! j = Some bn \/ j = length blocks /\ bn ∉ blocks).
Proof.
  intros L B. revert i. induction k as [|k IH]; intros i Hik Hn; simpl.
  - exists i. split; [done|]. right. split; [lia|]. by rewrite take_ge in Hn by lia.
  - destruct (lookup_lt_is_Some_2 blocks i ltac:(lia)) as [x Hx].
    rewrite (lblock_lists l blocks i x L Hx).
    assert (Hh : home l x).
    { pose proof (bk_home _ _ B) as HF. rewrite Forall_forall in HF. apply HF. by eapply list_elem_of_lookup_2. }
    rewrite u32_small by (destruct Hh; lia). destruct (Z.eqb_spec x bn) as [->|Hne].
    + exists i. by split; [|left].
    + replace (Z.of_nat i + 1) with (Z.of_nat (S i)) by lia. apply IH; [lia|].
      rewrite (take_S_r _ _ x Hx), elem_of_app, list_elem_of_singleton. intros [?| ->]; done.
Qed.

(** The blocks of the transaction once [bn] is logged. *)
Definition log_add (blocks : list Z) (bn : Z) : list Z :=
  if decide (bn ∈ blocks) then blocks else blocks ++ [bn].

Lemma log_write_spec l blocks b bn s pid d :
  geom l -> log_lists l blocks -> blocks_ok l blocks -> held s pid b bn d -> home l bn ->
  1 <= lg_outstanding l -> lg_n l < LOGSIZE -> lg_n l < lg_size l - 1 ->
  exists l', log_write b l s = Ret (l', if decide (bn ∈ blocks) then s else bpin b s)
    /\ log_lists l' (log_add blocks bn) /\ blocks_ok l' (log_add blocks bn) /\ geom l'
    /\ lg_outstanding l' = lg_outstanding l /\ lg_committing l' = lg_committing l
    /\ lg_start l' = lg_start l /\ lg_size l' = lg_size l.
Proof.
  intros G L B Hh Hbn Ho Hn1 Hn2. unfold log_write.
  rewrite (proj2 (Z.leb_gt _ _) Hn1), (proj2 (Z.leb_gt _ _) Hn2). simpl orb. cbv iota.
  rewrite (proj2 (Z.ltb_ge _ _)) by lia. rewrite (h_blockno _ _ _ _ _ Hh).
  rewrite (ll_n _ _ L), Nat2Z.id in *. pose proof (gm_array _ G) as Ha. unfold LOGSIZE, MAXOPBLOCKS in *.
  destruct (absorb_spec l blocks bn (length blocks) 0 L B eq_refl) as (j & Ej & Hj); [by apply not_elem_of_nil|].
  change (Z.of_nat 0) with 0 in Ej. rewrite Ej, Nat2Z.id. cbv zeta.
  rewrite s32_small by (destruct Hbn; lia). cbn [set_block lg_n lg_block]. rewrite (ll_n _ _ L).
  unfold log_add. destruct Hj as [Hj|[-> Hn]].
  - assert (Hin : bn ∈ blocks) by by eapply list_elem_of_lookup_2.
    apply lookup_lt_Some in Hj as Hlt. rewrite (proj2 (Z.eqb_neq _ _)) by lia. rewrite !decide_True by done.
    assert (Eid : <[j:=bn]> (lg_block l) = lg_block l).
    { apply list_insert_id. rewrite <- (ll_block _ _ L) in Hj. by apply lookup_take_Some in Hj as [? _]. }
    rewrite Eid. eexists. split; [reflexivity|]. destruct l; simpl in *. split_and!; try done.
    all: by destruct L, B, G.
  - rewrite Z.eqb_refl, !decide_False by done. eexists. split; [reflexivity|].
    split; [|split; [|split; [destruct G; split; simpl; rewrite ?length_insert; done|by split_and!]]].
    + split; simpl; [rewrite length_app; simpl; rewrite ?(ll_n _ _ L); lia|].
      rewrite length_app. simpl. rewrite Nat.add_1_r, (take_S_r _ _ bn) by (apply list_lookup_insert_eq; lia).
      rewrite take_insert_ge by lia. by rewrite (ll_block _ _ L).
    + destruct B as [[B1 B2] B3 B4]. split; simpl.
      * rewrite length_app. simpl. unfold LOGSIZE, MAXOPBLOCKS. lia.
      * apply Forall_app. split; [exact B3|]. by constructor.
      * apply NoDup_app. split_and!; [done| |apply NoDup_singleton].
        intros x Hx ->%list_elem_of_singleton. done.
Qed.

(** ** A file-system operation *)

(** The block updates of an operation: read the block, store into the buffer,
    log it, release it. *)
Fixpoint txn_body (pid : Z) (ws : list (Z * list Z)) (l : log) (s : bst) : outcome (log * bst) :=
  match ws with
  | [] => Ret (l, s)
  | (bn, d) :: ws =>
      '(b, s) ← bread pid ROOTDEV bn s;
      '(l, s) ← log_write b l (upd b (set_data d) s);
      s ← brelse pid b s;
      txn_body pid ws l s
  end.

Definition txn (pid : Z) (ws : list (Z * list Z)) (l : log) (s : bst) : outcome (log * bst) :=
  l ← begin_op l;
  '(l, s) ← txn_body pid ws l s;
  end_op pid l s.

(** Between operations: the log is empty in memory and on disk, and nothing is
    in use. *)
Record log_idle (l : log) (s : bst) : Prop := MkLogIdle {
  li_geom : geom l;
  li_size : 1 < lg_size l;
  li_n : lg_n l = 0;
  li_outstanding : lg_outstanding l = 0;
  li_committing : lg_committing l = 0;
  li_quiet : quiet s;
  li_view : forall x, cview s x = dblock (bc_disk s) x;
  li_pins : forall x, pins s x = 0;
  li_free : nfree s = Z.to_nat NBUF;
  li_head_ok : block_ok (dblock (bc_disk s) (lg_start l));
  li_head : head_lists (dblock (bc_disk s) (lg_start l)) []
}.

(** Within an operation over the disk contents [D]: [blocks] are logged and
    pinned, their new contents are in the cache, the disk is unchanged. *)
Record in_txn (l : log) (s : bst) (D : gmap Z (list Z)) (blocks : list Z) (f : Z -> list Z) : Prop := MkInTxn {
  it_geom : geom l;
  it_lists : log_lists l blocks;
  it_ok : blocks_ok l blocks;
  it_outstanding : lg_outstanding l = 1;
  it_committing : lg_committing l = 0;
  it_quiet : quiet s;
  it_view : forall x, cview s x = f x;
  it_out : forall x, x ∉ blocks -> f x = dblock D x;
  it_disk : bc_disk s = D;
  it_pins : forall x, pins s x = if decide (x ∈ blocks) then 1 else 0;
  it_free : (nfree s + length blocks)%nat = Z.to_nat NBUF
}.

Lemma txn_step pid bn d l s D blocks f :
  in_txn l s D blocks f -> home l bn -> Z.of_nat (length blocks) < MAXOPBLOCKS ->
  Z.of_nat (length blocks) < lg_size l - 1 ->
  exists b s1 l2 s2 s3, bread pid ROOTDEV bn s = Ret (b, s1)
    /\ log_write b l (upd b (set_data d) s1) = Ret (l2, s2) /\ brelse pid b s2 = Ret s3
    /\ in_txn l2 s3 D (log_add blocks bn) (fun x => if decide (x = bn) then d else f x)
    /\ wrote s s3 [] /\ lg_start l2 = lg_start l /\ lg_size l2 = lg_size l.
Proof.
  intros [G L B Ho Hc [H U P] V Vo Di Pi Fr] Hbn Hlen Hsz.
  assert (Hfr : (0 < nfree s)%nat) by (unfold NBUF, MAXOPBLOCKS in *; lia). pose proof (P bn) as Pbn.
  destruct (bread_spec pid bn s H (U bn)) as (b & s1 & E1 & H1 & Hh1 & V1 & P1 & N1 & O1 & D1 & T1); [lia|by right|].
  destruct (set_data_spec pid b bn _ d s1 H1 Hh1) as (H2 & Hh2 & V2 & P2 & N2 & O2).
  set (s1' := upd b (set_data d) s1) in *.
  destruct (log_write_spec l blocks b bn s1' pid d G L B Hh2 Hbn) as (l2 & E2 & L2 & B2 & G2 & Ho2 & Hc2 & Es & Ez);
    [lia|rewrite (ll_n _ _ L); unfold LOGSIZE, MAXOPBLOCKS in *; lia|rewrite (ll_n _ _ L); lia|].
  set (s2 := if decide (bn ∈ blocks) then s1' else bpin b s1') in *.
  assert (Ep : forall x, pins s1' x = pins s x + (if decide (x = bn) then 1 else 0)) by (intros x; by rewrite P2, P1).
  assert (X : bcache_ok s2 /\ held s2 pid b bn d /\ (forall x, cview s2 x = cview s1' x)
    /\ (forall x, pins s2 x = if decide (x = bn) then 2 else pins s x) /\ nfree s2 = nfree s1' /\ others s1' s2 bn
    /\ bc_disk s2 = bc_disk s1' /\ bc_trace s2 = bc_trace s1').
  { subst s2. destruct (decide (bn ∈ blocks)) as [Hin|Hin].
    - split; [exact H2|]. split; [exact Hh2|]. split; [done|]. split; [|split; [done|split; [by split; auto|by split]]].
      intros x. rewrite Ep. destruct (decide (x = bn)) as [->|]; [|lia]. rewrite Pi, decide_True by done. lia.
    - destruct (bpin_spec pid b bn d s1' H2 Hh2) as (X1 & X2 & X3 & X4 & X5 & X6).
      { rewrite Ep, decide_True by done. lia. }
      do 3 (split; [assumption|]). split; [|split; [exact X5|split; [exact X6|by split]]].
      intros x. rewrite X4. destruct (decide (x = bn)) as [->|Hx].
      + rewrite Ep, decide_True, Pi, decide_False by done. lia.
      + rewrite Ep, decide_False by done. lia. }
  clearbody s2. destruct X as (H3 & Hh3 & V3 & P3 & N3 & O3 & D3 & T3).
  destruct (brelse_spec pid b bn d s2 H3 Hh3) as (s3 & E4 & H4 & V4 & P4 & N4 & O4 & U4 & D4 & T4).
  { left. rewrite P3, decide_True by done. lia. }
  assert (Hadd : forall x, x ∈ log_add blocks bn <-> x = bn \/ x ∈ blocks).
  { intros x. unfold log_add. destruct (decide (bn ∈ blocks)); [|rewrite elem_of_app, list_elem_of_singleton; tauto].
    split; [auto|]. by intros [->|?]. }
  assert (P4' : forall x, pins s3 x = if decide (x ∈ log_add blocks bn) then 1 else 0).
  { intros x. rewrite P4, P3. destruct (decide (x = bn)) as [->|Hx].
    - rewrite decide_True; [done|]. apply Hadd. by left.
    - rewrite Pi, (decide_ext (x ∈ log_add blocks bn) (x ∈ blocks)); [lia|]. rewrite Hadd. tauto. }
  exists b, s1, l2, s2, s3. do 3 (split; [assumption|]). split; [|split; [|by split]].
  - split; try assumption; try lia.
    + split; [exact H4| |intros x; rewrite P4'; destruct (decide (x ∈ log_add blocks bn)); lia].
      eapply others_unlocked; [exact O4|exact U4|]. intros x Hx.
      apply (ot_unlocked _ _ _ O3), (ot_unlocked _ _ _ O2), (ot_unlocked _ _ _ O1); auto.
    + intros x. rewrite V4, V3, V2, V1, V. done.
    + intros x Hx. rewrite Hadd in Hx. rewrite decide_False by tauto. apply Vo. tauto.
    + rewrite D4, D3. unfold s1'. simpl. by rewrite D1.
    + assert (Ep2 : pins s2 bn = 2) by (rewrite P3, decide_True; done).
      rewrite Ep2, decide_False in N4 by done. rewrite Pi in N1. unfold log_add.
      destruct (decide (bn ∈ blocks)); [|rewrite length_app; simpl];
        repeat match goal with H : context [decide (?a = ?b)] |- _ => destruct (decide (a = b)) end; lia.
  - apply (wrote_trans s s2 s3 [] []); [|by eapply wrote_wakeup]. apply wrote_nil; [by rewrite T3|].
    rewrite D3. exact D1.
Qed.

Lemma txn_body_spec pid ws l s D blocks f :
  in_txn l s D blocks f -> Forall (home l) ws.*1 ->
  Z.of_nat (length blocks + length ws) <= MAXOPBLOCKS ->
  Z.of_nat (length blocks + length ws) <= lg_size l - 1 ->
  exists l' s' blocks', txn_body pid ws l s = Ret (l', s') /\ in_txn l' s' D blocks' (wview ws f)
    /\ wrote s s' [] /\ lg_start l' = lg_start l /\ lg_size l' = lg_size l
    /\ (length blocks' <= length blocks + length ws)%nat.
Proof.
  revert l s blocks f. induction ws as [|[bn d] ws IH]; intros l s blocks f T Hh Hm Hs; simpl in *.
  - exists l, s, blocks. split_and!; try done; [by apply wrote_nil|lia].
  - apply Forall_cons in Hh as [Hbn Hh].
    destruct (txn_step pid bn d l s D blocks f T Hbn) as (b & s1 & l2 & s2 & s3 & E1 & E2 & E3 & T3 & W3 & Es & Ez);
      [lia|lia|]. rewrite E1. cbn [mbind outcome_bind]. rewrite E2. cbn [mbind outcome_bind]. rewrite E3.
    cbn [mbind outcome_bind].
    assert (Hla : (length (log_add blocks bn) <= S (length blocks))%nat).
    { unfold log_add. case_decide; [lia|]. rewrite length_app. simpl. lia. }
    destruct (IH l2 s3 _ _ T3) as (l' & s' & blocks' & E & T' & W' & Es' & Ez' & Hl'); [|lia|lia|].
    { eapply Forall_impl; [exact Hh|]. intros x. unfold home. by rewrite Es, Ez. }
    exists l', s', blocks'. split; [done|]. split; [exact T'|]. split; [exact (wrote_trans _ _ _ [] [] W3 W')|].
    split_and!; [congruence..|lia].
Qed.

Lemma in_txn_start l s : log_idle l s ->
  in_txn (set_outstanding 1 l) s (bc_disk s) [] (dblock (bc_disk s)).
Proof.
  intros [G Hs Hn Ho Hc Q V P F _ _]. destruct G.
  split; simpl; try done.
  - split; [split; simpl; unfold LOGSIZE, MAXOPBLOCKS; lia|constructor..].
  - rewrite F. unfold NBUF, MAXOPBLOCKS. lia.
Qed.

(** A wakeup changes nothing in the cache. *)
Lemma emit_quiet e s : quiet s -> quiet (emit e s).
Proof. intros [[A1 A2 A3 A4 A5 A6 A7] U P]. split; [split|..]; assumption. Qed.

Lemma emit_view e s : (forall x, cview (emit e s) x = cview s x) /\ (forall x, pins (emit e s) x = pins s x)
  /\ nfree (emit e s) = nfree s.
Proof. by split_and!. Qed.

Lemma wview_point ws f g x : f x = g x -> wview ws f x = wview ws g x.
Proof.
  revert f g. induction ws as [|w ws IH]; intros f g H; [done|]. simpl. apply IH. by case_decide.
Qed.

Lemma wview_commit l blocks V f g x :
  x ∈ blocks -> x <> lg_start l -> wview (commit_writes l blocks V) f x = wview (commit_writes l blocks V) g x.
Proof.
  intros Hx Hh. unfold commit_writes. rewrite !wview_app. simpl. rewrite !decide_False by done.
  by rewrite !wview_homew, !decide_True.
Qed.

(** What [end_op] leaves behind: an idle log whose home blocks are [f], after
    writes every prefix of which recovers to the old disk or to [f]. *)
Definition txn_done (l : log) (s : bst) (D : gmap Z (list Z)) (f : Z -> list Z) (l' : log) (s' : bst) (tr : list (Z * list Z)) : Prop :=
  log_idle l' s' /\ wrote s s' tr /\ lg_start l' = lg_start l /\ lg_size l' = lg_size l
  /\ (forall x, home l x -> dblock (bc_disk s') x = f x)
  /\ forall k, recoverable l (apply_writes (take k tr) D) (dblock D)
             \/ recoverable l (apply_writes (take k tr) D) f.

Section TxnEnd.
Context (pid : Z) (l : log) (s : bst) (D : gmap Z (list Z)) (blocks : list Z) (f : Z -> list Z).
Hypothesis Htxn : in_txn l s D blocks f.
Hypothesis Hsz : 1 < lg_size l.
Hypothesis Hb : block_ok (dblock D (lg_start l)).
Hypothesis Hh : head_lists (dblock D (lg_start l)) [].
Hypothesis Hmax : Z.of_nat (length blocks) <= MAXOPBLOCKS.

Let l1 := set_committing 1 (set_outstanding 0 l).

Lemma head_not_home : lg_start l ∉ blocks.
Proof using Htxn Hsz.
  intros Hin. destruct Htxn as [_ _ B _ _ _ _ _ _ _ _]. destruct (home_not_head l (lg_start l)); [lia| |done].
  pose proof (bk_home _ _ B) as HF. rewrite Forall_forall in HF. by apply HF.
Qed.

(** Nothing was logged: [commit] does no work. *)
Lemma txn_end_empty : blocks = [] ->
  commit pid l1 s = Ret (l1, s) /\ txn_done l s D f (set_committing 0 l1) (emit (EvWakeup log_chan) s) [].
Proof using All.
  intros E0. destruct Htxn as [G L B Ho Hc Q V Vo Di Pi Fr]. rewrite E0 in *.
  pose proof (ll_n _ _ L) as Hn. simpl length in Hn.
  split; [unfold commit; simpl lg_n; by rewrite Hn|].
  destruct (emit_view (EvWakeup log_chan) s) as (Ev & Ep & En).
  split; [|split; [by apply (wrote_wakeup _ _ log_chan)|split; [done|split; [done|split]]]].
  - split; try done; try (simpl; by rewrite Di).
    + by destruct G.
    + by apply emit_quiet.
    + intros x. rewrite Ev, V. simpl. rewrite Di. apply Vo, not_elem_of_nil.
    + rewrite En, <- Fr. simpl. lia.
  - intros x _. simpl. rewrite Di. symmetry. apply Vo, not_elem_of_nil.
  - intros k. left. rewrite take_nil. split; [done|]. exists []. split; [done|]. split; [done|].
    intros x _. by rewrite rec_view_out by apply not_elem_of_nil.
Qed.

(** The disk after the commit: it agrees with the cache, and its header is empty. *)
Lemma commit_disk s' :
  wrote s s' (commit_writes l1 blocks (cview s)) ->
  (forall x, cview s' x = wview (commit_writes l1 blocks (cview s)) (cview s) x) ->
  (forall x, cview s' x = dblock (bc_disk s') x)
  /\ block_ok (dblock (bc_disk s') (lg_start l)) /\ head_lists (dblock (bc_disk s') (lg_start l)) [].
Proof using All.
  intros W V'. pose proof head_not_home as Hhb. destruct Htxn as [G L B Ho Hc Q V Vo Di Pi Fr].
  assert (D' : bc_disk s' = apply_writes (commit_writes l1 blocks (cview s)) (bc_disk s))
    by by destruct W as (_ & _ & _ & ->).
  split.
  - intros x. rewrite V', D', dblock_apply. destruct (decide (x ∈ blocks)) as [Hx|Hx].
    + apply wview_commit; [done|]. intros ->. done.
    + apply wview_point. rewrite V, Di. by apply Vo.
  - rewrite D', dblock_apply. unfold commit_writes. rewrite !wview_app. simpl. rewrite decide_True by done.
    rewrite V, Vo by done.
    destruct (enc_head_lists l1 blocks (dblock D (lg_start l)) Hb) as [Hb1 _]; [by destruct L|by destruct B|].
    apply enc_head_lists; [done|apply nil_lists|]. apply nil_ok. simpl. lia.
Qed.

Lemma txn_end_commit : blocks <> [] ->
  exists s', commit pid l1 s = Ret (set_n 0 l1, s')
    /\ txn_done l s D f (set_committing 0 (set_n 0 l1)) (emit (EvWakeup log_chan) s') (commit_writes l1 blocks (cview s)).
Proof using All.
  intros Hne. pose proof head_not_home as Hhb. pose proof commit_disk as HD.
  destruct Htxn as [G L B Ho Hc Q V Vo Di Pi Fr].
  assert (G1 : geom l1) by by destruct G. assert (L1 : log_lists l1 blocks) by by destruct L.
  assert (B1 : blocks_ok l1 blocks) by by destruct B.
  destruct (commit_spec pid l1 blocks s Q G1 L1 B1 Hne) as (s' & E & Q' & W & V' & P' & N').
  { unfold NBUF, MAXOPBLOCKS in *. lia. }
  { intros b Hb'. rewrite Pi, decide_True by done. lia. }
  destruct (HD s' W V') as [Hidle Eh']. clear HD.
  assert (Hnew : forall x, new_view s blocks x = f x).
  { intros x. unfold new_view. case_decide; [apply V|]. rewrite Di. symmetry. by apply Vo. }
  destruct (emit_view (EvWakeup log_chan) s') as (Ev & Ep & En).
  exists s'. split; [exact E|]. split; [|split; [|split; [done|split; [done|split]]]].
  - split; try done; try (apply Eh').
    + by destruct G.
    + by apply emit_quiet.
    + intros x. rewrite Ep, P', Pi. case_decide; lia.
    + rewrite En, N'; [lia|]. intros b Hb'. by rewrite Pi, decide_True.
  - rewrite <- (app_nil_r (commit_writes _ _ _)). apply (wrote_trans s s'); [exact W|].
    by apply (wrote_wakeup _ _ log_chan).
  - intros x Hx. simpl. destruct W as (_ & _ & _ & ->). rewrite commit_final; [apply Hnew|simpl; lia|done|done].
  - intros k. destruct (commit_prefix l1 blocks s k ltac:(simpl; lia) G1 L1 B1
      ltac:(rewrite V, Di; by apply Vo) ltac:(by rewrite Di) ltac:(by rewrite Di)) as [R|R]; [left|right];
      rewrite Di in R; apply (recoverable_boot l1) in R; apply recoverable_boot; [done|].
    destruct R as [R1 (bs & R2 & R3 & R4)]. split; [exact R1|]. exists bs.
    split; [exact R2|]. split; [exact R3|]. intros x Hx. rewrite <- Hnew. by apply R4.
Qed.

(** The end of the operation: the commit, seen from the state before it. *)
Lemma txn_end : exists l' s' tr, end_op pid l s = Ret (l', s') /\ txn_done l s D f l' s' tr.
Proof using All.
  destruct Htxn as [_ _ _ Ho Hc _ _ _ _ _ _].
  unfold end_op, end_op_dec. cbn [set_outstanding lg_committing lg_outstanding]. rewrite Hc, Ho.
  change (nz 0) with false. change (1 - 1 =? 0) with true. cbv iota. cbn [mbind outcome_bind]. cbv iota.
  change (set_outstanding (1 - 1) l) with (set_outstanding 0 l). fold l1.
  destruct (decide (blocks = [])) as [He|Hne].
  - destruct (txn_end_empty He) as [E T]. rewrite E. by do 4 econstructor.
  - destruct (txn_end_commit Hne) as (s' & E & T). rewrite E. by do 4 econstructor.
Qed.

End TxnEnd.

(** (C1) A file-system operation is one atomic, durable update.  Between
    operations ([log_idle]), an operation that updates at most [MAXOPBLOCKS]
    blocks outside the log, in any order and with repetitions, runs to
    completion and leaves the system between operations again, with exactly its
    updates applied to the disk; and if the machine stops after any number of
    the disk writes made on the way, and again during any number of recoveries,
    the next [initlog] completes and leaves all blocks outside the log as they
    were before the operation, or all as they are after it. *)
Theorem txn_atomic pid pid' sb l s ws :
  log_idle l s -> Forall (home l) ws.*1 -> Z.of_nat (length ws) <= MAXOPBLOCKS ->
  Z.of_nat (length ws) < lg_size l ->
  sb_logstart sb = lg_start l -> sb_nlog sb = lg_size l ->
  exists l' s' tr, txn pid ws l s = Ret (l', s') /\ log_idle l' s' /\ wrote s s' tr
    /\ (forall x, home l x -> dblock (bc_disk s') x = wview ws (dblock (bc_disk s)) x)
    /\ forall k D, crash_reboot pid' sb (apply_writes (take k tr) (bc_disk s)) D ->
         exists l2 s2, initlog pid' ROOTDEV sb log0 (boot D) = Ret (l2, s2)
           /\ ((forall x, home l x -> dblock (bc_disk s2) x = dblock (bc_disk s) x)
               \/ (forall x, home l x -> dblock (bc_disk s2) x = wview ws (dblock (bc_disk s)) x)).
Proof.
  intros Hi Hh Hm Hs E1 E2. pose proof (in_txn_start l s Hi) as T0.
  destruct Hi as [G Hsz Hn Ho Hc Q V P F Hb Hd].
  unfold txn, begin_op. rewrite Hc, Hn, Ho. change (nz 0) with false. cbv iota.
  change (LOGSIZE <? 0 + (0 + 1) * MAXOPBLOCKS) with false. cbv iota. cbn [mbind outcome_bind].
  destruct (txn_body_spec pid ws (set_outstanding (0 + 1) l) s _ [] _ T0 Hh)
    as (l1 & s1 & blocks & -> & T1 & W1 & Es & Ez & Hl); [simpl; lia|simpl; lia|]. cbn [mbind outcome_bind].
  cbn [set_outstanding lg_start lg_size] in Es, Ez.
  destruct (txn_end pid l1 s1 _ blocks _ T1) as (l' & s' & tr & -> & Hi' & W' & Es' & Ez' & Hx & Hr);
    [lia|by rewrite Es..|simpl in Hl; lia|].
  assert (Hhome : forall x, home l1 x <-> home l x) by (intros x; unfold home; by rewrite Es, Ez).
  exists l', s', tr. split; [reflexivity|]. split; [done|]. split; [exact (wrote_trans _ _ _ [] _ W1 W')|].
  split; [intros x Hx'; by apply Hx, Hhome|]. intros k D Hcr.
  pose proof (it_geom _ _ _ _ _ T1) as G1.
  destruct (Hr k) as [R|R];
    destruct (reboot_spec pid' sb l1 _ D _ G1 ltac:(lia) ltac:(congruence) ltac:(congruence) R Hcr)
      as (l2 & s2 & El & Hv); exists l2, s2; (split; [exact El|]); [left|right];
    intros x Hx'; by apply Hv, Hhome.
Qed.

(** ** Concrete instances *)

(** A fresh disk with a log of 30 blocks from block 2. *)
Definition demo_log : log := MkLog 2 30 0 0 ROOTDEV 0 (replicate (Z.to_nat LOGSIZE) 0).
Definition demo_sb : superblock := MkSuperblock 0 0 0 0 30 2 32 45.

Lemma demo_log_idle : log_idle demo_log (boot ∅).
Proof.
  pose proof (boot_clean ∅) as [Q V _]. destruct (fresh_abs _ (boot_check ∅)) as (_ & P & _ & N).
  pose proof (boot_disk ∅) as D.
  split; [by split|reflexivity..| | | | | |].
  - exact Q.
  - exact V.
  - exact P.
  - exact N.
  - rewrite D. apply zero_block_ok.
  - rewrite D. split; [reflexivity|]. intros i x Hi. by rewrite lookup_nil in Hi.
Qed.

Lemma demo_home x : 32 <= x < 2 ^ 31 -> home demo_log x.
Proof. intros H. unfold home. simpl. lia. Qed.

Lemma txn_atomic_witness :
  exists l' s' tr, txn 1 [(50, zero_block); (60, zero_block)] demo_log (boot ∅) = Ret (l', s')
    /\ log_idle l' s' /\ wrote (boot ∅) s' tr.
Proof.
  destruct (txn_atomic 1 2 demo_sb demo_log (boot ∅) [(50, zero_block); (60, zero_block)] demo_log_idle)
    as (l' & s' & tr & E & Hi & W & _).
  - simpl. constructor; [apply demo_home; lia|]. constructor; [apply demo_home; lia|constructor].
  - simpl. unfold MAXOPBLOCKS. lia.
  - simpl. lia.
  - reflexivity.
  - reflexivity.
  - exists l', s', tr. split; [exact E|]. split; [exact Hi|exact W].
Defined.

End LogTxn.
