(* ===== verification/LogSpace.v ===== *)
(** * Log space reservation

    [begin_op] admits an operation only if the log can hold [MAXOPBLOCKS] more
    blocks for every admitted operation.  The steps below interleave the log
    operations of any number of processes; [ops] records, for each operation
    between its [begin_op] and its [end_op], how many times it called
    [log_write]. *)

From S2P Require Import Prelude Riscv ProcDefs Block Sleeplock Bio Log.
From stdpp Require Import base list numbers gmap strings relations.
From Stdlib Require Import ZArith Lia.

#[local] Open Scope Z_scope.

Import Bio Log.

Module LogSpace.

Inductive lstep : log * list Z -> log * list Z -> Prop :=
| step_begin l l' ops :
    begin_op l = Ret l' -> lstep (l, ops) (l', ops ++ [0])
| step_write b l l' s s' ops i c :
    ops !! i = Some c -> c < MAXOPBLOCKS -> log_write b l s = Ret (l', s') ->
    lstep (l, ops) (l', <[i := c + 1]> ops)
| step_end l l' s s' ops i :
    (i < length ops)%nat -> end_op_dec l s = Ret (false, l', s') -> lstep (l, ops) (l', delete i ops)
| step_last l l' s s' ops i :
    (i < length ops)%nat -> end_op_dec l s = Ret (true, l', s') -> lstep (l, ops) (l', delete i ops)
| step_committed l ops :
    lg_committing l = 1 -> lstep (l, ops) (set_committing 0 (set_n 0 l), ops).

Fixpoint reserved (ops : list Z) : Z :=
  match ops with
  | [] => 0
  | c :: ops => (MAXOPBLOCKS - c) + reserved ops
  end.

Record space_ok (l : log) (ops : list Z) : Prop := MkSpaceOk {
  so_ops : Forall (fun c => 0 <= c <= MAXOPBLOCKS) ops;
  so_outstanding : lg_outstanding l = Z.of_nat (length ops);
  so_space : lg_n l + reserved ops <= LOGSIZE;
  so_commit : lg_committing l = 0 \/ lg_committing l = 1 /\ ops = []
}.

Lemma reserved_app a b : reserved (a ++ b) = reserved a + reserved b.
Proof. induction a as [|c a IH]; simpl; lia. Qed.

Lemma reserved_bound ops :
  Forall (fun c => 0 <= c <= MAXOPBLOCKS) ops -> 0 <= reserved ops <= Z.of_nat (length ops) * MAXOPBLOCKS.
Proof. induction 1 as [|c ops Hc _ IH]; simpl reserved; simpl length; unfold MAXOPBLOCKS in *; lia. Qed.

Lemma reserved_insert ops i c c' :
  ops !! i = Some c -> reserved (<[i := c']> ops) = reserved ops + c - c'.
Proof.
  revert i. induction ops as [|x ops IH]; intros [|i] H; simpl in *; try done.
  - injection H as ->. lia.
  - rewrite (IH i) by done. lia.
Qed.

Lemma reserved_delete ops i c :
  ops !! i = Some c -> reserved (delete i ops) = reserved ops - (MAXOPBLOCKS - c).
Proof.
  revert i. induction ops as [|x ops IH]; intros [|i] H; simpl in *; try done.
  - injection H as ->. lia.
  - rewrite (IH i) by done. lia.
Qed.

Lemma log_write_fields b l s l' s' :
  log_write b l s = Ret (l', s') ->
  lg_n l <= lg_n l' <= lg_n l + 1 /\ lg_outstanding l' = lg_outstanding l
  /\ lg_committing l' = lg_committing l /\ lg_size l' = lg_size l.
Proof.
  unfold log_write. case_if; [done|]. case_if; [done|].
  destruct (_ =? _); intros [= <- <-]; simpl; split_and!; (done || lia).
Qed.

Lemma end_op_dec_fields l s r l' s' :
  end_op_dec l s = Ret (r, l', s') ->
  lg_n l' = lg_n l /\ lg_outstanding l' = lg_outstanding l - 1 /\ lg_committing l = 0
  /\ lg_committing l' = (if r then 1 else 0) /\ (r = true <-> lg_outstanding l' = 0)
  /\ lg_size l' = lg_size l.
Proof.
  unfold end_op_dec. cbv zeta. simpl. destruct (nz (lg_committing l)) eqn:Ec; [done|].
  apply nz_false in Ec. destruct (Z.eqb_spec (lg_outstanding l - 1) 0) as [E|E]; intros [= <- <- <-]; simpl;
    split_and!; try done.
Qed.

Lemma end_space l ops i r l' s s' :
  space_ok l ops -> (i < length ops)%nat -> end_op_dec l s = Ret (r, l', s') -> space_ok l' (delete i ops).
Proof.
  intros [Ho Hn Hs Hc] Hi E. destruct (end_op_dec_fields _ _ _ _ _ E) as (E1 & E2 & E3 & E4 & E5 & _).
  destruct (lookup_lt_is_Some_2 ops i Hi) as [c Hci].
  pose proof (Forall_lookup_1 _ _ _ _ Ho Hci) as Hcb. simpl in Hcb.
  assert (Hl : length (delete i ops) = (length ops - 1)%nat) by (by apply length_delete).
  split.
  - by apply Forall_delete.
  - rewrite E2, Hn, Hl. lia.
  - rewrite E1, (reserved_delete _ _ c) by done. lia.
  - destruct r; [right|by left]. split; [done|]. apply length_zero_iff_nil.
    assert (lg_outstanding l' = 0) by by apply E5. lia.
Qed.

Lemma lstep_space c c' : lstep c c' -> space_ok c.1 c.2 -> space_ok c'.1 c'.2 /\ lg_size c'.1 = lg_size c.1.
Proof.
  destruct 1 as [l l' ops E|b l l' s s' ops i c Hi Hc E|l l' s s' ops i Hi E|l l' s s' ops i Hi E|l ops Hcm];
    simpl; intros H.
  - destruct H as [Ho Hn Hs Hc]. unfold begin_op in E. destruct (nz (lg_committing l)) eqn:Ec; [done|].
    apply nz_false in Ec. destruct (Z.ltb_spec LOGSIZE (lg_n l + (lg_outstanding l + 1) * MAXOPBLOCKS)); [done|].
    injection E as <-. split; [|done]. pose proof (reserved_bound ops Ho) as Hr. split; simpl.
    + apply Forall_app. split; [done|]. constructor; [unfold MAXOPBLOCKS; lia|constructor].
    + rewrite length_app. simpl. lia.
    + rewrite reserved_app. simpl. unfold MAXOPBLOCKS in *. lia.
    + by left.
  - destruct (log_write_fields _ _ _ _ _ E) as (Hn' & Ho' & Hc' & Hz').
    destruct H as [Ho Hn Hs Hcm]. split; [|done]. pose proof (Forall_lookup_1 _ _ _ _ Ho Hi) as Hcb. simpl in Hcb.
    split; simpl.
    + apply Forall_insert; [done|lia].
    + rewrite length_insert. lia.
    + rewrite (reserved_insert _ _ c) by done. lia.
    + rewrite Hc'. destruct Hcm as [?|[? ->]]; [by left|done].
  - split; [by eapply end_space|]. by destruct (end_op_dec_fields _ _ _ _ _ E) as (_ & _ & _ & _ & _ & ?).
  - split; [by eapply end_space|]. by destruct (end_op_dec_fields _ _ _ _ _ E) as (_ & _ & _ & _ & _ & ?).
  - destruct H as [Ho Hn Hs Hc]. split; [|done]. destruct Hc as [?|[_ ->]]; [congruence|].
    split; simpl; [constructor|done|done|by left].
Qed.

(** (C19) What [begin_op] guarantees of the log: in every interleaving of [begin_op],
    [log_write], [end_op] and commits, starting from an empty log on an area of
    any size, the header and the reservations fit [LOGSIZE] and a commit runs
    only while no operation is outstanding; an operation that has logged fewer
    than [MAXOPBLOCKS] blocks calls [log_write] with at most [LOGSIZE] - 1
    blocks in the log, and the call returns if the area has a block for the
    header and one for each block logged so far and this one, and panics
    otherwise.  So it never panics on an area of more than [LOGSIZE] blocks;
    [begin_op] itself does not look at the size of the area. *)
Theorem log_space_reserved l0 l ops :
  lg_n l0 = 0 -> lg_outstanding l0 = 0 -> lg_committing l0 = 0 -> rtc lstep (l0, []) (l, ops) ->
  lg_n l + reserved ops <= LOGSIZE
  /\ (lg_committing l <> 0 -> ops = [])
  /\ forall i c b s, ops !! i = Some c -> c < MAXOPBLOCKS ->
       lg_n l < LOGSIZE
       /\ (if lg_n l + 1 <? lg_size l0 then exists l' s', log_write b l s = Ret (l', s')
           else log_write b l s = Panic "too big a transaction").
Proof.
  intros Hn Ho Hc Hr.
  assert (Inv : forall p q, rtc lstep p q -> space_ok p.1 p.2 -> space_ok q.1 q.2 /\ lg_size q.1 = lg_size p.1).
  { induction 1 as [|p q r Hpq _ IH]; intros Hp; [done|].
    destruct (lstep_space _ _ Hpq Hp) as [Hq Eq]. destruct (IH Hq) as [Hr' Er]. split; [done|congruence]. }
  destruct (Inv _ _ Hr) as [[Ho' Hn' Hs' Hc'] Ez].
  { split; simpl; [constructor|done| |by left]. rewrite Hn. unfold LOGSIZE, MAXOPBLOCKS. lia. }
  simpl in *. split; [done|]. split; [destruct Hc' as [->|[_ ->]]; done|].
  intros i c b s Hi Hcm. pose proof (Forall_delete (fun c => 0 <= c <= MAXOPBLOCKS) ops i Ho') as Hd.
  pose proof (reserved_delete ops i c Hi) as Hrd. pose proof (reserved_bound _ Hd) as Hrb.
  apply lookup_lt_Some in Hi. split; [lia|]. rewrite <- Ez. unfold log_write.
  rewrite (proj2 (Z.leb_gt LOGSIZE _)) by lia. cbn [orb]. destruct (Z.ltb_spec (lg_n l + 1) (lg_size l)) as [Hlt|Hge].
  - rewrite (proj2 (Z.leb_gt _ _)), (proj2 (Z.ltb_ge _ _)) by lia. destruct (_ =? _); eauto.
  - by rewrite (proj2 (Z.leb_le _ _)) by lia.
Qed.

(** An empty log on an area of [size] blocks. *)
Definition demo_space (size : Z) : log := MkLog 2 size 0 0 ROOTDEV 0 (replicate (Z.to_nat LOGSIZE) 0).

Lemma log_space_reserved_witness :
  exists l' s', log_write 0 (set_outstanding 1 (demo_space 31)) (MkBst ∅ ∅ []) = Ret (l', s').
Proof.
  destruct (log_space_reserved (demo_space 31) (set_outstanding 1 (demo_space 31)) [0]) as (_ & _ & H).
  - reflexivity.
  - reflexivity.
  - reflexivity.
  - eapply rtc_l; [apply step_begin; reflexivity|]. apply rtc_refl.
  - apply (H 0%nat 0); reflexivity.
Defined.

(** Buffers 0 to 29 with different blocks. *)
Definition demo_bufs : bst :=
  MkBst (list_to_map (map (fun i => (i, MkBuf 1 ROOTDEV (i + 50) initsleeplock 1 0 0 [])) (seqZ 0 30))) ∅ [].

(** Logging the blocks of the buffers [bs], each for the operation that is next
    in turn. *)
Fixpoint log_all (bs : list Z) (l : log) (ops : list Z) : option (log * list Z) :=
  match bs with
  | [] => Some (l, ops)
  | b :: bs =>
      let o := Z.to_nat (b / MAXOPBLOCKS) in
      match ops !! o, log_write b l demo_bufs with
      | Some c, Ret (l', _) => if c <? MAXOPBLOCKS then log_all bs l' (<[o := c + 1]> ops) else None
      | _, _ => None
      end
  end.

Lemma log_all_steps bs l ops st : log_all bs l ops = Some st -> rtc lstep (l, ops) st.
Proof.
  revert l ops. induction bs as [|b bs IH]; intros l ops; cbn [log_all]; [intros [= <-]; apply rtc_refl|].
  destruct (ops !! _) as [c|] eqn:Eo; [|done]. destruct (log_write b l demo_bufs) as [[l' s']| | |] eqn:Ew; [|done..].
  case_if; [|done]. intros H. eapply rtc_l; [eapply step_write; [exact Eo|lia|exact Ew]|by apply IH].
Qed.

(** The area must be larger than [LOGSIZE]: on one of exactly [LOGSIZE] blocks,
    three admitted operations that log different blocks reach a state in which
    an operation that has logged nine blocks panics at its tenth. *)
Theorem log_area_too_small :
  exists l, rtc lstep (demo_space LOGSIZE, []) (l, [10; 10; 9]) /\ log_write 29 l demo_bufs = Panic "too big a transaction".
Proof.
  destruct (log_all (seqZ 0 29) (set_outstanding 3 (demo_space LOGSIZE)) [0; 0; 0]) as [[l ops]|] eqn:E; [|vm_compute in E; discriminate E].
  exists l. split.
  - assert (ops = [10; 10; 9]) as -> by (vm_compute in E; injection E as _ <-; reflexivity).
    eapply rtc_l; [apply step_begin; reflexivity|]. eapply rtc_l; [apply step_begin; reflexivity|].
    eapply rtc_l; [apply step_begin; reflexivity|]. by apply log_all_steps in E.
  - vm_compute in E. injection E as <- _. vm_compute. reflexivity.
Qed.

End LogSpace.
