(* ===== verification/BlockIO.v ===== *)
(** * Blocks inside a transaction, as the file system sees them

    fs.c reads and writes the disk only through [bread], [brelse], the [data]
    of the buffers it holds, and [log_write].  [BlockIO] is that interface; the
    buffer cache and the log are its implementation in the kernel
    ([kernel_block_io]).  Sleep locks of inodes wake their waiters through
    [blk_wakeup].  [pid] is [myproc()->pid], the holder of the buffers' sleep
    locks. *)

From S2P Require Import Prelude Riscv ProcDefs Block Bio Log.
From stdpp Require Import base list numbers gmap.
From Stdlib Require Import ZArith Lia.

#[local] Open Scope Z_scope.

Class BlockIO (T : Type) : Type := {
  blk_bread : Z -> Z -> Z -> T -> outcome (Z * T);
  blk_brelse : Z -> Z -> T -> outcome T;
  blk_data : T -> Z -> list Z;
  blk_store : Z -> list Z -> T -> T;
  blk_log_write : Z -> T -> outcome T;
  blk_begin_op : T -> outcome T;
  blk_end_op : Z -> T -> outcome T;
  blk_initlog : Z -> Z -> superblock -> T -> outcome T;
  blk_wakeup : chan -> T -> T
}.

(** The log and the buffer cache. *)
#[export] Instance kernel_block_io : BlockIO (log * bst) := {
  blk_bread pid dev bn t := '(b, s) ← Bio.bread pid dev bn t.2; Ret (b, (t.1, s));
  blk_brelse pid b t := s ← Bio.brelse pid b t.2; Ret (t.1, s);
  blk_data t b := b_data (bf t.2 b);
  blk_store b d t := (t.1, upd b (set_data d) t.2);
  blk_log_write b t := Log.log_write b t.1 t.2;
  blk_begin_op t := l ← Log.begin_op t.1; Ret (l, t.2);
  blk_end_op pid t := Log.end_op pid t.1 t.2;
  blk_initlog pid dev sb t := Log.initlog pid dev sb t.1 t.2;
  blk_wakeup c t := (t.1, emit (EvWakeup c) t.2)
}.

(** The modification of a held buffer by [f]. *)
Definition blk_modify `{BlockIO T} (b : Z) (f : list Z -> list Z) (t : T) : T :=
  blk_store b (f (blk_data t b)) t.
