(* ===== verification/BlockTx.v ===== *)
(** * The contract of the block layer inside a transaction

    [BlockTx] is what fs.c relies on between [begin_op] and [end_op]: the
    blocks have logical contents [V]; the operation holds the buffers [Hd]
    (pairs of a buffer and its block, last taken first); it has logged the
    blocks [B].  [KernelTx] proves the contract of the log and buffer cache. *)

From S2P Require Import Prelude Riscv ProcDefs Block Sleeplock Bio BioSpec Log LogSpec LogTxn BlockIO.
From stdpp Require Import base list numbers gmap strings sets.
From Stdlib Require Import ZArith Lia.

#[local] Open Scope Z_scope.

Import Block.

(** The contents after block [bn] is set to [d]. *)
Definition vset (V : Z -> list Z) (bn : Z) (d : list Z) : Z -> list Z :=
  fun x => if decide (x = bn) then d else V x.

(** How many buffers an operation may hold at a time. *)
Definition MAXHELD : nat := 10.

Class BlockTx (T : Type) `{BlockIO T} : Type := {
  tx_ctx : Type;
  tx_home : tx_ctx -> Z -> Prop;
  tx : Z -> tx_ctx -> T -> (Z -> list Z) -> list (Z * Z) -> gset Z -> Prop;
  tx_proper pid c t V V' Hd B : tx pid c t V Hd B -> (forall x, V x = V' x) -> tx pid c t V' Hd B;
  tx_data pid c t V Hd B b bn : tx pid c t V Hd B -> (b, bn) ∈ Hd -> blk_data t b = V bn;
  tx_bread pid c t V Hd B bn :
    tx pid c t V Hd B -> bn ∉ Hd.*2 -> (length Hd < MAXHELD)%nat ->
    exists b t', blk_bread pid ROOTDEV bn t = Ret (b, t') /\ tx pid c t' V ((b, bn) :: Hd) B;
  tx_brelse pid c t V Hd B b bn :
    tx pid c t V ((b, bn) :: Hd) B -> exists t', blk_brelse pid b t = Ret t' /\ tx pid c t' V Hd B;
  tx_log_write pid c t V Hd B b bn d :
    tx pid c t V Hd B -> (b, bn) ∈ Hd -> tx_home c bn -> Z.of_nat (size (B ∪ {[bn]})) <= MAXOPBLOCKS ->
    exists t', blk_log_write b (blk_store b d t) = Ret t' /\ tx pid c t' (vset V bn d) Hd (B ∪ {[bn]});
  tx_wakeup pid c t V Hd B ch : tx pid c t V Hd B -> tx pid c (blk_wakeup ch t) V Hd B
}.

Lemma vset_eq V bn d : vset V bn d bn = d.
Proof. unfold vset. by rewrite decide_True. Qed.
Lemma vset_ne V bn d x : x <> bn -> vset V bn d x = V x.
Proof. intros. unfold vset. by rewrite decide_False. Qed.

Module KernelTx.

Import Bio BioSpec Log LogSpec LogTxn.

Definition ind (P : Prop) `{Decision P} : Z := if decide P then 1 else 0.

Lemma ind_range P `{Decision P} : 0 <= ind P <= 1.
Proof. unfold ind. case_decide; lia. Qed.

Lemma ind_ext P Q `{Decision P, Decision Q} : (P <-> Q) -> ind P = ind Q.
Proof. unfold ind. intros E. repeat case_decide; tauto. Qed.

Lemma ind_cons (x bn : Z) (l : list Z) : bn ∉ l -> ind (x ∈ bn :: l) = ind (x ∈ l) + ind (x = bn).
Proof.
  intros Hn. rewrite (ind_ext _ (x = bn \/ x ∈ l)) by apply elem_of_cons. unfold ind.
  repeat case_decide; try tauto; try lia. by subst.
Qed.

Lemma ind_union (x bn : Z) (B : gset Z) :
  ind (x ∈ B ∪ {[bn]}) = ind (x ∈ B) + (if bool_decide (bn ∈ B) then 0 else ind (x = bn)).
Proof.
  rewrite (ind_ext _ (x ∈ B \/ x = bn)) by set_solver. rewrite bool_decide_decide. unfold ind.
  destruct (decide (x ∈ B)), (decide (x = bn)) as [->|], (decide (bn ∈ B));
    destruct (decide (_ \/ _)); tauto || lia.
Qed.

(** An operation that started in [c] has reached [t]. *)
Record ktx (pid : Z) (c t : log * bst) (V : Z -> list Z) (Hd : list (Z * Z)) (B : gset Z) : Prop := MkKtx {
  kt_start : lg_start t.1 = lg_start c.1 /\ lg_size t.1 = lg_size c.1 /\ MAXOPBLOCKS + 1 < lg_size c.1;
  kt_log : exists blocks, geom t.1 /\ log_lists t.1 blocks /\ blocks_ok t.1 blocks
             /\ B = list_to_set blocks;
  kt_max : Z.of_nat (size B) <= MAXOPBLOCKS;
  kt_outstanding : lg_outstanding t.1 = 1;
  kt_committing : lg_committing t.1 = 0;
  kt_ok : bcache_ok t.2;
  kt_held : forall b bn, (b, bn) ∈ Hd -> held t.2 pid b bn (V bn);
  kt_nodup : NoDup Hd.*2;
  kt_few : (length Hd <= MAXHELD)%nat;
  kt_unlocked : forall x, x ∉ Hd.*2 -> unlocked t.2 x;
  kt_view : forall x, cview t.2 x = V x;
  kt_out : forall x, x ∉ B -> V x = dblock (bc_disk t.2) x;
  kt_pins : forall x, pins t.2 x = ind (x ∈ B) + ind (x ∈ Hd.*2);
  kt_free : (nfree t.2 + size (B ∪ list_to_set Hd.*2))%nat = Z.to_nat NBUF;
  kt_wrote : wrote c.2 t.2 []
}.

Lemma size_snoc (A : gset Z) x : size (A ∪ {[x]}) = (size A + (if decide (x ∈ A) then 0 else 1))%nat.
Proof.
  destruct (decide (x ∈ A)).
  - replace (A ∪ {[x]}) with A by set_solver. lia.
  - rewrite size_union by set_solver. by rewrite size_singleton.
Qed.

Lemma held_cons (B S : gset Z) bn : B ∪ ({[bn]} ∪ S) = (B ∪ S) ∪ {[bn]}.
Proof. set_solver. Qed.

Lemma size_held (B : gset Z) (Hd : list (Z * Z)) :
  (size (B ∪ list_to_set Hd.*2) <= size B + length Hd)%nat.
Proof.
  induction Hd as [|[b bn] Hd IH]; [simpl; rewrite union_empty_r_L; lia|].
  change (list_to_set ((b, bn) :: Hd).*2 : gset Z) with ({[bn]} ∪ list_to_set Hd.*2 : gset Z).
  rewrite held_cons, size_snoc. cbn [length]. destruct (decide (bn ∈ B ∪ list_to_set Hd.*2)); lia.
Qed.

Lemma ktx_bread pid c t V Hd B bn :
  ktx pid c t V Hd B -> bn ∉ Hd.*2 -> (length Hd < MAXHELD)%nat ->
  exists b t', @blk_bread _ kernel_block_io pid ROOTDEV bn t = Ret (b, t') /\ ktx pid c t' V ((b, bn) :: Hd) B.
Proof.
  intros [S0 L Mx Ho Hc Hok Hh Hnd Hf Hu Hv Hout Hp Hfr Hw] Hbn Hlen. destruct t as [l s]. cbn [fst snd] in *.
  pose proof (size_held B Hd) as Hsz.
  assert (Hpb : pins s bn = ind (bn ∈ B)) by (rewrite Hp; unfold ind; rewrite (decide_False (P := bn ∈ Hd.*2)) by done; lia).
  destruct (bread_spec pid bn s Hok (Hu bn Hbn)) as (b & s' & E & Hok' & Hh' & V' & P' & N' & O' & D' & T').
  { rewrite Hpb. pose proof (ind_range (bn ∈ B)). lia. }
  { right. unfold MAXHELD, NBUF, MAXOPBLOCKS in *. lia. }
  cbn [blk_bread kernel_block_io fst snd]. rewrite E. cbn [mbind outcome_bind]. exists b, (l, s'). split; [done|].
  split; cbn [fst snd]; rewrite ?fmap_cons; cbn [fst snd]; try assumption.
  - intros b' bn' [[= -> ->]|Hin]%elem_of_cons; [by rewrite <- Hv|].
    apply (ot_held _ _ _ O'); [|by apply Hh]. intros ->. apply Hbn. apply list_elem_of_fmap. by exists (b', bn).
  - by constructor.
  - intros x Hx. apply not_elem_of_cons in Hx as [Hne Hx]. apply (ot_unlocked _ _ _ O'); auto.
  - intros x. by rewrite V'.
  - intros x Hx. rewrite D'. auto.
  - intros x. rewrite P', Hp. rewrite (ind_cons x bn) by done.
    change (if decide (x = bn) then 1 else 0) with (ind (x = bn)). lia.
  - rewrite <- Hfr, N', Hpb, list_to_set_cons, held_cons, size_snoc. unfold ind.
    rewrite (decide_ext (bn ∈ B ∪ list_to_set Hd.*2) (bn ∈ B)) by (rewrite elem_of_union, elem_of_list_to_set; tauto).
    repeat case_decide; try lia; done.
  - apply (wrote_trans _ s _ [] [] Hw). by apply wrote_nil.
Qed.

Lemma ktx_brelse pid c t V Hd B b bn :
  ktx pid c t V ((b, bn) :: Hd) B ->
  exists t', @blk_brelse _ kernel_block_io pid b t = Ret t' /\ ktx pid c t' V Hd B.
Proof.
  intros [S0 L Mx Ho Hc Hok Hh Hnd Hf Hu Hv Hout Hp Hfr Hw]. destruct t as [l s].
  change ((b, bn) :: Hd).*2 with (bn :: Hd.*2) in *. cbn [fst snd] in *. apply NoDup_cons in Hnd as [Hbn Hnd]. pose proof (Hh b bn (list_elem_of_here _ _)) as Hb.
  assert (Hpb : pins s bn = ind (bn ∈ B) + 1).
  { rewrite Hp. unfold ind. rewrite (decide_True (P := bn ∈ bn :: Hd.*2)) by constructor. done. }
  destruct (brelse_spec pid b bn _ s Hok Hb) as (s' & E & Hok' & V' & P' & N' & O' & U' & D' & T').
  { rewrite Hpb. unfold ind. destruct (decide (bn ∈ B)); [left; lia|right; by apply Hout]. }
  cbn [blk_brelse kernel_block_io fst snd]. rewrite E. cbn [mbind outcome_bind]. exists (l, s'). split; [done|].
  split; cbn [fst snd]; rewrite ?fmap_cons; cbn [fst snd]; try assumption.
  - intros b' bn' Hin. apply (ot_held _ _ _ O'); [|by apply Hh; constructor]. intros ->. apply Hbn.
    apply list_elem_of_fmap. by exists (b', bn).
  - cbn [length] in Hf. lia.
  - intros x Hx. destruct (decide (x = bn)) as [->|Hne]; [done|]. apply (ot_unlocked _ _ _ O'); [done|].
    apply Hu. by apply not_elem_of_cons.
  - intros x. by rewrite V'.
  - intros x Hx. rewrite D'. auto.
  - intros x. rewrite P', Hp. rewrite (ind_cons x bn) by done.
    change (if decide (x = bn) then 1 else 0) with (ind (x = bn)). lia.
  - rewrite <- Hfr, N', Hpb, list_to_set_cons, held_cons, size_snoc. unfold ind.
    rewrite (decide_ext (bn ∈ B ∪ list_to_set Hd.*2) (bn ∈ B)) by (rewrite elem_of_union, elem_of_list_to_set; tauto).
    repeat case_decide; try lia; done.
  - apply (wrote_trans _ s _ [] [] Hw). by eapply wrote_wakeup.
Qed.

(** [log_write] pins the buffer the first time. *)
Lemma pin_spec pid b bn d s (first : bool) :
  bcache_ok s -> held s pid b bn d -> pins s bn < 2 ^ 31 - 1 ->
  let s' := if first then bpin b s else s in
  bcache_ok s' /\ held s' pid b bn d /\ (forall x, cview s' x = cview s x)
  /\ (forall x, pins s' x = pins s x + (if first then if decide (x = bn) then 1 else 0 else 0))
  /\ nfree s' = nfree s /\ others s s' bn /\ bc_disk s' = bc_disk s /\ bc_trace s' = bc_trace s.
Proof.
  intros H Hh Hp. destruct first; simpl.
  - destruct (bpin_spec pid b bn d s H Hh Hp) as (X1 & X2 & X3 & X4 & X5 & X6).
    do 3 (split; [assumption|]). split; [|by split_and!]. intros x. rewrite X4. case_decide; subst; lia.
  - do 3 (split; [done|]). split; [intros; lia|]. split; [done|]. split; [|done]. split; auto.
Qed.

Lemma ktx_log_write pid c t V Hd B b bn d :
  ktx pid c t V Hd B -> (b, bn) ∈ Hd -> home c.1 bn -> Z.of_nat (size (B ∪ {[bn]})) <= MAXOPBLOCKS ->
  exists t', @blk_log_write _ kernel_block_io b (@blk_store _ kernel_block_io b d t) = Ret t'
    /\ ktx pid c t' (vset V bn d) Hd (B ∪ {[bn]}).
Proof.
  intros [S0 L Mx Ho Hc Hok Hh Hnd Hf Hu Hv Hout Hp Hfr Hw] Hin Hhome Hsz. destruct t as [l s].
  cbn [fst snd] in *. unfold blk_log_write, blk_store, kernel_block_io. cbn [fst snd].
  pose proof (Hh b bn Hin) as Hb. destruct L as (blocks & G & L & Bk & EB). destruct S0 as (Es & Ez & Hbig).
  assert (Hin2 : bn ∈ Hd.*2) by (apply list_elem_of_fmap; by exists (b, bn)).
  destruct (set_data_spec pid b bn _ d s Hok Hb) as (Hok1 & Hh1 & V1 & P1 & N1 & O1).
  set (s1 := upd b (set_data d) s) in *.
  assert (HinB : bn ∈ B <-> bn ∈ blocks) by (rewrite EB, elem_of_list_to_set; done).
  assert (Hlb : size B = length blocks) by (rewrite EB; apply size_list_to_set, Bk).
  destruct (log_write_spec l blocks b bn s1 pid d G L Bk Hh1) as (l' & E & L' & Bk' & G' & Ho' & Hc' & Es' & Ez').
  { unfold home in *. by rewrite Es, Ez. }
  { lia. }
  { rewrite (ll_n _ _ L), <- Hlb. unfold LOGSIZE, MAXOPBLOCKS in *. lia. }
  { rewrite (ll_n _ _ L), <- Hlb, Ez. unfold MAXOPBLOCKS in *. lia. }
  rewrite E.
  assert (Hpb : pins s1 bn < 2 ^ 31 - 1).
  { rewrite P1, Hp. pose proof (ind_range (bn ∈ B)). pose proof (ind_range (bn ∈ Hd.*2)). lia. }
  destruct (pin_spec pid b bn d s1 (negb (bool_decide (bn ∈ blocks))) Hok1 Hh1 Hpb)
    as (Hok2 & Hh2 & V2 & P2 & N2 & O2 & D2 & T2).
  assert (Eb : (if decide (bn ∈ blocks) then s1 else bpin b s1)
               = if negb (bool_decide (bn ∈ blocks)) then bpin b s1 else s1).
  { rewrite bool_decide_decide. by destruct (decide (bn ∈ blocks)). }
  rewrite Eb. set (s2 := if negb (bool_decide (bn ∈ blocks)) then bpin b s1 else s1) in *. clearbody s2.
  exists (l', s2). split; [done|]. split; cbn [fst snd]; try assumption.
  - by rewrite Es', Ez'.
  - exists (log_add blocks bn). do 3 (split; [done|]). subst B. unfold log_add.
    destruct (decide (bn ∈ blocks)); [|by rewrite list_to_set_app_L, list_to_set_singleton_L].
    apply set_eq. intros x. rewrite elem_of_union, elem_of_singleton, !elem_of_list_to_set. split; [|auto].
    by intros [?| ->].
  - by rewrite Ho'.
  - by rewrite Hc'.
  - intros b' bn' Hin'. unfold vset. destruct (decide (bn' = bn)) as [->|Hne].
    + assert (b' = b) as ->; [|done].
      pose proof (held_lookup _ _ _ _ _ Hok (Hh _ _ Hin')). pose proof (held_lookup _ _ _ _ _ Hok Hb). congruence.
    + apply (ot_held _ _ _ O2); [done|]. apply (ot_held _ _ _ O1); [done|]. by apply Hh.
  - intros x Hx. assert (x <> bn) by (by intros ->).
    apply (ot_unlocked _ _ _ O2); [done|]. apply (ot_unlocked _ _ _ O1); [done|]. by apply Hu.
  - intros x. rewrite V2, V1. unfold vset. destruct (decide (x = bn)); [done|apply Hv].
  - intros x Hx. rewrite vset_ne by set_solver. rewrite D2. apply Hout. set_solver.
  - intros x. rewrite P2, P1, Hp, (ind_union x bn B). rewrite (bool_decide_ext _ _ (iff_sym HinB)).
    change (if decide (x = bn) then 1 else 0) with (ind (x = bn)).
    destruct (bool_decide (bn ∈ B)); simpl negb; cbv iota; lia.
  - rewrite N2, N1, <- Hfr. do 2 f_equal. apply set_eq. intros x.
    rewrite !elem_of_union, elem_of_singleton, elem_of_list_to_set. split; [|tauto].
    intros [[?| ->]|?]; auto.
  - apply (wrote_trans _ s _ [] [] Hw). by apply wrote_nil.
Qed.

Lemma ktx_proper pid c t V V' Hd B : ktx pid c t V Hd B -> (forall x, V x = V' x) -> ktx pid c t V' Hd B.
Proof.
  intros [S0 L Mx Ho Hc Hok Hh Hnd Hf Hu Hv Hout Hp Hfr Hw] E. split; try done; intros; rewrite <- E; auto.
Qed.

Lemma ktx_data pid c t V Hd B b bn :
  ktx pid c t V Hd B -> (b, bn) ∈ Hd -> @blk_data _ kernel_block_io t b = V bn.
Proof. intros K Hin. apply (h_data _ _ _ _ _ (kt_held _ _ _ _ _ _ K b bn Hin)). Qed.

Lemma ktx_wakeup pid c t V Hd B ch :
  ktx pid c t V Hd B -> ktx pid c (@blk_wakeup _ kernel_block_io ch t) V Hd B.
Proof.
  intros [S0 L Mx Ho Hc Hok Hh Hnd Hf Hu Hv Hout Hp Hfr Hw]. destruct t as [l s].
  split; cbn [fst snd kernel_block_io blk_wakeup] in *; try assumption.
  - by destruct Hok.
  - intros b bn Hin. by destruct (Hh b bn Hin).
  - exact (wrote_trans _ s _ [] [] Hw (wrote_wakeup s (emit (EvWakeup ch) s) ch eq_refl eq_refl)).
Qed.

#[export] Instance kernel_block_tx : BlockTx (log * bst) :=
  @Build_BlockTx _ kernel_block_io (log * bst)%type (fun c => home c.1) ktx
    ktx_proper ktx_data ktx_bread ktx_brelse ktx_log_write ktx_wakeup.

End KernelTx.
