(* ===== verification/Fs.v ===== *)
(** * kernel/fs.c: blocks, inodes, directories, paths

    The state is the super block, the inode table (indexed by 0 .. NINODE - 1;
    a pointer to an inode is an index, the null pointer is [None]) and the
    block layer of [BlockIO].  Sections of code under [itable.lock] are atomic.
    The structures fs.c overlays on a buffer are accessed at their byte offsets.
    Local byte buffers ([struct dirent], path elements) are lists of bytes; a
    path is the list of the bytes of a C string, and a pointer into it is a
    suffix. *)

From S2P Require Import Prelude Riscv Kalloc ProcDefs Vm UserMem Block Sleeplock Bio Log BlockIO.
From stdpp Require Import base list numbers gmap strings.
From Stdlib Require Import ZArith Lia.

#[local] Open Scope Z_scope.

Import Block.

(** ** Constants of fs.h, stat.h and param.h *)

Definition ROOTINO : Z := 1.
Definition FSMAGIC : Z := 0x10203040.
Definition NDIRECT : Z := 11.
Definition NINDIRECT : Z := 256.
Definition NDIRECT_EX : Z := NDIRECT + 1.
Definition NINDIRECT_SEC : Z := NINDIRECT * NINDIRECT.
Definition MAXFILE : Z := NDIRECT + NINDIRECT + NINDIRECT_SEC.
Definition DINODE_SIZE : Z := 64.
Definition IPB : Z := BSIZE / DINODE_SIZE.
Definition BPB : Z := BSIZE * 8.
Definition DIRSIZ : Z := 14.
Definition DIRENT_SIZE : Z := 16.
Definition T_DIR : Z := 1.
Definition T_FILE : Z := 2.
Definition T_DEVICE : Z := 3.
Definition T_SYMLINK : Z := 4.
Definition SLASH : Z := 47.

Definition IBLOCK (i : Z) (sb : superblock) : Z := u32 (i / IPB + sb_inodestart sb).
Definition BBLOCK (b : Z) (sb : superblock) : Z := u32 (b / BPB + sb_bmapstart sb).

(** Byte offsets of the fields of [struct dinode]. *)
Definition DI_type : Z := 0.
Definition DI_major : Z := 2.
Definition DI_minor : Z := 4.
Definition DI_nlink : Z := 6.
Definition DI_size : Z := 8.
Definition DI_addrs : Z := 12.

(** ** Data *)

(** [struct inode]. *)
Record inode : Type := MkInode {
  i_dev : Z;
  i_inum : Z;
  i_ref : Z;
  i_lock : sleeplock;
  i_valid : Z;
  i_type : Z;
  i_major : Z;
  i_minor : Z;
  i_nlink : Z;
  i_size : Z;
  i_addrs : list Z
}.

Definition inode0 : inode :=
  MkInode 0 0 0 initsleeplock 0 0 0 0 0 0 (replicate (Z.to_nat (NDIRECT + 2)) 0).

Definition set_iref (v : Z) (i : inode) : inode :=
  MkInode (i_dev i) (i_inum i) v (i_lock i) (i_valid i) (i_type i) (i_major i) (i_minor i) (i_nlink i) (i_size i) (i_addrs i).
Definition set_ilock (v : sleeplock) (i : inode) : inode :=
  MkInode (i_dev i) (i_inum i) (i_ref i) v (i_valid i) (i_type i) (i_major i) (i_minor i) (i_nlink i) (i_size i) (i_addrs i).
Definition set_ivalid (v : Z) (i : inode) : inode :=
  MkInode (i_dev i) (i_inum i) (i_ref i) (i_lock i) v (i_type i) (i_major i) (i_minor i) (i_nlink i) (i_size i) (i_addrs i).
Definition set_itype (v : Z) (i : inode) : inode :=
  MkInode (i_dev i) (i_inum i) (i_ref i) (i_lock i) (i_valid i) v (i_major i) (i_minor i) (i_nlink i) (i_size i) (i_addrs i).
Definition set_imajor (v : Z) (i : inode) : inode :=
  MkInode (i_dev i) (i_inum i) (i_ref i) (i_lock i) (i_valid i) (i_type i) v (i_minor i) (i_nlink i) (i_size i) (i_addrs i).
Definition set_iminor (v : Z) (i : inode) : inode :=
  MkInode (i_dev i) (i_inum i) (i_ref i) (i_lock i) (i_valid i) (i_type i) (i_major i) v (i_nlink i) (i_size i) (i_addrs i).
Definition set_inlink (v : Z) (i : inode) : inode :=
  MkInode (i_dev i) (i_inum i) (i_ref i) (i_lock i) (i_valid i) (i_type i) (i_major i) (i_minor i) v (i_size i) (i_addrs i).
Definition set_isize (v : Z) (i : inode) : inode :=
  MkInode (i_dev i) (i_inum i) (i_ref i) (i_lock i) (i_valid i) (i_type i) (i_major i) (i_minor i) (i_nlink i) v (i_addrs i).
Definition set_iaddrs (v : list Z) (i : inode) : inode :=
  MkInode (i_dev i) (i_inum i) (i_ref i) (i_lock i) (i_valid i) (i_type i) (i_major i) (i_minor i) (i_nlink i) (i_size i) v.

(** [struct stat]. *)
Record stat : Type := MkStat {
  st_dev : Z;
  st_ino : Z;
  st_type : Z;
  st_nlink : Z;
  st_size : Z
}.

Record fsys (T : Type) : Type := MkFsys {
  f_sb : superblock;
  f_inode : gmap Z inode;
  f_blk : T
}.
Arguments MkFsys {T} _ _ _.
Arguments f_sb {T} _.
Arguments f_inode {T} _.
Arguments f_blk {T} _.

(** The inode at index [i] of the table, its update, and [ip->addrs[k]]. *)
Definition ino {T} (w : fsys T) (i : Z) : inode := default inode0 (f_inode w !! i).
Definition iset {T} (i : Z) (f : inode -> inode) (w : fsys T) : fsys T :=
  MkFsys (f_sb w) (<[i := f (ino w i)]> (f_inode w)) (f_blk w).
Definition set_blk {T} (t : T) (w : fsys T) : fsys T := MkFsys (f_sb w) (f_inode w) t.
Definition addr (x : inode) (k : Z) : Z := nth (Z.to_nat k) (i_addrs x) 0.
Definition set_addr (k v : Z) (x : inode) : inode :=
  set_iaddrs (<[Z.to_nat k := v]> (i_addrs x)) x.

(** ** Copies between the kernel and either side (kernel/proc.c)

    The kernel side of a copy with [user_dst = 0] is a memory of its own, [K]:
    a local buffer, addressed from 0, or physical memory. *)
Class KMem (K : Type) : Type := {
  km_read : K -> Z -> Z -> list Z;
  km_write : K -> Z -> list Z -> K
}.

(** A local buffer. *)
#[export] Instance buffer_kmem : KMem (list Z) := {
  km_read k a n := take (Z.to_nat n) (drop (Z.to_nat a) k);
  km_write k a bs := put_bytes k a bs
}.

(** Copies that involve no user memory. *)
#[export] Instance no_user : UserMem unit := {
  um_copyin u va n := Ret (-1, [], u);
  um_copyout u va bs := Ret (-1, u)
}.

Section Either.
Context {U K : Type} `{UM : UserMem U} `{KM : KMem K}.

Definition either_copyout (user_dst dst : Z) (src : list Z) (m : U * K) : outcome (Z * (U * K)) :=
  if nz user_dst then
    '(r, u) ← um_copyout m.1 dst src; Ret (r, (u, m.2))
  else Ret (0, (m.1, km_write m.2 dst src)).

(** Returns the bytes copied to the kernel side as well. *)
Definition either_copyin (user_src src n : Z) (m : U * K) : outcome (Z * list Z * (U * K)) :=
  if nz user_src then
    '(r, bs, u) ← um_copyin m.1 src n; Ret (r, bs, (u, m.2))
  else Ret (0, km_read m.2 src n, m).

End Either.

Module Fs.

Section Ops.
Context {T : Type} `{BIO : BlockIO T}.
Context (pid : Z).

Implicit Type w : fsys T.

(** The calls of the block layer, on the whole state. *)
Definition bread (dev bn : Z) w : outcome (Z * fsys T) :=
  '(b, t) ← blk_bread pid dev bn (f_blk w); Ret (b, set_blk t w).
Definition brelse (b : Z) w : outcome (fsys T) :=
  t ← blk_brelse pid b (f_blk w); Ret (set_blk t w).
Definition log_write (b : Z) w : outcome (fsys T) :=
  t ← blk_log_write b (f_blk w); Ret (set_blk t w).
Definition bdata (b : Z) w : list Z := blk_data (f_blk w) b.
Definition bmodify (b : Z) (f : list Z -> list Z) w : fsys T :=
  set_blk (blk_modify b f (f_blk w)) w.

(** ** The super block *)

Definition readsb (dev : Z) w : outcome (fsys T) :=
  '(bp, w) ← bread dev 1 w;
  let d := bdata bp w in
  let sb := MkSuperblock (get_u32 d 0) (get_u32 d 4) (get_u32 d 8) (get_u32 d 12)
              (get_u32 d 16) (get_u32 d 20) (get_u32 d 24) (get_u32 d 28) in
  w ← brelse bp w;
  Ret (MkFsys sb (f_inode w) (f_blk w)).

Definition fsinit (dev : Z) w : outcome (fsys T) :=
  w ← readsb dev w;
  if negb (sb_magic (f_sb w) =? FSMAGIC) then Panic "invalid file system" else
  t ← blk_initlog pid dev (f_sb w) (f_blk w);
  Ret (set_blk t w).

(** ** Disk blocks *)

Definition bzero (dev bno : Z) w : outcome (fsys T) :=
  '(bp, w) ← bread dev bno w;
  let w := bmodify bp (fun _ => zero_block) w in
  w ← log_write bp w;
  brelse bp w.

(** [data[bi / 8]] of a bitmap block, and the mask [m] of bit [bi]. *)
Definition bm_byte (d : list Z) (bi : Z) : Z := nth (Z.to_nat (bi / 8)) d 0.
Definition bm_mask (bi : Z) : Z := Z.shiftl 1 (bi mod 8).
Definition bm_test (d : list Z) (bi : Z) : bool := nz (Z.land (bm_byte d bi) (bm_mask bi)).
Definition bm_set (d : list Z) (bi : Z) : list Z :=
  <[Z.to_nat (bi / 8) := u8 (Z.lor (bm_byte d bi) (bm_mask bi))]> d.
Definition bm_clear (d : list Z) (bi : Z) : list Z :=
  <[Z.to_nat (bi / 8) := u8 (Z.land (bm_byte d bi) (Z.lnot (bm_mask bi)))]> d.

(** The inner loop of [balloc] from bit [bi] on: the first clear bit. *)
Fixpoint balloc_scan (k : nat) (d : list Z) (size b bi : Z) : option Z :=
  match k with
  | O => None
  | S k =>
      if (bi <? BPB) && (b + bi <? size) then
        if bm_test d bi then balloc_scan k d size b (bi + 1) else Some bi
      else None
  end.

(** The outer loop, over the bitmap blocks. *)
Fixpoint balloc_loop (k : nat) (dev b : Z) w : outcome (Z * fsys T) :=
  if b <? sb_size (f_sb w) then
    match k with
    | O => Fuel
    | S k =>
        '(bp, w) ← bread dev (BBLOCK b (f_sb w)) w;
        match balloc_scan (Z.to_nat BPB) (bdata bp w) (sb_size (f_sb w)) b 0 with
        | Some bi =>
            let w := bmodify bp (fun d => bm_set d bi) w in
            w ← log_write bp w;
            w ← brelse bp w;
            w ← bzero dev (b + bi) w;
            Ret (b + bi, w)
        | None =>
            w ← brelse bp w;
            balloc_loop k dev (b + BPB) w
        end
    end
  else Panic "balloc: out of blocks".

Definition balloc (dev : Z) w : outcome (Z * fsys T) :=
  balloc_loop (Z.to_nat (sb_size (f_sb w) / BPB + 1)) dev 0 w.

Definition bfree (dev b : Z) w : outcome (fsys T) :=
  '(bp, w) ← bread dev (BBLOCK b (f_sb w)) w;
  let bi := b mod BPB in
  if negb (bm_test (bdata bp w) bi) then Panic "freeing free block" else
  let w := bmodify bp (fun d => bm_clear d bi) w in
  w ← log_write bp w;
  brelse bp w.

(** ** Inodes *)

(** [iinit] on the zero-initialised table. *)
Definition iinit w : fsys T :=
  for_range 0 NINODE (fun w i => iset i (set_ilock initsleeplock) w) w.

(** [dip]: the byte offset of dinode [inum] in its block. *)
Definition dioff (inum : Z) : Z := DINODE_SIZE * (inum mod IPB).

(** The search of [iget] from index [i] on; [empty] is the free slot seen. *)
Fixpoint iget_scan (k : nat) w (dev inum i : Z) (empty : option Z) : Z + option Z :=
  match k with
  | O => inr empty
  | S k =>
      let x := ino w i in
      if (0 <? i_ref x) && (i_dev x =? dev) && (i_inum x =? inum) then inl i
      else iget_scan k w dev inum (i + 1)
             (match empty with
              | None => if i_ref x =? 0 then Some i else None
              | Some _ => empty
              end)
  end.

Definition iget (dev inum : Z) w : outcome (Z * fsys T) :=
  match iget_scan (Z.to_nat NINODE) w dev inum 0 None with
  | inl i => Ret (i, iset i (fun x => set_iref (s32 (i_ref x + 1)) x) w)
  | inr None => Panic "iget: no inodes"
  | inr (Some i) =>
      Ret (i, iset i (fun x => MkInode dev inum 1 (i_lock x) 0 (i_type x) (i_major x) (i_minor x)
                                 (i_nlink x) (i_size x) (i_addrs x)) w)
  end.

Fixpoint ialloc_loop (k : nat) (dev type inum : Z) w : outcome (Z * fsys T) :=
  if inum <? sb_ninodes (f_sb w) then
    match k with
    | O => Fuel
    | S k =>
        '(bp, w) ← bread dev (IBLOCK inum (f_sb w)) w;
        let dip := dioff inum in
        if get_s16 (bdata bp w) (dip + DI_type) =? 0 then
          let w := bmodify bp (fun d => put_bytes d dip (replicate (Z.to_nat DINODE_SIZE) 0)) w in
          let w := bmodify bp (fun d => put16 d (dip + DI_type) type) w in
          w ← log_write bp w;
          w ← brelse bp w;
          iget dev inum w
        else
          w ← brelse bp w;
          ialloc_loop k dev type (inum + 1) w
    end
  else Panic "ialloc: no inodes".

Definition ialloc (dev type : Z) w : outcome (Z * fsys T) :=
  ialloc_loop (Z.to_nat (sb_ninodes (f_sb w))) dev type 1 w.

(** [memmove(dip->addrs, ip->addrs, sizeof(ip->addrs))] and its inverse. *)
Definition put_addrs (d : list Z) (off : Z) (addrs : list Z) : list Z :=
  for_range 0 (NDIRECT + 2) (fun d k => put32 d (off + 4 * k) (nth (Z.to_nat k) addrs 0)) d.
Definition get_addrs (d : list Z) (off : Z) : list Z :=
  (fun k => get_u32 d (off + 4 * k)) <$> seqZ 0 (NDIRECT + 2).

(** What [iupdate] stores, and what [ilock] reads, at [dip]. *)
Definition dinode_put (d : list Z) (dip : Z) (x : inode) : list Z :=
  let d := put16 d (dip + DI_type) (i_type x) in
  let d := put16 d (dip + DI_major) (i_major x) in
  let d := put16 d (dip + DI_minor) (i_minor x) in
  let d := put16 d (dip + DI_nlink) (i_nlink x) in
  let d := put32 d (dip + DI_size) (i_size x) in
  put_addrs d (dip + DI_addrs) (i_addrs x).
Definition dinode_get (d : list Z) (dip : Z) (x : inode) : inode :=
  MkInode (i_dev x) (i_inum x) (i_ref x) (i_lock x) (i_valid x)
    (get_s16 d (dip + DI_type)) (get_s16 d (dip + DI_major)) (get_s16 d (dip + DI_minor))
    (get_s16 d (dip + DI_nlink)) (get_u32 d (dip + DI_size)) (get_addrs d (dip + DI_addrs)).

Definition iupdate (ip : Z) w : outcome (fsys T) :=
  '(bp, w) ← bread (i_dev (ino w ip)) (IBLOCK (i_inum (ino w ip)) (f_sb w)) w;
  let w := bmodify bp (fun d => dinode_put d (dioff (i_inum (ino w ip))) (ino w ip)) w in
  w ← log_write bp w;
  brelse bp w.

Definition idup (ip : Z) w : fsys T := iset ip (fun x => set_iref (s32 (i_ref x + 1)) x) w.

(** [acquiresleep(&ip->lock)] and [releasesleep(&ip->lock)]. *)
Definition lock_inode (ip : Z) w : outcome (fsys T) :=
  lk ← acquiresleep pid (i_lock (ino w ip)); Ret (iset ip (set_ilock lk) w).
Definition unlock_inode (ip : Z) w : fsys T :=
  let w := iset ip (fun x => set_ilock (releasesleep (i_lock x)) x) w in
  set_blk (blk_wakeup (ChObj "inode" (Z.to_nat ip)) (f_blk w)) w.

Definition ilock (ip : Z) w : outcome (fsys T) :=
  if i_ref (ino w ip) <? 1 then Panic "ilock" else
  w ← lock_inode ip w;
  if i_valid (ino w ip) =? 0 then
    '(bp, w) ← bread (i_dev (ino w ip)) (IBLOCK (i_inum (ino w ip)) (f_sb w)) w;
    let d := bdata bp w in
    let w := iset ip (fun x => dinode_get d (dioff (i_inum x)) x) w in
    w ← brelse bp w;
    let w := iset ip (set_ivalid 1) w in
    if i_type (ino w ip) =? 0 then Panic "ilock: no type" else Ret w
  else Ret w.

Definition iunlock (ip : Z) w : outcome (fsys T) :=
  if negb (holdingsleep pid (i_lock (ino w ip))) || (i_ref (ino w ip) <? 1) then Panic "iunlock"
  else Ret (unlock_inode ip w).

(** ** Inode content *)

(** Entry [k] of the table of block numbers in a block. *)
Definition tbl (d : list Z) (k : Z) : Z := get_u32 d (4 * k).

(** [if ((addr = a[k]) == 0) { a[k] = addr = balloc(dev); log_write(bp); }
    brelse(bp);], where [bp] is the block [bn] and [a] its table. *)
Definition tbl_entry (dev bn k : Z) w : outcome (Z * fsys T) :=
  '(bp, w) ← bread dev bn w;
  let a := tbl (bdata bp w) k in
  if a =? 0 then
    '(a, w) ← balloc dev w;
    let w := bmodify bp (fun d => put32 d (4 * k) a) w in
    w ← log_write bp w;
    w ← brelse bp w;
    Ret (a, w)
  else
    w ← brelse bp w;
    Ret (a, w).

(** [if ((addr = ip->addrs[k]) == 0) ip->addrs[k] = addr = balloc(ip->dev);] *)
Definition addr_entry (ip k : Z) w : outcome (Z * fsys T) :=
  let a := addr (ino w ip) k in
  if a =? 0 then
    '(a, w) ← balloc (i_dev (ino w ip)) w;
    Ret (a, iset ip (set_addr k a) w)
  else Ret (a, w).

Definition bmap (ip bn : Z) w : outcome (Z * fsys T) :=
  if bn <? NDIRECT then addr_entry ip bn w else
  let bn := bn - NDIRECT in
  if bn <? NINDIRECT then
    '(a, w) ← addr_entry ip NDIRECT w;
    tbl_entry (i_dev (ino w ip)) a bn w
  else
  let bn := bn - NINDIRECT in
  if bn <? NINDIRECT_SEC then
    let fir := bn / NINDIRECT in
    let sec := bn mod NINDIRECT in
    '(a, w) ← addr_entry ip NDIRECT_EX w;
    '(a, w) ← tbl_entry (i_dev (ino w ip)) a fir w;
    tbl_entry (i_dev (ino w ip)) a sec w
  else Panic "bmap: out of range".

(** The loops of [itrunc]: over the direct blocks, over a table of blocks, and
    over a table of tables. *)
Fixpoint trunc_direct (k : nat) (ip i : Z) w : outcome (fsys T) :=
  match k with
  | O => Ret w
  | S k =>
      if nz (addr (ino w ip) i) then
        w ← bfree (i_dev (ino w ip)) (addr (ino w ip) i) w;
        trunc_direct k ip (i + 1) (iset ip (set_addr i 0) w)
      else trunc_direct k ip (i + 1) w
  end.

Fixpoint trunc_table (k : nat) (dev bp j : Z) w : outcome (fsys T) :=
  match k with
  | O => Ret w
  | S k =>
      let a := tbl (bdata bp w) j in
      if nz a then w ← bfree dev a w; trunc_table k dev bp (j + 1) w
      else trunc_table k dev bp (j + 1) w
  end.

Fixpoint trunc_table2 (k : nat) (dev bp j : Z) w : outcome (fsys T) :=
  match k with
  | O => Ret w
  | S k =>
      if nz (tbl (bdata bp w) j) then
        '(bp_sec, w) ← bread dev (tbl (bdata bp w) j) w;
        w ← trunc_table (Z.to_nat NINDIRECT) dev bp_sec 0 w;
        w ← bfree dev (tbl (bdata bp w) j) w;
        w ← brelse bp_sec w;
        trunc_table2 k dev bp (j + 1) w
      else trunc_table2 k dev bp (j + 1) w
  end.

(** The two blocks of code of [itrunc] that free an indirect table. *)
Definition trunc_indirect (ip k : Z) (loop : Z -> Z -> fsys T -> outcome (fsys T)) w
    : outcome (fsys T) :=
  if nz (addr (ino w ip) k) then
    '(bp, w) ← bread (i_dev (ino w ip)) (addr (ino w ip) k) w;
    w ← loop (i_dev (ino w ip)) bp w;
    w ← brelse bp w;
    w ← bfree (i_dev (ino w ip)) (addr (ino w ip) k) w;
    Ret (iset ip (set_addr k 0) w)
  else Ret w.

Definition itrunc (ip : Z) w : outcome (fsys T) :=
  w ← trunc_direct (Z.to_nat NDIRECT) ip 0 w;
  w ← trunc_indirect ip NDIRECT (fun dev bp => trunc_table (Z.to_nat NINDIRECT) dev bp 0) w;
  w ← trunc_indirect ip NDIRECT_EX (fun dev bp => trunc_table2 (Z.to_nat NINDIRECT) dev bp 0) w;
  iupdate ip (iset ip (set_isize 0) w).

(** [iput] in the order of its lock sections: the test, under [itable.lock]; the
    freeing of the inode, after [itable.lock] is released; and the count, under
    [itable.lock] again. *)
Definition iput_last (ip : Z) w : bool :=
  (i_ref (ino w ip) =? 1) && nz (i_valid (ino w ip)) && (i_nlink (ino w ip) =? 0).

Definition iput_free (ip : Z) w : outcome (fsys T) :=
  w ← itrunc ip w;
  w ← iupdate ip (iset ip (set_itype 0) w);
  let w := iset ip (set_ivalid 0) w in
  Ret (unlock_inode ip w).

Definition iput_drop (ip : Z) w : fsys T := iset ip (fun x => set_iref (s32 (i_ref x - 1)) x) w.

Definition iput (ip : Z) w : outcome (fsys T) :=
  w ← (if iput_last ip w then w ← lock_inode ip w; iput_free ip w else Ret w);
  Ret (iput_drop ip w).

Definition iunlockput (ip : Z) w : outcome (fsys T) :=
  w ← iunlock ip w; iput ip w.

Definition stati (ip : Z) w : stat :=
  let x := ino w ip in MkStat (s32 (i_dev x)) (i_inum x) (i_type x) (i_nlink x) (i_size x).

Section Transfer.
Context {U K : Type} `{UM : UserMem U} `{KM : KMem K}.

Definition chunk (n tot off : Z) : Z := Z.min (n - tot) (BSIZE - off mod BSIZE).

(** The loop of [readi]; the result is the final [tot]. *)
Fixpoint readi_loop (k : nat) (ip user_dst dst off n tot : Z) w (m : U * K)
    : outcome (Z * fsys T * (U * K)) :=
  if tot <? n then
    match k with
    | O => Fuel
    | S k =>
        '(a, w) ← bmap ip (off / BSIZE) w;
        '(bp, w) ← bread (i_dev (ino w ip)) a w;
        let c := chunk n tot off in
        '(r, m) ← either_copyout user_dst dst
                    (take (Z.to_nat c) (drop (Z.to_nat (off mod BSIZE)) (bdata bp w))) m;
        if r =? -1 then
          w ← brelse bp w; Ret (u32 (-1), w, m)
        else
          w ← brelse bp w;
          readi_loop k ip user_dst (u64 (dst + c)) (u32 (off + c)) n (tot + c) w m
    end
  else Ret (tot, w, m).

Definition readi (ip user_dst dst off n : Z) w (m : U * K) : outcome (Z * fsys T * (U * K)) :=
  let size := i_size (ino w ip) in
  if (size <? off) || (u32 (off + n) <? off) then Ret (0, w, m) else
  let n := if size <? u32 (off + n) then u32 (size - off) else n in
  '(tot, w, m) ← readi_loop (Z.to_nat (n / BSIZE + 2)) ip user_dst dst off n 0 w m;
  Ret (s32 tot, w, m).

(** The loop of [writei]; the results are the final [tot] and [off].  A copy
    that fails leaves in the buffer the bytes it moved before it failed. *)
Fixpoint writei_loop (k : nat) (ip user_src src off n tot : Z) w (m : U * K)
    : outcome (Z * Z * fsys T * (U * K)) :=
  if tot <? n then
    match k with
    | O => Fuel
    | S k =>
        '(a, w) ← bmap ip (off / BSIZE) w;
        '(bp, w) ← bread (i_dev (ino w ip)) a w;
        let c := chunk n tot off in
        '(r, bs, m) ← either_copyin user_src src c m;
        let w := bmodify bp (fun d => put_bytes d (off mod BSIZE) bs) w in
        if r =? -1 then
          w ← brelse bp w; Ret (tot, off, w, m)
        else
          w ← log_write bp w;
          w ← brelse bp w;
          writei_loop k ip user_src (u64 (src + c)) (u32 (off + c)) n (tot + c) w m
    end
  else Ret (tot, off, w, m).

Definition writei (ip user_src src off n : Z) w (m : U * K) : outcome (Z * fsys T * (U * K)) :=
  if (i_size (ino w ip) <? off) || (u32 (off + n) <? off) then Ret (-1, w, m)
  else if MAXFILE * BSIZE <? u32 (off + n) then Ret (-1, w, m) else
  '(tot, off, w, m) ← writei_loop (Z.to_nat (n / BSIZE + 2)) ip user_src src off n 0 w m;
  let w := if i_size (ino w ip) <? off then iset ip (set_isize off) w else w in
  w ← iupdate ip w;
  Ret (s32 tot, w, m).

End Transfer.

(** ** Directories *)

(** [strncmp] and [strncpy] on byte arrays, the source of the copy ending
    where its list ends (compare kernel/string.c). *)
Fixpoint strncmp (p q : list Z) (n : nat) : Z :=
  match n with
  | O => 0
  | S n =>
      let c := hd 0 p in
      let d := hd 0 q in
      if nz c && (c =? d) then strncmp (tl p) (tl q) n else c - d
  end.

Fixpoint strncpy (t : list Z) (n : nat) : list Z :=
  match n with
  | O => []
  | S n => if nz (hd 0 t) then hd 0 t :: strncpy (tl t) n else replicate (S n) 0
  end.

Definition namecmp (s t : list Z) : Z := strncmp s t (Z.to_nat DIRSIZ).

(** The fields of [struct dirent]. *)
Definition de_inum (de : list Z) : Z := get_u16 de 0.
Definition de_name (de : list Z) : list Z := drop 2 de.
Definition dirent0 : list Z := replicate (Z.to_nat DIRENT_SIZE) 0.

(** [readi(dp, 0, &de, off, sizeof(de))] and the check of its result. *)
Definition read_dirent (dp off : Z) (msg : string) w : outcome (list Z * fsys T) :=
  '(r, w, m) ← readi dp 0 0 off DIRENT_SIZE w (tt, dirent0);
  if r =? DIRENT_SIZE then Ret (m.2, w) else Panic msg.

Fixpoint dirlookup_loop (k : nat) (dp : Z) (name : list Z) (off : Z) w
    : outcome (option (Z * Z) * fsys T) :=
  if off <? i_size (ino w dp) then
    match k with
    | O => Fuel
    | S k =>
        '(de, w) ← read_dirent dp off "dirlookup read" w;
        if de_inum de =? 0 then dirlookup_loop k dp name (u32 (off + DIRENT_SIZE)) w
        else if namecmp name (de_name de) =? 0 then
          '(ip, w) ← iget (i_dev (ino w dp)) (de_inum de) w;
          Ret (Some (ip, off), w)
        else dirlookup_loop k dp name (u32 (off + DIRENT_SIZE)) w
    end
  else Ret (None, w).

(** Returns the inode and the value stored through [poff]. *)
Definition dirlookup (dp : Z) (name : list Z) w : outcome (option (Z * Z) * fsys T) :=
  if negb (i_type (ino w dp) =? T_DIR) then Panic "dirlookup not DIR" else
  dirlookup_loop (Z.to_nat (i_size (ino w dp) / DIRENT_SIZE + 1)) dp name 0 w.

(** The search of [dirlink] for an empty entry; the result is [off]. *)
Fixpoint dirlink_loop (k : nat) (dp off : Z) w : outcome (Z * fsys T) :=
  if off <? i_size (ino w dp) then
    match k with
    | O => Fuel
    | S k =>
        '(de, w) ← read_dirent dp off "dirlink read" w;
        if de_inum de =? 0 then Ret (off, w)
        else dirlink_loop k dp (off + DIRENT_SIZE) w
    end
  else Ret (off, w).

Definition dirlink (dp : Z) (name : list Z) (inum : Z) w : outcome (Z * fsys T) :=
  '(found, w) ← dirlookup dp name w;
  match found with
  | Some (ip, _) => w ← iput ip w; Ret (-1, w)
  | None =>
      '(off, w) ← dirlink_loop (Z.to_nat (i_size (ino w dp) / DIRENT_SIZE + 1)) dp 0 w;
      let de := put_bytes dirent0 2 (strncpy name (Z.to_nat DIRSIZ)) in
      let de := put16 de 0 inum in
      '(r, w, _) ← writei dp 0 0 off DIRENT_SIZE w (tt, de);
      if r =? DIRENT_SIZE then Ret (0, w) else Panic "dirlink"
  end.

(** ** Paths *)

Fixpoint skip_slashes (path : list Z) : list Z :=
  match path with
  | c :: rest => if c =? SLASH then skip_slashes rest else path
  | [] => []
  end.

(** The bytes up to the next slash, and the rest. *)
Fixpoint elem_end (path : list Z) : list Z * list Z :=
  match path with
  | c :: rest =>
      if c =? SLASH then ([], path)
      else let '(s, rest') := elem_end rest in (c :: s, rest')
  | [] => ([], [])
  end.

(** Returns the rest of the path and the new contents of [name]. *)
Definition skipelem (path name : list Z) : option (list Z * list Z) :=
  match skip_slashes path with
  | [] => None
  | path =>
      let '(s, rest) := elem_end path in
      let len := Z.of_nat (length s) in
      let name := if DIRSIZ <=? len then put_bytes name 0 (take (Z.to_nat DIRSIZ) s)
                  else put_bytes (put_bytes name 0 s) len [0] in
      Some (skip_slashes rest, name)
  end.

Fixpoint namex_loop (k : nat) (parent : bool) (path name : list Z) (ip : Z) w
    : outcome (option Z * list Z * fsys T) :=
  match skipelem path name with
  | None =>
      if parent then w ← iput ip w; Ret (None, name, w)
      else Ret (Some ip, name, w)
  | Some (path, name) =>
      match k with
      | O => Fuel
      | S k =>
          w ← ilock ip w;
          if negb (i_type (ino w ip) =? T_DIR) then
            w ← iunlockput ip w; Ret (None, name, w)
          else if parent && match path with [] => true | _ => false end then
            w ← iunlock ip w; Ret (Some ip, name, w)
          else
            '(next, w) ← dirlookup ip name w;
            match next with
            | None => w ← iunlockput ip w; Ret (None, name, w)
            | Some (next, _) => w ← iunlockput ip w; namex_loop k parent path name next w
            end
      end
  end.

(** [cwd] is [myproc()->cwd]; returns the inode and [name]. *)
Definition namex (cwd : Z) (path : list Z) (parent : bool) (name : list Z) w
    : outcome (option Z * list Z * fsys T) :=
  '(ip, w) ← (match path with
              | c :: _ => if c =? SLASH then iget ROOTDEV ROOTINO w else Ret (cwd, idup cwd w)
              | [] => Ret (cwd, idup cwd w)
              end);
  namex_loop (length path) parent path name ip w.

(** The uninitialised [name] array of [namei]. *)
Definition name0 : list Z := replicate (Z.to_nat DIRSIZ) 0.

Definition namei (cwd : Z) (path : list Z) w : outcome (option Z * fsys T) :=
  '(ip, _, w) ← namex cwd path false name0 w; Ret (ip, w).

Definition nameiparent (cwd : Z) (path name : list Z) w : outcome (option Z * list Z * fsys T) :=
  namex cwd path true name w.

End Ops.

End Fs.
