(* ===== verification/FsBlocks.v ===== *)
(** * The file system on top of the block layer: disk blocks

    Lemmas that run the block operations of [Fs] inside a transaction of
    [BlockTx], and the correctness of the bitmap allocator: [balloc] takes the
    first free block and zeroes it, [bfree] gives a block back. *)

From S2P Require Import Prelude Riscv ProcDefs Block Bio Log BlockIO BlockTx Fs.
From stdpp Require Import base list numbers gmap strings sets.
From Stdlib Require Import ZArith Lia.

#[local] Open Scope Z_scope.

Import Block.

Module FsBlocks.

(** ** Bits of a bitmap block *)

Lemma bm_test_bit d i : Fs.bm_test d i = Z.testbit (Fs.bm_byte d i) (i mod 8).
Proof. unfold Fs.bm_test, Fs.bm_mask. apply nz_land_bit. apply Z.mod_pos_bound. lia. Qed.

Lemma nth_insert_Z (d : list Z) (i j v : Z) :
  0 <= i -> 0 <= j -> i < Z.of_nat (length d) ->
  nth (Z.to_nat j) (<[Z.to_nat i := v]> d) 0 = if decide (j = i) then v else nth (Z.to_nat j) d 0.
Proof.
  intros Hi Hj Hl. rewrite !nth_lookup. destruct (decide (j = i)) as [->|Hne].
  - by rewrite list_lookup_insert_eq by lia.
  - by rewrite list_lookup_insert_ne by lia.
Qed.

Lemma nth_byte (d : list Z) n : Forall is_byte d -> 0 <= nth n d 0 < 256.
Proof.
  intros Hf. rewrite nth_lookup. destruct (d !! n) as [b|] eqn:E; simpl; [|lia].
  apply (Forall_lookup_1 _ _ _ _ Hf E).
Qed.

(** The effect of storing [v] in the byte of bit [i] on bit [j]. *)
Lemma bm_store_test d i j v :
  block_ok d -> 0 <= i < BPB -> 0 <= j < BPB ->
  (forall k, 0 <= k < 8 -> k <> i mod 8 -> Z.testbit v k = Z.testbit (Fs.bm_byte d i) k) ->
  Fs.bm_test (<[Z.to_nat (i / 8) := v]> d) j
  = if decide (j = i) then Z.testbit v (i mod 8) else Fs.bm_test d j.
Proof.
  intros [Hl _] Hi Hj Hv. unfold BPB, BSIZE in *. rewrite !bm_test_bit. unfold Fs.bm_byte.
  rewrite nth_insert_Z by (try apply Z.div_pos; try lia; rewrite Hl; change (Z.to_nat BSIZE) with 1024%nat; dlia).
  destruct (decide (j / 8 = i / 8)) as [E|E].
  - destruct (decide (j = i)) as [->|Hne]; [done|].
    rewrite Hv; [by rewrite E|apply Z.mod_pos_bound; lia|dlia].
  - rewrite decide_False; [done|]. by intros ->.
Qed.

Lemma u8_bits a k : 0 <= k < 8 -> Z.testbit (u8 a) k = Z.testbit a k.
Proof. intros Hk. unfold u8. rewrite Z.mod_pow2_bits_low; [done|lia]. Qed.

Lemma mask_bits i k : 0 <= k -> Z.testbit (Fs.bm_mask i) k = (k =? i mod 8).
Proof.
  intros Hk. unfold Fs.bm_mask. rewrite Z.shiftl_1_l, Z.pow2_bits_eqb by (apply Z.mod_pos_bound; lia).
  apply Z.eqb_sym.
Qed.

Lemma bm_test_set d i j :
  block_ok d -> 0 <= i < BPB -> 0 <= j < BPB ->
  Fs.bm_test (Fs.bm_set d i) j = if decide (j = i) then true else Fs.bm_test d j.
Proof.
  intros Hd Hi Hj. unfold Fs.bm_set. pose proof (Z.mod_pos_bound i 8 ltac:(lia)) as Hm.
  rewrite bm_store_test; [|done..|].
  - destruct (decide (j = i)); [|done]. rewrite u8_bits, Z.lor_spec, mask_bits, Z.eqb_refl by lia. apply orb_true_r.
  - intros k Hk Hne. rewrite u8_bits, Z.lor_spec, mask_bits, (proj2 (Z.eqb_neq _ _) Hne) by lia. apply orb_false_r.
Qed.

Lemma bm_test_clear d i j :
  block_ok d -> 0 <= i < BPB -> 0 <= j < BPB ->
  Fs.bm_test (Fs.bm_clear d i) j = if decide (j = i) then false else Fs.bm_test d j.
Proof.
  intros Hd Hi Hj. unfold Fs.bm_clear. pose proof (Z.mod_pos_bound i 8 ltac:(lia)) as Hm.
  rewrite bm_store_test; [|done..|].
  - destruct (decide (j = i)); [|done].
    rewrite u8_bits, Z.land_spec, Z.lnot_spec, mask_bits, Z.eqb_refl by lia. apply andb_false_r.
  - intros k Hk Hne. rewrite u8_bits, Z.land_spec, Z.lnot_spec, mask_bits, (proj2 (Z.eqb_neq _ _) Hne) by lia.
    apply andb_true_r.
Qed.

Lemma byte_store_ok d i v : block_ok d -> block_ok (<[Z.to_nat i := u8 v]> d).
Proof.
  intros [Hl Hf]. split; [by rewrite length_insert|]. apply Forall_insert; [done|].
  pose proof (u8_range v). unfold is_byte. lia.
Qed.

(** The inner loop of [balloc] finds the first clear bit below the bound. *)
Lemma balloc_scan_spec k d size b bi :
  0 <= bi -> BPB <= bi + Z.of_nat k ->
  (forall j, bi <= j -> Fs.balloc_scan k d size b bi = Some j ->
     j < BPB /\ b + j < size /\ Fs.bm_test d j = false /\ forall i, bi <= i < j -> Fs.bm_test d i = true)
  /\ (forall j, Fs.balloc_scan k d size b bi = Some j -> bi <= j)
  /\ (Fs.balloc_scan k d size b bi = None ->
     forall i, bi <= i < BPB -> b + i < size -> Fs.bm_test d i = true).
Proof.
  revert bi. induction k as [|k IH]; intros bi Hbi Hk; cbn [Fs.balloc_scan].
  - split; [done|]. split; [done|]. intros _ i Hi. lia.
  - destruct ((bi <? BPB) && (b + bi <? size)) eqn:E; [|].
    + apply andb_true_iff in E as [E1%Z.ltb_lt E2%Z.ltb_lt]. destruct (Fs.bm_test d bi) eqn:Et.
      * destruct (IH (bi + 1)) as (I1 & I2 & I3); [lia|lia|]. split; [|split].
        -- intros j Hj Es. pose proof (I2 j Es). destruct (I1 j) as (A1 & A2 & A3 & A4); [lia|done|].
           split_and!; try done. intros i Hi. destruct (decide (i = bi)) as [->|]; [done|]. apply A4. lia.
        -- intros j Es. apply I2 in Es. lia.
        -- intros En i Hi Hs. destruct (decide (i = bi)) as [->|]; [done|]. apply (I3 En); lia.
      * split; [|split; [|done]].
        -- intros j _ [= <-]. split_and!; try done. intros i Hi. lia.
        -- intros j [= <-]. lia.
    + split; [done|]. split; [done|]. intros _ i Hi Hs. apply andb_false_iff in E as [E%Z.ltb_ge|E%Z.ltb_ge]; lia.
Qed.

(** ** The layout of a file system *)

(** Whether the bitmap marks block [b] as used. *)
Definition used (V : Z -> list Z) (sb : superblock) (b : Z) : bool :=
  Fs.bm_test (V (BBLOCK b sb)) (b mod BPB).

(** The blocks before [dstart] hold the metadata: the inode blocks and, after
    them, the bitmap. *)
Record sb_ok (sb : superblock) (dstart : Z) : Prop := MkSbOk {
  so_size : 0 < dstart <= sb_size sb /\ sb_size sb < 2 ^ 31 - BPB;
  so_inodes : 0 <= sb_inodestart sb;
  so_ninodes : 0 <= sb_ninodes sb < 2 ^ 31;
  so_ibmap : sb_inodestart sb + sb_ninodes sb / IPB < sb_bmapstart sb;
  so_bmap : sb_bmapstart sb + sb_size sb / BPB < dstart
}.

Lemma BPB_pos : 0 < BPB.
Proof. unfold BPB, BSIZE. lia. Qed.

Lemma bblock_eq sb dstart b : sb_ok sb dstart -> 0 <= b <= sb_size sb ->
  BBLOCK b sb = b / BPB + sb_bmapstart sb /\ sb_bmapstart sb <= BBLOCK b sb < dstart.
Proof.
  intros [H1 H2 H3 H4 H5] Hb. unfold BBLOCK. pose proof BPB_pos.
  assert (0 <= b / BPB <= sb_size sb / BPB) by (split; [apply Z.div_pos; lia|apply Z.div_le_mono; lia]).
  assert (0 <= sb_ninodes sb / IPB) by (apply Z.div_pos; [lia|reflexivity]).
  rewrite u32_small by (unfold BPB, BSIZE in *; lia). lia.
Qed.

Lemma bblock_inj sb dstart a b : sb_ok sb dstart -> 0 <= a <= sb_size sb -> 0 <= b <= sb_size sb ->
  BBLOCK a sb = BBLOCK b sb -> a / BPB = b / BPB.
Proof.
  intros Hs Ha Hb. rewrite (proj1 (bblock_eq sb dstart a Hs Ha)), (proj1 (bblock_eq sb dstart b Hs Hb)). lia.
Qed.

Lemma set_blk_set {T} (t t' : T) (w : fsys T) : set_blk t (set_blk t' w) = set_blk t w.
Proof. done. Qed.

Section Tx.
Context {T : Type} `{BIO : BlockIO T} `{BTX : !BlockTx T}.
Context (pid : Z) (c : tx_ctx).

(** ** One block operation *)

Lemma fs_bread w V Hd B bn :
  tx pid c (f_blk w) V Hd B -> bn ∉ Hd.*2 -> (length Hd < MAXHELD)%nat ->
  exists b t, Fs.bread pid ROOTDEV bn w = Ret (b, set_blk t w) /\ tx pid c t V ((b, bn) :: Hd) B.
Proof.
  intros K Hn Hl. destruct (tx_bread pid c _ V Hd B bn K Hn Hl) as (b & t & E & K').
  exists b, t. unfold Fs.bread. rewrite E. done.
Qed.

Lemma fs_brelse w V Hd B b bn :
  tx pid c (f_blk w) V ((b, bn) :: Hd) B ->
  exists t, Fs.brelse pid b w = Ret (set_blk t w) /\ tx pid c t V Hd B.
Proof.
  intros K. destruct (tx_brelse pid c _ V Hd B b bn K) as (t & E & K').
  exists t. unfold Fs.brelse. rewrite E. done.
Qed.

Lemma fs_data w V Hd B b bn : tx pid c (f_blk w) V ((b, bn) :: Hd) B -> Fs.bdata b w = V bn.
Proof. intros K. apply (tx_data _ _ _ _ _ _ _ _ K). constructor. Qed.

Lemma fs_log_write w V Hd B b bn f :
  tx pid c (f_blk w) V ((b, bn) :: Hd) B -> tx_home c bn -> Z.of_nat (size (B ∪ {[bn]})) <= MAXOPBLOCKS ->
  exists t, Fs.log_write b (Fs.bmodify b f w) = Ret (set_blk t w)
    /\ tx pid c t (vset V bn (f (V bn))) ((b, bn) :: Hd) (B ∪ {[bn]}).
Proof.
  intros K Hh Hs. pose proof (tx_data _ _ _ _ _ _ b bn K (list_elem_of_here _ _)) as Ed.
  destruct (tx_log_write pid c _ V _ B b bn (f (V bn)) K (list_elem_of_here _ _) Hh Hs) as (t & E & K').
  exists t. unfold Fs.log_write, Fs.bmodify, blk_modify. cbn [f_blk set_blk]. rewrite Ed, E. done.
Qed.

(** Read a block, modify it, log it, release it. *)
Lemma fs_rmw w V Hd B bn f :
  tx pid c (f_blk w) V Hd B -> bn ∉ Hd.*2 -> (length Hd < MAXHELD)%nat -> tx_home c bn ->
  Z.of_nat (size (B ∪ {[bn]})) <= MAXOPBLOCKS ->
  exists b t1 t2 t3, Fs.bread pid ROOTDEV bn w = Ret (b, set_blk t1 w)
    /\ Fs.bdata b (set_blk t1 w) = V bn
    /\ Fs.log_write b (Fs.bmodify b f (set_blk t1 w)) = Ret (set_blk t2 w)
    /\ Fs.brelse pid b (set_blk t2 w) = Ret (set_blk t3 w)
    /\ tx pid c t3 (vset V bn (f (V bn))) Hd (B ∪ {[bn]}).
Proof.
  intros K Hn Hl Hh Hs. destruct (fs_bread w V Hd B bn K Hn Hl) as (b & t1 & E1 & K1).
  destruct (fs_log_write (set_blk t1 w) V Hd B b bn f K1 Hh Hs) as (t2 & E2 & K2).
  destruct (fs_brelse (set_blk t2 w) _ Hd _ b bn K2) as (t3 & E3 & K3).
  exists b, t1, t2, t3. split; [done|]. split; [exact (fs_data (set_blk t1 w) _ _ _ _ _ K1)|]. done.
Qed.

Lemma bzero_spec w V Hd B bn :
  tx pid c (f_blk w) V Hd B -> bn ∉ Hd.*2 -> (length Hd < MAXHELD)%nat -> tx_home c bn ->
  Z.of_nat (size (B ∪ {[bn]})) <= MAXOPBLOCKS ->
  exists t, Fs.bzero pid ROOTDEV bn w = Ret (set_blk t w)
    /\ tx pid c t (vset V bn zero_block) Hd (B ∪ {[bn]}).
Proof.
  intros K Hn Hl Hh Hs. destruct (fs_rmw w V Hd B bn (fun _ => zero_block) K Hn Hl Hh Hs)
    as (b & t1 & t2 & t3 & E1 & _ & E2 & E3 & K3).
  exists t3. unfold Fs.bzero. rewrite E1. cbn [mbind outcome_bind]. rewrite E2. cbn [mbind outcome_bind]. done.
Qed.

(** ** The invariant of the bitmap *)

(** All blocks are well formed, the metadata blocks are marked used, and the
    blocks of the file system outside the log can be logged. *)
Record fs_inv (sb : superblock) (dstart : Z) (V : Z -> list Z) : Prop := MkFsInv {
  fi_sb : sb_ok sb dstart;
  fi_ok : forall x, block_ok (V x);
  fi_meta : forall b, 0 <= b < dstart -> used V sb b = true;
  fi_home : forall b, sb_inodestart sb <= b < sb_size sb -> tx_home c b
}.

(** The buffers held are data blocks in use. *)
Definition held_ok (sb : superblock) (dstart : Z) (V : Z -> list Z) (Hd : list (Z * Z)) : Prop :=
  Forall (fun x => dstart <= x < sb_size sb /\ used V sb x = true) Hd.*2.

Lemma held_not_bitmap sb dstart V Hd b :
  fs_inv sb dstart V -> held_ok sb dstart V Hd -> 0 <= b <= sb_size sb -> BBLOCK b sb ∉ Hd.*2.
Proof.
  intros Hi Hh Hb Hin. unfold held_ok in Hh. rewrite Forall_forall in Hh. apply Hh in Hin as [[? _] _].
  destruct (bblock_eq sb dstart b (fi_sb _ _ _ Hi) Hb). lia.
Qed.

(** The contents after block [a] is allocated. *)
Definition balloc_view (sb : superblock) (V : Z -> list Z) (a : Z) : Z -> list Z :=
  vset (vset V (BBLOCK a sb) (Fs.bm_set (V (BBLOCK a sb)) (a mod BPB))) a zero_block.

(** What changing bit [a] of the bitmap does to the marks. *)
Lemma used_bit sb dstart V a b d :
  sb_ok sb dstart -> 0 <= a < sb_size sb -> 0 <= b < sb_size sb ->
  used (vset V (BBLOCK a sb) d) sb b
  = if decide (a / BPB = b / BPB) then Fs.bm_test d (b mod BPB) else used V sb b.
Proof.
  intros Hs Ha Hb. unfold used, vset. destruct (decide (a / BPB = b / BPB)) as [E|E].
  - rewrite decide_True; [done|]. unfold BBLOCK. by rewrite E.
  - rewrite decide_False; [done|]. intros E'. apply E. symmetry. eapply bblock_inj; [done|lia|lia|done].
Qed.

Lemma used_vset_data sb dstart V a b d :
  sb_ok sb dstart -> dstart <= a -> 0 <= b < sb_size sb -> used (vset V a d) sb b = used V sb b.
Proof.
  intros Hs Ha Hb. unfold used. rewrite vset_ne; [done|].
  destruct (bblock_eq sb dstart b Hs ltac:(lia)). lia.
Qed.

Lemma same_bit a b : a / BPB = b / BPB -> a mod BPB = b mod BPB -> a = b.
Proof. intros E1 E2. pose proof BPB_pos. rewrite (Z.div_mod a BPB), (Z.div_mod b BPB) by lia. congruence. Qed.

Lemma used_balloc sb dstart V a b :
  fs_inv sb dstart V -> dstart <= a < sb_size sb -> 0 <= b < sb_size sb ->
  used (balloc_view sb V a) sb b = if decide (b = a) then true else used V sb b.
Proof.
  intros Hi Ha Hb. pose proof (fi_sb _ _ _ Hi) as Hs. unfold balloc_view. pose proof BPB_pos.
  pose proof (so_size _ _ Hs).
  rewrite (used_vset_data _ dstart), (used_bit _ dstart) by (done || lia).
  destruct (decide (a / BPB = b / BPB)) as [E|E].
  - rewrite bm_test_set by (try apply Hi; apply Z.mod_pos_bound; lia).
    destruct (decide (b mod BPB = a mod BPB)) as [E2|E2].
    + rewrite decide_True; [done|]. symmetry. by apply same_bit.
    + rewrite decide_False by (by intros ->). unfold used, BBLOCK. by rewrite E.
  - rewrite decide_False by (by intros ->). done.
Qed.

Lemma balloc_view_ok sb dstart V a :
  fs_inv sb dstart V -> dstart <= a < sb_size sb -> fs_inv sb dstart (balloc_view sb V a).
Proof.
  intros Hi Ha. pose proof (fi_sb _ _ _ Hi) as Hs. split; [done| | |apply Hi].
  - intros x. unfold balloc_view, vset. repeat case_decide; [apply zero_block_ok| |apply Hi].
    unfold Fs.bm_set. apply byte_store_ok, Hi.
  - intros b Hb. rewrite (used_balloc _ dstart) by (done || (destruct Hs; lia)).
    destruct (decide (b = a)); [done|]. by apply Hi.
Qed.

Lemma balloc_view_other sb V a x : x <> a -> x <> BBLOCK a sb -> balloc_view sb V a x = V x.
Proof. intros H1 H2. unfold balloc_view. by rewrite !vset_ne. Qed.
Lemma balloc_view_new sb V a : balloc_view sb V a a = zero_block.
Proof. apply vset_eq. Qed.

Lemma balloc_meta sb dstart V a x :
  fs_inv sb dstart V -> dstart <= a < sb_size sb -> x < sb_bmapstart sb -> balloc_view sb V a x = V x.
Proof.
  intros Hi Ha Hx. pose proof (fi_sb _ _ _ Hi) as Hs. pose proof (so_size _ _ Hs).
  destruct (bblock_eq sb dstart a Hs ltac:(lia)). apply balloc_view_other; lia.
Qed.

(** The log space [balloc] needs. *)
Definition room (B : gset Z) (n : Z) : Prop := Z.of_nat (size B) + n <= MAXOPBLOCKS.

Lemma room_add B n x : room B n -> 1 <= n -> room (B ∪ {[x]}) (n - 1) /\ Z.of_nat (size (B ∪ {[x]})) <= MAXOPBLOCKS.
Proof.
  unfold room. intros H1 H2. rewrite KernelTx.size_snoc. case_decide; lia.
Qed.

(** Bit [bi] of the bitmap block that starts at [j * BPB]. *)
Lemma bit_of_block sb j bi : 0 <= bi < BPB ->
  BBLOCK (j * BPB + bi) sb = BBLOCK (j * BPB) sb /\ (j * BPB + bi) mod BPB = bi.
Proof.
  intros Hbi. pose proof BPB_pos. split.
  - unfold BBLOCK. by rewrite Z.div_add_l, Z.div_small, Z.add_0_r, Z.div_mul by lia.
  - rewrite Z.add_comm, Z.mod_add by lia. by apply Z.mod_small.
Qed.

Lemma fs_meta_home sb dstart V b : fs_inv sb dstart V -> sb_bmapstart sb <= b < sb_size sb -> tx_home c b.
Proof.
  intros Hi Hb. apply (fi_home _ _ _ Hi). destruct (fi_sb _ _ _ Hi).
  assert (0 <= sb_ninodes sb / IPB) by (apply Z.div_pos; [lia|reflexivity]). lia.
Qed.

(** The part of [balloc] after a clear bit is found in the bitmap block [bp]. *)
Lemma balloc_take w V Hd B sb dstart bp a :
  tx pid c (f_blk w) V ((bp, BBLOCK a sb) :: Hd) B -> fs_inv sb dstart V -> held_ok sb dstart V Hd ->
  (length Hd < MAXHELD)%nat -> room B 2 -> 0 <= a < sb_size sb -> used V sb a = false ->
  exists t2 t3 t4, Fs.log_write bp (Fs.bmodify bp (fun d => Fs.bm_set d (a mod BPB)) w) = Ret (set_blk t2 w)
    /\ Fs.brelse pid bp (set_blk t2 w) = Ret (set_blk t3 w)
    /\ Fs.bzero pid ROOTDEV a (set_blk t3 w) = Ret (set_blk t4 w) /\ dstart <= a
    /\ tx pid c t4 (balloc_view sb V a) Hd (B ∪ {[BBLOCK a sb]} ∪ {[a]}).
Proof.
  intros K Hi Hh Hl Hr Ha Hu. pose proof (fi_sb _ _ _ Hi) as Hs.
  assert (Hda : dstart <= a).
  { destruct (decide (dstart <= a)); [done|]. rewrite (fi_meta _ _ _ Hi) in Hu by lia. done. }
  destruct (room_add B 2 (BBLOCK a sb) Hr ltac:(lia)) as [R1 R1'].
  destruct (room_add _ _ a R1 ltac:(lia)) as [R2 R2'].
  destruct (bblock_eq sb dstart a Hs ltac:(lia)) as [_ Hbr]. pose proof (so_size _ _ Hs). pose proof (so_bmap _ _ Hs).
  assert (0 <= sb_size sb / BPB) by (apply Z.div_pos; [lia|apply BPB_pos]).
  destruct (fs_log_write w V Hd B bp _ (fun d => Fs.bm_set d (a mod BPB)) K) as (t2 & E2 & K2);
    [apply (fs_meta_home sb dstart V); [done|lia]|done|].
  destruct (fs_brelse (set_blk t2 w) _ Hd _ bp _ K2) as (t3 & E3 & K3).
  destruct (bzero_spec (set_blk t3 w) _ Hd _ a K3) as (t4 & E4 & K4); [|done| |done|].
  - unfold held_ok in Hh. rewrite Forall_forall in Hh. intros Hin. apply Hh in Hin as [_ Hx]. congruence.
  - apply (fs_meta_home sb dstart V); [done|lia].
  - by exists t2, t3, t4.
Qed.

Lemma balloc_loop_spec k w V Hd B sb dstart j :
  tx pid c (f_blk w) V Hd B -> f_sb w = sb -> fs_inv sb dstart V -> held_ok sb dstart V Hd ->
  (length Hd < MAXHELD)%nat -> room B 2 -> 0 <= j ->
  sb_size sb / BPB + 1 <= j + Z.of_nat k ->
  (forall b, 0 <= b < j * BPB -> b < sb_size sb -> used V sb b = true) ->
  (exists b, 0 <= b < sb_size sb /\ used V sb b = false) ->
  exists a t, Fs.balloc_loop pid k ROOTDEV (j * BPB) w = Ret (a, set_blk t w)
    /\ dstart <= a < sb_size sb /\ used V sb a = false
    /\ (forall b, 0 <= b < a -> used V sb b = true)
    /\ tx pid c t (balloc_view sb V a) Hd (B ∪ {[BBLOCK a sb]} ∪ {[a]}).
Proof.
  revert w j. induction k as [|k IH]; intros w j K Esb Hi Hh Hl Hr Hj Hk Hused [f [Hf Hfu]];
    pose proof (fi_sb _ _ _ Hi) as Hs; pose proof BPB_pos.
  { exfalso. rewrite Hused in Hfu; [done| |lia]. split; [lia|].
    pose proof (Z.mul_succ_div_gt (sb_size sb) BPB ltac:(lia)). nia. }
  assert (Hjs : j * BPB < sb_size sb).
  { destruct (decide (j * BPB < sb_size sb)) as [?|Hge]; [done|]. rewrite Hused in Hfu; [done|lia|lia]. }
  cbn [Fs.balloc_loop]. rewrite Esb, (proj2 (Z.ltb_lt _ _) Hjs). assert (Hjb : 0 <= j * BPB) by nia.
  pose proof (held_not_bitmap sb dstart V Hd (j * BPB) Hi Hh ltac:(lia)) as Hnb.
  destruct (fs_bread w V Hd B _ K Hnb Hl) as (bp & t1 & E1 & K1). rewrite E1. cbn [mbind outcome_bind].
  rewrite (fs_data (set_blk t1 w) V Hd B bp _ K1).
  destruct (balloc_scan_spec (Z.to_nat BPB) (V (BBLOCK (j * BPB) sb)) (sb_size sb) (j * BPB) 0)
    as (S1 & S2 & S3); [lia|lia|].
  assert (Hrest : forall q, (forall i, 0 <= i < q -> i < BPB -> j * BPB + i < sb_size sb ->
      Fs.bm_test (V (BBLOCK (j * BPB) sb)) i = true) ->
      forall b, 0 <= b < j * BPB + q -> b < (j + 1) * BPB -> b < sb_size sb -> used V sb b = true).
  { intros q Hq b Hb Hb2 Hbs. destruct (decide (b < j * BPB)); [apply Hused; lia|].
    replace b with (j * BPB + (b - j * BPB)) by lia. destruct (bit_of_block sb j (b - j * BPB)) as [Eb Em]; [lia|].
    unfold used. rewrite Eb, Em. apply Hq; lia. }
  change (f_sb (set_blk t1 w)) with (f_sb w). rewrite Esb.
  destruct (Fs.balloc_scan _ _ _ _ _) as [bi|] eqn:Es.
  - pose proof (S2 bi eq_refl) as Hbi. destruct (S1 bi Hbi eq_refl) as (A1 & A2 & A3 & A4).
    destruct (bit_of_block sb j bi) as [Eb Em]; [lia|]. rewrite <- Eb in K1.
    destruct (balloc_take (set_blk t1 w) V Hd B sb dstart bp (j * BPB + bi) K1 Hi Hh Hl Hr)
      as (t2 & t3 & t4 & E2 & E3 & E4 & Hd2 & K4); [lia|unfold used; by rewrite Eb, Em|].
    rewrite Em in E2. rewrite E2. cbn [mbind outcome_bind]. rewrite E3. cbn [mbind outcome_bind]. rewrite E4.
    cbn [mbind outcome_bind]. exists (j * BPB + bi), t4. split; [done|]. split; [lia|].
    split; [unfold used; by rewrite Eb, Em|]. split; [|exact K4].
    intros b Hb. apply (Hrest bi); [intros i Hi2 _ _; apply A4; lia|lia..].
  - destruct (fs_brelse (set_blk t1 w) _ Hd _ bp _ K1) as (t2 & E2 & K2). rewrite E2, set_blk_set. cbn [mbind outcome_bind].
    replace (j * BPB + BPB) with ((j + 1) * BPB) by lia.
    destruct (IH (set_blk t2 w) (j + 1) K2 Esb Hi Hh Hl Hr) as (a & t & E & R); [lia|lia| |by exists f|by exists a, t; rewrite E].
    intros b Hb Hbs. apply (Hrest BPB); [|lia..]. intros i Hi2 _ Hs2. by apply S3; [|lia|].
Qed.

Lemma balloc_spec w V Hd B sb dstart :
  tx pid c (f_blk w) V Hd B -> f_sb w = sb -> fs_inv sb dstart V -> held_ok sb dstart V Hd ->
  (length Hd < MAXHELD)%nat -> room B 2 -> (exists b, 0 <= b < sb_size sb /\ used V sb b = false) ->
  exists a t, Fs.balloc pid ROOTDEV w = Ret (a, set_blk t w)
    /\ dstart <= a < sb_size sb /\ used V sb a = false
    /\ (forall b, 0 <= b < a -> used V sb b = true)
    /\ tx pid c t (balloc_view sb V a) Hd (B ∪ {[BBLOCK a sb]} ∪ {[a]}).
Proof.
  intros K Esb Hi Hh Hl Hr Hf. unfold Fs.balloc. rewrite Esb. change 0 with (0 * BPB).
  pose proof BPB_pos. pose proof (fi_sb _ _ _ Hi) as Hs.
  apply balloc_loop_spec; try done; [|intros b Hb; lia].
  assert (0 <= sb_size sb / BPB) by (apply Z.div_pos; destruct Hf as [f [? _]]; lia). lia.
Qed.

(** With no free block left, [balloc] panics. *)
Lemma balloc_loop_full k w V Hd B sb dstart j :
  tx pid c (f_blk w) V Hd B -> f_sb w = sb -> fs_inv sb dstart V -> held_ok sb dstart V Hd ->
  (length Hd < MAXHELD)%nat -> 0 <= j -> sb_size sb / BPB + 1 <= j + Z.of_nat k ->
  (forall b, 0 <= b < sb_size sb -> used V sb b = true) ->
  Fs.balloc_loop pid k ROOTDEV (j * BPB) w = Panic "balloc: out of blocks".
Proof.
  revert w j. induction k as [|k IH]; intros w j K Esb Hi Hh Hl Hj Hk Hall; pose proof BPB_pos;
    cbn [Fs.balloc_loop]; rewrite Esb.
  { rewrite (proj2 (Z.ltb_ge _ _)); [done|]. pose proof (Z.mul_succ_div_gt (sb_size sb) BPB ltac:(lia)). nia. }
  destruct (Z.ltb_spec (j * BPB) (sb_size sb)) as [Hjs|_]; [|done]. assert (Hjb : 0 <= j * BPB) by nia.
  pose proof (held_not_bitmap sb dstart V Hd (j * BPB) Hi Hh ltac:(lia)) as Hnb.
  destruct (fs_bread w V Hd B _ K Hnb Hl) as (bp & t1 & E1 & K1). rewrite E1. cbn [mbind outcome_bind].
  rewrite (fs_data (set_blk t1 w) V Hd B bp _ K1). change (f_sb (set_blk t1 w)) with (f_sb w). rewrite Esb.
  destruct (balloc_scan_spec (Z.to_nat BPB) (V (BBLOCK (j * BPB) sb)) (sb_size sb) (j * BPB) 0)
    as (S1 & S2 & _); [lia|lia|].
  destruct (Fs.balloc_scan _ _ _ _ _) as [bi|] eqn:Es.
  { pose proof (S2 bi eq_refl) as Hbi. destruct (S1 bi Hbi eq_refl) as (A1 & A2 & A3 & _).
    destruct (bit_of_block sb j bi) as [Eb Em]; [lia|].
    pose proof (Hall (j * BPB + bi) ltac:(lia)) as Hu. unfold used in Hu. rewrite Eb, Em in Hu. congruence. }
  destruct (fs_brelse (set_blk t1 w) _ Hd _ bp _ K1) as (t2 & E2 & K2). rewrite E2, set_blk_set.
  cbn [mbind outcome_bind]. replace (j * BPB + BPB) with ((j + 1) * BPB) by lia. apply IH; try done; lia.
Qed.

(** ** Freeing a block *)

Definition bfree_view (sb : superblock) (V : Z -> list Z) (a : Z) : Z -> list Z :=
  vset V (BBLOCK a sb) (Fs.bm_clear (V (BBLOCK a sb)) (a mod BPB)).

Lemma used_bfree sb dstart V a b :
  fs_inv sb dstart V -> dstart <= a < sb_size sb -> 0 <= b < sb_size sb ->
  used (bfree_view sb V a) sb b = if decide (b = a) then false else used V sb b.
Proof.
  intros Hi Ha Hb. pose proof (fi_sb _ _ _ Hi) as Hs. pose proof (so_size _ _ Hs). pose proof BPB_pos.
  unfold bfree_view. rewrite (used_bit _ dstart) by (done || lia).
  destruct (decide (a / BPB = b / BPB)) as [E|E].
  - rewrite bm_test_clear by (try apply Hi; apply Z.mod_pos_bound; lia).
    destruct (decide (b mod BPB = a mod BPB)) as [E2|E2].
    + rewrite decide_True; [done|]. symmetry. by apply same_bit.
    + rewrite decide_False by (by intros ->). unfold used, BBLOCK. by rewrite E.
  - rewrite decide_False by (by intros ->). done.
Qed.

Lemma bfree_view_ok sb dstart V a :
  fs_inv sb dstart V -> dstart <= a < sb_size sb -> fs_inv sb dstart (bfree_view sb V a).
Proof.
  intros Hi Ha. pose proof (fi_sb _ _ _ Hi) as Hs. split; [done| | |apply Hi].
  - intros x. unfold bfree_view, vset. case_decide; [|apply Hi]. unfold Fs.bm_clear. apply byte_store_ok, Hi.
  - intros b Hb. rewrite (used_bfree _ dstart) by (done || (destruct Hs; lia)).
    rewrite decide_False by lia. by apply Hi.
Qed.

Lemma bfree_spec w V Hd B sb dstart a :
  tx pid c (f_blk w) V Hd B -> f_sb w = sb -> fs_inv sb dstart V -> held_ok sb dstart V Hd ->
  (length Hd < MAXHELD)%nat -> room B 1 -> dstart <= a < sb_size sb ->
  if used V sb a then
    exists t, Fs.bfree pid ROOTDEV a w = Ret (set_blk t w)
      /\ tx pid c t (bfree_view sb V a) Hd (B ∪ {[BBLOCK a sb]})
  else Fs.bfree pid ROOTDEV a w = Panic "freeing free block".
Proof.
  intros K Esb Hi Hh Hl Hr Ha. pose proof (fi_sb _ _ _ Hi) as Hs. pose proof (so_size _ _ Hs).
  pose proof (held_not_bitmap sb dstart V Hd a Hi Hh ltac:(lia)) as Hnb.
  destruct (room_add B 1 (BBLOCK a sb) Hr ltac:(lia)) as [_ R].
  destruct (bblock_eq sb dstart a Hs ltac:(lia)) as [_ Hbr].
  destruct (fs_rmw w V Hd B (BBLOCK a sb) (fun d => Fs.bm_clear d (a mod BPB)) K Hnb Hl)
    as (b & t1 & t2 & t3 & E1 & Ed & E2 & E3 & K3); [|done|].
  { apply (fs_meta_home sb dstart V); [done|lia]. }
  unfold Fs.bfree. rewrite Esb, E1. cbn [mbind outcome_bind]. rewrite Ed.
  change (Fs.bm_test (V (BBLOCK a sb)) (a mod BPB)) with (used V sb a).
  destruct (used V sb a); simpl negb; cbv iota; [|done].
  exists t3. rewrite E2. cbn [mbind outcome_bind]. done.
Qed.

End Tx.

End FsBlocks.
