(* ===== verification/FsInode.v ===== *)
(** * The block tree of an inode

    The blocks of a file form a tree: the direct blocks and two tables in the
    inode, and the entries of the tables.  A position in the tree is the path
    of indices that leads to it.  [grow] is what allocating a block does to the
    tree: no reference changes, the bytes of the file stay the same, and no
    block of another file is touched.  [bmap] is then proved to return the
    block at the position of the wanted block, allocating what is missing. *)

From S2P Require Import Prelude Riscv ProcDefs Block Bio Log BlockIO BlockTx Fs FsBlocks.
From stdpp Require Import base list numbers gmap strings sets.
From Stdlib Require Import ZArith Lia.

#[local] Open Scope Z_scope.

Import Block FsBlocks.

Module FsInode.

(** ** Positions *)

(** The block reached from block [a] through table entries. *)
Fixpoint walk (V : Z -> list Z) (a : Z) (js : list Z) : Z :=
  match js with
  | [] => a
  | j :: js => if a =? 0 then 0 else walk V (Fs.tbl (V a) j) js
  end.

(** The block at a position, 0 when there is none. *)
Definition ref (V : Z -> list Z) (addrs : list Z) (p : list Z) : Z :=
  match p with
  | [] => 0
  | k :: js => walk V (nth (Z.to_nat k) addrs 0) js
  end.

Definition entry (j : Z) : Prop := 0 <= j < NINDIRECT.

(** The positions of an inode: its 13 addresses, the entries of the two
    tables, and the entries of the tables in the second. *)
Inductive valid : list Z -> Prop :=
| valid_addr k : 0 <= k < NDIRECT + 2 -> valid [k]
| valid_one j : entry j -> valid [NDIRECT; j]
| valid_two j : entry j -> valid [NDIRECT_EX; j]
| valid_three j k : entry j -> entry k -> valid [NDIRECT_EX; j; k].

(** The position of block [n] of the file. *)
Definition path_of (n : Z) : list Z :=
  if n <? NDIRECT then [n]
  else if n <? NDIRECT + NINDIRECT then [NDIRECT; n - NDIRECT]
  else [NDIRECT_EX; (n - NDIRECT - NINDIRECT) / NINDIRECT; (n - NDIRECT - NINDIRECT) mod NINDIRECT].

Lemma path_of_valid n : 0 <= n < MAXFILE -> valid (path_of n).
Proof.
  intros Hn. unfold path_of, MAXFILE, NINDIRECT_SEC, NINDIRECT, NDIRECT in *. repeat case_if; bool_to_prop; constructor; unfold entry, NDIRECT, NINDIRECT; dlia.
Qed.

Lemma path_of_inj n m : 0 <= n < MAXFILE -> 0 <= m < MAXFILE -> path_of n = path_of m -> n = m.
Proof.
  intros Hn Hm. unfold path_of, MAXFILE, NINDIRECT_SEC, NINDIRECT, NDIRECT_EX, NDIRECT in *.
  repeat case_if; bool_to_prop; intros [=]; dlia.
Qed.

(** No block of the file is at the position of a table. *)
Lemma path_of_not_table n p j : 0 <= n < MAXFILE -> valid (p ++ [j]) -> p <> [] -> path_of n <> p.
Proof.
  intros Hn Hv Hp E. subst p. unfold path_of, MAXFILE, NINDIRECT_SEC, NINDIRECT, NDIRECT_EX, NDIRECT in *.
  repeat case_if_in Hv; simpl in Hv; inversion Hv; unfold NDIRECT_EX, NDIRECT in *; lia.
Qed.

Lemma valid_prefix p j : valid (p ++ [j]) -> p <> [] -> valid p.
Proof.
  intros Hv Hp. destruct p as [|k [|k2 [|k3 [|]]]]; simpl in Hv; inversion Hv; subst; try done;
    constructor; unfold NDIRECT_EX, NDIRECT; lia || done.
Qed.

Lemma valid_entry p j : valid (p ++ [j]) -> p <> [] -> entry j.
Proof.
  intros Hv Hp. destruct p as [|k [|k2 [|k3 [|]]]]; simpl in Hv; inversion Hv; subst; done.
Qed.

Lemma valid_nonempty p : valid p -> p <> [].
Proof. by destruct 1. Qed.

Lemma walk_0 V js : walk V 0 js = 0.
Proof. by destruct js. Qed.

Lemma walk_snoc V a js j : walk V a (js ++ [j]) =
  if walk V a js =? 0 then 0 else Fs.tbl (V (walk V a js)) j.
Proof.
  revert a. induction js as [|i js IH]; intros a; simpl; [done|].
  destruct (a =? 0); [done|]. apply IH.
Qed.

(** The entry [j] of the inode itself ([p = []]) or of the table at [p]. *)
Lemma ref_snoc V addrs p j : p <> [] -> ref V addrs (p ++ [j]) =
  if ref V addrs p =? 0 then 0 else Fs.tbl (V (ref V addrs p)) j.
Proof. destruct p as [|k js]; [done|]. intros _. apply walk_snoc. Qed.

Lemma tbl_put32 d j a i :
  block_ok d -> entry j -> entry i -> 0 <= a < 2 ^ 32 ->
  Fs.tbl (put32 d (4 * j) a) i = if decide (i = j) then a else Fs.tbl d i.
Proof.
  intros Hd Hj Hi Ha. unfold Fs.tbl, entry, NINDIRECT in *. destruct (decide (i = j)) as [->|Hne].
  - rewrite get_put32 by (done || unfold BSIZE; lia). by apply u32_small.
  - apply get_put32_ne; lia.
Qed.

Lemma tbl_zero j : Fs.tbl zero_block j = 0.
Proof.
  unfold Fs.tbl, get_u32, get_le, zero_block. rewrite drop_replicate, take_replicate.
  generalize (4 `min` (Z.to_nat BSIZE - Z.to_nat (4 * j)))%nat. intros n. induction n as [|n IH]; simpl; [done|].
  by rewrite IH.
Qed.

(** ** Well-formed inodes *)

Record inode_ok (sb : superblock) (dstart : Z) (V : Z -> list Z) (addrs : list Z) : Prop := MkInodeOk {
  io_len : length addrs = Z.to_nat (NDIRECT + 2);
  io_used : forall p, valid p -> ref V addrs p <> 0 ->
    dstart <= ref V addrs p < sb_size sb /\ used V sb (ref V addrs p) = true;
  io_inj : forall p q, valid p -> valid q -> ref V addrs p <> 0 -> ref V addrs p = ref V addrs q -> p = q
}.

(** The byte at [off] of the file; a missing block reads as zeros. *)
Definition content (V : Z -> list Z) (addrs : list Z) (off : Z) : Z :=
  let b := ref V addrs (path_of (off / BSIZE)) in
  if b =? 0 then 0 else nth (Z.to_nat (off mod BSIZE)) (V b) 0.

(** [V'] and [addrs'] differ from [V] and [addrs] by the allocation of some
    blocks of the file. *)
Record grow (sb : superblock) (dstart : Z) (V : Z -> list Z) (addrs : list Z)
    (V' : Z -> list Z) (addrs' : list Z) : Prop := MkGrow {
  gr_ok : inode_ok sb dstart V' addrs';
  gr_keep : forall p, valid p -> ref V addrs p <> 0 -> ref V' addrs' p = ref V addrs p;
  gr_new : forall p, valid p -> ref V addrs p = 0 -> ref V' addrs' p <> 0 ->
    used V sb (ref V' addrs' p) = false;
  gr_used : forall x, 0 <= x < sb_size sb -> used V sb x = true -> used V' sb x = true;
  gr_frame : forall x, dstart <= x < sb_size sb -> used V sb x = true ->
    (forall p j, p <> [] -> valid (p ++ [j]) -> ref V' addrs' p <> x) -> V' x = V x;
  gr_content : forall off, 0 <= off / BSIZE < MAXFILE -> content V' addrs' off = content V addrs off;
  gr_meta : forall x, x < sb_bmapstart sb -> V' x = V x
}.

Lemma igrow_refl sb dstart V addrs : inode_ok sb dstart V addrs -> grow sb dstart V addrs V addrs.
Proof. intros H. split; try done. Qed.

Lemma igrow_trans sb dstart V1 a1 V2 a2 V3 a3 :
  0 < dstart ->
  grow sb dstart V1 a1 V2 a2 -> grow sb dstart V2 a2 V3 a3 -> grow sb dstart V1 a1 V3 a3.
Proof.
  intros Hd [O1 K1 N1 U1 F1 C1 M1] [O2 K2 N2 U2 F2 C2 M2]. split; try done.
  - intros p Hp Hn. rewrite K2; [by apply K1|done|by rewrite K1].
  - intros p Hp Hz Hn. destruct (decide (ref V2 a2 p = 0)) as [Hz2|Hz2].
    + pose proof (N2 p Hp Hz2 Hn) as Hu. destruct (used V1 sb (ref V3 a3 p)) eqn:E; [|done].
      destruct (io_used _ _ _ _ O2 p Hp Hn) as [[? ?] _].
      by rewrite U1 in Hu by (done || lia).
    + rewrite K2 by done. by apply N1.
  - intros x Hx Hu. auto.
  - intros x Hx Hu Hf. transitivity (V2 x); [apply F2; [done|apply U1; [lia|done]|done]|]. apply F1; [done..|].
    intros p j Hp Hv Er. apply (Hf p j Hp Hv). rewrite K2; [done|by eapply valid_prefix|]. rewrite Er. lia.
  - intros off Hoff. rewrite C2 by done. by apply C1.
  - intros x Hx. rewrite M2 by done. by apply M1.
Qed.

(** ** One allocation *)

(** The references after entry [j0] of the inode or of the table at [p0] has
    been set to the empty block [a]. *)
Lemma ref_ext V addrs V' addrs' p0 j0 a q :
  p0 = [] \/ ref V addrs p0 <> 0 -> ref V addrs (p0 ++ [j0]) = 0 -> a <> 0 ->
  (forall k, 0 <= k < NDIRECT + 2 ->
     nth (Z.to_nat k) addrs' 0 = if decide (p0 = [] /\ k = j0) then a else nth (Z.to_nat k) addrs 0) ->
  (forall p j, p <> [] -> valid (p ++ [j]) -> ref V addrs p <> 0 ->
     Fs.tbl (V' (ref V addrs p)) j
     = if decide (p = p0 /\ j = j0) then a else Fs.tbl (V (ref V addrs p)) j) ->
  (forall j, Fs.tbl (V' a) j = 0) ->
  valid q -> ref V' addrs' q = if decide (q = p0 ++ [j0]) then a else ref V addrs q.
Proof.
  intros Hp0 Hz Ha Hk Ht Ha0. induction q as [|j p IH] using rev_ind; intros Hv; [by apply valid_nonempty in Hv|].
  destruct (decide (p = [])) as [->|Hp].
  - simpl in *. assert (Hj : 0 <= j < NDIRECT + 2) by (by inversion Hv). rewrite Hk by done.
    destruct (decide (p0 = [])) as [->|Hne].
    + simpl. destruct (decide (j = j0)) as [->|Hnj]; [by rewrite !decide_True|].
      rewrite !decide_False; [done|by intros [= ->]|by intros [_ ->]].
    + rewrite !decide_False; [done| |by intros [-> _]].
      intros E. apply (f_equal length) in E. rewrite length_app in E. destruct p0; [done|simpl in E; lia].
  - rewrite !ref_snoc by done. rewrite (IH (valid_prefix _ _ Hv Hp)).
    destruct (decide (p = p0 ++ [j0])) as [->|Hne].
    + rewrite (proj2 (Z.eqb_neq _ _) Ha), Ha0, Hz. simpl.
      rewrite decide_False; [done|]. intros E. apply (f_equal length) in E. rewrite !length_app in E. simpl in E. lia.
    + destruct (Z.eqb_spec (ref V addrs p) 0) as [E0|E0].
      * rewrite decide_False; [done|]. intros E. apply app_inj_tail in E as [-> ->]. by destruct Hp0.
      * rewrite Ht by done. destruct (decide (p = p0 /\ j = j0)) as [[-> ->]|Hn]; [by rewrite decide_True|].
        rewrite decide_False; [done|]. intros E. apply app_inj_tail in E as [-> ->]. by apply Hn.
Qed.

Lemma nth_zero_block n : nth n zero_block 0 = 0.
Proof. unfold zero_block. rewrite nth_lookup. destruct (_ !! n) as [x|] eqn:E; [|done]. by apply lookup_replicate in E as [-> _]. Qed.

Section Ext.
Context (sb : superblock) (dstart : Z) (V : Z -> list Z) (addrs : list Z) (V' : Z -> list Z) (addrs' : list Z).
Context (p0 : list Z) (j0 a : Z).
Hypothesis Hd : 0 < dstart.
Hypothesis Hok : inode_ok sb dstart V addrs.
Hypothesis Hv0 : valid (p0 ++ [j0]).
Hypothesis Hp0 : p0 = [] \/ ref V addrs p0 <> 0.
Hypothesis Hz : ref V addrs (p0 ++ [j0]) = 0.
Hypothesis Ha : dstart <= a < sb_size sb.
Hypothesis Hfree : used V sb a = false.
Hypothesis Hlen : length addrs' = length addrs.
Hypothesis Hblocks : forall x, block_ok (V x).
Hypothesis Hk : forall k, 0 <= k < NDIRECT + 2 ->
  nth (Z.to_nat k) addrs' 0 = if decide (p0 = [] /\ k = j0) then a else nth (Z.to_nat k) addrs 0.
Hypothesis Htab : p0 <> [] -> V' (ref V addrs p0) = put32 (V (ref V addrs p0)) (4 * j0) a.
Hypothesis Hnew : V' a = zero_block.
Hypothesis Hsame : forall x, dstart <= x -> x <> a -> (p0 = [] \/ x <> ref V addrs p0) -> V' x = V x.
Hypothesis Hmeta : forall x, x < sb_bmapstart sb -> V' x = V x.
Hypothesis Hused : forall x, 0 <= x < sb_size sb -> used V' sb x = if decide (x = a) then true else used V sb x.
Hypothesis Hsz : sb_size sb < 2 ^ 32.

Lemma ext_ref q : valid q -> ref V' addrs' q = if decide (q = p0 ++ [j0]) then a else ref V addrs q.
Proof using All.
  apply ref_ext; try done; [lia| |intros j; rewrite Hnew; apply tbl_zero].
  intros p j Hp Hv Hr. pose proof (valid_prefix _ _ Hv Hp) as Hvp.
  destruct (io_used _ _ _ _ Hok p Hvp Hr) as [Hrange Hu].
  destruct (decide (p = p0)) as [->|Hne].
  - rewrite Htab by done. rewrite tbl_put32 by (done || lia || by eapply valid_entry).
    destruct (decide (j = j0)) as [->|Hnj]; [by rewrite decide_True|]. rewrite decide_False; [done|tauto].
  - rewrite decide_False by tauto. rewrite Hsame; [done|lia|congruence|].
    destruct Hp0 as [->|Hr0]; [by left|]. right. intros E. apply Hne.
    apply (io_inj _ _ _ _ Hok); try done.
    destruct (decide (p0 = [])) as [->|]; [done|by eapply valid_prefix].
Qed.

Lemma ext_ok : inode_ok sb dstart V' addrs'.
Proof using All.
  split.
  - rewrite Hlen. apply Hok.
  - intros p Hp. rewrite ext_ref by done. destruct (decide (p = p0 ++ [j0])) as [->|Hne].
    + intros _. split; [done|]. by rewrite Hused, decide_True by (done || lia).
    + intros Hr. destruct (io_used _ _ _ _ Hok p Hp Hr) as [Hrange Hu]. split; [done|].
      rewrite Hused by lia. by case_decide.
  - intros p q Hp Hq. rewrite !ext_ref by done.
    destruct (decide (p = p0 ++ [j0])) as [->|Hne], (decide (q = p0 ++ [j0])) as [->|Hne2]; [done|..].
    + intros _ E. destruct (io_used _ _ _ _ Hok q Hq) as [_ Hu]; [lia|]. congruence.
    + intros Hr E. destruct (io_used _ _ _ _ Hok p Hp Hr) as [_ Hu]. congruence.
    + by apply (io_inj _ _ _ _ Hok).
Qed.

Lemma ext_grow : grow sb dstart V addrs V' addrs'.
Proof using All.
  assert (Hfr : forall x, dstart <= x < sb_size sb -> used V sb x = true ->
    (p0 = [] \/ x <> ref V addrs p0) -> V' x = V x) by (intros x Hx Hu H; apply Hsame; [lia|congruence|done]).
  split.
  - apply ext_ok.
  - intros p Hp Hr. rewrite ext_ref by done. case_decide; [|done]. subst p. done.
  - intros p Hp Hr Hn. rewrite ext_ref in * by done. case_decide; [done|]. done.
  - intros x Hx Hu. rewrite Hused by done. by case_decide.
  - intros x Hx Hu Hf. apply Hfr; [done..|]. destruct (decide (p0 = [])) as [->|Hne]; [by left|]. right.
    intros ->. apply (Hf p0 j0 Hne Hv0). rewrite ext_ref by (by eapply valid_prefix).
    rewrite decide_False; [done|]. intros E. apply (f_equal length) in E. rewrite length_app in E. simpl in E. lia.
  - intros off Hoff. unfold content. pose proof (path_of_valid _ Hoff) as Hv. rewrite ext_ref by done.
    destruct (decide (path_of (off / BSIZE) = p0 ++ [j0])) as [E|Hne].
    + rewrite E, Hz, Hnew, nth_zero_block. by destruct (a =? 0).
    + destruct (Z.eqb_spec (ref V addrs (path_of (off / BSIZE))) 0) as [E0|E0]; [done|].
      destruct (io_used _ _ _ _ Hok _ Hv E0) as [Hrange Hu]. f_equal. apply Hfr; [done..|].
      destruct (decide (p0 = [])) as [->|Hnp]; [by left|]. right. intros E.
      apply (path_of_not_table _ _ _ Hoff Hv0 Hnp). apply (io_inj _ _ _ _ Hok); try done. by eapply valid_prefix.
  - exact Hmeta.
Qed.

End Ext.

(** ** Free space *)

(** At least [n] blocks are free. *)
Definition avail (sb : superblock) (V : Z -> list Z) (n : nat) : Prop :=
  exists l, NoDup l /\ length l = n /\ Forall (fun b => 0 <= b < sb_size sb /\ used V sb b = false) l.

Lemma avail_free sb V n : avail sb V (S n) -> exists b, 0 <= b < sb_size sb /\ used V sb b = false.
Proof. intros ([|b l] & _ & Hl & Hf); [done|]. apply Forall_cons in Hf as [Hb _]. by exists b. Qed.

Lemma NoDup_take {A} (l : list A) n : NoDup l -> NoDup (take n l).
Proof. intros H. rewrite <- (take_drop n l) in H. apply NoDup_app in H as [H _]. exact H. Qed.

Lemma avail_take sb V V' a n :
  (forall x, 0 <= x < sb_size sb -> used V' sb x = if decide (x = a) then true else used V sb x) ->
  avail sb V (S n) -> avail sb V' n.
Proof.
  intros Hu (l & Hnd & Hl & Hf).
  assert (Hx : exists l', NoDup l' /\ (n <= length l')%nat /\ (forall x, x ∈ l' -> x ∈ l /\ x <> a)).
  { destruct (decide (a ∈ l)) as [Hin|Hin].
    - apply list_elem_of_split in Hin as (l1 & l2 & ->). exists (l1 ++ l2).
      apply NoDup_app in Hnd as (N1 & N2 & N3). apply NoDup_cons in N3 as [N3 N4]. rewrite length_app in *. simpl in Hl.
      split; [|split; [lia|]].
      + apply NoDup_app. split_and!; try done. intros x H1 H2. apply (N2 x H1). by constructor.
      + intros x [Hx|Hx]%elem_of_app; (split; [set_solver|]).
        * intros ->. apply (N2 a Hx). constructor.
        * by intros ->.
    - exists l. split; [done|]. split; [lia|]. intros x Hx. split; [done|]. by intros ->. }
  destruct Hx as (l' & N & Hl' & Hx). exists (take n l'). split; [by apply NoDup_take|].
  split; [rewrite length_take; lia|]. apply Forall_take, Forall_forall. intros x Hin.
  destruct (Hx x Hin) as [Hxl Hxa]. rewrite Forall_forall in Hf. destruct (Hf x Hxl) as [Hr Hxu].
  split; [done|]. by rewrite Hu, decide_False.
Qed.

Lemma avail_le sb V n m : (m <= n)%nat -> avail sb V n -> avail sb V m.
Proof.
  intros Hm (l & Hnd & Hl & Hf). exists (take m l). split; [by apply NoDup_take|].
  split; [rewrite length_take; lia|]. by apply Forall_take.
Qed.

(** ** bmap *)

(** The inode at [ip] has got the addresses [addrs']; the rest of the table is
    unchanged. *)
Record istep {T} (w w' : fsys T) (ip : Z) (addrs' : list Z) : Prop := MkIstep {
  is_sb : f_sb w' = f_sb w;
  is_self : ino w' ip = set_iaddrs addrs' (ino w ip);
  is_other : forall j, j <> ip -> ino w' j = ino w j
}.

Lemma set_iaddrs_same x : set_iaddrs (i_addrs x) x = x.
Proof. by destruct x. Qed.

Lemma istep_blk {T} (w : fsys T) t ip : istep w (set_blk t w) ip (i_addrs (ino w ip)).
Proof. split; [done| |done]. by rewrite set_iaddrs_same. Qed.

Lemma istep_trans {T} (w1 w2 w3 : fsys T) ip a2 a3 :
  istep w1 w2 ip a2 -> istep w2 w3 ip a3 -> istep w1 w3 ip a3.
Proof.
  intros [A1 A2 A3] [B1 B2 B3]. split; [congruence| |intros j Hj; rewrite B3 by done; by apply A3].
  rewrite B2, A2. by destruct (ino w1 ip).
Qed.

Lemma ino_iset {T} (w : fsys T) ip f j : ino (iset ip f w) j = if decide (j = ip) then f (ino w ip) else ino w j.
Proof.
  unfold ino, iset. simpl. destruct (decide (j = ip)) as [->|Hne]; [by rewrite lookup_insert_eq|].
  by rewrite lookup_insert_ne.
Qed.

Section Bmap.
Context {T : Type} `{BIO : BlockIO T} `{BTX : !BlockTx T}.
Context (pid : Z) (c : tx_ctx) (sb : superblock) (dstart ip : Z).

(** The state of an operation that holds no buffer: the block layer, the
    bitmap and the inode [ip] are in order. *)
Record in_op (w : fsys T) (V : Z -> list Z) (B : gset Z) : Prop := MkInOp {
  op_tx : tx pid c (f_blk w) V [] B;
  op_sb : f_sb w = sb;
  op_inv : fs_inv c sb dstart V;
  op_dev : i_dev (ino w ip) = ROOTDEV;
  op_ok : inode_ok sb dstart V (i_addrs (ino w ip))
}.

(** From [w], block [a] has been found or put at position [p]: at most [cost]
    blocks were logged and [n] allocated. *)
Record mapped (w : fsys T) (V : Z -> list Z) (B : gset Z) (p : list Z) (cost : Z) (n : nat)
    (a : Z) (w' : fsys T) (V' : Z -> list Z) (B' : gset Z) : Prop := MkMapped {
  mp_op : in_op w' V' B';
  mp_step : istep w w' ip (i_addrs (ino w' ip));
  mp_grow : grow sb dstart V (i_addrs (ino w ip)) V' (i_addrs (ino w' ip));
  mp_ref : ref V' (i_addrs (ino w' ip)) p = a;
  mp_nz : a <> 0;
  mp_log : Z.of_nat (size B') <= Z.of_nat (size B) + cost;
  mp_avail : forall m, avail sb V (m + n) -> avail sb V' m;
  mp_same : ref V (i_addrs (ino w ip)) p <> 0 ->
    (forall x, V' x = V x) /\ B' = B /\ exists t, w' = set_blk t w
}.

Lemma in_op_blk w V B t : in_op w V B -> tx pid c t V [] B -> in_op (set_blk t w) V B.
Proof. intros [A1 A2 A3 A4 A5] K. by split. Qed.

(** Nothing had to be allocated. *)
Lemma mapped_found w V B t p cost n a :
  in_op w V B -> tx pid c t V [] B -> ref V (i_addrs (ino w ip)) p = a -> a <> 0 -> 0 <= cost ->
  mapped w V B p cost n a (set_blk t w) V B.
Proof.
  intros O K Hr Ha Hc. split; try done.
  - by apply in_op_blk.
  - exact (istep_blk w t ip).
  - apply igrow_refl. exact (op_ok _ _ _ O).
  - lia.
  - intros m. apply avail_le. lia.
  - intros _. split; [done|]. split; [done|]. by exists t.
Qed.

Lemma size_two (B : gset Z) x y : Z.of_nat (size (B ∪ {[x]} ∪ {[y]})) <= Z.of_nat (size B) + 2.
Proof. rewrite !KernelTx.size_snoc. repeat case_decide; lia. Qed.
Lemma size_three (B : gset Z) x y z : Z.of_nat (size (B ∪ {[x]} ∪ {[y]} ∪ {[z]})) <= Z.of_nat (size B) + 3.
Proof. rewrite !KernelTx.size_snoc. repeat case_decide; lia. Qed.

Lemma addr_entry_spec w V B k :
  in_op w V B -> 0 <= k < NDIRECT + 2 ->
  addr (ino w ip) k <> 0 \/ room B 2 /\ avail sb V 1 ->
  exists a w' V' B', Fs.addr_entry pid ip k w = Ret (a, w') /\ mapped w V B [k] 2 1 a w' V' B'.
Proof.
  intros O Hk Hroom. pose proof O as [K Esb Hi Edev Hok]. unfold Fs.addr_entry.
  change (addr (ino w ip) k) with (ref V (i_addrs (ino w ip)) [k]) in *.
  destruct (Z.eqb_spec (ref V (i_addrs (ino w ip)) [k]) 0) as [E0|E0].
  2: { exists (ref V (i_addrs (ino w ip)) [k]), (set_blk (f_blk w) w), V, B. split; [by destruct w|].
       by apply mapped_found. }
  destruct Hroom as [?|[Hr Hav]]; [done|].
  destruct (balloc_spec pid c w V [] B sb dstart K Esb Hi) as (a & t & E & Ha & Hu & _ & K');
    [by constructor|simpl; unfold MAXHELD; lia|done|by eapply avail_free|].
  rewrite Edev, E. cbn [mbind outcome_bind].
  set (w' := iset ip (set_addr k a) (set_blk t w)). pose proof (so_size _ _ (fi_sb _ _ _ _ Hi)) as Hsz.
  pose proof BPB_pos.
  assert (Eself : ino w' ip = set_addr k a (ino w ip)) by (subst w'; by rewrite ino_iset, decide_True).
  assert (Eaddrs : i_addrs (ino w' ip) = <[Z.to_nat k := a]> (i_addrs (ino w ip))) by by rewrite Eself.
  pose proof (io_len _ _ _ _ Hok) as Hlen. unfold NDIRECT in Hlen, Hk.
  assert (Hgrow : grow sb dstart V (i_addrs (ino w ip)) (balloc_view sb V a) (i_addrs (ino w' ip))).
  { rewrite Eaddrs. apply (ext_grow sb dstart V _ _ _ [] k a); try done; try lia.
    - by constructor.
    - by left.
    - by rewrite length_insert.
    - apply Hi.
    - intros k' Hk'. unfold NDIRECT in Hk'. rewrite nth_insert_Z by lia.
      destruct (decide (k' = k)) as [->|]; [by rewrite decide_True|]. rewrite decide_False; [done|tauto].
    - apply balloc_view_new.
    - intros x Hx Hxa _. apply balloc_view_other; [done|].
      destruct (bblock_eq sb dstart a (fi_sb _ _ _ _ Hi) ltac:(lia)). lia.
    - intros x Hx. by apply (balloc_meta c sb dstart).
    - intros x Hx. by apply (used_balloc c sb dstart). }
  exists a, w', (balloc_view sb V a), (B ∪ {[BBLOCK a sb]} ∪ {[a]}). split; [done|].
  split; try done.
  - split; try done; [by apply balloc_view_ok|by rewrite Eself|apply Hgrow].
  - split; [done|by rewrite Eaddrs|]. intros j Hj. subst w'. by rewrite ino_iset, decide_False.
  - rewrite Eaddrs. simpl. rewrite nth_insert_Z by lia. by rewrite decide_True.
  - lia.
  - apply size_two.
  - intros m. rewrite Nat.add_1_r. apply (avail_take _ _ _ a). intros x Hx. by apply (used_balloc c sb dstart).
Qed.

(** Setting entry [j] of the table at [p] to the new block [a]. *)
Lemma tbl_grow V addrs p j a :
  fs_inv c sb dstart V -> inode_ok sb dstart V addrs -> valid (p ++ [j]) -> p <> [] ->
  ref V addrs p <> 0 -> ref V addrs (p ++ [j]) = 0 -> dstart <= a < sb_size sb -> used V sb a = false ->
  let V' := vset (balloc_view sb V a) (ref V addrs p) (put32 (balloc_view sb V a (ref V addrs p)) (4 * j) a) in
  grow sb dstart V addrs V' addrs /\ fs_inv c sb dstart V'
  /\ (forall x, 0 <= x < sb_size sb -> used V' sb x = if decide (x = a) then true else used V sb x).
Proof.
  intros Hi Hok Hv Hp Hr Hz Ha Hu V'. pose proof (fi_sb _ _ _ _ Hi) as Hs. pose proof (so_size _ _ Hs) as Hsz.
  destruct (io_used _ _ _ _ Hok p (valid_prefix _ _ Hv Hp) Hr) as [Hrange Htu].
  destruct (bblock_eq sb dstart a Hs ltac:(lia)) as [_ Hbb]. pose proof BPB_pos.
  assert (Hta : ref V addrs p <> a) by congruence.
  assert (Et : balloc_view sb V a (ref V addrs p) = V (ref V addrs p)) by (apply balloc_view_other; [done|lia]).
  assert (Hused : forall x, 0 <= x < sb_size sb -> used V' sb x = if decide (x = a) then true else used V sb x).
  { intros x Hx. unfold V'. rewrite (used_vset_data _ dstart) by (done || lia). by apply (used_balloc c sb dstart). }
  split; [|split; [|done]].
  - apply (ext_grow sb dstart V addrs V' addrs p j a); try done; try lia.
    + apply Hi.
    + intros k Hk. rewrite decide_False; [done|]. by intros [? _].
    + intros _. unfold V'. by rewrite vset_eq, Et.
    + unfold V'. rewrite vset_ne by done. apply balloc_view_new.
    + intros x Hx Hxa [?|Hxt]; [done|]. unfold V'. rewrite vset_ne by done. apply balloc_view_other; [done|lia].
    + intros x Hx. unfold V'. rewrite vset_ne by (destruct (bblock_eq sb dstart a Hs ltac:(lia)); lia). by apply (balloc_meta c sb dstart).
  - pose proof (balloc_view_ok c sb dstart V a Hi Ha) as Hi'. split; [done| | |apply Hi].
    + intros x. unfold V', vset at 1. case_decide; [apply put32_ok|]; apply Hi'.
    + intros b Hb. rewrite Hused by lia. case_decide; [done|]. by apply Hi.
Qed.

Lemma tbl_entry_spec w V B p j :
  in_op w V B -> valid (p ++ [j]) -> p <> [] -> ref V (i_addrs (ino w ip)) p <> 0 ->
  ref V (i_addrs (ino w ip)) (p ++ [j]) <> 0 \/ room B 3 /\ avail sb V 1 ->
  exists a w' V' B', Fs.tbl_entry pid ROOTDEV (ref V (i_addrs (ino w ip)) p) j w = Ret (a, w')
    /\ mapped w V B (p ++ [j]) 3 1 a w' V' B'.
Proof.
  intros O Hv Hp Hr Hroom. pose proof O as [K Esb Hi Edev Hok]. unfold Fs.tbl_entry.
  set (tb := ref V (i_addrs (ino w ip)) p) in *.
  destruct (io_used _ _ _ _ Hok p (valid_prefix _ _ Hv Hp) Hr) as [Hrange Htu]. fold tb in Hrange, Htu.
  destruct (fs_bread pid c w V [] B tb K) as (bp & t1 & E1 & K1); [by apply not_elem_of_nil|simpl; unfold MAXHELD; lia|].
  rewrite E1. cbn [mbind outcome_bind]. rewrite (fs_data pid c (set_blk t1 w) V [] B bp tb K1).
  assert (Eref : ref V (i_addrs (ino w ip)) (p ++ [j]) = Fs.tbl (V tb) j).
  { rewrite ref_snoc by done. fold tb. by rewrite (proj2 (Z.eqb_neq _ _) Hr). }
  destruct (Z.eqb_spec (Fs.tbl (V tb) j) 0) as [E0|E0].
  2: { destruct (fs_brelse pid c (set_blk t1 w) V [] B bp tb K1) as (t2 & E2 & K2). rewrite E2, set_blk_set.
       cbn [mbind outcome_bind]. exists (Fs.tbl (V tb) j), (set_blk t2 w), V, B. split; [done|].
       by apply mapped_found. }
  destruct Hroom as [Hne|[Hroom Hav]]; [by rewrite Eref in Hne|].
  destruct (balloc_spec pid c (set_blk t1 w) V [(bp, tb)] B sb dstart K1 Esb Hi)
    as (a & t2 & E2 & Ha & Hu & _ & K2).
  { by apply Forall_singleton. } { simpl. unfold MAXHELD. lia. } { unfold room in *. lia. } { by eapply avail_free. }
  rewrite E2, set_blk_set. cbn [mbind outcome_bind].
  destruct (room_add _ _ (BBLOCK a sb) Hroom ltac:(lia)) as [R1 _].
  destruct (room_add _ _ a R1 ltac:(lia)) as [R2 _]. destruct (room_add _ _ tb R2 ltac:(lia)) as [_ R3].
  destruct (tbl_grow V _ p j a Hi Hok Hv Hp Hr ltac:(by rewrite Eref) Ha Hu) as (Hg & Hi' & Hused). fold tb in Hg, Hi', Hused.
  destruct (fs_log_write pid c (set_blk t2 w) _ [] _ bp tb (fun d => put32 d (4 * j) a) K2) as (t3 & E3 & K3);
    [|done|].
  { apply (fs_meta_home c sb dstart V); [done|]. pose proof (so_bmap _ _ (fi_sb _ _ _ _ Hi)).
    assert (0 <= sb_size sb / BPB) by (apply Z.div_pos; [|apply BPB_pos]; destruct (so_size _ _ (fi_sb _ _ _ _ Hi)); lia). lia. }
  rewrite E3, set_blk_set. cbn [mbind outcome_bind].
  destruct (fs_brelse pid c (set_blk t3 w) _ [] _ bp tb K3) as (t4 & E4 & K4). rewrite E4, set_blk_set.
  cbn [mbind outcome_bind]. eexists a, (set_blk t4 w), _, _. split; [reflexivity|].
  assert (Hdpos : 0 < dstart) by apply (fi_sb _ _ _ _ Hi).
  split; [split; try done; apply Hg|exact (istep_blk w t4 ip)|exact Hg| |lia|apply size_three| |by rewrite Eref].
  - change (ino (set_blk t4 w) ip) with (ino w ip). rewrite ref_snoc by done.
    rewrite (gr_keep _ _ _ _ _ _ Hg p (valid_prefix _ _ Hv Hp) Hr). fold tb. rewrite (proj2 (Z.eqb_neq _ _) Hr), vset_eq.
    rewrite tbl_put32; [by rewrite decide_True| |by eapply valid_entry..|].
    + by apply balloc_view_ok with (dstart := dstart) (c := c).
    + pose proof (so_size _ _ (fi_sb _ _ _ _ Hi)). pose proof BPB_pos. lia.
  - intros m. rewrite Nat.add_1_r. by apply (avail_take _ _ _ a).
Qed.

Lemma ref_prefix V addrs p j : p <> [] -> ref V addrs (p ++ [j]) <> 0 -> ref V addrs p <> 0.
Proof. intros Hp. rewrite ref_snoc by done. by destruct (Z.eqb_spec (ref V addrs p) 0). Qed.

Lemma mapped_trans w V B p c1 n1 a1 w1 V1 B1 j c2 n2 a2 w2 V2 B2 :
  mapped w V B p c1 n1 a1 w1 V1 B1 -> mapped w1 V1 B1 (p ++ [j]) c2 n2 a2 w2 V2 B2 ->
  valid (p ++ [j]) -> p <> [] -> mapped w V B (p ++ [j]) (c1 + c2) (n1 + n2) a2 w2 V2 B2.
Proof.
  intros [O1 S1 G1 R1 Z1 L1 A1 M1] [O2 S2 G2 R2 Z2 L2 A2 M2] Hv Hp. split; try done.
  - by eapply istep_trans.
  - eapply igrow_trans; [|done..]. apply (fi_sb _ _ _ _ (op_inv _ _ _ O1)).
  - lia.
  - intros m Hm. apply A2, A1. eapply avail_le; [|exact Hm]. lia.
  - intros Hr. destruct (M1 (ref_prefix _ _ _ _ Hp Hr)) as (E1 & -> & t1 & ->).
    destruct M2 as (E2 & -> & t2 & ->).
    + by rewrite (gr_keep _ _ _ _ _ _ G1 _ Hv).
    + split; [intros x; by rewrite E2, E1|]. split; [done|]. by exists t2.
Qed.

(** The log space and the free blocks [bmap] may need for block [bn]. *)
Definition bmap_cost (bn : Z) : Z :=
  if bn <? NDIRECT then 2 else if bn <? NDIRECT + NINDIRECT then 5 else 8.
Definition bmap_blocks (bn : Z) : nat :=
  if bn <? NDIRECT then 1 else if bn <? NDIRECT + NINDIRECT then 2 else 3.

(** One more level of the tree, after the block [a1] of the table at [p]. *)
Lemma tbl_step w V B p c1 n1 a1 w1 V1 B1 j :
  mapped w V B p c1 n1 a1 w1 V1 B1 -> valid (p ++ [j]) -> p <> [] ->
  ref V (i_addrs (ino w ip)) (p ++ [j]) <> 0 \/ room B (c1 + 3) /\ avail sb V (n1 + 1) ->
  exists a w' V' B', Fs.tbl_entry pid (i_dev (ino w1 ip)) a1 j w1 = Ret (a, w')
    /\ mapped w V B (p ++ [j]) (c1 + 3) (n1 + 1) a w' V' B'.
Proof.
  intros M1 Hv Hp Hroom. pose proof M1 as [O1 S1 G1 R1 Z1 L1 A1 _]. rewrite (op_dev _ _ _ O1), <- R1.
  destruct (tbl_entry_spec w1 V1 B1 p j O1 Hv Hp) as (a & w' & V' & B' & E & M2); [by rewrite R1| |].
  - destruct Hroom as [Hn|[Hr Ha]]; [left; by rewrite (gr_keep _ _ _ _ _ _ G1)|right]. split.
    + unfold room in *. lia.
    + apply A1. eapply avail_le; [|exact Ha]. lia.
  - exists a, w', V', B'. split; [done|]. by apply (mapped_trans _ _ _ _ _ _ _ _ _ _ _ _ _ _ _ _ _ M1 M2).
Qed.

Lemma room_le B n m : room B n -> m <= n -> room B m.
Proof. unfold room. lia. Qed.

Lemma bmap_spec w V B bn :
  in_op w V B -> 0 <= bn < MAXFILE ->
  ref V (i_addrs (ino w ip)) (path_of bn) <> 0 \/ room B (bmap_cost bn) /\ avail sb V (bmap_blocks bn) ->
  exists a w' V' B', Fs.bmap pid ip bn w = Ret (a, w')
    /\ mapped w V B (path_of bn) (bmap_cost bn) (bmap_blocks bn) a w' V' B'.
Proof.
  intros O Hbn Hroom. pose proof (path_of_valid bn Hbn) as Hv. unfold Fs.bmap, path_of, bmap_cost, bmap_blocks in *.
  case_if; [by apply addr_entry_spec; [|unfold NDIRECT in *; lia|]|].
  destruct (Z.ltb_spec (bn - NDIRECT) NINDIRECT) as [Hi|Hi].
  - rewrite (proj2 (Z.ltb_lt bn (NDIRECT + NINDIRECT))) in * by lia.
    destruct (addr_entry_spec w V B NDIRECT O) as (a1 & w1 & V1 & B1 & E1 & M1); [done| |].
    { destruct Hroom as [Hn|[Hr Ha]]; [left; by apply (ref_prefix V _ [NDIRECT]) in Hn|right].
      split; [apply (room_le _ _ _ Hr); lia|by eapply avail_le; [|exact Ha]; lia]. }
    rewrite E1. cbn [mbind outcome_bind]. by apply (tbl_step _ _ _ [NDIRECT] 2 1 _ _ _ _ _ M1).
  - rewrite (proj2 (Z.ltb_ge bn (NDIRECT + NINDIRECT))) in * by lia.
    rewrite (proj2 (Z.ltb_lt (bn - NDIRECT - NINDIRECT) NINDIRECT_SEC)) by (unfold MAXFILE in Hbn; lia).
    set (fir := (bn - NDIRECT - NINDIRECT) / NINDIRECT) in *. set (sec := (bn - NDIRECT - NINDIRECT) mod NINDIRECT) in *.
    destruct (addr_entry_spec w V B NDIRECT_EX O) as (a1 & w1 & V1 & B1 & E1 & M1); [done| |].
    { destruct Hroom as [Hn|[Hr Ha]]; [left|right].
      - apply (ref_prefix V _ [NDIRECT_EX; fir]) in Hn; [|done]. by apply (ref_prefix V _ [NDIRECT_EX]) in Hn.
      - split; [apply (room_le _ _ _ Hr); lia|by eapply avail_le; [|exact Ha]; lia]. }
    rewrite E1. cbn [mbind outcome_bind].
    assert (Hv2 : valid [NDIRECT_EX; fir]) by (inversion Hv; by constructor).
    destruct (tbl_step _ _ _ [NDIRECT_EX] 2 1 _ _ _ _ fir M1 Hv2) as (a2 & w2 & V2 & B2 & E2 & M2); [done| |].
    { destruct Hroom as [Hn|[Hr Ha]]; [left; by apply (ref_prefix V _ [NDIRECT_EX; fir]) in Hn|right].
      split; [apply (room_le _ _ _ Hr); lia|by eapply avail_le; [|exact Ha]; lia]. }
    rewrite E2. cbn [mbind outcome_bind]. by apply (tbl_step _ _ _ [NDIRECT_EX; fir] 5 2 _ _ _ _ _ M2).
Qed.

End Bmap.

End FsInode.
