(* ===== verification/FsData.v ===== *)
(** * Reading and writing the bytes of a file

    [readi] delivers the bytes of the file and changes nothing; [writei]
    replaces exactly the bytes it is given, extends the file, and leaves every
    block of other files alone.  The other side of the copies is described by
    what a successful copy does ([dest], [source]): both user memory and kernel
    buffers are instances. *)

From S2P Require Import Prelude Riscv ProcDefs UserMem Block Bio Log BlockIO BlockTx Fs FsBlocks FsInode.
From stdpp Require Import base list numbers gmap strings sets.
From Stdlib Require Import ZArith Lia.

#[local] Open Scope Z_scope.

Import Block FsBlocks FsInode.

Module FsData.

Lemma BSIZE_pos : 0 < BSIZE.
Proof. done. Qed.

(** The [n] bytes of the file from [off] on. *)
Definition file_bytes (V : Z -> list Z) (addrs : list Z) (off n : Z) : list Z :=
  content V addrs <$> seqZ off n.

Lemma length_file_bytes V addrs off n : length (file_bytes V addrs off n) = Z.to_nat n.
Proof. unfold file_bytes. by rewrite length_fmap, length_seqZ. Qed.

Lemma file_bytes_app V addrs off n m : 0 <= n -> 0 <= m ->
  file_bytes V addrs off (n + m) = file_bytes V addrs off n ++ file_bytes V addrs (off + n) m.
Proof. intros Hn Hm. unfold file_bytes. by rewrite seqZ_app, fmap_app. Qed.

Lemma nth_take_drop (l : list Z) i c : (i + c <= length l)%nat ->
  take c (drop i l) = (fun k => nth (Z.to_nat k) l 0) <$> seqZ (Z.of_nat i) (Z.of_nat c).
Proof.
  intros Hl. apply list_eq. intros k. rewrite list_lookup_fmap, lookup_take. case_decide.
  - rewrite lookup_drop, lookup_seqZ_lt by lia. simpl. rewrite nth_lookup. 
    destruct (lookup_lt_is_Some_2 l (i + k)%nat ltac:(lia)) as [x Hx].
    replace (Z.to_nat (Z.of_nat i + Z.of_nat k)) with (i + k)%nat by lia. by rewrite Hx.
  - rewrite lookup_seqZ_ge by lia. done.
Qed.

(** One block's worth of bytes. *)
Lemma block_bytes V addrs off n :
  block_ok (V (ref V addrs (path_of (off / BSIZE)))) -> ref V addrs (path_of (off / BSIZE)) <> 0 ->
  0 <= off -> 0 <= n <= BSIZE - off mod BSIZE ->
  take (Z.to_nat n) (drop (Z.to_nat (off mod BSIZE)) (V (ref V addrs (path_of (off / BSIZE)))))
  = file_bytes V addrs off n.
Proof.
  intros [Hl _] Hr Hoff Hn. pose proof (Z.mod_pos_bound off BSIZE BSIZE_pos) as Hm.
  rewrite nth_take_drop by (rewrite Hl; unfold BSIZE in *; lia).
  unfold file_bytes. rewrite !Z2Nat.id by lia. apply list_eq. intros k. rewrite !list_lookup_fmap.
  destruct (decide (k < Z.to_nat n)%nat) as [Hk|Hk]; [|by rewrite !lookup_seqZ_ge by lia].
  rewrite !lookup_seqZ_lt by lia. simpl. f_equal. unfold content.
  assert (E1 : (off + Z.of_nat k) / BSIZE = off / BSIZE).
  { symmetry. apply (Z.div_unique_pos _ _ _ (off mod BSIZE + Z.of_nat k)); [lia|].
    rewrite (Z.div_mod off BSIZE) at 1 by (unfold BSIZE; lia). lia. }
  assert (E2 : (off + Z.of_nat k) mod BSIZE = off mod BSIZE + Z.of_nat k).
  { rewrite Z.mod_eq, E1 by (unfold BSIZE; lia). rewrite (Z.div_mod off BSIZE) at 1 by (unfold BSIZE; lia). lia. }
  by rewrite E1, E2, (proj2 (Z.eqb_neq _ _) Hr).
Qed.

(** ** The loop over the blocks *)

(** The chunk at [off] ends at the block's end or at the end of the request. *)
Lemma fs_chunk_bounds n tot off : tot < n -> 0 <= off ->
  1 <= Fs.chunk n tot off <= BSIZE - off mod BSIZE /\ Fs.chunk n tot off <= n - tot
  /\ (Fs.chunk n tot off = n - tot \/ (off + Fs.chunk n tot off) / BSIZE = off / BSIZE + 1
       /\ (off + Fs.chunk n tot off) mod BSIZE = 0).
Proof.
  intros Hn Hoff. unfold Fs.chunk. pose proof (Z.mod_pos_bound off BSIZE BSIZE_pos). split; [lia|]. split; [lia|].
  destruct (Z.min_spec (n - tot) (BSIZE - off mod BSIZE)) as [[_ ->]|[_ ->]]; [by left|]. right.
  assert (E : off + (BSIZE - off mod BSIZE) = (off / BSIZE + 1) * BSIZE)
    by (rewrite (Z.div_mod off BSIZE) at 1 by (unfold BSIZE; lia); lia).
  rewrite E, Z.div_mul, Z.mod_mul by (unfold BSIZE; lia). done.
Qed.

(** The turns left when [off] is reached and the request ends at [last]. *)
Definition turns (off last : Z) : Z := (last - 1) / BSIZE - off / BSIZE + 1.

Lemma turns_fuel off n : 0 <= off -> 0 < n -> turns off (off + n) <= n / BSIZE + 2.
Proof. intros H1 H2. unfold turns, BSIZE. dlia. Qed.

Lemma turns_next n tot off : tot < n -> 0 <= off ->
  let c := Fs.chunk n tot off in
  tot + c < n -> turns (off + c) (off + (n - tot)) = turns off (off + (n - tot)) - 1.
Proof.
  intros Hn Hoff c Hc. destruct (fs_chunk_bounds n tot off Hn Hoff) as (_ & _ & [E|[E _]]); fold c in E; [lia|].
  unfold turns. rewrite E. lia.
Qed.

Lemma turns_pos off last : 0 <= off < last -> 1 <= turns off last.
Proof. intros H. unfold turns, BSIZE. dlia. Qed.

Section Data.
Context {T : Type} `{BIO : BlockIO T} `{BTX : !BlockTx T}.
Context {U K : Type} `{UM : UserMem U} `{KM : KMem K}.
Context (pid : Z) (c : tx_ctx) (sb : superblock) (dstart ip : Z).

Abbreviation in_op := (in_op pid c sb dstart ip).

(** [n] bytes can be stored from [dst] on; [P bs m] says that [m] holds the
    bytes [bs] there. *)
Definition dest (user_dst dst n : Z) (P : list Z -> U * K -> Prop) : Prop :=
  forall done bs m, P done m -> Z.of_nat (length done + length bs) <= n ->
    exists m', either_copyout user_dst (u64 (dst + Z.of_nat (length done))) bs m = Ret (0, m')
      /\ P (done ++ bs) m'.

(** Every block below the size of the file is allocated. *)
Definition dense (V : Z -> list Z) (x : inode) : Prop :=
  forall n, 0 <= n -> n * BSIZE < i_size x -> ref V (i_addrs x) (path_of n) <> 0.

Lemma off_block off size : 0 <= off < size -> size <= MAXFILE * BSIZE ->
  0 <= off / BSIZE < MAXFILE /\ (off / BSIZE) * BSIZE < size.
Proof. intros H1 H2. unfold BSIZE, MAXFILE, NDIRECT, NINDIRECT_SEC, NINDIRECT in *. dlia. Qed.

Lemma readi_loop_spec k w V B user_dst dst P off0 n tot m :
  in_op w V B -> dense V (ino w ip) -> i_size (ino w ip) <= MAXFILE * BSIZE ->
  dest user_dst dst n P -> 0 <= off0 -> off0 + n <= i_size (ino w ip) -> 0 <= tot <= n ->
  (tot < n -> turns (off0 + tot) (off0 + n) <= Z.of_nat k) ->
  P (file_bytes V (i_addrs (ino w ip)) off0 tot) m ->
  exists t m', Fs.readi_loop pid k ip user_dst (u64 (dst + tot)) (off0 + tot) n tot w m
      = Ret (n, set_blk t w, m')
    /\ in_op (set_blk t w) V B /\ P (file_bytes V (i_addrs (ino w ip)) off0 n) m'.
Proof.
  revert w tot m. induction k as [|k IH]; intros w tot m O Hd Hsz Hdst Hoff Hn Htot Hf HP.
  { destruct (decide (tot < n)) as [Hlt|Hge].
    - pose proof (turns_pos (off0 + tot) (off0 + n) ltac:(lia)). specialize (Hf Hlt). simpl in Hf. lia.
    - replace tot with n in * by lia. simpl. rewrite Z.ltb_irrefl. exists (f_blk w), m.
      split; [by destruct w|]. split; [by destruct w|done]. }
  cbn [Fs.readi_loop]. destruct (Z.ltb_spec tot n) as [Hlt|Hge].
  2: { replace tot with n in * by lia. exists (f_blk w), m. split; [by destruct w|]. split; [by destruct w|done]. }
  set (off := off0 + tot) in *. destruct (off_block off (i_size (ino w ip)) ltac:(lia) Hsz) as [Hbn Hbs].
  pose proof (Hd (off / BSIZE) ltac:(lia) Hbs) as Hr.
  destruct (bmap_spec pid c sb dstart ip w V B (off / BSIZE) O Hbn) as (a & w1 & V1 & B1 & E1 & M1); [by left|].
  destruct (mp_same _ _ _ _ _ _ _ _ _ _ _ _ _ _ _ M1 Hr) as (EV & -> & t1 & ->).
  assert (Ea : a = ref V (i_addrs (ino w ip)) (path_of (off / BSIZE))).
  { rewrite <- (mp_ref _ _ _ _ _ _ _ _ _ _ _ _ _ _ _ M1).
    by rewrite (gr_keep _ _ _ _ _ _ (mp_grow _ _ _ _ _ _ _ _ _ _ _ _ _ _ _ M1) _ (path_of_valid _ Hbn) Hr). }
  pose proof (tx_proper _ _ _ _ V _ _ (op_tx _ _ _ _ _ _ _ _ (mp_op _ _ _ _ _ _ _ _ _ _ _ _ _ _ _ M1)) EV) as K1.
  rewrite E1. cbn [mbind outcome_bind]. change (ino (set_blk t1 w) ip) with (ino w ip).
  rewrite (op_dev _ _ _ _ _ _ _ _ O).
  destruct (fs_bread pid c (set_blk t1 w) V [] B a K1) as (bp & t2 & E2 & K2);
    [by apply not_elem_of_nil|simpl; unfold MAXHELD; lia|].
  rewrite E2, set_blk_set. cbn [mbind outcome_bind]. rewrite (fs_data pid c (set_blk t2 w) V [] B bp a K2).
  destruct (fs_chunk_bounds n tot off Hlt ltac:(lia)) as (C1 & C2 & _). set (ch := Fs.chunk n tot off) in *.
  rewrite Ea, block_bytes; [|apply (fi_ok _ _ _ _ (op_inv _ _ _ _ _ _ _ _ O))|done|lia|lia].
  destruct (Hdst (file_bytes V (i_addrs (ino w ip)) off0 tot) (file_bytes V (i_addrs (ino w ip)) off ch) m HP)
    as (m' & Em & HP'); [rewrite !length_file_bytes; lia|].
  rewrite length_file_bytes, Z2Nat.id in Em by lia. rewrite Em. cbn [mbind outcome_bind]. simpl (0 =? -1). cbv iota.
  destruct (fs_brelse pid c (set_blk t2 w) V [] B bp a K2) as (t3 & E3 & K3). rewrite E3, set_blk_set.
  cbn [mbind outcome_bind]. rewrite <- file_bytes_app in HP' by lia.
  replace (u64 (u64 (dst + tot) + ch)) with (u64 (dst + (tot + ch))) by (unfold u64; rewrite Zplus_mod_idemp_l; f_equal; lia).
  assert (Eoff : u32 (off + ch) = off0 + (tot + ch)).
  { rewrite u32_small; [lia|]. unfold MAXFILE, NDIRECT, NINDIRECT_SEC, NINDIRECT, BSIZE in *. lia. }
  rewrite Eoff. destruct (IH (set_blk t3 w) (tot + ch) m') as (t & m'' & E & O' & HP''); try done.
  - by apply in_op_blk.
  - lia.
  - intros Hlt2. pose proof (turns_next n tot off Hlt ltac:(lia) Hlt2) as Ht. fold ch in Ht. specialize (Hf Hlt).
    replace (off + (n - tot)) with (off0 + n) in Ht by lia. replace (off0 + (tot + ch)) with (off + ch) by lia. lia.
  - exists t, m''. rewrite E, set_blk_set. done.
Qed.

Lemma size_lt_2_31 size : size <= MAXFILE * BSIZE -> size < 2 ^ 31.
Proof. unfold MAXFILE, NDIRECT, NINDIRECT_SEC, NINDIRECT, BSIZE. lia. Qed.

(** The number of bytes [readi] delivers. *)
Definition read_len (x : inode) (off n : Z) : Z :=
  if (i_size x <? off) || (u32 (off + n) <? off) then 0 else Z.min n (i_size x - off).

Lemma readi_spec w V B user_dst dst P off n m :
  in_op w V B -> dense V (ino w ip) -> 0 <= i_size (ino w ip) <= MAXFILE * BSIZE ->
  0 <= off < 2 ^ 32 -> 0 <= n < 2 ^ 32 -> 0 <= dst < 2 ^ 64 ->
  dest user_dst dst (read_len (ino w ip) off n) P -> P [] m ->
  exists t m', Fs.readi pid ip user_dst dst off n w m = Ret (read_len (ino w ip) off n, set_blk t w, m')
    /\ in_op (set_blk t w) V B /\ P (file_bytes V (i_addrs (ino w ip)) off (read_len (ino w ip) off n)) m'.
Proof.
  intros O Hd Hsz Hoff Hn Hdst Hdest HP. unfold Fs.readi, read_len in *. cbv zeta.
  pose proof (size_lt_2_31 _ (proj2 Hsz)) as Hs31.
  destruct ((i_size (ino w ip) <? off) || (u32 (off + n) <? off)) eqn:Eg.
  { exists (f_blk w), m. split; [by destruct w|]. split; [by destruct w|done]. }
  bool_to_prop. assert (Hnw : off + n < 2 ^ 32).
  { destruct (decide (off + n < 2 ^ 32)); [done|]. unfold u32 in *.
    rewrite <- (Z.mod_unique_pos (off + n) (2 ^ 32) 1 (off + n - 2 ^ 32)) in * by lia. lia. }
  rewrite u32_small by lia.
  assert (En : (if i_size (ino w ip) <? off + n then u32 (i_size (ino w ip) - off) else n)
               = Z.min n (i_size (ino w ip) - off)).
  { destruct (Z.ltb_spec (i_size (ino w ip)) (off + n)); [rewrite u32_small by lia|]; lia. }
  rewrite En. set (n' := Z.min n (i_size (ino w ip) - off)) in *.
  destruct (readi_loop_spec (Z.to_nat (n' / BSIZE + 2)) w V B user_dst dst P off n' 0 m O Hd (proj2 Hsz) Hdest)
    as (t & m' & E & O' & HP'); [lia|lia|lia| |done|].
  { intros Hp. pose proof (turns_fuel off n' ltac:(lia) ltac:(lia)). rewrite Z.add_0_r.
    assert (0 <= n' / BSIZE) by (apply Z.div_pos; [lia|done]). lia. }
  rewrite !Z.add_0_r, u64_small in E by done. rewrite E. cbn [mbind outcome_bind].
  rewrite s32_small by lia. by exists t, m'.
Qed.

(** ** Writing one chunk *)

(** A store into a data block of the file changes no reference. *)
Lemma ref_data V addrs n d q :
  inode_ok sb dstart V addrs -> 0 <= n < MAXFILE -> ref V addrs (path_of n) <> 0 -> valid q ->
  ref (vset V (ref V addrs (path_of n)) d) addrs q = ref V addrs q.
Proof.
  intros Hok Hn Hr. induction q as [|j p IH] using rev_ind; intros Hv; [done|].
  destruct (decide (p = [])) as [->|Hp]; [done|]. rewrite !ref_snoc by done.
  pose proof (valid_prefix _ _ Hv Hp) as Hvp. rewrite IH by done.
  destruct (Z.eqb_spec (ref V addrs p) 0) as [E|E]; [done|]. rewrite vset_ne; [done|]. intros E'.
  apply (path_of_not_table n p j Hn Hv Hp). symmetry. apply (io_inj _ _ _ _ Hok); try done. by apply path_of_valid.
Qed.

Lemma data_ok V addrs n d :
  fs_inv c sb dstart V -> inode_ok sb dstart V addrs -> 0 <= n < MAXFILE -> ref V addrs (path_of n) <> 0 ->
  block_ok d ->
  let V' := vset V (ref V addrs (path_of n)) d in
  fs_inv c sb dstart V' /\ inode_ok sb dstart V' addrs
  /\ (forall x, 0 <= x < sb_size sb -> used V' sb x = used V sb x).
Proof.
  intros Hi Hok Hn Hr Hd V'. destruct (io_used _ _ _ _ Hok _ (path_of_valid n Hn) Hr) as [Hrange _].
  assert (Hu : forall x, 0 <= x < sb_size sb -> used V' sb x = used V sb x).
  { intros x Hx. apply (used_vset_data _ dstart); [apply Hi|lia|done]. }
  pose proof (so_size _ _ (fi_sb _ _ _ _ Hi)). split; [|split; [|done]].
  - split; [apply Hi| | |apply Hi].
    + intros x. unfold V', vset. case_decide; [done|apply Hi].
    + intros b Hb. rewrite Hu by lia. by apply Hi.
  - split; [apply Hok| |].
    + intros p Hp. unfold V'. rewrite ref_data by done. intros Hn0.
      destruct (io_used _ _ _ _ Hok p Hp Hn0) as [? Hus]. split; [done|]. rewrite Hu; [done|lia].
    + intros p q Hp Hq. unfold V'. rewrite !ref_data by done. by apply (io_inj _ _ _ _ Hok).
Qed.

Lemma content_data V addrs n d off :
  inode_ok sb dstart V addrs -> 0 <= n < MAXFILE -> ref V addrs (path_of n) <> 0 ->
  0 <= off / BSIZE < MAXFILE ->
  content (vset V (ref V addrs (path_of n)) d) addrs off
  = if decide (off / BSIZE = n) then nth (Z.to_nat (off mod BSIZE)) d 0 else content V addrs off.
Proof.
  intros Hok Hn Hr Hoff. unfold content. rewrite ref_data by (done || by apply path_of_valid).
  destruct (decide (off / BSIZE = n)) as [->|Hne].
  - by rewrite (proj2 (Z.eqb_neq _ _) Hr), vset_eq.
  - destruct (Z.eqb_spec (ref V addrs (path_of (off / BSIZE))) 0) as [E|E]; [done|].
    rewrite vset_ne; [done|]. intros E'. apply Hne. apply path_of_inj; [done..|].
    apply (io_inj _ _ _ _ Hok); try done; by apply path_of_valid.
Qed.

Lemma nth_put_bytes (d bs : list Z) i k :
  0 <= i -> i + Z.of_nat (length bs) <= Z.of_nat (length d) -> 0 <= k < Z.of_nat (length d) ->
  nth (Z.to_nat k) (put_bytes d i bs) 0
  = if decide (i <= k < i + Z.of_nat (length bs)) then nth (Z.to_nat (k - i)) bs 0 else nth (Z.to_nat k) d 0.
Proof.
  intros Hi Hl Hk. unfold put_bytes. rewrite !nth_lookup. destruct (decide (i <= k < i + Z.of_nat (length bs))) as [H|H].
  - rewrite list_lookup_inserts by lia. do 2 f_equal. lia.
  - destruct (decide (k < i)); [rewrite list_lookup_inserts_lt by lia|rewrite list_lookup_inserts_ge by lia]; done.
Qed.

(** From [V0], [a0] to [V], [a] the bytes [data] have been stored at [off]. *)
Record stored (V0 : Z -> list Z) (a0 : list Z) (V : Z -> list Z) (a : list Z) (off : Z) (data : list Z) : Prop := MkStored {
  st_content : forall x, 0 <= x / BSIZE < MAXFILE ->
    content V a x = if decide (off <= x < off + Z.of_nat (length data)) then nth (Z.to_nat (x - off)) data 0
                    else content V0 a0 x;
  st_keep : forall p, valid p -> ref V0 a0 p <> 0 -> ref V a p = ref V0 a0 p;
  st_new : forall p, valid p -> ref V0 a0 p = 0 -> ref V a p <> 0 -> used V0 sb (ref V a p) = false;
  st_used : forall x, 0 <= x < sb_size sb -> used V0 sb x = true -> used V sb x = true;
  st_frame : forall x, dstart <= x < sb_size sb -> used V0 sb x = true ->
    (forall p, valid p -> ref V a p <> x) -> V x = V0 x;
  st_mapped : forall x, off <= x < off + Z.of_nat (length data) -> ref V a (path_of (x / BSIZE)) <> 0;
  st_meta : forall x, x < sb_bmapstart sb -> V x = V0 x
}.

Lemma stored_nil V a off : stored V a V a off [].
Proof.
  split; try done.
  - intros x _. rewrite decide_False; [done|]. simpl. lia.
  - intros x Hx. simpl in Hx. lia.
Qed.

Lemma stored_app V0 a0 V1 a1 V2 a2 off d1 d2 :
  0 < dstart -> 0 <= off -> (off + Z.of_nat (length (d1 ++ d2)) <= MAXFILE * BSIZE) ->
  inode_ok sb dstart V2 a2 ->
  stored V0 a0 V1 a1 off d1 -> stored V1 a1 V2 a2 (off + Z.of_nat (length d1)) d2 ->
  stored V0 a0 V2 a2 off (d1 ++ d2).
Proof.
  intros Hd Hoff Hmax Hok [C1 K1 N1 U1 F1 M1 T1] [C2 K2 N2 U2 F2 M2 T2]. rewrite length_app in Hmax.
  assert (Hvx : forall x, off <= x < off + Z.of_nat (length d1) -> valid (path_of (x / BSIZE))).
  { intros x Hx. apply path_of_valid. unfold MAXFILE, NDIRECT, NINDIRECT_SEC, NINDIRECT, BSIZE in *. dlia. }
  split.
  - intros x Hx. rewrite C2, C1 by done. rewrite length_app.
    destruct (decide (off + Z.of_nat (length d1) <= x < off + Z.of_nat (length d1) + Z.of_nat (length d2))) as [H2|H2].
    + rewrite decide_True by lia. rewrite app_nth2 by lia. f_equal. lia.
    + destruct (decide (off <= x < off + Z.of_nat (length d1))) as [H1|H1].
      * rewrite decide_True by lia. by rewrite app_nth1 by lia.
      * rewrite decide_False by lia. done.
  - intros p Hp Hr. rewrite K2; [by apply K1|done|by rewrite K1].
  - intros p Hp Hz Hn. destruct (decide (ref V1 a1 p = 0)) as [Hz1|Hz1].
    + pose proof (N2 p Hp Hz1 Hn) as Hu. destruct (used V0 sb (ref V2 a2 p)) eqn:E; [|done].
      destruct (io_used _ _ _ _ Hok p Hp Hn) as [? _]. by rewrite U1 in Hu by (done || lia).
    + rewrite K2 by done. by apply N1.
  - auto.
  - intros x Hx Hu Hf. transitivity (V1 x); [apply F2; [done|apply U1; [lia|done]|done]|]. apply F1; [done..|].
    intros p Hp Er. apply (Hf p Hp). rewrite K2; [done|done|lia].
  - intros x Hx. rewrite length_app in Hx. destruct (decide (x < off + Z.of_nat (length d1))); [|apply M2; lia].
    rewrite K2; [apply M1; lia|apply Hvx; lia|apply M1; lia].
  - intros x Hx. rewrite T2 by done. by apply T1.
Qed.

Lemma grow_stored V0 a0 V a off : grow sb dstart V0 a0 V a -> stored V0 a0 V a off [].
Proof.
  intros [O1 K1 N1 U1 F1 C1 T1]. split; try done.
  - intros x Hx. rewrite decide_False; [by apply C1|]. simpl. lia.
  - intros x Hx Hu Hf. apply F1; [done..|]. intros p j Hp Hv. apply Hf. by eapply valid_prefix.
  - intros x Hx. simpl in Hx. lia.
Qed.

(** The store of a chunk into the block it belongs to. *)
Lemma chunk_stored V addrs off bs :
  fs_inv c sb dstart V -> inode_ok sb dstart V addrs -> 0 <= off -> 0 <= off / BSIZE < MAXFILE ->
  ref V addrs (path_of (off / BSIZE)) <> 0 -> Z.of_nat (length bs) <= BSIZE - off mod BSIZE ->
  let b := ref V addrs (path_of (off / BSIZE)) in
  stored V addrs (vset V b (put_bytes (V b) (off mod BSIZE) bs)) addrs off bs.
Proof.
  intros Hi Hok Hoff Hn Hr Hl b. pose proof (Z.mod_pos_bound off BSIZE BSIZE_pos) as Hm.
  destruct (fi_ok _ _ _ _ Hi b) as [Hb _].
  destruct (io_used _ _ _ _ Hok _ (path_of_valid _ Hn) Hr) as [Hrange _].
  assert (Hsame : forall x, off <= x < off + Z.of_nat (length bs) -> x / BSIZE = off / BSIZE).
  { intros x Hx. symmetry. apply (Z.div_unique_pos _ _ _ (x - BSIZE * (off / BSIZE))); [|lia].
    rewrite (Z.div_mod off BSIZE) in Hx by done. lia. }
  split; try done.
  - intros x Hx. unfold b. rewrite content_data by done. fold b.
    pose proof (Z.mod_pos_bound x BSIZE BSIZE_pos) as Hmx. pose proof (Z.div_mod off BSIZE ltac:(done)) as Eo.
    pose proof (Z.div_mod x BSIZE ltac:(done)) as Ex.
    destruct (decide (x / BSIZE = off / BSIZE)) as [E|E].
    + rewrite nth_put_bytes by (rewrite ?Hb; unfold BSIZE in *; lia). rewrite E in Ex.
      destruct (decide (off mod BSIZE <= x mod BSIZE < off mod BSIZE + Z.of_nat (length bs))) as [H|H].
      * rewrite decide_True by lia. f_equal. f_equal. lia.
      * rewrite decide_False by lia. unfold content. rewrite E. by rewrite (proj2 (Z.eqb_neq _ _) Hr).
    + rewrite decide_False; [done|]. intros H. by apply E, Hsame.
  - intros p Hp Hn0. unfold b. by rewrite ref_data.
  - intros p Hp Hz. unfold b. by rewrite ref_data.
  - intros x Hx. unfold b. rewrite (used_vset_data _ dstart); [done|apply Hi|lia|done].
  - intros x Hx Hu Hf. apply vset_ne. intros ->. apply (Hf _ (path_of_valid _ Hn)). unfold b. by rewrite ref_data by (done || by apply path_of_valid).
  - intros x Hx. unfold b. rewrite ref_data by (done || by rewrite Hsame; [apply path_of_valid|]). by rewrite Hsame.
  - intros x Hx. apply vset_ne. destruct (bblock_eq sb dstart 0 (fi_sb _ _ _ _ Hi)) as [_ ?]; [|lia].
    pose proof (so_size _ _ (fi_sb _ _ _ _ Hi)). lia.
Qed.

(** The log space and the free blocks needed to write to block [i]. *)
Definition cost1 (V : Z -> list Z) (addrs : list Z) (i : Z) : Z :=
  (if ref V addrs (path_of i) =? 0 then bmap_cost i else 0) + 1.
Definition blocks1 (V : Z -> list Z) (addrs : list Z) (i : Z) : nat :=
  if ref V addrs (path_of i) =? 0 then bmap_blocks i else 0.

Lemma fs_data_home V addrs p : fs_inv c sb dstart V -> inode_ok sb dstart V addrs -> valid p ->
  ref V addrs p <> 0 -> tx_home c (ref V addrs p).
Proof.
  intros Hi Hok Hp Hr. destruct (io_used _ _ _ _ Hok p Hp Hr) as [Hrange _].
  apply (fs_meta_home c sb dstart V); [done|]. pose proof (so_bmap _ _ (fi_sb _ _ _ _ Hi)).
  pose proof (so_size _ _ (fi_sb _ _ _ _ Hi)).
  assert (0 <= sb_size sb / BPB) by (apply Z.div_pos; [lia|apply BPB_pos]). lia.
Qed.

(** [bmap], with the cost of the case that applies. *)
Lemma bmap_cost1 w V B n :
  in_op w V B -> 0 <= n < MAXFILE -> room B (cost1 V (i_addrs (ino w ip)) n) ->
  avail sb V (blocks1 V (i_addrs (ino w ip)) n) ->
  exists a w1 V1 B1, Fs.bmap pid ip n w = Ret (a, w1)
    /\ mapped pid c sb dstart ip w V B (path_of n) (cost1 V (i_addrs (ino w ip)) n - 1)
         (blocks1 V (i_addrs (ino w ip)) n) a w1 V1 B1.
Proof.
  intros O Hn Hroom Hav. unfold cost1, blocks1 in *.
  destruct (Z.eqb_spec (ref V (i_addrs (ino w ip)) (path_of n)) 0) as [E|E].
  - rewrite Z.add_simpl_r. apply bmap_spec; [done..|]. right. split; [|done]. apply (room_le _ _ _ Hroom). lia.
  - destruct (bmap_spec pid c sb dstart ip w V B _ O Hn (or_introl E)) as (a & w1 & V1 & B1 & E1 & M).
    exists a, w1, V1, B1. split; [done|]. destruct M as [A1 A2 A3 A4 A5 A6 A7 A8].
    destruct (A8 E) as (EV & -> & t & ->). split; try done; [simpl; lia|].
    intros m (l & L1 & L2 & L3). exists l. rewrite Nat.add_0_r in L2. split; [done|]. split; [done|].
    eapply Forall_impl; [exact L3|]. intros x [Hx Hux]. split; [done|]. unfold used. by rewrite EV.
Qed.

(** One turn of [writei]'s loop: the block is found or allocated, modified,
    logged and released. *)
Lemma write_chunk w V B off bs :
  in_op w V B -> 0 <= off -> 0 <= off / BSIZE < MAXFILE -> Z.of_nat (length bs) <= BSIZE - off mod BSIZE ->
  Forall is_byte bs -> room B (cost1 V (i_addrs (ino w ip)) (off / BSIZE)) ->
  avail sb V (blocks1 V (i_addrs (ino w ip)) (off / BSIZE)) ->
  exists a w1 bp t2 t3 t4 V' B',
    Fs.bmap pid ip (off / BSIZE) w = Ret (a, w1) /\ i_dev (ino w1 ip) = ROOTDEV
    /\ Fs.bread pid ROOTDEV a w1 = Ret (bp, set_blk t2 w1)
    /\ Fs.log_write bp (Fs.bmodify bp (fun d => put_bytes d (off mod BSIZE) bs) (set_blk t2 w1)) = Ret (set_blk t3 w1)
    /\ Fs.brelse pid bp (set_blk t3 w1) = Ret (set_blk t4 w1)
    /\ in_op (set_blk t4 w1) V' B' /\ istep w (set_blk t4 w1) ip (i_addrs (ino w1 ip))
    /\ stored V (i_addrs (ino w ip)) V' (i_addrs (ino w1 ip)) off bs
    /\ Z.of_nat (size B') <= Z.of_nat (size B) + cost1 V (i_addrs (ino w ip)) (off / BSIZE)
    /\ (forall m, avail sb V (m + blocks1 V (i_addrs (ino w ip)) (off / BSIZE)) -> avail sb V' m).
Proof.
  intros O Hoff Hn Hl Hbs Hroom Hav.
  destruct (bmap_cost1 w V B _ O Hn Hroom Hav) as (a & w1 & V1 & B1 & E1 & M). pose proof M as [O1 S1 G1 R1 Z1 L1 A1 _].
  pose proof O1 as [K1 Esb1 Hi1 Edev1 Hok1].
  destruct (fs_bread pid c w1 V1 [] B1 a K1) as (bp & t2 & E2 & K2); [by apply not_elem_of_nil|simpl; unfold MAXHELD; lia|].
  assert (Hcost : 1 <= cost1 V (i_addrs (ino w ip)) (off / BSIZE)).
  { unfold cost1, bmap_cost. repeat case_if; lia. }
  destruct (room_add B1 1 a) as [_ R]; [unfold room in *; lia|lia|].
  assert (Hr1 : ref V1 (i_addrs (ino w1 ip)) (path_of (off / BSIZE)) <> 0) by congruence.
  destruct (fs_log_write pid c (set_blk t2 w1) V1 [] B1 bp a (fun d => put_bytes d (off mod BSIZE) bs) K2) as (t3 & E3 & K3);
    [rewrite <- R1; by apply (fs_data_home V1); [| |apply path_of_valid|]|done|].
  destruct (fs_brelse pid c (set_blk t3 w1) _ [] _ bp a K3) as (t4 & E4 & K4).
  pose proof (chunk_stored V1 _ off bs Hi1 Hok1 Hoff Hn Hr1 Hl) as Hst. cbv zeta in Hst. rewrite R1 in Hst.
  destruct (data_ok V1 _ (off / BSIZE) (put_bytes (V1 a) (off mod BSIZE) bs) Hi1 Hok1 Hn Hr1) as (Hi' & Hok' & Hu').
  { apply put_bytes_ok; [apply Hi1|done]. }
  rewrite R1 in Hi', Hok', Hu'.
  exists a, w1, bp, t2, t3, t4, (vset V1 a (put_bytes (V1 a) (off mod BSIZE) bs)), (B1 ∪ {[a]}).
  split; [done|]. split; [done|]. split; [done|]. split; [done|]. split; [done|].
  split; [by split|]. split; [by destruct S1|]. split; [|split].
  - apply (stored_app _ _ V1 (i_addrs (ino w1 ip)) _ _ off [] bs); [apply (fi_sb _ _ _ _ Hi1)|done| |done| |by rewrite Z.add_0_r].
    + simpl. pose proof (Z.div_mod off BSIZE ltac:(done)). unfold BSIZE in *. lia.
    + by apply grow_stored.
  - rewrite KernelTx.size_snoc. case_decide; lia.
  - intros m Hm. destruct (A1 m Hm) as (l & N & Hl' & Hf). exists l. split; [done|]. split; [done|].
    eapply Forall_impl; [exact Hf|]. intros x [Hx Hux]. split; [done|]. by rewrite Hu'.
Qed.

End Data.

End FsData.
