(* ===== verification/FsWrite.v ===== *)
(** * iupdate and writei

    [iupdate] stores the inode where [ilock] reads it; [writei] replaces the
    bytes it is given, extends the size, and stores the inode. *)

From S2P Require Import Prelude Riscv ProcDefs UserMem Block Bio Log BlockIO BlockTx Fs FsBlocks FsInode FsData.
From stdpp Require Import base list numbers gmap strings sets.
From Stdlib Require Import ZArith Lia.

#[local] Open Scope Z_scope.

Import Block FsBlocks FsInode FsData.

Module FsWrite.

(** ** The inode on the disk *)

Lemma get_s16_put16 d off v :
  block_ok d -> 0 <= off <= BSIZE - 2 -> - 2 ^ 15 <= v < 2 ^ 15 -> get_s16 (put16 d off v) off = v.
Proof.
  intros Hd Ho Hv. unfold get_s16. fold (get_u16 (put16 d off v) off). rewrite get_put16 by done.
  unfold s16, u16. dlia.
Qed.

Lemma get_s16_put16_ne d off v off' :
  0 <= off -> 0 <= off' -> off' + 2 <= off \/ off + 2 <= off' -> get_s16 (put16 d off v) off' = get_s16 d off'.
Proof. intros. unfold get_s16, put16. f_equal. apply get_put_le_ne; lia. Qed.

Lemma get_s16_put32_ne d off v off' :
  0 <= off -> 0 <= off' -> off' + 2 <= off \/ off + 4 <= off' -> get_s16 (put32 d off v) off' = get_s16 d off'.
Proof. intros. unfold get_s16, put32. f_equal. apply get_put_le_ne; lia. Qed.

(** A property of the block that the stores of [put_addrs] keep. *)
Lemma put_addrs_ind (P : list Z -> Prop) d off addrs :
  (forall d k, 0 <= k < NDIRECT + 2 -> P d -> P (put32 d (off + 4 * k) (nth (Z.to_nat k) addrs 0))) ->
  P d -> P (Fs.put_addrs d off addrs).
Proof.
  intros Hstep Hd. unfold Fs.put_addrs.
  apply (for_range_ind (fun _ => P)); [unfold NDIRECT; lia|done|]. intros k d' Hk. by apply Hstep.
Qed.

Lemma put_addrs_ok d off addrs : block_ok d -> block_ok (Fs.put_addrs d off addrs).
Proof. apply put_addrs_ind. intros. by apply put32_ok. Qed.

(** A 16-bit field before the addresses, and a 32-bit one. *)
Lemma put_addrs_s16 d off addrs o : 0 <= o -> o + 2 <= off -> get_s16 (Fs.put_addrs d off addrs) o = get_s16 d o.
Proof. intros. apply (put_addrs_ind (fun d' => get_s16 d' o = get_s16 d o)); [|done]. intros d' k Hk <-. apply get_s16_put32_ne; lia. Qed.

Lemma put_addrs_u32 d off addrs o : 0 <= o -> o + 4 <= off -> get_u32 (Fs.put_addrs d off addrs) o = get_u32 d o.
Proof. intros. apply (put_addrs_ind (fun d' => get_u32 d' o = get_u32 d o)); [|done]. intros d' k Hk <-. apply get_put32_ne; lia. Qed.

Lemma get_put_addrs d off addrs :
  block_ok d -> 0 <= off -> off + 4 * (NDIRECT + 2) <= BSIZE ->
  length addrs = Z.to_nat (NDIRECT + 2) -> Forall (fun a => 0 <= a < 2 ^ 32) addrs ->
  Fs.get_addrs (Fs.put_addrs d off addrs) off = addrs.
Proof.
  intros Hd Ho Hb Hl Hf.
  assert (H : block_ok (Fs.put_addrs d off addrs) /\ forall k, 0 <= k < NDIRECT + 2 ->
            get_u32 (Fs.put_addrs d off addrs) (off + 4 * k) = nth (Z.to_nat k) addrs 0).
  { unfold Fs.put_addrs. apply (for_range_ind (fun n d' => block_ok d' /\ forall k, 0 <= k < n ->
      get_u32 d' (off + 4 * k) = nth (Z.to_nat k) addrs 0)); [unfold NDIRECT; lia|split; [done|intros; lia]|].
    intros n d' Hn [Hd' IH]. split; [by apply put32_ok|]. intros k Hk. rewrite Z.add_0_l.
    destruct (decide (k = n)) as [->|Hne]; [|rewrite get_put32_ne by lia; apply IH; lia].
    rewrite get_put32 by (done || lia). apply u32_small. rewrite nth_lookup.
    destruct (addrs !! Z.to_nat n) as [a|] eqn:E; simpl; [|lia]. exact (Forall_lookup_1 _ _ _ _ Hf E). }
  destruct H as [_ H]. unfold Fs.get_addrs. apply list_eq. intros k. rewrite list_lookup_fmap.
  destruct (decide (k < length addrs)%nat) as [Hk|Hk].
  - rewrite lookup_seqZ_lt by lia. simpl. rewrite Z.add_0_l, H by lia.
    rewrite nth_lookup, Nat2Z.id. by destruct (lookup_lt_is_Some_2 addrs k Hk) as [a ->].
  - rewrite lookup_seqZ_ge by lia. symmetry. apply lookup_ge_None. lia.
Qed.

(** The values that fit the fields of a [struct dinode]. *)
Record dinode_fits (x : inode) : Prop := MkDinodeFits {
  df_type : - 2 ^ 15 <= i_type x < 2 ^ 15;
  df_major : - 2 ^ 15 <= i_major x < 2 ^ 15;
  df_minor : - 2 ^ 15 <= i_minor x < 2 ^ 15;
  df_nlink : - 2 ^ 15 <= i_nlink x < 2 ^ 15;
  df_size : 0 <= i_size x < 2 ^ 32;
  df_len : length (i_addrs x) = Z.to_nat (NDIRECT + 2);
  df_addrs : Forall (fun a => 0 <= a < 2 ^ 32) (i_addrs x)
}.

Lemma dinode_put_ok d dip x : block_ok d -> block_ok (Fs.dinode_put d dip x).
Proof. intros Hd. apply put_addrs_ok, put32_ok. by do 4 apply put16_ok. Qed.

Lemma dinode_get_put d dip x y :
  block_ok d -> 0 <= dip -> dip + DINODE_SIZE <= BSIZE -> dinode_fits x ->
  Fs.dinode_get (Fs.dinode_put d dip x) dip y
  = MkInode (i_dev y) (i_inum y) (i_ref y) (i_lock y) (i_valid y)
      (i_type x) (i_major x) (i_minor x) (i_nlink x) (i_size x) (i_addrs x).
Proof.
  intros Hd H1 H2 [F1 F2 F3 F4 F5 F6 F7]. unfold Fs.dinode_get, Fs.dinode_put. cbv zeta.
  unfold DI_type, DI_major, DI_minor, DI_nlink, DI_size, DI_addrs, DINODE_SIZE in *.
  assert (Hk : forall d, block_ok d -> block_ok (put32 (put16 (put16 (put16 (put16 d (dip + 0) (i_type x)) (dip + 2) (i_major x)) (dip + 4) (i_minor x)) (dip + 6) (i_nlink x)) (dip + 8) (i_size x)))
    by (intros; apply put32_ok; by do 4 apply put16_ok).
  rewrite get_put_addrs; [|by apply Hk|lia|unfold NDIRECT; lia|done..].
  rewrite !put_addrs_s16, put_addrs_u32 by lia. rewrite get_put32, (u32_small (i_size x)) by (try lia; by do 4 apply put16_ok).
  rewrite !get_s16_put32_ne by lia. f_equal.
  all: rewrite ?get_s16_put16_ne by lia; apply get_s16_put16; [repeat apply put16_ok; done|lia|done].
Qed.

(** The other inodes of the block keep their bytes. *)
Lemma dinode_put_other d dip x off n :
  0 <= dip -> 0 <= off -> off + Z.of_nat n <= dip \/ dip + DINODE_SIZE <= off ->
  take n (drop (Z.to_nat off) (Fs.dinode_put d dip x)) = take n (drop (Z.to_nat off) d).
Proof.
  intros H1 H2 H. unfold Fs.dinode_put. cbv zeta.
  assert (Hp : forall d k len v, 0 <= k -> k + Z.of_nat len <= DINODE_SIZE ->
     take n (drop (Z.to_nat off) (put_le d (dip + k) len v)) = take n (drop (Z.to_nat off) d)).
  { intros d' k len v Hk Hlen. apply put_bytes_out; [lia|lia|]. rewrite length_le_bytes. lia. }
  unfold DI_type, DI_major, DI_minor, DI_nlink, DI_size, DI_addrs, DINODE_SIZE in *.
  assert (Ha : forall d a, take n (drop (Z.to_nat off) (Fs.put_addrs d (dip + 12) a)) = take n (drop (Z.to_nat off) d)).
  { intros d' a. apply (put_addrs_ind (fun d'' => take n (drop (Z.to_nat off) d'') = _)); [|done].
    intros d'' k Hk <-. rewrite <- Z.add_assoc. apply Hp; unfold NDIRECT in *; lia. }
  rewrite Ha. unfold put32, put16. by rewrite !Hp by lia.
Qed.

(** ** The blocks a write touches *)

Definition touched (off n : Z) : list Z :=
  if n <=? 0 then [] else seqZ (off / BSIZE) (turns off (off + n)).

Lemma touched_cons n tot off : tot < n -> 0 <= off ->
  touched off (n - tot) = off / BSIZE :: touched (off + Fs.chunk n tot off) (n - (tot + Fs.chunk n tot off)).
Proof.
  intros Hn Hoff. pose proof (turns_next n tot off Hn Hoff) as Ht. cbv zeta in Ht.
  destruct (fs_chunk_bounds n tot off Hn Hoff) as (C1 & C2 & C3). set (ch := Fs.chunk n tot off) in *.
  pose proof (turns_pos off (off + (n - tot)) ltac:(lia)) as Hp. pose proof (Z.mod_pos_bound off BSIZE BSIZE_pos). unfold touched.
  rewrite (proj2 (Z.leb_gt (n - tot) 0)) by lia. rewrite seqZ_cons by lia. f_equal.
  destruct (Z.leb_spec (n - (tot + ch)) 0) as [Hle|Hgt].
  - replace (Z.pred (turns off (off + (n - tot)))) with 0; [done|].
    assert (ch = n - tot) by lia. unfold turns.
    enough ((off + (n - tot) - 1) / BSIZE = off / BSIZE) by lia.
    symmetry. apply (Z.div_unique_pos _ _ _ (off mod BSIZE + (n - tot) - 1)); [lia|].
    rewrite (Z.div_mod off BSIZE) at 1 by done. lia.
  - replace (off + ch + (n - (tot + ch))) with (off + (n - tot)) by lia. rewrite Ht by lia.
    destruct C3 as [C3|[C3 _]]; [lia|]. rewrite C3. f_equal; lia.
Qed.

Section Write.
Context {T : Type} `{BIO : BlockIO T} `{BTX : !BlockTx T}.
Context {U K : Type} `{UM : UserMem U} `{KM : KMem K}.
Context (pid : Z) (c : tx_ctx) (sb : superblock) (dstart ip : Z).

Abbreviation in_op := (in_op pid c sb dstart ip).
Abbreviation stored := (stored sb dstart).

(** The log space and the free blocks needed to write to the blocks [l]. *)
Definition wcost (V : Z -> list Z) (addrs : list Z) (l : list Z) : Z := foldr (fun i s => cost1 V addrs i + s) 0 l.
Definition wblocks (V : Z -> list Z) (addrs : list Z) (l : list Z) : nat := foldr (fun i s => blocks1 V addrs i + s)%nat 0%nat l.

Lemma stored_costs V a V' a' off data l :
  stored V a V' a' off data -> Forall (fun i => 0 <= i < MAXFILE) l ->
  wcost V' a' l <= wcost V a l /\ (wblocks V' a' l <= wblocks V a l)%nat.
Proof.
  intros S. induction 1 as [|i l Hi Hl [IH1 IH2]]; simpl; [lia|].
  assert (cost1 V' a' i <= cost1 V a i /\ (blocks1 V' a' i <= blocks1 V a i)%nat); [|lia].
  unfold cost1, blocks1. destruct (Z.eqb_spec (ref V a (path_of i)) 0) as [E|E].
  - assert (0 <= bmap_cost i) by (unfold bmap_cost; repeat case_if; lia). case_if; lia.
  - rewrite (st_keep _ _ _ _ _ _ _ _ S _ (path_of_valid i Hi) E). by rewrite (proj2 (Z.eqb_neq _ _) E).
Qed.

Lemma wcost_nonneg V a l : 0 <= wcost V a l.
Proof.
  induction l as [|i l IH]; simpl; [lia|]. unfold cost1, bmap_cost. repeat case_if; lia.
Qed.

(** [data] can be read from [src] on as long as [P] holds. *)
Definition source (user_src src : Z) (data : list Z) (P : U * K -> Prop) : Prop :=
  forall m i n, P m -> 0 <= i -> 0 <= n -> i + n <= Z.of_nat (length data) ->
    exists m', either_copyin user_src (u64 (src + i)) n m
      = Ret (0, take (Z.to_nat n) (drop (Z.to_nat i) data), m') /\ P m'.

(** [data] has been written at [off]: what the loop of [writei] does. *)
Record fwrote (w : fsys T) (V : Z -> list Z) (B : gset Z) (off : Z) (data : list Z)
    (w' : fsys T) (V' : Z -> list Z) (B' : gset Z) : Prop := MkFwrote {
  wr_op : in_op w' V' B';
  wr_step : istep w w' ip (i_addrs (ino w' ip));
  wr_stored : stored V (i_addrs (ino w ip)) V' (i_addrs (ino w' ip)) off data;
  wr_log : Z.of_nat (size B')
    <= Z.of_nat (size B) + wcost V (i_addrs (ino w ip)) (touched off (Z.of_nat (length data)))
}.

Lemma touched_bound off n : 0 <= off -> off + n <= MAXFILE * BSIZE -> Forall (fun i => 0 <= i < MAXFILE) (touched off n).
Proof.
  intros H1 H2. unfold touched. destruct (Z.leb_spec n 0); [constructor|]. rewrite Forall_forall. intros i Hi.
  apply elem_of_seqZ in Hi. unfold turns, MAXFILE, NDIRECT, NINDIRECT_SEC, NINDIRECT, BSIZE in *. dlia.
Qed.

Lemma fwrote_nil w V B off : in_op w V B -> fwrote w V B off [] w V B.
Proof.
  intros O. split; [done| |apply stored_nil|simpl; unfold touched; simpl; lia].
  split; [done| |done]. by rewrite set_iaddrs_same.
Qed.

Lemma fwrote_app w V B off d1 w1 V1 B1 d2 w2 V2 B2 l1 :
  0 < dstart -> 0 <= off -> off + Z.of_nat (length (d1 ++ d2)) <= MAXFILE * BSIZE ->
  in_op w1 V1 B1 -> istep w w1 ip (i_addrs (ino w1 ip)) ->
  stored V (i_addrs (ino w ip)) V1 (i_addrs (ino w1 ip)) off d1 ->
  Z.of_nat (size B1) <= Z.of_nat (size B) + cost1 V (i_addrs (ino w ip)) l1 ->
  touched off (Z.of_nat (length (d1 ++ d2))) = l1 :: touched (off + Z.of_nat (length d1)) (Z.of_nat (length d2)) ->
  fwrote w1 V1 B1 (off + Z.of_nat (length d1)) d2 w2 V2 B2 ->
  fwrote w V B off (d1 ++ d2) w2 V2 B2.
Proof.
  intros Hd Hoff Hmax O1 S1 St1 L1 Ht [O2 S2 St2 L2]. split; [done|by eapply istep_trans| |].
  - eapply stored_app; [done..| |done|done]. apply (op_ok _ _ _ _ _ _ _ _ O2).
  - rewrite Ht. simpl. rewrite length_app in Hmax.
    pose proof (proj1 (stored_costs _ _ _ _ _ _ _ St1 (touched_bound (off + Z.of_nat (length d1)) (Z.of_nat (length d2)) ltac:(lia) ltac:(lia)))).
    lia.
Qed.

Lemma writei_loop_spec k w V B user_src src data P off0 tot m :
  in_op w V B -> source user_src src data P -> Forall is_byte data -> 0 <= off0 ->
  off0 + Z.of_nat (length data) <= MAXFILE * BSIZE -> (tot <= length data)%nat ->
  let n := Z.of_nat (length data) in
  let off := off0 + Z.of_nat tot in
  Z.of_nat (length (touched off (n - Z.of_nat tot))) <= Z.of_nat k ->
  room B (wcost V (i_addrs (ino w ip)) (touched off (n - Z.of_nat tot))) ->
  avail sb V (wblocks V (i_addrs (ino w ip)) (touched off (n - Z.of_nat tot))) ->
  P m ->
  exists w' V' B' m', Fs.writei_loop pid k ip user_src (u64 (src + Z.of_nat tot)) off n (Z.of_nat tot) w m
      = Ret (n, off0 + n, w', m')
    /\ fwrote w V B off (drop tot data) w' V' B' /\ P m'.
Proof.
  revert w V B tot m. induction k as [|k IH]; intros w V B tot m O Hsrc Hby Hoff0 Hmax Htot n off Hk Hroom Hav HP;
    cbn [Fs.writei_loop]; destruct (Z.ltb_spec (Z.of_nat tot) n) as [Hlt|Hge].
  2, 4: assert (tot = length data) as -> by lia; rewrite drop_all; exists w, V, B, m; split; [done|]; split; [by apply fwrote_nil|done].
  { rewrite touched_cons in Hk by lia. simpl in Hk. lia. }
  pose proof (touched_cons n (Z.of_nat tot) off Hlt ltac:(lia)) as Et.
  destruct (fs_chunk_bounds n (Z.of_nat tot) off Hlt ltac:(lia)) as (C1 & C2 & _). set (ch := Fs.chunk n (Z.of_nat tot) off) in *.
  rewrite Et in Hk, Hroom, Hav. simpl in Hk, Hroom, Hav. 
  set (rest := touched (off + ch) (n - (Z.of_nat tot + ch))) in *.
  pose proof (touched_bound off (n - Z.of_nat tot) ltac:(lia) ltac:(lia)) as Hbnd. rewrite Et in Hbnd.
  apply Forall_cons in Hbnd as [Hb0 Hbr].
  destruct (Hsrc m (Z.of_nat tot) ch HP ltac:(lia) ltac:(lia) ltac:(lia)) as (m1 & Ec & HP1).
  set (bs := take (Z.to_nat ch) (drop (Z.to_nat (Z.of_nat tot)) data)) in *.
  assert (Hbl : Z.of_nat (length bs) = ch) by (unfold bs; rewrite length_take, length_drop; lia).
  pose proof (wcost_nonneg V (i_addrs (ino w ip)) rest) as Hwn.
  destruct (write_chunk pid c sb dstart ip w V B off bs O ltac:(lia) Hb0) as
    (a & w1 & bp & t2 & t3 & t4 & V1 & B1 & E1 & Edev & E2 & E3 & E4 & O1 & S1 & St1 & L1 & A1).
  { lia. }
  { unfold bs. by apply Forall_take, Forall_drop. }
  { apply (room_le _ _ _ Hroom). lia. }
  { eapply avail_le; [|exact Hav]. lia. }
  rewrite E1. cbn [mbind outcome_bind]. rewrite Edev, E2. cbn [mbind outcome_bind]. rewrite Ec. cbn [mbind outcome_bind].
  simpl (0 =? -1). cbv iota. rewrite E3. cbn [mbind outcome_bind]. rewrite E4. cbn [mbind outcome_bind].
  replace (u64 (u64 (src + Z.of_nat tot) + ch)) with (u64 (src + Z.of_nat (tot + Z.to_nat ch)))
    by (unfold u64; rewrite Zplus_mod_idemp_l; f_equal; lia).
  assert (Eoff : u32 (off + ch) = off0 + Z.of_nat (tot + Z.to_nat ch)).
  { rewrite u32_small; [lia|]. pose proof (size_lt_2_31 _ Hmax). lia. }
  replace (Z.of_nat tot + ch) with (Z.of_nat (tot + Z.to_nat ch)) by lia. rewrite Eoff.
  destruct (stored_costs _ _ _ _ _ _ rest St1 Hbr) as [Hc1 Hc2].
  assert (Er : touched (off0 + Z.of_nat (tot + Z.to_nat ch)) (n - Z.of_nat (tot + Z.to_nat ch)) = rest)
    by (unfold rest; f_equal; lia).
  destruct (IH (set_blk t4 w1) V1 B1 (tot + Z.to_nat ch)%nat m1 O1 Hsrc Hby Hoff0 Hmax ltac:(lia)) as
    (w2 & V2 & B2 & m2 & E & W2 & HP2).
  { fold n. rewrite Er. lia. }
  { fold n. rewrite Er. change (ino (set_blk t4 w1) ip) with (ino w1 ip). unfold room in *. lia. }
  { fold n. rewrite Er. change (ino (set_blk t4 w1) ip) with (ino w1 ip). apply A1. eapply avail_le; [|exact Hav]. lia. }
  { exact HP1. }
  fold n in E. exists w2, V2, B2, m2. split; [exact E|]. split; [|exact HP2].
  assert (Ed : drop tot data = bs ++ drop (tot + Z.to_nat ch) data).
  { unfold bs. rewrite Nat2Z.id, <- drop_drop, take_drop. done. }
  rewrite Ed. eapply (fwrote_app w V B off bs (set_blk t4 w1) V1 B1 _ w2 V2 B2 (off / BSIZE)).
  - apply (fi_sb _ _ _ _ (op_inv _ _ _ _ _ _ _ _ O)).
  - lia.
  - rewrite <- Ed, length_drop. lia.
  - exact O1.
  - exact S1.
  - exact St1.
  - exact L1.
  - rewrite <- Ed, !length_drop, Hbl. replace (Z.of_nat (length data - tot)) with (n - Z.of_nat tot) by lia. rewrite Et.
    unfold rest. do 2 f_equal; lia.
  - rewrite Hbl. replace (off + ch) with (off0 + Z.of_nat (tot + Z.to_nat ch)) by lia. exact W2.
Qed.

(** ** iupdate *)

Lemma iblock_eq i : sb_ok sb dstart -> 0 <= i < sb_ninodes sb ->
  IBLOCK i sb = i / IPB + sb_inodestart sb /\ sb_inodestart sb <= IBLOCK i sb < sb_bmapstart sb.
Proof.
  intros [H1 H2 H3 H4 H5] Hi. unfold IBLOCK. assert (HIPB : 0 < IPB) by reflexivity.
  assert (0 <= i / IPB <= sb_ninodes sb / IPB) by (split; [apply Z.div_pos; lia|apply Z.div_le_mono; lia]).
  assert (0 <= sb_size sb / BPB) by (apply Z.div_pos; [lia|apply BPB_pos]). pose proof BPB_pos.
  rewrite u32_small by lia. lia.
Qed.

(** A store below the data blocks leaves the tree of a file as it is. *)
Lemma ref_meta V addrs x d q : inode_ok sb dstart V addrs -> x < dstart -> valid q ->
  ref (vset V x d) addrs q = ref V addrs q.
Proof.
  intros Hok Hx. induction q as [|j p IH] using rev_ind; intros Hv; [done|].
  destruct (decide (p = [])) as [->|Hp]; [done|]. rewrite !ref_snoc by done.
  pose proof (valid_prefix _ _ Hv Hp) as Hvp. rewrite IH by done.
  destruct (Z.eqb_spec (ref V addrs p) 0) as [E|E]; [done|].
  destruct (io_used _ _ _ _ Hok p Hvp E) as [? _]. rewrite vset_ne; [done|lia].
Qed.

Lemma used_meta V x d b : sb_ok sb dstart -> x < sb_bmapstart sb -> 0 <= b < sb_size sb ->
  used (vset V x d) sb b = used V sb b.
Proof.
  intros Hs Hx Hb. unfold used. rewrite vset_ne; [done|]. destruct (bblock_eq sb dstart b Hs ltac:(lia)). lia.
Qed.

(** A store into an inode block keeps the invariants and every byte of every file. *)
Lemma meta_ok V x d :
  fs_inv c sb dstart V -> x < sb_bmapstart sb -> block_ok d ->
  fs_inv c sb dstart (vset V x d)
  /\ (forall addrs, inode_ok sb dstart V addrs -> inode_ok sb dstart (vset V x d) addrs
       /\ forall off, 0 <= off / BSIZE < MAXFILE -> content (vset V x d) addrs off = content V addrs off).
Proof.
  intros Hi Hx Hd. pose proof (fi_sb _ _ _ _ Hi) as Hs. pose proof (so_size _ _ Hs) as Hsz.
  destruct (bblock_eq sb dstart 0 Hs ltac:(lia)) as [_ Hb0]. split.
  - split; [done| | |apply Hi].
    + intros y. unfold vset. case_decide; [done|apply Hi].
    + intros b Hb. rewrite used_meta by (done || lia). by apply Hi.
  - intros addrs Hok. split; [split; [apply Hok| |]|].
    + intros p Hp. rewrite ref_meta by (done || lia). intros Hr. destruct (io_used _ _ _ _ Hok p Hp Hr) as [? Hu].
      rewrite used_meta by (done || lia). done.
    + intros p q Hp Hq. rewrite !ref_meta by (done || lia). by apply (io_inj _ _ _ _ Hok).
    + intros off Hoff. unfold content. pose proof (path_of_valid _ Hoff) as Hv. rewrite ref_meta by (done || lia).
      destruct (Z.eqb_spec (ref V addrs (path_of (off / BSIZE))) 0) as [E|E]; [done|].
      destruct (io_used _ _ _ _ Hok _ Hv E). by rewrite vset_ne by lia.
Qed.

(** The contents of the disk after [iupdate] of an inode. *)
Definition iupdate_view (V : Z -> list Z) (x : inode) : Z -> list Z :=
  vset V (IBLOCK (i_inum x) sb) (Fs.dinode_put (V (IBLOCK (i_inum x) sb)) (Fs.dioff (i_inum x)) x).

Lemma iupdate_spec w V B :
  in_op w V B -> 0 <= i_inum (ino w ip) < sb_ninodes sb -> room B 1 ->
  exists t, Fs.iupdate pid ip w = Ret (set_blk t w)
    /\ in_op (set_blk t w) (iupdate_view V (ino w ip)) (B ∪ {[IBLOCK (i_inum (ino w ip)) sb]}).
Proof.
  intros [K1 Esb Hi Edev Hok] Hn Hr. unfold Fs.iupdate. set (x := ino w ip) in *.
  destruct (iblock_eq (i_inum x) (fi_sb _ _ _ _ Hi) Hn) as [_ Hb]. set (ib := IBLOCK (i_inum x) sb) in *.
  assert (Hdat : sb_bmapstart sb < sb_size sb).
  { destruct (fi_sb _ _ _ _ Hi). pose proof BPB_pos. assert (0 <= sb_size sb / BPB) by (apply Z.div_pos; lia). lia. }
  destruct (room_add B 1 ib Hr ltac:(lia)) as [_ Hs].
  destruct (fs_rmw pid c w V [] B ib (fun d => Fs.dinode_put d (Fs.dioff (i_inum x)) x) K1)
    as (b & t1 & t2 & t3 & E1 & _ & E2 & E3 & K3);
    [by apply not_elem_of_nil|simpl; unfold MAXHELD; lia|apply (fi_home _ _ _ _ Hi); lia|done|].
  rewrite Edev, Esb. fold ib. rewrite E1. cbn [mbind outcome_bind]. change (ino (set_blk t1 w) ip) with x.
  rewrite E2. cbn [mbind outcome_bind]. exists t3. split; [exact E3|].
  destruct (meta_ok V ib (Fs.dinode_put (V ib) (Fs.dioff (i_inum x)) x) Hi ltac:(lia)) as [Hi' Hok'].
  { apply dinode_put_ok, Hi. }
  split; [exact K3|exact Esb|exact Hi'|exact Edev|apply Hok'; exact Hok].
Qed.

(** ** writei *)

(** The inode after [data] is written at [off]: new addresses, and the size of
    what the file now holds. *)
Definition grown (x : inode) (off : Z) (data : list Z) (addrs : list Z) : inode :=
  set_isize (Z.max (i_size x) (off + Z.of_nat (length data))) (set_iaddrs addrs x).

(** [data] is in the file at [off] and the inode is on the disk. *)
Record written (w : fsys T) (V : Z -> list Z) (B : gset Z) (off : Z) (data : list Z)
    (w' : fsys T) (V' : Z -> list Z) (B' : gset Z) : Prop := MkWritten {
  wn_op : in_op w' V' B';
  wn_sb : f_sb w' = f_sb w;
  wn_self : ino w' ip = grown (ino w ip) off data (i_addrs (ino w' ip));
  wn_other : forall j, j <> ip -> ino w' j = ino w j;
  wn_content : forall x, 0 <= x / BSIZE < MAXFILE -> content V' (i_addrs (ino w' ip)) x
    = if decide (off <= x < off + Z.of_nat (length data)) then nth (Z.to_nat (x - off)) data 0
      else content V (i_addrs (ino w ip)) x;
  wn_inode : forall x, x < sb_bmapstart sb -> V' x = iupdate_view V (ino w' ip) x;
  wn_frame : forall x, dstart <= x < sb_size sb -> used V sb x = true ->
    (forall p, valid p -> ref V' (i_addrs (ino w' ip)) p <> x) -> V' x = V x /\ used V' sb x = true;
  wn_new : forall p, valid p -> ref V' (i_addrs (ino w' ip)) p <> ref V (i_addrs (ino w ip)) p ->
    used V sb (ref V' (i_addrs (ino w' ip)) p) = false;
  wn_mapped : forall p, valid p -> ref V (i_addrs (ino w ip)) p <> 0 ->
    ref V' (i_addrs (ino w' ip)) p = ref V (i_addrs (ino w ip)) p;
  wn_dense : forall x, off <= x < off + Z.of_nat (length data) -> ref V' (i_addrs (ino w' ip)) (path_of (x / BSIZE)) <> 0;
  wn_log : Z.of_nat (size B')
    <= Z.of_nat (size B) + wcost V (i_addrs (ino w ip)) (touched off (Z.of_nat (length data))) + 1
}.

(** The tail of [writei]: from the end of the loop to the return. *)
Lemma fwrote_written w V B off data w1 V1 B1 :
  fwrote w V B off data w1 V1 B1 -> 0 <= off -> off + Z.of_nat (length data) <= MAXFILE * BSIZE ->
  0 <= i_inum (ino w ip) < sb_ninodes sb -> room B1 1 ->
  exists w' V' B', Fs.iupdate pid ip
      (if i_size (ino w1 ip) <? off + Z.of_nat (length data) then iset ip (set_isize (off + Z.of_nat (length data))) w1 else w1)
      = Ret w'
    /\ written w V B off data w' V' B'.
Proof.
  intros [O1 S1 St1 L1] Hoff Hmax Hn Hr. set (last := off + Z.of_nat (length data)) in *.
  set (w2 := if i_size (ino w1 ip) <? last then iset ip (set_isize last) w1 else w1).
  assert (Eself : ino w2 ip = grown (ino w ip) off data (i_addrs (ino w1 ip))).
  { unfold w2, grown. fold last. rewrite (is_self _ _ _ _ S1). simpl i_size.
    destruct (Z.ltb_spec (i_size (ino w ip)) last) as [Hlt|Hge].
    - rewrite ino_iset, decide_True, (is_self _ _ _ _ S1), Z.max_r by (done || lia). done.
    - rewrite (is_self _ _ _ _ S1), Z.max_l by lia. done. }
  assert (Eother : forall j, j <> ip -> ino w2 j = ino w j).
  { intros j Hj. unfold w2. case_if; [rewrite ino_iset, decide_False by done|]; by apply (is_other _ _ _ _ S1). }
  assert (O2 : in_op w2 V1 B1).
  { pose proof O1 as [A1 A2 A3 A4 A5]. unfold w2. case_if; [|done]. split; [done..| |]; rewrite ino_iset, decide_True by done; done. }
  destruct (iupdate_spec w2 V1 B1 O2) as (t & E & O3); [by rewrite Eself|done|].
  exists (set_blk t w2), (iupdate_view V1 (ino w2 ip)), (B1 ∪ {[IBLOCK (i_inum (ino w2 ip)) sb]}).
  pose proof (op_inv _ _ _ _ _ _ _ _ O1) as Hi. pose proof (op_ok _ _ _ _ _ _ _ _ O1) as Hok.
  assert (Ei : i_inum (ino w2 ip) = i_inum (ino w ip)) by by rewrite Eself.
  destruct (iblock_eq (i_inum (ino w ip)) (fi_sb _ _ _ _ Hi) Hn) as [_ Hib].
  destruct (bblock_eq sb dstart 0 (fi_sb _ _ _ _ Hi)) as [_ Hb0]; [pose proof (so_size _ _ (fi_sb _ _ _ _ Hi)); lia|].
  destruct (meta_ok V1 (IBLOCK (i_inum (ino w2 ip)) sb)
    (Fs.dinode_put (V1 (IBLOCK (i_inum (ino w2 ip)) sb)) (Fs.dioff (i_inum (ino w2 ip))) (ino w2 ip)) Hi ltac:(rewrite Ei; lia)) as [_ Hk].
  { apply dinode_put_ok, Hi. }
  assert (Hrf : forall p, valid p -> ref (iupdate_view V1 (ino w2 ip)) (i_addrs (ino w1 ip)) p = ref V1 (i_addrs (ino w1 ip)) p).
  { intros p Hp. apply ref_meta; [done|rewrite Ei; lia|done]. }
  assert (Ea : i_addrs (ino w2 ip) = i_addrs (ino w1 ip)) by by rewrite Eself.
  pose proof (so_size _ _ (fi_sb _ _ _ _ Hi)) as Hsz. split; [exact E|]. destruct St1 as [C1 K1 N1 U1 F1 M1 T1].
  split; change (ino (set_blk t w2) ip) with (ino w2 ip); rewrite ?Ea.
  - exact O3.
  - unfold w2. case_if; apply (is_sb _ _ _ _ S1).
  - exact Eself.
  - exact Eother.
  - intros x Hx. rewrite (proj2 (Hk _ Hok)) by done. by apply C1.
  - intros x Hx. unfold iupdate_view, vset. case_decide; [rewrite T1 by (rewrite Ei; lia); done|by apply T1].
  - intros x Hx Hu Hf. rewrite <- (F1 x Hx Hu) by (intros p Hp; rewrite <- Hrf by done; by apply Hf). split.
    + apply vset_ne. rewrite Ei. lia.
    + unfold iupdate_view. rewrite used_meta; [apply U1; [lia|done]|apply Hi|rewrite Ei; lia|lia].
  - intros p Hp. rewrite Hrf by done. intros Hne. destruct (decide (ref V (i_addrs (ino w ip)) p = 0)) as [Hz|Hz].
    + apply N1; [done..|]. by rewrite <- Hz.
    + exfalso. apply Hne. by apply K1.
  - intros p Hp Hz. rewrite Hrf by done. by apply K1.
  - intros x Hx. rewrite Hrf; [by apply M1|]. apply path_of_valid.
    unfold last, MAXFILE, NDIRECT, NINDIRECT_SEC, NINDIRECT, BSIZE in *. dlia.
  - rewrite KernelTx.size_snoc. case_decide; lia.
Qed.

Lemma touched_length off n : 0 <= off -> 0 <= n -> Z.of_nat (length (touched off n)) <= n / BSIZE + 2.
Proof.
  intros H1 H2. assert (0 <= n / BSIZE) by (apply Z.div_pos; [lia|done]). unfold touched.
  destruct (Z.leb_spec n 0); [simpl; lia|]. pose proof (turns_fuel off n H1 ltac:(lia)).
  pose proof (turns_pos off (off + n) ltac:(lia)). rewrite length_seqZ. lia.
Qed.

Lemma writei_spec w V B user_src src data P off m :
  in_op w V B -> source user_src src data P -> Forall is_byte data -> P m -> 0 <= src < 2 ^ 64 ->
  0 <= off <= i_size (ino w ip) -> off + Z.of_nat (length data) <= MAXFILE * BSIZE ->
  0 <= i_inum (ino w ip) < sb_ninodes sb ->
  room B (wcost V (i_addrs (ino w ip)) (touched off (Z.of_nat (length data))) + 1) ->
  avail sb V (wblocks V (i_addrs (ino w ip)) (touched off (Z.of_nat (length data)))) ->
  exists w' V' B' m', Fs.writei pid ip user_src src off (Z.of_nat (length data)) w m
      = Ret (Z.of_nat (length data), w', m')
    /\ written w V B off data w' V' B' /\ P m'.
Proof.
  intros O Hsrc Hby HP Hs64 Hoff Hmax Hn Hroom Hav. pose proof (size_lt_2_31 _ Hmax) as H31. unfold Fs.writei.
  rewrite u32_small by lia. rewrite (proj2 (Z.ltb_ge (i_size (ino w ip)) off)) by lia.
  rewrite (proj2 (Z.ltb_ge (off + Z.of_nat (length data)) off)) by lia. cbn [orb].
  rewrite (proj2 (Z.ltb_ge (MAXFILE * BSIZE) _)) by lia.
  assert (Hd0 : 0 <= Z.of_nat (length data) / BSIZE) by (apply Z.div_pos; [lia|done]).
  destruct (writei_loop_spec (Z.to_nat (Z.of_nat (length data) / BSIZE + 2)) w V B user_src src data P off 0%nat m
    O Hsrc Hby ltac:(lia) Hmax ltac:(lia)) as (w1 & V1 & B1 & m1 & E1 & W1 & HP1).
  { rewrite Z.add_0_r, Z.sub_0_r, Z2Nat.id by lia. apply touched_length; lia. }
  { rewrite Z.add_0_r, Z.sub_0_r. apply (room_le _ _ _ Hroom). lia. }
  { rewrite Z.add_0_r, Z.sub_0_r. exact Hav. }
  { exact HP. }
  rewrite drop_0 in W1. change (Z.of_nat 0) with 0 in E1, W1. rewrite !Z.add_0_r in E1. rewrite !Z.add_0_r in W1.
  rewrite u64_small in E1 by lia. rewrite E1. cbn [mbind outcome_bind].
  destruct (fwrote_written w V B off data w1 V1 B1 W1) as (w2 & V2 & B2 & E2 & W2); [lia|done|done| |].
  { pose proof (wr_log _ _ _ _ _ _ _ _ W1). unfold room in *. lia. }
  rewrite E2. cbn [mbind outcome_bind]. rewrite s32_small by lia. by exists w2, V2, B2, m1.
Qed.

(** The requests [writei] refuses. *)
Lemma writei_refuse w user_src src off n m :
  i_size (ino w ip) < off \/ u32 (off + n) < off \/ MAXFILE * BSIZE < u32 (off + n) ->
  Fs.writei pid ip user_src src off n w m = Ret (-1, w, m).
Proof.
  intros H. unfold Fs.writei. destruct (Z.ltb_spec (i_size (ino w ip)) off); [done|].
  destruct (Z.ltb_spec (u32 (off + n)) off); [done|]. cbn [orb].
  rewrite (proj2 (Z.ltb_lt _ _)); [done|lia].
Qed.

End Write.

End FsWrite.
