(* ===== verification/FsTxn.v ===== *)
(** * File-system operations on the kernel's block layer

    The specifications of [FsBlocks] .. [FsWrite] hold for any block layer that
    meets [BlockTx].  Here they are used with the buffer cache and the log: an
    operation between [begin_op] and [end_op] is one atomic update of the disk. *)

From S2P Require Import Prelude Riscv ProcDefs UserMem Block Sleeplock Bio BioSpec Log LogSpec LogTxn BlockIO BlockTx.
From S2P Require Import Fs FsBlocks FsInode FsData FsWrite.
From stdpp Require Import base list numbers gmap strings sets.
From Stdlib Require Import ZArith Lia.

#[local] Open Scope Z_scope.

Import Block Bio BioSpec Log LogSpec LogTxn KernelTx FsBlocks FsInode FsData FsWrite.

Module FsTxn.

(** ** From the log to the transaction interface and back *)

Lemma begin_idle l s : log_idle l s -> begin_op l = Ret (set_outstanding 1 l).
Proof.
  intros [G Hsz Hn Ho Hc Q V P F Hb Hd]. unfold begin_op. rewrite Hc, Hn, Ho.
  change (nz 0) with false. cbv iota. by change (LOGSIZE <? 0 + (0 + 1) * MAXOPBLOCKS) with false.
Qed.

Lemma ktx_start pid l s : log_idle l s -> MAXOPBLOCKS + 1 < lg_size l ->
  ktx pid (l, s) (set_outstanding 1 l, s) (dblock (bc_disk s)) [] ∅.
Proof.
  intros Hi Hbig. destruct (in_txn_start l s Hi) as [G L B Ho Hc [H U P] V Vo Di Pi Fr].
  split; cbn [fst snd] in *; try assumption.
  - done.
  - by exists [].
  - rewrite size_empty. unfold MAXOPBLOCKS. lia.
  - intros b bn Hin. by apply not_elem_of_nil in Hin.
  - constructor.
  - unfold MAXHELD. simpl. lia.
  - intros x _. apply U.
  - done.
  - by apply wrote_nil.
Qed.

Lemma ktx_in_txn pid c t V B : ktx pid c t V [] B ->
  exists blocks, in_txn t.1 t.2 (bc_disk c.2) blocks V /\ Z.of_nat (length blocks) <= MAXOPBLOCKS.
Proof.
  intros [S0 (blocks & G & L & Bk & EB) Mx Ho Hc Hok Hh Hnd Hf Hu Hv Hout Hp Hfr Hw].
  assert (Hlb : size B = length blocks) by (rewrite EB; apply size_list_to_set, Bk).
  assert (HinB : forall x, x ∈ B <-> x ∈ blocks) by (intros x; rewrite EB; apply elem_of_list_to_set).
  assert (Ed : bc_disk t.2 = bc_disk c.2) by (destruct Hw as (_ & _ & _ & Hw); exact Hw).
  assert (Hpn : forall x, pins t.2 x = if decide (x ∈ blocks) then 1 else 0).
  { intros x. rewrite Hp, (ind_ext _ _ (HinB x)). unfold ind. rewrite (decide_False (P := x ∈ [].*2)) by apply not_elem_of_nil. lia. }
  exists blocks. split; [|lia]. split; try assumption.
  - split; [exact Hok|intros x; apply Hu, not_elem_of_nil|]. intros x. rewrite Hpn. case_decide; lia.
  - intros x Hx. rewrite <- Ed. apply Hout. by rewrite HinB.
  - rewrite <- Hfr, <- Hlb. simpl. by rewrite union_empty_r_L.
Qed.

(** The disk after a crash during [tr] and any number of crashes during
    recovery comes up with the contents [V] or [V']. *)
Definition crash_atomic (pid : Z) (sb : superblock) (l : log) (D : gmap Z (list Z)) (tr : list (Z * list Z))
    (V V' : Z -> list Z) : Prop :=
  forall k D', crash_reboot pid sb (apply_writes (take k tr) D) D' ->
    exists l2 s2, initlog pid ROOTDEV sb log0 (boot D') = Ret (l2, s2)
      /\ ((forall x, home l x -> dblock (bc_disk s2) x = V x)
          \/ (forall x, home l x -> dblock (bc_disk s2) x = V' x)).

(** The end of an operation that started in the idle state [(l, s)]. *)
Lemma op_end pid pid' sb l s t V B :
  log_idle l s -> ktx pid (l, s) t V [] B -> sb_logstart sb = lg_start l -> sb_nlog sb = lg_size l ->
  exists t' tr, @blk_end_op _ kernel_block_io pid t = Ret t' /\ log_idle t'.1 t'.2 /\ wrote s t'.2 tr
    /\ (forall x, home l x -> dblock (bc_disk t'.2) x = V x)
    /\ crash_atomic pid' sb l (bc_disk s) tr (dblock (bc_disk s)) V.
Proof.
  intros Hi K E1 E2. destruct (ktx_in_txn _ _ _ _ _ K) as (blocks & T1 & Hmax). destruct t as [l1 s1]. cbn [fst snd] in *.
  destruct (kt_start _ _ _ _ _ _ K) as (Es & Ez & Hbig). cbn [fst snd] in Es, Ez, Hbig.
  destruct Hi as [G Hsz Hn Ho Hc Q Vw P F Hb Hd].
  destruct (txn_end pid l1 s1 _ blocks _ T1) as (l' & s' & tr & E & Hi' & W' & Es' & Ez' & Hx & Hr);
    [lia|by rewrite Es..|lia|].
  assert (Hhome : forall x, home l1 x <-> home l x) by (intros x; unfold home; by rewrite Es, Ez).
  exists (l', s'), tr. unfold blk_end_op, kernel_block_io. cbn [fst snd]. split; [exact E|]. split; [exact Hi'|].
  split; [exact (wrote_trans _ _ _ [] _ (kt_wrote _ _ _ _ _ _ K) W')|].
  split; [intros x Hx'; by apply Hx, Hhome|]. intros k D Hcr.
  destruct (Hr k) as [R|R];
    destruct (reboot_spec pid' sb l1 _ D _ (it_geom _ _ _ _ _ T1) ltac:(lia) ltac:(congruence) ltac:(congruence) R Hcr)
      as (l2 & s2 & El & Hv); exists l2, s2; (split; [exact El|]); [left|right];
    intros x Hx'; by apply Hv, Hhome.
Qed.

End FsTxn.
