(* ===== verification/FsSpec.v ===== *)
(** * What the file system promises

    The main theorems on blocks, inodes and file contents, with concrete
    instances on the buffer cache and the log. *)

From S2P Require Import Prelude Riscv ProcDefs UserMem Block Sleeplock Bio BioSpec Log LogSpec LogTxn BlockIO BlockTx.
From S2P Require Import Fs FsBlocks FsInode FsData FsWrite FsTxn.
From stdpp Require Import base list numbers gmap strings sets.
From Stdlib Require Import ZArith Lia.

#[local] Open Scope Z_scope.

Import Block Bio BioSpec Log LogSpec LogTxn KernelTx FsBlocks FsInode FsData FsWrite FsTxn.

Module FsSpec.

(** ** A concrete file system

    A disk of 100 blocks: the log in blocks 2 to 31, inodes from block 32, the
    bitmap in block 45, data from block 46; nothing is allocated yet. *)

Definition demo_bitmap : list Z := replicate 5 255 ++ 63 :: replicate 1018 0.
Definition demo_disk : gmap Z (list Z) := {[ 45 := demo_bitmap ]}.
Definition demo_fs : superblock := MkSuperblock FSMAGIC 100 54 32 30 2 32 45.
Definition demo_view : Z -> list Z := dblock demo_disk.
Definition demo_ctx : log * bst := (demo_log, boot demo_disk).
Definition demo_inode : inode :=
  MkInode ROOTDEV 1 1 initsleeplock 1 T_FILE 0 0 1 0 (replicate (Z.to_nat (NDIRECT + 2)) 0).
Definition demo_sys : fsys (log * bst) := MkFsys demo_fs {[ 0 := demo_inode ]} demo_ctx.
Definition demo_op : fsys (log * bst) := set_blk (set_outstanding 1 demo_log, boot demo_disk) demo_sys.

Lemma demo_view_eq x : demo_view x = if decide (x = 45) then demo_bitmap else zero_block.
Proof.
  unfold demo_view, dblock, demo_disk. destruct (decide (x = 45)) as [->|Hne]; [by rewrite lookup_singleton_eq|].
  by rewrite lookup_singleton_ne.
Qed.

Lemma demo_idle : log_idle demo_log (boot demo_disk).
Proof.
  pose proof (boot_clean demo_disk) as [Q V _]. destruct (fresh_abs _ (boot_check demo_disk)) as (_ & P & _ & N).
  pose proof (boot_disk demo_disk) as D. pose proof (demo_view_eq 2) as E. unfold demo_view in E.
  rewrite decide_False in E by done.
  split; [by split|reflexivity..|exact Q|exact V|exact P|exact N| |].
  - rewrite D. change (lg_start demo_log) with 2. rewrite E. apply zero_block_ok.
  - rewrite D. change (lg_start demo_log) with 2. rewrite E. split; [reflexivity|]. intros i x Hi. by rewrite lookup_nil in Hi.
Qed.

Lemma demo_ktx : ktx 1 demo_ctx (f_blk demo_op) demo_view [] ∅.
Proof.
  pose proof (ktx_start 1 demo_log (boot demo_disk) demo_idle eq_refl) as H. rewrite boot_disk in H. exact H.
Qed.

Lemma demo_sb_ok : sb_ok demo_fs 46.
Proof. split; vm_compute; repeat split; congruence. Qed.

Lemma demo_used b : 0 <= b < 100 -> used demo_view demo_fs b = (b <? 46).
Proof.
  intros Hb. assert (H : forallb (fun b => eqb (Fs.bm_test demo_bitmap b) (b <? 46)) (seqZ 0 100) = true) by (vm_compute; reflexivity).
  rewrite forallb_forall in H. unfold used. destruct (bblock_eq demo_fs 46 b demo_sb_ok ltac:(simpl; lia)) as [E _].
  assert (E2 : b / BPB = 0) by (apply Z.div_small; unfold BPB, BSIZE; lia).
  rewrite E, E2, demo_view_eq. simpl (0 + _). rewrite decide_True by done.
  rewrite Z.mod_small by (unfold BPB, BSIZE; lia). apply eqb_prop, H. apply list_elem_of_In, elem_of_seqZ. lia.
Qed.

Lemma demo_inv : fs_inv (BTX := kernel_block_tx) demo_ctx demo_fs 46 demo_view.
Proof.
  split; [exact demo_sb_ok| | |].
  - intros x. rewrite demo_view_eq. case_decide; [|apply zero_block_ok]. split; [done|].
    apply Forall_app. split; [|constructor; [unfold is_byte; lia|]]; apply Forall_replicate; unfold is_byte; lia.
  - intros b Hb. rewrite demo_used by lia. apply Z.ltb_lt. lia.
  - intros b Hb. simpl in Hb. apply demo_home. simpl. lia.
Qed.

Lemma demo_empty V p : ref V (replicate (Z.to_nat (NDIRECT + 2)) 0) p = 0.
Proof.
  destruct p as [|k js]; [done|]. unfold ref. rewrite nth_lookup.
  destruct (replicate (Z.to_nat (NDIRECT + 2)) 0 !! Z.to_nat k) as [a|] eqn:E; [|apply walk_0].
  apply lookup_replicate in E as [-> _]. apply walk_0.
Qed.

Lemma demo_in_op : in_op 1 demo_ctx demo_fs 46 0 demo_op demo_view ∅.
Proof.
  split; [exact demo_ktx|done|exact demo_inv|done|]. change (i_addrs (ino demo_op 0)) with (replicate (Z.to_nat (NDIRECT + 2)) 0).
  split; [done|intros p _; by rewrite demo_empty|intros p q _ _; by rewrite demo_empty].
Qed.

Lemma demo_avail n : (n <= 3)%nat -> avail demo_fs demo_view n.
Proof.
  intros Hn. apply (avail_le _ _ 3); [done|]. exists [46; 47; 48]. split; [repeat constructor; set_solver|]. split; [done|].
  repeat constructor; simpl; try lia; by rewrite demo_used by lia.
Qed.

(** ** Kernel buffers as the other side of a copy *)

Section Buffers.
Context {U : Type} `{UM : UserMem U}.

Lemma buffer_source (u : U) (data : list Z) : Z.of_nat (length data) < 2 ^ 64 ->
  source 0 0 data (fun m => m = (u, data)).
Proof.
  intros Hl m i n -> Hi Hn Hin. exists (u, data). split; [|done]. unfold either_copyin. simpl nz. cbv iota.
  rewrite Z.add_0_l, u64_small by lia. done.
Qed.

Lemma put_bytes_app buf a b : (length a + length b <= length buf)%nat ->
  put_bytes (put_bytes buf 0 a) (Z.of_nat (length a)) b = put_bytes buf 0 (a ++ b).
Proof.
  intros Hl. unfold put_bytes. rewrite Nat2Z.id. apply list_eq. intros i. simpl (Z.to_nat 0).
  destruct (decide (i < length a)%nat) as [H1|H1].
  - rewrite list_lookup_inserts_lt, !list_lookup_inserts by (rewrite ?length_app; lia).
    rewrite lookup_app_l by lia. done.
  - destruct (decide (i < length a + length b)%nat) as [H2|H2].
    + rewrite !list_lookup_inserts by (rewrite ?length_inserts, ?length_app; lia).
      rewrite lookup_app_r by lia. f_equal. lia.
    + by rewrite !list_lookup_inserts_ge by (rewrite ?length_app; lia).
Qed.

Lemma buffer_dest (u : U) (buf : list Z) n : n <= Z.of_nat (length buf) -> n < 2 ^ 64 ->
  dest 0 0 n (fun bs m => m = (u, put_bytes buf 0 bs)).
Proof.
  intros Hn Hb d bs m -> Hl. eexists. split; [unfold either_copyout; simpl nz; cbv iota; reflexivity|].
  rewrite Z.add_0_l, u64_small by lia. simpl. rewrite put_bytes_app by lia. done.
Qed.

End Buffers.

(** ** Blocks *)

(** (C18) [balloc] takes the first free block: the lowest one the bitmap marks
    free, which is always a data block; it marks that block and no other,
    returns it filled with zeros, and leaves every other block outside the
    bitmap as it was.  When every block is in use it panics. *)
Theorem balloc_correct {T} `{BIO : BlockIO T} `{BTX : !BlockTx T} pid (c : tx_ctx) w V B sb dstart :
  tx pid c (f_blk w) V [] B -> f_sb w = sb -> fs_inv c sb dstart V -> room B 2 ->
  ((exists b, 0 <= b < sb_size sb /\ used V sb b = false) ->
    exists a t V', Fs.balloc pid ROOTDEV w = Ret (a, set_blk t w)
      /\ dstart <= a < sb_size sb /\ used V sb a = false /\ (forall b, 0 <= b < a -> used V sb b = true)
      /\ (forall b, 0 <= b < sb_size sb -> used V' sb b = if decide (b = a) then true else used V sb b)
      /\ V' a = zero_block /\ (forall x, x <> a -> x <> BBLOCK a sb -> V' x = V x)
      /\ fs_inv c sb dstart V' /\ tx pid c t V' [] (B ∪ {[BBLOCK a sb]} ∪ {[a]}))
  /\ ((forall b, 0 <= b < sb_size sb -> used V sb b = true) ->
    Fs.balloc pid ROOTDEV w = Panic "balloc: out of blocks").
Proof.
  intros K Esb Hi Hr.
  assert (Hh : held_ok sb dstart V []) by constructor.
  assert (Hl : (@length (Z * Z) [] < MAXHELD)%nat) by (unfold MAXHELD; simpl; lia). split.
  - intros Hf. destruct (balloc_spec pid c w V [] B sb dstart K Esb Hi Hh Hl Hr Hf) as (a & t & E & Ha & Hu & Hlow & K').
    exists a, t, (balloc_view sb V a). repeat (split; [done|]). split; [intros b Hb; by apply (used_balloc c sb dstart)|].
    split; [apply balloc_view_new|]. split; [intros x; apply balloc_view_other|]. split; [by apply balloc_view_ok|done].
  - intros Hall. unfold Fs.balloc. rewrite Esb.
    apply (balloc_loop_full pid c _ w V [] B sb dstart 0); try done. rewrite Z2Nat.id; [lia|].
    pose proof BPB_pos. pose proof (so_size _ _ (fi_sb _ _ _ _ Hi)). assert (0 <= sb_size sb / BPB) by (apply Z.div_pos; lia). lia.
Qed.

Lemma demo_room n : 0 <= n <= 10 -> room ∅ n.
Proof. intros Hn. unfold room. rewrite size_empty. unfold MAXOPBLOCKS. lia. Qed.

Lemma balloc_correct_witness :
  exists t, Fs.balloc (BIO := kernel_block_io) 1 ROOTDEV demo_op = Ret (46, set_blk t demo_op).
Proof.
  destruct (balloc_correct (BTX := kernel_block_tx) 1 demo_ctx demo_op demo_view ∅ demo_fs 46 demo_ktx eq_refl demo_inv) as [H _].
  { apply demo_room. lia. }
  destruct H as (a & t & V' & E & Ha & Hu & Hlow & _).
  { exists 46. split; [simpl; lia|]. by rewrite demo_used by lia. }
  destruct (decide (a = 46)) as [->|Hne]; [by exists t|]. simpl in Ha.
  pose proof (Hlow 46 ltac:(lia)) as H46. by rewrite demo_used in H46 by lia.
Defined.

(** ** Contents *)

(** (C17) [bmap] returns the disk block of block [n] of the file, allocating it
    and the tables on the way when they are missing ([bmap_cost] and
    [bmap_blocks] bound the log space and the free blocks this takes).  The new
    blocks were free, no existing reference changes, the file is still a tree
    of distinct data blocks in use, its bytes read the same at every offset,
    and the blocks in use that are not tables of this file keep their
    contents; when the block is there already, nothing changes. *)
Theorem bmap_correct {T} `{BIO : BlockIO T} `{BTX : !BlockTx T} pid (c : tx_ctx) sb dstart ip w V B n :
  in_op pid c sb dstart ip w V B -> 0 <= n < MAXFILE ->
  ref V (i_addrs (ino w ip)) (path_of n) <> 0 \/ room B (bmap_cost n) /\ avail sb V (bmap_blocks n) ->
  exists a w' V' B', Fs.bmap pid ip n w = Ret (a, w') /\ in_op pid c sb dstart ip w' V' B'
    /\ ref V' (i_addrs (ino w' ip)) (path_of n) = a /\ dstart <= a < sb_size sb
    /\ grow sb dstart V (i_addrs (ino w ip)) V' (i_addrs (ino w' ip))
    /\ istep w w' ip (i_addrs (ino w' ip))
    /\ (ref V (i_addrs (ino w ip)) (path_of n) <> 0 ->
         a = ref V (i_addrs (ino w ip)) (path_of n) /\ (forall x, V' x = V x) /\ f_inode w' = f_inode w).
Proof.
  intros O Hn Hr. destruct (bmap_spec pid c sb dstart ip w V B n O Hn Hr) as (a & w' & V' & B' & E & [M1 M2 M3 M4 M5 M6 M7 M8]).
  exists a, w', V', B'. split; [done|]. split; [done|]. split; [done|]. split; [|split; [done|split; [done|]]].
  - destruct (io_used _ _ _ _ (op_ok _ _ _ _ _ _ _ _ M1) _ (path_of_valid n Hn)) as [? _]; [by rewrite M4|lia].
  - intros Hne. destruct (M8 Hne) as (EV & _ & t & ->). split; [|done].
    rewrite <- M4. by apply (gr_keep _ _ _ _ _ _ M3); [apply path_of_valid|].
Qed.

Lemma bmap_correct_witness :
  exists a w', Fs.bmap (BIO := kernel_block_io) 1 0 300 demo_op = Ret (a, w') /\ 46 <= a < 100.
Proof.
  destruct (bmap_correct (BTX := kernel_block_tx) 1 demo_ctx demo_fs 46 0 demo_op demo_view ∅ 300 demo_in_op)
    as (a & w' & V' & B' & E & _ & _ & Ha & _).
  - unfold MAXFILE, NDIRECT, NINDIRECT_SEC, NINDIRECT. lia.
  - right. split; [apply demo_room; vm_compute; split; congruence|apply demo_avail; vm_compute; lia].
  - exists a, w'. split; [exact E|exact Ha].
Defined.

Lemma file_bytes_written V' a' off data :
  (forall x, off <= x < off + Z.of_nat (length data) -> content V' a' x = nth (Z.to_nat (x - off)) data 0) ->
  file_bytes V' a' off (Z.of_nat (length data)) = data.
Proof.
  intros H. unfold file_bytes. apply list_eq. intros k. rewrite list_lookup_fmap.
  destruct (decide (k < length data)%nat) as [Hk|Hk].
  - rewrite lookup_seqZ_lt by lia. simpl. rewrite H, nth_lookup by lia.
    replace (Z.to_nat (off + Z.of_nat k - off)) with k by lia. by destruct (lookup_lt_is_Some_2 data k Hk) as [b ->].
  - rewrite lookup_seqZ_ge by lia. symmetry. apply lookup_ge_None. lia.
Qed.

Lemma written_dense {T} `{BIO : BlockIO T} `{BTX : !BlockTx T} pid (c : tx_ctx) sb dstart ip w V B off data w' V' B' :
  written pid c sb dstart ip w V B off data w' V' B' -> dense V (ino w ip) -> 0 <= off <= i_size (ino w ip) ->
  off + Z.of_nat (length data) <= MAXFILE * BSIZE -> i_size (ino w ip) <= MAXFILE * BSIZE ->
  dense V' (ino w' ip).
Proof.
  intros W Hd Hoff Hmax Hsz n Hn. rewrite (wn_self _ _ _ _ _ _ _ _ _ _ _ _ _ W). simpl i_size. simpl i_addrs. intros Hlt.
  assert (Hv : valid (path_of n)).
  { apply path_of_valid. unfold MAXFILE, NDIRECT, NINDIRECT_SEC, NINDIRECT, BSIZE in *. lia. }
  destruct (decide (n * BSIZE < i_size (ino w ip))) as [Hs|Hs].
  - rewrite (wn_mapped _ _ _ _ _ _ _ _ _ _ _ _ _ W _ Hv); apply Hd; done.
  - rewrite <- (Z.div_mul n BSIZE) by done. apply (wn_dense _ _ _ _ _ _ _ _ _ _ _ _ _ W). lia.
Qed.

Section Contents.
Context {U K : Type} `{UM : UserMem U} `{KM : KMem K}.

(** (C3) A write is read back.  Writing [n] bytes at an offset within the file
    returns [n], and a read of the same range delivers those bytes; every other
    offset of the file reads as before, the size becomes the larger of the old
    one and the end of the write, the inode reaches the disk in its own slot,
    and the blocks in use that do not belong to the file keep their contents
    ([written]).  Both sides of the copies may be user memory or a kernel
    buffer ([source], [dest]). *)
Theorem write_read_back {T} `{BIO : BlockIO T} `{BTX : !BlockTx T} pid (c : tx_ctx) sb dstart ip w V B
    user_src src data (P : U * K -> Prop) off m :
  in_op pid c sb dstart ip w V B -> dense V (ino w ip) -> source user_src src data P -> Forall is_byte data -> P m ->
  0 <= src < 2 ^ 64 -> 0 <= off <= i_size (ino w ip) -> i_size (ino w ip) <= MAXFILE * BSIZE ->
  off + Z.of_nat (length data) <= MAXFILE * BSIZE -> 0 <= i_inum (ino w ip) < sb_ninodes sb ->
  room B (wcost V (i_addrs (ino w ip)) (touched off (Z.of_nat (length data))) + 1) ->
  avail sb V (wblocks V (i_addrs (ino w ip)) (touched off (Z.of_nat (length data)))) ->
  exists w' V' B' m', Fs.writei pid ip user_src src off (Z.of_nat (length data)) w m
      = Ret (Z.of_nat (length data), w', m')
    /\ written pid c sb dstart ip w V B off data w' V' B' /\ dense V' (ino w' ip) /\ P m'
    /\ forall user_dst dst (Q : list Z -> U * K -> Prop) m2,
         dest user_dst dst (Z.of_nat (length data)) Q -> Q [] m2 -> 0 <= dst < 2 ^ 64 ->
         exists t m3, Fs.readi pid ip user_dst dst off (Z.of_nat (length data)) w' m2
             = Ret (Z.of_nat (length data), set_blk t w', m3) /\ Q data m3.
Proof.
  intros O Hd Hsrc Hby HP H64 Hoff Hsz Hmax Hn Hroom Hav. pose proof (size_lt_2_31 _ Hmax) as H31.
  destruct (writei_spec pid c sb dstart ip w V B user_src src data P off m) as (w' & V' & B' & m' & E & W & HP'); try done.
  pose proof (written_dense _ _ _ _ _ _ _ _ _ _ _ _ _ W Hd Hoff Hmax Hsz) as Hd'.
  exists w', V', B', m'. repeat (split; [done|]). intros user_dst dst Q m2 Hdst HQ Hd64.
  assert (Esz : i_size (ino w' ip) = Z.max (i_size (ino w ip)) (off + Z.of_nat (length data)))
    by (rewrite (wn_self _ _ _ _ _ _ _ _ _ _ _ _ _ W); done).
  assert (Elen : read_len (ino w' ip) off (Z.of_nat (length data)) = Z.of_nat (length data)).
  { unfold read_len. rewrite Esz, u32_small by lia.
    rewrite !(proj2 (Z.ltb_ge _ _)) by lia. simpl. lia. }
  destruct (readi_spec pid c sb dstart ip w' V' B' user_dst dst Q off (Z.of_nat (length data)) m2) as (t & m3 & Er & _ & HQ3);
    [apply (wn_op _ _ _ _ _ _ _ _ _ _ _ _ _ W)|done|lia|lia|lia|done|by rewrite Elen|done|].
  rewrite Elen in Er, HQ3. exists t, m3. split; [exact Er|].
  rewrite file_bytes_written in HQ3; [done|]. intros x Hx.
  rewrite (wn_content _ _ _ _ _ _ _ _ _ _ _ _ _ W); [by rewrite decide_True|].
  unfold MAXFILE, NDIRECT, NINDIRECT_SEC, NINDIRECT, BSIZE in *. dlia.
Qed.

(** (C2) A write is atomic on the disk.  Between [begin_op] and [end_op], on
    the buffer cache and the log, [writei] leaves on the disk exactly the
    contents [V'] in which the file holds the data, and the log idle again; if
    the machine stops after any number of the disk writes, and again during
    recovery, the next boot finds all blocks as before the write or all as
    after it. *)
Theorem write_file_atomic pid pid' sb dstart ip (w : fsys (log * bst)) user_src src data (P : U * K -> Prop) off m :
  let l := (f_blk w).1 in
  let s := (f_blk w).2 in
  let V := dblock (bc_disk s) in
  let addrs := i_addrs (ino w ip) in
  log_idle l s -> MAXOPBLOCKS + 1 < lg_size l -> sb_logstart sb = lg_start l -> sb_nlog sb = lg_size l ->
  f_sb w = sb -> fs_inv (BTX := kernel_block_tx) (l, s) sb dstart V -> i_dev (ino w ip) = ROOTDEV -> inode_ok sb dstart V addrs ->
  source user_src src data P -> Forall is_byte data -> P m -> 0 <= src < 2 ^ 64 ->
  0 <= off <= i_size (ino w ip) -> off + Z.of_nat (length data) <= MAXFILE * BSIZE ->
  0 <= i_inum (ino w ip) < sb_ninodes sb ->
  wcost V addrs (touched off (Z.of_nat (length data))) + 1 <= MAXOPBLOCKS ->
  avail sb V (wblocks V addrs (touched off (Z.of_nat (length data)))) ->
  exists t1 w' m' t' V' B' tr,
    blk_begin_op (f_blk w) = Ret t1
    /\ Fs.writei pid ip user_src src off (Z.of_nat (length data)) (set_blk t1 w) m = Ret (Z.of_nat (length data), w', m')
    /\ blk_end_op pid (f_blk w') = Ret t'
    /\ written (BTX := kernel_block_tx) pid (l, s) sb dstart ip (set_blk t1 w) V ∅ off data w' V' B'
    /\ log_idle t'.1 t'.2 /\ (forall x, home l x -> dblock (bc_disk t'.2) x = V' x)
    /\ wrote s t'.2 tr /\ crash_atomic pid' sb l (bc_disk s) tr V V'.
Proof.
  intros l s V addrs Hidle Hbig E1 E2 Esb Hi Hdev Hok Hsrc Hby HP H64 Hoff Hmax Hn Hroom Hav.
  destruct (f_blk w) as [l0 s0] eqn:Ew. subst l s. cbn [fst snd] in *.
  assert (O : in_op (BTX := kernel_block_tx) pid (l0, s0) sb dstart ip (set_blk (set_outstanding 1 l0, s0) w) V ∅).
  { split; [exact (ktx_start pid l0 s0 Hidle Hbig)|exact Esb|exact Hi|exact Hdev|exact Hok]. }
  destruct (writei_spec (BTX := kernel_block_tx) pid (l0, s0) sb dstart ip _ V ∅ user_src src data P off m O Hsrc Hby HP H64 Hoff Hmax Hn)
    as (w' & V' & B' & m' & E & W & HP'); [|exact Hav|].
  { unfold room. rewrite size_empty. exact Hroom. }
  pose proof (op_tx _ _ _ _ _ _ _ _ (wn_op _ _ _ _ _ _ _ _ _ _ _ _ _ W)) as K'.
  destruct (op_end pid pid' sb l0 s0 (f_blk w') V' B' Hidle K' E1 E2) as (t' & tr & Ee & Hi' & Hw & Hx & Hc).
  exists (set_outstanding 1 l0, s0), w', m', t', V', B', tr. split.
  { unfold blk_begin_op, kernel_block_io. cbn [fst snd]. rewrite (begin_idle _ _ Hidle). done. }
  split; [exact E|]. split; [exact Ee|]. split; [exact W|]. split; [exact Hi'|]. split; [exact Hx|]. split; [exact Hw|exact Hc].
Qed.

End Contents.

Lemma demo_wcost : wcost demo_view (i_addrs (ino demo_op 0)) (touched 0 3) = 3.
Proof. reflexivity. Qed.
Lemma demo_wblocks : wblocks demo_view (i_addrs (ino demo_op 0)) (touched 0 3) = 1%nat.
Proof. reflexivity. Qed.
Lemma demo_bytes : Forall is_byte [104; 105; 10].
Proof. repeat constructor; unfold is_byte; lia. Qed.

Lemma write_read_back_witness :
  exists w' m', Fs.writei (BIO := kernel_block_io) 1 0 0 0 0 3 demo_op (tt, [104; 105; 10]) = Ret (3, w', m')
    /\ exists t, Fs.readi (BIO := kernel_block_io) 1 0 0 0 0 3 w' (tt, [0; 0; 0]) = Ret (3, set_blk t w', (tt, [104; 105; 10])).
Proof.
  destruct (write_read_back (BTX := kernel_block_tx) 1 demo_ctx demo_fs 46 0 demo_op demo_view ∅ 0 0 [104; 105; 10]
    (fun m => m = (tt, [104; 105; 10])) 0 (tt, [104; 105; 10]) demo_in_op) as (w' & V' & B' & m' & E & _ & _ & _ & Hr).
  - intros n Hn Hlt. change (i_size (ino demo_op 0)) with 0 in Hlt. unfold BSIZE in Hlt. lia.
  - apply buffer_source. simpl. lia.
  - exact demo_bytes.
  - done.
  - lia.
  - change (i_size (ino demo_op 0)) with 0. lia.
  - change (i_size (ino demo_op 0)) with 0. unfold MAXFILE, NDIRECT, NINDIRECT_SEC, NINDIRECT, BSIZE. lia.
  - simpl length. unfold MAXFILE, NDIRECT, NINDIRECT_SEC, NINDIRECT, BSIZE. lia.
  - change (i_inum (ino demo_op 0)) with 1. simpl. lia.
  - change (Z.of_nat (length [104; 105; 10])) with 3. rewrite demo_wcost. apply demo_room. lia.
  - change (Z.of_nat (length [104; 105; 10])) with 3. rewrite demo_wblocks. apply demo_avail. lia.
  - exists w', m'. split; [exact E|].
    destruct (Hr 0 0 (fun bs m => m = (tt, put_bytes [0; 0; 0] 0 bs)) (tt, [0; 0; 0])) as (t & m3 & Er & Em).
    + apply buffer_dest; simpl; lia.
    + reflexivity.
    + lia.
    + exists t. change (Z.of_nat (length [104; 105; 10])) with 3 in Er. rewrite Er, Em. reflexivity.
Defined.

Lemma write_file_atomic_witness :
  exists t1 w' m' t', blk_begin_op (f_blk demo_sys) = Ret t1
    /\ Fs.writei 1 0 0 0 0 3 (set_blk t1 demo_sys) (tt, [104; 105; 10]) = Ret (3, w', m')
    /\ blk_end_op 1 (f_blk w') = Ret t' /\ log_idle t'.1 t'.2.
Proof.
  destruct (write_file_atomic 1 2 demo_fs 46 0 demo_sys 0 0 [104; 105; 10]
    (fun m => m = (tt, [104; 105; 10])) 0 (tt, [104; 105; 10])) as (t1 & w' & m' & t' & V' & B' & tr & E1 & E2 & E3 & _ & Hi & _).
  - exact demo_idle.
  - reflexivity.
  - reflexivity.
  - reflexivity.
  - reflexivity.
  - change (f_blk demo_sys).2 with (boot demo_disk). rewrite boot_disk. exact demo_inv.
  - reflexivity.
  - change (f_blk demo_sys).2 with (boot demo_disk). rewrite boot_disk. exact (op_ok _ _ _ _ _ _ _ _ demo_in_op).
  - apply buffer_source. simpl. lia.
  - exact demo_bytes.
  - reflexivity.
  - lia.
  - change (i_size (ino demo_sys 0)) with 0. lia.
  - simpl length. unfold MAXFILE, NDIRECT, NINDIRECT_SEC, NINDIRECT, BSIZE. lia.
  - change (i_inum (ino demo_sys 0)) with 1. simpl. lia.
  - change (f_blk demo_sys).2 with (boot demo_disk). rewrite boot_disk. fold demo_view. change (Z.of_nat (length [104; 105; 10])) with 3.
    change (ino demo_sys 0) with (ino demo_op 0). rewrite demo_wcost. unfold MAXOPBLOCKS. lia.
  - change (f_blk demo_sys).2 with (boot demo_disk). rewrite boot_disk. fold demo_view. change (Z.of_nat (length [104; 105; 10])) with 3.
    change (ino demo_sys 0) with (ino demo_op 0). rewrite demo_wblocks. apply demo_avail. lia.
  - exists t1, w', m', t'. split; [exact E1|]. split; [exact E2|]. split; [exact E3|exact Hi].
Defined.

End FsSpec.
