(* ===== verification/FsTable.v ===== *)
(** * The inode table

    [iget], [idup] and [iput] count the references to inodes: the table holds
    at most one entry per inode in use, and the count of an inode is the number
    of [iget]s and [idup]s not yet undone by [iput], also while an [iput] is
    between its two holds of the table's lock.  [iupdate] and [ilock] are
    inverse to each other. *)

From S2P Require Import Prelude Riscv ProcDefs UserMem Block Sleeplock Bio Log BlockIO BlockTx.
From S2P Require Import Fs FsBlocks FsInode FsData FsWrite FsSpec.
From stdpp Require Import base list numbers gmap strings sets.
From Stdlib Require Import ZArith Lia.

#[local] Open Scope Z_scope.

Import Block KernelTx FsBlocks FsInode FsData FsWrite FsSpec.

Module FsTable.

(** ** Counting references *)

Definition sumZ (f : Z -> Z) (n : Z) : Z := foldr (fun i s => f i + s) 0 (seqZ 0 n).

Lemma sum_list_ext (f g : Z -> Z) l : (forall i, i ∈ l -> f i = g i) ->
  foldr (fun i s => f i + s) 0 l = foldr (fun i s => g i + s) 0 l.
Proof.
  induction l as [|x l IH]; intros H; [done|]. simpl. rewrite (H x) by constructor. f_equal. apply IH.
  intros i Hi. apply H. by constructor.
Qed.

(** Changing [f] at one point of the range. *)
Lemma sumZ_update (f g : Z -> Z) n i : 0 <= i < n -> (forall j, 0 <= j < n -> j <> i -> g j = f j) ->
  sumZ g n = sumZ f n + (g i - f i).
Proof.
  intros Hi Hg. unfold sumZ.
  assert (Hs : seqZ 0 n = seqZ 0 i ++ i :: seqZ (i + 1) (n - i - 1)).
  { replace n with (i + (1 + (n - i - 1))) at 1 by lia. rewrite !seqZ_app by lia. simpl. rewrite Z.add_0_l. done. }
  rewrite Hs, !foldr_app. simpl.
  rewrite (sum_list_ext g f (seqZ (i + 1) (n - i - 1))) by (intros j Hj; apply elem_of_seqZ in Hj; apply Hg; lia).
  set (t := foldr _ 0 (seqZ (i + 1) _)). clearbody t.
  assert (Hl : forall l a, (forall j, j ∈ l -> g j = f j) ->
    foldr (fun i s => g i + s) (g i + a) l = foldr (fun i s => f i + s) (f i + a) l + (g i - f i)).
  { induction l as [|x l IH]; intros a H; simpl; [lia|]. rewrite IH, (H x) by (intros; (apply H; by constructor) || constructor). lia. }
  apply Hl. intros j Hj. apply elem_of_seqZ in Hj. apply Hg; lia.
Qed.

Section Table.
Context {T : Type} `{BIO : BlockIO T}.

Definition slot (i : Z) : Prop := 0 <= i < NINODE.

(** The entry [x] stands for the inode [(dev, inum)]. *)
Definition entry_for (dev inum : Z) (x : inode) : bool := (i_dev x =? dev) && (i_inum x =? inum).

(** The number of references to an inode. *)
Definition refs (w : fsys T) (dev inum : Z) : Z :=
  sumZ (fun i => if entry_for dev inum (ino w i) then i_ref (ino w i) else 0) NINODE.

(** No count is negative and no inode has two entries in use. *)
Record itable_ok (w : fsys T) : Prop := MkItableOk {
  it_nonneg : forall i, slot i -> 0 <= i_ref (ino w i);
  it_unique : forall i j, slot i -> slot j -> 0 < i_ref (ino w i) -> 0 < i_ref (ino w j) ->
    i_dev (ino w i) = i_dev (ino w j) -> i_inum (ino w i) = i_inum (ino w j) -> i = j
}.

Lemma iget_scan_spec (w : fsys T) dev inum k i e :
  0 <= i -> (match e with Some j => 0 <= j < i /\ i_ref (ino w j) = 0 | None => forall j, 0 <= j < i -> i_ref (ino w j) <> 0 end) ->
  (forall j, 0 <= j < i -> ~ (0 < i_ref (ino w j) /\ entry_for dev inum (ino w j) = true)) ->
  match Fs.iget_scan k w dev inum i e with
  | inl j => i <= j < i + Z.of_nat k /\ 0 < i_ref (ino w j) /\ entry_for dev inum (ino w j) = true
  | inr e' => (forall j, 0 <= j < i + Z.of_nat k -> ~ (0 < i_ref (ino w j) /\ entry_for dev inum (ino w j) = true))
      /\ match e' with
         | Some j => 0 <= j < i + Z.of_nat k /\ i_ref (ino w j) = 0
         | None => forall j, 0 <= j < i + Z.of_nat k -> i_ref (ino w j) <> 0
         end
  end.
Proof.
  revert i e. induction k as [|k IH]; intros i e Hi He Hn; cbn [Fs.iget_scan].
  { change (Z.of_nat 0) with 0. rewrite Z.add_0_r. done. }
  destruct ((0 <? i_ref (ino w i)) && (i_dev (ino w i) =? dev) && (i_inum (ino w i) =? inum)) eqn:E.
  - rewrite <- andb_assoc in E. apply andb_true_iff in E as [E1 E2]. apply Z.ltb_lt in E1. split; [lia|]. done.
  - assert (Hi' : ~ (0 < i_ref (ino w i) /\ entry_for dev inum (ino w i) = true)).
    { intros [H1 H2]. rewrite <- andb_assoc in E. apply Z.ltb_lt in H1. unfold entry_for in H2. by rewrite H1, H2 in E. }
    specialize (IH (i + 1) (match e with None => if i_ref (ino w i) =? 0 then Some i else None | Some _ => e end) ltac:(lia)).
    destruct (Fs.iget_scan k w dev inum (i + 1) _) as [j|e'].
    + destruct IH as (H1 & H2 & H3).
      * destruct e as [j'|]; [split; [lia|apply He]|]. destruct (Z.eqb_spec (i_ref (ino w i)) 0); [split; [lia|done]|].
        intros j' Hj. destruct (decide (j' = i)) as [->|]; [done|apply He; lia].
      * intros j' Hj. destruct (decide (j' = i)) as [->|]; [done|apply Hn; lia].
      * split; [lia|done].
    + replace (i + Z.of_nat (S k)) with (i + 1 + Z.of_nat k) by lia. apply IH.
      * destruct e as [j'|]; [split; [lia|apply He]|]. destruct (Z.eqb_spec (i_ref (ino w i)) 0); [split; [lia|done]|].
        intros j' Hj. destruct (decide (j' = i)) as [->|]; [done|apply He; lia].
      * intros j' Hj. destruct (decide (j' = i)) as [->|]; [done|apply Hn; lia].
Qed.

(** An update of one entry that keeps its identity. *)
Lemma refs_update (w w' : fsys T) i dev inum :
  slot i -> (forall j, j <> i -> ino w' j = ino w j) ->
  refs w' dev inum = refs w dev inum
    + ((if entry_for dev inum (ino w' i) then i_ref (ino w' i) else 0)
       - (if entry_for dev inum (ino w i) then i_ref (ino w i) else 0)).
Proof.
  intros Hi Ho. unfold refs.
  apply (sumZ_update (fun i => if entry_for dev inum (ino w i) then i_ref (ino w i) else 0)
    (fun i => if entry_for dev inum (ino w' i) then i_ref (ino w' i) else 0) NINODE i Hi).
  intros j _ Hj. by rewrite Ho.
Qed.

Lemma entry_for_true dev inum x : entry_for dev inum x = true <-> i_dev x = dev /\ i_inum x = inum.
Proof. unfold entry_for. rewrite andb_true_iff, !Z.eqb_eq. done. Qed.

(** The count of an inode is that of its entry. *)
Lemma refs_entry (w : fsys T) i : itable_ok w -> slot i -> 0 < i_ref (ino w i) ->
  refs w (i_dev (ino w i)) (i_inum (ino w i)) = i_ref (ino w i).
Proof.
  intros [Hn Hu] Hi Hr. unfold refs.
  rewrite (sumZ_update (fun _ => 0) _ NINODE i Hi).
  - rewrite (proj2 (entry_for_true _ _ _)) by done. replace (sumZ (fun _ => 0) NINODE) with 0 by reflexivity. lia.
  - intros j Hj Hne. destruct (entry_for _ _ (ino w j)) eqn:E; [|done]. apply entry_for_true in E as [E1 E2].
    pose proof (Hn j Hj). destruct (decide (i_ref (ino w j) = 0)); [done|]. exfalso. apply Hne, Hu; try done. lia.
Qed.

Lemma refs_none (w : fsys T) dev inum : itable_ok w ->
  (forall j, slot j -> ~ (0 < i_ref (ino w j) /\ entry_for dev inum (ino w j) = true)) -> refs w dev inum = 0.
Proof.
  intros [Hn _] H. unfold refs, sumZ. rewrite (sum_list_ext _ (fun _ => 0)); [reflexivity|]. intros i Hi.
  apply elem_of_seqZ in Hi. assert (Hs : slot i) by (unfold slot; lia). pose proof (Hn i Hs).
  destruct (entry_for dev inum (ino w i)) eqn:E; [|done].
  destruct (decide (i_ref (ino w i) = 0)); [done|]. exfalso. apply (H i Hs). split; [lia|done].
Qed.

(** Entry [i] stands for another inode or has another count; the new entry is
    the only one of its inode. *)
Lemma itable_ok_set (w w' : fsys T) i :
  itable_ok w -> slot i -> (forall j, j <> i -> ino w' j = ino w j) -> 0 <= i_ref (ino w' i) ->
  (0 < i_ref (ino w' i) -> forall j, slot j -> j <> i -> 0 < i_ref (ino w j) ->
     ~ (i_dev (ino w j) = i_dev (ino w' i) /\ i_inum (ino w j) = i_inum (ino w' i))) ->
  itable_ok w'.
Proof.
  intros [Hn Hu] Hi Ho Hr Hnew. split.
  - intros j Hj. destruct (decide (j = i)) as [->|Hne]; [done|]. rewrite Ho by done. by apply Hn.
  - intros j k Hj Hk Rj Rk E1 E2. destruct (decide (j = i)) as [->|Hji], (decide (k = i)) as [->|Hki]; [done|..].
    + rewrite (Ho k) in * by done. exfalso. by apply (Hnew Rj k).
    + rewrite (Ho j) in * by done. exfalso. by apply (Hnew Rk j).
    + rewrite (Ho j), (Ho k) in * by done. by apply Hu.
Qed.

(** A change of the count only. *)
Lemma itable_ok_ref (w : fsys T) i r : itable_ok w -> slot i -> 0 < i_ref (ino w i) -> 0 <= r ->
  itable_ok (iset i (set_iref r) w).
Proof.
  intros Hw Hi Hr Hr'. apply (itable_ok_set w _ i); [done..| | |].
  - intros j Hj. by rewrite ino_iset, decide_False.
  - by rewrite ino_iset, decide_True.
  - intros _ j Hj Hne Rj [E1 E2]. rewrite ino_iset, decide_True in E1, E2 by done.
    apply Hne. by apply (it_unique _ Hw).
Qed.

Lemma refs_ref (w : fsys T) i r d n : slot i ->
  refs (iset i (set_iref r) w) d n
  = refs w d n + (if entry_for d n (ino w i) then r - i_ref (ino w i) else 0).
Proof.
  intros Hi. rewrite (refs_update w _ i) by (done || intros j Hj; by rewrite ino_iset, decide_False).
  rewrite ino_iset, decide_True by done. simpl. unfold entry_for. simpl. case_if; lia.
Qed.

(** The indicator of one inode. *)
Definition is_inode (d n dev inum : Z) : Z := if (d =? dev) && (n =? inum) then 1 else 0.

Lemma is_inode_entry d n x : is_inode d n (i_dev x) (i_inum x) = if entry_for d n x then 1 else 0.
Proof. unfold is_inode, entry_for. by rewrite (Z.eqb_sym d), (Z.eqb_sym n). Qed.

Lemma iget_spec (w : fsys T) dev inum : itable_ok w -> refs w dev inum < 2 ^ 31 - 1 ->
  match Fs.iget dev inum w with
  | Ret (i, w') =>
      slot i /\ itable_ok w' /\ i_dev (ino w' i) = dev /\ i_inum (ino w' i) = inum
      /\ (forall d n, refs w' d n = refs w d n + is_inode d n dev inum)
      /\ (forall j, j <> i -> ino w' j = ino w j)
      /\ (if 0 <? refs w dev inum then ino w' i = set_iref (i_ref (ino w i) + 1) (ino w i)
          else i_ref (ino w i) = 0 /\ i_ref (ino w' i) = 1 /\ i_valid (ino w' i) = 0)
      /\ f_sb w' = f_sb w /\ f_blk w' = f_blk w
  | Panic _ => refs w dev inum = 0 /\ forall j, slot j -> 0 < i_ref (ino w j)
  | _ => False
  end.
Proof.
  intros Hw Hb. unfold Fs.iget.
  pose proof (iget_scan_spec w dev inum (Z.to_nat NINODE) 0 None ltac:(lia) ltac:(cbn; intros; lia) ltac:(intros; lia)) as H.
  rewrite Z.add_0_l, Z2Nat.id in H by (unfold NINODE; lia).
  destruct (Fs.iget_scan _ w dev inum 0 None) as [i|[i|]].
  - destruct H as (Hi & Hr & He). apply entry_for_true in He as [<- <-]. set (w' := iset i _ w).
    rewrite (refs_entry w i Hw Hi Hr) in Hb.
    assert (E : w' = iset i (set_iref (i_ref (ino w i) + 1)) w) by (unfold w', iset; by rewrite s32_small by lia). rewrite E. clear E w'.
    split; [done|]. split; [apply itable_ok_ref; [done..|lia]|]. rewrite ino_iset, decide_True by done. split; [done|]. split; [done|].
    split; [intros d n; rewrite refs_ref, is_inode_entry by done; case_if; lia|].
    split; [intros j Hj; by rewrite ino_iset, decide_False|]. split; [|done].
    rewrite (refs_entry w i Hw Hi Hr). by rewrite (proj2 (Z.ltb_lt _ _) Hr).
  - destruct H as (Hno & Hi & Hr). set (w' := iset i _ w).
    assert (Eo : forall j, j <> i -> ino w' j = ino w j) by (intros j Hj; unfold w'; by rewrite ino_iset, decide_False).
    assert (Ei : i_dev (ino w' i) = dev /\ i_inum (ino w' i) = inum /\ i_ref (ino w' i) = 1 /\ i_valid (ino w' i) = 0)
      by (unfold w'; by rewrite ino_iset, decide_True).
    destruct Ei as (E1 & E2 & E3 & E4). split; [done|]. split; [|split; [done|split; [done|split; [|split; [done|split; [|done]]]]]].
    + apply (itable_ok_set w _ i); [done..|lia|]. rewrite E1, E2. intros _ j Hj _ Rj [X Y].
      apply (Hno j Hj). split; [done|]. by apply entry_for_true.
    + intros d n. rewrite (refs_update w w' i d n Hi Eo), Hr, E3, <- E1, <- E2, is_inode_entry.
      destruct (entry_for d n (ino w' i)), (entry_for d n (ino w i)); lia.
    + rewrite (refs_none w dev inum Hw) by exact Hno. done.
  - destruct H as (Hno & Hr). split; [by apply refs_none|]. intros j Hj. pose proof (it_nonneg _ Hw j Hj).
    pose proof (Hr j Hj). lia.
Qed.

(** ** What the block and content operations leave of the table *)

(** Every entry still stands for the same inode with the same count. *)
Definition keeps (w w' : fsys T) : Prop :=
  f_sb w' = f_sb w /\ forall j, i_dev (ino w' j) = i_dev (ino w j) /\ i_inum (ino w' j) = i_inum (ino w j)
    /\ i_ref (ino w' j) = i_ref (ino w j).

#[local] Instance keeps_preorder : PreOrder keeps.
Proof.
  split; [by intros w|]. intros w1 w2 w3 [S1 K1] [S2 K2]. split; [congruence|]. intros j.
  destruct (K1 j) as (A1 & A2 & A3), (K2 j) as (B1 & B2 & B3). by rewrite B1, B2, B3.
Qed.

Lemma keeps_iset w i f :
  (forall x, i_dev (f x) = i_dev x /\ i_inum (f x) = i_inum x /\ i_ref (f x) = i_ref x) -> keeps w (iset i f w).
Proof. intros Hf. split; [done|]. intros j. rewrite ino_iset. destruct (decide (j = i)) as [->|]; [apply Hf|done]. Qed.

Lemma keeps_blk w t : keeps w (set_blk t w).
Proof. done. Qed.

Lemma keeps_bread pid dev bn w b w' : Fs.bread pid dev bn w = Ret (b, w') -> keeps w w'.
Proof. unfold Fs.bread. destruct (blk_bread _ _ _ _) as [[? ?]| | |]; [|done..]. by intros [= <- <-]. Qed.
Lemma keeps_brelse pid b w w' : Fs.brelse pid b w = Ret w' -> keeps w w'.
Proof. unfold Fs.brelse. destruct (blk_brelse _ _ _) as [?| | |]; [|done..]. by intros [= <-]. Qed.
Lemma keeps_log_write b w w' : Fs.log_write b w = Ret w' -> keeps w w'.
Proof. unfold Fs.log_write. destruct (blk_log_write _ _) as [?| | |]; [|done..]. by intros [= <-]. Qed.
Lemma keeps_bmodify b f w : keeps w (Fs.bmodify b f w).
Proof. done. Qed.

End Table.

Section Iput.
Context {T : Type} `{BIO : BlockIO T} (pid : Z).

Existing Instance keeps_preorder.

Lemma keeps_bfree dev b (w w' : fsys T) : Fs.bfree pid dev b w = Ret w' -> keeps w w'.
Proof.
  unfold Fs.bfree. intros ([b1 w1] & E1 & H)%bind_Ret. revert H. case_if; [done|].
  intros (w2 & E2 & H)%bind_Ret. etransitivity; [by eapply keeps_bread|].
  etransitivity; [apply keeps_bmodify|]. etransitivity; [by eapply keeps_log_write|by eapply keeps_brelse].
Qed.

Lemma keeps_trunc_direct k ip i (w w' : fsys T) : Fs.trunc_direct pid k ip i w = Ret w' -> keeps w w'.
Proof.
  revert i w. induction k as [|k IH]; intros i w; cbn [Fs.trunc_direct]; [by intros [= ->]|].
  case_if; [|apply IH]. intros (w1 & Eb & H)%bind_Ret. etransitivity; [by eapply keeps_bfree|].
  etransitivity; [|by eapply IH]. by apply keeps_iset.
Qed.

Lemma keeps_trunc_table k dev bp j (w w' : fsys T) : Fs.trunc_table pid k dev bp j w = Ret w' -> keeps w w'.
Proof.
  revert j w. induction k as [|k IH]; intros j w; cbn [Fs.trunc_table]; [by intros [= ->]|].
  case_if; [|apply IH]. intros (w1 & Eb & H)%bind_Ret. etransitivity; [by eapply keeps_bfree|by eapply IH].
Qed.

Lemma keeps_trunc_table2 k dev bp j (w w' : fsys T) : Fs.trunc_table2 pid k dev bp j w = Ret w' -> keeps w w'.
Proof.
  revert j w. induction k as [|k IH]; intros j w; cbn [Fs.trunc_table2]; [by intros [= ->]|].
  case_if; [|apply IH]. intros ([b w1] & E1 & H)%bind_Ret. apply bind_Ret in H as (w2 & E2 & H).
  apply bind_Ret in H as (w3 & E3 & H). apply bind_Ret in H as (w4 & E4 & H).
  etransitivity; [by eapply keeps_bread|]. etransitivity; [by eapply keeps_trunc_table|].
  etransitivity; [by eapply keeps_bfree|]. etransitivity; [by eapply keeps_brelse|by eapply IH].
Qed.

Lemma keeps_trunc_indirect ip k loop (w w' : fsys T) :
  (forall dev bp w w', loop dev bp w = Ret w' -> keeps w w') ->
  Fs.trunc_indirect pid ip k loop w = Ret w' -> keeps w w'.
Proof.
  intros Hl. unfold Fs.trunc_indirect. case_if; [|by intros [= ->]]. intros ([b w1] & E1 & H)%bind_Ret.
  apply bind_Ret in H as (w2 & E2 & H). apply bind_Ret in H as (w3 & E3 & H). apply bind_Ret in H as (w4 & E4 & [= <-]).
  etransitivity; [by eapply keeps_bread|]. etransitivity; [by eapply Hl|]. etransitivity; [by eapply keeps_brelse|].
  etransitivity; [by eapply keeps_bfree|]. by apply keeps_iset.
Qed.

Lemma keeps_iupdate ip (w w' : fsys T) : Fs.iupdate pid ip w = Ret w' -> keeps w w'.
Proof.
  unfold Fs.iupdate. intros ([b w1] & E1 & H)%bind_Ret. apply bind_Ret in H as (w2 & E2 & H).
  etransitivity; [by eapply keeps_bread|]. etransitivity; [apply keeps_bmodify|].
  etransitivity; [by eapply keeps_log_write|by eapply keeps_brelse].
Qed.

Lemma keeps_itrunc ip (w w' : fsys T) : Fs.itrunc pid ip w = Ret w' -> keeps w w'.
Proof.
  unfold Fs.itrunc. intros (w1 & E1 & H)%bind_Ret. apply bind_Ret in H as (w2 & E2 & H). apply bind_Ret in H as (w3 & E3 & H).
  etransitivity; [by eapply keeps_trunc_direct|].
  etransitivity; [eapply keeps_trunc_indirect; [|exact E2]; intros ? ? ? ?; apply keeps_trunc_table|].
  etransitivity; [eapply keeps_trunc_indirect; [|exact E3]; intros ? ? ? ?; apply keeps_trunc_table2|].
  etransitivity; [by apply (keeps_iset w3 ip (set_isize 0))|by eapply keeps_iupdate].
Qed.

Lemma keeps_lock ip (w w' : fsys T) : Fs.lock_inode pid ip w = Ret w' -> keeps w w'.
Proof. unfold Fs.lock_inode. intros (lk & E1 & [= <-])%bind_Ret. by apply keeps_iset. Qed.

Lemma keeps_unlock ip (w : fsys T) : keeps w (Fs.unlock_inode ip w).
Proof. unfold Fs.unlock_inode. etransitivity; [by apply (keeps_iset w ip (fun x => set_ilock (releasesleep (i_lock x)) x))|apply keeps_blk]. Qed.

Lemma keeps_counts (w w' : fsys T) : keeps w w' -> itable_ok w ->
  itable_ok w' /\ forall d n, refs w' d n = refs w d n.
Proof.
  intros [_ Hk] [Hn Hu]. split; [split|].
  - intros i Hi. destruct (Hk i) as (_ & _ & ->). by apply Hn.
  - intros i j Hi Hj. destruct (Hk i) as (-> & -> & ->), (Hk j) as (-> & -> & ->). by apply Hu.
  - intros d n. unfold refs, sumZ. apply sum_list_ext. intros i _. unfold entry_for. by destruct (Hk i) as (-> & -> & ->).
Qed.

Lemma keeps_iput_free ip (w w' : fsys T) : Fs.iput_free pid ip w = Ret w' -> keeps w w'.
Proof.
  unfold Fs.iput_free. intros (w3 & E3 & Hk)%bind_Ret. apply bind_Ret in Hk as (w4 & E4 & [= <-]).
  etransitivity; [by eapply keeps_itrunc|]. etransitivity; [by apply (keeps_iset w3 ip (set_itype 0))|].
  etransitivity; [by eapply keeps_iupdate|]. etransitivity; [by apply (keeps_iset w4 ip (set_ivalid 0))|apply keeps_unlock].
Qed.

End Iput.

(** ** Reference counting *)

(** [R] with [k] added at one inode, and [P] with [k] added at one entry. *)
Definition bump (R : Z -> Z -> Z) (dev inum k : Z) : Z -> Z -> Z := fun d n => R d n + k * is_inode d n dev inum.
Definition bump1 (P : Z -> Z) (i k : Z) : Z -> Z := fun j => if decide (j = i) then P j + k else P j.

(** The tables the operations lead to, in any order of the lock sections of
    their callers.  [R] counts the references taken and not given back, [P] the
    calls of [iput] that are freeing an entry, between their two holds of
    [itable.lock]; a caller of [idup] or [iput] has a reference that no such
    call is giving back.  Fewer than 2^31 references to an inode are held at a
    time.  Any other operation keeps the identities and counts of the entries. *)
Inductive counted {T} `{BIO : BlockIO T} : (Z -> Z -> Z) -> (Z -> Z) -> fsys T -> Prop :=
| counted_empty w : (forall i, slot i -> i_ref (ino w i) = 0) -> counted (fun _ _ => 0) (fun _ => 0) w
| counted_get R P w dev inum i w' : counted R P w -> R dev inum < 2 ^ 31 - 1 -> Fs.iget dev inum w = Ret (i, w') ->
    counted (bump R dev inum 1) P w'
| counted_dup R P w i : counted R P w -> slot i -> P i < i_ref (ino w i) -> R (i_dev (ino w i)) (i_inum (ino w i)) < 2 ^ 31 - 1 ->
    counted (bump R (i_dev (ino w i)) (i_inum (ino w i)) 1) P (Fs.idup i w)
| counted_put R P w i : counted R P w -> slot i -> P i < i_ref (ino w i) -> Fs.iput_last i w = false ->
    counted (bump R (i_dev (ino w i)) (i_inum (ino w i)) (-1)) P (Fs.iput_drop i w)
| counted_put_lock R P w pid i w' : counted R P w -> slot i -> P i < i_ref (ino w i) -> Fs.iput_last i w = true ->
    Fs.lock_inode pid i w = Ret w' -> counted R (bump1 P i 1) w'
| counted_put_free R P w pid i w' : counted R P w -> 0 < P i -> Fs.iput_free pid i w = Ret w' -> counted R P w'
| counted_put_end R P w i : counted R P w -> 0 < P i ->
    counted (bump R (i_dev (ino w i)) (i_inum (ino w i)) (-1)) (bump1 P i (-1)) (Fs.iput_drop i w)
| counted_keep R P w w' : counted R P w -> keeps w w' -> counted R P w'.

Section Counting.
Existing Instance keeps_preorder.
Context {T : Type} `{BIO : BlockIO T}.

(** The invariant: the counts are those of [R], none overflows, and every call
    that is freeing an entry has its reference. *)
Record count_inv (R : Z -> Z -> Z) (P : Z -> Z) (w : fsys T) : Prop := MkCountInv {
  ci_ok : itable_ok w;
  ci_refs : forall d n, refs w d n = R d n;
  ci_bound : forall i, slot i -> i_ref (ino w i) < 2 ^ 31;
  ci_pend : forall i, 0 <= P i /\ (0 < P i -> slot i /\ P i <= i_ref (ino w i))
}.

(** A caller with a reference changes the count of its entry by [k]. *)
Lemma count_inv_ref R P w i k r :
  count_inv R P w -> slot i -> 0 < i_ref (ino w i) -> r = i_ref (ino w i) + k -> 0 <= r < 2 ^ 31 -> P i <= r ->
  count_inv (bump R (i_dev (ino w i)) (i_inum (ino w i)) k) P (iset i (set_iref r) w).
Proof.
  intros [Hw HR Hb HP] Hi Hr -> Hb' Hle. split.
  - apply itable_ok_ref; [done|done|done|lia].
  - intros d n. rewrite refs_ref, HR by done. unfold bump. rewrite is_inode_entry. case_if; lia.
  - intros j Hj. rewrite ino_iset. destruct (decide (j = i)) as [->|]; [simpl; lia|by apply Hb].
  - intros j. destruct (HP j) as [H0 H1]. split; [done|]. intros Hp. destruct (H1 Hp) as [Hj Hl]. split; [done|].
    rewrite ino_iset. destruct (decide (j = i)) as [->|]; done.
Qed.

Lemma count_inv_keep R P w w' : count_inv R P w -> keeps w w' -> count_inv R P w'.
Proof.
  intros [Hw HR Hb HP] K. destruct (keeps_counts w w' K Hw) as [Hw' Hc]. destruct K as [_ K]. split; [done| | |].
  - intros d n. by rewrite Hc.
  - intros i Hi. destruct (K i) as (_ & _ & ->). by apply Hb.
  - intros i. destruct (K i) as (_ & _ & ->). apply HP.
Qed.

Lemma count_inv_get R P w dev inum i w' : count_inv R P w -> R dev inum < 2 ^ 31 - 1 -> Fs.iget dev inum w = Ret (i, w') ->
  count_inv (bump R dev inum 1) P w'.
Proof.
  intros [Hw HR Hb HP] Hlt E. pose proof (iget_spec w dev inum Hw) as Hs. rewrite E, HR in Hs.
  destruct (Hs Hlt) as (Hi & Hw' & E1 & E2 & Hc & Ho & Hn & _). split; [done|intros d n; rewrite Hc, HR; unfold bump; lia| |].
  - intros j Hj. destruct (decide (j = i)) as [->|]; [|rewrite Ho by done; by apply Hb].
    destruct (decide (0 < i_ref (ino w' i))) as [Hpos|]; [|lia]. pose proof (refs_entry w' i Hw' Hi Hpos) as Hre.
    rewrite E1, E2, Hc, HR in Hre. unfold is_inode in Hre. rewrite !Z.eqb_refl in Hre. simpl in Hre. lia.
  - intros j. destruct (HP j) as [H0 H1]. split; [done|]. intros Hp. destruct (H1 Hp) as [Hj Hl]. split; [done|].
    destruct (decide (j = i)) as [->|]; [|by rewrite Ho].
    destruct (0 <? R dev inum); [rewrite Hn; simpl; lia|lia].
Qed.

Lemma counted_inv R P (w : fsys T) : counted R P w -> count_inv R P w.
Proof.
  induction 1 as [w H|R P w dev inum i w' _ IH Hlt E|R P w i _ IH Hi Hr Hlt|R P w i _ IH Hi Hr _|R P w pid i w' _ IH Hi Hr _ E
                 |R P w pid i w' _ IH _ E|R P w i _ IH Hp|R P w w' _ IH K].
  - split; [split| | |].
    + intros i Hi. rewrite H by done. lia.
    + intros i j Hi _ Hr. rewrite H in Hr by done. lia.
    + intros d n. unfold refs, sumZ. rewrite (sum_list_ext _ (fun _ => 0)); [reflexivity|].
      intros i Hi. apply elem_of_seqZ in Hi. rewrite H by (unfold slot; lia). by case_if.
    + intros i Hi. rewrite H by done. lia.
    + intros i. lia.
  - by eapply count_inv_get.
  - pose proof (ci_pend _ _ _ IH i) as [H0 _]. pose proof (refs_entry w i (ci_ok _ _ _ IH) Hi ltac:(lia)) as Hre.
    rewrite (ci_refs _ _ _ IH) in Hre. change (Fs.idup i w) with (iset i (set_iref (s32 (i_ref (ino w i) + 1))) w).
    rewrite s32_small by lia. apply count_inv_ref; try done; lia.
  - pose proof (ci_pend _ _ _ IH i) as [H0 _]. pose proof (ci_bound _ _ _ IH i Hi).
    change (Fs.iput_drop i w) with (iset i (set_iref (s32 (i_ref (ino w i) - 1))) w).
    rewrite s32_small by lia. apply count_inv_ref; try done; lia.
  - pose proof (keeps_lock pid i w w' E) as K. destruct (count_inv_keep R P w w' IH K) as [Hw HR Hb HP]. split; try done.
    intros j. unfold bump1. case_decide as Ej; [subst j|apply HP]. destruct (HP i) as [H0 _]. split; [lia|]. intros _. split; [done|].
    destruct K as [_ K]. destruct (K i) as (_ & _ & ->). lia.
  - eapply count_inv_keep; [exact IH|by eapply keeps_iput_free].
  - destruct (ci_pend _ _ _ IH i) as [H0 H1]. destruct (H1 Hp) as [Hi Hl]. pose proof (ci_bound _ _ _ IH i Hi).
    change (Fs.iput_drop i w) with (iset i (set_iref (s32 (i_ref (ino w i) - 1))) w). rewrite s32_small by lia.
    assert (Hd : count_inv R (bump1 P i (-1)) w).
    { destruct IH as [Hw HR Hb HP]. split; try done. intros j. unfold bump1. case_decide as Ej; [subst j; split; [lia|]; intros; split; [done|lia]|apply HP]. }
    apply count_inv_ref; try done; try lia. unfold bump1. rewrite decide_True by done. lia.
  - by eapply count_inv_keep.
Qed.

(** [iput] without interruption is such a sequence. *)
Lemma counted_iput R P w pid i w' : counted R P w -> slot i -> 0 <= P i < i_ref (ino w i) -> Fs.iput pid i w = Ret w' ->
  exists P', (forall j, P' j = P j) /\ counted (bump R (i_dev (ino w i)) (i_inum (ino w i)) (-1)) P' w'.
Proof.
  intros C Hi Hr. unfold Fs.iput. intros (w1 & E & [= <-])%bind_Ret. destruct (Fs.iput_last i w) eqn:El.
  - apply bind_Ret in E as (w2 & E2 & E). exists (bump1 (bump1 P i 1) i (-1)). split.
    { intros j. unfold bump1. by case_decide; lia. }
    assert (K : keeps w w1) by (etransitivity; [by eapply keeps_lock|by eapply keeps_iput_free]).
    destruct K as [_ K]. destruct (K i) as (<- & <- & _). apply counted_put_end; [|unfold bump1; rewrite decide_True by done; lia].
    eapply counted_put_free; [|unfold bump1; rewrite decide_True by done; lia|exact E].
    by eapply counted_put_lock; [done|done|lia|done|].
  - injection E as <-. exists P. split; [done|]. apply counted_put; [done|done|lia|done].
Qed.

End Counting.

(** (C14) In every table the operations lead to, with the lock sections of concurrent
    callers in any order and counts of 32 bits, while fewer than 2^31
    references to an inode are held at a time: no inode has two entries in
    use, no count is negative, the count of each inode is the number of
    references handed out by [iget] and [idup] and not given back by [iput],
    and an entry that an [iput] is freeing stays in use until that [iput] drops
    its reference. *)
Theorem inode_refcounts {T} `{BIO : BlockIO T} R P (w : fsys T) :
  counted R P w -> itable_ok w /\ (forall d n, refs w d n = R d n) /\ (forall i, 0 < P i -> slot i /\ P i <= i_ref (ino w i)).
Proof. intros C. apply counted_inv in C as [Hw HR _ HP]. split; [done|]. split; [done|]. intros i. apply HP. Qed.

Lemma inode_refcounts_witness :
  exists w, counted (BIO := kernel_block_io) (bump (bump (fun _ _ => 0) ROOTDEV 7 1) ROOTDEV 7 1) (fun _ => 0) w
    /\ refs w ROOTDEV 7 = 2.
Proof.
  pose (t := demo_ctx). clearbody t. set (w0 := MkFsys demo_fs ∅ t).
  assert (C0 : counted (BIO := kernel_block_io) (fun _ _ => 0) (fun _ => 0) w0) by (apply counted_empty; intros i _; reflexivity).
  destruct (Fs.iget ROOTDEV 7 w0) as [[i w1]| | |] eqn:E1; [|vm_compute in E1; discriminate E1..].
  pose proof (counted_get _ _ _ _ _ _ _ C0 ltac:(lia) E1) as C1.
  assert (C2 : counted (BIO := kernel_block_io) (bump (bump (fun _ _ => 0) ROOTDEV 7 1) ROOTDEV 7 1) (fun _ => 0) (Fs.idup i w1)).
  { vm_compute in E1. injection E1 as <- <-. apply (counted_dup _ _ _ 0 C1); [unfold slot, NINODE; lia|reflexivity|vm_compute; reflexivity]. }
  exists (Fs.idup i w1). split; [exact C2|]. destruct (inode_refcounts _ _ _ C2) as (_ & H & _). rewrite H. reflexivity.
Defined.

(** [iget] finds or makes the entry of an inode: when the inode is in the
    table its entry gets one more reference and nothing else changes; otherwise
    a free entry is taken, with one reference and marked as not read yet.
    Every other entry, the super block and the disk stay as they are, and the
    invariant of the table is kept.  [iget] panics exactly when the inode is
    absent and all entries are in use. *)
Theorem iget_correct {T} `{BIO : BlockIO T} (w : fsys T) dev inum : itable_ok w -> refs w dev inum < 2 ^ 31 - 1 ->
  match Fs.iget dev inum w with
  | Ret (i, w') =>
      slot i /\ itable_ok w' /\ i_dev (ino w' i) = dev /\ i_inum (ino w' i) = inum
      /\ (forall d n, refs w' d n = refs w d n + is_inode d n dev inum)
      /\ (forall j, j <> i -> ino w' j = ino w j)
      /\ (if 0 <? refs w dev inum then ino w' i = set_iref (i_ref (ino w i) + 1) (ino w i)
          else i_ref (ino w i) = 0 /\ i_ref (ino w' i) = 1 /\ i_valid (ino w' i) = 0)
      /\ f_sb w' = f_sb w /\ f_blk w' = f_blk w
  | Panic _ => refs w dev inum = 0 /\ forall j, slot j -> 0 < i_ref (ino w j)
  | _ => False
  end.
Proof. apply iget_spec. Qed.

Lemma iget_correct_witness : exists i w', Fs.iget ROOTDEV 7 (MkFsys demo_fs ∅ demo_ctx) = Ret (i, w') /\ i_ref (ino w' i) = 1.
Proof.
  generalize demo_ctx. intros t. assert (Hw : itable_ok (MkFsys demo_fs ∅ t)).
  { split; [intros i _; vm_compute; congruence|]. intros i j _ _ H. vm_compute in H. discriminate H. }
  pose proof (iget_correct (BIO := kernel_block_io) (MkFsys demo_fs ∅ t) ROOTDEV 7 Hw ltac:(vm_compute; reflexivity)) as H.
  destruct (Fs.iget ROOTDEV 7 (MkFsys demo_fs ∅ t)) as [[i w']| | |] eqn:E; [|vm_compute in E; discriminate E..].
  exists i, w'. split; [reflexivity|]. destruct H as (_ & _ & _ & _ & _ & _ & H & _).
  destruct (0 <? refs (MkFsys demo_fs ∅ t) ROOTDEV 7) eqn:E2; [vm_compute in E2; discriminate E2|apply H].
Defined.

(** ** ilock *)

Section Ilock.
Context {T : Type} `{BIO : BlockIO T} `{BTX : !BlockTx T}.
Context (pid : Z) (c : tx_ctx).

(** The entry [x] once it has been read from [d] and locked. *)
Definition loaded (d : list Z) (x : inode) : inode :=
  set_ivalid 1 (Fs.dinode_get d (Fs.dioff (i_inum x)) (set_ilock (MkSleeplock 1 pid) x)).

Lemma ilock_load w V B ip :
  tx pid c (f_blk w) V [] B -> i_dev (ino w ip) = ROOTDEV -> 1 <= i_ref (ino w ip) ->
  sl_locked (i_lock (ino w ip)) = 0 -> i_valid (ino w ip) = 0 ->
  let x' := loaded (V (IBLOCK (i_inum (ino w ip)) (f_sb w))) (ino w ip) in
  if i_type x' =? 0 then Fs.ilock pid ip w = Panic "ilock: no type"
  else exists w', Fs.ilock pid ip w = Ret w' /\ tx pid c (f_blk w') V [] B /\ f_sb w' = f_sb w
    /\ ino w' ip = x' /\ forall j, j <> ip -> ino w' j = ino w j.
Proof.
  intros K Hdev Hr Hl Hv x'. unfold Fs.ilock, Fs.lock_inode. rewrite (proj2 (Z.ltb_ge _ _)) by lia.
  rewrite acquiresleep_free by done. cbn [mbind outcome_bind].
  set (w1 := iset ip (set_ilock (MkSleeplock 1 pid)) w).
  assert (E1 : ino w1 ip = set_ilock (MkSleeplock 1 pid) (ino w ip)) by (unfold w1; by rewrite ino_iset, decide_True).
  rewrite E1. cbn [set_ilock i_valid i_dev i_inum]. rewrite Hv, Hdev. cbv iota. simpl (0 =? 0). cbv iota.
  change (f_sb w1) with (f_sb w).
  destruct (fs_bread pid c w1 V [] B (IBLOCK (i_inum (ino w ip)) (f_sb w)) K) as (b & t1 & E2 & K2);
    [by apply not_elem_of_nil|simpl; unfold MAXHELD; lia|].
  rewrite E2. cbn [mbind outcome_bind]. rewrite (fs_data pid c (set_blk t1 w1) V [] B b _ K2).
  set (w2 := iset ip _ (set_blk t1 w1)).
  destruct (fs_brelse pid c w2 V [] B b _ K2) as (t2 & E3 & K3). rewrite E3. cbn [mbind outcome_bind].
  set (w3 := iset ip (set_ivalid 1) (set_blk t2 w2)).
  assert (E4 : ino w3 ip = x').
  { unfold w3. rewrite ino_iset, decide_True by done. change (ino (set_blk t2 w2) ip) with (ino w2 ip). unfold w2.
    rewrite ino_iset, decide_True by done. change (ino (set_blk t1 w1) ip) with (ino w1 ip). rewrite E1. done. }
  rewrite E4. destruct (i_type x' =? 0); [done|]. exists w3. split; [done|]. split; [done|]. split; [done|]. split; [done|].
  intros j Hj. unfold w3. rewrite ino_iset, decide_False by done. change (ino (set_blk t2 w2) j) with (ino w2 j).
  unfold w2. rewrite ino_iset, decide_False by done. change (ino (set_blk t1 w1) j) with (ino w1 j).
  unfold w1. by rewrite ino_iset, decide_False.
Qed.

End Ilock.

(** What [iupdate] stores, [ilock] reads.  After [iupdate] of a locked
    inode, any table entry for the same inode number that has not been read yet
    is loaded by [ilock] with the same type, device numbers, link count, size
    and block addresses (an entry of type 0 makes [ilock] panic); the slots of
    all other inodes on the disk keep their bytes. *)
Theorem inode_round_trip {T} `{BIO : BlockIO T} `{BTX : !BlockTx T} pid (c : tx_ctx) sb dstart ip (w : fsys T) V B :
  in_op pid c sb dstart ip w V B -> dinode_fits (ino w ip) -> 0 <= i_inum (ino w ip) < sb_ninodes sb -> room B 1 ->
  exists t V' B', Fs.iupdate pid ip w = Ret (set_blk t w) /\ in_op pid c sb dstart ip (set_blk t w) V' B'
    /\ (forall w2 jp, f_sb w2 = sb -> f_blk w2 = t -> i_dev (ino w2 jp) = ROOTDEV ->
         i_inum (ino w2 jp) = i_inum (ino w ip) -> 1 <= i_ref (ino w2 jp) ->
         sl_locked (i_lock (ino w2 jp)) = 0 -> i_valid (ino w2 jp) = 0 ->
         if i_type (ino w ip) =? 0 then Fs.ilock pid jp w2 = Panic "ilock: no type"
         else exists w3, Fs.ilock pid jp w2 = Ret w3
           /\ ino w3 jp = MkInode ROOTDEV (i_inum (ino w ip)) (i_ref (ino w2 jp)) (MkSleeplock 1 pid) 1
                (i_type (ino w ip)) (i_major (ino w ip)) (i_minor (ino w ip)) (i_nlink (ino w ip))
                (i_size (ino w ip)) (i_addrs (ino w ip)))
    /\ (forall n, 0 <= n < sb_ninodes sb -> n <> i_inum (ino w ip) ->
         take (Z.to_nat DINODE_SIZE) (drop (Z.to_nat (Fs.dioff n)) (V' (IBLOCK n sb)))
         = take (Z.to_nat DINODE_SIZE) (drop (Z.to_nat (Fs.dioff n)) (V (IBLOCK n sb)))).
Proof.
  intros O Hf Hn Hr. destruct (iupdate_spec pid c sb dstart ip w V B O Hn Hr) as (t & E & O').
  exists t, (iupdate_view sb V (ino w ip)), (B ∪ {[IBLOCK (i_inum (ino w ip)) sb]}). split; [done|]. split; [done|].
  pose proof (op_inv _ _ _ _ _ _ _ _ O) as Hi. assert (HIPB : IPB = 16) by reflexivity.
  assert (Hdi : forall n, 0 <= n -> 0 <= Fs.dioff n /\ Fs.dioff n + DINODE_SIZE <= BSIZE).
  { intros n Hn0. unfold Fs.dioff, DINODE_SIZE, BSIZE. rewrite HIPB. dlia. }
  split.
  - intros w2 jp Esb Et Hdev Hin Href Hlk Hv.
    pose proof (ilock_load pid c w2 (iupdate_view sb V (ino w ip)) (B ∪ {[IBLOCK (i_inum (ino w ip)) sb]}) jp) as HL.
    rewrite Et in HL. specialize (HL (op_tx _ _ _ _ _ _ _ _ O') Hdev Href Hlk Hv). cbv zeta in HL.
    unfold loaded in HL. rewrite Esb, Hin in HL. assert (EV : iupdate_view sb V (ino w ip) (IBLOCK (i_inum (ino w ip)) sb)
      = Fs.dinode_put (V (IBLOCK (i_inum (ino w ip)) sb)) (Fs.dioff (i_inum (ino w ip))) (ino w ip)) by apply vset_eq.
    rewrite EV in HL.
    rewrite dinode_get_put in HL by (done || apply Hi || apply Hdi; lia). cbn [set_ivalid i_type] in HL.
    destruct (i_type (ino w ip) =? 0); [done|]. destruct HL as (w3 & E3 & _ & _ & Ej & _). exists w3. split; [done|].
    rewrite Ej. unfold set_ivalid, set_ilock. cbn [i_dev i_inum i_ref i_lock i_type i_major i_minor i_nlink i_size i_addrs]. by rewrite Hdev, Hin.
  - intros n Hn' Hne. unfold iupdate_view, vset. destruct (decide (IBLOCK n sb = IBLOCK (i_inum (ino w ip)) sb)) as [Eb|Eb]; [|done].
    rewrite <- Eb. apply dinode_put_other; [apply Hdi; lia|apply Hdi; lia|].
    rewrite (proj1 (iblock_eq sb dstart n (fi_sb _ _ _ _ Hi) Hn')), (proj1 (iblock_eq sb dstart _ (fi_sb _ _ _ _ Hi) Hn)) in Eb.
    unfold Fs.dioff, DINODE_SIZE. rewrite HIPB in *. dlia.
Qed.

Lemma inode_round_trip_witness :
  exists t, Fs.iupdate (BIO := kernel_block_io) 1 0 demo_op = Ret (set_blk t demo_op).
Proof.
  destruct (inode_round_trip (BTX := kernel_block_tx) 1 demo_ctx demo_fs 46 0 demo_op demo_view ∅ demo_in_op) as (t & V' & B' & E & _).
  - change (ino demo_op 0) with demo_inode. split; simpl; try lia; try done. repeat constructor; lia.
  - change (i_inum (ino demo_op 0)) with 1. simpl. lia.
  - apply demo_room. lia.
  - exists t. exact E.
Defined.

End FsTable.
