(* ===== verification/FsPath.v ===== *)
(** * Path names

    The element-by-element walk of [namex] against a direct description: split
    the path at the slashes, drop the empty parts, and look the parts up one
    after the other. *)

From S2P Require Import Prelude Riscv ProcDefs UserMem Block Sleeplock Bio Log BlockIO Fs FsSpec.
From stdpp Require Import base list numbers gmap strings.
From Stdlib Require Import ZArith Lia.

#[local] Open Scope Z_scope.

Import Block FsSpec.

Module FsPath.

(** ** The reference *)

(** The parts of a path between its slashes. *)
Fixpoint split_slash (path : list Z) : list (list Z) :=
  match path with
  | [] => [[]]
  | c :: rest =>
      if c =? SLASH then [] :: split_slash rest
      else match split_slash rest with
           | [] => [[c]]
           | e :: es => (c :: e) :: es
           end
  end.

Definition nonempty (e : list Z) : bool := match e with [] => false | _ => true end.

(** The elements of a path. *)
Definition elems (path : list Z) : list (list Z) := List.filter nonempty (split_slash path).

(** The first [n] bytes of a C string. *)
Fixpoint cstr (n : nat) (l : list Z) : list Z :=
  match n, l with
  | S n, c :: l => if c =? 0 then [] else c :: cstr n l
  | _, _ => []
  end.

Definition SIZ : nat := Z.to_nat DIRSIZ.

(** ** skipelem *)

Lemma split_nonempty path : split_slash path <> [].
Proof. destruct path as [|c p]; simpl; [done|]. case_if; [done|]. by destruct (split_slash p). Qed.

Lemma elems_slash path : elems (SLASH :: path) = elems path.
Proof. done. Qed.

Lemma elems_skip path : elems (Fs.skip_slashes path) = elems path.
Proof.
  induction path as [|c p IH]; [done|]. simpl. destruct (Z.eqb_spec c SLASH) as [->|]; [|done].
  by rewrite elems_slash.
Qed.

Lemma skip_head path c rest : Fs.skip_slashes path = c :: rest -> c <> SLASH.
Proof.
  induction path as [|x p IH]; [done|]. simpl. destruct (Z.eqb_spec x SLASH); [done|]. congruence.
Qed.

Lemma skip_length path : (length (Fs.skip_slashes path) <= length path)%nat.
Proof. induction path as [|c p IH]; simpl; [done|]. case_if; simpl; lia. Qed.

Lemma elem_end_split path : let '(s, rest) := Fs.elem_end path in
  (path = s ++ rest) /\ (SLASH ∉ s) /\ (split_slash path = s :: tl (split_slash rest))
  /\ (rest = [] \/ exists r, rest = SLASH :: r).
Proof.
  induction path as [|c p IH]; simpl; [repeat split; [by apply not_elem_of_nil|by left]|].
  destruct (Z.eqb_spec c SLASH) as [->|Hne].
  - simpl. repeat split; [by apply not_elem_of_nil|right; by eexists].
  - destruct (Fs.elem_end p) as [s rest]. destruct IH as (E & Hs & Esp & Hr). rewrite Esp. subst p.
    repeat split; [|done]. rewrite not_elem_of_cons. by split.
Qed.

(** The elements of a path that starts with one. *)
Lemma elems_cons c p : c <> SLASH -> let '(s, rest) := Fs.elem_end (c :: p) in
  elems (c :: p) = s :: elems rest /\ s <> [] /\ (length rest < length (c :: p))%nat /\ c :: p = s ++ rest.
Proof.
  intros Hc. pose proof (elem_end_split (c :: p)) as H. destruct (Fs.elem_end (c :: p)) as [s rest] eqn:Ee.
  destruct H as (E & Hs & Esp & Hr).
  assert (Hn : s <> []).
  { intros ->. simpl in E. subst rest. destruct Hr as [?|[r [= -> _]]]; done. }
  assert (Et : elems rest = List.filter nonempty (tl (split_slash rest))).
  { unfold elems. destruct Hr as [->|[r ->]]; done. }
  split; [|split; [done|split; [|done]]].
  - rewrite Et. unfold elems. rewrite Esp. simpl. by destruct s.
  - rewrite E, length_app. destruct s; [done|simpl; lia].
Qed.

(** The contents of [name] after [skipelem] has copied element [e]. *)
Definition put_name (name e : list Z) : list Z :=
  if DIRSIZ <=? Z.of_nat (length e) then put_bytes name 0 (take SIZ e)
  else put_bytes (put_bytes name 0 e) (Z.of_nat (length e)) [0].

Lemma skipelem_spec path name :
  match elems path with
  | [] => Fs.skipelem path name = None
  | e :: es => exists rest, Fs.skipelem path name = Some (rest, put_name name e) /\ elems rest = es
      /\ (length rest < length path)%nat /\ (rest = [] <-> es = []) /\ (forall b, b ∈ e -> b ∈ path)
      /\ (forall b, b ∈ rest -> b ∈ path)
  end.
Proof.
  rewrite <- elems_skip. unfold Fs.skipelem. pose proof (skip_length path) as Hl.
  assert (Hsub : forall b, b ∈ Fs.skip_slashes path -> b ∈ path).
  { clear Hl. induction path as [|x p IH]; [done|]. simpl. case_if; [|done]. intros b Hb. constructor. by apply IH. }
  destruct (Fs.skip_slashes path) as [|c p] eqn:E; [done|].
  pose proof (skip_head _ _ _ E) as Hc. pose proof (elems_cons c p Hc) as H. destruct (Fs.elem_end (c :: p)) as [s rest].
  destruct H as (E1 & Hs & Hlen & Eapp). rewrite E1.
  exists (Fs.skip_slashes rest). split; [done|]. split; [apply elems_skip|]. pose proof (skip_length rest).
  split; [lia|].
  assert (Hin : forall b, b ∈ s \/ b ∈ rest -> b ∈ path).
  { intros b Hb. apply Hsub. rewrite Eapp. by apply elem_of_app. }
  split; [|split; [by auto|]].
  - rewrite <- (elems_skip rest). destruct (Fs.skip_slashes rest) as [|d r] eqn:Er; [done|]. split; [done|].
    pose proof (elems_cons d r (skip_head _ _ _ Er)) as H'. destruct (Fs.elem_end (d :: r)). destruct H' as [-> _]. done.
  - intros b Hb. apply Hin. right. clear -Hb. induction rest as [|x p' IH]; [done|]. simpl in Hb. revert Hb. case_if; [|done].
    intros Hb. constructor. by apply IH.
Qed.

(** ** Names as C strings *)

Lemma put_bytes_0 d l : (length l <= length d)%nat -> put_bytes d 0 l = l ++ drop (length l) d.
Proof.
  intros Hl. unfold put_bytes. simpl (Z.to_nat 0). apply list_eq. intros i.
  destruct (decide (i < length l)%nat) as [H|H].
  - rewrite list_lookup_inserts, lookup_app_l by lia. f_equal. lia.
  - rewrite list_lookup_inserts_ge, lookup_app_r, lookup_drop by lia. f_equal. lia.
Qed.

Lemma cstr_app n l r : 0 ∉ l -> (n <= length l)%nat -> cstr n (l ++ r) = take n l.
Proof.
  revert l. induction n as [|n IH]; intros l H0 Hn; [by destruct l|]. destruct l as [|c l]; [simpl in Hn; lia|].
  apply not_elem_of_cons in H0 as [Hc H0]. simpl. rewrite (proj2 (Z.eqb_neq _ _)) by done. f_equal. apply IH; [done|simpl in Hn; lia].
Qed.

Lemma cstr_end n l r : 0 ∉ l -> (length l < n)%nat -> cstr n (l ++ 0 :: r) = l.
Proof.
  revert n. induction l as [|c l IH]; intros n H0 Hn; destruct n as [|n]; [simpl in Hn; lia|done|simpl in Hn; lia|].
  apply not_elem_of_cons in H0 as [Hc H0]. simpl. rewrite (proj2 (Z.eqb_neq _ _)) by done. f_equal. apply IH; [done|simpl in Hn; lia].
Qed.

(** [name] holds the element, cut to [DIRSIZ] bytes. *)
Lemma cstr_put_name name e : length name = SIZ -> 0 ∉ e -> cstr SIZ (put_name name e) = take SIZ e.
Proof.
  intros Hn H0. unfold put_name. destruct (Z.leb_spec DIRSIZ (Z.of_nat (length e))) as [H|H].
  - rewrite put_bytes_0 by (rewrite length_take; lia). rewrite cstr_app; [by rewrite take_take, Nat.min_id| |].
    + intros Hin. apply H0. apply elem_of_take in Hin as (i & Hi & _). by eapply list_elem_of_lookup_2.
    + rewrite length_take. unfold SIZ in *. lia.
  - unfold DIRSIZ in H. assert (Hs : SIZ = 14%nat) by reflexivity.
    rewrite (put_bytes_0 name e) by lia. rewrite take_ge by lia.
    assert (E : put_bytes (e ++ drop (length e) name) (Z.of_nat (length e)) [0] = e ++ 0 :: drop (S (length e)) name).
    { unfold put_bytes. rewrite Nat2Z.id. rewrite <- (Nat.add_0_r (length e)) at 1. rewrite list_inserts_app_r.
      f_equal. destruct (drop (length e) name) as [|x l] eqn:Ed.
      - apply (f_equal length) in Ed. rewrite length_drop in Ed. simpl in Ed. lia.
      - simpl. f_equal. replace (S (length e)) with (length e + 1)%nat by lia. rewrite <- drop_drop, Ed. done. }
    rewrite E. apply cstr_end; [done|lia].
Qed.

Lemma length_put_name name e : length (put_name name e) = length name.
Proof. unfold put_name. case_if; by rewrite !length_put_bytes. Qed.

(** [strncmp] stops at the end of its first argument. *)
Lemma strncmp_cstr p q n : Fs.strncmp (cstr n p) q n = Fs.strncmp p q n.
Proof.
  revert p q. induction n as [|n IH]; intros p q; [done|]. destruct p as [|c p]; [done|]. simpl.
  destruct (Z.eqb_spec c 0) as [->|Hc]; [done|]. simpl. rewrite (proj2 (nz_true c) Hc). simpl. case_if; [apply IH|done].
Qed.

Lemma namecmp_cstr name t : Fs.namecmp (cstr SIZ name) t = Fs.namecmp name t.
Proof. apply strncmp_cstr. Qed.

Lemma bind_ext {A B} (m : outcome A) (f g : A -> outcome B) : (forall a, f a = g a) -> m ≫= f = m ≫= g.
Proof. intros H. destruct m; simpl; auto. Qed.

Lemma bind_assoc {A B C} (m : outcome A) (f : A -> outcome B) (g : B -> outcome C) :
  (m ≫= f) ≫= g = m ≫= (fun a => f a ≫= g).
Proof. by destruct m. Qed.

(** ** The walk *)

Section Walk.
Context {T : Type} `{BIO : BlockIO T} (pid : Z).

Lemma dirlookup_cstr dp name (w : fsys T) : Fs.dirlookup pid dp (cstr SIZ name) w = Fs.dirlookup pid dp name w.
Proof.
  unfold Fs.dirlookup. destruct (negb (i_type (ino w dp) =? T_DIR)); [done|]. generalize (Z.to_nat (i_size (ino w dp) / DIRENT_SIZE + 1)) 0. intros k off.
  revert off w. induction k as [|k IH]; intros off w; cbn [Fs.dirlookup_loop]; [done|]. case_if; [|done].
  apply bind_ext. intros [de w1]. rewrite namecmp_cstr. repeat (case_if; [try done|]); apply IH.
Qed.

(** Looks up the elements [es] one after the other from [ip] on; with [parent]
    the last one is left out. *)
Fixpoint resolve (parent : bool) (es : list (list Z)) (ip : Z) (w : fsys T) : outcome (option Z * fsys T) :=
  match es with
  | [] => if parent then w ← Fs.iput pid ip w; Ret (None, w) else Ret (Some ip, w)
  | e :: es =>
      w ← Fs.ilock pid ip w;
      if negb (i_type (ino w ip) =? T_DIR) then w ← Fs.iunlockput pid ip w; Ret (None, w)
      else if parent && negb (bool_decide (es <> [])) then w ← Fs.iunlock pid ip w; Ret (Some ip, w)
      else
        '(next, w) ← Fs.dirlookup pid ip (take SIZ e) w;
        match next with
        | None => w ← Fs.iunlockput pid ip w; Ret (None, w)
        | Some (next, _) => w ← Fs.iunlockput pid ip w; resolve parent es next w
        end
  end.

(** The result of [namex] with [name] as a C string, when an inode is returned
    and the path has elements. *)
Definition name_view (es : list (list Z)) (r : outcome (option Z * list Z * fsys T)) : outcome (option Z * option (list Z) * fsys T) :=
  '(ip, name, w) ← r;
  Ret (ip, match ip with Some _ => if bool_decide (es = []) then None else Some (cstr SIZ name) | None => None end, w).

Definition resolve_view (parent : bool) (es : list (list Z)) (ip : Z) (w : fsys T) : outcome (option Z * option (list Z) * fsys T) :=
  '(r, w) ← resolve parent es ip w;
  Ret (r, match r with Some _ => take SIZ <$> last es | None => None end, w).

Lemma namex_loop_spec k parent path name ip w :
  length name = SIZ -> 0 ∉ path -> (length path <= k)%nat ->
  name_view (elems path) (Fs.namex_loop pid k parent path name ip w) = resolve_view parent (elems path) ip w.
Proof.
  revert path name ip w. induction k as [|k IH]; intros path name ip w Hn H0 Hk; cbn [Fs.namex_loop];
    pose proof (skipelem_spec path name) as Hs; unfold resolve_view; destruct (elems path) as [|e es] eqn:Ee.
  1, 3: rewrite Hs; unfold name_view; cbn [resolve]; destruct parent; [rewrite !bind_assoc; by apply bind_ext|done].
  - destruct Hs as (rest & _ & _ & Hl & _). lia.
  - destruct Hs as (rest & -> & Ees & Hl & Hnil & Hin & Hin'). cbn [resolve]. unfold name_view. rewrite !bind_assoc.
    assert (H0e : 0 ∉ e) by (intros Hx; by apply H0, Hin).
    apply bind_ext. intros w1. destruct (negb (i_type (ino w1 ip) =? T_DIR)); [rewrite !bind_assoc; by apply bind_ext|].
    assert (Eb : (match rest with [] => true | _ => false end) = negb (bool_decide (es <> []))).
    { destruct rest; [rewrite (proj1 Hnil eq_refl); done|]. rewrite bool_decide_eq_true_2; [done|]. intros E'. by apply Hnil in E'. }
    rewrite Eb. destruct (parent && negb (bool_decide (es <> []))) eqn:Ep.
    { rewrite !bind_assoc. apply bind_ext. intros w2. cbn [mbind outcome_bind].
      apply andb_true_iff in Ep as [_ Ep]. apply negb_true_iff, bool_decide_eq_false, dec_stable in Ep. subst es.
      rewrite Ep, cstr_put_name by done. done. }
    rewrite <- (dirlookup_cstr ip (put_name name e)), cstr_put_name by done. rewrite !bind_assoc. apply bind_ext.
    intros [[[next off]|] w2]; rewrite !bind_assoc; [|by apply bind_ext]. apply bind_ext. intros w3.
    specialize (IH rest (put_name name e) next w3). rewrite Ees in IH. unfold name_view, resolve_view in IH.
    rewrite length_put_name in IH. specialize (IH Hn ltac:(intros Hx; by apply H0, Hin') ltac:(lia)).
    destruct es as [|e2 es].
    + rewrite (proj2 Hnil eq_refl). destruct parent; [done|]. destruct k; cbn [Fs.namex_loop Fs.skipelem Fs.skip_slashes resolve mbind outcome_bind]; rewrite cstr_put_name by done; done.
    + rewrite bool_decide_eq_false_2 by done. rewrite bool_decide_eq_false_2 in IH by done. exact IH.
Qed.

(** Where the walk starts. *)
Definition start_dir (cwd : Z) (path : list Z) (w : fsys T) : outcome (Z * fsys T) :=
  if bool_decide (head path = Some SLASH) then Fs.iget ROOTDEV ROOTINO w else Ret (cwd, Fs.idup cwd w).

Lemma namex_spec cwd path parent name w : length name = SIZ -> 0 ∉ path ->
  name_view (elems path) (Fs.namex pid cwd path parent name w)
  = ('(ip, w) ← start_dir cwd path w; resolve_view parent (elems path) ip w).
Proof.
  intros Hn H0. unfold Fs.namex, name_view. rewrite bind_assoc.
  assert (Es : (match path with c :: _ => if c =? SLASH then Fs.iget ROOTDEV ROOTINO w else Ret (cwd, Fs.idup cwd w)
                | [] => Ret (cwd, Fs.idup cwd w) end) = start_dir cwd path w).
  { unfold start_dir. destruct path as [|c p]; [done|]. simpl. destruct (Z.eqb_spec c SLASH) as [->|Hne].
    - by rewrite bool_decide_eq_true_2.
    - by rewrite bool_decide_eq_false_2 by congruence. }
  rewrite Es. apply bind_ext. intros [ip w1]. by apply namex_loop_spec.
Qed.

(** (C15) A path name means its elements.  [namei] looks up the parts of the
    path between the slashes, without the empty ones and cut to [DIRSIZ] bytes,
    one after the other from the root directory (for a path that starts with a
    slash) or the current directory; [nameiparent] does so for all but the last
    and returns that one in [name], and fails on a path without elements.  The
    two are equal as computations: same result, same state, same panics. *)
Theorem path_resolution cwd path name w : length name = SIZ -> 0 ∉ path ->
  Fs.namei pid cwd path w = ('(ip, w) ← start_dir cwd path w; resolve false (elems path) ip w)
  /\ name_view (elems path) (Fs.nameiparent pid cwd path name w)
     = ('(ip, w) ← start_dir cwd path w; resolve_view true (elems path) ip w).
Proof.
  intros Hn H0. split; [|by apply namex_spec].
  assert (E : Fs.namei pid cwd path w
    = ('(ip, _, w) ← name_view (elems path) (Fs.namex pid cwd path false Fs.name0 w); Ret (ip, w))).
  { unfold Fs.namei, name_view. rewrite bind_assoc. by apply bind_ext; intros [[ip n] w1]. }
  rewrite E, namex_spec, bind_assoc by done. apply bind_ext. intros [ip w1]. unfold resolve_view. rewrite bind_assoc.
  destruct (resolve false (elems path) ip w1) as [[r w2]| | |]; done.
Qed.

End Walk.

(** The examples of the comment before [skipelem]. *)
Example elems_abb : elems [97; 47; 98; 98; 47; 99] = [[97]; [98; 98]; [99]].
Proof. reflexivity. Qed.
Example elems_slashes : elems [47; 47; 47; 97; 47; 47; 98; 98] = [[97]; [98; 98]] /\ elems [47; 47; 47; 47] = [].
Proof. split; reflexivity. Qed.

Lemma path_resolution_witness :
  Fs.namei (BIO := kernel_block_io) 1 0 [47; 97; 47; 47; 98] demo_sys
  = ('(ip, w) ← start_dir 0 [47; 97; 47; 47; 98] demo_sys; resolve 1 false [[97]; [98]] ip w).
Proof.
  apply (path_resolution (BIO := kernel_block_io) 1 0 [47; 97; 47; 47; 98] Fs.name0 demo_sys).
  - reflexivity.
  - rewrite !not_elem_of_cons. repeat split; try congruence. by apply not_elem_of_nil.
Defined.

End FsPath.
