(* ===== verification/FsDir.v ===== *)
(** * Directories

    A directory is a file of 16-byte entries.  [dirlookup] finds the first
    entry in use with the given name, [dirlink] adds one in the first free
    place; afterwards the name is found and every other name is found as
    before. *)

From S2P Require Import Prelude Riscv ProcDefs UserMem Block Sleeplock Bio BioSpec Log LogSpec LogTxn BlockIO BlockTx.
From S2P Require Import Fs FsBlocks FsInode FsData FsWrite FsTxn FsSpec FsTable FsPath.
From stdpp Require Import base list numbers gmap strings sets.
From Stdlib Require Import ZArith Lia.

#[local] Open Scope Z_scope.

Import Block KernelTx FsBlocks FsInode FsData FsWrite FsTxn FsSpec FsTable FsPath.

Module FsDir.

(** ** The first index with a property *)

Fixpoint first (f : Z -> bool) (i : Z) (k : nat) : option Z :=
  match k with
  | O => None
  | S k => if f i then Some i else first f (i + 1) k
  end.

Lemma first_spec f i k : match first f i k with
  | Some j => i <= j < i + Z.of_nat k /\ f j = true /\ forall x, i <= x < j -> f x = false
  | None => forall x, i <= x < i + Z.of_nat k -> f x = false
  end.
Proof.
  revert i. induction k as [|k IH]; intros i; simpl; [intros; lia|]. destruct (f i) eqn:E.
  - split; [lia|]. split; [done|]. intros; lia.
  - specialize (IH (i + 1)). destruct (first f (i + 1) k) as [j|].
    + destruct IH as (H1 & H2 & H3). split; [lia|]. split; [done|]. intros x Hx.
      destruct (decide (x = i)) as [->|]; [done|]. apply H3. lia.
    + intros x Hx. destruct (decide (x = i)) as [->|]; [done|]. apply IH. lia.
Qed.

Lemma first_some f i k j : i <= j < i + Z.of_nat k -> f j = true -> (forall x, i <= x < j -> f x = false) ->
  first f i k = Some j.
Proof.
  intros Hj Hf Hl. pose proof (first_spec f i k) as H. destruct (first f i k) as [j'|].
  - destruct H as (H1 & H2 & H3). destruct (Z.lt_trichotomy j j') as [?|[->|?]]; [|done|].
    + rewrite H3 in Hf by lia. done.
    + rewrite Hl in H2 by lia. done.
  - rewrite H in Hf by lia. done.
Qed.

Lemma first_none f i k : (forall x, i <= x < i + Z.of_nat k -> f x = false) -> first f i k = None.
Proof.
  intros Hl. pose proof (first_spec f i k) as H. destruct (first f i k) as [j|]; [|done].
  destruct H as (H1 & H2 & _). by rewrite Hl in H2 by lia.
Qed.

(** ** Names *)

Lemma strncmp_zero p q n : Fs.strncmp p q n = 0 <-> cstr n p = cstr n q.
Proof.
  revert p q. induction n as [|n IH]; intros p q; [by destruct p, q|].
  destruct p as [|c p], q as [|d q]; simpl.
  - done.
  - destruct (Z.eqb_spec d 0) as [->|Hd]; [done|]. split; [lia|done].
  - destruct (Z.eqb_spec c 0) as [->|Hc]; [done|]. rewrite (proj2 (nz_true c) Hc). simpl. split; [lia|done].
  - destruct (Z.eqb_spec c 0) as [->|Hc].
    + simpl. destruct (Z.eqb_spec d 0) as [->|Hd]; [done|]. split; [lia|done].
    + rewrite (proj2 (nz_true c) Hc). simpl. destruct (Z.eqb_spec c d) as [->|Hne].
      * rewrite IH, (proj2 (Z.eqb_neq _ _) Hc). split; [by intros ->|by intros [= ->]].
      * destruct (Z.eqb_spec d 0) as [->|Hd]; [split; [lia|done]|]. split; [lia|]. intros [=]. lia.
Qed.

Lemma length_strncpy t n : length (Fs.strncpy t n) = n.
Proof. revert t. induction n as [|n IH]; intros t; [done|]. cbn [Fs.strncpy]. case_if; [simpl; by rewrite IH|apply length_replicate]. Qed.

Lemma cstr_strncpy t n : cstr n (Fs.strncpy t n) = cstr n t.
Proof.
  revert t. induction n as [|n IH]; intros t; [done|]. cbn [Fs.strncpy]. destruct t as [|c t]; [done|]. cbn [hd tl].
  destruct (nz c) eqn:Ec.
  - apply nz_true in Ec. cbn [cstr]. rewrite (proj2 (Z.eqb_neq _ _) Ec). by rewrite IH.
  - apply nz_false in Ec. subst c. done.
Qed.

Lemma strncpy_bytes t n : Forall is_byte t -> Forall is_byte (Fs.strncpy t n).
Proof.
  revert t. induction n as [|n IH]; intros t Ht; [constructor|]. cbn [Fs.strncpy].
  case_if; [|apply Forall_replicate; unfold is_byte; lia].
  destruct t as [|c t]; [done|]. apply Forall_cons in Ht as [Hc Ht]. constructor; [done|by apply IH].
Qed.

(** ** Entries *)

Definition dirent (V : Z -> list Z) (addrs : list Z) (i : Z) : list Z := file_bytes V addrs (DIRENT_SIZE * i) DIRENT_SIZE.

(** The entry is in use and has the given name. *)
Definition hits (name de : list Z) : bool :=
  negb (Fs.de_inum de =? 0) && bool_decide (cstr SIZ name = cstr SIZ (Fs.de_name de)).

(** The number of entries, and the first one with the given name. *)
Definition nents (x : inode) : nat := Z.to_nat (i_size x / DIRENT_SIZE).
Definition dir_find (V : Z -> list Z) (x : inode) (name : list Z) : option Z :=
  first (fun i => hits name (dirent V (i_addrs x) i)) 0 (nents x).

(** The entry [dirlink] writes. *)
Definition new_dirent (name : list Z) (inum : Z) : list Z :=
  put16 (put_bytes Fs.dirent0 2 (Fs.strncpy name (Z.to_nat DIRSIZ))) 0 inum.

Lemma new_dirent_eq name inum : new_dirent name inum = le_bytes 2 (u16 inum) ++ Fs.strncpy name SIZ.
Proof.
  unfold new_dirent, put16, put_le, Fs.dirent0. fold SIZ. change (Z.to_nat DIRENT_SIZE) with 16%nat.
  pose proof (length_strncpy name SIZ) as Hl. set (l := Fs.strncpy name SIZ) in *. clearbody l.
  assert (E : put_bytes (replicate 16 0) 2 l = [0; 0] ++ l).
  { unfold put_bytes. apply list_eq. intros i. change (Z.to_nat 2) with 2%nat. change SIZ with 14%nat in Hl.
    destruct (decide (i < 2)%nat).
    - rewrite list_lookup_inserts_lt by lia. rewrite lookup_app_l by (simpl; lia). by destruct i as [|[|i]]; [done..|lia].
    - rewrite lookup_app_r by (simpl; lia). destruct (decide (i < 16)%nat).
      + by rewrite list_lookup_inserts by (rewrite ?length_replicate; lia).
      + rewrite list_lookup_inserts_ge by lia. rewrite !lookup_ge_None_2 by (simpl; rewrite ?length_replicate; lia). done. }
  rewrite E. done.
Qed.

Lemma new_dirent_spec name inum : 0 < inum < 2 ^ 16 -> Forall is_byte name ->
  length (new_dirent name inum) = Z.to_nat DIRENT_SIZE /\ Forall is_byte (new_dirent name inum)
  /\ Fs.de_inum (new_dirent name inum) = inum /\ cstr SIZ (Fs.de_name (new_dirent name inum)) = cstr SIZ name.
Proof.
  intros Hi Hb. rewrite new_dirent_eq. split; [rewrite length_app, length_le_bytes, length_strncpy; done|].
  split; [apply Forall_app; split; [apply le_bytes_ok|by apply strncpy_bytes]|]. split.
  - unfold Fs.de_inum, get_u16, get_le. rewrite drop_0, take_app_length' by by rewrite length_le_bytes.
    rewrite le_value_bytes; [|rewrite u16_small by lia; change (256 ^ Z.of_nat 2) with (2 ^ 16); lia]. apply u16_small. lia.
  - unfold Fs.de_name. rewrite drop_app_length' by by rewrite length_le_bytes. apply cstr_strncpy.
Qed.

Section Dir.
Context {T : Type} `{BIO : BlockIO T} `{BTX : !BlockTx T}.
Context (pid : Z) (c : tx_ctx) (sb : superblock) (dstart dp : Z).

Abbreviation in_op := (in_op pid c sb dstart dp).

(** The directory [dp] is open for an operation: its size is a whole number of
    entries and all its blocks are there. *)
Record dir_op (w : fsys T) (V : Z -> list Z) (B : gset Z) : Prop := MkDirOp {
  do_op : in_op w V B;
  do_type : i_type (ino w dp) = T_DIR;
  do_dense : dense V (ino w dp);
  do_size : i_size (ino w dp) = DIRENT_SIZE * Z.of_nat (nents (ino w dp));
  do_max : i_size (ino w dp) <= MAXFILE * BSIZE - DIRENT_SIZE
}.

Lemma dir_op_blk w V B t : dir_op w V B -> in_op (set_blk t w) V B -> dir_op (set_blk t w) V B.
Proof. intros [A1 A2 A3 A4 A5] O. by split. Qed.

Lemma put_bytes_all d l : length l = length d -> put_bytes d 0 l = l.
Proof. intros Hl. rewrite put_bytes_0 by lia. rewrite Hl, drop_all. apply app_nil_r. Qed.

Lemma read_dirent_spec w V B i msg : dir_op w V B -> 0 <= i < Z.of_nat (nents (ino w dp)) ->
  exists t, Fs.read_dirent pid dp (DIRENT_SIZE * i) msg w = Ret (dirent V (i_addrs (ino w dp)) i, set_blk t w)
    /\ dir_op (set_blk t w) V B.
Proof.
  intros D Hi. pose proof D as [O Ht Hd Hs Hm]. unfold Fs.read_dirent. pose proof (size_lt_2_31 (i_size (ino w dp)) ltac:(unfold DIRENT_SIZE in *; lia)) as H31.
  assert (El : read_len (ino w dp) (DIRENT_SIZE * i) DIRENT_SIZE = DIRENT_SIZE).
  { unfold read_len. rewrite Hs in *. unfold DIRENT_SIZE in *. rewrite u32_small by lia.
    rewrite !(proj2 (Z.ltb_ge _ _)) by lia. simpl. lia. }
  destruct (readi_spec pid c sb dstart dp w V B 0 0 (fun bs m => m = (tt, put_bytes Fs.dirent0 0 bs)) (DIRENT_SIZE * i)
    DIRENT_SIZE (tt, Fs.dirent0) O Hd) as (t & m' & E & O' & ->).
  { unfold DIRENT_SIZE in *. lia. } { unfold DIRENT_SIZE in *. lia. } { unfold DIRENT_SIZE. lia. } { lia. }
  { apply buffer_dest; rewrite El; [done|]. unfold DIRENT_SIZE. lia. } { done. }
  rewrite El in E. rewrite E. cbn [mbind outcome_bind]. rewrite Z.eqb_refl. exists t. split; [|by apply dir_op_blk].
  cbn [snd]. rewrite put_bytes_all; [done|]. by rewrite length_file_bytes.
Qed.

Lemma namecmp_hits name de : Fs.de_inum de <> 0 -> (Fs.namecmp name (Fs.de_name de) =? 0) = hits name de.
Proof.
  intros Hn. unfold hits, Fs.namecmp. fold SIZ. rewrite (proj2 (Z.eqb_neq _ _) Hn). cbn [negb andb].
  destruct (Z.eqb_spec (Fs.strncmp name (Fs.de_name de) SIZ) 0) as [E|E].
  - apply strncmp_zero in E. by rewrite bool_decide_eq_true_2.
  - rewrite bool_decide_eq_false_2; [done|]. by rewrite <- strncmp_zero.
Qed.

Lemma dirlookup_loop_spec k w V B name i :
  dir_op w V B -> 0 <= i -> (nents (ino w dp) <= Z.to_nat i + k)%nat ->
  exists t, dir_op (set_blk t w) V B
    /\ Fs.dirlookup_loop pid k dp name (DIRENT_SIZE * i) w
       = match first (fun i => hits name (dirent V (i_addrs (ino w dp)) i)) i (nents (ino w dp) - Z.to_nat i) with
         | Some j => '(ip, w) ← Fs.iget ROOTDEV (Fs.de_inum (dirent V (i_addrs (ino w dp)) j)) (set_blk t w);
                     Ret (Some (ip, DIRENT_SIZE * j), w)
         | None => Ret (None, set_blk t w)
         end.
Proof.
  revert w i. induction k as [|k IH]; intros w i D Hi Hk; cbn [Fs.dirlookup_loop]; rewrite (do_size _ _ _ D).
  all: destruct (Z.ltb_spec (DIRENT_SIZE * i) (DIRENT_SIZE * Z.of_nat (nents (ino w dp)))) as [Hlt|Hge];
    try unfold DIRENT_SIZE in Hlt; try unfold DIRENT_SIZE in Hge; try lia.
  1, 3: rewrite (proj2 (Nat.sub_0_le _ _)) by lia; exists (f_blk w); split; [by destruct w|by destruct w].
  destruct (read_dirent_spec w V B i "dirlookup read" D ltac:(lia)) as (t1 & E1 & D1). rewrite E1. cbn [mbind outcome_bind].
  replace (nents (ino w dp) - Z.to_nat i)%nat with (S (nents (ino w dp) - Z.to_nat (i + 1))) by lia. cbn [first].
  set (de := dirent V (i_addrs (ino w dp)) i) in *.
  pose proof (size_lt_2_31 (i_size (ino w dp)) ltac:(pose proof (do_max _ _ _ D); unfold DIRENT_SIZE in *; lia)) as H31.
  pose proof (do_size _ _ _ D) as Hsz. unfold DIRENT_SIZE in Hsz.
  assert (Eo : u32 (DIRENT_SIZE * i + DIRENT_SIZE) = DIRENT_SIZE * (i + 1)).
  { rewrite u32_small by (unfold DIRENT_SIZE; lia). lia. }
  destruct (IH (set_blk t1 w) (i + 1) D1 ltac:(lia)) as (t2 & D2 & E2); [change (ino (set_blk t1 w) dp) with (ino w dp); lia|].
  change (ino (set_blk t1 w) dp) with (ino w dp) in E2. rewrite Eo, E2. clear E2.
  change (ino (set_blk t1 w) dp) with (ino w dp). rewrite (op_dev _ _ _ _ _ _ _ _ (do_op _ _ _ D)).
  destruct (Z.eqb_spec (Fs.de_inum de) 0) as [E0|E0].
  - unfold hits. rewrite (proj2 (Z.eqb_eq _ _) E0). cbn [negb andb]. by exists t2.
  - rewrite namecmp_hits by done. destruct (hits name de); [by exists t1|by exists t2].
Qed.

Lemma dirlookup_spec w V B name : dir_op w V B ->
  exists t, dir_op (set_blk t w) V B
    /\ Fs.dirlookup pid dp name w
       = match dir_find V (ino w dp) name with
         | Some j => '(ip, w) ← Fs.iget ROOTDEV (Fs.de_inum (dirent V (i_addrs (ino w dp)) j)) (set_blk t w);
                     Ret (Some (ip, DIRENT_SIZE * j), w)
         | None => Ret (None, set_blk t w)
         end.
Proof.
  intros D. unfold Fs.dirlookup. rewrite (do_type _ _ _ D). cbn [negb]. simpl (T_DIR =? T_DIR). cbv iota.
  destruct (dirlookup_loop_spec (Z.to_nat (i_size (ino w dp) / DIRENT_SIZE + 1)) w V B name 0 D ltac:(lia)) as (t & D' & E).
  - unfold nents. lia.
  - exists t. split; [done|]. change (Z.to_nat 0) with 0%nat in E. rewrite Nat.sub_0_r in E. exact E.
Qed.

Lemma dirlink_loop_spec k w V B i :
  dir_op w V B -> 0 <= i -> (nents (ino w dp) <= Z.to_nat i + k)%nat -> i <= Z.of_nat (nents (ino w dp)) ->
  exists t, dir_op (set_blk t w) V B
    /\ Fs.dirlink_loop pid k dp (DIRENT_SIZE * i) w
       = Ret (DIRENT_SIZE * default (Z.of_nat (nents (ino w dp)))
                (first (fun i => Fs.de_inum (dirent V (i_addrs (ino w dp)) i) =? 0) i (nents (ino w dp) - Z.to_nat i)),
              set_blk t w).
Proof.
  revert w i. induction k as [|k IH]; intros w i D Hi Hk Hle; cbn [Fs.dirlink_loop]; rewrite (do_size _ _ _ D).
  all: destruct (Z.ltb_spec (DIRENT_SIZE * i) (DIRENT_SIZE * Z.of_nat (nents (ino w dp)))) as [Hlt|Hge];
    try unfold DIRENT_SIZE in Hlt; try unfold DIRENT_SIZE in Hge; try lia.
  1, 3: rewrite (proj2 (Nat.sub_0_le _ _)) by lia; exists (f_blk w); split; [by destruct w|];
    cbn [first default]; replace i with (Z.of_nat (nents (ino w dp))) by lia; by destruct w.
  destruct (read_dirent_spec w V B i "dirlink read" D ltac:(lia)) as (t1 & E1 & D1). rewrite E1. cbn [mbind outcome_bind].
  replace (nents (ino w dp) - Z.to_nat i)%nat with (S (nents (ino w dp) - Z.to_nat (i + 1))) by lia. cbn [first].
  case_if; [by exists t1|].
  destruct (IH (set_blk t1 w) (i + 1) D1 ltac:(lia)) as (t2 & D2 & E2); [change (ino (set_blk t1 w) dp) with (ino w dp); lia..|].
  exists t2. split; [done|]. replace (DIRENT_SIZE * i + DIRENT_SIZE) with (DIRENT_SIZE * (i + 1)) by lia. exact E2.
Qed.

(** The place [dirlink] puts a new entry: the first unused one, or the end. *)
Definition free_slot (V : Z -> list Z) (x : inode) : Z :=
  default (Z.of_nat (nents x)) (first (fun i => Fs.de_inum (dirent V (i_addrs x) i) =? 0) 0 (nents x)).

Lemma free_slot_range V x : 0 <= free_slot V x <= Z.of_nat (nents x).
Proof.
  unfold free_slot. pose proof (first_spec (fun i => Fs.de_inum (dirent V (i_addrs x) i) =? 0) 0 (nents x)) as H.
  destruct (first _ 0 (nents x)); simpl; lia.
Qed.

Lemma free_slot_unused V x name : free_slot V x < Z.of_nat (nents x) -> hits name (dirent V (i_addrs x) (free_slot V x)) = false.
Proof.
  unfold free_slot. pose proof (first_spec (fun i => Fs.de_inum (dirent V (i_addrs x) i) =? 0) 0 (nents x)) as H.
  destruct (first _ 0 (nents x)); simpl; [|lia]. intros _. unfold hits. by rewrite (proj1 (proj2 H)).
Qed.

(** Entry [j] has become [de]. *)
Record linked (V : Z -> list Z) (x : inode) (V' : Z -> list Z) (x' : inode) (j : Z) (de : list Z) : Prop := MkLinked {
  lk_nents : Z.of_nat (nents x') = Z.max (Z.of_nat (nents x)) (j + 1);
  lk_new : dirent V' (i_addrs x') j = de;
  lk_old : forall i, 0 <= i < Z.of_nat (nents x) -> i <> j -> dirent V' (i_addrs x') i = dirent V (i_addrs x) i
}.

(** What a new entry in the free slot does to the names. *)
Lemma linked_find V x V' x' name de n2 :
  linked V x V' x' (free_slot V x) de -> Fs.de_inum de <> 0 -> cstr SIZ (Fs.de_name de) = cstr SIZ name ->
  dir_find V x name = None ->
  dir_find V' x' n2 = if bool_decide (cstr SIZ n2 = cstr SIZ name) then Some (free_slot V x) else dir_find V x n2.
Proof.
  intros [L1 L2 L3] Hn Hc Hnone. pose proof (free_slot_range V x) as Hj. set (j := free_slot V x) in *.
  assert (Hde : hits n2 de = bool_decide (cstr SIZ n2 = cstr SIZ name)).
  { unfold hits. rewrite (proj2 (Z.eqb_neq _ _) Hn), Hc. done. }
  pose proof (first_spec (fun i => hits name (dirent V (i_addrs x) i)) 0 (nents x)) as H0. unfold dir_find in Hnone.
  rewrite Hnone in H0. destruct (bool_decide (cstr SIZ n2 = cstr SIZ name)) eqn:E.
  - apply bool_decide_eq_true in E. apply first_some; [lia|by rewrite L2|]. intros i Hi. rewrite L3 by lia.
    rewrite <- (H0 i) by lia. unfold hits. by rewrite E.
  - assert (Hsame : forall i, 0 <= i < Z.of_nat (nents x) -> hits n2 (dirent V' (i_addrs x') i) = hits n2 (dirent V (i_addrs x) i)).
    { intros i Hi. destruct (decide (i = j)) as [->|Hne]; [|by rewrite L3].
      rewrite L2, Hde. symmetry. apply free_slot_unused. unfold j in *. lia. }
    assert (Hend : forall i, Z.of_nat (nents x) <= i < Z.of_nat (nents x') -> hits n2 (dirent V' (i_addrs x') i) = false).
    { intros i Hi. assert (i = j) as -> by lia. by rewrite L2. }
    unfold dir_find. pose proof (first_spec (fun i => hits n2 (dirent V (i_addrs x) i)) 0 (nents x)) as H1.
    revert H1. destruct (first (fun i => hits n2 (dirent V (i_addrs x) i)) 0 (nents x)) as [i|]; intros H1.
    + destruct H1 as (A1 & A2 & A3). apply first_some; [lia|by rewrite Hsame by lia|]. intros i' Hi'. rewrite Hsame by lia. by apply A3.
    + apply first_none. intros i Hi. destruct (decide (i < Z.of_nat (nents x))); [rewrite Hsame by lia; apply H1; lia|apply Hend; lia].
Qed.

Lemma file_bytes_ext V a V' a' off n :
  (forall x, off <= x < off + n -> content V' a' x = content V a x) -> file_bytes V' a' off n = file_bytes V a off n.
Proof.
  intros H. unfold file_bytes. apply list_fmap_ext. intros i x Hx. apply lookup_seqZ in Hx as [-> Hi]. apply H. lia.
Qed.

(** Writing an entry makes it an entry. *)
Lemma written_linked w V B w' V' B' j de :
  written pid c sb dstart dp w V B (DIRENT_SIZE * j) de w' V' B' -> dir_op w V B -> length de = Z.to_nat DIRENT_SIZE ->
  0 <= j <= Z.of_nat (nents (ino w dp)) -> i_size (ino w dp) + 2 * DIRENT_SIZE <= MAXFILE * BSIZE ->
  linked V (ino w dp) V' (ino w' dp) j de /\ dir_op w' V' B'.
Proof.
  intros W [O Ht Hd Hs Hm] Hl Hj Hmax. pose proof (wn_self _ _ _ _ _ _ _ _ _ _ _ _ _ W) as Es. unfold grown in Es. rewrite Hl in Es.
  assert (Esz : i_size (ino w' dp) = DIRENT_SIZE * Z.max (Z.of_nat (nents (ino w dp))) (j + 1)).
  { rewrite Es. simpl i_size. rewrite Hs. unfold DIRENT_SIZE. lia. }
  assert (En : Z.of_nat (nents (ino w' dp)) = Z.max (Z.of_nat (nents (ino w dp))) (j + 1)).
  { unfold nents at 1. rewrite Esz, Z.mul_comm, Z.div_mul by done. lia. }
  assert (Hblk : forall x, 0 <= x < i_size (ino w dp) + DIRENT_SIZE -> 0 <= x / BSIZE < MAXFILE).
  { intros x Hx. unfold MAXFILE, NDIRECT, NINDIRECT_SEC, NINDIRECT, BSIZE, DIRENT_SIZE in *. dlia. }
  split; [split; [done| |]|].
  - unfold dirent. change DIRENT_SIZE with (Z.of_nat (Z.to_nat DIRENT_SIZE)) at 2. rewrite <- Hl. apply file_bytes_written.
    intros x Hx. rewrite (wn_content _ _ _ _ _ _ _ _ _ _ _ _ _ W); [by rewrite decide_True|].
    apply Hblk. rewrite Hl in Hx. unfold DIRENT_SIZE in *. lia.
  - intros i Hi Hne. unfold dirent. apply file_bytes_ext. intros x Hx.
    rewrite (wn_content _ _ _ _ _ _ _ _ _ _ _ _ _ W) by (apply Hblk; unfold DIRENT_SIZE in *; lia).
    rewrite decide_False; [done|]. rewrite Hl. unfold DIRENT_SIZE in *. lia.
  - split.
    + apply (wn_op _ _ _ _ _ _ _ _ _ _ _ _ _ W).
    + rewrite Es. exact Ht.
    + apply (written_dense _ _ _ _ _ _ _ _ _ _ _ _ _ W Hd); rewrite ?Hl; unfold DIRENT_SIZE in *; lia.
    + by rewrite En, Esz.
    + rewrite Esz. unfold DIRENT_SIZE in *. lia.
Qed.

Lemma dirlink_new w V B name inum :
  dir_op w V B -> Forall is_byte name -> 0 < inum < 2 ^ 16 -> 0 <= i_inum (ino w dp) < sb_ninodes sb ->
  i_size (ino w dp) + 2 * DIRENT_SIZE <= MAXFILE * BSIZE -> dir_find V (ino w dp) name = None ->
  let off := DIRENT_SIZE * free_slot V (ino w dp) in
  room B (wcost V (i_addrs (ino w dp)) (touched off DIRENT_SIZE) + 1) ->
  avail sb V (wblocks V (i_addrs (ino w dp)) (touched off DIRENT_SIZE)) ->
  exists t w' V' B', Fs.dirlink pid dp name inum w = Ret (0, w')
    /\ written pid c sb dstart dp (set_blk t w) V B off (new_dirent name inum) w' V' B'
    /\ linked V (ino w dp) V' (ino w' dp) (free_slot V (ino w dp)) (new_dirent name inum) /\ dir_op w' V' B'.
Proof.
  intros D Hb Hi Hin Hmax Hnone off Hroom Hav. destruct (new_dirent_spec name inum Hi Hb) as (Hl & Hby & _).
  pose proof (free_slot_range V (ino w dp)) as Hj. unfold Fs.dirlink.
  destruct (dirlookup_spec w V B name D) as (t1 & D1 & E1). rewrite E1, Hnone. cbn [mbind outcome_bind].
  destruct (dirlink_loop_spec (Z.to_nat (i_size (ino w dp) / DIRENT_SIZE + 1)) (set_blk t1 w) V B 0 D1 ltac:(lia))
    as (t2 & D2 & E2); [change (ino (set_blk t1 w) dp) with (ino w dp); unfold nents; lia|lia|].
  change (ino (set_blk t1 w) dp) with (ino w dp) in *. change (Z.to_nat 0) with 0%nat in E2. rewrite Nat.sub_0_r in E2.
  change (DIRENT_SIZE * 0) with 0 in E2. fold (free_slot V (ino w dp)) in E2. fold off in E2.
  rewrite E2, set_blk_set. cbn [mbind outcome_bind]. fold (new_dirent name inum).
  destruct (writei_spec pid c sb dstart dp (set_blk t2 w) V B 0 0 (new_dirent name inum) (fun m => m = (tt, new_dirent name inum))
    off (tt, new_dirent name inum)) as (w' & V' & B' & m' & E & W & _).
  { apply D2. }
  { apply buffer_source. rewrite Hl. unfold DIRENT_SIZE. lia. }
  { done. } { done. } { lia. }
  { change (ino (set_blk t2 w) dp) with (ino w dp). rewrite (do_size _ _ _ D). unfold off, DIRENT_SIZE in *. lia. }
  { rewrite Hl. pose proof (do_size _ _ _ D). unfold off, DIRENT_SIZE in *. lia. }
  { done. } { by rewrite Hl. } { by rewrite Hl. }
  rewrite Hl in E. change (Z.of_nat (Z.to_nat DIRENT_SIZE)) with DIRENT_SIZE in E. rewrite E. cbn [mbind outcome_bind].
  rewrite Z.eqb_refl. exists t2, w', V', B'. split; [done|]. split; [exact W|].
  exact (written_linked (set_blk t2 w) V B w' V' B' _ _ W D2 Hl Hj Hmax).
Qed.

End Dir.

(** (C16) Directories map names to inodes.  [dirlookup] returns the first entry
    in use whose name agrees with the given one on its first [DIRSIZ] bytes.
    [dirlink] of a name that is there drops the reference it got and returns
    -1; of a new name it returns 0 and fills the first unused entry, or a new
    one at the end: from then on the name is found there, with the inode number
    that was linked, and every other name is found where it was or not at all. *)
Theorem dirlink_lookup {T} `{BIO : BlockIO T} `{BTX : !BlockTx T} pid (c : tx_ctx) sb dstart dp (w : fsys T) V B name inum :
  dir_op pid c sb dstart dp w V B -> Forall is_byte name -> 0 < inum < 2 ^ 16 -> 0 <= i_inum (ino w dp) < sb_ninodes sb ->
  i_size (ino w dp) + 2 * DIRENT_SIZE <= MAXFILE * BSIZE ->
  let j := free_slot V (ino w dp) in
  room B (wcost V (i_addrs (ino w dp)) (touched (DIRENT_SIZE * j) DIRENT_SIZE) + 1) ->
  avail sb V (wblocks V (i_addrs (ino w dp)) (touched (DIRENT_SIZE * j) DIRENT_SIZE)) ->
  match dir_find V (ino w dp) name with
  | Some i => exists t, Fs.dirlink pid dp name inum w
      = ('(ip, w) ← Fs.iget ROOTDEV (Fs.de_inum (dirent V (i_addrs (ino w dp)) i)) (set_blk t w);
         w ← Fs.iput pid ip w; Ret (-1, w))
  | None => exists w' V' B' t, Fs.dirlink pid dp name inum w = Ret (0, w') /\ dir_op pid c sb dstart dp w' V' B'
      /\ (forall n2, dir_find V' (ino w' dp) n2
           = if bool_decide (cstr SIZ n2 = cstr SIZ name) then Some j else dir_find V (ino w dp) n2)
      /\ (forall i, 0 <= i < Z.of_nat (nents (ino w dp)) -> i <> j ->
           dirent V' (i_addrs (ino w' dp)) i = dirent V (i_addrs (ino w dp)) i)
      /\ Fs.dirlookup pid dp name w'
         = ('(ip, w) ← Fs.iget ROOTDEV inum (set_blk t w'); Ret (Some (ip, DIRENT_SIZE * j), w))
  end.
Proof.
  intros D Hb Hi Hin Hmax j Hroom Hav. destruct (dir_find V (ino w dp) name) as [i|] eqn:Ef.
  - destruct (dirlookup_spec pid c sb dstart dp w V B name D) as (t & D1 & E1). exists t. unfold Fs.dirlink.
    rewrite E1, Ef, bind_assoc. apply bind_ext. by intros [ip w1].
  - destruct (dirlink_new pid c sb dstart dp w V B name inum D Hb Hi Hin Hmax Ef Hroom Hav) as (t & w' & V' & B' & E & W & L & D').
    destruct (new_dirent_spec name inum Hi Hb) as (_ & _ & Hnum & Hname).
    assert (Hf : forall n2, dir_find V' (ino w' dp) n2 = if bool_decide (cstr SIZ n2 = cstr SIZ name) then Some j else dir_find V (ino w dp) n2).
    { intros n2. apply (linked_find _ _ _ _ name (new_dirent name inum)); [done|lia|done|done]. }
    destruct (dirlookup_spec pid c sb dstart dp w' V' B' name D') as (t2 & _ & E2).
    exists w', V', B', t2. split; [done|]. split; [done|]. split; [done|]. split; [apply (lk_old _ _ _ _ _ _ L)|].
    rewrite E2, Hf, bool_decide_eq_true_2 by done. unfold j. rewrite (lk_new _ _ _ _ _ _ L), Hnum. done.
Qed.

(** An empty directory on the disk of [FsSpec]. *)
Definition demo_dir : fsys (log * bst) := iset 0 (set_itype T_DIR) demo_op.

Lemma demo_dir_op : dir_op (BTX := kernel_block_tx) 1 demo_ctx demo_fs 46 0 demo_dir demo_view ∅.
Proof.
  split; [|reflexivity| |reflexivity|].
  - destruct demo_in_op as [A1 A2 A3 A4 A5]. by split.
  - intros n Hn. change (i_size (ino demo_dir 0)) with 0. unfold BSIZE. lia.
  - change (i_size (ino demo_dir 0)) with 0. unfold MAXFILE, NDIRECT, NINDIRECT_SEC, NINDIRECT, BSIZE, DIRENT_SIZE. lia.
Qed.

Lemma dirlink_lookup_witness : exists w', Fs.dirlink (BIO := kernel_block_io) 1 0 [97; 98] 7 demo_dir = Ret (0, w').
Proof.
  pose proof (dirlink_lookup (BTX := kernel_block_tx) 1 demo_ctx demo_fs 46 0 demo_dir demo_view ∅ [97; 98] 7 demo_dir_op) as H.
  destruct H as (w' & _ & _ & _ & E & _).
  - repeat constructor; unfold is_byte; lia.
  - lia.
  - change (i_inum (ino demo_dir 0)) with 1. simpl. lia.
  - change (i_size (ino demo_dir 0)) with 0. unfold MAXFILE, NDIRECT, NINDIRECT_SEC, NINDIRECT, BSIZE, DIRENT_SIZE. lia.
  - apply demo_room. vm_compute. split; congruence.
  - apply demo_avail. vm_compute. lia.
  - exists w'. exact E.
Defined.

End FsDir.
