(* ===== verification/World.v ===== *)
(** * The state of the kernel above the block layer, and its monad

    File descriptors, system calls, program loading and processes work on the
    whole kernel state: memory, the file system, the file and pipe tables, the
    console, and the process table.  Their code is written in the state and
    error monad [K], whose outcomes are those of [Prelude].

    A call that goes to sleep has the outcome [Blocked]; the resumption of a
    sleeping pipe or console operation is modelled with that component. *)

From S2P Require Import Prelude Riscv KString Kalloc ProcDefs Vm UserMem Pipe Uart Console Block.
From S2P Require Import Sleeplock Bio Log BlockIO Fs.
From stdpp Require Import base list numbers gmap strings.
From Stdlib Require Import ZArith Lia.

#[local] Open Scope Z_scope.

(** The [enum] of [struct file]. *)
Inductive fdtype : Type :=
| FD_NONE
| FD_PIPE
| FD_INODE
| FD_DEVICE.

#[global] Instance fdtype_eq_dec : EqDecision fdtype.
Proof. solve_decision. Defined.

(** [struct file]; [fl_pipe] is the page of the pipe, [fl_ip] the index of the
    inode. *)
Record file : Type := MkFile {
  fl_type : fdtype;
  fl_ref : Z;
  fl_readable : Z;
  fl_writable : Z;
  fl_pipe : Z;
  fl_ip : Z;
  fl_off : Z;
  fl_major : Z
}.

Definition file0 : file := MkFile FD_NONE 0 0 0 0 0 0 0.

Definition set_fl_ref (v : Z) (f : file) : file :=
  MkFile (fl_type f) v (fl_readable f) (fl_writable f) (fl_pipe f) (fl_ip f) (fl_off f) (fl_major f).
Definition set_fl_type (v : fdtype) (f : file) : file :=
  MkFile v (fl_ref f) (fl_readable f) (fl_writable f) (fl_pipe f) (fl_ip f) (fl_off f) (fl_major f).
Definition set_fl_off (v : Z) (f : file) : file :=
  MkFile (fl_type f) (fl_ref f) (fl_readable f) (fl_writable f) (fl_pipe f) (fl_ip f) v (fl_major f).

(** The kernel; [w_cur] is the index of the process running on this CPU. *)
Record world (T D : Type) : Type := MkWorld {
  w_k : kst;
  w_fs : fsys T;
  w_file : gmap Z file;
  w_pipe : gmap Z pipe;
  w_cons : cdev D;
  w_proc : gmap Z proc;
  w_cur : Z;
  w_initproc : Z;
  w_nextpid : Z;
  w_ticks : Z
}.
Arguments MkWorld {T D} _ _ _ _ _ _ _ _ _ _.
Arguments w_k {T D} _.
Arguments w_fs {T D} _.
Arguments w_file {T D} _.
Arguments w_pipe {T D} _.
Arguments w_cons {T D} _.
Arguments w_proc {T D} _.
Arguments w_cur {T D} _.
Arguments w_initproc {T D} _.
Arguments w_nextpid {T D} _.
Arguments w_ticks {T D} _.

(** ** The monad *)

Definition K (W A : Type) : Type := W -> outcome (A * W).

#[global] Instance K_ret W : MRet (K W) := fun A a w => Ret (a, w).
#[global] Instance K_bind W : MBind (K W) := fun A B f m w =>
  match m w with
  | Ret (a, w') => f a w'
  | Panic msg => Panic msg
  | Blocked why => Blocked why
  | Fuel => Fuel
  end.

Definition panic {W A : Type} (msg : string) : K W A := fun _ => Panic msg.
(** The loop bound of the model is exhausted. *)
Definition out_of_fuel {W A : Type} : K W A := fun _ => Fuel.
Definition blocked {W A : Type} (why : string) : K W A := fun _ => Blocked why.
Definition gets {W A : Type} (f : W -> A) : K W A := fun w => Ret (f w, w).
Definition modify {W : Type} (f : W -> W) : K W unit := fun w => Ret (tt, f w).

(** [if (c) m;] *)
Definition when {W : Type} (c : bool) (m : K W unit) : K W unit :=
  if c then m else mret tt.

(** The C string at the start of a buffer. *)
Fixpoint c_str (l : list Z) : list Z :=
  match l with
  | [] => []
  | c :: l => if c =? 0 then [] else c :: c_str l
  end.

(** A result regrouped so that the state comes last. *)
Definition outcome_swap {A S B : Type} (o : outcome (A * S * B)) : outcome ((A * B) * S) :=
  '(a, s, b) ← o; Ret ((a, b), s).

Section World.
Context {T D : Type}.
Abbreviation W := (world T D).
Abbreviation M := (K (world T D)).

Definition set_k (v : kst) (w : W) : W :=
  MkWorld v (w_fs w) (w_file w) (w_pipe w) (w_cons w) (w_proc w) (w_cur w) (w_initproc w) (w_nextpid w) (w_ticks w).
Definition set_fs (v : fsys T) (w : W) : W :=
  MkWorld (w_k w) v (w_file w) (w_pipe w) (w_cons w) (w_proc w) (w_cur w) (w_initproc w) (w_nextpid w) (w_ticks w).
Definition set_file (v : gmap Z file) (w : W) : W :=
  MkWorld (w_k w) (w_fs w) v (w_pipe w) (w_cons w) (w_proc w) (w_cur w) (w_initproc w) (w_nextpid w) (w_ticks w).
Definition set_pipe (v : gmap Z pipe) (w : W) : W :=
  MkWorld (w_k w) (w_fs w) (w_file w) v (w_cons w) (w_proc w) (w_cur w) (w_initproc w) (w_nextpid w) (w_ticks w).
Definition set_cons (v : cdev D) (w : W) : W :=
  MkWorld (w_k w) (w_fs w) (w_file w) (w_pipe w) v (w_proc w) (w_cur w) (w_initproc w) (w_nextpid w) (w_ticks w).
Definition set_procs (v : gmap Z proc) (w : W) : W :=
  MkWorld (w_k w) (w_fs w) (w_file w) (w_pipe w) (w_cons w) v (w_cur w) (w_initproc w) (w_nextpid w) (w_ticks w).
Definition set_nextpid (v : Z) (w : W) : W :=
  MkWorld (w_k w) (w_fs w) (w_file w) (w_pipe w) (w_cons w) (w_proc w) (w_cur w) (w_initproc w) v (w_ticks w).
Definition set_initproc (v : Z) (w : W) : W :=
  MkWorld (w_k w) (w_fs w) (w_file w) (w_pipe w) (w_cons w) (w_proc w) (w_cur w) v (w_nextpid w) (w_ticks w).

(** Entries of the static tables. *)
Definition file_at (w : W) (f : Z) : file := default file0 (w_file w !! f).
Definition proc_at (w : W) (i : Z) : proc := default proc0 (w_proc w !! i).
Definition pipe_at (w : W) (pi : Z) : pipe := default (Pipe.pipe_init []) (w_pipe w !! pi).

Definition get_file (f : Z) : M file := gets (fun w => file_at w f).
Definition get_proc (i : Z) : M proc := gets (fun w => proc_at w i).
Definition upd_file (f : Z) (g : file -> file) : M unit :=
  modify (fun w => set_file (<[f := g (file_at w f)]> (w_file w)) w).
Definition upd_proc (i : Z) (g : proc -> proc) : M unit :=
  modify (fun w => set_procs (<[i := g (proc_at w i)]> (w_proc w)) w).

(** [myproc()], and an assignment to one of its fields. *)
Definition myproc : M proc := gets (fun w => proc_at w (w_cur w)).
Definition upd_cur (g : proc -> proc) : M unit :=
  i ← gets w_cur; upd_proc i g.

(** Code of the memory, file-system and block layers. *)
Definition in_k {A : Type} (f : kst -> outcome (A * kst)) : M A := fun w =>
  '(a, s) ← f (w_k w); Ret (a, set_k s w).
Definition in_k_ (f : kst -> outcome kst) : M unit := fun w =>
  s ← f (w_k w); Ret (tt, set_k s w).
Definition in_fs {A : Type} (f : fsys T -> outcome (A * fsys T)) : M A := fun w =>
  '(a, s) ← f (w_fs w); Ret (a, set_fs s w).
Definition in_fs_ (f : fsys T -> outcome (fsys T)) : M unit := fun w =>
  s ← f (w_fs w); Ret (tt, set_fs s w).

Definition inode_at (w : W) (ip : Z) : inode := ino (w_fs w) ip.
Definition get_inode (ip : Z) : M inode := gets (fun w => inode_at w ip).
Definition upd_inode (ip : Z) (g : inode -> inode) : M unit :=
  in_fs_ (fun s => Ret (iset ip g s)).

Context `{BlockIO T}.

Definition begin_op : M unit := in_fs_ (fun s => t ← blk_begin_op (f_blk s); Ret (set_blk t s)).
Definition end_op : M unit :=
  p ← myproc; in_fs_ (fun s => t ← blk_end_op (p_pid p) (f_blk s); Ret (set_blk t s)).

(** Inode operations of the running process. *)
Definition fs_ilock (ip : Z) : M unit := p ← myproc; in_fs_ (Fs.ilock (p_pid p) ip).
Definition fs_iunlock (ip : Z) : M unit := p ← myproc; in_fs_ (Fs.iunlock (p_pid p) ip).
Definition fs_iput (ip : Z) : M unit := p ← myproc; in_fs_ (Fs.iput (p_pid p) ip).
Definition fs_iunlockput (ip : Z) : M unit := p ← myproc; in_fs_ (Fs.iunlockput (p_pid p) ip).
Definition fs_iupdate (ip : Z) : M unit := p ← myproc; in_fs_ (Fs.iupdate (p_pid p) ip).
Definition cwd_index (p : proc) : Z := match p_cwd p with Some i => Z.of_nat i | None => 0 end.
Definition fs_namei (path : list Z) : M (option Z) :=
  p ← myproc; in_fs (Fs.namei (p_pid p) (cwd_index p) path).
Definition fs_nameiparent (path : list Z) : M (option (Z * list Z)) :=
  p ← myproc;
  '(ip, name) ← in_fs (fun s => Fs.nameiparent (p_pid p) (cwd_index p) path Fs.name0 s);
  mret (option_map (fun i : Z => (i, name)) ip).

(** [readi] and [writei] with a local buffer of the kernel, [buf]. *)
Definition readi_k (ip off n : Z) (buf : list Z) : M (Z * list Z) :=
  p ← myproc;
  '(r, m) ← in_fs (fun s => outcome_swap (Fs.readi (p_pid p) ip 0 0 off n s (tt, buf)));
  mret (r, m.2).
Definition writei_k (ip off n : Z) (buf : list Z) : M Z :=
  p ← myproc;
  '(r, _) ← in_fs (fun s => outcome_swap (Fs.writei (p_pid p) ip 0 0 off n s (tt, buf)));
  mret r.

Context `{Layout}.

(** [readi] and [writei] with the memory of the running process. *)
Definition readi_u (ip addr off n : Z) : M Z := fun w =>
  let p := proc_at w (w_cur w) in
  '(r, s, m) ← Fs.readi (UM := vm_user_mem p) (p_pid p) ip 1 addr off n (w_fs w) (w_k w, []);
  Ret (r, set_fs s (set_k m.1 w)).
Definition writei_u (ip addr off n : Z) : M Z := fun w =>
  let p := proc_at w (w_cur w) in
  '(r, s, m) ← Fs.writei (UM := vm_user_mem p) (p_pid p) ip 1 addr off n (w_fs w) (w_k w, []);
  Ret (r, set_fs s (set_k m.1 w)).

End World.
