(* ===== verification/File.v ===== *)
(** * kernel/file.c and pipealloc: open files

    The table of [struct file] (indexed by 0 .. NFILE - 1; the null pointer is
    [None]) and the operations on open files, which dispatch to pipes, devices
    and inodes.  Pipes are keyed by the physical page that holds them. *)

From S2P Require Import Prelude Riscv KString Kalloc ProcDefs Vm UserMem Pipe Uart Console Block.
From S2P Require Import Sleeplock Bio Log BlockIO Fs World.
From stdpp Require Import base list numbers gmap strings.
From Stdlib Require Import ZArith Lia.

#[local] Open Scope Z_scope.

Module File.

Section Ops.
Context {T D : Type} `{BIO : BlockIO T} `{UD : UartDev D} `{L : Layout}.

Abbreviation M := (K (world T D)).

(** ** The file table *)

(** The loop of [filealloc] from entry [f] on. *)
Fixpoint filealloc_scan (k : nat) (w : world T D) (f : Z) : option Z :=
  match k with
  | O => None
  | S k => if fl_ref (file_at w f) =? 0 then Some f else filealloc_scan k w (f + 1)
  end.

Definition filealloc : M (option Z) :=
  r ← gets (fun w => filealloc_scan (Z.to_nat NFILE) w 0);
  match r with
  | Some f => upd_file f (set_fl_ref 1);; mret (Some f)
  | None => mret None
  end.

Definition filedup (f : Z) : M unit :=
  x ← get_file f;
  if fl_ref x <? 1 then panic "filedup" else upd_file f (set_fl_ref (s32 (fl_ref x + 1))).

(** [pipeclose], with the release of the page of the pipe. *)
Definition pipe_close (pi writable : Z) : M unit :=
  '(freed, q) ← gets (fun w => Pipe.pipeclose writable (pipe_at w pi));
  if (freed : bool) then
    modify (fun w => set_pipe (delete pi (w_pipe w)) w);;
    in_k_ (fun s => Kalloc.kfree s pi)
  else modify (fun w => set_pipe (<[pi := q]> (w_pipe w)) w).

Definition fileclose (f : Z) : M unit :=
  x ← get_file f;
  if fl_ref x <? 1 then panic "fileclose" else
  upd_file f (set_fl_ref (s32 (fl_ref x - 1)));;
  if 0 <? s32 (fl_ref x - 1) then mret tt else
  upd_file f (fun x => set_fl_type FD_NONE (set_fl_ref 0 x));;
  match fl_type x with
  | FD_PIPE => pipe_close (fl_pipe x) (fl_writable x)
  | FD_INODE | FD_DEVICE => begin_op;; fs_iput (fl_ip x);; end_op
  | FD_NONE => mret tt
  end.

(** ** Pipes *)

(** Offset of [data] in [struct pipe], after the spinlock. *)
Definition PIPE_data : Z := 24.

Definition pipe_bad (f0 f1 : option Z) : M (option (Z * Z)) :=
  match f0 with Some f => fileclose f | None => mret tt end;;
  match f1 with Some f => fileclose f | None => mret tt end;;
  mret None.

(** The two files, or [None] for the result -1. *)
Definition pipealloc : M (option (Z * Z)) :=
  f0 ← filealloc;
  match f0 with
  | None => pipe_bad None None
  | Some r =>
      f1 ← filealloc;
      match f1 with
      | None => pipe_bad (Some r) None
      | Some wr =>
          pi ← in_k Kalloc.kalloc;
          if pi =? 0 then pipe_bad (Some r) (Some wr) else
          modify (fun w => set_pipe (<[pi := Pipe.pipe_init
            (mem_get (k_mem (w_k w)) (pi + PIPE_data) Pipe.PIPESIZE)]> (w_pipe w)) w);;
          upd_file r (fun x => MkFile FD_PIPE (fl_ref x) 1 0 pi (fl_ip x) (fl_off x) (fl_major x));;
          upd_file wr (fun x => MkFile FD_PIPE (fl_ref x) 0 1 pi (fl_ip x) (fl_off x) (fl_major x));;
          mret (Some (r, wr))
      end
  end.

(** A run of a pipe or console operation that falls asleep blocks the call. *)
Definition finish (why : string) (r : io_res) : M Z :=
  match r with
  | IoDone v => mret v
  | IoSleep _ => blocked why
  end.

(** An operation of the pipe [pi] on the memory of the running process. *)
Definition in_pipe (pi : Z) (f : proc -> pipe -> kst -> outcome (io_res * pipe * kst)) : M io_res :=
  fun w =>
    '(r, q, s) ← f (proc_at w (w_cur w)) (pipe_at w pi) (w_k w);
    Ret (r, set_pipe (<[pi := q]> (w_pipe w)) (set_k s w)).

Definition pipe_read (pi addr n : Z) : M Z :=
  r ← in_pipe pi (fun p q s => Pipe.piperead (UM := vm_user_mem p) (p_killed p) addr n q s);
  finish "piperead" r.
Definition pipe_write (pi addr n : Z) : M Z :=
  r ← in_pipe pi (fun p q s => Pipe.pipewrite (UM := vm_user_mem p) (p_killed p) addr n 0 q s);
  finish "pipewrite" r.

(** ** Devices *)

Definition CONSOLE : Z := 1.

Definition console_read (addr n : Z) : M Z :=
  r ← (fun w =>
    let p := proc_at w (w_cur w) in
    '(r, c, s) ← Console.consoleread (UM := vm_user_mem p) (p_killed p) addr n n (w_cons w) (w_k w);
    Ret (r, set_cons c (set_k s w)));
  finish "consoleread" r.
Definition console_write (addr n : Z) : M Z := fun w =>
  let p := proc_at w (w_cur w) in
  '(r, c, s) ← Console.consolewrite (UM := vm_user_mem p) addr n (w_cons w) (w_k w);
  Ret (r, set_cons c (set_k s w)).

(** [devsw[major].read] and [.write]: [consoleinit] installs the console. *)
Definition devsw_read (major : Z) : option (Z -> Z -> M Z) :=
  if major =? CONSOLE then Some console_read else None.
Definition devsw_write (major : Z) : option (Z -> Z -> M Z) :=
  if major =? CONSOLE then Some console_write else None.

(** The function of a device, when the major number is in range and it has
    one. *)
Definition dev_call (table : Z -> option (Z -> Z -> M Z)) (major addr n : Z) : M Z :=
  if (major <? 0) || (NDEV <=? major) then mret (-1) else
  match table major with
  | Some f => f addr n
  | None => mret (-1)
  end.

(** ** Operations on open files *)

(** [struct stat] as bytes; its padding is 0. *)
Definition stat_bytes (st : stat) : list Z :=
  Block.le_bytes 4 (u32 (st_dev st)) ++ Block.le_bytes 4 (u32 (st_ino st))
  ++ Block.le_bytes 2 (u16 (st_type st)) ++ Block.le_bytes 2 (u16 (st_nlink st))
  ++ replicate 4 0 ++ Block.le_bytes 8 (u64 (st_size st)).

(** [copyout(p->pagetable, addr, bs, ...)]. *)
Definition copyout_u (addr : Z) (bs : list Z) : M Z :=
  p ← myproc; in_k (fun s => Vm.copyout p s (p_pagetable p) addr bs).

Definition filestat (f addr : Z) : M Z :=
  x ← get_file f;
  match fl_type x with
  | FD_INODE | FD_DEVICE =>
      fs_ilock (fl_ip x);;
      st ← gets (fun w => Fs.stati (fl_ip x) (w_fs w));
      fs_iunlock (fl_ip x);;
      r ← copyout_u addr (stat_bytes st);
      mret (if r <? 0 then -1 else 0)
  | _ => mret (-1)
  end.

Definition fileread (f addr n : Z) : M Z :=
  x ← get_file f;
  if fl_readable x =? 0 then mret (-1) else
  match fl_type x with
  | FD_PIPE => pipe_read (fl_pipe x) addr n
  | FD_DEVICE => dev_call devsw_read (fl_major x) addr n
  | FD_INODE =>
      fs_ilock (fl_ip x);;
      r ← readi_u (fl_ip x) addr (fl_off x) (u32 n);
      when (0 <? r) (upd_file f (set_fl_off (u32 (fl_off x + r))));;
      fs_iunlock (fl_ip x);;
      mret r
  | FD_NONE => panic "fileread"
  end.

(** The bytes one transaction of [filewrite] writes at most. *)
Definition MAXWRITE : Z := ((MAXOPBLOCKS - 1 - 1 - 2) / 2) * Block.BSIZE.

(** The loop of [filewrite] on an inode, from [i] on; the result is the final
    [i]. *)
Fixpoint filewrite_loop (k : nat) (f addr n i : Z) : M Z :=
  if i <? n then
    match k with
    | O => out_of_fuel
    | S k =>
        let n1 := Z.min (n - i) MAXWRITE in
        x ← get_file f;
        begin_op;;
        fs_ilock (fl_ip x);;
        r ← writei_u (fl_ip x) (u64 (addr + i)) (fl_off x) n1;
        when (0 <? r) (upd_file f (set_fl_off (u32 (fl_off x + r))));;
        fs_iunlock (fl_ip x);;
        end_op;;
        if negb (r =? n1) then mret i else filewrite_loop k f addr n (i + r)
    end
  else mret i.

Definition filewrite (f addr n : Z) : M Z :=
  x ← get_file f;
  if fl_writable x =? 0 then mret (-1) else
  match fl_type x with
  | FD_PIPE => pipe_write (fl_pipe x) addr n
  | FD_DEVICE => dev_call devsw_write (fl_major x) addr n
  | FD_INODE =>
      i ← filewrite_loop (Z.to_nat (n / MAXWRITE + 1)) f addr n 0;
      mret (if i =? n then n else -1)
  | FD_NONE => panic "filewrite"
  end.

End Ops.

End File.
