(* ===== verification/FileSpec.v ===== *)
(** * The table of open files

    [filealloc], [filedup] and [fileclose] count the references to open files:
    an entry is handed out only when nobody refers to it, and it is released by
    the last close. *)

From S2P Require Import Prelude Riscv KString Kalloc ProcDefs Vm UserMem Pipe Uart Console Block.
From S2P Require Import Sleeplock Bio Log BlockIO Fs World File FsSpec.
From stdpp Require Import base list numbers gmap strings.
From Stdlib Require Import ZArith Lia.

#[local] Open Scope Z_scope.

Module FileSpec.

Lemma K_bind_Ret {W A B} (m : K W A) (f : A -> K W B) w b w' :
  (m ≫= f) w = Ret (b, w') <-> exists a w1, m w = Ret (a, w1) /\ f a w1 = Ret (b, w').
Proof.
  unfold mbind, K_bind. destruct (m w) as [[a w1]| | |]; [|by split; [done|intros (? & ? & ? & _)]..].
  split; [by exists a, w1|]. by intros (a' & w1' & [= <- <-] & H).
Qed.

Section Table.
Context {T D : Type} `{BIO : BlockIO T} `{UD : UartDev D} `{L : Layout}.

Abbreviation W := (world T D).
Abbreviation M := (K (world T D)).

(** The computation leaves the file table alone. *)
Definition keeps_files {A} (m : M A) : Prop := forall w a w', m w = Ret (a, w') -> w_file w' = w_file w.

Lemma keeps_bind {A B} (m : M A) (f : A -> M B) :
  keeps_files m -> (forall a, keeps_files (f a)) -> keeps_files (m ≫= f).
Proof. intros Hm Hf w b w' (a & w1 & E1 & E2)%K_bind_Ret. rewrite (Hf _ _ _ _ E2). by eapply Hm. Qed.

Lemma keeps_ret {A} (a : A) : keeps_files (mret a).
Proof. by intros w a' w' [= <- <-]. Qed.
Lemma keeps_gets {A} (f : W -> A) : keeps_files (gets f).
Proof. by intros w a w' [= <- <-]. Qed.
Lemma keeps_modify (f : W -> W) : (forall w, w_file (f w) = w_file w) -> keeps_files (modify f).
Proof. intros Hf w a w' [= _ <-]. apply Hf. Qed.
Lemma keeps_in_k (f : kst -> outcome kst) : keeps_files (in_k_ f).
Proof. unfold in_k_. intros w a w' (s & _ & [= _ <-])%bind_Ret. done. Qed.
Lemma keeps_in_fs (f : fsys T -> outcome (fsys T)) : keeps_files (in_fs_ f).
Proof. unfold in_fs_. intros w a w' (s & _ & [= _ <-])%bind_Ret. done. Qed.

Lemma keeps_my {A} (f : proc -> M A) : (forall p, keeps_files (f p)) -> keeps_files (p ← myproc; f p).
Proof. intros H. apply keeps_bind; [apply keeps_gets|exact H]. Qed.

Lemma keeps_pipe_close pi wr : keeps_files (File.pipe_close pi wr).
Proof.
  unfold File.pipe_close. apply keeps_bind; [apply keeps_gets|]. intros [[] q].
  - apply keeps_bind; [by apply keeps_modify|]. intros _. apply keeps_in_k.
  - by apply keeps_modify.
Qed.

Lemma keeps_put ip : keeps_files (begin_op;; fs_iput ip;; end_op).
Proof.
  apply keeps_bind; [apply keeps_in_fs|]. intros _. apply keeps_bind; [apply keeps_my; intros p; apply keeps_in_fs|].
  intros _. apply keeps_my. intros p. apply keeps_in_fs.
Qed.

(** ** The operations *)

Definition fslot (f : Z) : Prop := 0 <= f < NFILE.

(** Entry [f] has become [x], nothing else has changed in the table. *)
Definition changed (w w' : W) (f : Z) (x : file) : Prop :=
  forall g, file_at w' g = if decide (g = f) then x else file_at w g.

Lemma upd_changed f g (w : W) a w' : upd_file f g w = Ret (a, w') -> changed w w' f (g (file_at w f)).
Proof.
  intros [= _ <-] h. unfold file_at. simpl. destruct (decide (h = f)) as [->|Hne]; [by rewrite lookup_insert_eq|].
  by rewrite lookup_insert_ne.
Qed.

Lemma scan_spec k (w : W) f : 0 <= f ->
  match File.filealloc_scan k w f with
  | Some g => f <= g < f + Z.of_nat k /\ fl_ref (file_at w g) = 0
  | None => forall g, f <= g < f + Z.of_nat k -> fl_ref (file_at w g) <> 0
  end.
Proof.
  revert f. induction k as [|k IH]; intros f Hf; cbn [File.filealloc_scan]; [intros; lia|].
  destruct (Z.eqb_spec (fl_ref (file_at w f)) 0) as [E|E]; [split; [lia|done]|].
  specialize (IH (f + 1) ltac:(lia)). destruct (File.filealloc_scan k w (f + 1)) as [g|].
  - split; [lia|]. apply IH.
  - intros g Hg. destruct (decide (g = f)) as [->|]; [done|]. apply IH. lia.
Qed.

(** [filealloc] always returns. *)
Lemma filealloc_spec (w : W) : exists r w', File.filealloc w = Ret (r, w') /\
  match r with
  | Some f => fslot f /\ fl_ref (file_at w f) = 0 /\ changed w w' f (set_fl_ref 1 (file_at w f))
  | None => w' = w /\ forall f, fslot f -> fl_ref (file_at w f) <> 0
  end.
Proof.
  pose proof (scan_spec (Z.to_nat NFILE) w 0 ltac:(lia)) as H. rewrite Z.add_0_l, Z2Nat.id in H by done.
  unfold File.filealloc, mbind, K_bind, gets. destruct (File.filealloc_scan _ w 0) as [f|].
  - destruct H as [Hf Hr]. eexists (Some f), _. split; [reflexivity|]. split; [done|]. split; [done|].
    by eapply (upd_changed f (set_fl_ref 1)).
  - exists None, w. done.
Qed.

Lemma filedup_spec f (w : W) : 0 < fl_ref (file_at w f) < 2 ^ 31 - 1 ->
  exists w', File.filedup f w = Ret (tt, w') /\ changed w w' f (set_fl_ref (fl_ref (file_at w f) + 1) (file_at w f)).
Proof.
  intros Hr. unfold File.filedup, get_file, mbind, K_bind, gets. rewrite (proj2 (Z.ltb_ge _ _)) by lia.
  rewrite s32_small by lia. eexists. split; [reflexivity|]. by eapply (upd_changed f).
Qed.

(** [fileclose] that returns has given one reference back. *)
Lemma fileclose_spec f (w w' : W) : 0 < fl_ref (file_at w f) < 2 ^ 31 -> File.fileclose f w = Ret (tt, w') ->
  exists x, changed w w' f x /\ fl_ref x = fl_ref (file_at w f) - 1 /\ (fl_ref x = 0 -> fl_type x = FD_NONE).
Proof.
  intros Hr. unfold File.fileclose. intros (x & w1 & E1 & H)%K_bind_Ret. injection E1 as <- <-.
  revert H. rewrite (proj2 (Z.ltb_ge (fl_ref (file_at w f)) 1)) by lia. rewrite s32_small by lia. intros (a & w2 & E2 & H)%K_bind_Ret.
  apply upd_changed in E2. revert H. destruct (Z.ltb_spec 0 (fl_ref (file_at w f) - 1)) as [Hlt|Hge].
  - intros [= <-]. eexists. split; [exact E2|]. split; [done|]. simpl. lia.
  - intros (a3 & w3 & E3 & H)%K_bind_Ret. apply upd_changed in E3.
    assert (Ek : w_file w' = w_file w3).
    { destruct (fl_type (file_at w f)); [by injection H as <-|by eapply keeps_pipe_close|by eapply keeps_put|by eapply keeps_put]. }
    exists (set_fl_type FD_NONE (set_fl_ref 0 (file_at w2 f))). split; [|split; [simpl; lia|done]].
    intros g. unfold file_at. rewrite Ek. fold (file_at w3 g). rewrite (E3 g), (E2 g). by destruct (decide (g = f)).
Qed.

(** All but the last close only give the reference back. *)
Lemma fileclose_shared f (w : W) : 1 < fl_ref (file_at w f) < 2 ^ 31 ->
  exists w', File.fileclose f w = Ret (tt, w') /\ changed w w' f (set_fl_ref (fl_ref (file_at w f) - 1) (file_at w f)).
Proof.
  intros Hr. unfold File.fileclose, get_file, mbind, K_bind, gets. rewrite (proj2 (Z.ltb_ge _ _)) by lia.
  rewrite s32_small by lia. unfold upd_file at 1, modify. rewrite (proj2 (Z.ltb_lt _ _)) by lia.
  eexists. split; [reflexivity|]. by eapply (upd_changed f).
Qed.

Lemma unreferenced_panics f (w : W) : fl_ref (file_at w f) < 1 ->
  File.filedup f w = Panic "filedup" /\ File.fileclose f w = Panic "fileclose".
Proof. intros Hr. unfold File.filedup, File.fileclose, get_file, mbind, K_bind, gets. by rewrite (proj2 (Z.ltb_lt _ _)) by lia. Qed.

End Table.

(** ** Reference counting *)

Section Count.
Context {T D : Type} `{BIO : BlockIO T} `{UD : UartDev D} `{L : Layout}.

Definition fbump (R : Z -> Z) (f k : Z) : Z -> Z := fun g => if decide (g = f) then R g + k else R g.

(** The tables the operations lead to, with the number of references handed out
    and not given back, fewer than 2^31 to a file at a time; any other operation
    may change the entries but not their counts. *)
Inductive opened : (Z -> Z) -> world T D -> Prop :=
| opened_empty w : (forall f, fl_ref (file_at w f) = 0) -> opened (fun _ => 0) w
| opened_alloc R w f w' : opened R w -> File.filealloc w = Ret (Some f, w') -> opened (fbump R f 1) w'
| opened_dup R w f w' : opened R w -> 0 < R f < 2 ^ 31 - 1 -> File.filedup f w = Ret (tt, w') -> opened (fbump R f 1) w'
| opened_close R w f w' : opened R w -> 0 < R f -> File.fileclose f w = Ret (tt, w') -> opened (fbump R f (-1)) w'
| opened_other R w w' : opened R w -> (forall f, fl_ref (file_at w' f) = fl_ref (file_at w f)) -> opened R w'.

Lemma opened_counts R w : opened R w -> forall f, fl_ref (file_at w f) = R f /\ 0 <= R f < 2 ^ 31.
Proof.
  induction 1 as [w H|R w f w' _ IH E|R w f w' _ IH Hr E|R w f w' _ IH Hr E|R w w' _ IH Hk]; intros g.
  - rewrite H. lia.
  - destruct (filealloc_spec w) as (r & w1 & E1 & Hs). rewrite E in E1. injection E1 as <- <-. destruct Hs as (_ & Hz & Hc).
    destruct (IH g). rewrite (Hc g). unfold fbump. destruct (decide (g = f)) as [->|]; [simpl; lia|lia].
  - destruct (IH f) as [Ef _]. destruct (filedup_spec f w ltac:(lia)) as (w1 & E1 & Hc). rewrite E in E1. injection E1 as <-.
    destruct (IH g). rewrite (Hc g). unfold fbump. destruct (decide (g = f)) as [->|]; [simpl; lia|lia].
  - destruct (IH f) as [Ef Hb]. destruct (fileclose_spec f w w' ltac:(lia) E) as (x & Hc & Hx & _).
    destruct (IH g). rewrite (Hc g). unfold fbump. destruct (decide (g = f)) as [->|]; [lia|lia].
  - rewrite Hk. apply IH.
Qed.

(** (C32) Open files are reference counted.  In every table the operations lead
    to, with counts of 32 bits and fewer than 2^31 references to a file at a
    time, the count of each entry is the number of references handed out by
    [filealloc] and [filedup] and not given back by [fileclose]; so
    [filealloc], which always returns, hands out only entries nobody refers to
    and fails only when every entry is referred to; [filedup] of a referenced
    file and [fileclose] of one with other references return, with one
    reference more or less and nothing else changed; and both panic on an
    entry nobody refers to. *)
Theorem file_refcounts R w : opened R w ->
  (forall f, fl_ref (file_at w f) = R f /\ 0 <= R f)
  /\ (exists r w', File.filealloc w = Ret (r, w')
       /\ match r with Some f => fslot f /\ R f = 0 | None => forall f, fslot f -> 0 < R f end)
  /\ (forall f, 0 < R f < 2 ^ 31 - 1 -> exists w', File.filedup f w = Ret (tt, w') /\ changed w w' f (set_fl_ref (R f + 1) (file_at w f)))
  /\ (forall f, 1 < R f -> exists w', File.fileclose f w = Ret (tt, w') /\ changed w w' f (set_fl_ref (R f - 1) (file_at w f)))
  /\ (forall f, R f = 0 -> File.filedup f w = Panic "filedup" /\ File.fileclose f w = Panic "fileclose").
Proof.
  intros H. pose proof (opened_counts R w H) as Hc. split; [intros f; destruct (Hc f); split; [done|lia]|]. split_and!.
  - destruct (filealloc_spec w) as (r & w' & E & Hs). exists r, w'. split; [exact E|]. destruct r as [f|].
    + destruct Hs as (Hf & Hz & _). split; [done|]. destruct (Hc f). lia.
    + destruct Hs as [_ Hs]. intros f Hf. destruct (Hc f). pose proof (Hs f Hf). lia.
  - intros f Hr. destruct (Hc f) as [Ef _]. rewrite <- Ef in *. by apply filedup_spec.
  - intros f Hr. destruct (Hc f) as [Ef Hb]. rewrite <- Ef in *. apply fileclose_shared. lia.
  - intros f Hr. destruct (Hc f) as [Ef Hb]. apply unreferenced_panics. lia.
Qed.

End Count.

(** ** A concrete table *)

Definition demo_world : world (log * bst) unit :=
  MkWorld Kalloc.demo_boot FsSpec.demo_sys ∅ ∅ Console.demo_cons ∅ 0 0 1 0.

Lemma file_refcounts_witness :
  exists w : world (log * bst) unit, opened (L := Kalloc.demo_layout) (fbump (fbump (fun _ => 0) 0 1) 0 1) w /\ fl_ref (file_at w 0) = 2.
Proof.
  assert (E : exists w0 : world (log * bst) unit, forall f, fl_ref (file_at w0 f) = 0) by (exists demo_world; intros f; reflexivity).
  destruct E as [w0 E0]. assert (H0 : opened (L := Kalloc.demo_layout) (fun _ => 0) w0) by by apply opened_empty.
  destruct (file_refcounts (L := Kalloc.demo_layout) _ _ H0) as (_ & (r & w1 & E1 & Hr) & _).
  destruct r as [f|]; [|pose proof (Hr 0 ltac:(unfold fslot, NFILE; lia)); lia].
  assert (f = 0) as ->.
  { revert E1. unfold File.filealloc, mbind, K_bind, gets. cbn [File.filealloc_scan]. change (Z.to_nat NFILE) with 100%nat.
    cbn [File.filealloc_scan]. rewrite E0. simpl. by intros [= <- _]. }
  pose proof (opened_alloc _ _ _ _ H0 E1) as H1.
  destruct (file_refcounts (L := Kalloc.demo_layout) _ _ H1) as (_ & _ & Hd & _).
  destruct (Hd 0 ltac:(by split)) as (w2 & E2 & _). pose proof (opened_dup _ _ 0 _ H1 ltac:(by split) E2) as H2.
  exists w2. split; [exact H2|]. destruct (file_refcounts (L := Kalloc.demo_layout) _ _ H2) as (Hc & _).
  rewrite (proj1 (Hc 0)). reflexivity.
Defined.

End FileSpec.
