(* ===== verification/Proc.v ===== *)
(** * kernel/proc.c: processes

    The process table is part of the kernel state [world]; pointers to
    processes are indices 0 .. NPROC - 1 (the null pointer is [None]).
    Sections of code under [p->lock], [wait_lock] and [pid_lock] are atomic.
    [sleep] is the outcome [Blocked]; [exit] is modelled up to its call of
    [sched], from which it does not come back.  The kernel page table of a
    process (vm.c) is here too, next to the code that frees it. *)

From S2P Require Import Prelude Riscv KString Kalloc ProcDefs Vm UserMem Pipe Uart Console Block.
From S2P Require Import Sleeplock Bio Log BlockIO Fs World File.
From stdpp Require Import base list numbers gmap strings.
From Stdlib Require Import ZArith Lia.

#[local] Open Scope Z_scope.

(** ** Page tables of processes *)

Module ProcVm.

Section Ops.
Context `{L : Layout}.

(** A store through a null page-table pointer faults in the kernel. *)
Definition zero_page (pa : Z) (s : kst) : outcome kst :=
  if pa =? 0 then Panic "kerneltrap" else Ret (set_mem s (KString.memset (k_mem s) pa 0 PGSIZE)).

(** The loop of [proc_mapstacks] from process [i] on. *)
Fixpoint proc_mapstacks_loop (k : nat) (kpgtbl i : Z) (s : kst) : outcome kst :=
  match k with
  | O => Ret s
  | S k =>
      '(pa, s) ← Kalloc.kalloc s;
      if pa =? 0 then Panic "kalloc" else
      s ← Vm.kvmmap s kpgtbl (KSTACK i) pa PGSIZE (Z.lor PTE_R PTE_W);
      proc_mapstacks_loop k kpgtbl (i + 1) s
  end.

Definition proc_mapstacks (kpgtbl : Z) (s : kst) : outcome kst :=
  proc_mapstacks_loop (Z.to_nat NPROC) kpgtbl 0 s.

Definition kvmmake (s : kst) : outcome (Z * kst) :=
  '(kpgtbl, s) ← Kalloc.kalloc s;
  s ← zero_page kpgtbl s;
  s ← Vm.kvmmap s kpgtbl UART0 UART0 PGSIZE (Z.lor PTE_R PTE_W);
  s ← Vm.kvmmap s kpgtbl VIRTIO0 VIRTIO0 PGSIZE (Z.lor PTE_R PTE_W);
  s ← Vm.kvmmap s kpgtbl PLIC PLIC 0x400000 (Z.lor PTE_R PTE_W);
  s ← Vm.kvmmap s kpgtbl KERNBASE KERNBASE (etext - KERNBASE) (Z.lor PTE_R PTE_X);
  s ← Vm.kvmmap s kpgtbl etext etext (PHYSTOP - etext) (Z.lor PTE_R PTE_W);
  s ← Vm.kvmmap s kpgtbl TRAMPOLINE trampoline PGSIZE (Z.lor PTE_R PTE_X);
  s ← proc_mapstacks kpgtbl s;
  Ret (kpgtbl, s).

(** The results of these calls of [mappages] are not checked. *)
Definition map_unchecked (kpgtbl va sz pa perm : Z) (s : kst) : outcome kst :=
  '(_, s) ← Vm.mappages s kpgtbl va sz pa perm; Ret s.

Definition kvminit_kern (s : kst) : outcome (Z * kst) :=
  '(kpgtbl, s) ← Kalloc.kalloc s;
  s ← zero_page kpgtbl s;
  s ← map_unchecked kpgtbl UART0 PGSIZE UART0 (Z.lor PTE_R PTE_W) s;
  s ← map_unchecked kpgtbl VIRTIO0 PGSIZE VIRTIO0 (Z.lor PTE_R PTE_W) s;
  s ← map_unchecked kpgtbl PLIC 0x400000 PLIC (Z.lor PTE_R PTE_W) s;
  s ← map_unchecked kpgtbl KERNBASE (etext - KERNBASE) KERNBASE (Z.lor PTE_R PTE_X) s;
  s ← map_unchecked kpgtbl etext (PHYSTOP - etext) etext (Z.lor PTE_R PTE_W) s;
  s ← map_unchecked kpgtbl TRAMPOLINE PGSIZE trampoline (Z.lor PTE_R PTE_X) s;
  Ret (kpgtbl, s).

(** [kvminit]; the result is [kernel_pagetable]. *)
Definition kvminit (s : kst) : outcome (Z * kst) :=
  '(kpgtbl, s) ← kvmmake s;
  s ← map_unchecked kpgtbl CLINT 0x10000 CLINT (Z.lor PTE_R PTE_W) s;
  Ret (kpgtbl, s).

Definition proc_freekernpgtbl (kpgtbl kstack : Z) (s : kst) : outcome kst :=
  s ← Vm.uvmunmap s kpgtbl UART0 1 false;
  s ← Vm.uvmunmap s kpgtbl VIRTIO0 1 false;
  s ← Vm.uvmunmap s kpgtbl PLIC (0x400000 / PGSIZE) false;
  s ← Vm.uvmunmap s kpgtbl KERNBASE ((etext - KERNBASE) / PGSIZE) false;
  s ← Vm.uvmunmap s kpgtbl etext ((PHYSTOP - etext) / PGSIZE) false;
  s ← Vm.uvmunmap s kpgtbl TRAMPOLINE 1 false;
  Vm.uvmfreepage s kpgtbl kstack 1.

(** [proc_pagetable] of a process whose trap frame is [trapframe]. *)
Definition proc_pagetable (trapframe : Z) (s : kst) : outcome (Z * kst) :=
  '(pagetable, s) ← Vm.uvmcreate s;
  if pagetable =? 0 then Ret (0, s) else
  '(r, s) ← Vm.mappages s pagetable TRAMPOLINE PGSIZE trampoline (Z.lor PTE_R PTE_X);
  if r <? 0 then
    s ← Vm.uvmfree s pagetable 0; Ret (0, s)
  else
  '(r, s) ← Vm.mappages s pagetable TRAPFRAME PGSIZE trapframe (Z.lor PTE_R PTE_W);
  if r <? 0 then
    s ← Vm.uvmunmap s pagetable TRAMPOLINE 1 false;
    s ← Vm.uvmfree s pagetable 0;
    Ret (0, s)
  else Ret (pagetable, s).

Definition proc_freepagetable (pagetable sz : Z) (s : kst) : outcome kst :=
  s ← Vm.uvmunmap s pagetable TRAMPOLINE 1 false;
  s ← Vm.uvmunmap s pagetable TRAPFRAME 1 false;
  Vm.uvmfree s pagetable sz.

End Ops.

End ProcVm.

Import ProcVm.

(** ** Processes *)

Module Proc.

Section Ops.
Context {T D : Type} `{BIO : BlockIO T} `{UD : UartDev D} `{L : Layout}.
(** The address of [forkret]. *)
Context (forkret_addr : Z).

Abbreviation M := (K (world T D)).

Definition nat_of (i : Z) : nat := Z.to_nat i.

(** The indices of the process table. *)
Definition pids : list Z := seqZ 0 NPROC.

(** [nextpid] is an [int]. *)
Definition allocpid : M Z :=
  pid ← gets w_nextpid;
  modify (set_nextpid (s32 (pid + 1)));;
  mret pid.

(** [p->trapframe->field = v]. *)
Definition tf_set (p : proc) (off v : Z) : M unit :=
  in_k_ (fun s => Ret (set_mem s (tf_store (k_mem s) p off v))).

Definition freeproc (i : Z) : M unit :=
  p ← get_proc i;
  when (nz (p_trapframe p)) (in_k_ (fun s => Kalloc.kfree s (p_trapframe p)));;
  upd_proc i (set_trapframe 0);;
  when (nz (p_pagetable p)) (in_k_ (proc_freepagetable (p_pagetable p) (p_sz p)));;
  when (nz (p_kerntable p)) (in_k_ (proc_freekernpgtbl (p_kerntable p) (p_kstack p)));;
  upd_proc i (fun p =>
    set_state UNUSED (set_xstate 0 (set_killed 0 (set_chan NoChan
      (set_name (<[O := 0]> (p_name p)) (set_parent None (set_pid 0 (set_sz 0
        (set_pagetable 0 (set_kerntable 0 p)))))))))).

(** The first UNUSED slot. *)
Definition find_unused (w : world T D) : option Z :=
  List.find (fun i => bool_decide (p_state (proc_at w i) = UNUSED)) pids.

Definition allocproc : M (option Z) :=
  r ← gets find_unused;
  match r with
  | None => mret None
  | Some i =>
      pid ← allocpid;
      upd_proc i (fun p => set_state USED (set_pid pid p));;
      tf ← in_k Kalloc.kalloc;
      upd_proc i (set_trapframe tf);;
      if tf =? 0 then freeproc i;; mret None else
      upd_proc i (fun p => set_trapalarm (MkTrapalarm 0 0 0 0 (ta_trapframe_cp (p_trapalarm p))) p);;
      kt ← in_k kvminit_kern;
      upd_proc i (set_kerntable kt);;
      if kt =? 0 then freeproc i;; mret None else
      pa ← in_k Kalloc.kalloc;
      if pa =? 0 then panic "kern_pagetable kalloc" else
      let va := TRAMPOLINE - 2 * PGSIZE in
      in_k_ (map_unchecked kt va PGSIZE pa (Z.lor PTE_R PTE_W));;
      upd_proc i (set_kstack va);;
      pt ← in_k (proc_pagetable tf);
      upd_proc i (set_pagetable pt);;
      if pt =? 0 then freeproc i;; mret None else
      upd_proc i (set_context (MkContext forkret_addr (va + PGSIZE) (replicate 12 0)));;
      mret (Some i)
  end.

(** [initcode]: a program that calls exec("/init"). *)
Definition initcode : list Z :=
  [0x17; 0x05; 0x00; 0x00; 0x13; 0x05; 0x45; 0x02;
   0x97; 0x05; 0x00; 0x00; 0x93; 0x85; 0x35; 0x02;
   0x93; 0x08; 0x70; 0x00; 0x73; 0x00; 0x00; 0x00;
   0x93; 0x08; 0x20; 0x00; 0x73; 0x00; 0x00; 0x00;
   0xef; 0xf0; 0x9f; 0xff; 0x2f; 0x69; 0x6e; 0x69;
   0x74; 0x00; 0x00; 0x24; 0x00; 0x00; 0x00; 0x00;
   0x00; 0x00; 0x00; 0x00].

(** [safestrcpy(p->name, s, sizeof(p->name))] for the C string [s]: a string
    that ends early is followed by two nul bytes. *)
Definition name_copy (name s : list Z) : list Z :=
  Block.put_bytes name 0 (take 15 s ++ if (length s <? 15)%nat then [0; 0] else [0]).

Definition str_initcode : list Z := [105; 110; 105; 116; 99; 111; 100; 101].

(** [allocproc] is not expected to fail here; its result is used unchecked. *)
Definition userinit : M unit :=
  r ← allocproc;
  match r with
  | None => panic "kerneltrap"
  | Some i =>
      modify (set_initproc i);;
      p ← get_proc i;
      in_k_ (fun s => Vm.uvminit s (p_pagetable p) initcode);;
      upd_proc i (set_sz PGSIZE);;
      tf_set p TF_epc 0;;
      tf_set p TF_sp PGSIZE;;
      upd_proc i (fun p => set_name (name_copy (p_name p) str_initcode) p);;
      ip ← fs_namei [SLASH];
      upd_proc i (set_cwd (option_map Z.to_nat ip));;
      upd_proc i (set_state RUNNABLE)
  end.

Definition growproc (n : Z) : M Z :=
  p ← myproc;
  let sz := u32 (p_sz p) in
  if 0 <? n then
    r ← in_k (fun s => Vm.uvmalloc s (p_pagetable p) sz (u32 (sz + n)));
    let sz := u32 r in
    if sz =? 0 then mret (-1) else upd_cur (set_sz sz);; mret 0
  else if n <? 0 then
    r ← in_k (fun s => Vm.uvmdealloc s (p_pagetable p) sz (u32 (sz + n)));
    upd_cur (set_sz (u32 r));; mret 0
  else upd_cur (set_sz sz);; mret 0.

(** The loop of [fork] over the open files, from descriptor [fd] on. *)
Fixpoint fork_files (ofile : list (option nat)) (np fd : Z) : M unit :=
  match ofile with
  | [] => mret tt
  | Some f :: rest =>
      File.filedup (Z.of_nat f);;
      upd_proc np (fun p => set_ofile (<[Z.to_nat fd := Some f]> (p_ofile p)) p);;
      fork_files rest np (fd + 1)
  | None :: rest => fork_files rest np (fd + 1)
  end.

(** [fork] up to the first release of [np->lock]: the slot and the pid of the
    child. *)
Definition fork_child : M (option (Z * Z)) :=
  p ← myproc;
  r ← allocproc;
  match r with
  | None => mret None
  | Some np =>
      q ← get_proc np;
      r ← in_k (fun s => Vm.uvmcopy s (p_pagetable p) (p_pagetable q) (p_sz p));
      if r <? 0 then freeproc np;; mret None else
      upd_proc np (set_sz (p_sz p));;
      in_k_ (fun s => Ret (set_mem s
        (mem_put (k_mem s) (p_trapframe q) (mem_get (k_mem s) (p_trapframe p) TF_size))));;
      tf_set q TF_a0 0;;
      fork_files (p_ofile p) np 0;;
      in_fs_ (fun s => Ret (Fs.idup (cwd_index p) s));;
      upd_proc np (set_cwd (p_cwd p));;
      upd_proc np (fun q => set_name (name_copy (p_name q) (c_str (p_name p))) q);;
      upd_proc np (set_mask (p_mask p));;
      mret (Some (np, p_pid q))
  end.

(** Its section under [wait_lock]. *)
Definition fork_parent (np : Z) : M unit :=
  cur ← gets w_cur;
  upd_proc np (set_parent (Some (nat_of cur))).

(** Its last section, under [np->lock]. *)
Definition fork_run (np : Z) : M unit := upd_proc np (set_state RUNNABLE).

Definition fork : M Z :=
  r ← fork_child;
  match r with
  | None => mret (-1)
  | Some (np, pid) =>
      fork_parent np;;
      fork_run np;;
      mret pid
  end.

(** [wakeup]: every other process asleep on [c] becomes runnable. *)
Definition wake (cur : Z) (c : chan) (i : Z) (p : proc) : proc :=
  if negb (i =? cur) && bool_decide (p_state p = SLEEPING) && bool_decide (p_chan p = c)
  then set_state RUNNABLE p else p.
Definition wakeup (c : chan) : M unit :=
  modify (fun w => foldl (fun w i =>
    set_procs (<[i := wake (w_cur w) c i (proc_at w i)]> (w_proc w)) w) w pids).

(** One turn of [reparent]'s loop. *)
Definition reparent_one (p i : Z) : M unit :=
  x ← get_proc i;
  when (bool_decide (p_parent x = Some (nat_of p)))
    (init ← gets w_initproc;
     upd_proc i (set_parent (Some (nat_of init)));;
     wakeup (ChProc (nat_of init))).

Fixpoint each {A : Type} (f : A -> M unit) (l : list A) : M unit :=
  match l with
  | [] => mret tt
  | x :: l => f x;; each f l
  end.

Definition reparent (p : Z) : M unit := each (reparent_one p) pids.

(** The loop of [exit] that closes the open files. *)
Definition close_fd (fd : Z) : M unit :=
  p ← myproc;
  match nth (Z.to_nat fd) (p_ofile p) None with
  | Some f =>
      File.fileclose (Z.of_nat f);;
      upd_cur (fun p => set_ofile (<[Z.to_nat fd := None]> (p_ofile p)) p)
  | None => mret tt
  end.

(** [exit] gives back the current directory. *)
Definition exit_cwd : M unit :=
  p ← myproc;
  begin_op;;
  fs_iput (cwd_index p);;
  end_op;;
  upd_cur (set_cwd None).

(** Its section under [wait_lock]. *)
Definition exit_zombie (status : Z) : M unit :=
  cur ← gets w_cur;
  reparent cur;;
  p ← myproc;
  match p_parent p with
  | Some q => wakeup (ChProc q)
  | None => wakeup NoChan
  end;;
  upd_cur (fun p => set_state ZOMBIE (set_xstate status p)).

Definition exit (status : Z) : M unit :=
  cur ← gets w_cur;
  init ← gets w_initproc;
  if cur =? init then panic "init exiting" else
  each close_fd (seqZ 0 NOFILE);;
  exit_cwd;;
  exit_zombie status.

(** The scan of [wait]: the first zombie child, or whether there are children. *)
Fixpoint wait_scan (l : list Z) (w : world T D) (havekids : bool) : Z + bool :=
  match l with
  | [] => inr havekids
  | i :: l =>
      let np := proc_at w i in
      if bool_decide (p_parent np = Some (nat_of (w_cur w))) then
        if bool_decide (p_state np = ZOMBIE) then inl i else wait_scan l w true
      else wait_scan l w havekids
  end.

(** One turn of [wait]'s loop. *)
Definition wait (addr : Z) : M Z :=
  r ← gets (fun w => wait_scan pids w false);
  match r with
  | inl i =>
      np ← get_proc i;
      e ← (if nz addr then File.copyout_u addr (Block.le_bytes 4 (u32 (p_xstate np))) else mret 0);
      if e <? 0 then mret (-1) else
      freeproc i;;
      mret (p_pid np)
  | inr havekids =>
      p ← myproc;
      if negb havekids || nz (p_killed p) then mret (-1)
      else blocked "wait"
  end.

(** What the scheduler does with slot [i] up to the context switch: the
    process to run, if any. *)
Definition scheduler_slot (i : Z) : M bool :=
  p ← get_proc i;
  if bool_decide (p_state p = RUNNABLE) then
    upd_proc i (set_state RUNNING);; mret true
  else mret false.

(** The checks of [sched]: [p->lock] is held, it is the only lock, the process
    has left the RUNNING state, and interrupts are off. *)
Definition sched (holding : bool) (noff : Z) (intr : bool) : M unit :=
  p ← myproc;
  if negb holding then panic "sched p->lock"
  else if negb (noff =? 1) then panic "sched locks"
  else if bool_decide (p_state p = RUNNING) then panic "sched running"
  else if intr then panic "sched interruptible"
  else mret tt.

(** [yield], up to its call of [sched]. *)
Definition yield : M unit := upd_cur (set_state RUNNABLE).

(** [sleep], up to its call of [sched], and after it. *)
Definition sleep_enter (c : chan) : M unit := upd_cur (fun p => set_state SLEEPING (set_chan c p)).
Definition sleep_leave : M unit := upd_cur (set_chan NoChan).

Definition kill (pid : Z) : M Z :=
  r ← gets (fun w => List.find (fun i => p_pid (proc_at w i) =? pid) pids);
  match r with
  | None => mret (-1)
  | Some i =>
      upd_proc i (fun p =>
        let p := set_killed 1 p in
        if bool_decide (p_state p = SLEEPING) then set_state RUNNABLE p else p);;
      mret 0
  end.

(** The number of processes in use. *)
Definition procamount : M Z :=
  gets (fun w => Z.of_nat (length (List.filter
    (fun i => negb (bool_decide (p_state (proc_at w i) = UNUSED))) pids))).

(** [forkret], the first time a process runs; [first] is its static flag. *)
Definition forkret (first : bool) : M unit :=
  p ← myproc;
  when first (in_fs_ (Fs.fsinit (p_pid p) ROOTDEV)).

End Ops.

End Proc.
