(* ===== verification/ProcSlots.v ===== *)
(** * What the process operations do to the process table

    Every operation of proc.c changes the slot of one process, or a field that
    several share; the memory, the file system and the open files are changed
    by code that leaves the table alone. *)

From S2P Require Import Prelude Riscv KString Kalloc ProcDefs Vm UserMem Pipe Uart Console Block.
From S2P Require Import Sleeplock Bio Log BlockIO Fs World File FsSpec FileSpec Proc.
From stdpp Require Import base list numbers gmap strings.
From Stdlib Require Import ZArith Lia.

#[local] Open Scope Z_scope.

Import ProcVm Proc FileSpec.

Module ProcSlots.

Create HintDb acts.

Section Slots.
Context {T D : Type} `{BIO : BlockIO T} `{UD : UartDev D} `{L : Layout}.
Context (forkret_addr : Z).

Abbreviation W := (world T D).
Abbreviation M := (K (world T D)).

(** From [w] to [w'] slot [i] became [g] of itself, and nothing else of the
    table changed. *)
Record act (i : Z) (g : proc -> proc) (w w' : W) : Prop := MkAct {
  act_cur : w_cur w' = w_cur w;
  act_init : w_initproc w' = w_initproc w;
  act_pid : w_nextpid w' = w_nextpid w;
  act_slot : proc_at w' i = g (proc_at w i);
  act_rest : forall j, j <> i -> proc_at w' j = proc_at w j
}.

Definition acts {A} (i : Z) (g : proc -> proc) (m : M A) : Prop := forall w a w', m w = Ret (a, w') -> act i g w w'.

(** The computation leaves the table alone. *)
Definition quiet {A} (m : M A) : Prop := forall w a w', m w = Ret (a, w') ->
  w_proc w' = w_proc w /\ w_cur w' = w_cur w /\ w_initproc w' = w_initproc w /\ w_nextpid w' = w_nextpid w.

Lemma act_refl i w : act i (fun p => p) w w.
Proof. by split. Qed.

Lemma act_trans i g h w w1 w2 : act i g w w1 -> act i h w1 w2 -> act i (fun p => h (g p)) w w2.
Proof.
  intros [A1 A2 A3 A4 A5] [B1 B2 B3 B4 B5]. split; [congruence..|rewrite B4, A4; done|]. intros j Hj. rewrite B5, A5; done.
Qed.

Lemma quiet_acts {A} i (m : M A) : quiet m -> acts i (fun p => p) m.
Proof.
  intros Q w a w' E. destruct (Q _ _ _ E) as (E1 & E2 & E3 & E4). split; [done..|unfold proc_at; by rewrite E1|]. intros j _. unfold proc_at. by rewrite E1.
Qed.

Lemma upd_act i g (w : W) : act i g w (set_procs (<[i := g (proc_at w i)]> (w_proc w)) w).
Proof.
  split; [done..|unfold proc_at; simpl; by rewrite lookup_insert_eq|]. intros j Hj. unfold proc_at; simpl. by rewrite lookup_insert_ne by done.
Qed.

Lemma acts_upd i g : acts i g (upd_proc (T := T) (D := D) i g).
Proof. intros w a w' [= _ <-]. apply upd_act. Qed.

(** ** Code that leaves the table alone *)

Lemma quiet_bind {A B} (m : M A) (f : A -> M B) : quiet m -> (forall a, quiet (f a)) -> quiet (m ≫= f).
Proof.
  intros Hm Hf w b w' (a & w1 & E1 & E2)%K_bind_Ret. destruct (Hm _ _ _ E1) as (? & ? & ? & ?). destruct (Hf _ _ _ _ E2) as (? & ? & ? & ?).
  repeat split; congruence.
Qed.
Lemma quiet_ret {A} (a : A) : quiet (mret a).
Proof. by intros w a' w' [= <- <-]. Qed.
Lemma quiet_gets {A} (f : W -> A) : quiet (gets f).
Proof. by intros w a w' [= <- <-]. Qed.
Lemma quiet_panic {A} msg : quiet (@panic W A msg).
Proof. done. Qed.
Lemma quiet_when c (m : M unit) : quiet m -> quiet (when c m).
Proof. intros H. destruct c; [exact H|apply quiet_ret]. Qed.
Lemma quiet_in_k {A} (f : kst -> outcome (A * kst)) : quiet (in_k f).
Proof. unfold in_k. intros w a w' ([b s] & _ & [= _ <-])%bind_Ret. done. Qed.
Lemma quiet_in_k_ (f : kst -> outcome kst) : quiet (in_k_ f).
Proof. unfold in_k_. intros w a w' (s & _ & [= _ <-])%bind_Ret. done. Qed.
Lemma quiet_in_fs {A} (f : fsys T -> outcome (A * fsys T)) : quiet (in_fs f).
Proof. unfold in_fs. intros w a w' ([b s] & _ & [= _ <-])%bind_Ret. done. Qed.
Lemma quiet_in_fs_ (f : fsys T -> outcome (fsys T)) : quiet (in_fs_ f).
Proof. unfold in_fs_. intros w a w' (s & _ & [= _ <-])%bind_Ret. done. Qed.
Lemma quiet_upd_file f g : quiet (upd_file f g).
Proof. by intros w a w' [= _ <-]. Qed.
Lemma quiet_my {A} (f : proc -> M A) : (forall p, quiet (f p)) -> quiet (p ← myproc; f p).
Proof. intros H. apply quiet_bind; [apply quiet_gets|exact H]. Qed.

Lemma quiet_put ip : quiet (begin_op;; fs_iput ip;; end_op).
Proof.
  apply quiet_bind; [apply quiet_in_fs_|]. intros _. apply quiet_bind; [apply quiet_my; intros p; apply quiet_in_fs_|].
  intros _. apply quiet_my. intros p. apply quiet_in_fs_.
Qed.

Lemma quiet_filedup f : quiet (File.filedup f).
Proof. unfold File.filedup. apply quiet_bind; [apply quiet_gets|]. intros x. destruct (fl_ref x <? 1); [done|apply quiet_upd_file]. Qed.

Lemma quiet_pipe_close pi wr : quiet (File.pipe_close pi wr).
Proof.
  unfold File.pipe_close. apply quiet_bind; [apply quiet_gets|]. intros [[] q]; [|by intros w a w' [= _ <-]].
  apply quiet_bind; [by intros w a w' [= _ <-]|]. intros _. apply quiet_in_k_.
Qed.

Lemma quiet_fileclose f : quiet (File.fileclose f).
Proof.
  unfold File.fileclose. apply quiet_bind; [apply quiet_gets|]. intros x. destruct (fl_ref x <? 1); [done|]. apply quiet_bind; [apply quiet_upd_file|].
  intros _. destruct (0 <? s32 (fl_ref x - 1)); [apply quiet_ret|]. apply quiet_bind; [apply quiet_upd_file|]. intros _.
  destruct (fl_type x); [apply quiet_ret|apply quiet_pipe_close|apply quiet_put..].
Qed.

Lemma quiet_copyout addr bs : quiet (File.copyout_u (T := T) (D := D) addr bs).
Proof. apply quiet_my. intros p. apply quiet_in_k. Qed.

(** ** Following a computation on slot [i] *)

Lemma acts_bind {A B} i g0 w0 (m : M A) g (f : A -> M B) w b w' : act i g0 w0 w -> acts i g m -> (m ≫= f) w = Ret (b, w') ->
  exists a w1, act i (fun p => g (g0 p)) w0 w1 /\ m w = Ret (a, w1) /\ f a w1 = Ret (b, w').
Proof.
  intros A0 Hm (a & w1 & E1 & E2)%K_bind_Ret. exists a, w1. split; [by apply (act_trans _ _ _ _ w); [|apply (Hm _ _ _ E1)]|done].
Qed.

End Slots.

#[export] Hint Resolve acts_upd quiet_acts quiet_ret quiet_gets quiet_when quiet_in_k quiet_in_k_ quiet_in_fs quiet_in_fs_ quiet_upd_file quiet_filedup quiet_fileclose quiet_copyout quiet_put : acts.

(** One step of the computation in [H], [A] being the history of the slot; [E]
    says what the step did. *)
Ltac follow A H a E :=
  let w := fresh "w" in
  let A' := fresh in
  eapply acts_bind in H as (a & w & A' & E & H); [clear A; rename A' into A|exact A|first [apply acts_upd|solve [eauto with acts]]].

(** ** The operations *)

Section Ops.
Context {T D : Type} `{BIO : BlockIO T} `{UD : UartDev D} `{L : Layout}.
Context (forkret_addr : Z).

Abbreviation W := (world T D).

(** A slot given back by [freeproc]. *)
Definition freed (p : proc) : proc :=
  set_state UNUSED (set_xstate 0 (set_killed 0 (set_chan NoChan
    (set_name (<[O := 0]> (p_name p)) (set_parent None (set_pid 0 (set_sz 0
      (set_pagetable 0 (set_kerntable 0 (set_trapframe 0 p)))))))))).

Lemma freeproc_acts i : acts (T := T) (D := D) i freed (freeproc i).
Proof.
  intros w a w' H. unfold freeproc in H. pose proof (act_refl i w) as A. follow A H p E. follow A H x1 E1. follow A H x2 E2. follow A H x3 E3. follow A H x4 E4.
  apply acts_upd in H. exact (act_trans _ _ _ _ _ _ A H).
Qed.
#[local] Hint Resolve freeproc_acts : acts.

(** The error exit of [allocproc] and [fork]. *)
Lemma freeproc_fails {A} i g w0 w (x r : A) w' : act i g w0 w -> (freeproc (T := T) (D := D) i;; (mret x : K W A)) w = Ret (r, w') ->
  r = x /\ act i (fun p => freed (g p)) w0 w'.
Proof. intros Ac H. follow Ac H y E. by injection H as <- <-. Qed.

(** The slot of a new process, before its memory is set up. *)
Definition newborn (pid tf kt pt : Z) (p p' : proc) : Prop :=
  p_state p' = USED /\ p_pid p' = pid /\ p_parent p' = p_parent p /\ p_killed p' = p_killed p /\ p_ofile p' = p_ofile p /\ p_sz p' = p_sz p
  /\ p_trapframe p' = tf /\ p_kerntable p' = kt /\ p_pagetable p' = pt /\ tf <> 0 /\ kt <> 0 /\ pt <> 0.

(** [w'] differs from [w] in slot [i] only, and one more pid is used. *)
Record born (i : Z) (w w' : W) : Prop := MkBorn {
  bo_cur : w_cur w' = w_cur w;
  bo_init : w_initproc w' = w_initproc w;
  bo_pid : w_nextpid w' = s32 (w_nextpid w + 1);
  bo_rest : forall j, j <> i -> proc_at w' j = proc_at w j
}.

Lemma act_born i g w w' : act i g (set_nextpid (s32 (w_nextpid w + 1)) w) w' -> born i w w'.
Proof. intros [A1 A2 A3 A4 A5]. by split. Qed.

(** [allocproc] finds no free slot; or it fails and the slot is free again; or
    it has a slot with a pid and memory. *)
Lemma allocproc_spec (w w' : W) r : allocproc forkret_addr w = Ret (r, w') ->
  (find_unused w = None /\ r = None /\ w' = w)
  \/ exists i, find_unused w = Some i /\ born i w w' /\
       ((r = None /\ exists q, p_ofile q = p_ofile (proc_at w i) /\ proc_at w' i = freed q)
        \/ (r = Some i /\ exists tf kt pt, newborn (w_nextpid w) tf kt pt (proc_at w i) (proc_at w' i))).
Proof.
  unfold allocproc. intros (r0 & w0 & [= <- <-] & H)%K_bind_Ret. destruct (find_unused w) as [i|]; [|injection H as <- <-; by left].
  right. exists i. split; [done|]. apply K_bind_Ret in H as (pid & w1 & E & H). unfold allocpid in E. cbn in E. injection E as <- <-.
  pose proof (act_refl i (set_nextpid (s32 (w_nextpid w + 1)) w)) as A. follow A H x1 E1. follow A H tf E2. follow A H x2 E3. destruct (Z.eqb_spec tf 0) as [->|Htf].
  { apply (freeproc_fails _ _ _ _ _ _ _ A) in H as [-> A1]. split; [by apply act_born in A1|]. left. split; [done|]. eexists. split; [|apply (act_slot _ _ _ _ A1)]. done. }
  follow A H x3 E4. follow A H kt E5. follow A H x4 E6. destruct (Z.eqb_spec kt 0) as [->|Hkt].
  { apply (freeproc_fails _ _ _ _ _ _ _ A) in H as [-> A1]. split; [by apply act_born in A1|]. left. split; [done|]. eexists. split; [|apply (act_slot _ _ _ _ A1)]. done. }
  follow A H pa E7. destruct (pa =? 0); [done|]. follow A H x5 E8. follow A H x6 E9. follow A H pt E10. follow A H x7 E11. destruct (Z.eqb_spec pt 0) as [->|Hpt].
  { apply (freeproc_fails _ _ _ _ _ _ _ A) in H as [-> A1]. split; [by apply act_born in A1|]. left. split; [done|]. eexists. split; [|apply (act_slot _ _ _ _ A1)]. done. }
  follow A H x8 E12. injection H as <- <-. split; [by apply act_born in A|]. right. split; [done|]. exists tf, kt, pt. rewrite (act_slot _ _ _ _ A). repeat split; done.
Qed.

(** The descriptors [fork] leaves in the child. *)
Fixpoint merge (ofile : list (option nat)) (fd : nat) (l : list (option nat)) : list (option nat) :=
  match ofile with
  | [] => l
  | Some f :: rest => merge rest (S fd) (<[fd := Some f]> l)
  | None :: rest => merge rest (S fd) l
  end.

Lemma merge_blank ofile pre : merge ofile (length pre) (pre ++ replicate (length ofile) None) = pre ++ ofile.
Proof.
  revert pre. induction ofile as [|[f|] ofile IH]; intros pre; simpl; [done|..].
  - rewrite insert_app_r_alt, Nat.sub_diag by done. simpl. specialize (IH (pre ++ [Some f])). rewrite length_app, Nat.add_1_r, <- !app_assoc in IH. exact IH.
  - specialize (IH (pre ++ [None])). rewrite length_app, Nat.add_1_r, <- !app_assoc in IH. exact IH.
Qed.

Lemma act_ext i g h (w w' : W) : act i g w w' -> (forall p, g p = h p) -> act i h w w'.
Proof. intros [A1 A2 A3 A4 A5] E. split; [done..|by rewrite <- E|done]. Qed.

Lemma set_ofile_twice p a b : set_ofile a (set_ofile b p) = set_ofile a p.
Proof. done. Qed.

Lemma fork_files_acts ofile np fd : 0 <= fd -> acts (T := T) (D := D) np (fun p => set_ofile (merge ofile (Z.to_nat fd) (p_ofile p)) p) (fork_files ofile np fd).
Proof.
  revert fd. induction ofile as [|[f|] ofile IH]; intros fd Hfd w a w' H; cbn [fork_files merge] in *.
  - injection H as _ <-. apply (act_ext _ (fun p => p)); [apply act_refl|by intros []].
  - pose proof (act_refl np w) as A. follow A H x1 E1. follow A H x2 E2. apply IH in H; [|lia]. pose proof (act_trans _ _ _ _ _ _ A H) as A2.
    eapply act_ext; [exact A2|]. intros p. cbn beta. rewrite set_ofile_twice, Z2Nat.inj_add, Nat.add_1_r by lia. done.
  - apply IH in H; [|lia]. rewrite Z2Nat.inj_add, Nat.add_1_r in H by lia. exact H.
Qed.

Lemma act_born_trans i g w w1 w2 : born i w w1 -> act i g w1 w2 -> born i w w2.
Proof. intros [B1 B2 B3 B4] [A1 A2 A3 A4 A5]. split; [congruence..|]. intros j Hj. rewrite A5, B4; done. Qed.

(** The child of the process [p] of slot [cur], in the slot [q], before its
    parent is set. *)
Definition unborn (pid : Z) (p q c : proc) : Prop :=
  p_state c = USED /\ p_pid c = pid /\ p_parent c = p_parent q /\ p_killed c = p_killed q /\ p_sz c = p_sz p
  /\ p_ofile c = merge (p_ofile p) 0 (p_ofile q) /\ p_cwd c = p_cwd p /\ p_mask c = p_mask p
  /\ p_trapframe c <> 0 /\ p_kerntable c <> 0 /\ p_pagetable c <> 0.

Lemma fork_child_spec (w w' : W) r : fork_child forkret_addr w = Ret (r, w') ->
  (find_unused w = None /\ r = None /\ w' = w)
  \/ exists i, find_unused w = Some i /\ born i w w' /\
       ((r = None /\ exists q, p_ofile q = p_ofile (proc_at w i) /\ proc_at w' i = freed q)
        \/ (r = Some (i, w_nextpid w) /\ unborn (w_nextpid w) (proc_at w (w_cur w)) (proc_at w i) (proc_at w' i))).
Proof.
  unfold fork_child. intros (p & w0 & [= <- <-] & H)%K_bind_Ret. apply K_bind_Ret in H as (r0 & w1 & E & H).
  apply allocproc_spec in E as [(E1 & -> & ->)|(i & E1 & B & [(-> & q & Eq1 & Eq2)|(-> & tf & kt & pt & N)])]; [injection H as <- <-; by left| |]; right; exists i; (split; [done|]).
  - injection H as <- <-. split; [done|]. left. eauto.
  - apply K_bind_Ret in H as (q & w2 & [= <- <-] & H). pose proof (act_refl i w1) as A. follow A H e E2. destruct N as (N1 & N2 & N3 & N4 & N5 & N6 & N7 & N8 & N9 & N10).
    destruct (e <? 0).
    + apply (freeproc_fails _ _ _ _ _ _ _ A) in H as [-> A1]. split; [exact (act_born_trans _ _ _ _ _ B A1)|]. left. split; [done|].
      eexists. split; [|apply (act_slot _ _ _ _ A1)]. done.
    + follow A H x1 E3. follow A H x2 E4. follow A H x3 E5. eapply acts_bind in H as (x4 & w7 & A1 & E6 & H); [clear A|exact A|by apply fork_files_acts].
      follow A1 H x5 E7. follow A1 H x6 E8. follow A1 H x7 E9. follow A1 H x8 E10.
      injection H as <- <-. split; [exact (act_born_trans _ _ _ _ _ B A1)|]. right. rewrite N2. split; [done|]. rewrite (act_slot _ _ _ _ A1).
      unfold unborn. simpl. rewrite N1, N2, N3, N4, N5, N7, N8, N9. repeat split; apply N10.
Qed.

Lemma fork_parent_act np (w w' : W) : fork_parent np w = Ret (tt, w') -> act np (set_parent (Some (nat_of (w_cur w)))) w w'.
Proof. unfold fork_parent. intros (cur & w1 & [= <- <-] & H)%K_bind_Ret. by apply acts_upd in H. Qed.

Lemma fork_run_act np (w w' : W) : fork_run np w = Ret (tt, w') -> act np (set_state RUNNABLE) w w'.
Proof. intros H. by apply acts_upd in H. Qed.

(** The child of the process [p] of slot [cur], in the slot [q]. *)
Definition child (cur pid : Z) (p q c : proc) : Prop :=
  p_state c = RUNNABLE /\ p_pid c = pid /\ p_parent c = Some (nat_of cur) /\ p_killed c = p_killed q /\ p_sz c = p_sz p
  /\ p_ofile c = merge (p_ofile p) 0 (p_ofile q) /\ p_cwd c = p_cwd p /\ p_mask c = p_mask p
  /\ p_trapframe c <> 0 /\ p_kerntable c <> 0 /\ p_pagetable c <> 0.

Lemma fork_spec (w w' : W) r : fork forkret_addr w = Ret (r, w') ->
  (find_unused w = None /\ r = -1 /\ w' = w)
  \/ exists i, find_unused w = Some i /\ born i w w' /\
       ((r = -1 /\ exists q, p_ofile q = p_ofile (proc_at w i) /\ proc_at w' i = freed q)
        \/ (r = w_nextpid w /\ child (w_cur w) r (proc_at w (w_cur w)) (proc_at w i) (proc_at w' i))).
Proof.
  unfold fork. intros (r0 & w1 & E & H)%K_bind_Ret.
  apply fork_child_spec in E as [(E1 & -> & ->)|(i & E1 & B & [(-> & q & Eq)|(-> & U)])]; [injection H as <- <-; by left| |]; right; exists i; (split; [done|]).
  - injection H as <- <-. split; [done|]. left. eauto.
  - apply K_bind_Ret in H as ([] & w2 & E2 & H). apply fork_parent_act in E2. apply K_bind_Ret in H as ([] & w3 & E3 & H). apply fork_run_act in E3. injection H as <- <-.
    pose proof (act_trans _ _ _ _ _ _ E2 E3) as A. split; [exact (act_born_trans _ _ _ _ _ B A)|]. right. split; [done|]. rewrite (act_slot _ _ _ _ A), (bo_cur _ _ _ B).
    destruct U as (U1 & U2 & U3 & U4 & U5 & U6 & U7 & U8 & U9). unfold child. simpl. rewrite U2, U4, U5, U6, U7, U8. repeat split; apply U9.
Qed.

(** ** Wakeups *)

Definition slot (i : Z) : Prop := 0 <= i < NPROC.

Lemma slot_pids i : slot i <-> i ∈ pids.
Proof. unfold slot, pids. rewrite elem_of_seqZ. lia. Qed.

(** Between [w] and [w'] each slot became [f] of itself. *)
Record maps_slots (f : Z -> proc -> proc) (w w' : W) : Prop := MkMaps {
  ms_cur : w_cur w' = w_cur w;
  ms_init : w_initproc w' = w_initproc w;
  ms_pid : w_nextpid w' = w_nextpid w;
  ms_slot : forall j, slot j -> proc_at w' j = f j (proc_at w j)
}.

Lemma maps_trans f g w w1 w2 : maps_slots f w w1 -> maps_slots g w1 w2 -> maps_slots (fun j p => g j (f j p)) w w2.
Proof. intros [A1 A2 A3 A4] [B1 B2 B3 B4]. split; [congruence..|]. intros j Hj. by rewrite B4, A4. Qed.

Lemma maps_ext f g w w' : maps_slots f w w' -> (forall j, slot j -> f j (proc_at w j) = g j (proc_at w j)) -> maps_slots g w w'.
Proof. intros [A1 A2 A3 A4] E. split; [done..|]. intros j Hj. by rewrite A4, E. Qed.

Lemma act_maps i g w w' : act i g w w' -> maps_slots (fun j p => if decide (j = i) then g p else p) w w'.
Proof. intros [A1 A2 A3 A4 A5]. split; [done..|]. intros j _. destruct (decide (j = i)) as [->|]; auto. Qed.

Lemma wakeup_loop c cur l (w : W) : NoDup l -> w_cur w = cur ->
  let w' := foldl (fun w i => set_procs (<[i := wake (w_cur w) c i (proc_at w i)]> (w_proc w)) w) w l in
  w_cur w' = cur /\ w_initproc w' = w_initproc w /\ w_nextpid w' = w_nextpid w
  /\ forall j, proc_at w' j = if decide (j ∈ l) then wake cur c j (proc_at w j) else proc_at w j.
Proof.
  revert w. induction l as [|i l IH]; intros w Hn Hc; cbn [foldl].
  - split; [done|]. split; [done|]. split; [done|]. intros j. by rewrite decide_False by apply not_elem_of_nil.
  - apply NoDup_cons in Hn as [Hi Hn]. set (w1 := set_procs _ w). destruct (IH w1 Hn Hc) as (-> & -> & -> & H). split; [done|]. split; [done|]. split; [done|].
    intros j. rewrite H. destruct (upd_act i (wake (w_cur w) c i) w) as [_ _ _ A4 A5]. fold w1 in A4, A5. destruct (decide (j = i)) as [->|Hj].
    + rewrite decide_False by done. rewrite decide_True by apply list_elem_of_here. by rewrite A4, Hc.
    + rewrite A5 by done. destruct (decide (j ∈ l)) as [Hl|Hl]; [rewrite decide_True by (by apply list_elem_of_further); done|].
      rewrite decide_False; [done|]. by intros [?|?]%elem_of_cons.
Qed.

Lemma wakeup_spec c (w : W) : exists w', wakeup c w = Ret (tt, w') /\ maps_slots (wake (w_cur w) c) w w'.
Proof.
  eexists. split; [done|]. destruct (wakeup_loop c (w_cur w) pids w (NoDup_seqZ _ _) eq_refl) as (E1 & E2 & E3 & E4). split; [done..|].
  intros j Hj. rewrite E4. by rewrite decide_True by (by apply slot_pids).
Qed.

(** ** [reparent] *)

Definition wake_if (b : bool) (cur : Z) (c : chan) (j : Z) (p : proc) : proc := if b then wake cur c j p else p.

Definition is_child (p : Z) (x : proc) : bool := bool_decide (p_parent x = Some (nat_of p)).
Definition adopt (p init : Z) (x : proc) : proc := if is_child p x then set_parent (Some (nat_of init)) x else x.

Lemma wake_parent cur c j x : p_parent (wake cur c j x) = p_parent x.
Proof. unfold wake. by destruct (_ && _). Qed.
Lemma wake_adopt cur c p init j x : wake cur c j (adopt p init x) = adopt p init (wake cur c j x).
Proof.
  unfold adopt, is_child. rewrite wake_parent. case_bool_decide; [|done]. unfold wake. cbn [p_state p_chan set_parent]. by destruct (_ && _).
Qed.
Lemma wake_twice cur c j x : wake cur c j (wake cur c j x) = wake cur c j x.
Proof. unfold wake at 2 3. destruct (_ && _) eqn:E; unfold wake; [simpl; by rewrite andb_false_r|by rewrite E]. Qed.

Definition has_child (p : Z) (l : list Z) (w : W) : bool := existsb (fun i => is_child p (proc_at w i)) l.

(** The slots after the loop has run over [l]. *)
Definition reparented (p : Z) (l : list Z) (w : W) (j : Z) (x : proc) : proc :=
  wake_if (has_child p l w) (w_cur w) (ChProc (nat_of (w_initproc w))) j (if decide (j ∈ l) then adopt p (w_initproc w) x else x).

Lemma reparent_one_spec p i (w : W) : slot i -> exists w', reparent_one p i w = Ret (tt, w') /\ maps_slots (reparented p [i] w) w w'.
Proof.
  intros Hi. unfold reparent_one. unfold mbind, K_bind. cbn [get_proc gets]. fold (is_child p (proc_at w i)).
  unfold reparented, has_child. cbn [existsb]. rewrite orb_false_r. unfold adopt. destruct (is_child p (proc_at w i)) eqn:Ec; cbn [when gets wake_if].
  - set (init := w_initproc w). cbn [upd_proc modify]. set (w1 := set_procs _ w). pose proof (upd_act i (set_parent (Some (nat_of init))) w) as A. fold w1 in A.
    destruct (wakeup_spec (ChProc (nat_of init)) w1) as (w2 & -> & M). exists w2. split; [done|]. eapply maps_ext; [apply (maps_trans _ _ _ _ _ (act_maps _ _ _ _ A) M)|].
    intros j Hj. cbn beta. f_equal. destruct (decide (j = i)) as [->|Hne]; [rewrite decide_True by (by apply list_elem_of_singleton); by rewrite Ec|].
    rewrite decide_False; [done|]. by rewrite list_elem_of_singleton.
  - exists w. split; [done|]. split; [done..|]. intros j Hj. destruct (decide (j ∈ [i])) as [->%list_elem_of_singleton|]; [by rewrite Ec|done].
Qed.

Lemma reparented_child p i w w1 j : maps_slots (reparented p [i] w) w w1 -> slot j -> j <> i -> is_child p (proc_at w1 j) = is_child p (proc_at w j).
Proof.
  intros M Hj Hne. rewrite (ms_slot _ _ _ M j Hj). unfold reparented. rewrite decide_False by (by rewrite list_elem_of_singleton).
  unfold wake_if. destruct (has_child _ _ _); [|done]. unfold is_child. by rewrite wake_parent.
Qed.

Lemma reparent_loop p l (w : W) : NoDup l -> Forall slot l -> exists w', each (reparent_one p) l w = Ret (tt, w') /\ maps_slots (reparented p l w) w w'.
Proof.
  revert w. induction l as [|i l IH]; intros w Hn Hs; [exists w; split; [done|by split]|]. apply NoDup_cons in Hn as [Hi Hn]. apply Forall_cons in Hs as [Hsi Hs].
  destruct (reparent_one_spec p i w Hsi) as (w1 & E1 & M1). destruct (IH w1 Hn Hs) as (w2 & E2 & M2). exists w2. cbn [each]. unfold mbind, K_bind. rewrite E1.
  split; [done|]. eapply maps_ext; [apply (maps_trans _ _ _ _ _ M1 M2)|]. intros j Hj. cbn beta. unfold reparented.
  rewrite (ms_cur _ _ _ M1), (ms_init _ _ _ M1). set (c := ChProc _).
  assert (Eh : has_child p l w1 = has_child p l w).
  { unfold has_child. clear -M1 Hi Hs. induction l as [|k l IH]; [done|]. apply Forall_cons in Hs as [Hk Hs]. apply not_elem_of_cons in Hi as [Hki Hi]. cbn [existsb].
    rewrite IH by done. f_equal. apply (reparented_child p i w w1); auto. }
  rewrite Eh. replace (has_child p (i :: l) w) with (has_child p [i] w || has_child p l w) by (unfold has_child; cbn [existsb]; by rewrite orb_false_r).
  replace (if decide (j ∈ i :: l) then adopt p (w_initproc w) (proc_at w j) else proc_at w j)
    with (if decide (j ∈ l) then adopt p (w_initproc w) (if decide (j ∈ [i]) then adopt p (w_initproc w) (proc_at w j) else proc_at w j)
          else if decide (j ∈ [i]) then adopt p (w_initproc w) (proc_at w j) else proc_at w j).
  2: { destruct (decide (j ∈ l)) as [Hl|Hl].
       - rewrite (decide_False (P := j ∈ [i])) by (intros ->%list_elem_of_singleton; done). by rewrite decide_True by (by apply list_elem_of_further).
       - destruct (decide (j ∈ [i])) as [H1|H1]; [apply list_elem_of_singleton in H1 as ->; by rewrite decide_True by apply list_elem_of_here|].
         rewrite decide_False; [done|]. rewrite elem_of_cons. rewrite list_elem_of_singleton in H1. tauto. }
  destruct (has_child p [i] w), (has_child p l w); cbn [orb wake_if]; destruct (decide (j ∈ l)); try done; by rewrite <- ?wake_adopt, wake_twice || rewrite wake_adopt.
Qed.

(** The children of [p] go to [initproc], which is woken when there are any. *)
Lemma reparent_spec p (w : W) : exists w', reparent p w = Ret (tt, w') /\
  maps_slots (fun j x => wake_if (has_child p pids w) (w_cur w) (ChProc (nat_of (w_initproc w))) j (adopt p (w_initproc w) x)) w w'.
Proof.
  destruct (reparent_loop p pids w (NoDup_seqZ _ _)) as (w' & E & M); [apply Forall_forall; intros i; apply slot_pids|]. exists w'. split; [done|].
  eapply maps_ext; [exact M|]. intros j Hj. unfold reparented. by rewrite decide_True by (by apply slot_pids).
Qed.

(** ** [exit] *)

(** The part of [exit] that gives back the open files and the current
    directory. *)
Definition closing : K W unit := each close_fd (seqZ 0 NOFILE);; exit_cwd.

Lemma close_fd_act fd (w w' : W) : close_fd fd w = Ret (tt, w') -> act (w_cur w) (fun p => set_ofile (<[Z.to_nat fd := None]> (p_ofile p)) p) w w'.
Proof.
  unfold close_fd. intros (p & w0 & [= <- <-] & H)%K_bind_Ret. destruct (nth _ _ _) as [f|] eqn:En.
  - pose proof (act_refl (w_cur w) w) as A. follow A H x E. unfold upd_cur in H. apply K_bind_Ret in H as (i & w1 & [= <- <-] & H).
    rewrite (act_cur _ _ _ _ A) in H. apply acts_upd in H. exact (act_trans _ _ _ _ _ _ A H).
  - injection H as <-. split; [done..| |done]. set (p := proc_at w (w_cur w)) in *. replace (<[_ := None]> (p_ofile p)) with (p_ofile p); [by destruct p|].
    destruct (nth_lookup_or_length (p_ofile p) (Z.to_nat fd) None) as [El|Hl]; [|by rewrite list_insert_ge]. rewrite En in El. by rewrite list_insert_id.
Qed.

Definition closed (fds : list Z) (l : list (option nat)) : list (option nat) := foldl (fun l fd => <[Z.to_nat fd := None]> l) l fds.

Lemma close_loop fds (w w' : W) : each close_fd fds w = Ret (tt, w') -> act (w_cur w) (fun p => set_ofile (closed fds (p_ofile p)) p) w w'.
Proof.
  revert w. induction fds as [|fd fds IH]; intros w H; cbn [each] in H.
  - injection H as <-. split; [done..| |done]. by destruct (proc_at w (w_cur w)).
  - apply K_bind_Ret in H as ([] & w1 & E & H). apply close_fd_act in E. apply IH in H. rewrite (act_cur _ _ _ _ E) in H. exact (act_trans _ _ _ _ _ _ E H).
Qed.

Lemma closed_all l : length l = Z.to_nat NOFILE -> closed (seqZ 0 NOFILE) l = replicate (Z.to_nat NOFILE) None.
Proof. do 17 (destruct l as [|? l]; [try discriminate; try reflexivity|]). discriminate. Qed.

Lemma exit_cwd_act (w w' : W) : exit_cwd w = Ret (tt, w') -> act (w_cur w) (set_cwd None) w w'.
Proof.
  unfold exit_cwd. intros (p & w1 & [= <- <-] & H)%K_bind_Ret. pose proof (act_refl (w_cur w) w) as A. follow A H x1 E1.
  eapply acts_bind in H as (x2 & w2 & A2 & E2 & H); [clear A|exact A|apply quiet_acts, quiet_my; intros p; apply quiet_in_fs_].
  eapply acts_bind in H as (x3 & w3 & A3 & E3 & H); [clear A2|exact A2|apply quiet_acts, quiet_my; intros p; apply quiet_in_fs_].
  unfold upd_cur in H. apply K_bind_Ret in H as (i & w4 & [= <- <-] & H).
  rewrite (act_cur _ _ _ _ A3) in H. apply acts_upd in H. exact (act_trans _ _ _ _ _ _ A3 H).
Qed.

Lemma closing_act (w w' : W) : closing w = Ret (tt, w') -> act (w_cur w) (fun p => set_cwd None (set_ofile (closed (seqZ 0 NOFILE) (p_ofile p)) p)) w w'.
Proof.
  unfold closing. intros ([] & w1 & E & H)%K_bind_Ret. apply close_loop in E. apply exit_cwd_act in H. rewrite (act_cur _ _ _ _ E) in H.
  exact (act_trans _ _ _ _ _ _ E H).
Qed.

Definition parent_chan (p : proc) : chan := match p_parent p with Some q => ChProc q | None => NoChan end.

(** Slot [j] after the last section of [exit], and after all of it. *)
Definition buried (status : Z) (w : W) (j : Z) (x : proc) : proc :=
  let cur := w_cur w in
  let init := w_initproc w in
  let x := wake_if (has_child cur pids w) cur (ChProc (nat_of init)) j (adopt cur init x) in
  let x := wake cur (parent_chan (adopt cur init (proc_at w cur))) j x in
  if decide (j = cur) then set_state ZOMBIE (set_xstate status x) else x.

Definition exited (status : Z) (w : W) (j : Z) (x : proc) : proc :=
  buried status w j (if decide (j = w_cur w) then set_cwd None (set_ofile (closed (seqZ 0 NOFILE) (p_ofile x)) x) else x).

Lemma wake_if_parent b cur c j x : p_parent (wake_if b cur c j x) = p_parent x.
Proof. destruct b; [apply wake_parent|done]. Qed.

Lemma exit_zombie_bind status (w : W) : exit_zombie status w =
  (reparent (w_cur w);; p ← myproc; wakeup (parent_chan p);; upd_cur (fun p => set_state ZOMBIE (set_xstate status p))) w.
Proof.
  unfold exit_zombie. unfold mbind, K_bind. cbn [gets]. destruct (reparent (w_cur w) w) as [[[] w6]| | |]; [|done..].
  cbn [myproc gets]. unfold parent_chan. by destruct (p_parent _).
Qed.

(** The last section cannot fail. *)
Lemma exit_zombie_spec status (w : W) : slot (w_cur w) -> exists w', exit_zombie status w = Ret (tt, w') /\ maps_slots (buried status w) w w'.
Proof.
  intros Hs. rewrite exit_zombie_bind. set (cur := w_cur w) in *.
  destruct (reparent_spec cur w) as (w3 & E3 & M3). unfold mbind at 1, K_bind at 1. rewrite E3. cbv beta iota. fold cur in M3.
  unfold mbind at 1, K_bind at 1. cbn [myproc gets]. rewrite (ms_cur _ _ _ M3). fold cur.
  set (c := parent_chan (proc_at w3 cur)). destruct (wakeup_spec c w3) as (w4 & E4 & M4). unfold mbind at 1, K_bind at 1. rewrite E4. cbv beta iota.
  rewrite (ms_cur _ _ _ M3) in M4. fold cur in M4. unfold upd_cur, mbind, K_bind. cbn [gets upd_proc modify].
  rewrite (ms_cur _ _ _ M4), (ms_cur _ _ _ M3). fold cur. eexists. split; [done|].
  eapply maps_ext; [apply (maps_trans _ _ _ _ _ M3 (maps_trans _ _ _ _ _ M4 (act_maps _ _ _ _ (upd_act cur (fun p => set_state ZOMBIE (set_xstate status p)) w4))))|].
  intros j Hj. cbn beta. unfold buried. fold cur. replace c with (parent_chan (adopt cur (w_initproc w) (proc_at w cur))); [done|].
  unfold c, parent_chan. by rewrite (ms_slot _ _ _ M3 cur Hs), wake_if_parent.
Qed.

Lemma has_child_same cur l w w1 : (forall j, p_parent (proc_at w1 j) = p_parent (proc_at w j)) -> has_child cur l w1 = has_child cur l w.
Proof. intros E. unfold has_child, is_child. induction l as [|k l IH]; [done|]. cbn [existsb]. by rewrite IH, E. Qed.

Lemma parent_chan_closed cur init l p : parent_chan (adopt cur init (set_cwd None (set_ofile l p))) = parent_chan (adopt cur init p).
Proof. unfold parent_chan, adopt, is_child. cbn [p_parent set_cwd set_ofile]. by destruct (bool_decide _). Qed.

(** Once the files are given back [exit] cannot fail. *)
Lemma exit_spec status (w w1 : W) : w_cur w <> w_initproc w -> slot (w_cur w) -> closing w = Ret (tt, w1) ->
  exists w', exit status w = Ret (tt, w') /\ maps_slots (exited status w) w w'.
Proof.
  intros Hi Hs E. pose proof (closing_act _ _ E) as A.
  destruct (exit_zombie_spec status w1) as (w' & E' & M); [by rewrite (act_cur _ _ _ _ A)|]. exists w'. split.
  - unfold exit. unfold mbind at 1 2, K_bind at 1 2. cbn [gets]. rewrite (proj2 (Z.eqb_neq _ _)) by done.
    unfold closing in E. apply K_bind_Ret in E as ([] & w2 & E1 & E2). unfold mbind, K_bind. by rewrite E1, E2.
  - eapply maps_ext; [apply (maps_trans _ _ _ _ _ (act_maps _ _ _ _ A) M)|]. intros j Hj. cbn beta. unfold exited, buried.
    rewrite (act_cur _ _ _ _ A), (act_init _ _ _ _ A).
    rewrite (has_child_same (w_cur w) pids w w1).
    2: { intros k. destruct (decide (k = w_cur w)) as [->|Hk]; [by rewrite (act_slot _ _ _ _ A)|by rewrite (act_rest _ _ _ _ A)]. }
    rewrite (act_slot _ _ _ _ A), parent_chan_closed. done.
Qed.

(** ** [wait] *)

Lemma wait_scan_spec l (w : W) b : 
  match wait_scan l w b with
  | inl i => i ∈ l /\ is_child (w_cur w) (proc_at w i) /\ p_state (proc_at w i) = ZOMBIE
  | inr b' => b' = b || has_child (w_cur w) l w
              /\ forall i, i ∈ l -> is_child (w_cur w) (proc_at w i) -> p_state (proc_at w i) <> ZOMBIE
  end.
Proof.
  revert b. induction l as [|i l IH]; intros b; cbn [wait_scan]; [split; [by rewrite orb_false_r|by intros i ?%not_elem_of_nil]|].
  fold (is_child (w_cur w) (proc_at w i)). destruct (is_child (w_cur w) (proc_at w i)) eqn:Ec.
  - case_bool_decide as Ez; [split; [apply list_elem_of_here|rewrite Ec; by split]|]. specialize (IH true). destruct (wait_scan l w true) as [k|b'].
    + destruct IH as [IH1 IH2]. split; [by apply list_elem_of_further|exact IH2].
    + unfold has_child. cbn [existsb]. rewrite Ec. destruct IH as [-> IH]. split; [by rewrite orb_true_r|]. intros k [->|Hk]%elem_of_cons; [done|by apply IH].
  - specialize (IH b). destruct (wait_scan l w b) as [k|b'].
    + destruct IH as [IH1 IH2]. split; [by apply list_elem_of_further|exact IH2].
    + unfold has_child. cbn [existsb]. rewrite Ec. destruct IH as [-> IH]. split; [done|]. intros k [->|Hk]%elem_of_cons; [by rewrite Ec|by apply IH].
Qed.

Lemma gets_Ret {A} (f : W -> A) w a w' : gets f w = Ret (a, w') -> f w = a /\ w = w'.
Proof. by intros [= <- <-]. Qed.

Lemma wait_spec addr (w w' : W) r : wait addr w = Ret (r, w') ->
  (r = -1 /\ maps_slots (fun _ p => p) w w')
  \/ exists i, slot i /\ is_child (w_cur w) (proc_at w i) /\ p_state (proc_at w i) = ZOMBIE /\ r = p_pid (proc_at w i) /\ act i freed w w'.
Proof.
  unfold wait. intros (x & w0 & [<- <-]%gets_Ret & H)%K_bind_Ret. pose proof (wait_scan_spec pids w false) as Hs. destruct (wait_scan pids w false) as [i|b].
  - destruct Hs as (Hi%slot_pids & Hc & Hz). apply K_bind_Ret in H as (np & w1 & [= <- <-] & H). pose proof (act_refl i w) as A.
    eapply acts_bind in H as (e & w2 & A1 & E & H); [clear A|exact A|destruct (nz addr); eauto with acts]. cbn beta in A1. destruct (e <? 0).
    + injection H as <- <-. left. split; [done|]. split; [apply (act_cur _ _ _ _ A1)|apply (act_init _ _ _ _ A1)|apply (act_pid _ _ _ _ A1)|]. intros j _.
      destruct (decide (j = i)) as [->|Hj]; [apply (act_slot _ _ _ _ A1)|by apply (act_rest _ _ _ _ A1)].
    + apply (freeproc_fails _ _ _ _ _ _ _ A1) in H as [-> A2]. right. exists i. auto.
  - apply K_bind_Ret in H as (p & w1 & [= <- <-] & H). destruct (negb b || nz _); [|done]. injection H as <- <-. left. by split.
Qed.

End Ops.

End ProcSlots.
