(* ===== verification/ProcLife.v ===== *)
(** * The life of processes

    The process table as a family: over every interleaving of the lock sections
    of [fork] and [exit] with [wait], [kill], scheduling, sleeping and waking, on
    any CPU, the pids of the processes are distinct, every process other than
    [initproc] has a parent that can still wait for it or is about to get one,
    and a free slot holds nothing.  A scan of the table is one step. *)

From S2P Require Import Prelude Riscv KString Kalloc ProcDefs Vm UserMem Pipe Uart Console Block.
From S2P Require Import Sleeplock Bio Log BlockIO Fs World File FsSpec FileSpec Proc ProcSlots.
From stdpp Require Import base functions list numbers gmap strings relations sets.
From Stdlib Require Import ZArith Lia.

#[local] Open Scope Z_scope.

Import ProcVm Proc FileSpec ProcSlots.

Module ProcLife.

Definition no_files : list (option nat) := replicate (Z.to_nat NOFILE) None.

(** A free slot: no pid, no parent, no memory, no open file. *)
Record blank (p : proc) : Prop := MkBlank {
  bl_pid : p_pid p = 0;
  bl_parent : p_parent p = None;
  bl_tables : p_pagetable p = 0 /\ p_kerntable p = 0 /\ p_trapframe p = 0 /\ p_sz p = 0;
  bl_files : p_ofile p = no_files
}.

Definition has_memory (p : proc) : Prop := p_pagetable p <> 0 /\ p_kerntable p <> 0 /\ p_trapframe p <> 0.

(** A process that can run or will be woken. *)
Definition alive (p : proc) : Prop := p_state p <> UNUSED /\ p_state p <> ZOMBIE.

Lemma merge_no_files ofile : length ofile = Z.to_nat NOFILE -> merge ofile 0 no_files = ofile.
Proof. intros H. unfold no_files. rewrite <- H. apply (merge_blank ofile []). Qed.

(** A process that the scheduler may run or will run again. *)
Definition going (p : proc) : Prop := alive p /\ p_state p <> USED.

(** A change of a slot that is not a birth or a death, and one that keeps the
    parent too. *)
Record alike (p p' : proc) : Prop := MkAlike {
  al_pid : p_pid p' = p_pid p;
  al_unused : p_state p' = UNUSED <-> p_state p = UNUSED;
  al_zombie : p_state p' = ZOMBIE <-> p_state p = ZOMBIE;
  al_parent : p_state p = UNUSED -> p_parent p' = p_parent p;
  al_files : length (p_ofile p') = length (p_ofile p);
  al_still : p_state p = UNUSED \/ p_state p = ZOMBIE -> p_ofile p' = p_ofile p;
  al_tables : p_pagetable p' = p_pagetable p /\ p_kerntable p' = p_kerntable p /\ p_trapframe p' = p_trapframe p /\ p_sz p' = p_sz p
              \/ p_state p <> UNUSED /\ has_memory p'
}.

Record mild (p p' : proc) : Prop := MkMild {
  mi_alike : alike p p';
  mi_parent : p_parent p' = p_parent p;
  mi_used : p_state p' = USED <-> p_state p = USED
}.

Lemma mild_refl p : mild p p.
Proof. split; [split|..]; auto. Qed.

Lemma mild_state s p : going p -> going (set_state s p) -> mild p (set_state s p).
Proof.
  intros [[H1 H2] H3] [[H4 H5] H6]. cbn [p_state set_state] in *.
  split; [split|..]; cbn [p_pid p_parent p_state p_ofile set_state p_pagetable p_kerntable p_trapframe p_sz]; auto; tauto.
Qed.

Lemma mild_chan c p : mild p (set_chan c p).
Proof. split; [split|..]; auto. Qed.
Lemma mild_killed v p : mild p (set_killed v p).
Proof. split; [split|..]; auto. Qed.

Lemma mild_trans p q r : mild p q -> mild q r -> mild p r.
Proof.
  intros [[A1 A3 A4 A2 A6 A7 A8] A9 A5] [[B1 B3 B4 B2 B6 B7 B8] B9 B5]. split; [split|..]; [congruence|tauto|tauto|congruence|congruence| | |congruence|tauto].
  - intros H. rewrite B7 by tauto. by apply A7.
  - destruct B8 as [(E1 & E2 & E3 & E4)|[H HM]]; [|right; tauto]. unfold has_memory in *. rewrite E1, E2, E3, E4. tauto.
Qed.

Lemma going_of p : p_state p = RUNNABLE \/ p_state p = RUNNING \/ p_state p = SLEEPING -> going p.
Proof. unfold going, alive. intros [-> | [-> | ->]]; done. Qed.

Lemma mild_going p p' : mild p p' -> going p -> going p'.
Proof. intros [[_ H3 H4 _ _ _ _] _ H5]. unfold going, alive. tauto. Qed.

Lemma wake_keeps cur c j x : exists s, wake cur c j x = set_state s x /\ (s = p_state x \/ p_state x = SLEEPING /\ s = RUNNABLE).
Proof.
  unfold wake. destruct (_ && _) eqn:E; [|exists (p_state x); split; [by destruct x|by left]]. apply andb_prop in E as [[_ E]%andb_prop _].
  apply bool_decide_eq_true in E. exists RUNNABLE. auto.
Qed.

Lemma mild_wake cur c j p : mild p (wake cur c j p).
Proof.
  destruct (wake_keeps cur c j p) as (s & -> & [-> | [E ->]]); [destruct p; apply mild_refl|]. apply mild_state; apply going_of; auto.
Qed.

(** ** Calls in progress *)

(** What a process has done of a [fork] or an [exit] whose lock sections other
    processes may come between: it has made the child of slot [i], it has also
    become its parent, it has closed the descriptors below [fd], it has given
    back all files and its directory. *)
Inductive activity : Type :=
| Idle
| Forked (i : Z)
| Parented (i : Z)
| Exiting (fd : Z)
| Left.

#[global] Instance activity_eq_dec : EqDecision activity.
Proof. solve_decision. Defined.

Definition forks (a : activity) (i : Z) : Prop := a = Forked i \/ a = Parented i.

Section Life.
Context {T D : Type} `{BIO : BlockIO T} `{UD : UartDev D} `{L : Layout}.
Context (forkret_addr : Z).

Abbreviation W := (world T D).

Definition doing (w : W) (q : Z) (a : activity) : Prop :=
  match a with
  | Idle => True
  | Forked i => going (proc_at w q) /\ slot i /\ p_state (proc_at w i) = USED /\ p_parent (proc_at w i) = None
  | Parented i => going (proc_at w q) /\ slot i /\ p_state (proc_at w i) = USED /\ p_parent (proc_at w i) = Some (nat_of q)
  | Exiting fd => going (proc_at w q) /\ q <> w_initproc w /\ 0 <= fd <= NOFILE
      /\ forall k, 0 <= k < fd -> p_ofile (proc_at w q) !! Z.to_nat k = Some None
  | Left => going (proc_at w q) /\ q <> w_initproc w /\ p_ofile (proc_at w q) = no_files /\ p_cwd (proc_at w q) = None
  end.

(** [b] gives the call each process is in. *)
Record pinv (b : Z -> activity) (w : W) : Prop := MkPinv {
  pv_init : slot (w_initproc w) /\ alive (proc_at w (w_initproc w));
  pv_next : 0 < w_nextpid w < 2 ^ 31;
  pv_blank : forall i, slot i -> p_state (proc_at w i) = UNUSED -> blank (proc_at w i);
  pv_pid : forall i, slot i -> p_state (proc_at w i) <> UNUSED -> 0 < p_pid (proc_at w i) < w_nextpid w;
  pv_uniq : forall i j, slot i -> slot j -> p_state (proc_at w i) <> UNUSED -> p_state (proc_at w j) <> UNUSED -> p_pid (proc_at w i) = p_pid (proc_at w j) -> i = j;
  pv_parent : forall i, slot i -> p_state (proc_at w i) <> UNUSED -> i <> w_initproc w ->
    (exists q, p_parent (proc_at w i) = Some (nat_of q) /\ slot q /\ alive (proc_at w q)) \/ (exists q, slot q /\ b q = Forked i);
  pv_files : forall i, slot i -> length (p_ofile (proc_at w i)) = Z.to_nat NOFILE;
  pv_zombie : forall i, slot i -> p_state (proc_at w i) = ZOMBIE -> p_ofile (proc_at w i) = no_files;
  pv_memory : forall i, slot i -> p_state (proc_at w i) <> UNUSED -> has_memory (proc_at w i);
  pv_busy : forall q, slot q -> doing w q (b q);
  pv_forks : forall q r i, slot q -> slot r -> forks (b q) i -> forks (b r) i -> q = r
}.

Lemma doing_going w q a : doing w q a -> a <> Idle -> going (proc_at w q).
Proof. destruct a; [done|by intros [? _]..]. Qed.

Lemma doing_forks w q a i : doing w q a -> forks a i -> slot i /\ p_state (proc_at w i) = USED.
Proof. intros H [-> | ->]; by destruct H as (_ & ? & ? & _). Qed.

(** What a call in progress relies on. *)
Lemma doing_same w w' q a : w_initproc w' = w_initproc w -> (going (proc_at w q) -> going (proc_at w' q)) ->
  (forall i, forks a i -> p_state (proc_at w' i) = p_state (proc_at w i) /\ p_parent (proc_at w' i) = p_parent (proc_at w i)) ->
  (a <> Idle -> p_ofile (proc_at w' q) = p_ofile (proc_at w q) /\ p_cwd (proc_at w' q) = p_cwd (proc_at w q)) -> doing w q a -> doing w' q a.
Proof.
  intros Ei Hg Hf Ho. destruct a as [|i|i|fd|]; cbn [doing]; rewrite ?Ei; [done|..].
  - intros (H1 & H2 & H3 & H4). destruct (Hf i ltac:(by left)) as [-> ->]. auto.
  - intros (H1 & H2 & H3 & H4). destruct (Hf i ltac:(by right)) as [-> ->]. auto.
  - intros (H1 & H2 & H3 & H4). destruct (Ho ltac:(done)) as [-> _]. auto.
  - intros (H1 & H2 & H3 & H4). destruct (Ho ltac:(done)) as [-> ->]. auto.
Qed.

Lemma alike_alive p p' : alike p p' -> alive p -> alive p'.
Proof. intros [_ H3 H4 _ _ _ _]. unfold alive. tauto. Qed.

Lemma alike_blank p p' : alike p p' -> p_state p = UNUSED -> blank p -> blank p'.
Proof.
  intros [H1 H3 H4 H2 H5 H6 H7] E [B1 B2 B3 B4]. destruct H7 as [(E1 & E2 & E3 & E4)|[H _]]; [|done].
  split; [congruence|by rewrite H2| |by rewrite H6 by (by left)]. by rewrite E1, E2, E3, E4.
Qed.

(** A step with no birth or death keeps the invariant if it keeps what it says of
    parents and calls in progress. *)
Lemma pinv_alike b b' w w' : w_initproc w' = w_initproc w -> w_nextpid w' = w_nextpid w -> (forall j, slot j -> alike (proc_at w j) (proc_at w' j)) ->
  (forall i, slot i -> p_state (proc_at w i) <> UNUSED -> i <> w_initproc w ->
    (exists q, p_parent (proc_at w' i) = Some (nat_of q) /\ slot q /\ alive (proc_at w q)) \/ (exists q, slot q /\ b' q = Forked i)) ->
  (forall q, slot q -> doing w' q (b' q)) -> (forall q r i, slot q -> slot r -> forks (b' q) i -> forks (b' r) i -> q = r) -> pinv b w -> pinv b' w'.
Proof.
  intros Ei En Hm Hpar Hbusy Hforks [I1 I2 I3 I4 I5 I6 I7 I8 I9 I10 I11]. split; rewrite ?Ei, ?En; [|done|..|done|done].
  - split; [apply I1|]. apply (alike_alive _ _ (Hm _ (proj1 I1))), I1.
  - intros i Hi E. apply (alike_blank _ _ (Hm i Hi)); [|apply I3; [done|]]; by apply (al_unused _ _ (Hm i Hi)).
  - intros i Hi E. rewrite (al_pid _ _ (Hm i Hi)). apply I4; [done|]. by rewrite <- (al_unused _ _ (Hm i Hi)).
  - intros i j Hi Hj E1 E2. rewrite (al_pid _ _ (Hm i Hi)), (al_pid _ _ (Hm j Hj)). apply I5; [done..| |]; [by rewrite <- (al_unused _ _ (Hm i Hi))|by rewrite <- (al_unused _ _ (Hm j Hj))].
  - intros i Hi E Hne. destruct (Hpar i Hi) as [(q & Hq & Hs & Ha)|H]; [by rewrite <- (al_unused _ _ (Hm i Hi))|done| |by right].
    left. exists q. split; [done|]. split; [done|]. by apply (alike_alive _ _ (Hm q Hs)).
  - intros i Hi. rewrite (al_files _ _ (Hm i Hi)). by apply I7.
  - intros i Hi E. apply (al_zombie _ _ (Hm i Hi)) in E. rewrite (al_still _ _ (Hm i Hi)) by auto. by apply I8.
  - intros i Hi E. rewrite (al_unused _ _ (Hm i Hi)) in E. destruct (al_tables _ _ (Hm i Hi)) as [(E1 & E2 & E3 & _)|[_ H]]; [|done].
    unfold has_memory. rewrite E1, E2, E3. by apply I9.
Qed.

Lemma pinv_mild b w w' : w_initproc w' = w_initproc w -> w_nextpid w' = w_nextpid w -> (forall j, slot j -> mild (proc_at w j) (proc_at w' j)) ->
  (forall j, slot j -> b j <> Idle -> p_ofile (proc_at w' j) = p_ofile (proc_at w j) /\ p_cwd (proc_at w' j) = p_cwd (proc_at w j)) -> pinv b w -> pinv b w'.
Proof.
  intros Ei En Hm Ho I. apply (pinv_alike b b w); [done|done| | | |apply (pv_forks _ _ I)|done].
  - intros j Hj. apply (Hm j Hj).
  - intros i Hi E Hne. rewrite (mi_parent _ _ (Hm i Hi)). by apply (pv_parent _ _ I).
  - intros q Hq. pose proof (pv_busy _ _ I q Hq) as Hd. apply (doing_same w); [done|apply (mild_going _ _ (Hm q Hq))| |by apply Ho|done].
    intros i Hi. destruct (doing_forks _ _ _ _ Hd Hi) as [Hs Hu]. split; [|apply (mi_parent _ _ (Hm i Hs))]. rewrite Hu. by apply (mi_used _ _ (Hm i Hs)).
Qed.

(** The process of slot [q] goes on to [a], with no change in the slots other
    processes work on. *)
Lemma forks_become (b : Z -> activity) q a : (forall i, forks a i -> forks (b q) i) -> forall p i, forks ((<[q := a]> b) p) i -> forks (b p) i.
Proof. intros H p i. destruct (decide (p = q)) as [->|Hp]; [rewrite fn_lookup_insert; apply H|by rewrite fn_lookup_insert_ne]. Qed.

(** ** Births *)

Lemma find_unused_slot (w : W) i : find_unused w = Some i -> slot i /\ p_state (proc_at w i) = UNUSED.
Proof.
  unfold find_unused. intros H. apply find_some in H as [H1 H2]. apply bool_decide_eq_true in H2. split; [|done]. apply slot_pids. by apply list_elem_of_In.
Qed.

(** The calls in progress when only slot [i], which was free, changes. *)
Lemma doing_fresh w w' q a i : w_initproc w' = w_initproc w -> p_state (proc_at w i) = UNUSED -> (forall j, j <> i -> proc_at w' j = proc_at w j) ->
  doing w q a -> doing w' q a.
Proof.
  intros Ei Hu Hr Hd. destruct (decide (a = Idle)) as [->|Ha]; [done|]. assert (Hq : q <> i) by (intros ->; by destruct (doing_going _ _ _ Hd Ha) as [[? _] _]).
  apply (doing_same w); [done|by rewrite Hr| |by rewrite Hr|done]. intros k Hk. destruct (doing_forks _ _ _ _ Hd Hk) as [_ Hs]. rewrite Hr; [done|]. by intros ->; rewrite Hs in Hu.
Qed.

(** Slot [i] is free again after a failure. *)
Lemma pinv_failed b w w' i q : pinv b w -> w_nextpid w < 2 ^ 31 - 1 -> slot i -> p_state (proc_at w i) = UNUSED -> born i w w' -> p_ofile q = p_ofile (proc_at w i) ->
  proc_at w' i = freed q -> pinv b w'.
Proof.
  intros [I1 I2 I3 I4 I5 I6 I7 I8 I9 I10 I11] Hnx Hi Hu [B1 B2 B3 B4] Eq Ef. rewrite s32_small in B3 by lia. assert (Hne : forall j, p_state (proc_at w j) <> UNUSED -> j <> i) by (by intros j Hj ->).
  assert (Hu' : p_state (proc_at w' i) = UNUSED) by (by rewrite Ef).
  assert (Hb : blank (proc_at w' i)) by (rewrite Ef; split; simpl; auto; rewrite Eq; by apply I3).
  assert (Hne' : forall j, p_state (proc_at w' j) <> UNUSED -> j <> i) by (by intros j Hj ->).
  split; rewrite ?B2, ?B3; [|lia|..|done].
  - rewrite B4; [done|]. apply Hne, I1.
  - intros j Hj E. destruct (decide (j = i)) as [->|Hj']; [done|]. rewrite B4 in E |- * by done. by apply I3.
  - intros j Hj E. pose proof (Hne' j E) as Hj'. rewrite B4 in E |- * by done. specialize (I4 j Hj E). lia.
  - intros j k Hj Hk E1 E2. pose proof (Hne' j E1). pose proof (Hne' k E2). rewrite !B4 in * by done. by apply I5.
  - intros j Hj E Hni. pose proof (Hne' j E). rewrite B4 in E |- * by done. destruct (I6 j Hj E Hni) as [(p & Hp & Hs & Ha)|H2]; [|by right]. left. exists p. rewrite B4; [done|]. apply Hne, Ha.
  - intros j Hj. destruct (decide (j = i)) as [->|Hj']; [rewrite (bl_files _ Hb); done|]. rewrite B4 by done. by apply I7.
  - intros j Hj E. assert (j <> i) by (intros ->; congruence). rewrite B4 in E |- * by done. by apply I8.
  - intros j Hj E. pose proof (Hne' j E). rewrite B4 in E |- * by done. by apply I9.
  - intros p Hp. apply (doing_fresh w _ _ _ i); auto.
Qed.

Definition running (w : W) : Prop := slot (w_cur w) /\ p_state (proc_at w (w_cur w)) = RUNNING.

Lemma running_going w : running w -> going (proc_at w (w_cur w)).
Proof. intros [_ E]. apply going_of. auto. Qed.

(** A child in slot [i], whose parent is not yet set. *)
Lemma pinv_forked b w w' i : pinv b w -> w_nextpid w < 2 ^ 31 - 1 -> running w -> b (w_cur w) = Idle -> slot i -> p_state (proc_at w i) = UNUSED -> born i w w' ->
  p_pid (proc_at w' i) = w_nextpid w -> p_state (proc_at w' i) = USED -> p_parent (proc_at w' i) = None -> length (p_ofile (proc_at w' i)) = Z.to_nat NOFILE ->
  has_memory (proc_at w' i) -> pinv (<[w_cur w := Forked i]> b) w'.
Proof.
  intros I Hnx R Hb Hi Hu [B1 B2 B3 B4] Ep Es Epar Hf Hm. rewrite s32_small in B3 by (pose proof (pv_next _ _ I); lia).
  pose proof (pv_busy _ _ I) as Hd. destruct I as [I1 I2 I3 I4 I5 I6 I7 I8 I9 _ I11].
  assert (Hne : forall j, p_state (proc_at w j) <> UNUSED -> j <> i) by (by intros j Hj ->).
  assert (Hc : w_cur w <> i) by (apply Hne; by destruct (running_going w R) as [[? _] _]).
  assert (Hal : forall j, alive (proc_at w j) -> alive (proc_at w' j)) by (intros j Hj; rewrite B4; [done|apply Hne, Hj]).
  assert (Hlt : forall j, slot j -> j <> i -> p_state (proc_at w' j) <> UNUSED -> 0 < p_pid (proc_at w' j) < w_nextpid w).
  { intros j Hj Hji E. rewrite B4 in E |- * by done. by apply I4. }
  assert (Hnew : forall q, slot q -> ~ forks (b q) i) by (intros q Hq Hk; destruct (doing_forks _ _ _ _ (Hd q Hq) Hk) as [_ Hs]; congruence).
  split; rewrite ?B2, ?B3; [|lia|..].
  - split; [apply I1|]. apply Hal, I1.
  - intros j Hj E. destruct (decide (j = i)) as [->|Hj']; [congruence|]. rewrite B4 in E |- * by done. by apply I3.
  - intros j Hj E. destruct (decide (j = i)) as [->|Hj']; [rewrite Ep; lia|]. specialize (Hlt j Hj Hj' E). lia.
  - intros j k Hj Hk E1 E2 E. destruct (decide (j = i)) as [->|Hj'], (decide (k = i)) as [->|Hk']; [done| | |].
    + specialize (Hlt k Hk Hk' E2). lia.
    + specialize (Hlt j Hj Hj' E1). lia.
    + rewrite !B4 in * by done. by apply I5.
  - intros j Hj E Hni. destruct (decide (j = i)) as [->|Hj'].
    + right. exists (w_cur w). split; [apply R|]. by rewrite fn_lookup_insert.
    + rewrite B4 in E |- * by done. destruct (I6 j Hj E Hni) as [(q & Hq & Hs & Hqa)|(q & Hq & Eq)]; [left; exists q; auto|right]. exists q. split; [done|].
      rewrite fn_lookup_insert_ne; [done|]. intros <-. congruence.
  - intros j Hj. destruct (decide (j = i)) as [->|Hj']; [done|]. rewrite B4 by done. by apply I7.
  - intros j Hj E. destruct (decide (j = i)) as [->|Hj']; [congruence|]. rewrite B4 in E |- * by done. by apply I8.
  - intros j Hj E. destruct (decide (j = i)) as [->|Hj']; [done|]. rewrite B4 in E |- * by done. by apply I9.
  - intros q Hq. destruct (decide (q = w_cur w)) as [->|Hqc].
    + rewrite fn_lookup_insert. cbn [doing]. rewrite (B4 _ Hc). split; [by apply running_going|]. auto.
    + rewrite fn_lookup_insert_ne by done. apply (doing_fresh w _ _ _ i); auto.
  - assert (Hx : forall q k, slot q -> forks ((<[w_cur w := Forked i]> b) q) k -> q = w_cur w /\ k = i \/ q <> w_cur w /\ forks (b q) k).
    { intros q k Hq. destruct (decide (q = w_cur w)) as [->|Hqc]; [rewrite fn_lookup_insert; intros [[= ->]|?]; [by left|done]|]. rewrite fn_lookup_insert_ne by done. by right. }
    intros q r k Hq Hr H1 H2. apply Hx in H1; [|done]. apply Hx in H2; [|done]. destruct H1 as [[E1 E2]|[_ H1]], H2 as [[E3 E4]|[_ H2]].
    + congruence.
    + rewrite E2 in H2. by destruct (Hnew r Hr).
    + rewrite E4 in H1. by destruct (Hnew q Hq).
    + by apply (I11 q r k).
Qed.

(** The child gets its parent. *)
Lemma pinv_parented b w w' i : pinv b w -> running w -> b (w_cur w) = Forked i -> act i (set_parent (Some (nat_of (w_cur w)))) w w' ->
  pinv (<[w_cur w := Parented i]> b) w'.
Proof.
  intros I R Hb [A1 A2 A3 A4 A5]. pose proof (pv_busy _ _ I (w_cur w) (proj1 R)) as Hd. rewrite Hb in Hd. destruct Hd as (Hg & Hi & Hu & Hp).
  assert (Hic : w_cur w <> i) by (intros E; rewrite <- E in Hu; by destruct Hg).
  assert (Hf : forall p k, forks ((<[w_cur w := Parented i]> b) p) k -> forks (b p) k) by (apply forks_become; intros k [?|[= <-]]; [done|left; by rewrite Hb]).
  apply (pinv_alike b _ w); [done|done| | | | |done].
  - intros j Hj. destruct (decide (j = i)) as [->|Hne]; [rewrite A4|rewrite A5 by done; apply mild_refl]. split; cbn; auto. by rewrite Hu.
  - intros j Hj E Hne. destruct (decide (j = i)) as [->|Hji].
    + left. exists (w_cur w). rewrite A4. split; [done|]. split; [apply R|apply Hg].
    + rewrite A5 by done. destruct (pv_parent _ _ I j Hj E Hne) as [H|(q & Hq & Eq)]; [by left|right]. exists q. split; [done|].
      rewrite fn_lookup_insert_ne; [done|]. intros <-. congruence.
  - intros q Hq. destruct (decide (q = w_cur w)) as [->|Hqc].
    + rewrite fn_lookup_insert. cbn [doing]. rewrite A4, (A5 (w_cur w)) by done. auto.
    + rewrite fn_lookup_insert_ne by done. pose proof (pv_busy _ _ I q Hq) as Hd. assert (Hk : forall k, forks (b q) k -> k <> i).
      { intros k Hk ->. apply Hqc, (pv_forks _ _ I q (w_cur w) i); [done|apply R|done|left; done]. }
      apply (doing_same w); [done| | | |done].
      * destruct (decide (q = i)) as [->|]; [rewrite A4|by rewrite A5]. done.
      * intros k Hfk. by rewrite A5 by (by apply Hk).
      * intros _. destruct (decide (q = i)) as [->|]; [rewrite A4|rewrite A5 by done]; done.
  - intros q r k Hq Hr Hfq Hfr. apply (pv_forks _ _ I q r k); auto.
Qed.

(** The child may run. *)
Lemma pinv_runs b w w' i : pinv b w -> running w -> b (w_cur w) = Parented i -> act i (set_state RUNNABLE) w w' -> pinv (<[w_cur w := Idle]> b) w'.
Proof.
  intros I R Hb [A1 A2 A3 A4 A5]. pose proof (pv_busy _ _ I (w_cur w) (proj1 R)) as Hd. rewrite Hb in Hd. destruct Hd as (Hg & Hi & Hu & Hp).
  assert (Hic : w_cur w <> i) by (intros E; rewrite <- E in Hu; by destruct Hg).
  assert (Hf : forall p k, forks ((<[w_cur w := Idle]> b) p) k -> forks (b p) k) by (apply forks_become; by intros k [?|?]).
  apply (pinv_alike b _ w); [done|done| | | | |done].
  - intros j Hj. destruct (decide (j = i)) as [->|Hne]; [rewrite A4|rewrite A5 by done; apply mild_refl]. split; cbn; auto; rewrite Hu; done.
  - intros j Hj E Hne. replace (p_parent (proc_at w' j)) with (p_parent (proc_at w j)) by (destruct (decide (j = i)) as [->|]; [by rewrite A4|by rewrite A5]).
    destruct (pv_parent _ _ I j Hj E Hne) as [H|(q & Hq & Eq)]; [by left|right]. exists q. split; [done|]. rewrite fn_lookup_insert_ne; [done|]. intros <-. congruence.
  - intros q Hq. destruct (decide (q = w_cur w)) as [->|Hqc]; [by rewrite fn_lookup_insert|]. rewrite fn_lookup_insert_ne by done.
    pose proof (pv_busy _ _ I q Hq) as Hd. assert (Hk : forall k, forks (b q) k -> k <> i).
    { intros k Hk ->. apply Hqc, (pv_forks _ _ I q (w_cur w) i); [done|apply R|done|right; done]. }
    apply (doing_same w); [done| | | |done].
    + destruct (decide (q = i)) as [->|]; [rewrite A4; intros _; apply going_of; by left|by rewrite A5].
    + intros k Hfk. by rewrite A5 by (by apply Hk).
    + intros _. destruct (decide (q = i)) as [->|]; [rewrite A4|rewrite A5 by done]; done.
  - intros q r k Hq Hr Hfq Hfr. apply (pv_forks _ _ I q r k); auto.
Qed.

(** ** Deaths *)

(** The current process, which is not in [fork], changes its files and goes on to
    [a], also outside [fork]. *)
Lemma pinv_goes b w w' g a : pinv b w -> running w -> (forall i, ~ forks (b (w_cur w)) i) -> (forall i, ~ forks a i) -> act (w_cur w) g w w' ->
  mild (proc_at w (w_cur w)) (g (proc_at w (w_cur w))) -> doing w' (w_cur w) a -> pinv (<[w_cur w := a]> b) w'.
Proof.
  intros I R Hb Ha [A1 A2 A3 A4 A5] Hm Hd.
  assert (Hf : forall p k, forks ((<[w_cur w := a]> b) p) k -> forks (b p) k) by (apply forks_become; intros k Hk; by destruct (Ha k)).
  assert (Hmi : forall j, mild (proc_at w j) (proc_at w' j)) by (intros j; destruct (decide (j = w_cur w)) as [->|]; [by rewrite A4|rewrite A5 by done; apply mild_refl]).
  apply (pinv_alike b _ w); [done|done| | | | |done].
  - intros j Hj. apply Hmi.
  - intros j Hj E Hne. rewrite (mi_parent _ _ (Hmi j)). destruct (pv_parent _ _ I j Hj E Hne) as [H|(q & Hq & Eq)]; [by left|right]. exists q. split; [done|].
    rewrite fn_lookup_insert_ne; [done|]. intros E2. apply (Hb j). rewrite E2. by left.
  - intros q Hq. destruct (decide (q = w_cur w)) as [->|Hqc]; [by rewrite fn_lookup_insert|]. rewrite fn_lookup_insert_ne by done.
    pose proof (pv_busy _ _ I q Hq) as Hd'. apply (doing_same w); [done|by rewrite A5| |by rewrite A5|done].
    intros k Hk. destruct (doing_forks _ _ _ _ Hd' Hk) as [_ Hu]. split; [rewrite Hu; by apply (mi_used _ _ (Hmi k))|apply (mi_parent _ _ (Hmi k))].
  - intros q r k Hq Hr Hfq Hfr. apply (pv_forks _ _ I q r k); auto.
Qed.

(** A zombie is reaped. *)
Lemma pinv_reaped b w w' i : pinv b w -> slot i -> p_state (proc_at w i) = ZOMBIE -> act i freed w w' -> pinv b w'.
Proof.
  intros [I1 I2 I3 I4 I5 I6 I7 I8 I9 I10 I11] Hi Hz [B1 B2 B3 B4 B5]. assert (Hne : forall j, alive (proc_at w j) -> j <> i) by (by intros j [_ Hj] ->).
  assert (Hu' : p_state (proc_at w' i) = UNUSED) by (by rewrite B4). assert (Hne' : forall j, p_state (proc_at w' j) <> UNUSED -> j <> i) by (by intros j Hj ->).
  assert (Hb : blank (proc_at w' i)) by (rewrite B4; split; simpl; auto).
  split; rewrite ?B2, ?B3; [|lia|..|done].
  - rewrite B5; [done|]. apply Hne, I1.
  - intros j Hj E. destruct (decide (j = i)) as [->|Hj']; [done|]. rewrite B5 in E |- * by done. by apply I3.
  - intros j Hj E. pose proof (Hne' j E) as Hj'. rewrite B5 in E |- * by done. by apply I4.
  - intros j k Hj Hk E1 E2. pose proof (Hne' j E1). pose proof (Hne' k E2). rewrite !B5 in * by done. by apply I5.
  - intros j Hj E Hni. pose proof (Hne' j E). rewrite B5 in E |- * by done. destruct (I6 j Hj E Hni) as [(p & Hp & Hs & Ha)|H2]; [|by right]. left. exists p. rewrite B5; [done|]. by apply Hne.
  - intros j Hj. destruct (decide (j = i)) as [->|Hj']; [rewrite (bl_files _ Hb); done|]. rewrite B5 by done. by apply I7.
  - intros j Hj E. assert (j <> i) by (intros ->; congruence). rewrite B5 in E |- * by done. by apply I8.
  - intros j Hj E. pose proof (Hne' j E). rewrite B5 in E |- * by done. by apply I9.
  - intros q Hq. pose proof (I10 q Hq) as Hd. destruct (decide (b q = Idle)) as [->|Ha]; [done|].
    assert (q <> i) by (apply Hne, (doing_going _ _ _ Hd Ha)). apply (doing_same w); [done|by rewrite B5| |by rewrite B5|done].
    intros k Hk. destruct (doing_forks _ _ _ _ Hd Hk) as [_ Hs]. rewrite B5; [done|]. intros ->. congruence.
Qed.

Lemma nat_of_inj i j : slot i -> slot j -> nat_of i = nat_of j -> i = j.
Proof. unfold slot, nat_of. lia. Qed.

Lemma adopt_keeps p init x : exists q, adopt p init x = set_parent q x /\ (q = p_parent x /\ p_parent x <> Some (nat_of p) \/ p_parent x = Some (nat_of p) /\ q = Some (nat_of init)).
Proof.
  unfold adopt, is_child. case_bool_decide as E; [exists (Some (nat_of init)); auto|]. exists (p_parent x). split; [by destruct x|auto].
Qed.

(** What the last section of [exit] does to a slot, that of the process that exits
    included: its parent is [initproc] if it was the process, and a sleeper may
    have been woken. *)
Lemma buried_keeps status (w : W) j x : exists s, let x' := set_state s (adopt (w_cur w) (w_initproc w) x) in
  buried status w j x = (if decide (j = w_cur w) then set_state ZOMBIE (set_xstate status x') else x')
  /\ (s = p_state x \/ p_state x = SLEEPING /\ s = RUNNABLE).
Proof.
  unfold buried. set (z := adopt _ _ x). assert (Ez : p_state z = p_state x) by (unfold z; destruct (adopt_keeps (w_cur w) (w_initproc w) x) as (q & -> & _); done).
  set (c := parent_chan _).
  assert (H : exists s1, wake_if (has_child (w_cur w) pids w) (w_cur w) (ChProc (nat_of (w_initproc w))) j z = set_state s1 z /\ (s1 = p_state z \/ p_state z = SLEEPING /\ s1 = RUNNABLE)).
  { unfold wake_if. destruct (has_child _ _ _); [apply wake_keeps|]. exists (p_state z). split; [by destruct z|by left]. }
  destruct H as (s1 & -> & H1). destruct (wake_keeps (w_cur w) c j (set_state s1 z)) as (s2 & -> & H2). cbn [p_state set_state] in H2. exists s2. split; [done|].
  rewrite <- Ez. destruct H1 as [-> | [E1 ->]], H2 as [-> | [E2 ->]]; auto.
Qed.

Lemma exited_other status (w : W) j x : j <> w_cur w -> exited status w j x = buried status w j x.
Proof. intros Hj. unfold exited. by rewrite decide_False. Qed.

(** The slot of the process that exits. *)
Lemma exited_self status (w : W) x : let x' := exited status w (w_cur w) x in
  p_state x' = ZOMBIE /\ p_xstate x' = status /\ p_pid x' = p_pid x /\ p_parent x' = p_parent (adopt (w_cur w) (w_initproc w) x)
  /\ p_ofile x' = closed (seqZ 0 NOFILE) (p_ofile x).
Proof.
  unfold exited. rewrite decide_True by done. set (y := set_cwd None _). destruct (buried_keeps status w (w_cur w) y) as (s & -> & _).
  rewrite decide_True by done. unfold adopt, is_child, y. cbn [p_parent set_cwd set_ofile]. destruct (bool_decide _); simpl; tauto.
Qed.

Lemma exited_parents status (w : W) j x : p_parent (exited status w j x) = p_parent (adopt (w_cur w) (w_initproc w) x).
Proof.
  destruct (decide (j = w_cur w)) as [->|Hne]; [apply exited_self|]. rewrite exited_other by done. destruct (buried_keeps status w j x) as (s & -> & _).
  by rewrite decide_False.
Qed.

(** The last section of [exit]: the process becomes a zombie. *)
Lemma pinv_buried b status w w' : pinv b w -> running w -> b (w_cur w) = Left -> maps_slots (buried status w) w w' -> pinv (<[w_cur w := Idle]> b) w'.
Proof.
  intros I R Hb [E1 E2 E3 E4]. pose proof (pv_busy _ _ I) as Hd. pose proof (Hd (w_cur w) (proj1 R)) as Hl. rewrite Hb in Hl. destruct Hl as (Hg & Hni & Hof & _).
  destruct I as [[Hi Ha] I2 I3 I4 I5 I6 I7 I8 I9 _ I11].
  assert (K : forall j, slot j -> j <> w_cur w -> exists s, proc_at w' j = set_state s (adopt (w_cur w) (w_initproc w) (proc_at w j)) /\ (s = p_state (proc_at w j) \/ p_state (proc_at w j) = SLEEPING /\ s = RUNNABLE)).
  { intros j Hj Hne. rewrite E4 by done. destruct (buried_keeps status w j (proc_at w j)) as (s & -> & Hs). rewrite decide_False by done. by exists s. }
  assert (Kc : exists s, proc_at w' (w_cur w) = set_state ZOMBIE (set_xstate status (set_state s (adopt (w_cur w) (w_initproc w) (proc_at w (w_cur w)))))).
  { rewrite E4 by apply R. destruct (buried_keeps status w (w_cur w) (proc_at w (w_cur w))) as (s & -> & _). rewrite decide_True by done. by exists s. }
  assert (Kx : forall j, slot j -> exists s x, proc_at w' j = set_state s (set_xstate x (adopt (w_cur w) (w_initproc w) (proc_at w j))) /\ (s = UNUSED -> p_state (proc_at w j) = UNUSED)).
  { intros j Hj. destruct (decide (j = w_cur w)) as [->|Hne].
    - destruct Kc as (s & ->). exists ZOMBIE, status. by destruct (adopt _ _ _).
    - destruct (K j Hj Hne) as (s & -> & Hs). exists s, (p_xstate (proc_at w j)). destruct (adopt_keeps (w_cur w) (w_initproc w) (proc_at w j)) as (q & -> & _).
      split; [by destruct (proc_at w j)|]. destruct Hs as [-> | [? ->]]; done. }
  assert (Kn : forall j, slot j -> p_state (proc_at w' j) <> UNUSED -> p_state (proc_at w j) <> UNUSED).
  { intros j Hj H E. destruct (decide (j = w_cur w)) as [->|Hne]; [by destruct Hg as [[? _] _]|]. destruct (K j Hj Hne) as (s & Es & [-> | [? _]]); [|congruence]. rewrite Es in H. done. }
  assert (Kk : forall j, slot j -> p_pid (proc_at w' j) = p_pid (proc_at w j) /\ p_ofile (proc_at w' j) = p_ofile (proc_at w j) /\ p_cwd (proc_at w' j) = p_cwd (proc_at w j)
    /\ p_parent (proc_at w' j) = p_parent (adopt (w_cur w) (w_initproc w) (proc_at w j)) /\ (has_memory (proc_at w j) -> has_memory (proc_at w' j))
    /\ p_pagetable (proc_at w' j) = p_pagetable (proc_at w j) /\ p_kerntable (proc_at w' j) = p_kerntable (proc_at w j) /\ p_trapframe (proc_at w' j) = p_trapframe (proc_at w j) /\ p_sz (proc_at w' j) = p_sz (proc_at w j)).
  { intros j Hj. destruct (Kx j Hj) as (s & x & -> & _). destruct (adopt_keeps (w_cur w) (w_initproc w) (proc_at w j)) as (q & -> & _). done. }
  assert (Kg : forall j, slot j -> j <> w_cur w -> going (proc_at w j) -> going (proc_at w' j)).
  { intros j Hj Hne Hj'. destruct (K j Hj Hne) as (s & -> & [-> | [_ ->]]); [exact Hj'|apply going_of; by left]. }
  assert (Kl : forall j, slot j -> alive (proc_at w j) -> j <> w_cur w -> alive (proc_at w' j)).
  { intros j Hj Hal Hne. destruct (K j Hj Hne) as (s & -> & [-> | [_ ->]]); [exact Hal|done]. }
  assert (Kp : forall j, slot j -> (p_parent (proc_at w' j) = p_parent (proc_at w j) /\ p_parent (proc_at w j) <> Some (nat_of (w_cur w))) \/ p_parent (proc_at w' j) = Some (nat_of (w_initproc w))).
  { intros j Hj. destruct (Kk j Hj) as (_ & _ & _ & -> & _). destruct (adopt_keeps (w_cur w) (w_initproc w) (proc_at w j)) as (q & -> & [[-> ?]|[_ ->]]); auto. }
  split; rewrite ?E2, ?E3; [|done|..].
  - split; [done|]. apply Kl; auto.
  - intros j Hj E. destruct (Kx j Hj) as (s & x & Es & Hu). assert (Hs : s = UNUSED) by (rewrite Es in E; exact E). specialize (Hu Hs).
    pose proof (I3 j Hj Hu) as [C1 C2 C3 C4]. destruct (Kk j Hj) as (D1 & D2 & _ & D4 & _ & D5 & D6 & D7 & D8).
    split; [by rewrite D1| |by rewrite D5, D6, D7, D8|by rewrite D2]. rewrite D4. unfold adopt, is_child. by rewrite C2, bool_decide_eq_false_2.
  - intros j Hj E. destruct (Kk j Hj) as (-> & _). by apply I4, Kn.
  - intros j k Hj Hk H1 H2. destruct (Kk j Hj) as (-> & _). destruct (Kk k Hk) as (-> & _). apply I5; auto.
  - intros j Hj E Hne. destruct (Kp j Hj) as [[Eq Hnc]|Eq]; [|left; exists (w_initproc w); auto].
    destruct (I6 j Hj) as [(q & Hq & Hs & Hqa)|(q & Hq & Ef)]; [auto|done| |].
    + left. exists q. rewrite Eq. split; [done|]. split; [done|]. apply Kl; [done..|]. intros ->. congruence.
    + right. exists q. split; [done|]. rewrite fn_lookup_insert_ne; [done|]. intros <-. congruence.
  - intros j Hj. destruct (Kk j Hj) as (_ & -> & _). by apply I7.
  - intros j Hj E. destruct (Kk j Hj) as (_ & -> & _). destruct (decide (j = w_cur w)) as [->|Hne]; [done|]. apply I8; [done|].
    destruct (K j Hj Hne) as (s & Es & Hs). assert (s = ZOMBIE) by (rewrite Es in E; exact E). destruct Hs as [-> | [_ ->]]; done.
  - intros j Hj E. destruct (Kk j Hj) as (_ & _ & _ & _ & Hm & _). apply Hm, I9; auto.
  - intros q Hq. destruct (decide (q = w_cur w)) as [->|Hqc]; [by rewrite fn_lookup_insert|]. rewrite fn_lookup_insert_ne by done.
    pose proof (Hd q Hq) as Hdq. apply (doing_same w); [done|by apply Kg| | |done].
    + intros k Hk. destruct (doing_forks _ _ _ _ Hdq Hk) as [Hks Hu]. assert (Hkc : k <> w_cur w) by (intros ->; by destruct Hg).
      destruct (K k Hks Hkc) as (s & Es & [-> | [? _]]); [|congruence]. split; [by rewrite Es|]. destruct (Kk k Hks) as (_ & _ & _ & -> & _).
      unfold adopt, is_child. rewrite bool_decide_eq_false_2; [done|]. destruct Hk as [Ek|Ek]; rewrite Ek in Hdq; destruct Hdq as (_ & _ & _ & ->); [done|].
      intros [= Hn]. apply Hqc. by apply nat_of_inj; [|apply R|].
    + intros _. destruct (Kk q Hq) as (_ & -> & -> & _). done.
  - assert (Hf : forall p k, forks ((<[w_cur w := Idle]> b) p) k -> forks (b p) k) by (apply forks_become; by intros k [?|?]).
    intros q r0 k Hq Hr Hfq Hfr. apply (I11 q r0 k); auto.
Qed.

(** ** The first process *)

(** The table before [userinit]: every slot is free. *)
Definition boot (w : W) : Prop := w_nextpid w = 1 /\ forall i, slot i -> p_state (proc_at w i) = UNUSED /\ blank (proc_at w i).

Lemma userinit_inv w w' : boot w -> userinit forkret_addr w = Ret (tt, w') -> pinv (fun _ => Idle) w' /\ p_pid (proc_at w' (w_initproc w')) = 1.
Proof.
  intros [Hn Hb] H. unfold userinit in H. apply K_bind_Ret in H as (r & w1 & E & H).
  apply allocproc_spec in E as [(_ & -> & _)|(i & E & B & [(-> & _)|(-> & tf & kt & pt & N)])]; [done|done|]. apply find_unused_slot in E as [Hi Hu].
  apply K_bind_Ret in H as ([] & w2 & [= <-] & H). apply K_bind_Ret in H as (p & w3 & [= <- <-] & H). set (w2 := set_initproc i w1) in *.
  pose proof (act_refl i w2) as A. follow A H x1 E1. follow A H x2 E2. follow A H x3 E3. follow A H x4 E4. follow A H x5 E5.
  eapply acts_bind in H as (x6 & w8 & A6 & E6 & H); [clear A|exact A|apply quiet_acts, quiet_my; intros q; apply quiet_in_fs]. follow A6 H x7 E7.
  apply acts_upd in H. pose proof (act_trans _ _ _ _ _ _ A6 H) as [A1 A2 A3 A4 A5]. destruct N as (N1 & N2 & N3 & N4 & N5 & N6 & N7 & N8 & N9 & N10).
  change (proc_at w2 i) with (proc_at w1 i) in A4. change (w_nextpid w2) with (w_nextpid w1) in A3. change (w_initproc w2) with i in A2.
  assert (Hrest : forall j, slot j -> j <> i -> proc_at w' j = proc_at w j) by (intros j Hj Hne; rewrite (A5 j Hne); apply (bo_rest _ _ _ B j Hne)).
  rewrite (bo_pid _ _ _ B), Hn, s32_small in A3 by lia. assert (Hs : p_state (proc_at w' i) = RUNNABLE) by (by rewrite A4). assert (Hp : p_pid (proc_at w' i) = 1) by (rewrite A4; simpl; lia).
  assert (Hof : p_ofile (proc_at w' i) = no_files) by (rewrite A4; simpl; rewrite N5; apply (bl_files _ (proj2 (Hb i Hi)))).
  assert (Hlive : forall j, slot j -> p_state (proc_at w' j) <> UNUSED -> j = i).
  { intros j Hj Hl. destruct (decide (j = i)); [done|]. exfalso. apply Hl. rewrite Hrest by done. by apply Hb. }
  split; [|by rewrite A2]. split; rewrite ?A2, ?A3.
  - split; [done|]. unfold alive. by rewrite Hs.
  - lia.
  - intros j Hj E. rewrite Hrest by (done || intros ->; congruence). by apply Hb.
  - intros j Hj E. rewrite (Hlive j Hj E), Hp. lia.
  - intros j k Hj Hk Ej Ek _. by rewrite (Hlive j Hj Ej), (Hlive k Hk Ek).
  - intros j Hj E Hne. by apply Hlive in E.
  - intros j Hj. destruct (decide (j = i)) as [->|Hne]; [by rewrite Hof|]. rewrite Hrest by done. by rewrite (bl_files _ (proj2 (Hb j Hj))).
  - intros j Hj E. by rewrite (Hlive j Hj) by congruence.
  - intros j Hj E. rewrite (Hlive j Hj E), A4. unfold has_memory. simpl. rewrite N7, N8, N9. tauto.
  - done.
  - by intros q r0 k _ _ [?|?].
Qed.

(** ** Runs *)

(** This CPU turns to the process of slot [i]. *)
Definition on_cpu (i : Z) (w : W) : W :=
  MkWorld (w_k w) (w_fs w) (w_file w) (w_pipe w) (w_cons w) (w_proc w) i (w_initproc w) (w_nextpid w) (w_ticks w).

(** What the other system calls do to the table: the running process changes
    its memory, descriptors, directory, name or alarm. *)
Definition own (w w' : W) : Prop :=
  w_cur w' = w_cur w /\ w_initproc w' = w_initproc w /\ w_nextpid w' = w_nextpid w
  /\ (forall j, j <> w_cur w -> proc_at w' j = proc_at w j)
  /\ let p := proc_at w (w_cur w) in
     let p' := proc_at w' (w_cur w) in
     p_state p' = p_state p /\ p_pid p' = p_pid p /\ p_parent p' = p_parent p /\ length (p_ofile p') = length (p_ofile p) /\ has_memory p'.

(** The steps of the system: a lock section of [fork] or of [exit], the closing of
    one file, one turn of [wait]'s loop, and the other operations, on any CPU, in
    any order.  A process is in one call at a time.  Pids are [int]s: the system
    stops short of allocating 2^31 of them. *)
Inductive pstep (s : W * (Z -> activity)) : W * (Z -> activity) -> Prop :=
| ps_cpu i : slot i -> p_state (proc_at s.1 i) = RUNNING -> pstep s (on_cpu i s.1, s.2)
| ps_sched i r w' : slot i -> scheduler_slot i s.1 = Ret (r, w') -> pstep s (w', s.2)
| ps_fork r w' : running s.1 -> s.2 (w_cur s.1) = Idle -> w_nextpid s.1 < 2 ^ 31 - 1 -> fork_child forkret_addr s.1 = Ret (r, w') ->
    pstep s (w', match r with Some (i, _) => <[w_cur s.1 := Forked i]> s.2 | None => s.2 end)
| ps_parent i w' : running s.1 -> s.2 (w_cur s.1) = Forked i -> fork_parent i s.1 = Ret (tt, w') -> pstep s (w', <[w_cur s.1 := Parented i]> s.2)
| ps_run i w' : running s.1 -> s.2 (w_cur s.1) = Parented i -> fork_run i s.1 = Ret (tt, w') -> pstep s (w', <[w_cur s.1 := Idle]> s.2)
| ps_exit : running s.1 -> s.2 (w_cur s.1) = Idle -> w_cur s.1 <> w_initproc s.1 -> pstep s (s.1, <[w_cur s.1 := Exiting 0]> s.2)
| ps_close fd w' : running s.1 -> s.2 (w_cur s.1) = Exiting fd -> fd < NOFILE -> close_fd fd s.1 = Ret (tt, w') -> pstep s (w', <[w_cur s.1 := Exiting (fd + 1)]> s.2)
| ps_cwd w' : running s.1 -> s.2 (w_cur s.1) = Exiting NOFILE -> exit_cwd s.1 = Ret (tt, w') -> pstep s (w', <[w_cur s.1 := Left]> s.2)
| ps_zombie status w' : running s.1 -> s.2 (w_cur s.1) = Left -> exit_zombie status s.1 = Ret (tt, w') -> pstep s (w', <[w_cur s.1 := Idle]> s.2)
| ps_wait addr r w' : running s.1 -> s.2 (w_cur s.1) = Idle -> wait addr s.1 = Ret (r, w') -> pstep s (w', s.2)
| ps_kill pid r w' : kill pid s.1 = Ret (r, w') -> pstep s (w', s.2)
| ps_yield w' : running s.1 -> yield s.1 = Ret (tt, w') -> pstep s (w', s.2)
| ps_sleep c w' : running s.1 -> sleep_enter c s.1 = Ret (tt, w') -> pstep s (w', s.2)
| ps_leave w' : running s.1 -> sleep_leave s.1 = Ret (tt, w') -> pstep s (w', s.2)
| ps_wakeup c w' : wakeup c s.1 = Ret (tt, w') -> pstep s (w', s.2)
| ps_own w' : running s.1 -> s.2 (w_cur s.1) = Idle -> own s.1 w' -> pstep s (w', s.2).

Lemma pinv_maps b f w w' : maps_slots f w w' -> (forall j p, mild p (f j p) /\ p_ofile (f j p) = p_ofile p /\ p_cwd (f j p) = p_cwd p) -> pinv b w -> pinv b w'.
Proof. intros [E1 E2 E3 E4] Hm. apply pinv_mild; [done..| |]; intros j Hj; rewrite E4 by done; [apply Hm|intros _; apply Hm]. Qed.

Lemma pinv_act b i g w w' : act i g w w' -> mild (proc_at w i) (g (proc_at w i)) -> (forall p, p_ofile (g p) = p_ofile p /\ p_cwd (g p) = p_cwd p) -> pinv b w -> pinv b w'.
Proof.
  intros [E1 E2 E3 E4 E5] Hm Hg. apply pinv_mild; [done..| |]; intros j Hj; (destruct (decide (j = i)) as [->|]; [rewrite E4|rewrite E5 by done]); auto; apply mild_refl.
Qed.

Lemma upd_cur_act g (w w' : W) : upd_cur g w = Ret (tt, w') -> act (w_cur w) g w w'.
Proof. unfold upd_cur. intros (i & w1 & [= <- <-] & H)%K_bind_Ret. by apply acts_upd in H. Qed.

Lemma kill_spec pid (w w' : W) r : kill pid w = Ret (r, w') -> r = -1 /\ w' = w
  \/ r = 0 /\ exists i, List.find (fun i => p_pid (proc_at w i) =? pid) pids = Some i
       /\ act i (fun p => let p := set_killed 1 p in if bool_decide (p_state p = SLEEPING) then set_state RUNNABLE p else p) w w'.
Proof.
  unfold kill. intros (x & w1 & [<- <-]%gets_Ret & H)%K_bind_Ret. destruct (List.find _ pids) as [i|]; [|injection H as <- <-; by left].
  right. pose proof (act_refl i w) as A. follow A H y E. injection H as <- <-. split; [done|]. exists i. split; [done|]. exact A.
Qed.

Lemma mild_kill p : mild p (let p := set_killed 1 p in if bool_decide (p_state p = SLEEPING) then set_state RUNNABLE p else p).
Proof.
  cbv zeta. case_bool_decide as E; [|apply mild_killed]. eapply mild_trans; [apply mild_killed|]. apply mild_state; apply going_of; [by right; right|by left].
Qed.

Lemma mild_own w w' : running w -> own w w' -> mild (proc_at w (w_cur w)) (proc_at w' (w_cur w)).
Proof.
  intros [_ R] (_ & _ & _ & _ & E1 & E2 & E3 & E4 & E5). split; [split|..]; [done|by rewrite E1|by rewrite E1|done|done| | |done|by rewrite E1]; rewrite R; [by intros [?|?]|]. by right.
Qed.

Lemma mild_files l p : going p -> length l = length (p_ofile p) -> mild p (set_ofile l p).
Proof. intros [[H1 H2] H3] E. split; [split|..]; auto. cbn. tauto. Qed.

Lemma mild_cwd v p : mild p (set_cwd v p).
Proof. split; [split|..]; auto. Qed.

Lemma fork_inv b w r w' : pinv b w -> running w -> b (w_cur w) = Idle -> w_nextpid w < 2 ^ 31 - 1 -> fork_child forkret_addr w = Ret (r, w') ->
  pinv (match r with Some (i, _) => <[w_cur w := Forked i]> b | None => b end) w'.
Proof.
  intros I R Hb Hn H. apply fork_child_spec in H as [(_ & -> & ->)|(i & E & B & [(-> & q & Eq & Ef)|(-> & C)])]; [done|apply find_unused_slot in E as [Hi Hu]..].
  - by apply (pinv_failed b w w' i q).
  - destruct C as (C1 & C2 & C3 & _ & _ & C6 & _ & _ & C9). pose proof (pv_blank _ _ I i Hi Hu) as Hbl. apply (pinv_forked b w w' i); auto.
    + by rewrite C3, (bl_parent _ Hbl).
    + rewrite C6, (bl_files _ Hbl), merge_no_files by (apply (pv_files _ _ I), R). apply (pv_files _ _ I), R.
    + unfold has_memory. tauto.
Qed.

(** One more file is closed. *)
Lemma close_inv b w w' fd : pinv b w -> running w -> b (w_cur w) = Exiting fd -> fd < NOFILE -> close_fd fd w = Ret (tt, w') ->
  pinv (<[w_cur w := Exiting (fd + 1)]> b) w'.
Proof.
  intros I R Hb Hfd H. apply close_fd_act in H. pose proof (pv_busy _ _ I (w_cur w) (proj1 R)) as Hd. rewrite Hb in Hd. destruct Hd as (Hg & Hni & Hr & Hk).
  pose proof (mild_files (<[Z.to_nat fd := None]> (p_ofile (proc_at w (w_cur w)))) _ Hg (length_insert _ _ _)) as Hm.
  eapply (pinv_goes b w w' _ _ I R); [rewrite Hb; by intros i [?|?]|by intros i [?|?]|exact H|exact Hm|]. cbn [doing]. rewrite (act_slot _ _ _ _ H), (act_init _ _ _ _ H).
  split; [by apply (mild_going _ _ Hm)|]. split; [done|]. split; [lia|]. intros k Hk'. cbn [p_ofile set_ofile]. pose proof (pv_files _ _ I _ (proj1 R)) as Hlen.
  destruct (decide (k = fd)) as [->|Hne]; [apply list_lookup_insert_eq; lia|]. rewrite list_lookup_insert_ne by lia. apply Hk. lia.
Qed.

Lemma no_files_all (l : list (option nat)) : length l = Z.to_nat NOFILE -> (forall k, 0 <= k < NOFILE -> l !! Z.to_nat k = Some None) -> l = no_files.
Proof.
  intros Hl H. apply list_eq. intros k. unfold no_files. destruct (decide (k < Z.to_nat NOFILE)%nat) as [Hk|Hk].
  - rewrite lookup_replicate_2 by done. rewrite <- (Nat2Z.id k). apply H. lia.
  - rewrite !lookup_ge_None_2; [done|rewrite length_replicate; lia|lia].
Qed.

Lemma cwd_inv b w w' : pinv b w -> running w -> b (w_cur w) = Exiting NOFILE -> exit_cwd w = Ret (tt, w') -> pinv (<[w_cur w := Left]> b) w'.
Proof.
  intros I R Hb H. apply exit_cwd_act in H. pose proof (pv_busy _ _ I (w_cur w) (proj1 R)) as Hd. rewrite Hb in Hd. destruct Hd as (Hg & Hni & Hr & Hk).
  eapply (pinv_goes b w w' _ _ I R); [rewrite Hb; by intros i [?|?]|by intros i [?|?]|exact H|apply mild_cwd|]. cbn [doing]. rewrite (act_slot _ _ _ _ H), (act_init _ _ _ _ H).
  split; [done|]. split; [done|]. split; [|done]. apply no_files_all; [apply (pv_files _ _ I), R|exact Hk].
Qed.

Lemma pstep_inv s s' : pinv s.2 s.1 -> pstep s s' -> pinv s'.2 s'.1.
Proof.
  destruct s as [w b]. intros I H. destruct H as [i Hi Er|i r w1 Hi H|r w1 R Hb Hn H|i w1 R Hb H|i w1 R Hb H|R Hb Hni|fd w1 R Hb Hfd H|w1 R Hb H|st w1 R Hb H|addr r w1 R Hb H|pid r w1 H|w1 R H|c w1 R H|w1 R H|c w1 H|w1 R Hb H];
    cbn [fst snd] in *.
  - apply (pinv_mild b w); [done..| | |done]; intros j _; [apply mild_refl|done].
  - unfold scheduler_slot in H. apply K_bind_Ret in H as (p & w2 & [= <- <-] & H). case_bool_decide as E; [|by injection H as _ <-].
    apply K_bind_Ret in H as ([] & w2 & H & [= _ <-]). apply acts_upd in H. apply (pinv_act _ _ _ _ _ H); [|done|done]. apply mild_state; apply going_of; [by left|by right; left].
  - by apply (fork_inv b w r).
  - apply fork_parent_act in H. by apply (pinv_parented b w w1).
  - apply fork_run_act in H. by apply (pinv_runs b w w1 i).
  - apply (pinv_goes b w w (fun p => p) _ I R); [rewrite Hb; by intros i [?|?]|by intros i [?|?]|apply act_refl|apply mild_refl|].
    split; [by apply running_going|]. split; [done|]. split; [unfold NOFILE; lia|intros k Hk; lia].
  - by apply close_inv.
  - by apply cwd_inv.
  - destruct (exit_zombie_spec st w (proj1 R)) as (w2 & E & M). rewrite H in E. injection E as <-. by apply (pinv_buried b st w).
  - apply wait_spec in H as [[_ M]|(i & Hi & _ & Hz & _ & A)]; [apply (pinv_maps _ _ _ _ M); [intros j p; split; [apply mild_refl|done]|done]|by apply (pinv_reaped b w _ i)].
  - apply kill_spec in H as [[_ ->]|(_ & i & _ & A)]; [done|]. apply (pinv_act _ _ _ _ _ A); [apply mild_kill| |done]. intros p. cbv zeta. by destruct (bool_decide _).
  - apply upd_cur_act in H. apply (pinv_act _ _ _ _ _ H); [|done|done]. apply mild_state; [by apply running_going|apply going_of; by left].
  - apply upd_cur_act in H. apply (pinv_act _ _ _ _ _ H); [|done|done]. eapply mild_trans; [apply mild_chan|]. apply mild_state; [by apply running_going|apply going_of; by right; right].
  - apply upd_cur_act in H. apply (pinv_act _ _ _ _ _ H); [|done|done]. apply mild_chan.
  - destruct (wakeup_spec c w) as (w2 & E & M). rewrite H in E. injection E as <-. apply (pinv_maps _ _ _ _ M); [|done]. intros j p. split; [apply mild_wake|].
    destruct (wake_keeps (w_cur w) c j p) as (s & -> & _). done.
  - pose proof (mild_own _ _ R H) as M. destruct H as (E1 & E2 & E3 & E4 & _). apply (pinv_mild b w); [done..| | |done]; intros j Hj.
    + destruct (decide (j = w_cur w)) as [->|]; [done|]. rewrite E4 by done. apply mild_refl.
    + intros Hj'. rewrite E4; [done|]. intros ->. done.
Qed.

Lemma runs_inv s s' : pinv s.2 s.1 -> rtc pstep s s' -> pinv s'.2 s'.1.
Proof. intros I H. induction H as [|s1 s2 s3 Hs _ IH]; [done|]. by apply IH, (pstep_inv s1). Qed.

(** A whole [exit] is a run of its sections. *)
Lemma running_act g (w w' : W) : running w -> act (w_cur w) g w w' -> p_state (g (proc_at w (w_cur w))) = p_state (proc_at w (w_cur w)) -> running w'.
Proof. intros [R1 R2] A E. split; rewrite (act_cur _ _ _ _ A); [done|]. by rewrite (act_slot _ _ _ _ A), E. Qed.

Lemma close_runs n fd (w w' : W) (b : Z -> activity) : running w -> b (w_cur w) = Exiting fd -> fd + Z.of_nat n = NOFILE -> each close_fd (seqZ fd (Z.of_nat n)) w = Ret (tt, w') ->
  exists b', rtc pstep (w, b) (w', b') /\ running w' /\ b' (w_cur w') = Exiting NOFILE.
Proof.
  revert fd w b. induction n as [|n IH]; intros fd w b R Hb Hn H.
  - injection H as <-. exists b. split; [apply rtc_refl|]. split; [done|]. rewrite Hb. f_equal. lia.
  - rewrite seqZ_cons in H by lia. replace (Z.pred (Z.of_nat (S n))) with (Z.of_nat n) in H by lia. cbn [each] in H. apply K_bind_Ret in H as ([] & w1 & E & H).
    pose proof (close_fd_act _ _ _ E) as A. assert (R1 : running w1) by (by apply (running_act _ _ _ R A)).
    destruct (IH (Z.succ fd) w1 (<[w_cur w := Exiting (fd + 1)]> b) R1) as (b' & Hr & R' & Eb); [rewrite (act_cur _ _ _ _ A); by rewrite fn_lookup_insert|lia|done|].
    exists b'. split; [|done]. eapply rtc_l; [|exact Hr]. apply (ps_close (w, b) fd w1); [done|done|cbn [fst snd]; lia|done].
Qed.

Lemma exit_runs status (w w' : W) (b : Z -> activity) : running w -> b (w_cur w) = Idle -> exit status w = Ret (tt, w') -> exists b', rtc pstep (w, b) (w', b').
Proof.
  intros R Hb H. unfold exit in H. apply K_bind_Ret in H as (cur & w0 & [= <- <-] & H). apply K_bind_Ret in H as (init & w0 & [= <- <-] & H).
  destruct (Z.eqb_spec (w_cur w) (w_initproc w)) as [|Hi]; [done|]. apply K_bind_Ret in H as ([] & w1 & E1 & H). apply K_bind_Ret in H as ([] & w2 & E2 & H).
  destruct (close_runs (Z.to_nat NOFILE) 0 w w1 (<[w_cur w := Exiting 0]> b) R) as (b1 & Hr & R1 & Hb1); [by rewrite fn_lookup_insert|done|done|].
  pose proof (exit_cwd_act _ _ E2) as A. assert (R2 : running w2) by (by apply (running_act _ _ _ R1 A)).
  exists (<[w_cur w2 := Idle]> (<[w_cur w1 := Left]> b1)). eapply rtc_l; [exact (ps_exit (w, b) R Hb Hi)|]. etransitivity; [exact Hr|].
  assert (Hl : (<[w_cur w1 := Left]> b1 : Z -> activity) (w_cur w2) = Left) by (rewrite (act_cur _ _ _ _ A); by rewrite fn_lookup_insert).
  pose proof (ps_cwd (w1, b1) w2 R1 Hb1 E2) as P1. pose proof (ps_zombie (w2, <[w_cur w1 := Left]> b1) status w' R2 Hl H) as P2. cbn [fst snd] in P1, P2.
  eapply rtc_l; [exact P1|]. apply rtc_once. exact P2.
Qed.

(** ** Exit and wait *)

(** Asleep in [wait]. *)
Definition waiting (q : Z) (p : proc) : Prop := p_state p = SLEEPING /\ p_chan p = ChProc (nat_of q).

Lemma wake_waiting cur c j x : j <> cur -> p_chan x = c -> p_state x = SLEEPING \/ p_state x = RUNNABLE -> p_state (wake cur c j x) = RUNNABLE.
Proof.
  intros Hj Hc [E|E]; unfold wake; rewrite (proj2 (Z.eqb_neq _ _)) by done; cbn [negb andb]; rewrite E.
  - rewrite bool_decide_eq_true_2, bool_decide_eq_true_2 by done. done.
  - by rewrite (bool_decide_eq_false_2 (RUNNABLE = SLEEPING)) by done.
Qed.
Lemma wake_runnable cur c j x : p_state x = RUNNABLE -> p_state (wake cur c j x) = RUNNABLE.
Proof. intros E. unfold wake. by destruct (_ && _). Qed.

(** The parent of the process that exits is woken. *)
Lemma exited_parent status (w : W) q : q <> w_cur w -> w_cur w <> w_initproc w -> p_parent (proc_at w (w_cur w)) = Some (nat_of q) -> nat_of q <> nat_of (w_cur w) ->
  waiting q (proc_at w q) -> p_state (exited status w q (proc_at w q)) = RUNNABLE.
Proof.
  intros Hq Hi Hp Hn [E1 E2]. rewrite exited_other by done. unfold buried. rewrite (decide_False (P := q = w_cur w)) by done.
  assert (Ep : parent_chan (adopt (w_cur w) (w_initproc w) (proc_at w (w_cur w))) = ChProc (nat_of q)).
  { unfold parent_chan, adopt, is_child. rewrite Hp, bool_decide_eq_false_2 by congruence. by rewrite Hp. }
  rewrite Ep. destruct (adopt_keeps (w_cur w) (w_initproc w) (proc_at w q)) as (r & -> & _). unfold wake_if.
  destruct (has_child _ _ _); [|apply wake_waiting; [done|exact E2|left; exact E1]].
  destruct (wake_keeps (w_cur w) (ChProc (nat_of (w_initproc w))) q (set_parent r (proc_at w q))) as (st & Es & [-> | [_ ->]]); rewrite Es; apply wake_waiting; auto.
Qed.

(** [initproc] is woken when it gets a child. *)
Lemma exited_init status (w : W) : w_cur w <> w_initproc w -> has_child (w_cur w) pids w -> waiting (w_initproc w) (proc_at w (w_initproc w)) ->
  p_state (exited status w (w_initproc w) (proc_at w (w_initproc w))) = RUNNABLE.
Proof.
  intros Hi Hc [E1 E2]. rewrite exited_other by done. unfold buried. rewrite (decide_False (P := w_initproc w = w_cur w)) by done. unfold wake_if. destruct (has_child _ _ _); [|done].
  apply wake_runnable. destruct (adopt_keeps (w_cur w) (w_initproc w) (proc_at w (w_initproc w))) as (r & -> & _). apply wake_waiting; [done|exact E2|by left].
Qed.

Lemma wait_finds (w : W) i : slot i -> is_child (w_cur w) (proc_at w i) -> p_state (proc_at w i) = ZOMBIE -> exists k, wait_scan pids w false = inl k.
Proof.
  intros Hi Hc Hz. pose proof (wait_scan_spec pids w false) as H. destruct (wait_scan pids w false) as [k|b]; [by exists k|].
  destruct H as [_ H]. by destruct (H i (proj1 (slot_pids i) Hi) Hc).
Qed.

(** (C21) Once its files are given back, [exit] cannot fail: the process becomes
    a zombie with its status and no open file; its children, and only they,
    get [initproc] as parent, and [initproc] is woken if it waits; the parent,
    if it is asleep in [wait], is woken; and the scan of the parent's [wait]
    then finds a zombie. *)
Theorem exit_correct b status w w1 : pinv b w -> running w -> w_cur w <> w_initproc w -> closing w = Ret (tt, w1) ->
  exists w', exit status w = Ret (tt, w')
    /\ (let p := proc_at w' (w_cur w) in p_state p = ZOMBIE /\ p_xstate p = status /\ p_pid p = p_pid (proc_at w (w_cur w)) /\ p_ofile p = no_files)
    /\ (forall j, slot j -> p_parent (proc_at w' j) =
          if bool_decide (p_parent (proc_at w j) = Some (nat_of (w_cur w))) then Some (nat_of (w_initproc w)) else p_parent (proc_at w j))
    /\ (has_child (w_cur w) pids w -> waiting (w_initproc w) (proc_at w (w_initproc w)) -> p_state (proc_at w' (w_initproc w)) = RUNNABLE)
    /\ (forall q, slot q -> q <> w_cur w -> p_parent (proc_at w (w_cur w)) = Some (nat_of q) ->
          (waiting q (proc_at w q) -> p_state (proc_at w' q) = RUNNABLE)
          /\ exists i, wait_scan pids (on_cpu q w') false = inl i).
Proof.
  intros I R Hi Hc. destruct (exit_spec status w w1 Hi (proj1 R) Hc) as (w' & E & [E1 E2 E3 E4]). exists w'. split; [done|].
  assert (Hpar : forall j, slot j -> p_parent (proc_at w' j) = p_parent (adopt (w_cur w) (w_initproc w) (proc_at w j))).
  { intros j Hj. rewrite E4 by done. apply exited_parents. }
  destruct (exited_self status w (proc_at w (w_cur w))) as (S1 & S2 & S3 & _ & S5). rewrite <- (E4 _ (proj1 R)) in S1, S2, S3, S5.
  split; [|split; [|split]].
  - cbv zeta. rewrite S1, S2, S3, S5, closed_all by (apply (pv_files _ _ I), R). done.
  - intros j Hj. rewrite Hpar by done. unfold adopt, is_child. by destruct (bool_decide _).
  - intros Hch Hw. rewrite E4 by apply (pv_init _ _ I). by apply exited_init.
  - intros q Hq Hne Hp. assert (Hn : nat_of q <> nat_of (w_cur w)) by (intros H; by apply Hne, nat_of_inj; [..|apply R|]). split; [intros Hw; rewrite E4 by done; by apply exited_parent|].
    apply (wait_finds (on_cpu q w') (w_cur w)); [apply R| |exact S1]. change (proc_at (on_cpu q w') (w_cur w)) with (proc_at w' (w_cur w)). unfold is_child.
    rewrite Hpar by apply R. unfold adopt, is_child. rewrite Hp, (bool_decide_eq_false_2 (Some (nat_of q) = Some (nat_of (w_cur w)))) by congruence.
    rewrite Hp. by apply bool_decide_pack.
Qed.

(** The copy of the exit status of the child in slot [i], for [wait(addr)]. *)
Definition status_out (addr i : Z) (w : W) : outcome (Z * W) :=
  if nz addr then File.copyout_u addr (Block.le_bytes 4 (u32 (p_xstate (proc_at w i)))) w else Ret (0, w).

(** Reaping the zombie of slot [i]. *)
Lemma reaped_free b w w' i : pinv b w -> slot i -> p_state (proc_at w i) = ZOMBIE -> act i freed w w' ->
  p_state (proc_at w' i) = UNUSED /\ blank (proc_at w' i) /\ (forall j, slot j -> p_pid (proc_at w' j) <> p_pid (proc_at w i)) /\ (forall j, j <> i -> proc_at w' j = proc_at w j).
Proof.
  intros I Hi Hz A. pose proof (pinv_reaped b w w' i I Hi Hz A) as I'. assert (Hu : p_state (proc_at w' i) = UNUSED) by (by rewrite (act_slot _ _ _ _ A)).
  split; [done|]. split; [by apply (pv_blank _ _ I')|]. split; [|apply (act_rest _ _ _ _ A)]. pose proof (pv_pid _ _ I i Hi ltac:(congruence)) as Hp. intros j Hj E.
  destruct (decide (j = i)) as [->|Hji]; [rewrite (bl_pid _ (pv_blank _ _ I' i Hi Hu)) in E; lia|].
  rewrite (act_rest _ _ _ _ A j Hji) in E. apply Hji. apply (pv_uniq _ _ I); [done..| |congruence|done].
  intros Hju. rewrite (bl_pid _ (pv_blank _ _ I j Hj Hju)) in E. lia.
Qed.


(** (C20) The family of processes.  Over every interleaving of the lock sections of
    [fork] and [exit] with [wait], [kill], [sleep], [wakeup], [yield], the
    scheduler and the changes other system calls make to the running process, as
    long as fewer than 2^31 pids are allocated: no two processes have the same
    pid; every process except [initproc] has a parent that is neither free nor a
    zombie, so that some process can always wait for it, or a living process is
    still in the [fork] that makes it; [initproc] never dies. *)
Theorem process_family b w b' w' : pinv b w -> rtc pstep (w, b) (w', b') ->
  (forall i j, slot i -> slot j -> p_state (proc_at w' i) <> UNUSED -> p_state (proc_at w' j) <> UNUSED -> p_pid (proc_at w' i) = p_pid (proc_at w' j) -> i = j)
  /\ (forall i, slot i -> p_state (proc_at w' i) <> UNUSED -> i <> w_initproc w' ->
        (exists q, p_parent (proc_at w' i) = Some (nat_of q) /\ slot q /\ alive (proc_at w' q))
        \/ (exists q, slot q /\ b' q = Forked i /\ alive (proc_at w' q) /\ p_state (proc_at w' i) = USED))
  /\ alive (proc_at w' (w_initproc w')).
Proof.
  intros I H. apply (runs_inv (w, b) (w', b') I) in H as [I1 I2 I3 I4 I5 I6 I7 I8 I9 I10 I11]. cbn [fst snd] in *. split; [done|]. split; [|apply I1].
  intros i Hi Hu Hne. destruct (I6 i Hi Hu Hne) as [?|(q & Hq & Eq)]; [by left|right]. exists q. pose proof (I10 q Hq) as Hd. rewrite Eq in Hd.
  destruct Hd as ([Ha _] & _ & Hs & _). auto.
Qed.

(** What the fields of a slot are for its state. *)
Definition slot_wf (nextpid : Z) (p : proc) : Prop :=
  match p_state p with
  | UNUSED => blank p
  | ZOMBIE => 0 < p_pid p < nextpid /\ has_memory p /\ p_ofile p = no_files
  | _ => 0 < p_pid p < nextpid /\ has_memory p /\ length (p_ofile p) = Z.to_nat NOFILE
  end.

(** (C23) The slots of a sound table (one in which [pinv] holds; [userinit] makes
    the first, [userinit_inv]) stay well-formed over every interleaving: a free
    slot has no pid, no parent, no memory and no open file (so [fork], which
    copies only the open descriptors, gives the child exactly those of the
    parent); a process has its page tables, its trap frame, a pid below
    [nextpid], which is a positive [int], and [NOFILE] descriptors, and a zombie
    has closed them all. *)
Theorem proc_table_wf b w b' w' : pinv b w -> rtc pstep (w, b) (w', b') ->
  0 < w_nextpid w' < 2 ^ 31 /\ forall i, slot i -> slot_wf (w_nextpid w') (proc_at w' i).
Proof.
  intros I Hr. apply (runs_inv (w, b) (w', b') I) in Hr as [I1 I2 I3 I4 I5 I6 I7 I8 I9 I10 I11]. cbn [fst snd] in *. split; [done|]. intros i Hi.
  pose proof (I3 i Hi) as H3. pose proof (I4 i Hi) as H4. pose proof (I9 i Hi) as H9.
  pose proof (I8 i Hi) as H8. unfold slot_wf. destruct (p_state (proc_at w' i)); auto; by (split; [by apply H4|split; [by apply H9|auto]]).
Qed.

(** ** Killing pid 0 *)

(** In a sound table the first slot with pid 0 is the first free slot. *)
Lemma find_pid0 b w l : pinv b w -> Forall slot l ->
  List.find (fun i => p_pid (proc_at w i) =? 0) l = List.find (fun i => bool_decide (p_state (proc_at w i) = UNUSED)) l.
Proof.
  intros I Hl. induction Hl as [|i l Hi Hl IH]; [done|]. cbn [List.find]. rewrite IH. case_bool_decide as E.
  - rewrite (bl_pid _ (pv_blank _ _ I i Hi E)). done.
  - pose proof (pv_pid _ _ I i Hi E). by rewrite (proj2 (Z.eqb_neq _ _)) by lia.
Qed.

Lemma find_killed (w w1 : W) l : (forall j, p_state (proc_at w1 j) = UNUSED <-> p_state (proc_at w j) = UNUSED) ->
  List.find (fun i => bool_decide (p_state (proc_at w1 i) = UNUSED)) l = List.find (fun i => bool_decide (p_state (proc_at w i) = UNUSED)) l.
Proof. intros H. induction l as [|j l IH]; [done|]. cbn [List.find]. rewrite IH. by rewrite (bool_decide_ext _ _ (H j)). Qed.

(** [kill(0)] succeeds while there is a free slot: it marks that slot as
    killed, and the next [fork] that succeeds makes a child that is killed from
    birth. *)
Theorem kill_zero_dooms_next_child b w i : pinv b w -> find_unused w = Some i ->
  exists w1, kill 0 w = Ret (0, w1) /\
    forall pid w2, fork forkret_addr w1 = Ret (pid, w2) -> pid <> -1 -> p_pid (proc_at w2 i) = pid /\ p_killed (proc_at w2 i) = 1.
Proof.
  intros I Hf. pose proof (find_unused_slot _ _ Hf) as [Hi Hu]. unfold kill.
  assert (E : List.find (fun i => p_pid (proc_at w i) =? 0) pids = Some i) by (rewrite (find_pid0 b); [exact Hf|done|apply Forall_forall; intros k; apply slot_pids]).
  unfold mbind at 1, K_bind at 1, gets at 1. rewrite E. eexists. split; [done|]. intros pid w2 H Hp. set (w1 := set_procs _ w) in H.
  assert (A : act i (fun p => let p := set_killed 1 p in if bool_decide (p_state p = SLEEPING) then set_state RUNNABLE p else p) w w1) by apply upd_act. clearbody w1.
  assert (Hf1 : find_unused w1 = Some i).
  { unfold find_unused. rewrite (find_killed w w1); [exact Hf|]. intros j. destruct (decide (j = i)) as [->|Hj]; [|by rewrite (act_rest _ _ _ _ A)].
    rewrite (act_slot _ _ _ _ A). apply (al_unused _ _ (mi_alike _ _ (mild_kill _))). }
  apply fork_spec in H as [(E1 & _)|(k & E1 & _ & [(-> & _)|(-> & C)])]; [congruence|done|]. rewrite Hf1 in E1. injection E1 as <-.
  destruct C as (_ & C2 & _ & C4 & _). split; [done|]. rewrite C4, (act_slot _ _ _ _ A). cbv zeta. by destruct (bool_decide _).
Qed.

End Life.

(** ** Two processes *)

Definition demo_proc (st : procstate) (pid : Z) (parent : option nat) : proc :=
  set_state st (set_pid pid (set_parent parent (set_pagetable 4096 (set_kerntable 8192 (set_trapframe 12288 (set_cwd (Some O) proc0)))))).

(** [initproc] in slot 0, asleep in [wait], and its child in slot 1, which runs. *)
Definition demo_family : world (log * bst) unit :=
  on_cpu 1 (set_nextpid 3 (set_initproc 0 (set_procs {[ 0 := set_chan (ChProc 0) (demo_proc SLEEPING 1 None); 1 := demo_proc RUNNING 2 (Some O) ]} FileSpec.demo_world))).

Lemma demo_at i : proc_at demo_family i = if decide (i = 0) then set_chan (ChProc 0) (demo_proc SLEEPING 1 None) else if decide (i = 1) then demo_proc RUNNING 2 (Some O) else proc0.
Proof.
  unfold proc_at, demo_family, on_cpu. cbn [w_proc set_nextpid set_initproc set_procs]. destruct (decide (i = 0)) as [->|H0]; [done|].
  destruct (decide (i = 1)) as [->|H1]; [done|]. rewrite lookup_insert_ne, lookup_singleton_ne by done. done.
Qed.

Definition idle : Z -> activity := fun _ => Idle.

Lemma demo_family_inv : pinv idle demo_family.
Proof.
  split; try (intros i Hi; rewrite demo_at; destruct (decide (i = 0)) as [->|H0]; [|destruct (decide (i = 1)) as [->|H1]]).
  all: try done.
  all: try (cbn; clear; lia).
  - intros _ _ _. rewrite demo_at. by repeat case_decide.
  - intros _ _ _. rewrite demo_at. by repeat case_decide.
  - intros _ _. left. by exists 0.
  - by intros q r i _ _ [?|?].
Qed.

Lemma demo_running : running demo_family.
Proof. by split. Qed.

Definition returns {A} (o : outcome A) : bool := match o with Ret _ => true | _ => false end.

Lemma returns_unit {A} (o : outcome (unit * A)) : returns o = true -> exists w, o = Ret (tt, w).
Proof. destruct o as [[[] w]| | |]; [|done..]. by exists w. Qed.

Lemma demo_closing : exists w1, closing (L := Kalloc.demo_layout) demo_family = Ret (tt, w1).
Proof. apply returns_unit. vm_compute. reflexivity. Qed.

(** The child exits with status 7; [initproc] is woken and finds it. *)
Lemma exit_correct_witness : exists w', exit (L := Kalloc.demo_layout) 7 demo_family = Ret (tt, w')
  /\ p_xstate (proc_at w' 1) = 7 /\ p_state (proc_at w' 0) = RUNNABLE /\ exists i, wait_scan pids (on_cpu 0 w') false = inl i.
Proof.
  destruct demo_closing as (w1 & Hc).
  destruct (exit_correct (L := Kalloc.demo_layout) idle 7 demo_family w1 demo_family_inv demo_running ltac:(discriminate) Hc) as (w' & E & (_ & Hx & _) & _ & _ & Hq).
  exists w'. split; [exact E|]. split; [exact Hx|]. destruct (Hq 0 ltac:(done) ltac:(discriminate) eq_refl) as [H1 H2]. split; [apply H1; split; reflexivity|exact H2].
Defined.

(** [initproc] runs while its child is a zombie with status 7: it reaps it. *)
Definition demo_zombie : world (log * bst) unit :=
  set_initproc 0 (set_nextpid 3 (set_procs {[ 0 := demo_proc RUNNING 1 None; 1 := set_xstate 7 (demo_proc ZOMBIE 2 (Some O)) ]} FileSpec.demo_world)).

Lemma demo_zombie_at i : proc_at demo_zombie i = if decide (i = 0) then demo_proc RUNNING 1 None else if decide (i = 1) then set_xstate 7 (demo_proc ZOMBIE 2 (Some O)) else proc0.
Proof.
  unfold proc_at, demo_zombie. cbn [w_proc set_nextpid set_initproc set_procs]. destruct (decide (i = 0)) as [->|H0]; [done|].
  destruct (decide (i = 1)) as [->|H1]; [done|]. rewrite lookup_insert_ne, lookup_singleton_ne by done. done.
Qed.

Lemma demo_zombie_inv : pinv idle demo_zombie.
Proof.
  split; try (intros i Hi; rewrite demo_zombie_at; destruct (decide (i = 0)) as [->|H0]; [|destruct (decide (i = 1)) as [->|H1]]).
  all: try done.
  all: try (cbn; clear; lia).
  - intros _ _ _. rewrite demo_zombie_at. by repeat case_decide.
  - intros _ _ _. rewrite demo_zombie_at. by repeat case_decide.
  - intros _ _. left. by exists 0.
  - by intros q r i _ _ [?|?].
Qed.

(** Address 8192 is not mapped. *)
Lemma demo_refused : status_out (L := Kalloc.demo_layout) 8192 1 demo_zombie = Ret (-1, demo_zombie).
Proof. vm_compute. reflexivity. Qed.


(** After the exit there is still a parent for everyone, and the slots are as
    they should be. *)
Lemma process_family_witness : exists w' b', rtc (pstep (L := Kalloc.demo_layout) 0) (demo_family, idle) (w', b') /\ alive (proc_at w' (w_initproc w')).
Proof.
  destruct demo_closing as (w1 & Hc). destruct (exit_spec (L := Kalloc.demo_layout) 7 demo_family w1 ltac:(discriminate) ltac:(done) Hc) as (w' & E & _).
  destruct (exit_runs (L := Kalloc.demo_layout) 0 7 demo_family w' idle demo_running eq_refl E) as (b' & Hr). exists w', b'.
  split; [exact Hr|]. exact (proj2 (proj2 (process_family (L := Kalloc.demo_layout) 0 idle demo_family b' w' demo_family_inv Hr))).
Defined.

Lemma proc_table_wf_witness : exists w' b', rtc (pstep (L := Kalloc.demo_layout) 0) (demo_family, idle) (w', b') /\ slot_wf (w_nextpid w') (proc_at w' 1).
Proof.
  destruct demo_closing as (w1 & Hc). destruct (exit_spec (L := Kalloc.demo_layout) 7 demo_family w1 ltac:(discriminate) ltac:(done) Hc) as (w' & E & _).
  destruct (exit_runs (L := Kalloc.demo_layout) 0 7 demo_family w' idle demo_running eq_refl E) as (b' & Hr). exists w', b'.
  split; [exact Hr|]. exact (proj2 (proc_table_wf (L := Kalloc.demo_layout) 0 idle demo_family b' w' demo_family_inv Hr) 1 ltac:(done)).
Defined.

Lemma kill_zero_dooms_next_child_witness : exists w1, kill 0 demo_family = Ret (0, w1).
Proof.
  destruct (kill_zero_dooms_next_child (L := Kalloc.demo_layout) 0 idle demo_family 2 demo_family_inv ltac:(vm_compute; reflexivity)) as (w1 & E & _). exists w1. exact E.
Defined.

End ProcLife.
