(* ===== verification/Exec.v ===== *)
(** * kernel/exec.c: loading a program

    [exec] in the kernel monad.  The argument vector is the list of the pages
    that hold the argument strings; the ELF structures are read from byte
    buffers at their offsets.  The debugging printout for process 1 is not
    modelled. *)

From S2P Require Import Prelude Riscv KString Kalloc ProcDefs Vm UserMem Pipe Uart Console Block.
From S2P Require Import Sleeplock Bio Log BlockIO Fs World File Proc.
From stdpp Require Import base list numbers gmap strings.
From Stdlib Require Import ZArith Lia.

#[local] Open Scope Z_scope.

Import Block ProcVm.

(** Physical memory as the kernel side of a copy. *)
#[export] Instance phys_kmem : KMem kst := {
  km_read s a n := mem_get (k_mem s) a n;
  km_write s a bs := set_mem s (mem_put (k_mem s) a bs)
}.

(** kernel/include/elf.h *)
Definition ELF_MAGIC : Z := 0x464C457F.
Definition ELF_PROG_LOAD : Z := 1.
Definition ELFHDR_SIZE : Z := 64.
Definition PROGHDR_SIZE : Z := 56.
Definition get_u64 (d : list Z) (off : Z) : Z := get_le d off 8.

Record elfhdr : Type := MkElfhdr { eh_magic : Z; eh_entry : Z; eh_phoff : Z; eh_phnum : Z }.
Definition elfhdr_of (d : list Z) : elfhdr :=
  MkElfhdr (get_u32 d 0) (get_u64 d 24) (get_u64 d 32) (get_u16 d 56).

Record proghdr : Type := MkProghdr {
  ph_type : Z; ph_off : Z; ph_vaddr : Z; ph_filesz : Z; ph_memsz : Z
}.
Definition proghdr_of (d : list Z) : proghdr :=
  MkProghdr (get_u32 d 0) (get_u64 d 8) (get_u64 d 16) (get_u64 d 32) (get_u64 d 40).

Module Exec.

Section Ops.
Context {T D : Type} `{BIO : BlockIO T} `{UD : UartDev D} `{L : Layout}.

Abbreviation M := (K (world T D)).

(** [readi(ip, 0, pa, off, n)] with a physical address. *)
Definition readi_pa (ip pa off n : Z) : M Z := fun w =>
  let p := proc_at w (w_cur w) in
  '(r, s, m) ← Fs.readi (p_pid p) ip 0 pa off n (w_fs w) (tt, w_k w);
  Ret (r, set_fs s (set_k m.2 w)).

(** The loop of [loadseg] from byte [i] on. *)
Fixpoint loadseg_loop (k : nat) (pagetable va ip offset sz i : Z) : M Z :=
  if i <? sz then
    match k with
    | O => out_of_fuel
    | S k =>
        p ← myproc;
        pa ← in_k (fun s => Vm.walkaddr p s pagetable (u64 (va + i)));
        if pa =? 0 then panic "loadseg: address should exist" else
        let n := if sz - i <? PGSIZE then sz - i else PGSIZE in
        r ← readi_pa ip pa (u32 (offset + i)) n;
        if negb (u32 r =? n) then mret (-1)
        else loadseg_loop k pagetable va ip offset sz (i + PGSIZE)
    end
  else mret 0.

Definition loadseg (pagetable va ip offset sz : Z) : M Z :=
  loadseg_loop (Z.to_nat (sz / PGSIZE + 1)) pagetable va ip offset sz 0.

(** The loop over the program headers.  The result is whether it ended without
    an error, and [sz]. *)
Fixpoint load_segments (k : nat) (pagetable ip off sz : Z) : M (bool * Z) :=
  match k with
  | O => mret (true, sz)
  | S k =>
      '(r, d) ← readi_k ip (u32 off) PROGHDR_SIZE (replicate (Z.to_nat PROGHDR_SIZE) 0);
      if negb (r =? PROGHDR_SIZE) then mret (false, sz) else
      let ph := proghdr_of d in
      if negb (ph_type ph =? ELF_PROG_LOAD) then load_segments k pagetable ip (s32 (off + PROGHDR_SIZE)) sz
      else if ph_memsz ph <? ph_filesz ph then mret (false, sz)
      else if u64 (ph_vaddr ph + ph_memsz ph) <? ph_vaddr ph then mret (false, sz) else
      sz1 ← in_k (fun s => Vm.uvmalloc s pagetable sz (u64 (ph_vaddr ph + ph_memsz ph)));
      if sz1 =? 0 then mret (false, sz)
      else if nz (ph_vaddr ph mod PGSIZE) then mret (false, sz1) else
      r ← loadseg pagetable (ph_vaddr ph) ip (u32 (ph_off ph)) (u32 (ph_filesz ph));
      if r <? 0 then mret (false, sz1)
      else load_segments k pagetable ip (s32 (off + PROGHDR_SIZE)) sz1
  end.

(** [sp -= n; sp -= sp % 16;] *)
Definition push (sp n : Z) : Z := let sp := u64 (sp - n) in sp - sp mod 16.

(** The loop that copies the argument strings: [None] on an error, or the
    stack pointer and the addresses of the strings. *)
Fixpoint push_args (argv : list Z) (pagetable stackbase argc sp : Z) (ustack : list Z)
    : M (option (Z * list Z)) :=
  match argv with
  | [] => mret (Some (sp, ustack))
  | a :: argv =>
      if MAXARG <=? argc then mret None else
      n ← (fun w => n ← KString.strlen (Z.to_nat (PGSIZE + 1)) (k_mem (w_k w)) a; Ret (n, w));
      let sp := push sp (n + 1) in
      if sp <? stackbase then mret None else
      p ← myproc;
      bs ← gets (fun w => mem_get (k_mem (w_k w)) a (n + 1));
      r ← in_k (fun s => Vm.copyout p s pagetable sp bs);
      if r <? 0 then mret None
      else push_args argv pagetable stackbase (argc + 1) sp (ustack ++ [sp])
  end.

(** The last element of a path. *)
Fixpoint last_elem (path last : list Z) : list Z :=
  match path with
  | [] => last
  | c :: s => last_elem s (if c =? SLASH then s else last)
  end.

(** The label [bad]. *)
Definition bad (pagetable sz : Z) (ip : option Z) : M Z :=
  when (nz pagetable) (in_k_ (proc_freepagetable pagetable sz));;
  match ip with
  | Some i => fs_iunlockput i;; end_op
  | None => mret tt
  end;;
  mret (-1).

(** From the two stack pages on: the new image is complete but for its stack. *)
Definition exec_commit (path : list Z) (argv : list Z) (elf : elfhdr) (pagetable sz : Z) : M Z :=
  p ← myproc;
  let oldsz := p_sz p in
  let sz := PGROUNDUP sz in
  sz1 ← in_k (fun s => Vm.uvmalloc s pagetable sz (u64 (sz + 2 * PGSIZE)));
  if sz1 =? 0 then bad pagetable sz None else
  let sz := sz1 in
  in_k_ (fun s => Vm.uvmclear s pagetable (u64 (sz - 2 * PGSIZE)));;
  let stackbase := u64 (sz - PGSIZE) in
  r ← push_args argv pagetable stackbase 0 sz [];
  match r with
  | None => bad pagetable sz None
  | Some (sp, ustack) =>
      let argc := Z.of_nat (length ustack) in
      let sp := push sp ((argc + 1) * 8) in
      if sp <? stackbase then bad pagetable sz None else
      r ← in_k (fun s => Vm.copyout p s pagetable sp (concat (le_bytes 8 <$> (ustack ++ [0]))));
      if r <? 0 then bad pagetable sz None else
      Proc.tf_set p TF_a1 sp;;
      upd_cur (fun p => set_name (Proc.name_copy (p_name p) (last_elem path path)) p);;
      let oldpagetable := p_pagetable p in
      upd_cur (fun p => set_sz sz (set_pagetable pagetable p));;
      Proc.tf_set p TF_epc (eh_entry elf);;
      Proc.tf_set p TF_sp sp;;
      in_k_ (proc_freepagetable oldpagetable oldsz);;
      mret argc
  end.

Definition exec (path : list Z) (argv : list Z) : M Z :=
  begin_op;;
  r ← fs_namei path;
  match r with
  | None => end_op;; mret (-1)
  | Some ip =>
      fs_ilock ip;;
      '(r, d) ← readi_k ip 0 ELFHDR_SIZE (replicate (Z.to_nat ELFHDR_SIZE) 0);
      if negb (r =? ELFHDR_SIZE) then bad 0 0 (Some ip) else
      let elf := elfhdr_of d in
      if negb (eh_magic elf =? ELF_MAGIC) then bad 0 0 (Some ip) else
      p ← myproc;
      pagetable ← in_k (proc_pagetable (p_trapframe p));
      if pagetable =? 0 then bad 0 0 (Some ip) else
      '(ok, sz) ← load_segments (Z.to_nat (eh_phnum elf)) pagetable ip (s32 (eh_phoff elf)) 0;
      if negb ok then bad pagetable sz (Some ip) else
      fs_iunlockput ip;;
      end_op;;
      exec_commit path argv elf pagetable sz
  end.

End Ops.

End Exec.
