(* ===== verification/Sysfile.v ===== *)
(** * System-call arguments (kernel/syscall.c) and the file system calls
    (kernel/sysfile.c, sys_symlink of kernel/syscallv2.c)

    Results of type [int] and pointers returned through out-parameters become
    values: [None] is the result -1 of the argument fetchers.  A path fetched
    from user space is the C string in the kernel buffer. *)

From S2P Require Import Prelude Riscv KString Kalloc ProcDefs Vm UserMem Pipe Uart Console Block.
From S2P Require Import Sleeplock Bio Log BlockIO Fs World File Proc Exec TrapHandler.
From stdpp Require Import base list numbers gmap strings.
From Stdlib Require Import ZArith Lia.

#[local] Open Scope Z_scope.

Import Block File.

(** kernel/include/fcntl.h *)
Definition O_RDONLY : Z := 0x000.
Definition O_WRONLY : Z := 0x001.
Definition O_RDWR : Z := 0x002.
Definition O_NOFOLLOW : Z := 0x004.
Definition O_CREATE : Z := 0x200.
Definition O_TRUNC : Z := 0x400.

Module Sysfile.

Section Ops.
Context {T D : Type} `{BIO : BlockIO T} `{UD : UartDev D} `{L : Layout}.

Abbreviation M := (K (world T D)).

(** ** Arguments *)

Definition arg_addr (n : Z) : M Z :=
  fun w => v ← TrapHandler.argaddr n (proc_at w (w_cur w)) (w_k w); Ret (v, w).
Definition arg_int (n : Z) : M Z :=
  fun w => v ← TrapHandler.argint n (proc_at w (w_cur w)) (w_k w); Ret (v, w).

Definition fetchaddr (addr : Z) : M (option Z) :=
  p ← myproc;
  if (p_sz p <=? addr) || (p_sz p <? u64 (addr + 8)) then mret None else
  '(r, bs) ← in_k (fun s => Vm.copyin p s (p_pagetable p) addr 8);
  if nz r then mret None else mret (Some (le_value bs)).

(** The bytes copied to the buffer, whether or not the string ended. *)
Definition fetchstr_bytes (addr max : Z) : M (Z * list Z) :=
  p ← myproc; in_k (fun s => Vm.copyinstr p s (p_pagetable p) addr max).

Definition fetchstr (addr max : Z) : M (option (list Z)) :=
  '(err, bs) ← fetchstr_bytes addr max;
  if err <? 0 then mret None else mret (Some (c_str bs)).

Definition argstr (n max : Z) : M (option (list Z)) :=
  addr ← arg_addr n; fetchstr addr max.

(** The descriptor and the file. *)
Definition argfd (n : Z) : M (option (Z * Z)) :=
  fd ← arg_int n;
  p ← myproc;
  if (fd <? 0) || (NOFILE <=? fd) then mret None else
  match nth (Z.to_nat fd) (p_ofile p) None with
  | None => mret None
  | Some f => mret (Some (fd, Z.of_nat f))
  end.

(** The first free entry of [ofile], from descriptor [fd] on. *)
Fixpoint free_fd (ofile : list (option nat)) (fd : Z) : option Z :=
  match ofile with
  | [] => None
  | None :: _ => Some fd
  | Some _ :: rest => free_fd rest (fd + 1)
  end.

Definition set_fd (fd : Z) (f : option nat) (p : proc) : proc :=
  set_ofile (<[Z.to_nat fd := f]> (p_ofile p)) p.

Definition fdalloc (f : Z) : M Z :=
  p ← myproc;
  match free_fd (p_ofile p) 0 with
  | Some fd => upd_cur (set_fd fd (Some (Z.to_nat f)));; mret fd
  | None => mret (-1)
  end.

(** ** Calls on descriptors *)

Definition sys_dup : M Z :=
  a ← argfd 0;
  match a with
  | None => mret (-1)
  | Some (_, f) =>
      fd ← fdalloc f;
      if fd <? 0 then mret (-1) else filedup f;; mret fd
  end.

Definition sys_read : M Z :=
  a ← argfd 0; n ← arg_int 2; p ← arg_addr 1;
  match a with None => mret (-1) | Some (_, f) => fileread f p n end.

Definition sys_write : M Z :=
  a ← argfd 0; n ← arg_int 2; p ← arg_addr 1;
  match a with None => mret (-1) | Some (_, f) => filewrite f p n end.

Definition sys_close : M Z :=
  a ← argfd 0;
  match a with
  | None => mret (-1)
  | Some (fd, f) => upd_cur (set_fd fd None);; fileclose f;; mret 0
  end.

Definition sys_fstat : M Z :=
  a ← argfd 0; st ← arg_addr 1;
  match a with None => mret (-1) | Some (_, f) => filestat f st end.

(** ** Links *)

Definition iset_nlink (d : Z) (x : inode) : inode := set_inlink (s16 (i_nlink x + d)) x.

(** The label [bad] of [sys_link]. *)
Definition link_bad (ip : Z) : M Z :=
  fs_ilock ip;;
  upd_inode ip (iset_nlink (-1));;
  fs_iupdate ip;;
  fs_iunlockput ip;;
  end_op;;
  mret (-1).

Definition sys_link : M Z :=
  old ← argstr 0 MAXPATH;
  match old with
  | None => mret (-1)
  | Some old =>
  new ← argstr 1 MAXPATH;
  match new with
  | None => mret (-1)
  | Some new =>
  begin_op;;
  r ← fs_namei old;
  match r with
  | None => end_op;; mret (-1)
  | Some ip =>
  fs_ilock ip;;
  x ← get_inode ip;
  if i_type x =? T_DIR then fs_iunlockput ip;; end_op;; mret (-1) else
  upd_inode ip (iset_nlink 1);;
  fs_iupdate ip;;
  fs_iunlock ip;;
  r ← fs_nameiparent new;
  match r with
  | None => link_bad ip
  | Some (dp, name) =>
  fs_ilock dp;;
  x ← get_inode ip;
  y ← get_inode dp;
  e ← (if negb (i_dev y =? i_dev x) then mret (-1)
       else p ← myproc; in_fs (Fs.dirlink (p_pid p) dp name (i_inum x)));
  if e <? 0 then fs_iunlockput dp;; link_bad ip else
  fs_iunlockput dp;;
  fs_iput ip;;
  end_op;;
  mret 0
  end end end end.

(** The loop of [isdirempty] from byte [off] on. *)
Fixpoint isdirempty_loop (k : nat) (dp off : Z) : M bool :=
  x ← get_inode dp;
  if off <? i_size x then
    match k with
    | O => out_of_fuel
    | S k =>
        p ← myproc;
        de ← in_fs (Fs.read_dirent (p_pid p) dp off "isdirempty: readi");
        if nz (Fs.de_inum de) then mret false else isdirempty_loop k dp (off + DIRENT_SIZE)
    end
  else mret true.

Definition isdirempty (dp : Z) : M bool :=
  x ← get_inode dp;
  isdirempty_loop (Z.to_nat (i_size x / DIRENT_SIZE + 1)) dp (2 * DIRENT_SIZE).

Definition str_dot : list Z := [46].
Definition str_dotdot : list Z := [46; 46].

(** The label [bad] of [sys_unlink]. *)
Definition unlink_bad (dp : Z) : M Z := fs_iunlockput dp;; end_op;; mret (-1).

Definition sys_unlink : M Z :=
  path ← argstr 0 MAXPATH;
  match path with
  | None => mret (-1)
  | Some path =>
  begin_op;;
  r ← fs_nameiparent path;
  match r with
  | None => end_op;; mret (-1)
  | Some (dp, name) =>
  fs_ilock dp;;
  if (Fs.namecmp name str_dot =? 0) || (Fs.namecmp name str_dotdot =? 0) then unlink_bad dp else
  p ← myproc;
  r ← in_fs (Fs.dirlookup (p_pid p) dp name);
  match r with
  | None => unlink_bad dp
  | Some (ip, off) =>
  fs_ilock ip;;
  x ← get_inode ip;
  if i_nlink x <? 1 then panic "unlink: nlink < 1" else
  empty ← (if i_type x =? T_DIR then isdirempty ip else mret true);
  if negb empty then fs_iunlockput ip;; unlink_bad dp else
  r ← writei_k dp off DIRENT_SIZE Fs.dirent0;
  if negb (r =? DIRENT_SIZE) then panic "unlink: writei" else
  when (i_type x =? T_DIR) (upd_inode dp (iset_nlink (-1));; fs_iupdate dp);;
  fs_iunlockput dp;;
  upd_inode ip (iset_nlink (-1));;
  fs_iupdate ip;;
  fs_iunlockput ip;;
  end_op;;
  mret 0
  end end end.

(** ** Creating files *)

(** Returns the inode, locked. *)
Definition create (path : list Z) (type major minor : Z) : M (option Z) :=
  r ← fs_nameiparent path;
  match r with
  | None => mret None
  | Some (dp, name) =>
  fs_ilock dp;;
  p ← myproc;
  r ← in_fs (Fs.dirlookup (p_pid p) dp name);
  match r with
  | Some (ip, _) =>
      fs_iunlockput dp;;
      fs_ilock ip;;
      x ← get_inode ip;
      if (type =? T_FILE) && ((i_type x =? T_FILE) || (i_type x =? T_DEVICE)) then mret (Some ip)
      else fs_iunlockput ip;; mret None
  | None =>
      y ← get_inode dp;
      ip ← in_fs (Fs.ialloc (p_pid p) (i_dev y) type);
      fs_ilock ip;;
      upd_inode ip (fun x => set_inlink 1 (set_iminor (s16 minor) (set_imajor (s16 major) x)));;
      fs_iupdate ip;;
      x ← get_inode ip;
      (if type =? T_DIR then
         upd_inode dp (iset_nlink 1);;
         fs_iupdate dp;;
         e1 ← in_fs (Fs.dirlink (p_pid p) ip str_dot (i_inum x));
         e2 ← (if e1 <? 0 then mret (-1) else in_fs (Fs.dirlink (p_pid p) ip str_dotdot (i_inum y)));
         if e2 <? 0 then panic "create dots" else mret tt
       else mret tt);;
      e ← in_fs (Fs.dirlink (p_pid p) dp name (i_inum x));
      if e <? 0 then panic "create: dirlink" else
      fs_iunlockput dp;;
      mret (Some ip)
  end end.

(** The error exit of [sys_open] with [ip] locked. *)
Definition open_fail (ip : Z) : M Z := fs_iunlockput ip;; end_op;; mret (-1).

(** The loop [while (cnt--)] that follows symbolic links; [None] when the call
    has failed (the operation is then ended). *)
Fixpoint follow (cnt : nat) (ip : Z) : M (option Z) :=
  match cnt with
  | O => mret (Some ip)
  | S cnt =>
      '(r, target) ← readi_k ip 0 MAXPATH (replicate (Z.to_nat MAXPATH) 0);
      if negb (r =? MAXPATH) then open_fail ip;; mret None else
      fs_iunlockput ip;;
      r ← fs_namei (c_str target);
      match r with
      | None => end_op;; mret None
      | Some ip =>
          fs_ilock ip;;
          x ← get_inode ip;
          if negb (i_type x =? T_SYMLINK) then mret (Some ip)
          else match cnt with
               | O => open_fail ip;; mret None
               | S _ => follow cnt ip
               end
      end
  end.

(** From the checks of the device number on; [ip] is locked. *)
Definition open_file (ip omode : Z) : M Z :=
  x ← get_inode ip;
  if (i_type x =? T_DEVICE) && ((i_major x <? 0) || (NDEV <=? i_major x)) then open_fail ip else
  r ← filealloc;
  match r with
  | None => open_fail ip
  | Some f =>
  fd ← fdalloc f;
  if fd <? 0 then fileclose f;; open_fail ip else
  upd_file f (fun y =>
    let dev := i_type x =? T_DEVICE in
    MkFile (if dev then FD_DEVICE else FD_INODE) (fl_ref y)
      (if nz (Z.land omode O_WRONLY) then 0 else 1)
      (if nz (Z.land omode O_WRONLY) || nz (Z.land omode O_RDWR) then 1 else 0)
      (fl_pipe y) ip (if dev then fl_off y else 0) (if dev then i_major x else fl_major y));;
  p ← myproc;
  when (nz (Z.land omode O_TRUNC) && (i_type x =? T_FILE)) (in_fs_ (Fs.itrunc (p_pid p) ip));;
  fs_iunlock ip;;
  end_op;;
  mret fd
  end.

(** The inode to open, locked, or [None] when the call has failed. *)
Definition open_lookup (path : list Z) (omode : Z) : M (option Z) :=
  if nz (Z.land omode O_CREATE) then
    r ← create path T_FILE 0 0;
    match r with
    | None => end_op;; mret None
    | Some ip => mret (Some ip)
    end
  else
    r ← fs_namei path;
    match r with
    | None => end_op;; mret None
    | Some ip =>
        fs_ilock ip;;
        x ← get_inode ip;
        if (i_type x =? T_DIR) && negb (omode =? O_RDONLY) then open_fail ip;; mret None
        else mret (Some ip)
    end.

Definition sys_open : M Z :=
  path ← argstr 0 MAXPATH;
  omode ← arg_int 1;
  match path with
  | None => mret (-1)
  | Some path =>
  begin_op;;
  r ← open_lookup path omode;
  match r with
  | None => mret (-1)
  | Some ip =>
  x ← get_inode ip;
  r ← (if (i_type x =? T_SYMLINK) && (Z.land omode O_NOFOLLOW =? 0)
       then follow (Z.to_nat MAXDEPTH) ip else mret (Some ip));
  match r with
  | None => mret (-1)
  | Some ip => open_file ip omode
  end end end.

(** [sys_mkdir] and [sys_mknod], once the arguments are fetched. *)
Definition make_node (path : option (list Z)) (type major minor : Z) : M Z :=
  r ← match path with
      | None => mret None
      | Some path => create path type major minor
      end;
  match r with
  | None => end_op;; mret (-1)
  | Some ip => fs_iunlockput ip;; end_op;; mret 0
  end.

Definition sys_mkdir : M Z :=
  begin_op;;
  path ← argstr 0 MAXPATH;
  make_node path T_DIR 0 0.

Definition sys_mknod : M Z :=
  begin_op;;
  path ← argstr 0 MAXPATH;
  major ← arg_int 1;
  minor ← arg_int 2;
  make_node path T_DEVICE major minor.

(** The uninitialised rest of the kernel buffer [target] is taken as 0. *)
Definition sys_symlink : M Z :=
  target ← argstr 0 MAXPATH;
  match target with
  | None => mret (-1)
  | Some target =>
  path ← argstr 1 MAXPATH;
  match path with
  | None => mret (-1)
  | Some path =>
  begin_op;;
  r ← create path T_SYMLINK 0 0;
  match r with
  | None => end_op;; mret (-1)
  | Some ip =>
  r ← writei_k ip 0 MAXPATH (put_bytes (replicate (Z.to_nat MAXPATH) 0) 0 target);
  if r <? MAXPATH then fs_iunlockput ip;; end_op;; mret (-1) else
  fs_iunlockput ip;;
  end_op;;
  mret 0
  end end end.

Definition sys_chdir : M Z :=
  begin_op;;
  path ← argstr 0 MAXPATH;
  r ← match path with None => mret None | Some path => fs_namei path end;
  match r with
  | None => end_op;; mret (-1)
  | Some ip =>
      fs_ilock ip;;
      x ← get_inode ip;
      if negb (i_type x =? T_DIR) then open_fail ip else
      fs_iunlock ip;;
      p ← myproc;
      fs_iput (cwd_index p);;
      end_op;;
      upd_cur (set_cwd (Some (Z.to_nat ip)));;
      mret 0
  end.

(** ** exec and pipe *)

(** The loop of [sys_exec] that fetches the arguments from index [i] on: the
    pages of the strings, and whether all went well. *)
Fixpoint fetch_args (k : nat) (uargv i : Z) (argv : list Z) : M (bool * list Z) :=
  match k with
  | O => mret (false, argv)
  | S k =>
      r ← fetchaddr (u64 (uargv + 8 * i));
      match r with
      | None => mret (false, argv)
      | Some uarg =>
          if uarg =? 0 then mret (true, argv) else
          page ← in_k Kalloc.kalloc;
          if page =? 0 then mret (false, argv) else
          '(err, bs) ← fetchstr_bytes uarg PGSIZE;
          in_k_ (fun s => Ret (set_mem s (mem_put (k_mem s) page bs)));;
          if err <? 0 then mret (false, argv ++ [page])
          else fetch_args k uargv (i + 1) (argv ++ [page])
      end
  end.

Fixpoint free_args (argv : list Z) : M unit :=
  match argv with
  | [] => mret tt
  | a :: argv => in_k_ (fun s => Kalloc.kfree s a);; free_args argv
  end.

Definition sys_exec : M Z :=
  path ← argstr 0 MAXPATH;
  match path with
  | None => mret (-1)
  | Some path =>
      uargv ← arg_addr 1;
      '(ok, argv) ← fetch_args (Z.to_nat MAXARG) uargv 0 [];
      if (ok : bool) then
        ret ← Exec.exec path argv;
        free_args argv;;
        mret ret
      else
        free_args argv;;
        mret (-1)
  end.

(** The two error exits of [sys_pipe]. *)
Definition pipe_undo (fds : list Z) (rf wf : Z) : M Z :=
  Proc.each (fun fd => upd_cur (set_fd fd None)) fds;;
  fileclose rf;;
  fileclose wf;;
  mret (-1).

Definition sys_pipe : M Z :=
  fdarray ← arg_addr 0;
  r ← pipealloc;
  match r with
  | None => mret (-1)
  | Some (rf, wf) =>
  fd0 ← fdalloc rf;
  if fd0 <? 0 then pipe_undo [] rf wf else
  fd1 ← fdalloc wf;
  if fd1 <? 0 then pipe_undo [fd0] rf wf else
  e0 ← copyout_u fdarray (le_bytes 4 (u32 fd0));
  e1 ← (if e0 <? 0 then mret (-1) else copyout_u (u64 (fdarray + 4)) (le_bytes 4 (u32 fd1)));
  if e1 <? 0 then pipe_undo [fd0; fd1] rf wf else mret 0
  end.

End Ops.

End Sysfile.
