(* ===== verification/Syscall.v ===== *)
(** * kernel/sysproc.c, the process calls of kernel/syscallv2.c, and the
    dispatch of kernel/syscall.c

    The trace printed for a process with a [strace] mask is in [Debug]. *)

From S2P Require Import Prelude Riscv KString Kalloc ProcDefs Vm UserMem Pipe Uart Console Block.
From S2P Require Import Sleeplock Bio Log BlockIO Fs World File FileSpec Proc Exec TrapHandler Sysfile.
From stdpp Require Import base list numbers gmap strings.
From Stdlib Require Import ZArith Lia.

#[local] Open Scope Z_scope.

Import Sysfile.

(** kernel/include/syscall.h *)
Definition SYS_fork : Z := 1.
Definition SYS_exit : Z := 2.
Definition SYS_wait : Z := 3.
Definition SYS_pipe : Z := 4.
Definition SYS_read : Z := 5.
Definition SYS_kill : Z := 6.
Definition SYS_exec : Z := 7.
Definition SYS_fstat : Z := 8.
Definition SYS_chdir : Z := 9.
Definition SYS_dup : Z := 10.
Definition SYS_getpid : Z := 11.
Definition SYS_sbrk : Z := 12.
Definition SYS_sleep : Z := 13.
Definition SYS_uptime : Z := 14.
Definition SYS_open : Z := 15.
Definition SYS_write : Z := 16.
Definition SYS_mknod : Z := 17.
Definition SYS_unlink : Z := 18.
Definition SYS_link : Z := 19.
Definition SYS_mkdir : Z := 20.
Definition SYS_close : Z := 21.
Definition SYS_strace : Z := 22.
Definition SYS_sysinfo : Z := 23.
Definition SYS_symlink : Z := 24.
Definition SYS_vmprint : Z := 25.
Definition SYS_sigalarm : Z := 26.
Definition SYS_sigreturn : Z := 27.

Module Syscall.

Section Ops.
Context {T D : Type} `{BIO : BlockIO T} `{UD : UartDev D} `{L : Layout}.
Context (forkret_addr : Z).

Abbreviation M := (K (world T D)).

(** ** kernel/sysproc.c *)

Definition sys_getpid : M Z := p ← myproc; mret (p_pid p).
Definition sys_fork : M Z := Proc.fork forkret_addr.
Definition sys_wait : M Z := p ← arg_addr 0; Proc.wait p.

(** [oldsz] is an [int], so [oldsz + n] is computed in 32 bits and then
    extended. *)
Definition sys_sbrk : M Z :=
  n ← arg_int 0;
  p ← myproc;
  let oldsz := s32 (p_sz p) in
  let newsz := u64 (s32 (oldsz + n)) in
  if (MAXVA <=? newsz) || (newsz <=? 0) then mret oldsz else
  ok ← (if n <? 0 then
          r ← in_k (fun s => Vm.uvmdealloc s (p_pagetable p) (u64 oldsz) newsz);
          mret (r =? newsz)
        else mret true);
  if (ok : bool) then upd_cur (set_sz newsz);; mret oldsz else mret (-1).

(** The loop of [sys_sleep], from a test of its condition on: [n] is compared
    as an unsigned number. *)
Definition sleep_check (ticks0 n : Z) : M Z :=
  ticks ← gets w_ticks;
  if u32 (ticks - ticks0) <? u32 n then
    p ← myproc;
    if nz (p_killed p) then mret (-1) else blocked "sys_sleep"
  else mret 0.

Definition sys_sleep : M Z :=
  n ← arg_int 0;
  ticks0 ← gets w_ticks;
  sleep_check ticks0 n.

Definition sys_kill : M Z := pid ← arg_int 0; Proc.kill pid.
Definition sys_uptime : M Z := gets w_ticks.

(** ** kernel/syscallv2.c *)

Definition sys_strace : M Z := mask ← arg_int 0; upd_cur (set_mask mask);; mret 0.

(** [struct sysinfo] holds two 64-bit numbers. *)
Definition sys_sysinfo : M Z :=
  addr ← arg_addr 0;
  freemem ← (fun w => n ← Kalloc.kmemamount (w_k w); Ret (n, w));
  nproc ← Proc.procamount;
  r ← File.copyout_u addr (Block.le_bytes 8 (u64 freemem) ++ Block.le_bytes 8 (u64 nproc));
  mret (if r <? 0 then -1 else 0).

(** A call modelled on the process and memory alone. *)
Definition in_proc (f : proc -> kst -> outcome (Z * proc * kst)) : M Z := fun w =>
  '(r, p, s) ← f (proc_at w (w_cur w)) (w_k w);
  Ret (r, set_procs (<[w_cur w := p]> (w_proc w)) (set_k s w)).

(** ** The dispatch *)

(** [syscalls[num]], for the calls that return. *)
Definition syscalls (num : Z) : option (M Z) :=
  if num =? SYS_fork then Some sys_fork
  else if num =? SYS_wait then Some sys_wait
  else if num =? SYS_pipe then Some sys_pipe
  else if num =? SYS_read then Some sys_read
  else if num =? SYS_kill then Some sys_kill
  else if num =? SYS_exec then Some sys_exec
  else if num =? SYS_fstat then Some sys_fstat
  else if num =? SYS_chdir then Some sys_chdir
  else if num =? SYS_dup then Some sys_dup
  else if num =? SYS_getpid then Some sys_getpid
  else if num =? SYS_sbrk then Some sys_sbrk
  else if num =? SYS_sleep then Some sys_sleep
  else if num =? SYS_uptime then Some sys_uptime
  else if num =? SYS_open then Some sys_open
  else if num =? SYS_write then Some sys_write
  else if num =? SYS_mknod then Some sys_mknod
  else if num =? SYS_unlink then Some sys_unlink
  else if num =? SYS_link then Some sys_link
  else if num =? SYS_mkdir then Some sys_mkdir
  else if num =? SYS_close then Some sys_close
  else if num =? SYS_strace then Some sys_strace
  else if num =? SYS_sysinfo then Some sys_sysinfo
  else if num =? SYS_symlink then Some sys_symlink
  else if num =? SYS_vmprint then Some (mret 0)
  else if num =? SYS_sigalarm then Some (in_proc TrapHandler.sys_sigalarm)
  else if num =? SYS_sigreturn then Some (in_proc TrapHandler.sys_sigreturn)
  else None.

(** [p->trapframe->a0 = v]. *)
Definition set_a0 (v : Z) : M unit := p ← myproc; Proc.tf_set p TF_a0 (u64 v).

(** [exit] does not return to store a result. *)
Definition syscall : M unit :=
  p ← myproc;
  num ← gets (fun w => s32 (tf_load (k_mem (w_k w)) p TF_a7));
  if num =? SYS_exit then n ← arg_int 0; Proc.exit n
  else match syscalls num with
       | Some f => r ← f; set_a0 r
       | None => set_a0 (-1)
       end.

(** ** sbrk *)

(** The running process with another size. *)
Definition resize (w : world T D) (sz : Z) : world T D :=
  set_procs (<[w_cur w := set_sz sz (proc_at w (w_cur w))]> (w_proc w)) w.

Lemma sbrk_sum sz n : 0 < sz < 2 ^ 31 -> - 2 ^ 31 <= n < 2 ^ 31 ->
  ((MAXVA <=? u64 (s32 (sz + n))) || (u64 (s32 (sz + n)) <=? 0)) = negb ((0 <? sz + n) && (sz + n <? 2 ^ 31))
  /\ (0 < sz + n < 2 ^ 31 -> u64 (s32 (sz + n)) = sz + n).
Proof.
  intros Hs Hn. change MAXVA with (2 ^ 38). destruct (decide (0 < sz + n < 2 ^ 31)) as [H|H].
  - rewrite s32_small, u64_small by lia. split; [|done].
    rewrite !(proj2 (Z.leb_gt _ _)), !(proj2 (Z.ltb_lt _ _)) by lia. done.
  - split; [|done].
    assert (E : (0 <? sz + n) && (sz + n <? 2 ^ 31) = false) by (apply andb_false_iff; rewrite !Z.ltb_ge; lia).
    rewrite E. unfold u64, s32. apply orb_true_iff. rewrite !Z.leb_le. dlia.
Qed.

(** What [sbrk] does, for a process whose size is a positive [int].
    Growing only records the new size: no page is allocated and memory, page
    tables and every other process stay as they are (pages come with the page
    faults).  Shrinking unmaps the pages above the new size.  A change that
    would leave no memory or overflow is refused, and the refusal returns the
    old size, the same value as success. *)
Theorem sbrk_cases w :
  let p := proc_at w (w_cur w) in
  let n := s32 (tf_load (k_mem (w_k w)) p TF_a0) in
  0 < p_sz p < 2 ^ 31 ->
  sys_sbrk w =
    if negb ((0 <? p_sz p + n) && (p_sz p + n <? 2 ^ 31)) then Ret (p_sz p, w)
    else if n <? 0 then
      '(_, s) ← Vm.uvmdealloc (w_k w) (p_pagetable p) (p_sz p) (p_sz p + n);
      Ret (p_sz p, resize (set_k s w) (p_sz p + n))
    else Ret (p_sz p, resize w (p_sz p + n)).
Proof.
  intros p n Hs. assert (Hn : - 2 ^ 31 <= n < 2 ^ 31) by (unfold n, s32; dlia).
  destruct (sbrk_sum (p_sz p) n Hs Hn) as [Eg Esum]. unfold sys_sbrk.
  unfold mbind, K_bind, arg_int, TrapHandler.argint, TrapHandler.argraw. cbn [Z.eqb mbind outcome_bind].
  unfold myproc, gets. fold p. fold n. rewrite (s32_small (p_sz p)) by lia. rewrite Eg.
  destruct ((0 <? p_sz p + n) && (p_sz p + n <? 2 ^ 31)) eqn:E; cbn [negb]; [|done].
  apply andb_true_iff in E as [E1%Z.ltb_lt E2%Z.ltb_lt]. rewrite Esum, (u64_small (p_sz p)) by lia.
  destruct (Z.ltb_spec n 0) as [Hneg|Hpos].
  - unfold in_k. destruct (Vm.uvmdealloc (w_k w) (p_pagetable p) (p_sz p) (p_sz p + n)) as [[r s]| | |] eqn:Ed; cbn [mbind outcome_bind]; try done.
    assert (r = p_sz p + n) as ->.
    { revert Ed. unfold Vm.uvmdealloc. rewrite (proj2 (Z.leb_gt _ _)) by lia.
      destruct (_ <? _); [|by intros [= <- _]]. by intros (s1 & _ & [= <- _])%bind_Ret. }
    rewrite Z.eqb_refl. done.
  - done.
Qed.

End Ops.

(** A process of one page that asks for one more, and one that asks to give
    back more than it has. *)
Definition sbrk_world (n : Z) : world (log * bst) unit :=
  set_procs {[ 0 := set_sz PGSIZE (set_trapframe 4096 proc0) ]}
    (set_k (MkKst (store64 ∅ (4096 + TF_a0) (u64 n)) 0 ∅) FileSpec.demo_world).

Lemma sbrk_cases_witness :
  sys_sbrk (L := Kalloc.demo_layout) (sbrk_world PGSIZE) = Ret (PGSIZE, resize (sbrk_world PGSIZE) (2 * PGSIZE))
  /\ sys_sbrk (L := Kalloc.demo_layout) (sbrk_world (- PGSIZE)) = Ret (PGSIZE, sbrk_world (- PGSIZE)).
Proof.
  split.
  - rewrite (sbrk_cases (L := Kalloc.demo_layout) (sbrk_world PGSIZE)); [reflexivity|].
    change (p_sz (proc_at (sbrk_world PGSIZE) (w_cur (sbrk_world PGSIZE)))) with PGSIZE. unfold PGSIZE. lia.
  - rewrite (sbrk_cases (L := Kalloc.demo_layout) (sbrk_world (- PGSIZE))); [reflexivity|].
    change (p_sz (proc_at (sbrk_world (- PGSIZE)) (w_cur (sbrk_world (- PGSIZE))))) with PGSIZE. unfold PGSIZE. lia.
Defined.

End Syscall.
