(* ===== verification/Grep.v ===== *)
(** * user/grep.c

    The regular-expression matcher decides the language of its patterns, and
    the reading loop prints the matching lines of its input however the input
    arrives in pieces.

    A C string is the list of its bytes without the final nul, and a pointer
    into it is a suffix. *)

From S2P Require Import Prelude.
From stdpp Require Import base list numbers.
From Stdlib Require Import ZArith Lia.

#[local] Open Scope Z_scope.

Module Grep.

Definition CARET : Z := 94.
Definition DOLLAR : Z := 36.
Definition DOT : Z := 46.
Definition STAR : Z := 42.
Definition NEWLINE : Z := 10.

(** ** The matcher *)

(** [matchstar(c, re, text)]; [here] is [matchhere(re, _)]. *)
Fixpoint matchstar (here : list Z -> bool) (c : Z) (text : list Z) : bool :=
  if here text then true
  else match text with
       | [] => false
       | t :: text => if (t =? c) || (c =? DOT) then matchstar here c text else false
       end.

Fixpoint matchhere (re text : list Z) : bool :=
  match re with
  | [] => true
  | c :: re1 =>
      match re1 with
      | c1 :: re2 =>
          if c1 =? STAR then matchstar (matchhere re2) c text
          else match text with
               | [] => false
               | t :: text => if (c =? DOT) || (c =? t) then matchhere re1 text else false
               end
      | [] =>
          if c =? DOLLAR then match text with [] => true | _ => false end
          else match text with
               | [] => false
               | t :: text => if (c =? DOT) || (c =? t) then matchhere re1 text else false
               end
      end
  end.

(** The loop of [match] over the start positions. *)
Fixpoint match_from (re text : list Z) : bool :=
  if matchhere re text then true
  else match text with
       | [] => false
       | _ :: text => match_from re text
       end.

Definition match_ (re text : list Z) : bool :=
  match re with
  | c :: re1 => if c =? CARET then matchhere re1 text else match_from re text
  | [] => match_from re text
  end.

(** ** What a pattern means *)

Inductive item : Type :=
| One (c : Z)
| Many (c : Z).

(** The items of a pattern, and whether it ends with a dollar sign. *)
Fixpoint parse (re : list Z) : list item * bool :=
  match re with
  | [] => ([], false)
  | c :: re1 =>
      match re1 with
      | c1 :: re2 =>
          if c1 =? STAR then let '(its, e) := parse re2 in (Many c :: its, e)
          else let '(its, e) := parse re1 in (One c :: its, e)
      | [] => if c =? DOLLAR then ([], true) else ([One c], false)
      end
  end.

(** A dot stands for any byte, any other byte for itself. *)
Definition stands_for (c t : Z) : Prop := c = DOT \/ c = t.

(** The strings a list of items describes. *)
Inductive lang : list item -> list Z -> Prop :=
| lang_nil : lang [] []
| lang_one c t its s : stands_for c t -> lang its s -> lang (One c :: its) (t :: s)
| lang_many c ts its s : Forall (stands_for c) ts -> lang its s -> lang (Many c :: its) (ts ++ s).

(** A prefix of the text is described, all of it if the pattern ends with a
    dollar sign. *)
Definition begins (p : list item * bool) (text : list Z) : Prop :=
  exists s rest, text = s ++ rest /\ lang p.1 s /\ (p.2 = true -> rest = []).

(** Some part of the text is described: from the start if the pattern starts
    with a caret, to the end if it ends with a dollar sign. *)
Definition occurs (re text : list Z) : Prop :=
  match re with
  | c :: re1 => if c =? CARET then begins (parse re1) text
                else exists before after, text = before ++ after /\ begins (parse re) after
  | [] => True
  end.

(** ** The matcher decides the meaning *)

Lemma matches_one c t : (c =? DOT) || (c =? t) = true <-> stands_for c t.
Proof. unfold stands_for. rewrite orb_true_iff, !Z.eqb_eq. done. Qed.

Lemma begins_one c its e text :
  begins (One c :: its, e) text <-> exists t text', text = t :: text' /\ stands_for c t /\ begins (its, e) text'.
Proof.
  split.
  - intros (s & rest & -> & Hl & He). inversion Hl as [|? t ? s' Ht Hl'|]; subst. exists t, (s' ++ rest). split; [done|].
    split; [done|]. by exists s', rest.
  - intros (t & text' & -> & Ht & s & rest & -> & Hl & He). exists (t :: s), rest. split; [done|]. split; [by constructor|done].
Qed.

Lemma begins_many c its e text :
  begins (Many c :: its, e) text
  <-> begins (its, e) text \/ exists t text', text = t :: text' /\ stands_for c t /\ begins (Many c :: its, e) text'.
Proof.
  split.
  - intros (s & rest & -> & Hl & He). inversion Hl as [| |? ts ? s' Hts Hl']; subst. destruct ts as [|t ts].
    + left. by exists s', rest.
    + apply Forall_cons_1 in Hts as [Ht Hts]. right. exists t, ((ts ++ s') ++ rest). split; [done|]. split; [done|].
      exists (ts ++ s'), rest. split; [done|]. split; [by apply lang_many|done].
  - intros [(s & rest & -> & Hl & He)|(t & text' & -> & Ht & s & rest & -> & Hl & He)].
    + exists s, rest. split; [done|]. split; [by apply (lang_many c [])|done].
    + inversion Hl as [| |? ts ? s' Hts Hl']; subst. exists ((t :: ts) ++ s'), rest. split; [done|].
      split; [apply (lang_many c (t :: ts)); [by constructor|done]|done].
Qed.

Lemma matchstar_spec here c its e : (forall text, here text = true <-> begins (its, e) text) ->
  forall text, matchstar here c text = true <-> begins (Many c :: its, e) text.
Proof.
  intros Hh text. induction text as [|t text IH]; cbn [matchstar]; rewrite begins_many, <- Hh.
  - destruct (here []); [tauto|]. split; [done|]. intros [?|(t & text' & [=] & _)]; done.
  - destruct (here (t :: text)); [tauto|].
    destruct ((t =? c) || (c =? DOT)) eqn:E.
    + rewrite IH. split; [intros H; right|intros [?|(t' & text' & [= <- <-] & _ & H)]; done].
      exists t, text. split; [done|]. split; [|done]. apply matches_one. by rewrite orb_comm, (Z.eqb_sym c t).
    + split; [done|]. intros [?|(t' & text' & [= <- <-] & Ht & _)]; [done|].
      apply matches_one in Ht. by rewrite orb_comm, (Z.eqb_sym c t), E in Ht.
Qed.

Lemma matchhere_one c re text p : (forall text, matchhere re text = true <-> begins p text) ->
  (match text with [] => false | t :: text => if (c =? DOT) || (c =? t) then matchhere re text else false end) = true
  <-> begins (One c :: p.1, p.2) text.
Proof.
  intros IH. rewrite begins_one. destruct text as [|t text]; [split; [done|by intros (? & ? & [=] & _)]|].
  destruct ((c =? DOT) || (c =? t)) eqn:E.
  - rewrite IH. apply matches_one in E. destruct p as [its e]. split; [intros H; by exists t, text|].
    by intros (t' & text' & [= <- <-] & _ & H).
  - split; [done|]. intros (t' & text' & [= <- <-] & Ht & _). apply matches_one in Ht. congruence.
Qed.

Lemma matchhere_cons c c1 re text : matchhere (c :: c1 :: re) text
  = if c1 =? STAR then matchstar (matchhere re) c text
    else match text with
         | [] => false
         | t :: text => if (c =? DOT) || (c =? t) then matchhere (c1 :: re) text else false
         end.
Proof. reflexivity. Qed.
Lemma parse_cons c c1 re : parse (c :: c1 :: re)
  = if c1 =? STAR then let '(its, e) := parse re in (Many c :: its, e)
    else let '(its, e) := parse (c1 :: re) in (One c :: its, e).
Proof. reflexivity. Qed.

Lemma matchhere_spec re text : matchhere re text = true <-> begins (parse re) text.
Proof.
  revert text. induction re as [re IH] using (induction_ltof1 _ length). unfold ltof in IH. intros text.
  destruct re as [|c re1]; [split; [|done]; intros _; exists [], text; split; [done|split; [constructor|done]]|].
  destruct re1 as [|c1 re2].
  - cbn [matchhere parse]. destruct (Z.eqb_spec c DOLLAR) as [->|Hne].
    + destruct text as [|t text].
      * split; [|done]. intros _. exists [], []. split; [done|split; [constructor|done]].
      * split; [done|]. intros (s & rest & E & Hl & He). inversion Hl; subst. by rewrite He in E.
    + apply (matchhere_one c [] text ([], false)). intros text'. apply (IH []). simpl. lia.
  - rewrite matchhere_cons, parse_cons. destruct (c1 =? STAR).
    + destruct (parse re2) as [its e] eqn:Ep. apply matchstar_spec. intros text'. rewrite <- Ep. apply IH. simpl. lia.
    + pose proof (matchhere_one c (c1 :: re2) text (parse (c1 :: re2))) as H. destruct (parse (c1 :: re2)) as [its e] eqn:Ep.
      apply H. intros text'. rewrite <- Ep. apply IH. simpl. lia.
Qed.

Lemma match_from_spec re text : match_from re text = true <-> exists before after, text = before ++ after /\ begins (parse re) after.
Proof.
  induction text as [|t text IH]; cbn [match_from]; destruct (matchhere re _) eqn:E.
  - split; [|done]. intros _. exists [], []. split; [done|]. by apply matchhere_spec.
  - split; [done|]. intros (b & a & H & Hb). symmetry in H. apply app_eq_nil in H as [-> ->]. apply matchhere_spec in Hb. congruence.
  - split; [|done]. intros _. exists [], (t :: text). split; [done|]. by apply matchhere_spec.
  - rewrite IH. split.
    + intros (b & a & -> & Hb). by exists (t :: b), a.
    + intros (b & a & H & Hb). destruct b as [|t' b]; simpl in H.
      * subst a. apply matchhere_spec in Hb. congruence.
      * injection H as <- ->. by exists b, a.
Qed.

(** (C38) The matcher of grep is correct and complete: [match] returns true
    exactly when a part of the text, from the start for a pattern that begins
    with a caret and to the end for one that ends with a dollar sign, is in the
    language of the pattern, in which a dot stands for any byte and a star
    repeats the byte before it any number of times. *)
Theorem match_correct re text : match_ re text = true <-> occurs re text.
Proof.
  unfold match_, occurs. destruct re as [|c re1]; [by destruct text|].
  destruct (c =? CARET); [apply matchhere_spec|apply match_from_spec].
Qed.

(** ** The reading loop *)

Definition BUFSIZE : nat := 1024.

(** [strchr(p, c)]: the bytes before the first [c] and those after it. *)
Fixpoint strchr (p : list Z) (c : Z) : option (list Z * list Z) :=
  match p with
  | [] => None
  | x :: p =>
      if x =? 0 then None
      else if x =? c then Some ([], p)
      else match strchr p c with
           | Some (l, r) => Some (x :: l, r)
           | None => None
           end
  end.

(** The inner loop: the lines in the buffer from [p] on; the results are the
    output and the final [p]. *)
Fixpoint grep_lines (k : nat) (pattern p out : list Z) : list Z * list Z :=
  match strchr p NEWLINE with
  | None => (out, p)
  | Some (line, rest) =>
      match k with
      | O => (out, p)
      | S k => grep_lines k pattern rest (if match_ pattern line then out ++ line ++ [NEWLINE] else out)
      end
  end.

(** The outer loop.  [buf] holds the [m] bytes in the buffer, [data] is what the
    descriptor still delivers, and the [i]-th [read] returns at most [lim i]
    bytes; the result is what is written to descriptor 1. *)
Fixpoint grep_loop (k : nat) (pattern : list Z) (lim : nat -> nat) (i : nat) (buf data out : list Z) : outcome (list Z) :=
  let n := Nat.min (Nat.min (BUFSIZE - length buf - 1) (lim i)) (length data) in
  match n with
  | O => Ret out
  | _ =>
      match k with
      | O => Fuel
      | S k =>
          let buf := buf ++ take n data in
          let '(out, p) := grep_lines (length buf) pattern buf out in
          grep_loop k pattern lim (S i) p (drop n data) out
      end
  end.

Definition grep (pattern : list Z) (lim : nat -> nat) (data : list Z) : outcome (list Z) :=
  grep_loop (length data) pattern lim 0 [] data [].

(** ** Its meaning *)

(** The complete lines of a text and what follows the last newline. *)
Fixpoint split_nl (data : list Z) : list (list Z) * list Z :=
  match data with
  | [] => ([], [])
  | c :: d =>
      let '(ls, r) := split_nl d in
      if c =? NEWLINE then ([] :: ls, r)
      else match ls with
           | [] => ([], c :: r)
           | l :: ls => ((c :: l) :: ls, r)
           end
  end.

(** The matching lines, with their newlines. *)
Definition selected (pattern : list Z) (ls : list (list Z)) : list Z :=
  concat (map (fun l => l ++ [NEWLINE]) (List.filter (match_ pattern) ls)).

Lemma selected_app pattern a b : selected pattern (a ++ b) = selected pattern a ++ selected pattern b.
Proof. unfold selected. by rewrite List.filter_app, map_app, concat_app. Qed.

Lemma selected_cons pattern l ls :
  selected pattern (l :: ls) = (if match_ pattern l then l ++ [NEWLINE] else []) ++ selected pattern ls.
Proof. unfold selected. simpl. by destruct (match_ pattern l). Qed.

Lemma strchr_split p : 0 ∉ p -> match strchr p NEWLINE with
  | None => split_nl p = ([], p)
  | Some (l, r) => split_nl p = (l :: (split_nl r).1, (split_nl r).2) /\ (length r < length p)%nat /\ 0 ∉ r
  end.
Proof.
  induction p as [|x p IH]; intros H0; simpl; [done|]. apply not_elem_of_cons in H0 as [Hx H0].
  rewrite (proj2 (Z.eqb_neq x 0)) by done. specialize (IH H0). destruct (Z.eqb_spec x NEWLINE) as [->|Hn].
  - destruct (split_nl p) as [ls r]. split; [done|]. split; [simpl; lia|done].
  - destruct (strchr p NEWLINE) as [[l r]|].
    + destruct IH as (-> & Hl & Hr). split; [done|]. split; [simpl; lia|done].
    + by rewrite IH.
Qed.

Lemma grep_lines_spec k pattern p out : 0 ∉ p -> (length p <= k)%nat ->
  grep_lines k pattern p out = (out ++ selected pattern (split_nl p).1, (split_nl p).2).
Proof.
  revert p out. induction k as [|k IH]; intros p out H0 Hk; pose proof (strchr_split p H0) as H; simpl;
    destruct (strchr p NEWLINE) as [[l r]|]; try (rewrite H; simpl; unfold selected; simpl; by rewrite app_nil_r).
  - destruct H as (_ & Hl & _). lia.
  - destruct H as (E & Hl & Hr). rewrite E, IH by (done || lia). simpl. rewrite selected_cons.
    destruct (match_ pattern l); [by rewrite <- !app_assoc|done].
Qed.

Lemma split_cons c d : split_nl (c :: d) = if c =? NEWLINE then ([] :: (split_nl d).1, (split_nl d).2)
  else match (split_nl d).1 with [] => ([], c :: (split_nl d).2) | l :: ls => ((c :: l) :: ls, (split_nl d).2) end.
Proof. simpl. by destruct (split_nl d) as [[|l ls] r]. Qed.

Lemma split_app p d : split_nl (p ++ d)
  = ((split_nl p).1 ++ (split_nl ((split_nl p).2 ++ d)).1, (split_nl ((split_nl p).2 ++ d)).2).
Proof.
  induction p as [|c p IH]; [simpl; by destruct (split_nl d)|].
  change ((c :: p) ++ d) with (c :: (p ++ d)). rewrite split_cons, IH, (split_cons c p). cbn [fst snd].
  destruct (c =? NEWLINE) eqn:Ec; [done|]. destruct (split_nl p) as [[|l ls] r]; cbn [fst snd app]; [|done].
  rewrite (split_cons c (r ++ d)), Ec. by destruct (split_nl (r ++ d)) as [[|l ls] r'].
Qed.

(** Every line, with what was there of the last one, fits the buffer. *)
Definition fits (data : list Z) : Prop :=
  Forall (fun l => length l < BUFSIZE - 1)%nat (split_nl data).1 /\ (length (split_nl data).2 < BUFSIZE - 1)%nat.

Lemma split_prefix r d : split_nl r = ([], r) -> fits (r ++ d) -> (length r < BUFSIZE - 1)%nat.
Proof.
  revert d. induction r as [|c r IH]; intros d Hr [Hf Hl]; [unfold BUFSIZE; simpl; lia|].
  assert (Hgen : forall r d, split_nl r = ([], r) -> match (split_nl (r ++ d)).1 with
    | [] => (length r <= length (split_nl (r ++ d)).2)%nat | l :: _ => (length r <= length l)%nat end).
  { clear. induction r as [|c r IH]; intros d Hr; [simpl; destruct (split_nl d) as [[|] ?]; simpl; lia|].
    rewrite split_cons in Hr. destruct (c =? NEWLINE) eqn:Ec; [done|].
    destruct (split_nl r) as [[|l ls] r'] eqn:Er; cbn [fst snd] in Hr; [|done]. injection Hr as ->.
    change ((c :: r) ++ d) with (c :: (r ++ d)). rewrite split_cons, Ec. specialize (IH d eq_refl).
    destruct (split_nl (r ++ d)) as [[|l ls] r'']; cbn [fst snd length] in *; lia. }
  specialize (Hgen (c :: r) d Hr). destruct (split_nl ((c :: r) ++ d)) as [[|l ls] r'']; cbn [fst snd] in *; [lia|].
  apply Forall_cons_1 in Hf as [Hf _]. lia.
Qed.

Lemma split_rest p : split_nl (split_nl p).2 = ([], (split_nl p).2).
Proof.
  induction p as [|c p IH]; [done|]. rewrite split_cons. destruct (c =? NEWLINE) eqn:Ec; [done|].
  destruct (split_nl p) as [[|l ls] r]; cbn [fst snd] in *; [|done]. by rewrite split_cons, Ec, IH.
Qed.

Lemma split_rest_in p x : x ∈ (split_nl p).2 -> x ∈ p.
Proof.
  induction p as [|c p IH]; [done|]. rewrite split_cons. destruct (c =? NEWLINE); [intros H; constructor; by apply IH|].
  destruct (split_nl p) as [[|l ls] r]; cbn [fst snd] in *; [|intros H; constructor; by apply IH].
  intros [->|H]%elem_of_cons; [constructor|]. constructor. by apply IH.
Qed.

Lemma grep_loop_spec k pattern lim i buf data out :
  (forall i, 1 <= lim i)%nat -> 0 ∉ buf ++ data -> split_nl buf = ([], buf) -> fits (buf ++ data) -> (length data <= k)%nat ->
  grep_loop k pattern lim i buf data out = Ret (out ++ selected pattern (split_nl (buf ++ data)).1).
Proof.
  intros Hlim. revert i buf data out. induction k as [|k IH]; intros i buf data out H0 Hb Hf Hk.
  { destruct data; [|simpl in Hk; lia]. cbn [grep_loop length]. rewrite Nat.min_0_r, app_nil_r, Hb.
    unfold selected. simpl. by rewrite app_nil_r. }
  pose proof (split_prefix buf data Hb Hf) as Hl. cbn [grep_loop].
  destruct data as [|c data].
  { rewrite Nat.min_0_r, app_nil_r, Hb. unfold selected. simpl. by rewrite app_nil_r. }
  set (n := Nat.min (Nat.min (BUFSIZE - length buf - 1) (lim i)) (length (c :: data))).
  assert (Hn : (1 <= n <= length (c :: data))%nat) by (pose proof (Hlim i); unfold n; simpl; lia). clearbody n.
  destruct n as [|n']; [lia|]. cbv beta iota. set (n := S n') in *. set (b := buf ++ take n (c :: data)).
  assert (Eb : buf ++ c :: data = b ++ drop n (c :: data)) by (unfold b; by rewrite <- app_assoc, take_drop).
  rewrite Eb in *. rewrite grep_lines_spec; [|intros Hin; apply H0, elem_of_app; by left|done].
  assert (Hl' : (length (drop n (c :: data)) <= k)%nat) by (rewrite length_drop; simpl in *; lia).
  rewrite split_app. cbn [fst snd]. set (r := (split_nl b).2). rewrite IH.
  - by rewrite selected_app, app_assoc.
  - intros Hin. apply H0. apply elem_of_app in Hin as [Hin|Hin]; apply elem_of_app; [left|by right].
    by apply split_rest_in.
  - apply split_rest.
  - destruct Hf as [Hf1 Hf2]. rewrite split_app in Hf1, Hf2. cbn [fst snd] in Hf1, Hf2. apply Forall_app in Hf1 as [_ Hf1]. done.
  - done.
Qed.

(** grep prints the matching lines.  For input without nul bytes in which
    every line is shorter than the buffer, the reading loop ends and has written
    exactly the complete lines the pattern matches, in order and with their
    newlines, however the input is cut into pieces by [read]; an unfinished last
    line is not looked at. *)
Theorem grep_correct pattern lim data :
  (forall i, 1 <= lim i)%nat -> 0 ∉ data -> fits data ->
  grep pattern lim data = Ret (selected pattern (split_nl data).1).
Proof. intros Hl H0 Hf. unfold grep. by rewrite grep_loop_spec. Qed.

Lemma grep_correct_witness :
  grep [97; 42; 98; 36] (fun _ => 2%nat) [97; 97; 98; 10; 99; 10; 98; 98; 10; 98]
  = Ret (selected [97; 42; 98; 36] [[97; 97; 98]; [99]; [98; 98]]).
Proof.
  apply (grep_correct [97; 42; 98; 36] (fun _ => 2%nat) [97; 97; 98; 10; 99; 10; 98; 98; 10; 98]).
  - intros i. lia.
  - rewrite !not_elem_of_cons. repeat split; try congruence. by apply not_elem_of_nil.
  - split; [repeat constructor; simpl; unfold BUFSIZE; lia|simpl; unfold BUFSIZE; lia].
Defined.

(** A line that fills the buffer ends the run: [read] is called with size 0 and
    everything that follows is ignored, here the matching line "b". *)
Lemma grep_long_line_stops :
  grep [98] (fun _ => 4096%nat) (replicate 1023 97 ++ [10; 98; 10]) = Ret []
  /\ match_ [98] [98] = true.
Proof. split; vm_compute; reflexivity. Qed.

End Grep.
