(* ===== verification/Sh.v ===== *)
(** * The shell (user/sh.c): its parser and what it runs

    A [char *] into the command line is the rest of the line it points to, so
    [s < es] is "not empty" and [*s] at the end reads the terminating 0.  A
    parsed command holds the pointers to the two ends of each of its words, as
    the source does, until [nulterminate] cuts the words out of the line.

    [parseexec] goes on filling the [execcmd] inside the redirections it has
    already put around it; the model collects the redirections and wraps them
    around the finished [execcmd].  [malloc] is assumed to deliver; [panic] ends
    the process that parses.  [runcmd] is the set of programs executed, each
    with the file descriptors it starts with; the model follows the system calls
    of each process on its own descriptor table. *)

From S2P Require Import Prelude Riscv ProcDefs.
From Stdlib Require Import ZArith Lia Ascii String.
From stdpp Require Import base list numbers strings sets.

#[local] Open Scope Z_scope.

Module Sh.

Definition MAXARGS : nat := 10.

(** The bytes of a string of the source. *)
Definition bytes (s : string) : list Z := (fun c => Z.of_N (N_of_ascii c)) <$> list_ascii_of_string s.

Definition whitespace : list Z := [32; 9; 13; 10; 11].
Definition symbols : list Z := bytes "<|>&;()".

(** [strchr(set, c)] as a truth value: the loop stops at the 0 of the set, so
    the character 0 is never found. *)
Definition strchr (set : list Z) (c : Z) : bool := nz c && existsb (Z.eqb c) set.

Abbreviation cptr := (list Z).

(** [*s]. *)
Definition at_ptr (s : cptr) : Z := match s with [] => 0 | c :: _ => c end.

(** [while (s < es && strchr(whitespace, *s)) s++]. *)
Fixpoint skipws (s : cptr) : cptr :=
  match s with
  | [] => []
  | c :: s' => if strchr whitespace c then skipws s' else s
  end.

(** [while (s < es && !strchr(whitespace, *s) && !strchr(symbols, *s)) s++]. *)
Fixpoint skipword (s : cptr) : cptr :=
  match s with
  | [] => []
  | c :: s' => if negb (strchr whitespace c) && negb (strchr symbols c) then skipword s' else s
  end.

(** The return value, [*q], [*eq] and [*ps]. *)
Definition gettoken (s : cptr) : Z * cptr * cptr * cptr :=
  let q := skipws s in
  let c := at_ptr q in
  let '(ret, e) :=
    if c =? 0 then (0, q)
    else if existsb (Z.eqb c) (bytes "|();&<") then (c, tail q)
    else if c =? 62 then
      if at_ptr (tail q) =? 62 then (43, tail (tail q)) else (62, tail q)
    else (97, skipword q) in
  (ret, q, e, skipws e).

(** The truth value, and [*ps]. *)
Definition peek (s : cptr) (toks : list Z) : bool * cptr :=
  let s := skipws s in (nz (at_ptr s) && strchr toks (at_ptr s), s).

(** A word: where it starts and where it ends. *)
Definition wptr : Type := cptr * cptr.

Record redir (W : Type) : Type := MkRedir {
  r_file : W;
  r_mode : Z;
  r_fd : Z
}.
Arguments MkRedir {W} _ _ _.
Arguments r_file {W} _.
Arguments r_mode {W} _.
Arguments r_fd {W} _.

(** [struct cmd] and its kinds, over pointers ([W = wptr]) or over strings. *)
Inductive cmd (W : Type) : Type :=
| EXEC (argv : list W)
| REDIR (c : cmd W) (r : redir W)
| PIPE (left right : cmd W)
| LIST (left right : cmd W)
| BACK (c : cmd W).
Arguments EXEC {W} _.
Arguments REDIR {W} _ _.
Arguments PIPE {W} _ _.
Arguments LIST {W} _ _.
Arguments BACK {W} _.

Definition redircmd {W} (c : cmd W) (file : W) (mode fd : Z) : cmd W := REDIR c (MkRedir file mode fd).

Definition wrap {W} (c : cmd W) (rs : list (redir W)) : cmd W := foldl REDIR c rs.

Definition O_RDONLY : Z := 0.
Definition O_WRONLY : Z := 1.
Definition O_CREATE : Z := 512.
Definition O_TRUNC : Z := 1024.

(** The redirections from [s] on; a turn of the loop reads at least one
    character. *)
Fixpoint parseredirs (fuel : nat) (s : cptr) : outcome (list (redir wptr) * cptr) :=
  let '(more, s) := peek s (bytes "<>") in
  if negb more then Ret ([], s) else
  match fuel with
  | O => Fuel
  | S n =>
      let '(tok, _, _, s) := gettoken s in
      let '(tok2, q, eq, s) := gettoken s in
      if negb (tok2 =? 97) then Panic "missing file for redirection" else
      let r := if tok =? 60 then MkRedir (q, eq) O_RDONLY 0
               else if tok =? 62 then MkRedir (q, eq) (Z.lor (Z.lor O_WRONLY O_CREATE) O_TRUNC) 1
               else MkRedir (q, eq) (Z.lor O_WRONLY O_CREATE) 1 in
      '(rs, s) ← parseredirs n s; Ret (r :: rs, s)
  end.

(** The loop of [parseexec], with the arguments and redirections so far. *)
Fixpoint parseargs (fuel : nat) (argv : list wptr) (rs : list (redir wptr)) (s : cptr) :
    outcome (list wptr * list (redir wptr) * cptr) :=
  let '(stop, s) := peek s (bytes "|)&;") in
  if stop then Ret (argv, rs, s) else
  match fuel with
  | O => Fuel
  | S n =>
      let '(tok, q, eq, s) := gettoken s in
      if tok =? 0 then Ret (argv, rs, s) else
      if negb (tok =? 97) then Panic "syntax" else
      let argv := argv ++ [(q, eq)] in
      if (MAXARGS <=? length argv)%nat then Panic "too many args" else
      '(rs', s) ← parseredirs (length s) s;
      parseargs n argv (rs ++ rs') s
  end.

(** [while (peek(ps, es, "&")) { gettoken(...); cmd = backcmd(cmd); }]. *)
Fixpoint parsebacks (fuel : nat) (c : cmd wptr) (s : cptr) : outcome (cmd wptr * cptr) :=
  let '(more, s) := peek s (bytes "&") in
  if negb more then Ret (c, s) else
  match fuel with
  | O => Fuel
  | S n => let '(_, _, _, s) := gettoken s in parsebacks n (BACK c) s
  end.

Fixpoint parseline (fuel : nat) (s : cptr) {struct fuel} : outcome (cmd wptr * cptr) :=
  match fuel with
  | O => Fuel
  | S n =>
      '(c, s) ← parsepipe n s;
      '(c, s) ← parsebacks (length s) c s;
      let '(more, s) := peek s (bytes ";") in
      if more then
        let '(_, _, _, s) := gettoken s in
        '(c2, s) ← parseline n s; Ret (LIST c c2, s)
      else Ret (c, s)
  end
with parsepipe (fuel : nat) (s : cptr) {struct fuel} : outcome (cmd wptr * cptr) :=
  match fuel with
  | O => Fuel
  | S n =>
      '(c, s) ← parseexec n s;
      let '(more, s) := peek s (bytes "|") in
      if more then
        let '(_, _, _, s) := gettoken s in
        '(c2, s) ← parsepipe n s; Ret (PIPE c c2, s)
      else Ret (c, s)
  end
with parseexec (fuel : nat) (s : cptr) {struct fuel} : outcome (cmd wptr * cptr) :=
  match fuel with
  | O => Fuel
  | S n =>
      let '(block, s) := peek s (bytes "(") in
      if block then parseblock n s else
      '(rs, s) ← parseredirs (length s) s;
      '(argv, rs, s) ← parseargs (S (length s)) [] rs s;
      Ret (wrap (EXEC argv) rs, s)
  end
with parseblock (fuel : nat) (s : cptr) {struct fuel} : outcome (cmd wptr * cptr) :=
  match fuel with
  | O => Fuel
  | S n =>
      let '(open, s) := peek s (bytes "(") in
      if negb open then Panic "parseblock" else
      let '(_, _, _, s) := gettoken s in
      '(c, s) ← parseline n s;
      let '(close, s) := peek s (bytes ")") in
      if negb close then Panic "syntax - missing )" else
      let '(_, _, _, s) := gettoken s in
      '(rs, s) ← parseredirs (length s) s;
      Ret (wrap c rs, s)
  end.

(** The places [nulterminate] sets to 0. *)
Fixpoint ends (c : cmd wptr) : list cptr :=
  match c with
  | EXEC argv => snd <$> argv
  | REDIR c r => ends c ++ [snd (r_file r)]
  | PIPE l r | LIST l r => ends l ++ ends r
  | BACK c => ends c
  end.

(** The buffer of [n] bytes and the terminating 0; [e] points into it. *)
Definition zero_at (n : nat) (e : cptr) (buf : list Z) : list Z := <[(n - length e)%nat := 0]> buf.

Definition nulterminate (n : nat) (c : cmd wptr) (buf : list Z) : list Z := foldl (fun buf e => zero_at n e buf) buf (ends c).

Definition parse_fuel (s : cptr) : nat := (4 * length s + 4)%nat.

(** [parsecmd(s)]: the command, and the line with its words terminated. *)
Definition parsecmd (s : cptr) : outcome (cmd wptr * list Z) :=
  '(c, s') ← parseline (parse_fuel s) s;
  let '(_, s') := peek s' [] in
  match s' with
  | [] => Ret (c, nulterminate (length s) c (s ++ [0]))
  | _ => Panic "syntax"
  end.

(** ** Running a command *)

(** The string a pointer points to, as [exec] and [open] read it. *)
Fixpoint cstring (buf : list Z) : list Z :=
  match buf with
  | [] => []
  | c :: buf' => if c =? 0 then [] else c :: cstring buf'
  end.

Fixpoint cmd_map {V W} (f : V -> W) (c : cmd V) : cmd W :=
  match c with
  | EXEC argv => EXEC (f <$> argv)
  | REDIR c r => REDIR (cmd_map f c) (MkRedir (f (r_file r)) (r_mode r) (r_fd r))
  | PIPE l r => PIPE (cmd_map f l) (cmd_map f r)
  | LIST l r => LIST (cmd_map f l) (cmd_map f r)
  | BACK c => BACK (cmd_map f c)
  end.

(** The words of a parsed command, read from the terminated line of [n] bytes. *)
Definition read_words (n : nat) (buf : list Z) (c : cmd wptr) : cmd (list Z) :=
  cmd_map (fun w => cstring (drop (n - length (fst w))%nat buf)) c.

(** What a descriptor refers to: a file opened with a mode, an end of a pipe,
    or what the shell was started with. *)
Inductive file : Type :=
| Inherited (i : Z)
| Opened (name : list Z) (mode : Z)
| PipeRead (n : Z)
| PipeWrite (n : Z).

(** A descriptor table; [None] is a free slot. *)
Abbreviation fdtable := (list (option file)).

Fixpoint first_free (t : fdtable) : nat :=
  match t with
  | Some _ :: t' => S (first_free t')
  | _ => O
  end.

Definition set_fd (fd : nat) (f : option file) (t : fdtable) : fdtable :=
  if (length t <=? fd)%nat then t ++ replicate (fd - length t) None ++ [f] else <[fd := f]> t.

(** [close(fd)], [open(name, mode)] that succeeds, [dup(fd)], [pipe(p)]. *)
Definition do_close (fd : nat) (t : fdtable) : fdtable := <[fd := None]> t.
Definition do_open (f : file) (t : fdtable) : fdtable := set_fd (first_free t) (Some f) t.
Definition do_dup (fd : nat) (t : fdtable) : fdtable :=
  match t !! fd with Some (Some f) => do_open f t | _ => t end.
Definition do_pipe (n : Z) (t : fdtable) : nat * nat * fdtable :=
  let p0 := first_free t in
  let t := set_fd p0 (Some (PipeRead n)) t in
  let p1 := first_free t in
  (p0, p1, set_fd p1 (Some (PipeWrite n)) t).

Section Run.
(** Which opens succeed. *)
Context (can_open : list Z -> Z -> bool).

(** A program executed: its arguments, and its descriptors. *)
Definition started : Type := list (list Z) * fdtable.

(** The programs a process that runs [c] on table [t] starts, itself or in
    children; [n] numbers the pipes. *)
Fixpoint runcmd (c : cmd (list Z)) (t : fdtable) (n : Z) : list started * Z :=
  match c with
  | EXEC [] => ([], n)
  | EXEC argv => ([(argv, t)], n)
  | REDIR c r =>
      let t := do_close (Z.to_nat (r_fd r)) t in
      if can_open (r_file r) (r_mode r) then runcmd c (do_open (Opened (r_file r) (r_mode r)) t) n
      else ([], n)
  | LIST l r =>
      let '(e1, n) := runcmd l t n in
      let '(e2, n) := runcmd r t n in
      (e1 ++ e2, n)
  | PIPE l r =>
      let '(p0, p1, t) := do_pipe n t in
      let n := n + 1 in
      let t1 := do_close p1 (do_close p0 (do_dup p1 (do_close 1 t))) in
      let '(e1, n) := runcmd l t1 n in
      let t2 := do_close p1 (do_close p0 (do_dup p0 (do_close 0 t))) in
      let '(e2, n) := runcmd r t2 n in
      (e1 ++ e2, n)
  | BACK c => runcmd c t n
  end.

End Run.

End Sh.
