(* ===== verification/ShParse.v ===== *)
(** * The shell's parser terminates

    The tokens, and that on every line the parser returns a command or reports
    an error: each routine reads at least one character before it calls itself
    again, so the fuel of [parsecmd] is enough. *)

From S2P Require Import Prelude Riscv ProcDefs Sh.
From Stdlib Require Import ZArith Lia Ascii String.
From stdpp Require Import base list numbers strings sets.

#[local] Open Scope Z_scope.

Import Sh.

Module ShParse.

(** ** Tokens *)

Definition wordchar (c : Z) : bool := nz c && negb (strchr whitespace c) && negb (strchr symbols c).

Lemma skipws_length s : (length (skipws s) <= length s)%nat.
Proof. induction s as [|c s IH]; simpl; [done|]. destruct (strchr whitespace c); simpl; lia. Qed.
Lemma skipword_length s : (length (skipword s) <= length s)%nat.
Proof. induction s as [|c s IH]; simpl; [done|]. destruct (_ && _); simpl; lia. Qed.

Lemma skipws_idem s : skipws (skipws s) = skipws s.
Proof. induction s as [|c s IH]; simpl; [done|]. destruct (strchr whitespace c) eqn:E; [done|]. simpl. by rewrite E. Qed.

Lemma skipws_head s : strchr whitespace (at_ptr (skipws s)) = false.
Proof. induction s as [|c s IH]; simpl; [done|]. destruct (strchr whitespace c) eqn:E; [done|]. exact E. Qed.

(** The token at [s], by its first character. *)
Definition token (q : cptr) : Z * cptr :=
  let c := at_ptr q in
  if c =? 0 then (0, q)
  else if existsb (Z.eqb c) (bytes "|();&<") then (c, tail q)
  else if c =? 62 then
    if at_ptr (tail q) =? 62 then (43, tail (tail q)) else (62, tail q)
  else (97, skipword q).

Lemma gettoken_eq s : gettoken s = (fst (token (skipws s)), skipws s, snd (token (skipws s)), skipws (snd (token (skipws s)))).
Proof.
  unfold gettoken, token. destruct (at_ptr (skipws s) =? 0); [done|]. destruct (existsb _ _); [done|].
  destruct (at_ptr (skipws s) =? 62); [|done]. by destruct (_ =? 62).
Qed.

Lemma tail_length (s : cptr) : length (tail s) = (length s - 1)%nat.
Proof. destruct s; simpl; lia. Qed.

Lemma at_ptr_length s : at_ptr s <> 0 -> (0 < length s)%nat.
Proof. destruct s; simpl; [done|lia]. Qed.

(** The characters that start a word. *)
Lemma word_start c : c <> 0 -> strchr whitespace c = false -> existsb (Z.eqb c) (bytes "|();&<") = false -> c <> 62 -> wordchar c = true.
Proof.
  intros H0 Hw Hs H62. unfold wordchar. rewrite Hw, (proj2 (nz_true c) H0). simpl. unfold strchr. rewrite (proj2 (nz_true c) H0). simpl.
  unfold bytes in *. simpl in *. rewrite !orb_false_iff in Hs. destruct Hs as (? & ? & ? & ? & ? & ? & _).
  rewrite !negb_true_iff, !orb_false_iff. rewrite !Z.eqb_neq in *. repeat split; lia.
Qed.

Lemma skipword_cons c s : wordchar c = true -> skipword (c :: s) = skipword s.
Proof. unfold wordchar. intros H. apply andb_true_iff in H as [[_ H1]%andb_true_iff H2]. simpl. by rewrite H1, H2. Qed.

Lemma token_shorter q : strchr whitespace (at_ptr q) = false -> fst (token q) <> 0 -> (length (snd (token q)) < length q)%nat.
Proof.
  intros Hw. unfold token. destruct (Z.eqb_spec (at_ptr q) 0) as [|H0]; [done|]. intros _. pose proof (at_ptr_length q H0).
  destruct (existsb _ _) eqn:E1; [simpl; rewrite tail_length; lia|]. destruct (Z.eqb_spec (at_ptr q) 62) as [|H62].
  { destruct (_ =? 62); simpl; rewrite ?tail_length; lia. }
  destruct q as [|c q]; [done|]. cbn [snd at_ptr] in *. rewrite (skipword_cons c q) by (by apply word_start).
  pose proof (skipword_length q). simpl. lia.
Qed.

Lemma token_length q : (length (snd (token q)) <= length q)%nat.
Proof.
  unfold token. destruct (at_ptr q =? 0); [done|]. destruct (existsb _ _); [simpl; rewrite tail_length; lia|].
  destruct (at_ptr q =? 62); [|apply skipword_length]. destruct (_ =? 62); simpl; rewrite ?tail_length; lia.
Qed.

(** What is left after a token: shorter, when there was one. *)
Lemma gettoken_length s t q e s' : gettoken s = (t, q, e, s') -> (length s' <= length s)%nat /\ (t <> 0 -> (length s' < length s)%nat).
Proof.
  rewrite gettoken_eq. intros [= <- <- <- <-]. pose proof (skipws_length s). pose proof (skipws_length (snd (token (skipws s)))).
  pose proof (token_length (skipws s)). split; [lia|]. intros Ht. pose proof (token_shorter (skipws s) (skipws_head s) Ht). lia.
Qed.

Lemma peek_eq s l : peek s l = (strchr l (at_ptr (skipws s)), skipws s).
Proof. unfold peek, strchr. f_equal. destruct (nz (at_ptr (skipws s))); done. Qed.

(** After a successful [peek], there is a token. *)
Lemma peeked_token s l t q e s' : strchr l (at_ptr (skipws s)) = true -> gettoken (skipws s) = (t, q, e, s') -> (length s' < length s)%nat.
Proof.
  intros Hp. rewrite gettoken_eq, skipws_idem. intros [= <- <- <- <-]. pose proof (skipws_length s) as L1.
  pose proof (skipws_length (snd (token (skipws s)))) as L2. pose proof (token_shorter (skipws s) (skipws_head s)) as Hs.
  assert (Ht : fst (token (skipws s)) <> 0); [|specialize (Hs Ht); lia].
  unfold strchr in Hp. apply andb_true_iff in Hp as [H0 _]. apply nz_true in H0. unfold token. rewrite (proj2 (Z.eqb_neq _ _) H0).
  destruct (existsb _ _); [done|]. destruct (at_ptr (skipws s) =? 62); [|done]. by destruct (_ =? 62).
Qed.

(** ** Termination *)

Lemma redirs_total n s : (length s <= n)%nat ->
  match parseredirs n s with Ret (_, s') => (length s' <= length s)%nat | Panic _ => True | _ => False end.
Proof.
  revert s. induction n as [|n IH]; intros s Hn; cbn [parseredirs]; rewrite peek_eq; pose proof (skipws_length s) as L;
    (destruct (strchr (bytes "<>") (at_ptr (skipws s))) eqn:E; cbn [negb]; [|done]).
  - destruct s; [done|simpl in Hn; lia].
  - destruct (gettoken (skipws s)) as [[[t q] e] s1] eqn:E1. pose proof (peeked_token s _ _ _ _ _ E E1) as L1.
    destruct (gettoken s1) as [[[t2 q2] e2] s2] eqn:E2. destruct (gettoken_length _ _ _ _ _ E2) as [L2 _].
    destruct (negb (t2 =? 97)); [done|]. specialize (IH s2 ltac:(lia)). destruct (parseredirs n s2) as [[rs s3]| | |]; simpl; try done. lia.
Qed.

Lemma args_total n argv rs s : (length s < n)%nat ->
  match parseargs n argv rs s with Ret (_, _, s') => (length s' <= length s)%nat | Panic _ => True | _ => False end.
Proof.
  revert argv rs s. induction n as [|n IH]; intros argv rs s Hn; [lia|]. cbn [parseargs]. rewrite peek_eq. pose proof (skipws_length s) as L.
  destruct (strchr (bytes "|)&;") (at_ptr (skipws s))); [done|].
  destruct (gettoken (skipws s)) as [[[t q] e] s1] eqn:E1. destruct (gettoken_length _ _ _ _ _ E1) as [L1 L2].
  destruct (Z.eqb_spec t 0) as [|Ht]; [lia|]. specialize (L2 Ht). destruct (negb (t =? 97)); [done|]. destruct (_ <=? _)%nat; [done|].
  pose proof (redirs_total (length s1) s1 (le_n _)) as R. destruct (parseredirs (length s1) s1) as [[rs' s2]| | |]; simpl; try done.
  specialize (IH (argv ++ [(q, e)]) (rs ++ rs') s2 ltac:(lia)).
  destruct (parseargs n _ _ s2) as [[[? ?] s3]| | |]; try done. lia.
Qed.

Lemma backs_total n c s : (length s <= n)%nat ->
  match parsebacks n c s with Ret (_, s') => (length s' <= length s)%nat | Panic _ => True | _ => False end.
Proof.
  revert c s. induction n as [|n IH]; intros c s Hn; cbn [parsebacks]; rewrite peek_eq; pose proof (skipws_length s) as L;
    (destruct (strchr (bytes "&") (at_ptr (skipws s))) eqn:E; cbn [negb]; [|done]).
  - destruct s; [done|simpl in Hn; lia].
  - destruct (gettoken (skipws s)) as [[[t q] e] s1] eqn:E1. pose proof (peeked_token s _ _ _ _ _ E E1) as L1.
    specialize (IH (BACK c) s1 ltac:(lia)). destruct (parsebacks n (BACK c) s1) as [[? ?]| | |]; try done. lia.
Qed.

(** A routine of the parser that ends, with no more input than it had. *)
Definition ended (s : cptr) (o : outcome (cmd wptr * cptr)) : Prop :=
  match o with Ret (_, s') => (length s' <= length s)%nat | Panic _ => True | _ => False end.

Lemma ended_le s s' o : ended s' o -> (length s' <= length s)%nat -> ended s o.
Proof. destruct o as [[c r]| | |]; simpl; lia || done. Qed.

Lemma parse_ends n :
  (forall s, (4 * length s + 4 <= n)%nat -> ended s (parseline n s))
  /\ (forall s, (4 * length s + 3 <= n)%nat -> ended s (parsepipe n s))
  /\ (forall s, (4 * length s + 2 <= n)%nat -> ended s (parseexec n s))
  /\ (forall s, (4 * length s + 1 <= n)%nat -> ended s (parseblock n s)).
Proof.
  induction n as [|n (IL & IP & IE & IB)]; [split; [|split; [|split]]; intros s; lia|]. split; [|split; [|split]]; intros s Hn.
  - cbn [parseline]. specialize (IP s ltac:(lia)). destruct (parsepipe n s) as [[c s1]| | |]; cbn [ended mbind outcome_bind] in IP |- *; try done.
    pose proof (backs_total (length s1) c s1 (le_n _)) as B. destruct (parsebacks (length s1) c s1) as [[c1 s2]| | |]; cbn [mbind outcome_bind]; try done.
    rewrite peek_eq. pose proof (skipws_length s2) as L. destruct (strchr (bytes ";") (at_ptr (skipws s2))) eqn:E; [|simpl; lia].
    destruct (gettoken (skipws s2)) as [[[t q] e] s3] eqn:E1. pose proof (peeked_token _ _ _ _ _ _ E E1).
    specialize (IL s3 ltac:(lia)). destruct (parseline n s3) as [[c2 s4]| | |]; cbn [ended mbind outcome_bind] in *; try done; cbn [ended]; lia.
  - cbn [parsepipe]. specialize (IE s ltac:(lia)). destruct (parseexec n s) as [[c s1]| | |]; cbn [ended mbind outcome_bind] in IE |- *; try done.
    rewrite peek_eq. pose proof (skipws_length s1) as L. destruct (strchr (bytes "|") (at_ptr (skipws s1))) eqn:E; [|simpl; lia].
    destruct (gettoken (skipws s1)) as [[[t q] e] s3] eqn:E1. pose proof (peeked_token _ _ _ _ _ _ E E1).
    specialize (IP s3 ltac:(lia)). destruct (parsepipe n s3) as [[c2 s4]| | |]; cbn [ended mbind outcome_bind] in *; try done; cbn [ended]; lia.
  - cbn [parseexec]. rewrite peek_eq. pose proof (skipws_length s) as L.
    destruct (strchr (bytes "(") (at_ptr (skipws s))); [apply (ended_le s (skipws s)); [apply IB; lia|done]|].
    pose proof (redirs_total (length (skipws s)) (skipws s) (le_n _)) as R.
    destruct (parseredirs (length (skipws s)) (skipws s)) as [[rs s1]| | |]; cbn [mbind outcome_bind]; try done.
    pose proof (args_total (S (length s1)) [] rs s1 (le_n _)) as A.
    destruct (parseargs (S (length s1)) [] rs s1) as [[[argv rs'] s2]| | |]; cbn [mbind outcome_bind]; try done; cbn [ended]; lia.
  - cbn [parseblock]. rewrite peek_eq. destruct (strchr (bytes "(") (at_ptr (skipws s))) eqn:E; cbn [negb]; [|done].
    destruct (gettoken (skipws s)) as [[[t q] e] s1] eqn:E1. pose proof (peeked_token _ _ _ _ _ _ E E1).
    specialize (IL s1 ltac:(lia)). destruct (parseline n s1) as [[c s2]| | |]; cbn [ended mbind outcome_bind] in IL |- *; try done.
    rewrite peek_eq. destruct (strchr (bytes ")") (at_ptr (skipws s2))) eqn:E2; cbn [negb]; [|done].
    destruct (gettoken (skipws s2)) as [[[t2 q2] e2] s3] eqn:E3. pose proof (peeked_token _ _ _ _ _ _ E2 E3).
    pose proof (redirs_total (length s3) s3 (le_n _)) as R. destruct (parseredirs (length s3) s3) as [[rs s4]| | |]; cbn [mbind outcome_bind]; try done; cbn [ended]; lia.
Qed.

Lemma parse_ends_cmd s : (exists c buf, parsecmd s = Ret (c, buf)) \/ exists msg, parsecmd s = Panic msg.
Proof.
  unfold parsecmd. pose proof (proj1 (parse_ends (parse_fuel s)) s ltac:(unfold parse_fuel; lia)) as H.
  destruct (parseline (parse_fuel s) s) as [[c s']| | |]; simpl in *; try done; [|by right; eexists]. destruct (skipws s'); [left|right]; eauto.
Qed.

End ShParse.
