(* ===== verification/ShPrint.v ===== *)
(** * The shell's parser reads back what was written

    [print] writes a command by the grammar of the shell, with parentheses where
    they are needed.  Parsing the text gives the command back, and when
    [nulterminate] has cut the line up, every argument and file name is the
    string that was written. *)

From S2P Require Import Prelude Riscv ProcDefs Sh ShParse.
From Stdlib Require Import ZArith Lia Ascii String.
From stdpp Require Import base list numbers strings sets.

#[local] Open Scope Z_scope.

Import Sh ShParse.

Module ShPrint.

Abbreviation word := (list Z).

(** ** Printing *)

(** What a place in the grammar takes without parentheses. *)
Inductive level : Type := LExec | LPipe | LBack | LLine.

Definition print_word (w : word) : list Z := w ++ [32].

Definition print_redir (r : redir word) : list Z :=
  (if r_mode r =? O_RDONLY then bytes "<"
   else if r_mode r =? 1537 then bytes ">" else bytes ">>") ++ print_word (r_file r).

Definition paren (p : bool) (s : list Z) : list Z := if p then bytes "(" ++ s ++ bytes ")" else s.

Fixpoint print (k : level) (c : cmd word) : list Z :=
  match c with
  | EXEC argv => mjoin (print_word <$> argv)
  | REDIR c r => print LExec c ++ print_redir r
  | PIPE l r => paren (match k with LExec => true | _ => false end) (print LExec l ++ bytes "|" ++ print LPipe r)
  | LIST l r => paren (match k with LLine => false | _ => true end) (print LBack l ++ bytes ";" ++ print LLine r)
  | BACK c => paren (match k with LExec | LPipe => true | _ => false end) (print LBack c ++ bytes "&")
  end.

(** Commands the shell can be given: words of ordinary characters, the three
    kinds of redirection, and at most nine arguments. *)
Definition word_ok (w : word) : Prop := w <> [] /\ Forall (fun c => wordchar c = true) w.

Definition redir_ok (r : redir word) : Prop :=
  word_ok (r_file r) /\ (r_mode r, r_fd r) ∈ [(O_RDONLY, 0); (1537, 1); (513, 1)].

Fixpoint cmd_ok (c : cmd word) : Prop :=
  match c with
  | EXEC argv => Forall word_ok argv /\ (length argv < MAXARGS)%nat
  | REDIR c r => cmd_ok c /\ redir_ok r
  | PIPE l r | LIST l r => cmd_ok l /\ cmd_ok r
  | BACK c => cmd_ok c
  end.

(** ** The text of a pointer pair *)

Definition text (w : wptr) : word := take (length (fst w) - length (snd w)) (fst w).

Lemma text_app x e : text (x ++ e, e) = x.
Proof. unfold text. simpl. rewrite length_app. replace (length x + length e - length e)%nat with (length x) by lia. by rewrite take_app_length. Qed.

(** ** Characters *)

Lemma wordchar_inv c : wordchar c = true -> c <> 0 /\ strchr whitespace c = false /\ strchr symbols c = false.
Proof.
  unfold wordchar. intros H. apply andb_true_iff in H as [[H0 H1]%andb_true_iff H2]. apply nz_true in H0. apply negb_true_iff in H1, H2. auto.
Qed.

Lemma strchr_in l c : strchr l c = true <-> c <> 0 /\ c ∈ l.
Proof.
  unfold strchr. rewrite andb_true_iff, nz_true. split; intros [H0 H]; (split; [done|]).
  - apply existsb_exists in H as (x & Hx & E%Z.eqb_eq). subst. by apply list_elem_of_In.
  - apply existsb_exists. exists c. split; [by apply list_elem_of_In|apply Z.eqb_refl].
Qed.

Lemma strchr_sub l l' c : (forall x, x ∈ l -> x ∈ l') -> strchr l' c = false -> strchr l c = false.
Proof.
  intros Hs H. destruct (strchr l c) eqn:E; [|done]. apply strchr_in in E as [H0 Hin]. rewrite <- H. symmetry. apply strchr_in. auto.
Qed.

Lemma sub_dec (l l' : list Z) : forallb (fun x => existsb (Z.eqb x) l') l = true -> forall x, x ∈ l -> x ∈ l'.
Proof.
  intros H x Hx. rewrite forallb_forall in H. apply list_elem_of_In in Hx. apply H in Hx. apply existsb_exists in Hx as (y & Hy & E%Z.eqb_eq).
  subst. by apply list_elem_of_In.
Qed.

(** A word is followed by the end, a blank or a symbol. *)
Lemma skipws_word c s : wordchar c = true -> skipws (c :: s) = c :: s.
Proof. intros H. simpl. by destruct (wordchar_inv c H) as (_ & -> & _). Qed.

Lemma skipws_word_ok w e : word_ok w -> skipws (w ++ e) = w ++ e.
Proof. intros [Hne Hw]. destruct w as [|c w]; [done|]. inversion Hw; subst. by apply skipws_word. Qed.

Lemma skipword_word w e : Forall (fun c => wordchar c = true) w -> wordchar (at_ptr e) = false -> at_ptr e <> 0 \/ e = [] -> skipword (w ++ e) = e.
Proof.
  intros Hw He He'. induction Hw as [|c w Hc Hw IH]; [|simpl app; by rewrite skipword_cons]. simpl. destruct e as [|c e]; [done|]. simpl in *.
  destruct He' as [H0|]; [|done]. unfold wordchar in He. rewrite (proj2 (nz_true c) H0) in He. simpl in He. by rewrite He.
Qed.

(** The token of a word. *)
Lemma gettoken_word w e s : word_ok w -> skipws s = w ++ e -> wordchar (at_ptr e) = false -> at_ptr e <> 0 \/ e = [] ->
  gettoken s = (97, w ++ e, e, skipws e).
Proof.
  intros [Hne Hw] Hs He He'. rewrite gettoken_eq, Hs. destruct w as [|c w]; [done|]. inversion Hw as [|? ? Hc Hw']; subst.
  destruct (wordchar_inv c Hc) as (H0 & _ & H2). unfold token. cbn [app at_ptr]. rewrite (proj2 (Z.eqb_neq _ _) H0).
  assert (E : existsb (Z.eqb c) (bytes "|();&<") = false).
  { destruct (existsb _ _) eqn:E; [|done]. enough (strchr symbols c = true) by congruence. apply strchr_in. split; [done|].
    apply existsb_exists in E as (x & Hx & Ex%Z.eqb_eq). subst x. apply list_elem_of_In in Hx. exact (sub_dec (bytes "|();&<") symbols eq_refl _ Hx). }
  rewrite E. destruct (Z.eqb_spec c 62) as [->|]; [done|]. change (c :: w ++ e) with ((c :: w) ++ e). by rewrite skipword_word.
Qed.

(** The token of a symbol. *)
Lemma gettoken_symbol c s : c ∈ bytes "|();&<" -> gettoken (c :: s) = (c, c :: s, s, skipws s).
Proof.
  intros Hc. assert (E : skipws (c :: s) = c :: s /\ token (c :: s) = (c, s)).
  { unfold bytes in Hc. simpl in Hc. rewrite !elem_of_cons, elem_of_nil in Hc. by destruct Hc as [->|[->|[->|[->|[->|[->|[]]]]]]]. }
  destruct E as [E1 E2]. by rewrite gettoken_eq, E1, E2.
Qed.

(** ** Blanks in front do not matter *)

Lemma redirs_skipws n s : parseredirs n (skipws s) = parseredirs n s.
Proof. destruct n; cbn [parseredirs]; by rewrite !peek_eq, skipws_idem. Qed.
Lemma args_skipws n argv rs s : parseargs n argv rs (skipws s) = parseargs n argv rs s.
Proof. destruct n; cbn [parseargs]; by rewrite !peek_eq, skipws_idem. Qed.
Lemma exec_skipws n s : parseexec n (skipws s) = parseexec n s.
Proof. destruct n; cbn [parseexec]; [done|]. by rewrite !peek_eq, skipws_idem. Qed.
Lemma pipe_skipws n s : parsepipe n (skipws s) = parsepipe n s.
Proof. destruct n; cbn [parsepipe]; [done|]. by rewrite exec_skipws. Qed.
Lemma line_skipws n s : parseline n (skipws s) = parseline n s.
Proof. destruct n; cbn [parseline]; [done|]. by rewrite pipe_skipws. Qed.

(** ** What may come next *)

Definition follow (l : list Z) (s : cptr) : Prop := skipws s = [] \/ strchr l (at_ptr (skipws s)) = true.

Lemma follow_not l l' s : follow l s -> forallb (fun x => negb (existsb (Z.eqb x) l')) l = true -> strchr l' (at_ptr (skipws s)) = false.
Proof.
  intros [H|H] Hd; [by rewrite H|]. apply strchr_in in H as [H0 Hin]. destruct (strchr l' _) eqn:E; [|done].
  apply strchr_in in E as [_ Hin']. rewrite forallb_forall in Hd. apply list_elem_of_In in Hin. apply Hd in Hin. apply negb_true_iff in Hin.
  rewrite <- Hin. symmetry. apply existsb_exists. exists (at_ptr (skipws s)). split; [by apply list_elem_of_In|apply Z.eqb_refl].
Qed.

Lemma follow_sub l l' s : follow l s -> forallb (fun x => existsb (Z.eqb x) l') l = true -> follow l' s.
Proof.
  intros [H|H] Hs; [by left|]. right. apply strchr_in in H as [H0 Hin]. apply strchr_in. split; [done|]. by apply (sub_dec l).
Qed.

(** ** Redirections *)

Definition rtext (r : redir wptr) : redir word := MkRedir (text (r_file r)) (r_mode r) (r_fd r).

Lemma wrap_text c rs : cmd_map text (wrap c rs) = wrap (cmd_map text c) (rtext <$> rs).
Proof. unfold wrap. revert c. induction rs as [|r rs IH]; intros c; simpl; [done|]. by rewrite IH. Qed.

Lemma word_text w e : text (w ++ 32 :: e, 32 :: e) = w.
Proof. apply text_app. Qed.

(** The two tokens of a redirection. *)
Lemma redir_tokens r s : redir_ok r -> exists t q e,
  strchr (bytes "<>") (at_ptr (skipws (print_redir r ++ s))) = true
  /\ gettoken (skipws (print_redir r ++ s)) = (t, q, e, r_file r ++ 32 :: s)
  /\ (if t =? 60 then (O_RDONLY, 0) else if t =? 62 then (1537, 1) else (513, 1)) = (r_mode r, r_fd r).
Proof.
  destruct r as [f m d]. unfold redir_ok, print_redir, print_word. cbn [r_file r_mode r_fd]. intros [[Hne Hw] Hk].
  destruct f as [|c w]; [done|]. inversion Hw as [|? ? Hc _]; subst. destruct (wordchar_inv c Hc) as (H0 & _ & H2).
  assert (Hok : word_ok (c :: w)) by done. assert (H62 : (c =? 62) = false) by (apply Z.eqb_neq; intros ->; done).
  rewrite !elem_of_cons, elem_of_nil in Hk. rewrite <- !app_assoc.
  destruct Hk as [[= -> ->]|[[= -> ->]|[[= -> ->]|[]]]].
  - exists 60, (60 :: (c :: w) ++ 32 :: s), ((c :: w) ++ 32 :: s). split; [done|]. split; [|done]. change (gettoken (60 :: (c :: w) ++ 32 :: s) = (60, 60 :: (c :: w) ++ 32 :: s, (c :: w) ++ 32 :: s, (c :: w) ++ 32 :: s)).
    rewrite gettoken_symbol by (by apply (bool_decide_unpack _); vm_compute). by rewrite skipws_word_ok.
  - exists 62, (62 :: (c :: w) ++ 32 :: s), ((c :: w) ++ 32 :: s). split; [done|]. split; [|done].
    change (gettoken (62 :: (c :: w) ++ 32 :: s) = (62, 62 :: (c :: w) ++ 32 :: s, (c :: w) ++ 32 :: s, (c :: w) ++ 32 :: s)).
    rewrite gettoken_eq. change (skipws (62 :: (c :: w) ++ 32 :: s)) with (62 :: (c :: w) ++ 32 :: s). 
    assert (Et : token (62 :: (c :: w) ++ 32 :: s) = (62, (c :: w) ++ 32 :: s)).
    { unfold token. cbn [at_ptr tail app]. change (existsb (Z.eqb 62) (bytes "|();&<")) with false. cbn [Z.eqb Pos.eqb]. by rewrite H62. }
    rewrite Et. cbn [fst snd]. by rewrite skipws_word_ok.
  - exists 43, (62 :: 62 :: (c :: w) ++ 32 :: s), ((c :: w) ++ 32 :: s). split; [done|]. split; [|done].
    change (gettoken (62 :: 62 :: (c :: w) ++ 32 :: s) = (43, 62 :: 62 :: (c :: w) ++ 32 :: s, (c :: w) ++ 32 :: s, (c :: w) ++ 32 :: s)).
    rewrite gettoken_eq. change (skipws (62 :: 62 :: (c :: w) ++ 32 :: s)) with (62 :: 62 :: (c :: w) ++ 32 :: s). 
    assert (Et : token (62 :: 62 :: (c :: w) ++ 32 :: s) = (43, (c :: w) ++ 32 :: s)).
    { unfold token. cbn [at_ptr tail app]. change (existsb (Z.eqb 62) (bytes "|();&<")) with false. done. }
    rewrite Et. cbn [fst snd]. by rewrite skipws_word_ok.
Qed.

Lemma redirs_print rs n s : Forall redir_ok rs -> strchr (bytes "<>") (at_ptr (skipws s)) = false ->
  (length rs <= n)%nat -> exists rs', parseredirs n (mjoin (print_redir <$> rs) ++ s) = Ret (rs', skipws s) /\ rtext <$> rs' = rs.
Proof.
  intros Hrs Hs. revert n. induction Hrs as [|r rs Hr Hrs IH]; intros n Hn.
  { exists []. split; [|done]. simpl. destruct n; cbn [parseredirs]; by rewrite peek_eq, Hs. }
  destruct n as [|n]; [simpl in Hn; lia|]. cbn [mjoin list_join fmap list_fmap]. rewrite <- app_assoc. set (rest := mjoin (print_redir <$> rs) ++ s).
  destruct (redir_tokens r rest Hr) as (t & q & e & Hp & Ht & Hk). cbn [parseredirs]. rewrite peek_eq, Hp, Ht. cbn [negb].
  destruct Hr as [Hf _]. assert (Hws : skipws (r_file r ++ 32 :: rest) = r_file r ++ 32 :: rest) by (by apply skipws_word_ok).
  rewrite (gettoken_word (r_file r) (32 :: rest)) by (auto; left; done). cbn [Z.eqb negb Pos.eqb].
  change (skipws (32 :: rest)) with (skipws rest). rewrite redirs_skipws. assert (E : exists rs', parseredirs n rest = Ret (rs', skipws s) /\ rtext <$> rs' = rs) by (apply IH; simpl in Hn; lia).
  destruct E as (rs' & E & Ers'). rewrite E.
  cbn [mbind outcome_bind]. eexists. split; [reflexivity|]. rewrite fmap_cons. rewrite Ers'. f_equal.
  destruct r as [f m d]. unfold rtext. cbn [r_file r_mode r_fd] in *. destruct (t =? 60); [|destruct (t =? 62)]; injection Hk as <- <-;
    cbn [r_file r_mode r_fd]; by rewrite word_text.
Qed.

(** ** Arguments *)

Abbreviation stops := (bytes "|)&;").
Definition redirs_text (rs : list (redir word)) : list Z := mjoin (print_redir <$> rs).
Definition words_text (ws : list word) : list Z := mjoin (print_word <$> ws).

Lemma words_text_cons w ws s : words_text (w :: ws) ++ s = w ++ 32 :: words_text ws ++ s.
Proof. unfold words_text, print_word. cbn [fmap list_fmap mjoin list_join]. by rewrite <- !app_assoc. Qed.

(** The first character of a word is no symbol. *)
Lemma word_head l w s : word_ok w -> forallb (fun x => existsb (Z.eqb x) symbols) l = true -> strchr l (at_ptr (skipws (w ++ s))) = false.
Proof.
  intros Hw Hl. rewrite skipws_word_ok by done. destruct Hw as [Hne Hw]. destruct w as [|c w]; [done|]. inversion Hw as [|? ? Hc _]; subst.
  simpl. destruct (wordchar_inv c Hc) as (_ & _ & H2). revert H2. apply strchr_sub. by apply sub_dec.
Qed.

Lemma redir_head l r s : redir_ok r -> forallb (fun x => negb (existsb (Z.eqb x) (bytes "<>"))) l = true ->
  strchr l (at_ptr (skipws (print_redir r ++ s))) = false.
Proof.
  intros Hr Hl. destruct (redir_tokens r s Hr) as (_ & _ & _ & Hp & _). destruct (strchr l _) eqn:E; [|done].
  apply strchr_in in E as [_ E], Hp as [_ Hp]. rewrite forallb_forall in Hl. apply list_elem_of_In in E. apply Hl in E. apply negb_true_iff in E.
  rewrite <- E. symmetry. apply existsb_exists. eexists. split; [by apply list_elem_of_In|apply Z.eqb_refl].
Qed.

Lemma redirs_fuel rs s : Forall redir_ok rs -> (length rs <= length (skipws (redirs_text rs ++ s)))%nat.
Proof.
  intros Hrs. assert (Hl : (length rs <= length (redirs_text rs))%nat).
  { clear Hrs. induction rs as [|r rs IH]; [done|]. unfold redirs_text in *. cbn [fmap list_fmap mjoin list_join length] in *. rewrite length_app.
    assert (Hr : (1 <= length (print_redir r))%nat) by (unfold print_redir, print_word; rewrite !length_app; simpl; lia).
    exact (Nat.add_le_mono 1 _ (length rs) _ Hr IH). }
  destruct Hrs as [|r rs Hr Hrs]; [simpl; lia|]. assert (E : skipws (redirs_text (r :: rs) ++ s) = redirs_text (r :: rs) ++ s).
  { unfold redirs_text. cbn [fmap list_fmap mjoin list_join]. unfold print_redir at 1 3. by destruct (_ =? _); [|destruct (_ =? _)]. }
  rewrite E, length_app. lia.
Qed.

Lemma args_stop n argv rs s : follow stops s -> (1 <= n)%nat -> parseargs n argv rs s = Ret (argv, rs, skipws s).
Proof.
  intros Hf Hn. destruct n as [|n]; [lia|]. cbn [parseargs]. rewrite peek_eq. destruct Hf as [E|E]; [|by rewrite E].
  rewrite E. by destruct (strchr _ _).
Qed.

Lemma args_print args argv0 rs0 n rs s : Forall word_ok args -> args <> [] -> Forall redir_ok rs -> follow stops s ->
  (length argv0 + length args < MAXARGS)%nat -> (length args < n)%nat ->
  exists argv' rs', parseargs n argv0 rs0 (words_text args ++ redirs_text rs ++ s) = Ret (argv0 ++ argv', rs0 ++ rs', skipws s)
    /\ text <$> argv' = args /\ rtext <$> rs' = rs.
Proof.
  intros Ha Hne Hrs Hf. revert argv0 rs0 n. induction Ha as [|w args Hw Ha IH]; intros argv0 rs0 n Hmax Hn; [done|].
  destruct n as [|n]; [lia|]. rewrite words_text_cons. set (t := words_text args ++ redirs_text rs ++ s). cbn [parseargs].
  rewrite peek_eq, (word_head stops w) by done. rewrite (gettoken_word w (32 :: t)) by (try done; first [by rewrite skipws_idem, skipws_word_ok|by left]).
  cbn [Z.eqb Pos.eqb negb]. change (skipws (32 :: t)) with (skipws t). rewrite redirs_skipws.
  rewrite (proj2 (Nat.leb_gt _ _)) by (rewrite length_app; simpl in *; lia).
  destruct args as [|w2 args].
  - destruct (redirs_print rs (length (skipws t)) s Hrs) as (rs' & E & Ers); [by apply (follow_not stops)|by apply redirs_fuel|].
    assert (E' : parseredirs (length (skipws t)) t = Ret (rs', skipws s)) by exact E. rewrite E'. cbn [mbind outcome_bind].
    rewrite args_skipws, args_stop by (done || (simpl in *; lia)). exists [(w ++ 32 :: t, 32 :: t)], rs'. split; [done|]. split; [|done]. simpl. by rewrite word_text.
  - assert (E : parseredirs (length (skipws t)) t = Ret ([], skipws t)).
    { unfold t at 2 3. rewrite words_text_cons. destruct (length (skipws t)); cbn [parseredirs]; rewrite peek_eq, (word_head (bytes "<>") w2); try done; by inversion Ha. }
    rewrite E. cbn [mbind outcome_bind]. rewrite args_skipws, app_nil_r.
    destruct (IH ltac:(done) (argv0 ++ [(w ++ 32 :: t, 32 :: t)]) rs0 n) as (argv' & rs' & E2 & Et & Er); [rewrite length_app; simpl in *; lia|simpl in *; lia|].
    assert (E2' : parseargs n (argv0 ++ [(w ++ 32 :: t, 32 :: t)]) rs0 t = Ret ((argv0 ++ [(w ++ 32 :: t, 32 :: t)]) ++ argv', rs0 ++ rs', skipws s)) by exact E2.
    rewrite E2'. exists ((w ++ 32 :: t, 32 :: t) :: argv'), rs'. rewrite <- app_assoc. split; [done|]. split; [|done]. rewrite fmap_cons, word_text. by rewrite Et.
Qed.

(** ** The levels of the grammar *)

(** [c], with redirections after it, where a simple command or a block stands. *)
Definition reads_exec (c : cmd word) : Prop := forall rs n s, Forall redir_ok rs -> follow stops s ->
  (4 * length (print LExec c ++ redirs_text rs ++ s) + 2 <= n)%nat ->
  exists c', parseexec n (print LExec c ++ redirs_text rs ++ s) = Ret (c', skipws s) /\ cmd_map text c' = wrap c rs.

Definition reads_pipe (c : cmd word) : Prop := forall n s, follow (bytes ")&;") s ->
  (4 * length (print LPipe c ++ s) + 3 <= n)%nat ->
  exists c', parsepipe n (print LPipe c ++ s) = Ret (c', skipws s) /\ cmd_map text c' = c.

(** The pipeline inside [c], and the [&]s that make it [c]. *)
Definition reads_back (c : cmd word) : Prop := forall n s, follow (bytes ")&;") s ->
  (4 * length (print LBack c ++ s) + 3 <= n)%nat ->
  exists c0 r c', parsepipe n (print LBack c ++ s) = Ret (c0, r) /\ cmd_map text c' = c
    /\ forall m, (length r <= m)%nat -> exists m', (length (skipws s) <= m')%nat /\ parsebacks m c0 r = parsebacks m' c' (skipws s).

Definition reads_line (c : cmd word) : Prop := forall n s, follow (bytes ")") s ->
  (4 * length (print LLine c ++ s) + 4 <= n)%nat ->
  exists c', parseline n (print LLine c ++ s) = Ret (c', skipws s) /\ cmd_map text c' = c.

Lemma symbol_in c s : c ∈ bytes "|();&<" -> skipws (c :: s) = c :: s.
Proof.
  intros Hc. unfold bytes in Hc. simpl in Hc. rewrite !elem_of_cons, elem_of_nil in Hc. by destruct Hc as [->|[->|[->|[->|[->|[->|[]]]]]]].
Qed.

Lemma follow_symbol c l s : c ∈ bytes "|();&<" -> strchr l c = true -> follow l (c :: s).
Proof. intros Hc Hl. right. by rewrite symbol_in. Qed.

Lemma exec_words args : Forall word_ok args -> (length args < MAXARGS)%nat -> reads_exec (EXEC args).
Proof.
  intros Ha Hmax rs n s Hrs Hf Hn. change (print LExec (EXEC args)) with (words_text args) in *. destruct n as [|n]; [lia|]. cbn [parseexec].
  rewrite peek_eq. destruct args as [|w args].
  - change (words_text [] ++ redirs_text rs ++ s) with (redirs_text rs ++ s).
    assert (Hp : strchr (bytes "(") (at_ptr (skipws (redirs_text rs ++ s))) = false).
    { destruct Hrs as [|r rs Hr Hrs]; [by apply (follow_not stops)|]. unfold redirs_text. cbn [fmap list_fmap mjoin list_join].
      rewrite <- app_assoc. by apply redir_head. }
    rewrite Hp, redirs_skipws. destruct (redirs_print rs (length (skipws (redirs_text rs ++ s))) s Hrs) as (rs' & E & Er);
      [by apply (follow_not stops)|by apply redirs_fuel|]. fold (redirs_text rs) in E. rewrite E. cbn [mbind outcome_bind].
    rewrite args_skipws, args_stop by (done || lia). eexists. split; [done|]. by rewrite wrap_text, Er.
  - inversion Ha as [|? ? Hw Ha']; subst. assert (E1 : strchr (bytes "(") (at_ptr (skipws (words_text (w :: args) ++ redirs_text rs ++ s))) = false
      /\ strchr (bytes "<>") (at_ptr (skipws (words_text (w :: args) ++ redirs_text rs ++ s))) = false).
    { rewrite words_text_cons. split; by apply word_head. }
    destruct E1 as [E1 E2]. set (t := words_text (w :: args) ++ redirs_text rs ++ s) in *. rewrite E1, redirs_skipws.
    assert (E3 : forall m, parseredirs m t = Ret ([], skipws t)) by (intros [|m]; cbn [parseredirs]; by rewrite peek_eq, E2).
    rewrite E3. cbn [mbind outcome_bind]. rewrite args_skipws.
    assert (Hl : (length (w :: args) <= length (skipws t))%nat).
    { unfold t. rewrite words_text_cons, skipws_word_ok, <- words_text_cons by done. rewrite length_app.
      enough (length (w :: args) <= length (words_text (w :: args)))%nat by lia. clear -Ha. induction Ha as [|v l Hv _ IH]; [done|].
      rewrite <- (app_nil_r (words_text (v :: l))), words_text_cons, !length_app. simpl. rewrite length_app. lia. }
    destruct (args_print (w :: args) [] [] (S (length (skipws t))) rs s Ha ltac:(done) Hrs Hf Hmax ltac:(lia)) as (argv' & rs' & E4 & Et & Er).
    fold t in E4. rewrite !app_nil_l in E4. rewrite E4. eexists. split; [done|]. rewrite wrap_text, Er. cbn [cmd_map]. by rewrite Et.
Qed.

(** A block in parentheses. *)
Lemma exec_block c : print LExec c = paren true (print LLine c) -> reads_line c -> reads_exec c.
Proof.
  intros Ep HL rs n s Hrs Hf Hn. rewrite Ep in *. unfold paren in *. rewrite <- !app_assoc in *. set (rest := bytes ")" ++ redirs_text rs ++ s) in *.
  change (bytes "(" ++ print LLine c ++ rest) with (40 :: print LLine c ++ rest) in *. assert (Hin : 40 ∈ bytes "|();&<") by (by apply (bool_decide_unpack _); vm_compute).
  destruct n as [|[|n]]; [lia|lia|]. cbn [parseexec parseblock]. rewrite !peek_eq, !symbol_in by done. change (strchr (bytes "(") (at_ptr (40 :: print LLine c ++ rest))) with true.
  cbn [negb]. rewrite gettoken_symbol, line_skipws by done.
  destruct (HL n rest) as (c' & E & Ec); [by apply (follow_symbol 41); [apply (bool_decide_unpack _); vm_compute|]|simpl in Hn; lia|].
  rewrite E. cbn [mbind outcome_bind]. rewrite peek_eq, skipws_idem. change rest with (41 :: redirs_text rs ++ s). assert (Hin2 : 41 ∈ bytes "|();&<") by (by apply (bool_decide_unpack _); vm_compute).
  rewrite symbol_in by done. change (strchr (bytes ")") (at_ptr (41 :: redirs_text rs ++ s))) with true. cbn [negb]. rewrite gettoken_symbol, redirs_skipws by done.
  destruct (redirs_print rs (length (skipws (redirs_text rs ++ s))) s Hrs) as (rs' & E2 & Er);
    [by apply (follow_not stops)|by apply redirs_fuel|]. fold (redirs_text rs) in E2. rewrite E2. eexists. split; [done|]. by rewrite wrap_text, Er, Ec.
Qed.

Lemma exec_redir c r : redir_ok r -> reads_exec c -> reads_exec (REDIR c r).
Proof.
  intros Hr HE rs n s Hrs Hf Hn. cbn [print] in *. rewrite <- app_assoc in *.
  change (print_redir r ++ redirs_text rs ++ s) with (print_redir r ++ redirs_text rs ++ s) in *.
  assert (E : print_redir r ++ redirs_text rs ++ s = redirs_text (r :: rs) ++ s) by (unfold redirs_text; cbn [fmap list_fmap mjoin list_join]; by rewrite <- app_assoc).
  rewrite E in *. apply HE; [by constructor|done|done].
Qed.

Lemma pipe_exec c : print LPipe c = print LExec c -> reads_exec c -> reads_pipe c.
Proof.
  intros Ep HE n s Hf Hn. rewrite Ep in *. destruct n as [|n]; [lia|]. cbn [parsepipe].
  destruct (HE [] n s) as (c' & E & Ec); [constructor|by apply (follow_sub (bytes ")&;"))|simpl; lia|]. simpl app in E. rewrite E. cbn [mbind outcome_bind].
  rewrite peek_eq, skipws_idem, (follow_not (bytes ")&;")) by done. eauto.
Qed.

Lemma pipe_pipe l r : reads_exec l -> reads_pipe r -> reads_pipe (PIPE l r).
Proof.
  intros HE HP n s Hf Hn. cbn [print paren] in *. rewrite <- !app_assoc in *. change (bytes "|" ++ print LPipe r ++ s) with (124 :: print LPipe r ++ s) in *.
  assert (Hin : 124 ∈ bytes "|();&<") by (by apply (bool_decide_unpack _); vm_compute). rewrite length_app in Hn. cbn [length] in Hn.
  destruct n as [|n]; [lia|]. cbn [parsepipe].
  destruct (HE [] n (124 :: print LPipe r ++ s)) as (c1 & E1 & Ec1); [constructor|by apply follow_symbol|simpl; rewrite length_app; simpl; lia|].
  simpl app in E1. rewrite E1. cbn [mbind outcome_bind]. rewrite peek_eq, skipws_idem, symbol_in by done. change (strchr (bytes "|") (at_ptr (124 :: print LPipe r ++ s))) with true.
  cbv iota. rewrite gettoken_symbol, pipe_skipws by done. destruct (HP n s Hf) as (c2 & E2 & Ec2); [lia|]. rewrite E2. cbn [mbind outcome_bind].
  eexists. split; [done|]. cbn [cmd_map]. rewrite Ec1, Ec2. done.
Qed.

Lemma back_pipe c : print LBack c = print LPipe c -> reads_pipe c -> reads_back c.
Proof.
  intros Ep HP n s Hf Hn. rewrite Ep in *. destruct (HP n s Hf Hn) as (c' & E & Ec). exists c', (skipws s), c'. split; [done|]. split; [done|]. eauto.
Qed.

Lemma back_back c : reads_back c -> reads_back (BACK c).
Proof.
  intros HB n s Hf Hn. cbn [print paren] in *. rewrite <- !app_assoc in *. change (bytes "&" ++ s) with (38 :: s) in *.
  assert (Hin : 38 ∈ bytes "|();&<") by (by apply (bool_decide_unpack _); vm_compute).
  destruct (HB n (38 :: s)) as (c0 & r & c' & E & Ec & Hb); [by apply follow_symbol|done|]. exists c0, r, (BACK c'). split; [done|]. split; [by simpl; rewrite Ec|].
  intros m Hm. destruct (Hb m Hm) as (m' & Hm' & ->). rewrite symbol_in in Hm' |- * by done. destruct m' as [|m']; [simpl in Hm'; lia|].
  exists m'. pose proof (skipws_length s). split; [simpl in Hm'; lia|]. cbn [parsebacks]. rewrite peek_eq, symbol_in by done.
  change (strchr (bytes "&") (at_ptr (38 :: s))) with true. cbn [negb]. by rewrite gettoken_symbol.
Qed.

(** The pipeline with its [&]s, as [parseline] reads it. *)
Lemma back_whole c n s : reads_back c -> follow (bytes ");") s -> (4 * length (print LBack c ++ s) + 3 <= n)%nat ->
  exists c', ('(c, s) ← parsepipe n (print LBack c ++ s); parsebacks (length s) c s) = Ret (c', skipws s) /\ cmd_map text c' = c.
Proof.
  intros HB Hf Hn. destruct (HB n s) as (c0 & r & c' & E & Ec & Hb); [by apply (follow_sub (bytes ");"))|done|]. exists c'. split; [|done].
  rewrite E. cbn [mbind outcome_bind]. destruct (Hb (length r) (le_n _)) as (m' & _ & ->).
  destruct m'; cbn [parsebacks]; rewrite peek_eq, skipws_idem, (follow_not (bytes ");")) by done; done.
Qed.

Lemma line_back c : print LLine c = print LBack c -> reads_back c -> reads_line c.
Proof.
  intros Ep HB n s Hf Hn. rewrite Ep in *. destruct n as [|n]; [lia|]. cbn [parseline].
  destruct (back_whole c n s HB) as (c' & E & Ec); [by apply (follow_sub (bytes ")"))|lia|]. exists c'. split; [|done].
  destruct (parsepipe n (print LBack c ++ s)) as [[c1 s1]| | |]; cbn [mbind outcome_bind] in E |- *; try done. rewrite E. cbn [mbind outcome_bind].
  by rewrite peek_eq, skipws_idem, (follow_not (bytes ")")) by done.
Qed.

Lemma line_list l r : reads_back l -> reads_line r -> reads_line (LIST l r).
Proof.
  intros HB HL n s Hf Hn. cbn [print paren] in *. rewrite <- !app_assoc in *. change (bytes ";" ++ print LLine r ++ s) with (59 :: print LLine r ++ s) in *.
  assert (Hin : 59 ∈ bytes "|();&<") by (by apply (bool_decide_unpack _); vm_compute). rewrite length_app in Hn. cbn [length] in Hn.
  destruct n as [|n]; [lia|]. cbn [parseline].
  destruct (back_whole l n (59 :: print LLine r ++ s) HB) as (c1 & E1 & Ec1); [by apply follow_symbol|rewrite length_app; simpl; lia|].
  destruct (parsepipe n (print LBack l ++ 59 :: print LLine r ++ s)) as [[c0 s1]| | |]; cbn [mbind outcome_bind] in E1 |- *; try done. rewrite E1. cbn [mbind outcome_bind].
  rewrite peek_eq, skipws_idem, symbol_in by done. change (strchr (bytes ";") (at_ptr (59 :: print LLine r ++ s))) with true. cbv iota.
  rewrite gettoken_symbol, line_skipws by done. destruct (HL n s Hf) as (c2 & E2 & Ec2); [lia|]. rewrite E2. cbn [mbind outcome_bind].
  eexists. split; [done|]. cbn [cmd_map]. rewrite Ec1, Ec2. done.
Qed.

Lemma reads_all c : cmd_ok c -> reads_exec c /\ reads_pipe c /\ reads_back c /\ reads_line c.
Proof.
  induction c as [args|c IH r|l IHl r IHr|l IHl r IHr|c IH]; cbn [cmd_ok]; intros H.
  - destruct H as [Ha Hn]. pose proof (exec_words args Ha Hn) as HE. pose proof (pipe_exec (EXEC args) eq_refl HE) as HP.
    pose proof (back_pipe (EXEC args) eq_refl HP) as HB. auto using line_back.
  - destruct H as [Hc Hr]. destruct (IH Hc) as (HE0 & _). pose proof (exec_redir c r Hr HE0) as HE. pose proof (pipe_exec (REDIR c r) eq_refl HE) as HP.
    pose proof (back_pipe (REDIR c r) eq_refl HP) as HB. auto using line_back.
  - destruct H as [Hl Hr]. destruct (IHl Hl) as (HEl & _). destruct (IHr Hr) as (_ & HPr & _). pose proof (pipe_pipe l r HEl HPr) as HP.
    pose proof (back_pipe (PIPE l r) eq_refl HP) as HB. pose proof (line_back (PIPE l r) eq_refl HB) as HL. auto using exec_block.
  - destruct H as [Hl Hr]. destruct (IHl Hl) as (_ & _ & HBl & _). destruct (IHr Hr) as (_ & _ & _ & HLr). pose proof (line_list l r HBl HLr) as HL.
    pose proof (exec_block (LIST l r) eq_refl HL) as HE. pose proof (pipe_exec (LIST l r) eq_refl HE) as HP. auto using back_pipe.
  - destruct (IH H) as (_ & _ & HB0 & _). pose proof (back_back c HB0) as HB. pose proof (line_back (BACK c) eq_refl HB) as HL.
    pose proof (exec_block (BACK c) eq_refl HL) as HE. auto using pipe_exec.
Qed.

(** Concrete commands are checked by evaluation. *)
Lemma word_ok_eval w : forallb wordchar w = true -> w <> [] -> word_ok w.
Proof.
  intros Hw Hne. split; [done|]. apply Forall_forall. intros c Hc. rewrite forallb_forall in Hw. by apply Hw, list_elem_of_In.
Qed.

Ltac cmd_ok_eval :=
  cbn [cmd_ok]; unfold redir_ok, MAXARGS; cbn [r_file r_mode r_fd];
  repeat (match goal with |- _ /\ _ => split | |- Forall _ _ => constructor | |- word_ok _ => apply word_ok_eval end);
  try (vm_compute; reflexivity); try (vm_compute; congruence); try (simpl; lia); apply (bool_decide_unpack _); vm_compute; exact Logic.I.

End ShPrint.
