(* ===== verification/ShWords.v ===== *)
(** * The shell: the words of a parsed line

    Whatever line is parsed, the words of the command are stretches of ordinary
    characters of the line, each followed by something else; so [nulterminate],
    which writes a 0 after each of them, damages none, and every word reads
    afterwards as the text between its two pointers. *)

From S2P Require Import Prelude Riscv ProcDefs Sh ShParse ShPrint.
From Stdlib Require Import ZArith Lia Ascii String.
From stdpp Require Import base list numbers strings sets.

#[local] Open Scope Z_scope.

Import Sh ShParse ShPrint.

Module ShWords.

Fixpoint words (c : cmd wptr) : list wptr :=
  match c with
  | EXEC argv => argv
  | REDIR c r => words c ++ [r_file r]
  | PIPE l r | LIST l r => words l ++ words r
  | BACK c => words c
  end.

Lemma ends_words c : ends c = snd <$> words c.
Proof. induction c as [a|c IH r|l IHl r IHr|l IHl r IHr|c IH]; cbn [ends words]; rewrite ?fmap_app, ?IH, ?IHl, ?IHr; done. Qed.

Lemma words_wrap c rs : words (wrap c rs) = words c ++ (r_file <$> rs).
Proof.
  unfold wrap. revert c. induction rs as [|r rs IH]; intros c; simpl; [by rewrite app_nil_r|]. rewrite IH. simpl. by rewrite <- app_assoc.
Qed.

(** A word found in [s]. *)
Definition wgood (s : cptr) (w : wptr) : Prop :=
  fst w `suffix_of` s /\ exists x, fst w = x ++ snd w /\ word_ok x /\ wordchar (at_ptr (snd w)) = false.

Lemma wgood_suffix s s' w : s' `suffix_of` s -> wgood s' w -> wgood s w.
Proof. intros Hs [Hw Hx]. split; [by etrans|done]. Qed.

Lemma wgood_all s s' ws : s' `suffix_of` s -> Forall (wgood s') ws -> Forall (wgood s) ws.
Proof. intros Hs H. eapply Forall_impl; [exact H|]. intros w. by apply wgood_suffix. Qed.

(** ** Pointers only move forward *)

Lemma skipws_suffix s : skipws s `suffix_of` s.
Proof. induction s as [|c s IH]; simpl; [done|]. destruct (strchr whitespace c); [by apply suffix_cons_r|done]. Qed.
Lemma skipword_suffix s : skipword s `suffix_of` s.
Proof. induction s as [|c s IH]; simpl; [done|]. destruct (_ && _); [by apply suffix_cons_r|done]. Qed.
Lemma tail_suffix (s : cptr) : tail s `suffix_of` s.
Proof. destruct s; [done|]. by apply suffix_cons_r. Qed.

Lemma token_suffix q : snd (token q) `suffix_of` q.
Proof.
  unfold token. destruct (_ =? 0); [done|]. destruct (existsb _ _); [apply tail_suffix|]. destruct (_ =? 62); [|apply skipword_suffix].
  destruct (_ =? 62); [|apply tail_suffix]. simpl. etrans; [apply tail_suffix|apply tail_suffix].
Qed.

Lemma gettoken_suffix s t q e s' : gettoken s = (t, q, e, s') -> q `suffix_of` s /\ s' `suffix_of` s.
Proof.
  rewrite gettoken_eq. intros [= _ <- _ <-]. split; [apply skipws_suffix|].
  etrans; [apply skipws_suffix|]. etrans; [apply token_suffix|apply skipws_suffix].
Qed.

(** Where [skipword] stops. *)
Lemma skipword_split s : exists x, s = x ++ skipword s /\ Forall (fun c => negb (strchr whitespace c) && negb (strchr symbols c) = true) x
  /\ wordchar (at_ptr (skipword s)) = false.
Proof.
  induction s as [|c s (x & E & Hx & He)]; simpl; [by exists []|]. destruct (negb (strchr whitespace c) && negb (strchr symbols c)) eqn:Ec.
  - exists (c :: x). split; [simpl; by f_equal|]. split; [by constructor|done].
  - exists []. split; [done|]. split; [done|]. simpl. unfold wordchar. rewrite <- andb_assoc, Ec. apply andb_false_r.
Qed.

Section Line.
(** A line has no 0 before its end. *)
Abbreviation line s := (Forall (fun c => c <> 0) s).

Lemma line_suffix s s' : s' `suffix_of` s -> line s -> line s'.
Proof. intros [k ->] H. by apply Forall_app in H as [_ ?]. Qed.

Lemma gettoken_good s t q e s' : line s -> gettoken s = (t, q, e, s') -> t = 97 -> wgood s (q, e).
Proof.
  intros Hl E Ht. destruct (gettoken_suffix _ _ _ _ _ E) as [Hq _]. split; [done|]. rewrite gettoken_eq in E. injection E as E1 <- <- _. rewrite Ht in E1. clear Ht t.
  pose proof (skipws_head s) as Hw. apply (line_suffix _ _ (skipws_suffix s)) in Hl. set (q := skipws s) in *. clearbody q. revert E1. unfold token.
  destruct (Z.eqb_spec (at_ptr q) 0) as [|H0]; [done|]. destruct (existsb _ _) eqn:Es.
  { intros E1. simpl in E1. rewrite E1 in Es. done. }
  destruct (Z.eqb_spec (at_ptr q) 62) as [H62|H62]; [by destruct (_ =? 62)|]. intros _. cbn [snd fst].
  destruct (skipword_split q) as (x & E & Hx & He). exists x. split; [exact E|]. split; [|exact He].
  assert (Hxl : line x) by (rewrite E in Hl; by apply Forall_app in Hl as [? _]). split.
  - intros ->. simpl in E. pose proof (word_start _ H0 Hw Es H62) as Hs. rewrite E in Hs. congruence.
  - rewrite Forall_forall in *. intros c Hc. unfold wordchar. rewrite <- andb_assoc, (Hx c Hc), (proj2 (nz_true c) (Hxl c Hc)). done.
Qed.

Lemma redirs_good n s rs s' : line s -> parseredirs n s = Ret (rs, s') -> s' `suffix_of` s /\ Forall (wgood s) (r_file <$> rs).
Proof.
  revert s rs. induction n as [|n IH]; intros s rs Hl; cbn [parseredirs]; rewrite peek_eq; (destruct (strchr _ _); cbn [negb];
    [|intros [= <- <-]; split; [apply skipws_suffix|constructor]]); [done|].
  destruct (gettoken (skipws s)) as [[[t q] e] s1] eqn:E1. destruct (gettoken_suffix _ _ _ _ _ E1) as [_ S1].
  assert (S1' : s1 `suffix_of` s) by (etrans; [exact S1|apply skipws_suffix]). pose proof (line_suffix _ _ S1' Hl) as Hl1.
  destruct (gettoken s1) as [[[t2 q2] e2] s2] eqn:E2. destruct (gettoken_suffix _ _ _ _ _ E2) as [_ S2].
  destruct (Z.eqb_spec t2 97) as [Ht2|]; cbn [negb]; [|done]. pose proof (gettoken_good _ _ _ _ _ Hl1 E2 Ht2) as G.
  intros ([rs' s3] & E3 & [= <- <-])%bind_Ret. destruct (IH s2 rs' (line_suffix _ _ S2 Hl1) E3) as [S3 G3].
  split; [etrans; [exact S3|etrans; [exact S2|done]]|]. cbn [fmap list_fmap]. constructor.
  - destruct (t =? 60); [|destruct (t =? 62)]; by apply (wgood_suffix s s1).
  - apply (wgood_all s s2); [by etrans|done].
Qed.

Lemma args_good n argv rs s argv' rs' s' : line s -> parseargs n argv rs s = Ret (argv', rs', s') ->
  s' `suffix_of` s /\ exists a r, argv' = argv ++ a /\ rs' = rs ++ r /\ Forall (wgood s) a /\ Forall (wgood s) (r_file <$> r).
Proof.
  revert argv rs s. induction n as [|n IH]; intros argv rs s Hl; cbn [parseargs]; rewrite peek_eq; pose proof (skipws_suffix s) as S0;
    (destruct (strchr _ _); [intros [= <- <- <-]; split; [done|]; exists [], []; rewrite !app_nil_r; auto|]); [done|].
  destruct (gettoken (skipws s)) as [[[t q] e] s1] eqn:E1. destruct (gettoken_suffix _ _ _ _ _ E1) as [_ S1].
  assert (S1' : s1 `suffix_of` s) by (by etrans). destruct (Z.eqb_spec t 0) as [|_].
  { intros [= <- <- <-]. split; [done|]. exists [], []. rewrite !app_nil_r. auto. }
  destruct (Z.eqb_spec t 97) as [Ht|]; cbn [negb]; [|done]. pose proof (gettoken_good _ _ _ _ _ (line_suffix _ _ S0 Hl) E1 Ht) as G.
  destruct (_ <=? _)%nat; [done|]. intros ([r1 s2] & E2 & E3)%bind_Ret. destruct (redirs_good _ _ _ _ (line_suffix _ _ S1' Hl) E2) as [S2 G2].
  assert (S2' : s2 `suffix_of` s) by (by etrans). destruct (IH _ _ _ (line_suffix _ _ S2' Hl) E3) as (S3 & a & r & -> & -> & Ga & Gr).
  split; [by etrans|]. exists ((q, e) :: a), (r1 ++ r). rewrite <- !app_assoc. split; [done|]. split; [done|]. split.
  - constructor; [by apply (wgood_suffix s (skipws s))|by apply (wgood_all s s2)].
  - rewrite fmap_app. apply Forall_app. split; [by apply (wgood_all s s1)|by apply (wgood_all s s2)].
Qed.

Lemma backs_good n c s c' s' : parsebacks n c s = Ret (c', s') -> s' `suffix_of` s /\ words c' = words c.
Proof.
  revert c s. induction n as [|n IH]; intros c s; cbn [parsebacks]; rewrite peek_eq; pose proof (skipws_suffix s) as S0;
    (destruct (strchr _ _); cbn [negb]; [|by intros [= <- <-]]); [done|].
  destruct (gettoken (skipws s)) as [[[t q] e] s1] eqn:E1. destruct (gettoken_suffix _ _ _ _ _ E1) as [_ S1].
  intros [S2 ->]%IH. split; [etrans; [exact S2|by etrans]|done].
Qed.

Definition good (s : cptr) (c : cmd wptr) (s' : cptr) : Prop := s' `suffix_of` s /\ Forall (wgood s) (words c).

Lemma parse_good n :
  (forall s c s', line s -> parseline n s = Ret (c, s') -> good s c s')
  /\ (forall s c s', line s -> parsepipe n s = Ret (c, s') -> good s c s')
  /\ (forall s c s', line s -> parseexec n s = Ret (c, s') -> good s c s')
  /\ (forall s c s', line s -> parseblock n s = Ret (c, s') -> good s c s').
Proof.
  induction n as [|n (IL & IP & IE & IB)]; [done|]. split; [|split; [|split]]; intros s c s' Hl.
  - cbn [parseline]. intros ([c1 s1] & E1 & ([c2 s2] & E2 & E3)%bind_Ret)%bind_Ret. destruct (IP _ _ _ Hl E1) as [S1 G1].
    destruct (backs_good _ _ _ _ _ E2) as [S2 W2]. rewrite peek_eq in E3. assert (S3 : skipws s2 `suffix_of` s) by (etrans; [apply skipws_suffix|by etrans]).
    destruct (strchr _ _); [|injection E3 as <- <-; split; [done|by rewrite W2]].
    destruct (gettoken (skipws s2)) as [[[t q] e] s3] eqn:E4. destruct (gettoken_suffix _ _ _ _ _ E4) as [_ S4].
    assert (S4' : s3 `suffix_of` s) by (by etrans). apply bind_Ret in E3 as ([c3 s4] & E5 & [= <- <-]).
    destruct (IL _ _ _ (line_suffix _ _ S4' Hl) E5) as [S5 G5]. split; [by etrans|]. cbn [words]. rewrite W2. apply Forall_app. split; [done|by apply (wgood_all s s3)].
  - cbn [parsepipe]. intros ([c1 s1] & E1 & E3)%bind_Ret. destruct (IE _ _ _ Hl E1) as [S1 G1]. rewrite peek_eq in E3.
    assert (S3 : skipws s1 `suffix_of` s) by (etrans; [apply skipws_suffix|done]). destruct (strchr _ _); [|by injection E3 as <- <-].
    destruct (gettoken (skipws s1)) as [[[t q] e] s3] eqn:E4. destruct (gettoken_suffix _ _ _ _ _ E4) as [_ S4].
    assert (S4' : s3 `suffix_of` s) by (by etrans). apply bind_Ret in E3 as ([c3 s4] & E5 & [= <- <-]).
    destruct (IP _ _ _ (line_suffix _ _ S4' Hl) E5) as [S5 G5]. split; [by etrans|]. cbn [words]. apply Forall_app. split; [done|by apply (wgood_all s s3)].
  - cbn [parseexec]. rewrite peek_eq. pose proof (skipws_suffix s) as S0. pose proof (line_suffix _ _ S0 Hl) as Hl0. destruct (strchr _ _).
    { intros E. destruct (IB _ _ _ Hl0 E) as [S1 G1]. split; [by etrans|by apply (wgood_all s (skipws s))]. }
    intros ([rs s1] & E1 & ([[argv rs2] s2] & E2 & [= <- <-])%bind_Ret)%bind_Ret. destruct (redirs_good _ _ _ _ Hl0 E1) as [S1 G1].
    assert (S1' : s1 `suffix_of` s) by (by etrans). destruct (args_good _ _ _ _ _ _ _ (line_suffix _ _ S1' Hl) E2) as (S2 & a & r & -> & -> & Ga & Gr).
    split; [by etrans|]. rewrite words_wrap. cbn [words]. rewrite app_nil_l, fmap_app, !Forall_app. split; [by apply (wgood_all s s1)|].
    split; [by apply (wgood_all s (skipws s))|by apply (wgood_all s s1)].
  - cbn [parseblock]. rewrite peek_eq. pose proof (skipws_suffix s) as S0. destruct (strchr _ _); cbn [negb]; [|done].
    destruct (gettoken (skipws s)) as [[[t q] e] s1] eqn:E1. destruct (gettoken_suffix _ _ _ _ _ E1) as [_ S1].
    assert (S1' : s1 `suffix_of` s) by (by etrans). intros ([c1 s2] & E2 & E3)%bind_Ret. destruct (IL _ _ _ (line_suffix _ _ S1' Hl) E2) as [S2 G2].
    rewrite peek_eq in E3. destruct (strchr _ _); cbn [negb] in E3; [|done]. destruct (gettoken (skipws s2)) as [[[t2 q2] e2] s3] eqn:E4.
    destruct (gettoken_suffix _ _ _ _ _ E4) as [_ S4]. assert (S4' : s3 `suffix_of` s) by (etrans; [exact S4|etrans; [apply skipws_suffix|by etrans]]).
    apply bind_Ret in E3 as ([rs s4] & E5 & [= <- <-]). destruct (redirs_good _ _ _ _ (line_suffix _ _ S4' Hl) E5) as [S5 G5].
    split; [by etrans|]. rewrite words_wrap, Forall_app. split; [by apply (wgood_all s s1)|by apply (wgood_all s s3)].
Qed.

End Line.

(** ** Cutting the line up *)

Lemma zeros_length n es buf : length (foldl (fun buf e => zero_at n e buf) buf es) = length buf.
Proof. revert buf. induction es as [|e es IH]; intros buf; simpl; [done|]. rewrite IH. apply length_insert. Qed.

Lemma zeros_other n es buf i : (forall e, e ∈ es -> (n - length e)%nat <> i) -> foldl (fun buf e => zero_at n e buf) buf es !! i = buf !! i.
Proof.
  revert buf. induction es as [|e es IH]; intros buf H; simpl; [done|]. rewrite IH by (intros e' He; apply H; by apply list_elem_of_further).
  unfold zero_at. rewrite list_lookup_insert_ne; [done|]. apply H, list_elem_of_here.
Qed.

Lemma zeros_stay n es buf i : buf !! i = Some 0 -> foldl (fun buf e => zero_at n e buf) buf es !! i = Some 0.
Proof.
  revert buf. induction es as [|e es IH]; intros buf H; simpl; [done|]. apply IH. unfold zero_at.
  destruct (decide (i = (n - length e)%nat)) as [->|]; [|by rewrite list_lookup_insert_ne]. apply list_lookup_insert_eq. by eapply lookup_lt_Some.
Qed.

Lemma zeros_at n es buf e : e ∈ es -> (n - length e < length buf)%nat -> foldl (fun buf e => zero_at n e buf) buf es !! (n - length e)%nat = Some 0.
Proof.
  revert buf. induction es as [|e' es IH]; intros buf He Hn; [by apply not_elem_of_nil in He|]. simpl. apply elem_of_cons in He as [<-|He].
  - apply zeros_stay. by apply list_lookup_insert_eq.
  - apply IH; [done|]. unfold zero_at. by rewrite length_insert.
Qed.

Lemma cstring_at buf p x : (forall j c, x !! j = Some c -> buf !! (p + j)%nat = Some c /\ c <> 0) -> buf !! (p + length x)%nat = Some 0 ->
  cstring (drop p buf) = x.
Proof.
  revert p. induction x as [|c x IH]; intros p Hx H0; simpl in H0.
  - rewrite Nat.add_0_r in H0. rewrite (drop_S _ 0 p H0). done.
  - destruct (Hx 0%nat c eq_refl) as [Hc Hc0]. rewrite Nat.add_0_r in Hc. rewrite (drop_S _ c p Hc). cbn [cstring].
    rewrite (proj2 (Z.eqb_neq _ _) Hc0). f_equal. apply IH.
    + intros j d Hj. specialize (Hx (S j) d Hj). by rewrite Nat.add_succ_r in Hx.
    + by rewrite Nat.add_succ_r in H0.
Qed.

Lemma cmd_map_ext {W} (f g : wptr -> W) c : Forall (fun w => f w = g w) (words c) -> cmd_map f c = cmd_map g c.
Proof.
  induction c as [a|c IH r|l IHl r IHr|l IHl r IHr|c IH]; cbn [words cmd_map]; rewrite ?Forall_app; intros H.
  - f_equal. induction H as [|w a Hw _ IH]; cbn; [done|]. by rewrite Hw, IH.
  - destruct H as [H1 H2]. apply Forall_inv in H2. by rewrite (IH H1), H2.
  - destruct H as [H1 H2]. by rewrite (IHl H1), (IHr H2).
  - destruct H as [H1 H2]. by rewrite (IHl H1), (IHr H2).
  - by rewrite (IH H).
Qed.

(** The line with a 0 after each word. *)
Lemma terminated s c w : Forall (wgood s) (words c) -> w ∈ words c ->
  cstring (drop (length s - length (fst w))%nat (nulterminate (length s) c (s ++ [0]))) = text w.
Proof.
  intros Hc Hw. unfold nulterminate. rewrite ends_words. pose proof Hc as Hg. rewrite Forall_forall in Hc. destruct (Hc w Hw) as [[pre Hpre] (x & Ex & [Hne Hx] & He)].
  destruct w as [q e]. cbn [fst snd] in *. subst q. rewrite text_app. set (buf := foldl _ _ _). assert (Hlen : length s = (length pre + length x + length e)%nat) by (rewrite Hpre, !length_app; lia).
  replace (length s - length (x ++ e))%nat with (length pre) by (rewrite length_app; lia).
  assert (Hz : buf !! (length s - length e)%nat = Some 0).
  { apply zeros_at; [|rewrite length_app; simpl; lia]. apply list_elem_of_fmap. by exists (x ++ e, e). }
  apply cstring_at.
  - intros j d Hj. pose proof (lookup_lt_Some _ _ _ Hj) as Hjl. rewrite Forall_lookup in Hx. pose proof (Hx j d Hj) as Hd.
    assert (Hs : s !! (length pre + j)%nat = Some d).
    { rewrite Hpre, lookup_app_r by lia. replace (length pre + j - length pre)%nat with j by lia. by rewrite lookup_app_l. }
    split; [|exact (proj1 (wordchar_inv d Hd))]. unfold buf. rewrite zeros_other; [rewrite lookup_app_l; [done|lia]|].
    intros e' He' Ei. apply list_elem_of_fmap in He' as ([q' e''] & -> & Hw'). cbn [snd] in *. destruct (Hc _ Hw') as [[pre' Hpre'] (x' & Ex' & _ & Hbad)].
    cbn [fst snd] in *. subst q'. assert (Hl' : length s = (length pre' + length x' + length e'')%nat) by (rewrite Hpre', !length_app; lia).
    destruct e'' as [|d' e'']; [simpl in *; lia|]. simpl in Hbad. rewrite Hpre', app_assoc, lookup_app_r in Hs by (rewrite length_app; simpl in *; lia).
    rewrite length_app in Hs. replace (length pre + j - (length pre' + length x'))%nat with 0%nat in Hs by (simpl in *; lia). injection Hs as ->. congruence.
  - rewrite <- Hz. f_equal. lia.
Qed.

Lemma parsecmd_words s c buf : Forall (fun c => c <> 0) s -> parsecmd s = Ret (c, buf) ->
  Forall (wgood s) (words c) /\ read_words (length s) buf c = cmd_map text c.
Proof.
  intros Hl. unfold parsecmd. intros ([c' s'] & E & H)%bind_Ret. destruct (proj1 (parse_good _) _ _ _ Hl E) as [_ G].
  destruct (peek s' []) as [b s2]. destruct s2; [|done]. injection H as <- <-. split; [done|]. apply cmd_map_ext, Forall_forall.
  intros w Hw. by apply terminated.
Qed.

(** ** The theorems *)

Lemma bytes_line (l : list Z) : forallb (fun c => negb (c =? 0)) l = true -> Forall (fun c => c <> 0) l.
Proof. intros H. apply Forall_forall. intros c Hc. rewrite forallb_forall in H. apply list_elem_of_In in Hc. apply H, negb_true_iff, Z.eqb_neq in Hc. done. Qed.

Lemma word_line w : word_ok w -> Forall (fun c => c <> 0) (print_word w).
Proof.
  intros [_ Hw]. apply Forall_app. split; [|by apply bytes_line]. eapply Forall_impl; [exact Hw|]. intros c Hc. exact (proj1 (wordchar_inv c Hc)).
Qed.

Lemma redir_line r : redir_ok r -> Forall (fun c => c <> 0) (print_redir r).
Proof.
  intros [Hf _]. apply Forall_app. split; [|by apply word_line]. destruct (_ =? _); [by apply bytes_line|]. destruct (_ =? _); by apply bytes_line.
Qed.

Lemma paren_line p s : Forall (fun c => c <> 0) s -> Forall (fun c => c <> 0) (paren p s).
Proof. intros H. destruct p; [|done]. unfold paren. rewrite !Forall_app. split; [by apply bytes_line|]. split; [done|by apply bytes_line]. Qed.

Lemma print_line_ok k c : cmd_ok c -> Forall (fun c => c <> 0) (print k c).
Proof.
  revert k. induction c as [a|c IH r|l IHl r IHr|l IHl r IHr|c IH]; intros k H; cbn [print cmd_ok] in *.
  - destruct H as [Ha _]. induction Ha as [|w a Hw _ IH]; cbn [fmap list_fmap mjoin list_join]; [done|]. apply Forall_app. split; [by apply word_line|done].
  - destruct H as [H1 H2]. apply Forall_app. split; [by apply IH|by apply redir_line].
  - destruct H as [H1 H2]. apply paren_line. rewrite !Forall_app. split; [by apply IHl|]. split; [by apply bytes_line|by apply IHr].
  - destruct H as [H1 H2]. apply paren_line. rewrite !Forall_app. split; [by apply IHl|]. split; [by apply bytes_line|by apply IHr].
  - apply paren_line. rewrite !Forall_app. split; [by apply IH|by apply bytes_line].
Qed.

(** (C36) The shell's parser terminates and keeps the words.  On every command
    line it returns a command or reports an error.  In a command it returns,
    every argument and file name is a non-empty stretch of the line without
    blanks or symbols, ending where such a stretch ends; and read from the line
    as [nulterminate] leaves it, it is exactly that text. *)
Theorem parse_total s : Forall (fun c => c <> 0) s ->
  (exists c buf, parsecmd s = Ret (c, buf) /\ Forall (wgood s) (words c) /\ read_words (length s) buf c = cmd_map text c)
  \/ exists msg, parsecmd s = Panic msg.
Proof.
  intros Hl. destruct (parse_ends_cmd s) as [(c & buf & E)|?]; [left|by right]. exists c, buf. split; [done|]. by apply parsecmd_words.
Qed.

Lemma parse_total_witness :
  exists c buf, parsecmd (bytes "echo a|wc >f") = Ret (c, buf) /\ Forall (wgood (bytes "echo a|wc >f")) (words c)
     /\ read_words (length (bytes "echo a|wc >f")) buf c = cmd_map text c.
Proof.
  destruct (parse_total (bytes "echo a|wc >f") (bytes_line (bytes "echo a|wc >f") ltac:(vm_compute; reflexivity))) as [H|(msg & H)]; [exact H|].
  exfalso. vm_compute in H. discriminate H.
Defined.

(** (C33) The parser reads back what is written.  Every command of at most nine
    arguments, with any nesting of pipes, lists, background commands, blocks and
    redirections, printed by the grammar with parentheses where needed, is
    parsed to that command, with every word as it was. *)
Theorem parse_print c : cmd_ok c ->
  exists c' buf, parsecmd (print LLine c) = Ret (c', buf) /\ read_words (length (print LLine c)) buf c' = c.
Proof.
  intros Hc. destruct (reads_all c Hc) as (_ & _ & _ & HL).
  destruct (HL (parse_fuel (print LLine c)) []) as (c' & E & Ec); [by left|rewrite app_nil_r; unfold parse_fuel; lia|]. rewrite app_nil_r in E.
  assert (E2 : parsecmd (print LLine c) = Ret (c', nulterminate (length (print LLine c)) c' (print LLine c ++ [0]))).
  { unfold parsecmd. rewrite E. cbn [mbind outcome_bind]. by rewrite peek_eq. }
  exists c', (nulterminate (length (print LLine c)) c' (print LLine c ++ [0])). split; [done|].
  by rewrite (proj2 (parsecmd_words _ _ _ (print_line_ok LLine c Hc) E2)).
Qed.

Definition demo_cmd : cmd word :=
  LIST (BACK (PIPE (REDIR (EXEC [bytes "ls"; bytes "-l"]) (MkRedir (bytes "x") 1537 1))
                   (REDIR (LIST (EXEC [bytes "wc"]) (EXEC [])) (MkRedir (bytes "y") 513 1))))
       (EXEC [bytes "echo"]).

Lemma parse_print_witness :
  print LLine demo_cmd = bytes "ls -l >x |(wc ;)>>y &;echo "
  /\ exists c' buf, parsecmd (print LLine demo_cmd) = Ret (c', buf) /\ read_words (length (print LLine demo_cmd)) buf c' = demo_cmd.
Proof.
  split; [vm_compute; reflexivity|]. apply (parse_print demo_cmd).
  unfold demo_cmd. cmd_ok_eval.
Defined.

End ShWords.
