(* ===== verification/ShRun.v ===== *)
(** * The shell: what a command runs

    [spec] says which programs a command stands for and what their standard
    input, output and error are.  [runcmd], with its forks, pipes, dups and
    closes, starts exactly these, and no program inherits any other descriptor. *)

From S2P Require Import Prelude Riscv ProcDefs Sh ShParse ShPrint.
From Stdlib Require Import ZArith Lia Ascii String.
From stdpp Require Import base list numbers strings sets.

#[local] Open Scope Z_scope.

Import Sh ShParse ShPrint.

Module ShRun.

Section Run.
Context (can_open : list Z -> Z -> bool).

(** A program, its arguments, and its standard descriptors. *)
Definition planned : Type := list word * (file * file * file).

Fixpoint spec (c : cmd word) (i o e : file) (n : Z) : list planned * Z :=
  match c with
  | EXEC [] => ([], n)
  | EXEC argv => ([(argv, (i, o, e))], n)
  | REDIR c r =>
      if can_open (r_file r) (r_mode r) then
        let f := Opened (r_file r) (r_mode r) in
        if r_fd r =? 0 then spec c f o e n else spec c i f e n
      else ([], n)
  | LIST l r => let '(a, n) := spec l i o e n in let '(b, n) := spec r i o e n in (a ++ b, n)
  | PIPE l r => let '(a, m) := spec l i (PipeWrite n) e (n + 1) in let '(b, m) := spec r (PipeRead n) o e m in (a ++ b, m)
  | BACK c => spec c i o e n
  end.

(** Descriptors 0, 1 and 2, and nothing else. *)
Definition only (i o e : file) (t : fdtable) : Prop := exists k, t = Some i :: Some o :: Some e :: replicate k None.

Definition as_planned (x : started) (p : planned) : Prop :=
  fst x = fst p /\ only (fst (fst (snd p))) (snd (fst (snd p))) (snd (snd p)) (snd x).

Lemma redir_table i o e t f fd : only i o e t -> fd = 0 \/ fd = 1 ->
  only (if fd =? 0 then f else i) (if fd =? 0 then o else f) e (do_open f (do_close (Z.to_nat fd) t)).
Proof using Type. intros [k ->] [->| ->]; by exists k. Qed.

Lemma pipe_tables i o e t n : only i o e t -> let '(p0, p1, t) := do_pipe n t in
  only i (PipeWrite n) e (do_close p1 (do_close p0 (do_dup p1 (do_close 1 t))))
  /\ only (PipeRead n) o e (do_close p1 (do_close p0 (do_dup p0 (do_close 0 t)))).
Proof using Type.
  intros [k ->]. destruct k as [|[|k]]; simpl.
  - split; by exists 2%nat.
  - split; by exists 2%nat.
  - split; by exists (S (S k)).
Qed.

Lemma runcmd_spec c i o e t n : cmd_ok c -> only i o e t ->
  Forall2 as_planned (fst (runcmd can_open c t n)) (fst (spec c i o e n)) /\ snd (runcmd can_open c t n) = snd (spec c i o e n).
Proof using Type.
  revert i o e t n. induction c as [a|c IH r|l IHl r IHr|l IHl r IHr|c IH]; intros i o e t n Hc Ht; cbn [runcmd spec cmd_ok] in *.
  - destruct a as [|w a]; simpl; [done|]. split; [|done]. by repeat constructor.
  - destruct Hc as [Hc [_ Hr]]. destruct (can_open (r_file r) (r_mode r)); [|done].
    assert (Hfd : r_fd r = 0 \/ r_fd r = 1) by (rewrite !elem_of_cons, elem_of_nil in Hr; destruct Hr as [[= _ ->]|[[= _ ->]|[[= _ ->]|[]]]]; auto).
    pose proof (redir_table i o e t (Opened (r_file r) (r_mode r)) (r_fd r) Ht Hfd) as Ht'. destruct Hfd as [E|E]; rewrite E in *; by apply IH.
  - destruct Hc as [Hl Hr]. pose proof (pipe_tables i o e t n Ht) as Hp. destruct (do_pipe n t) as [[p0 p1] t']. destruct Hp as [H1 H2].
    specialize (IHl i (PipeWrite n) e _ (n + 1) Hl H1). destruct (runcmd can_open l _ (n + 1)) as [e1 n1], (spec l i (PipeWrite n) e (n + 1)) as [s1 m1].
    cbn [fst snd] in *. destruct IHl as [F1 ->]. specialize (IHr (PipeRead n) o e _ m1 Hr H2).
    destruct (runcmd can_open r _ m1) as [e2 n2], (spec r (PipeRead n) o e m1) as [s2 m2]. cbn [fst snd] in *. destruct IHr as [F2 ->].
    split; [by apply Forall2_app|done].
  - destruct Hc as [Hl Hr]. specialize (IHl i o e t n Hl Ht). destruct (runcmd can_open l t n) as [e1 n1], (spec l i o e n) as [s1 m1].
    cbn [fst snd] in *. destruct IHl as [F1 ->]. specialize (IHr i o e t m1 Hr Ht).
    destruct (runcmd can_open r t m1) as [e2 n2], (spec r i o e m1) as [s2 m2]. cbn [fst snd] in *. destruct IHr as [F2 ->].
    split; [by apply Forall2_app|done].
  - by apply IH.
Qed.

End Run.

(** (C34) The shell connects programs as the command says.  Run by a shell whose
    descriptors are 0, 1 and 2, a command starts exactly the programs of [spec],
    in that order of creation: each side of a pipe has that pipe as its output
    or input, a redirection replaces descriptor 0 or 1, nothing runs after a file
    that cannot be opened, and no program starts with any other descriptor open,
    so that no end of a pipe is left open by accident. *)
Theorem runcmd_correct can_open c i o e t n : cmd_ok c -> only i o e t ->
  Forall2 as_planned (fst (runcmd can_open c t n)) (fst (spec can_open c i o e n)).
Proof. intros Hc Ht. by apply runcmd_spec. Qed.

Definition demo_pipeline : cmd word :=
  PIPE (REDIR (EXEC [bytes "cat"]) (MkRedir (bytes "in") O_RDONLY 0)) (PIPE (EXEC [bytes "grep"; bytes "x"]) (EXEC [bytes "wc"])).

Lemma runcmd_correct_witness :
  fst (spec (fun _ _ => true) demo_pipeline (Inherited 0) (Inherited 1) (Inherited 2) 7)
    = [([bytes "cat"], (Opened (bytes "in") O_RDONLY, PipeWrite 7, Inherited 2));
       ([bytes "grep"; bytes "x"], (PipeRead 7, PipeWrite 8, Inherited 2));
       ([bytes "wc"], (PipeRead 8, Inherited 1, Inherited 2))]
  /\ Forall2 as_planned
       (fst (runcmd (fun _ _ => true) demo_pipeline [Some (Inherited 0); Some (Inherited 1); Some (Inherited 2)] 7))
       (fst (spec (fun _ _ => true) demo_pipeline (Inherited 0) (Inherited 1) (Inherited 2) 7)).
Proof.
  split; [vm_compute; reflexivity|]. apply (runcmd_correct (fun _ _ => true) demo_pipeline); [|by exists 0%nat].
  unfold demo_pipeline. cmd_ok_eval.
Defined.

End ShRun.
