(* ===== verification/Umalloc.v ===== *)
(** * The memory allocator of user programs (user/umalloc.c)

    The free list is a ring of headers in the order of their addresses, through
    the static header [base].  A header is its address; the fields [s.ptr] and
    [s.size] are maps from addresses.  Sizes count units of [sizeof(Header)] =
    16 bytes.  [sbrk] is the system call of this kernel,
    as far as a program sees it: its answer and the break afterwards. *)

From S2P Require Import Prelude.
From stdpp Require Import base list numbers strings functions sets.
From Stdlib Require Import ZArith Lia.

#[local] Open Scope Z_scope.

Module Umalloc.

Section Umalloc.
(** The address of the static variable [base]. *)
Context (base : Z).

(** [sbrk(n)] at the break [b], from 1 to 2^31 - 1: a request that is refused is
    answered with the break too, which does not move. *)
Definition sbrk (n b : Z) : Z * Z := if (0 <? b + n) && (b + n <? 2 ^ 31) then (b, b + n) else (b, b).

Record heap : Type := MkHeap {
  h_ptr : Z -> Z;
  h_size : Z -> Z;
  freep : Z;
  brk : Z
}.

Definition set_ptr (a v : Z) (h : heap) : heap := MkHeap (<[a := v]> (h_ptr h)) (h_size h) (freep h) (brk h).
Definition set_size (a v : Z) (h : heap) : heap := MkHeap (h_ptr h) (<[a := v]> (h_size h)) (freep h) (brk h).
Definition set_freep (v : Z) (h : heap) : heap := MkHeap (h_ptr h) (h_size h) v (brk h).
Definition set_brk (v : Z) (h : heap) : heap := MkHeap (h_ptr h) (h_size h) (freep h) v.

(** [p + n] for a [Header *]. *)
Definition hadd (p n : Z) : Z := p + 16 * n.

(** The loop of [free]: the place in the ring for [bp]. *)
Fixpoint find_place (fuel : nat) (bp p : Z) (h : heap) : outcome Z :=
  if (p <? bp) && (bp <? h_ptr h p) then Ret p
  else if (h_ptr h p <=? p) && ((p <? bp) || (bp <? h_ptr h p)) then Ret p
  else match fuel with
       | O => Fuel
       | S n => find_place n bp (h_ptr h p) h
       end.

Definition free (fuel : nat) (ap : Z) (h : heap) : outcome heap :=
  let bp := hadd ap (-1) in
  p ← find_place fuel bp (freep h) h;
  let nx := h_ptr h p in
  let h :=
    if hadd bp (h_size h bp) =? nx then
      let h := set_size bp (u32 (h_size h bp + h_size h nx)) h in
      set_ptr bp (h_ptr h nx) h
    else set_ptr bp nx h in
  let h :=
    if hadd p (h_size h p) =? bp then
      let h := set_size p (u32 (h_size h p + h_size h bp)) h in
      set_ptr p (h_ptr h bp) h
    else set_ptr p bp h in
  Ret (set_freep p h).

(** The argument of [sbrk] is an [int]. *)
Definition morecore (fuel : nat) (nu : Z) (h : heap) : outcome (Z * heap) :=
  let nu := if nu <? 4096 then 4096 else nu in
  let '(p, b) := sbrk (s32 (nu * 16)) (brk h) in
  let h := set_brk b h in
  if p =? -1 then Ret (0, h) else
  let h := set_size p nu h in
  h ← free fuel (hadd p 1) h;
  Ret (freep h, h).

(** The loop of [malloc] at [prevp] and [p]. *)
Fixpoint find_fit (fuel : nat) (nunits prevp p : Z) (h : heap) : outcome (Z * heap) :=
  if nunits <=? h_size h p then
    let '(p, h) :=
      if h_size h p =? nunits then (p, set_ptr prevp (h_ptr h p) h)
      else
        let h := set_size p (u32 (h_size h p - nunits)) h in
        let p := hadd p (h_size h p) in
        (p, set_size p nunits h) in
    Ret (hadd p 1, set_freep prevp h)
  else
    match fuel with
    | O => Fuel
    | S n =>
        if p =? freep h then
          '(p, h) ← morecore n nunits h;
          if p =? 0 then Ret (0, h) else find_fit n nunits p (h_ptr h p) h
        else find_fit n nunits p (h_ptr h p) h
    end.

Definition units (nbytes : Z) : Z := u32 ((nbytes + 16 - 1) / 16 + 1).

(** The first call makes the ring of [base] alone. *)
Definition prepare (h : heap) : heap :=
  if freep h =? 0 then set_size base 0 (set_freep base (set_ptr base base h)) else h.

Definition malloc (fuel : nat) (nbytes : Z) (h : heap) : outcome (Z * heap) :=
  let h := prepare h in
  find_fit fuel (units nbytes) (freep h) (h_ptr h (freep h)) h.

End Umalloc.

End Umalloc.
