(* ===== verification/UmallocList.v ===== *)
(** * The free list of the user allocator

    Lists of blocks in the order of their addresses with gaps between them, the
    ring of pointers through them, and the two loops that walk around it. *)

From S2P Require Import Prelude Umalloc.
From stdpp Require Import base list numbers strings functions sets.
From Stdlib Require Import ZArith Lia.

#[local] Open Scope Z_scope.

Import Umalloc.

Module UmallocList.

(** ** Chains of pointers *)

(** From [a] through [l] to [z]. *)
Fixpoint chain (nx : Z -> Z) (a : Z) (l : list Z) (z : Z) : Prop :=
  match l with
  | [] => nx a = z
  | b :: l => nx a = b /\ chain nx b l z
  end.

(** The last of [a :: l], and the first of [l ++ [z]]. *)
Fixpoint lst (a : Z) (l : list Z) : Z := match l with [] => a | b :: l => lst b l end.
Definition hed (z : Z) (l : list Z) : Z := match l with [] => z | b :: _ => b end.

Lemma lst_in a l : lst a l ∈ a :: l.
Proof. revert a. induction l as [|b l IH]; intros a; [apply list_elem_of_here|]. simpl. apply list_elem_of_further, IH. Qed.

Lemma lst_snoc a l b : lst a (l ++ [b]) = b.
Proof. revert a. induction l as [|c l IH]; intros a; simpl; [done|apply IH]. Qed.

Lemma chain_last nx a l z : chain nx a l z -> nx (lst a l) = z.
Proof. revert a. induction l as [|b l IH]; intros a; simpl; [done|]. intros [_ H]. by apply IH. Qed.

Lemma uchain_app nx a l1 l2 z : chain nx a (l1 ++ l2) z <-> chain nx a l1 (hed z l2) /\ chain nx (lst a l1) l2 z.
Proof.
  revert a. induction l1 as [|b l1 IH]; intros a; simpl; [|rewrite IH; tauto]. destruct l2 as [|c l2]; simpl; tauto.
Qed.

Lemma uchain_ext nx nx' a l z : (forall x, x ∈ a :: l -> nx' x = nx x) -> chain nx a l z -> chain nx' a l z.
Proof.
  revert a. induction l as [|b l IH]; intros a Hx; simpl; [by rewrite Hx by apply list_elem_of_here|]. intros [H1 H2].
  split; [by rewrite Hx by apply list_elem_of_here|]. apply IH; [|done]. intros x Hin. apply Hx. by apply list_elem_of_further.
Qed.

(** The chain from another header with the same pointer. *)
Lemma chain_start nx nx' a b l z : nx' b = nx a -> (forall x, x ∈ l -> nx' x = nx x) -> chain nx a l z -> chain nx' b l z.
Proof.
  intros Hb Hx. destruct l as [|c l]; cbn [chain]; rewrite Hb; [done|]. intros [H1 H2]. split; [done|]. by apply (uchain_ext nx).
Qed.

(** Only the last pointer changes. *)
Lemma chain_relink nx nx' a l z z' : NoDup (a :: l) -> nx' (lst a l) = z' ->
  (forall x, x ∈ a :: l -> x <> lst a l -> nx' x = nx x) -> chain nx a l z -> chain nx' a l z'.
Proof.
  revert a. induction l as [|b l IH]; intros a Hn Hl Hx; simpl in *; [done|]. intros [H1 H2]. apply NoDup_cons in Hn as [Ha Hn]. split.
  - rewrite Hx; [done|apply list_elem_of_here|]. intros E. apply Ha. rewrite E. apply lst_in.
  - apply IH; try done. intros x Hin. apply Hx. by apply list_elem_of_further.
Qed.

(** ** Blocks in order, with gaps *)

Fixpoint spaced (sz : Z -> Z) (lo : Z) (l : list Z) : Prop :=
  match l with
  | [] => True
  | b :: l => lo < b /\ 0 < sz b /\ spaced sz (hadd b (sz b)) l
  end.

(** The end of the last block. *)
Fixpoint top (sz : Z -> Z) (lo : Z) (l : list Z) : Z :=
  match l with
  | [] => lo
  | b :: l => top sz (hadd b (sz b)) l
  end.

Lemma spaced_app sz lo l1 l2 : spaced sz lo (l1 ++ l2) <-> spaced sz lo l1 /\ spaced sz (top sz lo l1) l2.
Proof. revert lo. induction l1 as [|b l1 IH]; intros lo; simpl; [tauto|]. rewrite IH. tauto. Qed.

Lemma spaced_lo sz lo lo' l : lo' <= lo -> spaced sz lo l -> spaced sz lo' l.
Proof. destruct l as [|b l]; simpl; [done|]. intros H (? & ? & ?). split; [lia|done]. Qed.

Lemma spaced_ext sz sz' lo l : (forall x, x ∈ l -> sz' x = sz x) -> spaced sz lo l -> spaced sz' lo l.
Proof.
  revert lo. induction l as [|b l IH]; intros lo Hx; simpl; [done|]. intros (H1 & H2 & H3). rewrite Hx by apply list_elem_of_here.
  split; [done|]. split; [done|]. apply IH; [|done]. intros x Hin. apply Hx. by apply list_elem_of_further.
Qed.

Lemma top_ext sz sz' lo l : (forall x, x ∈ l -> sz' x = sz x) -> top sz' lo l = top sz lo l.
Proof.
  revert lo. induction l as [|b l IH]; intros lo Hx; simpl; [done|]. rewrite Hx by apply list_elem_of_here. apply IH.
  intros x Hin. apply Hx. by apply list_elem_of_further.
Qed.

Lemma top_snoc sz lo l b : top sz lo (l ++ [b]) = hadd b (sz b).
Proof. revert lo. induction l as [|c l IH]; intros lo; simpl; [done|apply IH]. Qed.

Lemma spaced_in sz lo l x : spaced sz lo l -> x ∈ l -> lo < x /\ 0 < sz x.
Proof.
  revert lo. induction l as [|b l IH]; intros lo; [by intros _ ?%not_elem_of_nil|]. simpl. intros (H1 & H2 & H3) [->|Hx]%elem_of_cons; [done|].
  destruct (IH _ H3 Hx) as [H4 H5]. unfold hadd in H4. lia.
Qed.

Lemma spaced_top sz lo l : spaced sz lo l -> lo <= top sz lo l.
Proof.
  revert lo. induction l as [|b l IH]; intros lo; simpl; [lia|]. intros (H1 & H2 & H3). specialize (IH _ H3). unfold hadd in *. lia.
Qed.

Lemma spaced_ends sz lo l x : spaced sz lo l -> x ∈ l -> hadd x (sz x) <= top sz lo l.
Proof.
  revert lo. induction l as [|b l IH]; intros lo; [by intros _ ?%not_elem_of_nil|]. simpl. intros (H1 & H2 & H3) [->|Hx]%elem_of_cons; [|by apply IH].
  by apply spaced_top.
Qed.

Lemma spaced_nodup sz lo l : spaced sz lo l -> NoDup (lo :: l).
Proof.
  revert lo. induction l as [|b l IH]; intros lo H; [apply NoDup_singleton|]. pose proof H as H0. simpl in H0. destruct H0 as (H1 & H2 & H3).
  apply NoDup_cons. split.
  - intros Hin. destruct (spaced_in sz lo _ _ H Hin). lia.
  - specialize (IH _ H3). apply NoDup_cons in IH as [_ IH]. apply NoDup_cons. split; [|done]. intros Hin. destruct (spaced_in _ _ _ _ H3 Hin). unfold hadd in *. lia.
Qed.

(** [bp .. bp + n) lies in a gap: the blocks before and after it. *)
Lemma spaced_split sz lo l bp n : spaced sz lo l -> 0 < n -> Forall (fun b => hadd b (sz b) <= bp \/ hadd bp n <= b) l ->
  exists l1 l2, l = l1 ++ l2 /\ Forall (fun b => hadd b (sz b) <= bp) l1 /\ Forall (fun b => hadd bp n <= b) l2.
Proof.
  revert lo. induction l as [|b l IH]; intros lo Hs Hn Hf; [by exists [], []|]. inversion Hf as [|? ? Hb Hf']; subst. simpl in Hs. destruct Hs as (H1 & H2 & H3).
  destruct Hb as [Hb|Hb].
  - destruct (IH _ H3 Hn Hf') as (l1 & l2 & -> & F1 & F2). exists (b :: l1), l2. split; [done|]. split; [by constructor|done].
  - exists [], (b :: l). split; [done|]. split; [done|]. constructor; [done|]. apply Forall_forall. intros x Hx.
    destruct (spaced_in _ _ _ _ H3 Hx). unfold hadd in *. lia.
Qed.

(** The bytes of the blocks. *)
Definition covered (sz : Z -> Z) (l : list Z) (x : Z) : Prop := exists b, b ∈ l /\ b <= x < hadd b (sz b).

Lemma covered_app sz l1 l2 x : covered sz (l1 ++ l2) x <-> covered sz l1 x \/ covered sz l2 x.
Proof.
  unfold covered. split.
  - intros (b & Hb & Hx). apply elem_of_app in Hb as [Hb|Hb]; eauto.
  - intros [(b & Hb & Hx)|(b & Hb & Hx)]; exists b; rewrite elem_of_app; auto.
Qed.

Lemma covered_cons sz b l x : covered sz (b :: l) x <-> b <= x < hadd b (sz b) \/ covered sz l x.
Proof.
  unfold covered. split.
  - intros (c & Hc & Hx). apply elem_of_cons in Hc as [->|Hc]; eauto.
  - intros [Hx|(c & Hc & Hx)]; [exists b|exists c]; rewrite elem_of_cons; auto.
Qed.

Lemma covered_ext sz sz' l x : (forall b, b ∈ l -> sz' b = sz b) -> covered sz' l x <-> covered sz l x.
Proof. intros H. unfold covered. split; intros (b & Hb & Hx); exists b; split; try done; [by rewrite <- H|by rewrite H]. Qed.

End UmallocList.
