(* ===== verification/UmallocSpec.v ===== *)
(** * The user allocator hands out disjoint memory and loses none

    [wf]: the free list is a ring through [base], in the order of addresses,
    with no two blocks touching.  [free] and [malloc] keep it; [free] adds
    exactly the bytes of its block to the free memory and [malloc] removes
    exactly those of the block it returns; so over any sequence of calls the
    blocks in use never overlap, and free and used blocks together are all the
    memory obtained from [sbrk]. *)

From S2P Require Import Prelude Umalloc UmallocList.
From stdpp Require Import base list numbers strings functions sets.
From Stdlib Require Import ZArith Lia.

#[local] Open Scope Z_scope.

Import Umalloc UmallocList.

Module UmallocSpec.

Section Spec.
Context (base : Z).

Record wf (h : heap) (l : list Z) : Prop := MkWf {
  wf_chain : chain (h_ptr h) base l base;
  wf_spaced : spaced (h_size h) base l;
  wf_base : 0 < base < brk h /\ h_size h base = 0;
  wf_freep : freep h ∈ base :: l;
  wf_top : top (h_size h) base l <= brk h;
  wf_brk : brk h < 2 ^ 31
}.

(** ** Where [free] puts a block *)

Lemma place_before h bp y l1 a lo fuel : chain (h_ptr h) a l1 y -> a <= lo -> spaced (h_size h) lo l1 ->
  Forall (fun b => b < bp) (a :: l1) -> bp < y \/ y = base -> base <= a -> (length l1 <= fuel)%nat ->
  find_place fuel bp a h = Ret (lst a l1).
Proof.
  revert a lo fuel. induction l1 as [|b l1 IH]; intros a lo fuel Hc Hlo Hs Hf Hy Hb Hn; inversion Hf as [|? ? Ha Hf']; subst; cbn [chain lst spaced] in *.
  - assert (E : (a <? bp) = true) by lia. destruct fuel; cbn [find_place]; rewrite Hc, E; cbn [andb orb];
      (destruct (Z.ltb_spec bp y); [done|]); by rewrite (proj2 (Z.leb_le _ _)) by lia.
  - destruct Hc as [Hp Hc]. destruct Hs as (H1 & H2 & H3). inversion Hf' as [|? ? Hbb _]; subst. destruct fuel as [|fuel]; [simpl in Hn; lia|]. cbn [find_place].
    rewrite (proj2 (Z.ltb_ge bp _)), andb_false_r, (proj2 (Z.leb_gt _ a)) by lia. cbn [andb].
    eapply (IH _ (hadd (h_ptr h a) (h_size h (h_ptr h a)))); try done; unfold hadd; simpl in Hn; lia.
Qed.

Lemma place_after h bp m x lo fuel : chain (h_ptr h) x m base -> x <= lo -> spaced (h_size h) lo m -> base < bp < x ->
  find_place (S (length m) + fuel) bp x h = find_place fuel bp base h.
Proof.
  revert x lo. induction m as [|b m IH]; intros x lo Hc Hlo Hs Hbp; cbn [chain spaced length] in *.
  - cbn [Nat.add find_place]. rewrite Hc, (proj2 (Z.ltb_ge x bp)), (proj2 (Z.ltb_ge bp base)) by lia. cbn [andb orb]. by rewrite andb_false_r.
  - destruct Hc as [Hp Hc]. destruct Hs as (H1 & H2 & H3). change (S (S (length m)) + fuel)%nat with (S (S (length m) + fuel)). cbn [find_place].
    rewrite Hp, (proj2 (Z.ltb_ge x bp)), (proj2 (Z.leb_gt b x)) by lia. cbn [andb]. eapply (IH b (hadd b (h_size h b))); try done; unfold hadd; lia.
Qed.

Lemma place_spec h l1 l2 bp fuel : wf h (l1 ++ l2) -> base < bp -> Forall (fun b => b < bp) l1 -> Forall (fun b => bp < b) l2 ->
  (length (l1 ++ l2) < fuel)%nat -> find_place fuel bp (freep h) h = Ret (lst base l1).
Proof.
  intros [Hc Hs [Hb _] Hf _ _] Hbp F1 F2 Hn. apply uchain_app in Hc as [C1 C2]. apply spaced_app in Hs as [S1 S2]. rewrite length_app in Hn.
  assert (Hy : bp < hed base l2 \/ hed base l2 = base) by (destruct F2; simpl; auto).
  assert (F1' : Forall (fun b => b < bp) (base :: l1)) by (by constructor).
  assert (Hbase : forall k, (length l1 <= k)%nat -> find_place k bp base h = Ret (lst base l1)).
  { intros k Hk. eapply (place_before h bp _ l1 base base); try done; lia. }
  apply elem_of_cons in Hf as [->|Hf]; [apply Hbase; lia|]. apply elem_of_app in Hf as [Hf|Hf]; apply list_elem_of_split in Hf as (m1 & m2 & E).
  - rewrite E in *. apply uchain_app in C1 as [_ C1]. cbn [chain] in C1. destruct C1 as [_ C1]. apply spaced_app in S1 as [S0 S1]. cbn [spaced] in S1.
    destruct S1 as (H1 & H2 & H3). pose proof (spaced_top _ _ _ S0). rewrite (place_before h bp (hed base l2) m2 _ (hadd (freep h) (h_size h (freep h)))); try done.
    + f_equal. clear. generalize base. induction m1 as [|c m1 IH]; intros a; [done|apply IH].
    + unfold hadd. lia.
    + rewrite Forall_app in F1. apply F1.
    + lia.
    + rewrite length_app in Hn. simpl in Hn. lia.
  - rewrite E in *. apply uchain_app in C2 as [_ C2]. cbn [chain] in C2. destruct C2 as [_ C2]. apply spaced_app in S2 as [S0 S2]. cbn [spaced] in S2.
    destruct S2 as (H1 & H2 & H3). rewrite length_app in Hn. simpl in Hn.
    replace fuel with (S (length m2) + (fuel - S (length m2)))%nat by lia.
    rewrite (place_after h bp m2 (freep h) (hadd (freep h) (h_size h (freep h)))); [apply Hbase; lia|done|unfold hadd; lia|done|].
    rewrite Forall_app in F2. destruct F2 as [_ F2]. apply Forall_inv in F2. lia.
Qed.

(** ** Joining with the neighbours *)

Definition join_next (bp nx : Z) (h : heap) : heap :=
  if hadd bp (h_size h bp) =? nx then
    let h := set_size bp (u32 (h_size h bp + h_size h nx)) h in
    set_ptr bp (h_ptr h nx) h
  else set_ptr bp nx h.

Definition join_prev (bp p : Z) (h : heap) : heap :=
  if hadd p (h_size h p) =? bp then
    let h := set_size p (u32 (h_size h p + h_size h bp)) h in
    set_ptr p (h_ptr h bp) h
  else set_ptr p bp h.

(** [bp] in front of [l2], which starts at [nx]. *)
Lemma join_next_spec h bp n l2 : h_size h bp = n -> 0 < n -> 0 < base < bp -> chain (h_ptr h) (hed base l2) (tail l2) base \/ l2 = [] ->
  spaced (h_size h) (hadd bp n - 1) l2 -> top (h_size h) (hadd bp n) l2 < 2 ^ 31 -> let h1 := join_next bp (hed base l2) h in
  exists l2', chain (h_ptr h1) bp l2' base /\ n <= h_size h1 bp /\ spaced (h_size h1) (hadd bp (h_size h1 bp)) l2'
    /\ top (h_size h1) (hadd bp (h_size h1 bp)) l2' = top (h_size h) (hadd bp n) l2
    /\ (forall x, covered (h_size h1) (bp :: l2') x <-> bp <= x < hadd bp n \/ covered (h_size h) l2 x)
    /\ (forall a, a <> bp -> h_ptr h1 a = h_ptr h a /\ h_size h1 a = h_size h a)
    /\ brk h1 = brk h /\ (length l2' <= length l2)%nat /\ (forall x, x ∈ l2' -> x ∈ l2).
Proof.
  intros En Hn Hb Hc Hs Ht. unfold join_next. rewrite En. destruct (Z.eqb_spec (hadd bp n) (hed base l2)) as [E|E].
  - destruct l2 as [|b l2]; cbn [hed tail] in *; [unfold hadd in E; lia|]. destruct Hc as [Hc|]; [|done]. cbn [spaced] in Hs. destruct Hs as (H1 & H2 & H3).
    cbn [top] in Ht. pose proof (spaced_top _ _ _ H3) as Htop. assert (Hbp : b <> bp) by (unfold hadd in E; lia).
    assert (Hu : u32 (n + h_size h b) = n + h_size h b) by (apply u32_small; unfold hadd in *; lia).
    assert (Hnot : forall x, x ∈ b :: l2 -> x <> bp).
    { intros x [->|Hx]%elem_of_cons; [done|]. destruct (spaced_in _ _ _ _ H3 Hx). unfold hadd in *. lia. }
    cbv zeta. cbn [set_ptr set_size h_ptr h_size brk]. rewrite Hu. exists l2. rewrite !fn_lookup_insert.
    replace (hadd bp (n + h_size h b)) with (hadd b (h_size h b)) by (unfold hadd in *; lia).
    assert (Hse : forall x, x ∈ l2 -> <[bp := n + h_size h b]> (h_size h) x = h_size h x).
    { intros x Hx. rewrite fn_lookup_insert_ne; [done|]. intros <-. by apply (Hnot bp); [apply list_elem_of_further|]. }
    split.
    { destruct l2 as [|c l2]; cbn [chain] in *; rewrite fn_lookup_insert; [done|]. split; [apply Hc|]. apply (uchain_ext (h_ptr h)); [|apply Hc].
      intros x Hx. rewrite fn_lookup_insert_ne; [done|]. intros <-. by apply (Hnot bp); [apply list_elem_of_further|]. }
    split; [lia|]. split; [by apply (spaced_ext (h_size h))|]. split; [cbn [top]; by apply top_ext|]. split.
    { intros x. rewrite !covered_cons, fn_lookup_insert, (covered_ext (h_size h)) by done. unfold hadd in *. split.
      - intros [?|?]; [|tauto]. destruct (decide (x < b)); [left; lia|right; left; lia].
      - intros [?|[?|?]]; [left; lia|left; lia|by right]. }
    split; [intros a Ha; by rewrite !fn_lookup_insert_ne by done|]. split; [done|]. split; [simpl; lia|]. intros x Hx. by apply list_elem_of_further.
  - cbn [set_ptr h_ptr h_size brk]. exists l2. rewrite En.
    assert (Hs' : spaced (h_size h) (hadd bp n) l2).
    { destruct l2 as [|b l2]; [done|]. cbn [spaced hed] in *. split; [lia|tauto]. }
    split.
    { destruct l2 as [|c l2]; cbn [chain hed] in *; rewrite fn_lookup_insert; [done|]. split; [done|]. destruct Hc as [Hc|]; [|done]. apply (uchain_ext (h_ptr h)); [|exact Hc].
      intros x Hx. rewrite fn_lookup_insert_ne; [done|]. intros <-. destruct (spaced_in _ _ _ _ Hs' Hx). unfold hadd in *. lia. }
    split; [lia|]. split; [done|]. split; [done|]. split; [intros x; rewrite covered_cons, En; tauto|].
    split; [intros a Ha; by rewrite fn_lookup_insert_ne by done|]. done.
Qed.

(** [l1] in front of [bp] and [l2], joined into the free list of [h2] through the
    block [p] before [bp]. *)
Definition joined (h h2 : heap) (bp p : Z) (l1 l2 : list Z) : Prop :=
  exists l', chain (h_ptr h2) base l' base /\ spaced (h_size h2) base l' /\ p ∈ base :: l'
    /\ top (h_size h2) base l' = top (h_size h) (hadd bp (h_size h bp)) l2
    /\ (forall x, covered (h_size h2) l' x <-> covered (h_size h) l1 x \/ covered (h_size h) (bp :: l2) x)
    /\ (forall y, ~ covered (h_size h2) l' y -> h_size h2 y = h_size h y)
    /\ (exists b, b ∈ l' /\ h_size h bp <= h_size h2 b) /\ brk h2 = brk h /\ (length l' <= S (length l1 + length l2))%nat.

Lemma above_bp sz bp l2 : 0 < sz bp -> spaced sz (hadd bp (sz bp)) l2 -> forall x, x ∈ l2 -> bp < x.
Proof. intros H Hs x Hx. destruct (spaced_in _ _ _ _ Hs Hx). unfold hadd in *. lia. Qed.

(** The block [q] before [bp] ends where [bp] starts: it grows by [bp]. *)
Lemma join_prev_merge h bp q l0 l2 z : 0 < base < bp -> 0 < h_size h bp -> chain (h_ptr h) base (l0 ++ [q]) z ->
  spaced (h_size h) base (l0 ++ [q]) -> chain (h_ptr h) bp l2 base -> spaced (h_size h) (hadd bp (h_size h bp)) l2 ->
  top (h_size h) (hadd bp (h_size h bp)) l2 < 2 ^ 31 -> hadd q (h_size h q) = bp ->
  joined h (set_ptr q (h_ptr h bp) (set_size q (u32 (h_size h q + h_size h bp)) h)) bp q (l0 ++ [q]) l2.
Proof.
  intros Hb Hsz Hc1 Hs1 Hc2 Hs2 Ht2 E. pose proof (spaced_nodup _ _ _ Hs1) as Hnd. pose proof (spaced_top _ _ _ Hs2) as Ht2'.
  pose proof (above_bp _ _ _ Hsz Hs2) as Hhi. unfold joined. cbn [set_ptr set_size h_ptr h_size brk].
  apply spaced_app in Hs1 as [Hs0 (H1 & H2 & _)]. assert (Hp2 : q ∉ l2) by (intros Hin; apply Hhi in Hin; unfold hadd in *; lia). change (base :: l0 ++ [q]) with ((base :: l0) ++ [q]) in Hnd.
  apply NoDup_app in Hnd as (Hnd & Hq & _). assert (Hq0 : q ∉ base :: l0) by (intros Hin; by apply (Hq q Hin), list_elem_of_singleton).
  assert (Hu : u32 (h_size h q + h_size h bp) = h_size h q + h_size h bp).
  { apply u32_small. pose proof (spaced_top _ _ _ Hs0). unfold hadd in *. lia. }
  rewrite Hu. set (sz := <[q := h_size h q + h_size h bp]> (h_size h)).
  assert (Hsz0 : forall x, x <> q -> sz x = h_size h x) by (intros x Hx; unfold sz; by rewrite fn_lookup_insert_ne).
  assert (Hszq : sz q = h_size h q + h_size h bp) by (unfold sz; by rewrite fn_lookup_insert).
  assert (Hend : hadd q (sz q) = hadd bp (h_size h bp)) by (rewrite Hszq; unfold hadd in *; lia).
  assert (Hl0 : forall x, x ∈ l0 -> sz x = h_size h x) by (intros x Hx; apply Hsz0; intros ->; apply Hq0; by apply list_elem_of_further).
  assert (Hl2 : forall x, x ∈ l2 -> sz x = h_size h x) by (intros x Hx; apply Hsz0; by intros ->).
  exists (l0 ++ q :: l2). split; [|split; [|split; [|split; [|split; [|split; [|split; [|split]]]]]]].
  + change (q :: l2) with ([q] ++ l2). rewrite app_assoc. apply uchain_app. rewrite lst_snoc. split.
    * apply uchain_app in Hc1 as [Hc0 Hcq]. apply uchain_app. split; [|cbn [chain lst]; split; [|by rewrite fn_lookup_insert; destruct l2; apply Hc2]].
      -- apply (uchain_ext (h_ptr h)); [|exact Hc0]. intros x Hx. rewrite fn_lookup_insert_ne; [done|]. by intros ->.
      -- cbn [chain] in Hcq. rewrite fn_lookup_insert_ne; [apply Hcq|]. intros E2. apply Hq0. rewrite E2. apply lst_in.
    * apply (chain_start (h_ptr h) _ bp); [by rewrite fn_lookup_insert| |done]. intros x Hx. rewrite fn_lookup_insert_ne; [done|]. by intros ->.
  + apply spaced_app. split; [by apply (spaced_ext (h_size h))|]. rewrite (top_ext (h_size h)) by done. cbn [spaced]. split; [done|]. split; [lia|].
    rewrite Hend. by apply (spaced_ext (h_size h)).
  + rewrite elem_of_cons, elem_of_app, elem_of_cons. auto.
  + assert (Et : forall lo, top sz lo (l0 ++ q :: l2) = top sz (hadd q (sz q)) l2) by (clear; induction l0; intros lo; simpl; [done|]; auto).
    rewrite Et, Hend. by apply top_ext.
  + intros x. rewrite !covered_app, !covered_cons, !(covered_ext (h_size h) sz), Hend by done. pose proof (spaced_top _ _ _ Hs0).
    assert (covered (h_size h) [] x <-> False) by (unfold covered; split; [intros (? & ?%not_elem_of_nil & _); done|done]). unfold hadd in *. split.
    * intros [?|[?|?]]; [tauto| |tauto]. destruct (decide (x < bp)); [left; right; left; lia|right; left; lia].
    * intros [[?|[?|?]]|[?|?]]; [tauto|right; left; lia|tauto|right; left; lia|tauto].
  + intros y Hy. apply Hsz0. intros ->. apply Hy. apply covered_app. right. apply covered_cons. left. unfold hadd in *. lia.
  + exists q. rewrite elem_of_app, elem_of_cons. split; [auto|lia].
  + done.
  + rewrite !length_app. simpl. lia.
Qed.

(** There is a gap before [bp]: it becomes an entry of its own. *)
Lemma join_prev_link h bp l1 l2 z : 0 < base < bp -> 0 < h_size h bp -> chain (h_ptr h) base l1 z -> spaced (h_size h) base l1 ->
  top (h_size h) base l1 <= bp -> chain (h_ptr h) bp l2 base -> spaced (h_size h) (hadd bp (h_size h bp)) l2 ->
  lst base l1 < bp -> hadd (lst base l1) (h_size h (lst base l1)) <> bp ->
  joined h (set_ptr (lst base l1) bp h) bp (lst base l1) l1 l2.
Proof.
  intros Hb Hsz Hc1 Hs1 Ht1 Hc2 Hs2 Hpb E. pose proof (spaced_nodup _ _ _ Hs1) as Hnd.
  pose proof (above_bp _ _ _ Hsz Hs2) as Hhi. assert (Hp2 : lst base l1 ∉ l2) by (intros Hin; apply Hhi in Hin; lia).
  unfold joined. cbn [set_ptr h_ptr h_size brk].
  exists (l1 ++ bp :: l2). split; [|split; [|split; [|split; [|split; [|split; [|split; [|split]]]]]]].
  + apply uchain_app. cbn [hed]. split.
    * eapply (chain_relink (h_ptr h)); [done|by rewrite fn_lookup_insert| |exact Hc1]. intros x _ Hx. by rewrite fn_lookup_insert_ne by done.
    * cbn [chain]. split; [by rewrite fn_lookup_insert|]. apply (uchain_ext (h_ptr h)); [|done]. intros x Hx. rewrite fn_lookup_insert_ne; [done|].
      intros E2. subst x. apply elem_of_cons in Hx as [Hx|Hx]; [lia|done].
  + apply spaced_app. split; [done|]. cbn [spaced]. split; [|done]. enough (top (h_size h) base l1 <> bp) by lia.
    destruct l1 as [|q l0 _] using rev_ind; [simpl; lia|]. rewrite lst_snoc in E. by rewrite top_snoc.
  + rewrite elem_of_cons, elem_of_app. pose proof (lst_in base l1) as Hin. apply elem_of_cons in Hin as [Hin|Hin]; auto.
  + clear. generalize base. induction l1 as [|c l1 IH]; intros lo; simpl; [done|apply IH].
  + intros x. rewrite covered_app. done.
  + done.
  + exists bp. rewrite elem_of_app, elem_of_cons. split; [auto|lia].
  + done.
  + rewrite length_app. simpl. lia.
Qed.

Lemma join_prev_spec h bp l1 l2 z : 0 < base < bp -> h_size h base = 0 -> 0 < h_size h bp -> chain (h_ptr h) base l1 z -> spaced (h_size h) base l1 ->
  top (h_size h) base l1 <= bp -> chain (h_ptr h) bp l2 base -> spaced (h_size h) (hadd bp (h_size h bp)) l2 ->
  top (h_size h) (hadd bp (h_size h bp)) l2 < 2 ^ 31 -> joined h (join_prev bp (lst base l1) h) bp (lst base l1) l1 l2.
Proof.
  intros Hb H0 Hsz Hc1 Hs1 Ht1 Hc2 Hs2 Ht2. unfold join_prev.
  assert (Hpb : lst base l1 < bp).
  { pose proof (lst_in base l1) as [->|Hx]%elem_of_cons; [lia|].
    pose proof (spaced_ends _ _ _ _ Hs1 Hx). destruct (spaced_in _ _ _ _ Hs1 Hx). unfold hadd in *. lia. }
  destruct (Z.eqb_spec (hadd (lst base l1) (h_size h (lst base l1))) bp) as [E|E]; [|by apply (join_prev_link h bp l1 l2 z)].
  destruct l1 as [|q l0 _] using rev_ind; [cbn [lst] in E; rewrite H0 in E; unfold hadd in E; lia|].
  rewrite lst_snoc in *. by apply (join_prev_merge h bp q l0 l2 z).
Qed.

(** ** [free] *)

Definition apart (h : heap) (bp n : Z) (l : list Z) : Prop := Forall (fun b => hadd b (h_size h b) <= bp \/ hadd bp n <= b) l.

Lemma free_spec h l bp n fuel : wf h l -> h_size h bp = n -> 0 < n -> base < bp -> hadd bp n <= brk h -> apart h bp n l -> (length l < fuel)%nat ->
  exists h' l', free fuel (hadd bp 1) h = Ret h' /\ wf h' l' /\ brk h' = brk h
    /\ (forall x, covered (h_size h') l' x <-> covered (h_size h) l x \/ bp <= x < hadd bp n)
    /\ (forall y, ~ covered (h_size h') l' y -> h_size h' y = h_size h y)
    /\ (exists b, b ∈ l' /\ n <= h_size h' b) /\ (length l' <= S (length l))%nat.
Proof.
  intros W En Hn Hbp Hbrk Hap Hf. destruct (spaced_split _ _ _ _ _ (wf_spaced _ _ W) Hn Hap) as (l1 & l2 & -> & F1 & F2).
  assert (F1' : Forall (fun b => b < bp) l1).
  { pose proof (wf_spaced _ _ W) as Hs. apply spaced_app in Hs as [Hs _]. rewrite Forall_forall in *. intros b Hb. specialize (F1 b Hb).
    destruct (spaced_in _ _ _ _ Hs Hb). unfold hadd in *. lia. }
  assert (F2' : Forall (fun b => bp < b) l2) by (eapply Forall_impl; [exact F2|]; intros b; unfold hadd; lia).
  pose proof (place_spec h l1 l2 bp fuel W Hbp F1' F2' Hf) as Ep. destruct W as [Hc Hs [Hb0 Hbs] _ Ht Hk].
  apply uchain_app in Hc as [Hc1 Hc2]. apply spaced_app in Hs as [Hs1 Hs2].
  assert (Htop : top (h_size h) base (l1 ++ l2) = top (h_size h) (top (h_size h) base l1) l2) by (clear; generalize base; induction l1; intros lo; simpl; auto).
  assert (Ht1 : top (h_size h) base l1 <= bp).
  { destruct l1 as [|q l0 _] using rev_ind; [simpl; lia|]. rewrite top_snoc. rewrite Forall_app in F1. destruct F1 as [_ F1]. by apply Forall_inv in F1. }
  assert (Hs2' : spaced (h_size h) (hadd bp n - 1) l2).
  { destruct l2 as [|b l2]; [done|]. cbn [spaced] in Hs2 |- *. apply Forall_inv in F2. split; [lia|tauto]. }
  assert (Ht2 : top (h_size h) (hadd bp n) l2 <= brk h).
  { destruct l2 as [|b l2]; [done|]. rewrite Htop in Ht. exact Ht. }
  destruct (join_next_spec h bp n l2 En Hn) as (l2' & C2 & N2 & S2 & T2 & V2 & O2 & K2 & L2 & I2); [lia| |done|lia|].
  { destruct l2 as [|b l2]; [by right|left]. cbn [chain] in Hc2. apply Hc2. }
  set (h1 := join_next bp (hed base l2) h) in *. set (p := lst base l1) in *.
  assert (Hne : forall x, x ∈ base :: l1 -> x <> bp) by (intros x [->|Hx]%elem_of_cons; [lia|]; rewrite Forall_forall in F1'; specialize (F1' x Hx); lia).
  destruct (join_prev_spec h1 bp l1 l2' (hed base l2)) as (l' & C & S & P & T & V & O & (b & Hb & Hbn) & K & L); try done; try lia.
  - by rewrite (proj2 (O2 base ltac:(lia))).
  - apply (uchain_ext (h_ptr h)); [|done]. intros x Hx. apply O2. by apply Hne.
  - apply (spaced_ext (h_size h)); [|done]. intros x Hx. apply O2, Hne. by apply list_elem_of_further.
  - rewrite (top_ext (h_size h)); [done|]. intros x Hx. apply O2, Hne. by apply list_elem_of_further.
  - fold p in C, S, P, T, V, O, K, Hbn. exists (set_freep p (join_prev bp p h1)), l'. split.
    { unfold free. replace (hadd (hadd bp 1) (-1)) with bp by (unfold hadd; lia). rewrite Ep. cbn [mbind outcome_bind]. fold p.
      assert (En' : h_ptr h p = hed base l2) by (by apply chain_last in Hc1). by rewrite En'. }
    split; [|split; [|split; [|split; [|split]]]]; cbn [set_freep h_ptr h_size brk freep].
    + split; cbn [set_freep h_ptr h_size brk freep]; try done; [|rewrite T, T2, K; congruence|by rewrite K, K2].
      rewrite K, K2. split; [lia|]. rewrite O; [by rewrite (proj2 (O2 base ltac:(lia)))|]. intros (c & Hc & Hx). destruct (spaced_in _ _ _ _ S Hc). lia.
    + by rewrite K.
    + intros x. rewrite V, V2, (covered_ext (h_size h)), covered_app by (intros y Hy; apply O2, Hne; by apply list_elem_of_further). tauto.
    + intros y Hy. rewrite O by done. apply O2. intros ->. apply Hy, V. right. apply V2. left. unfold hadd. lia.
    + exists b. split; [done|]. lia.
    + rewrite length_app. lia.
Qed.

(** ** Taking a block *)

Definition take_block (nunits q x : Z) (h : heap) : Z * heap :=
  let '(p, h) :=
    if h_size h x =? nunits then (x, set_ptr q (h_ptr h x) h)
    else
      let h := set_size x (u32 (h_size h x - nunits)) h in
      let p := hadd x (h_size h x) in
      (p, set_size p nunits h) in
  (hadd p 1, set_freep q h).

(** The bytes from [a] on, [n] units of them, are taken out of the free memory. *)
Record taken (h : heap) (l : list Z) (a n : Z) (h' : heap) (l' : list Z) : Prop := MkTaken {
  ta_wf : wf h' l';
  ta_size : h_size h' a = n;
  ta_free : forall x, covered (h_size h) l x <-> covered (h_size h') l' x \/ a <= x < hadd a n;
  ta_new : forall x, a <= x < hadd a n -> ~ covered (h_size h') l' x;
  ta_rest : forall y, ~ covered (h_size h) l y -> h_size h' y = h_size h y;
  ta_brk : brk h' = brk h
}.

Lemma take_whole h l1 x l2 n : wf h (l1 ++ x :: l2) -> h_size h x = n -> 0 < n ->
  exists h', take_block n (lst base l1) x h = (hadd x 1, h') /\ taken h (l1 ++ x :: l2) x n h' (l1 ++ l2).
Proof.
  intros [Hc Hs Hb _ Ht Hk] En Hn. unfold take_block. rewrite En, Z.eqb_refl. eexists. split; [reflexivity|]. set (q := lst base l1).
  pose proof (spaced_nodup _ _ _ Hs) as Hnd. apply uchain_app in Hc as [Hc1 [Hq Hc2]]. apply spaced_app in Hs as [Hs1 Hs2]. cbn [spaced] in Hs2. destruct Hs2 as (H1 & H2 & H3).
  rewrite app_comm_cons in Hnd. apply NoDup_app in Hnd as (Hnd1 & Hnd12 & Hnd2). pose proof (lst_in base l1) as Hqi. fold q in Hqi, Hq.
  assert (Hs2' : spaced (h_size h) (top (h_size h) base l1) l2) by (apply (spaced_lo _ (hadd x (h_size h x))); [unfold hadd; lia|done]).
  assert (Htop : forall lo, top (h_size h) lo (l1 ++ x :: l2) = top (h_size h) (hadd x (h_size h x)) l2) by (clear; induction l1; intros lo; simpl; auto).
  assert (Htop' : top (h_size h) base (l1 ++ l2) <= top (h_size h) base (l1 ++ x :: l2)).
  { rewrite Htop. destruct l2 as [|c l2]; [|apply Z.eq_le_incl; clear; generalize base; induction l1; intros lo; simpl; auto].
    rewrite app_nil_r. simpl. unfold hadd. lia. }
  split; cbn [set_freep set_ptr h_ptr h_size brk freep]; try done.
  - split; cbn [set_freep set_ptr h_ptr h_size brk freep]; try done; try lia.
    + apply uchain_app. split.
      * eapply (chain_relink (h_ptr h)); [done|rewrite fn_lookup_insert; by destruct l2; apply Hc2| |exact Hc1]. intros y _ Hy. by rewrite fn_lookup_insert_ne by done.
      * apply (chain_start (h_ptr h) _ x); [by rewrite fn_lookup_insert| |done]. intros y Hy. rewrite fn_lookup_insert_ne; [done|]. intros <-.
        apply (Hnd12 q Hqi). by apply list_elem_of_further.
    + apply spaced_app. auto.
    + rewrite app_comm_cons, elem_of_app. by left.
  - intros y. rewrite !covered_app, covered_cons, En. tauto.
  - intros y Hy Hcov. apply covered_app in Hcov as [(c & Hc & Hcy)|(c & Hc & Hcy)].
    + pose proof (spaced_ends _ _ _ _ Hs1 Hc). lia.
    + destruct (spaced_in _ _ _ _ H3 Hc). rewrite En in *. lia.
Qed.

Lemma take_part h l1 x l2 n : wf h (l1 ++ x :: l2) -> 0 < n < h_size h x -> let a := hadd x (h_size h x - n) in
  exists h', take_block n (lst base l1) x h = (hadd a 1, h') /\ taken h (l1 ++ x :: l2) a n h' (l1 ++ x :: l2).
Proof.
  intros [Hc Hs Hb _ Ht Hk] Hn a. pose proof Hs as Hs0. apply spaced_app in Hs as [Hs1 Hs2]. cbn [spaced] in Hs2. destruct Hs2 as (H1 & H2 & H3).
  pose proof (spaced_top _ _ _ H3) as Ht3. pose proof (spaced_top _ _ _ Hs1) as Ht1.
  assert (Htop : forall sz lo, top sz lo (l1 ++ x :: l2) = top sz (hadd x (sz x)) l2) by (clear; induction l1; intros sz lo; simpl; auto).
  assert (Hu : u32 (h_size h x - n) = h_size h x - n) by (apply u32_small; rewrite Htop in Ht; unfold hadd in *; lia).
  unfold take_block. rewrite (proj2 (Z.eqb_neq _ _)) by lia. cbn [set_size h_size]. rewrite Hu, fn_lookup_insert. fold a. eexists. split; [reflexivity|].
  set (sz := <[a := n]> (<[x := h_size h x - n]> (h_size h))). assert (Hax : a <> x) by (unfold a, hadd; lia).
  assert (Hszx : sz x = h_size h x - n) by (unfold sz; rewrite fn_lookup_insert_ne by done; by rewrite fn_lookup_insert).
  assert (Hsza : sz a = n) by (unfold sz; by rewrite fn_lookup_insert).
  assert (Hszo : forall y, y <> a -> y <> x -> sz y = h_size h y) by (intros y ? ?; unfold sz; by rewrite !fn_lookup_insert_ne by done).
  assert (Hl1 : forall y, y ∈ l1 -> sz y = h_size h y).
  { intros y Hy. pose proof (spaced_ends _ _ _ _ Hs1 Hy). destruct (spaced_in _ _ _ _ Hs1 Hy). apply Hszo; unfold a, hadd in *; lia. }
  assert (Hl2 : forall y, y ∈ l2 -> sz y = h_size h y).
  { intros y Hy. destruct (spaced_in _ _ _ _ H3 Hy). apply Hszo; unfold a, hadd in *; lia. }
  assert (Hend : hadd x (h_size h x) = hadd a n) by (unfold a, hadd; lia).
  split; cbn [set_freep set_size h_ptr h_size brk freep]; fold sz; try done.
  - split; cbn [set_freep set_size h_ptr h_size brk freep]; fold sz; try done.
    + apply spaced_app. split; [by apply (spaced_ext (h_size h))|]. rewrite (top_ext (h_size h)) by done. cbn [spaced]. rewrite Hszx. split; [done|]. split; [lia|].
      apply (spaced_lo _ (hadd x (h_size h x))); [unfold hadd; lia|]. by apply (spaced_ext (h_size h)).
    + split; [lia|]. rewrite Hszo; [lia|unfold a, hadd; lia|lia].
    + rewrite app_comm_cons, elem_of_app. left. apply lst_in.
    + rewrite Htop in Ht |- *. rewrite Hszx. fold a. destruct l2 as [|c l2]; cbn [top] in *; [unfold a, hadd in *; lia|].
      rewrite (Hl2 c) by apply list_elem_of_here. rewrite (top_ext (h_size h)); [done|]. intros y Hy. apply Hl2. by apply list_elem_of_further.
  - intros y. rewrite !covered_app, !covered_cons, !(covered_ext (h_size h) sz), Hszx, Hend by done. fold a. unfold hadd. split; intros H; repeat destruct H as [H|H]; try tauto.
    + destruct (decide (y < a)); [left; right; left; unfold a, hadd in *; lia|right; lia].
    + right. left. unfold a, hadd in *. lia.
    + right. left. unfold a, hadd in *. lia.
  - intros y Hy Hcov. apply covered_app in Hcov as [(c & Hc' & Hcy)|Hcov]; [|apply covered_cons in Hcov as [Hcy|(c & Hc' & Hcy)]].
    + pose proof (spaced_ends _ _ _ _ Hs1 Hc'). rewrite Hl1 in Hcy by done. unfold a, hadd in *. lia.
    + rewrite Hszx in Hcy. fold a in Hcy. lia.
    + destruct (spaced_in _ _ _ _ H3 Hc'). lia.
  - intros y Hy. apply Hszo; intros ->; apply Hy; apply covered_app; right; apply covered_cons; left; unfold a, hadd; lia.
Qed.

End Spec.

End UmallocSpec.
