(* ===== verification/UmallocTrace.v ===== *)
(** * The user allocator: malloc, and whole runs of a program

    [malloc] finds a block or gets memory from [sbrk]; over every sequence of
    calls the blocks in use stay apart and no memory is lost. *)

From S2P Require Import Prelude Riscv Kalloc ProcDefs Uart BlockIO World Syscall Umalloc UmallocList UmallocSpec.
From stdpp Require Import base list numbers strings functions relations sets gmap.
From Stdlib Require Import ZArith Lia.

#[local] Open Scope Z_scope.

Import Umalloc UmallocList UmallocSpec.

Module UmallocTrace.

(** ** Once around the ring *)

Lemma chain_next nx a l z q : chain nx a l z -> q ∈ a :: l -> nx q ∈ l ++ [z].
Proof.
  revert a. induction l as [|b l IH]; intros a; cbn [chain app].
  - intros H ->%list_elem_of_singleton. rewrite H. apply list_elem_of_here.
  - intros [H1 H2] [->|Hq]%elem_of_cons; [rewrite H1; apply list_elem_of_here|]. apply list_elem_of_further. by apply (IH b).
Qed.

(** The header that points to [x] is the one before it. *)
Lemma chain_pred nx a l1 x l2 z q : chain nx a (l1 ++ x :: l2) z -> NoDup (a :: l1 ++ x :: l2) -> x <> z -> q ∈ a :: l1 ++ x :: l2 -> nx q = x ->
  q = lst a l1.
Proof.
  revert a. induction l1 as [|b l1 IH]; intros a Hc Hn Hz Hq Ex; cbn [app chain lst] in *; destruct Hc as [H1 H2]; apply elem_of_cons in Hq as [->|Hq]; try done.
  - exfalso. pose proof (chain_next _ _ _ _ _ H2 Hq) as Hin. rewrite Ex in Hin. apply NoDup_cons in Hn as [_ Hn]. apply NoDup_cons in Hn as [Hx _].
    apply elem_of_app in Hin as [?|Hin]; [done|]. by apply list_elem_of_singleton in Hin.
  - exfalso. apply NoDup_cons in Hn as [_ Hn]. apply NoDup_cons in Hn as [Hb _]. apply Hb. rewrite <- H1, Ex. rewrite elem_of_app, elem_of_cons. auto.
  - apply NoDup_cons in Hn as [_ Hn]. by apply (IH b).
Qed.

(** The ring read from [f] on, back to [f]. *)
Lemma chain_rotate nx base l f : chain nx base l base -> f ∈ base :: l ->
  exists m, chain nx f m (nx f) /\ m <> [] /\ lst f m = f /\ m ≡ₚ base :: l.
Proof.
  intros Hc Hf. apply elem_of_cons in Hf as [->|Hf].
  - exists (l ++ [base]). split; [apply uchain_app; split; [done|]; split; [by apply chain_last in Hc|done]|]. split; [by destruct l|].
    split; [apply lst_snoc|]. by rewrite Permutation_app_comm.
  - apply list_elem_of_split in Hf as (c1 & c2 & ->). apply uchain_app in Hc as [H1 [H2 H3]]. cbn [hed] in H1.
    exists (c2 ++ base :: c1 ++ [f]). split.
    + apply uchain_app. cbn [hed chain]. split; [done|]. split; [by apply chain_last in H3|]. apply uchain_app. split; [done|]. split; [done|done].
    + split; [by destruct c2|]. split.
      * rewrite app_comm_cons, app_assoc. apply lst_snoc.
      * rewrite (Permutation_app_comm c2). simpl. constructor. rewrite <- app_assoc. simpl. done.
Qed.

(** ** Sizes, and fuel *)

Lemma units_bound nbytes : 0 <= nbytes < 2 ^ 31 - 32 -> 0 < units nbytes /\ units nbytes * 16 < 2 ^ 31 /\ nbytes <= 16 * (units nbytes - 1).
Proof.
  intros H. unfold units. assert (E : 0 <= (nbytes + 16 - 1) / 16 + 1 < 2 ^ 32) by dlia. rewrite u32_small by done. dlia.
Qed.

Lemma find_place_mono n k bp p h r : find_place n bp p h = Ret r -> find_place (n + k) bp p h = Ret r.
Proof.
  revert p. induction n as [|n IH]; intros p; cbn [find_place Nat.add].
  - destruct (_ && _) eqn:E1; [|destruct (_ && _) eqn:E2 in |- *; [|done]]; destruct k; cbn [find_place]; rewrite E1; try rewrite E2; done.
  - destruct (_ && _); [done|]. destruct (_ && _); [done|apply IH].
Qed.

Lemma free_mono n k ap h r : free n ap h = Ret r -> free (n + k) ap h = Ret r.
Proof.
  unfold free. intros (p & E & H)%bind_Ret. apply bind_Ret. exists p. split; [by apply find_place_mono|exact H].
Qed.

Section Spec.
Context (base : Z).

Lemma find_fit_walk nunits m h z prevp fuel : chain (h_ptr h) prevp m z -> m <> [] -> lst prevp m = freep h -> NoDup m -> (length m <= fuel)%nat ->
  (exists m1 x m2, m = m1 ++ x :: m2 /\ nunits <= h_size h x
     /\ find_fit fuel nunits prevp (h_ptr h prevp) h = Ret (take_block nunits (lst prevp m1) x h))
  \/ (Forall (fun x => h_size h x < nunits) m /\ find_fit fuel nunits prevp (h_ptr h prevp) h =
        ('(p, h) ← morecore (fuel - length m) nunits h;
         if p =? 0 then Ret (0, h) else find_fit (fuel - length m) nunits p (h_ptr h p) h)).
Proof.
  revert prevp fuel. induction m as [|x m IH]; intros prevp fuel Hc Hne Hl Hn Hf; [done|]. cbn [chain] in Hc. destruct Hc as [H1 H2]. rewrite H1.
  apply NoDup_cons in Hn as [Hx Hn]. cbn [length lst] in *. destruct fuel as [|fuel]; [lia|]. destruct (Z.leb_spec nunits (h_size h x)) as [Hfit|Hfit].
  - left. exists [], x, m. split; [done|]. split; [done|]. cbn [find_fit lst]. rewrite (proj2 (Z.leb_le _ _)) by done. unfold take_block.
    by destruct (h_size h x =? nunits).
  - cbn [find_fit]. rewrite (proj2 (Z.leb_gt _ _)) by done. destruct m as [|y m].
    + right. cbn [lst] in Hl. split; [by constructor|]. rewrite <- Hl, Z.eqb_refl. cbn [length Nat.sub]. by rewrite Nat.sub_0_r.
    + assert (Hxf : x <> freep h) by (intros ->; apply Hx; rewrite <- Hl; apply (lst_in y m)). rewrite (proj2 (Z.eqb_neq _ _)) by done.
      destruct (IH x fuel H2 ltac:(done) Hl Hn ltac:(lia)) as [(m1 & w & m2 & E & Hw & Ef)|[Hall Ef]].
      * left. exists (x :: m1), w, m2. split; [by rewrite E|]. split; [done|exact Ef].
      * right. split; [by constructor|]. exact Ef.
Qed.

(** One round: a block is found, or none fits. *)
Lemma find_fit_round h l nunits fuel : wf base h l -> 0 < nunits -> (length l < fuel)%nat ->
  (exists a h' l', find_fit fuel nunits (freep h) (h_ptr h (freep h)) h = Ret (hadd a 1, h') /\ taken base h l a nunits h' l')
  \/ (Forall (fun x => h_size h x < nunits) l /\ find_fit fuel nunits (freep h) (h_ptr h (freep h)) h =
        ('(p, h) ← morecore (fuel - S (length l)) nunits h;
         if p =? 0 then Ret (0, h) else find_fit (fuel - S (length l)) nunits p (h_ptr h p) h)).
Proof.
  intros W Hn Hf. pose proof (spaced_nodup _ _ _ (wf_spaced _ _ _ W)) as Hnd. destruct (chain_rotate _ _ _ _ (wf_chain _ _ _ W) (wf_freep _ _ _ W)) as (m & Hc & Hne & Hl & Hp).
  assert (Hm : length m = S (length l)) by (by rewrite Hp).
  destruct (find_fit_walk nunits m h _ (freep h) fuel Hc Hne Hl) as [(m1 & x & m2 & E & Hfit & Ef)|[Hall Ef]]; [by rewrite Hp|lia| |].
  - left. assert (Hx : x ∈ base :: l) by (rewrite <- Hp, E, elem_of_app, elem_of_cons; auto). destruct (wf_base _ _ _ W) as [Hb Hb0].
    apply elem_of_cons in Hx as [->|Hx]; [lia|]. apply list_elem_of_split in Hx as (l1 & l2 & El).
    assert (Hq : lst (freep h) m1 = lst base l1).
    { rewrite E in Hc. apply uchain_app in Hc as [_ [Hq _]]. apply (chain_pred (h_ptr h) base l1 x l2 base); [rewrite <- El; apply (wf_chain _ _ _ W)|by rewrite <- El| | |done].
      - pose proof (spaced_in _ _ _ x (wf_spaced _ _ _ W)) as Hsx. rewrite El, elem_of_app, elem_of_cons in Hsx. intros ->. destruct Hsx; [auto|lia].
      - rewrite <- El. pose proof (lst_in (freep h) m1) as Hin. apply elem_of_cons in Hin as [->|Hin]; [apply (wf_freep _ _ _ W)|].
        rewrite <- Hp, E, elem_of_app. by left. }
    rewrite Ef, Hq. subst l. destruct (decide (h_size h x = nunits)) as [Ex|Ex].
    + destruct (take_whole base h l1 x l2 nunits W Ex Hn) as (h' & -> & T). eauto.
    + destruct (take_part base h l1 x l2 nunits W ltac:(lia)) as (h' & -> & T). eauto.
  - right. rewrite Hm in Ef. split; [|done]. rewrite Forall_forall in Hall |- *. intros y Hy. apply Hall. rewrite Hp. by apply list_elem_of_further.
Qed.

(** ** Getting memory *)

(** The break stays below 2^31 if the ring gets [nu] more units: [sbrk] does not
    refuse them. *)
Definition room (nu : Z) (h : heap) : Prop := brk h + 16 * Z.max 4096 nu < 2 ^ 31.

Lemma morecore_spec h l nu fuel : wf base h l -> 0 < nu -> room nu h -> (length l < fuel)%nat ->
  exists n h' l', nu <= n /\ morecore fuel nu h = Ret (freep h', h') /\ wf base h' l' /\ brk h' = hadd (brk h) n
       /\ (forall x, covered (h_size h') l' x <-> covered (h_size h) l x \/ brk h <= x < brk h')
       /\ (forall y, ~ covered (h_size h') l' y -> h_size h' y = h_size h y)
       /\ (exists b, b ∈ l' /\ nu <= h_size h' b) /\ (length l' <= S (length l))%nat.
Proof.
  intros W Hn Hroom Hf. unfold morecore. set (n := if nu <? 4096 then 4096 else nu). pose proof (wf_base _ _ _ W) as [Hb0 Hbs].
  assert (Hnn : nu <= n /\ 0 < n /\ brk h + n * 16 < 2 ^ 31) by (unfold room in Hroom; unfold n; destruct (Z.ltb_spec nu 4096); lia). destruct Hnn as (Hnn & Hn0 & Hlim).
  rewrite s32_small by lia. unfold sbrk. rewrite (proj2 (Z.ltb_lt 0 _)), (proj2 (Z.ltb_lt (brk h + n * 16) _)) by lia. cbn [andb].
  rewrite (proj2 (Z.eqb_neq _ _)) by lia. set (h1 := set_size (brk h) n (set_brk (brk h + n * 16) h)).
  pose proof (wf_spaced _ _ _ W) as Hs. pose proof (wf_top _ _ _ W) as Ht. pose proof (wf_chain _ _ _ W) as Hc. pose proof (wf_freep _ _ _ W) as Hfp.
  assert (Hlt : forall x, x ∈ l -> x < brk h).
  { intros x Hx. pose proof (spaced_ends _ _ _ _ Hs Hx). destruct (spaced_in _ _ _ _ Hs Hx). unfold hadd in *. lia. }
  assert (Hsz : forall x, x <> brk h -> h_size h1 x = h_size h x) by (intros x Hx; simpl; by rewrite fn_lookup_insert_ne by done).
  assert (Hszl : forall x, x ∈ l -> h_size h1 x = h_size h x) by (intros x Hx; apply Hsz; specialize (Hlt x Hx); lia).
  assert (W1 : wf base h1 l).
  { split; [exact Hc|by apply (spaced_ext (h_size h))| |exact Hfp| |].
    - rewrite Hsz by lia. split; [simpl; lia|done].
    - rewrite (top_ext (h_size h)) by done. simpl. lia.
    - simpl. lia. }
  destruct (free_spec base h1 l (brk h) n fuel W1) as (h' & l' & -> & W' & Ek & V & O & (b & Hb & Hbn) & L);
    [simpl; by rewrite fn_lookup_insert|done|lia|simpl; unfold hadd; lia| |done|].
  { apply Forall_forall. intros x Hx. left. rewrite Hszl by done. pose proof (spaced_ends _ _ _ _ Hs Hx). lia. }
  cbn [mbind outcome_bind]. exists n, h', l'. assert (Ebrk : brk h' = hadd (brk h) n) by (rewrite Ek; unfold hadd; simpl; lia).
  split; [done|]. split; [done|]. split; [done|]. split; [done|]. split; [intros x; by rewrite V, (covered_ext (h_size h)), Ebrk by done|]. split.
  - intros y Hy. rewrite O by done. apply Hsz. intros ->. apply Hy, V. right. unfold hadd. lia.
  - split; [exists b; split; [done|lia]|done].
Qed.

(** ** [malloc] *)

(** Block [a] of [n] units comes out of the free memory and of what [sbrk] gave. *)
Record got (h : heap) (l : list Z) (a n : Z) (h' : heap) (l' : list Z) : Prop := MkGot {
  go_wf : wf base h' l';
  go_size : h_size h' a = n;
  go_brk : brk h <= brk h';
  go_free : forall x, covered (h_size h) l x \/ brk h <= x < brk h' <-> covered (h_size h') l' x \/ a <= x < hadd a n;
  go_new : forall x, a <= x < hadd a n -> ~ covered (h_size h') l' x;
  go_rest : forall y, ~ covered (h_size h) l y -> y < brk h -> h_size h' y = h_size h y
}.

Lemma find_fit_spec h l nunits fuel : wf base h l -> 0 < nunits -> room nunits h -> (2 * length l + 4 <= fuel)%nat ->
  exists a h' l', find_fit fuel nunits (freep h) (h_ptr h (freep h)) h = Ret (hadd a 1, h') /\ got h l a nunits h' l'.
Proof.
  intros W Hn Hroom Hf. destruct (find_fit_round h l nunits fuel W Hn ltac:(lia)) as [(a & h' & l' & E & [T1 T2 T3 T4 T5 T6])|[Hall E]].
  { exists a, h', l'. split; [done|]. split; try done; [lia| |auto]. intros x. rewrite <- T3, T6. split; [intros [?|?]; [done|lia]|by left]. }
  rewrite E. destruct (morecore_spec h l nunits (fuel - S (length l)) W Hn Hroom ltac:(lia)) as (n & h1 & l1 & Hnn & -> & W1 & Ek & V & O & (b & Hb & Hbn) & L).
  cbn [mbind outcome_bind]. assert (Hnz : freep h1 <> 0).
  { destruct (wf_base _ _ _ W1) as [? _]. pose proof (wf_freep _ _ _ W1) as Hin. apply elem_of_cons in Hin as [->|Hin]; [lia|].
    destruct (spaced_in _ _ _ _ (wf_spaced _ _ _ W1) Hin). lia. }
  rewrite (proj2 (Z.eqb_neq _ _)) by done.
  destruct (find_fit_round h1 l1 nunits (fuel - S (length l)) W1 Hn ltac:(lia)) as [(a & h' & l' & E1 & [T1 T2 T3 T4 T5 T6])|[Hall1 _]].
  2: { exfalso. rewrite Forall_forall in Hall1. specialize (Hall1 b Hb). lia. }
  exists a, h', l'. split; [done|]. split; try done; [unfold hadd in *; lia| |].
  - intros x. rewrite <- T3, V, T6. done.
  - intros y Hy Hyb. rewrite T5; [apply O|]; intros [?|?]%V; [done|lia|done|lia].
Qed.

(** ** More fuel changes nothing *)

Lemma morecore_mono n k nu h r : morecore n nu h = Ret r -> morecore (n + k) nu h = Ret r.
Proof.
  unfold morecore. destruct (sbrk _ _) as [p b]. destruct (p =? -1); [done|]. intros (h1 & E & H)%bind_Ret. apply bind_Ret. exists h1. split; [by apply free_mono|exact H].
Qed.

Lemma find_fit_mono n k nu q p h r : find_fit n nu q p h = Ret r -> find_fit (n + k) nu q p h = Ret r.
Proof.
  revert q p h. induction n as [|n IH]; intros q p h; cbn [find_fit Nat.add].
  - destruct (nu <=? h_size h p) eqn:E; [|done]. destruct k; cbn [find_fit]; by rewrite E.
  - destruct (nu <=? h_size h p); [done|]. destruct (p =? freep h); [|apply IH]. intros ([p1 h1] & E & H)%bind_Ret.
    rewrite (morecore_mono n k _ _ _ E). cbn [mbind outcome_bind]. destruct (p1 =? 0); [done|]. by apply IH.
Qed.

Lemma malloc_mono n k nbytes h r : malloc base n nbytes h = Ret r -> malloc base (n + k) nbytes h = Ret r.
Proof. apply find_fit_mono. Qed.

Lemma malloc_spec h l nbytes : wf base (prepare base h) l -> 0 <= nbytes < 2 ^ 31 - 32 -> room (units nbytes) (prepare base h) ->
  exists fuel a h' l', malloc base fuel nbytes h = Ret (hadd a 1, h') /\ got (prepare base h) l a (units nbytes) h' l'.
Proof.
  intros W Hn Hroom. destruct (units_bound nbytes Hn) as (U1 & _). exists (2 * length l + 4)%nat. unfold malloc.
  by apply find_fit_spec.
Qed.

(** ** Runs of a program *)

(** A program calls [malloc] and frees what it got; [live] are its blocks.  It
    does not ask for more than [sbrk] gives. *)
Inductive ustep : heap * list (Z * Z) -> heap * list (Z * Z) -> Prop :=
| us_malloc fuel nbytes h live r h' : 0 <= nbytes < 2 ^ 31 - 32 -> room (units nbytes) h -> malloc base fuel nbytes h = Ret (r, h') ->
    ustep (h, live) (h', (hadd r (-1), units nbytes) :: live)
| us_free fuel a n h live1 live2 h' : free fuel (hadd a 1) h = Ret h' ->
    ustep (h, live1 ++ (a, n) :: live2) (h', live1 ++ live2).

Definition in_block (x : Z) (p : Z * Z) : Prop := fst p <= x < hadd (fst p) (snd p).
Definition disjoint_blocks (p q : Z * Z) : Prop := hadd (fst p) (snd p) <= fst q \/ hadd (fst q) (snd q) <= fst p.

Fixpoint pairwise (live : list (Z * Z)) : Prop :=
  match live with
  | [] => True
  | p :: live => Forall (disjoint_blocks p) live /\ pairwise live
  end.

Lemma pairwise_middle l1 p l2 : pairwise (l1 ++ p :: l2) <-> pairwise (l1 ++ l2) /\ Forall (disjoint_blocks p) (l1 ++ l2).
Proof.
  induction l1 as [|q l1 IH]; cbn [app pairwise]; [tauto|]. rewrite IH, !Forall_cons, !Forall_app, !Forall_cons.
  assert (disjoint_blocks p q <-> disjoint_blocks q p) by (unfold disjoint_blocks; tauto). tauto.
Qed.

(** The heap from [lo] on, with the free list [l] and the blocks in use. *)
Record uinv (lo : Z) (h : heap) (l : list Z) (live : list (Z * Z)) : Prop := MkUinv {
  ui_wf : wf base h l;
  ui_lo : base < lo <= brk h;
  ui_live : Forall (fun p => 0 < snd p /\ lo <= fst p /\ hadd (fst p) (snd p) <= brk h /\ h_size h (fst p) = snd p) live;
  ui_apart : pairwise live;
  ui_free : forall x p, p ∈ live -> in_block x p -> ~ covered (h_size h) l x;
  ui_all : forall x, lo <= x < brk h <-> covered (h_size h) l x \/ exists p, p ∈ live /\ in_block x p
}.

Lemma prepare_wf h l : wf base h l -> prepare base h = h.
Proof.
  intros W. unfold prepare. rewrite (proj2 (Z.eqb_neq _ _)); [done|]. destruct (wf_base _ _ _ W) as [? _].
  pose proof (wf_freep _ _ _ W) as Hin. apply elem_of_cons in Hin as [->|Hin]; [lia|]. destruct (spaced_in _ _ _ _ (wf_spaced _ _ _ W) Hin). lia.
Qed.

Lemma set_brk_same h : set_brk (brk h) h = h.
Proof. by destruct h. Qed.

(** The blocks of the free list and those in use do not meet. *)
Lemma free_apart lo h l live a n : uinv lo h l live -> (a, n) ∈ live -> apart h a n l.
Proof.
  intros U Hin. pose proof (ui_live _ _ _ _ U) as HL. rewrite Forall_forall in HL. destruct (HL _ Hin) as (Hn & _). cbn [fst snd] in *.
  apply Forall_forall. intros b Hb. destruct (spaced_in _ _ _ _ (wf_spaced _ _ _ (ui_wf _ _ _ _ U)) Hb) as [_ Hs].
  destruct (decide (hadd b (h_size h b) <= a \/ hadd a n <= b)) as [|Hd]; [done|]. exfalso.
  destruct (decide (a <= b)); [apply (ui_free _ _ _ _ U b (a, n) Hin)|apply (ui_free _ _ _ _ U a (a, n) Hin)]; unfold in_block; cbn [fst snd].
  - unfold hadd in *. lia.
  - exists b. split; [done|]. unfold hadd in *. lia.
  - unfold hadd in *. lia.
  - exists b. split; [done|]. unfold hadd in *. lia.
Qed.

Lemma malloc_inv lo h l live a n h' l' : uinv lo h l live -> 0 < n -> got h l a n h' l' -> uinv lo h' l' ((a, n) :: live).
Proof.
  intros U Hn [G1 G2 G3 G4 G5 G6]. pose proof (ui_live _ _ _ _ U) as HL. pose proof (ui_lo _ _ _ _ U) as Hlo. rewrite Forall_forall in HL.
  assert (Hsrc : forall x, a <= x < hadd a n -> lo <= x < brk h' /\ forall p, p ∈ live -> ~ in_block x p).
  { intros x Hx. destruct (proj2 (G4 x) (or_intror Hx)) as [Hc|Hc].
    - assert (Hr : lo <= x < brk h) by (apply (ui_all _ _ _ _ U); by left). split; [lia|]. intros p Hp Hb. by apply (ui_free _ _ _ _ U x p).
    - split; [lia|]. intros p Hp Hb. destruct (HL p Hp) as (_ & _ & Hk & _). unfold in_block in Hb. lia. }
  assert (Ha : lo <= a) by (destruct (Hsrc a); unfold hadd; lia). assert (He : hadd a n <= brk h') by (destruct (Hsrc (hadd a n - 1)); unfold hadd in *; lia).
  split; [done|lia| | | |].
  - constructor; [cbn [fst snd]; auto|]. apply Forall_forall. intros p Hp. destruct (HL p Hp) as (Hp0 & Hp1 & Hp2 & Hp3). split; [done|]. split; [done|]. split; [lia|].
    rewrite G6; [done| |unfold hadd in *; lia]. apply (ui_free _ _ _ _ U _ p Hp). unfold in_block, hadd. lia.
  - cbn [pairwise]. split; [|apply (ui_apart _ _ _ _ U)]. apply Forall_forall. intros p Hp. unfold disjoint_blocks. cbn [fst snd].
    destruct (decide (hadd a n <= fst p \/ hadd (fst p) (snd p) <= a)) as [|Hd]; [done|]. exfalso. destruct (HL p Hp) as (Hp0 & _).
    destruct (decide (a <= fst p)).
    + destruct (Hsrc (fst p)) as [_ Hx]; [unfold hadd in *; lia|]. apply (Hx p Hp). unfold in_block, hadd. lia.
    + destruct (Hsrc a) as [_ Hx]; [unfold hadd; lia|]. apply (Hx p Hp). unfold in_block, hadd in *. lia.
  - intros x p [->|Hp]%elem_of_cons Hx; [by apply G5|]. intros Hc. destruct (proj2 (G4 x) (or_introl Hc)) as [Hc'|Hc'].
    + by apply (ui_free _ _ _ _ U x p).
    + destruct (HL p Hp) as (_ & _ & Hk & _). unfold in_block in Hx. lia.
  - intros x. setoid_rewrite elem_of_cons. split.
    + intros Hx. destruct (decide (x < brk h)) as [Hxb|Hxb].
      * assert (Hx' : lo <= x < brk h) by lia. destruct (proj1 (ui_all _ _ _ _ U x) Hx') as [Hc|(p & Hp & Hb)]; [|right; exists p; auto].
        destruct (proj1 (G4 x) (or_introl Hc)) as [?|?]; [by left|]. right. exists (a, n). auto.
      * assert (Hx' : brk h <= x < brk h') by lia. destruct (proj1 (G4 x) (or_intror Hx')) as [?|?]; [by left|]. right. exists (a, n). auto.
    + intros [Hc|(p & [->|Hp] & Hb)].
      * destruct (proj2 (G4 x) (or_introl Hc)) as [Hc'|]; [|lia]. assert (lo <= x < brk h) by (apply (ui_all _ _ _ _ U); by left). lia.
      * by apply Hsrc.
      * assert (lo <= x < brk h) by (apply (ui_all _ _ _ _ U); right; eauto). lia.
Qed.

Lemma free_inv lo h l a n live1 live2 fuel h' : uinv lo h l (live1 ++ (a, n) :: live2) -> free fuel (hadd a 1) h = Ret h' ->
  exists l', uinv lo h' l' (live1 ++ live2).
Proof.
  intros U E. set (live := live1 ++ (a, n) :: live2) in *. assert (Hin : (a, n) ∈ live) by (unfold live; rewrite elem_of_app, elem_of_cons; auto).
  pose proof (ui_live _ _ _ _ U) as HL. rewrite Forall_forall in HL. destruct (HL _ Hin) as (Hn & Ha & Hk & Hsz). cbn [fst snd] in *.
  pose proof (ui_lo _ _ _ _ U) as Hlo. pose proof (ui_wf _ _ _ _ U) as W.
  destruct (free_spec base h l a n (fuel + S (length l)) W Hsz Hn ltac:(lia) Hk (free_apart lo h l live a n U Hin) ltac:(lia)) as (h2 & l' & E2 & W' & Ek & V & O & _ & _).
  rewrite (free_mono _ _ _ _ _ E) in E2. injection E2 as <-. exists l'. pose proof (ui_apart _ _ _ _ U) as HP. apply pairwise_middle in HP as [HP1 HP2]. rewrite Forall_forall in HP2.
  assert (Hsub : forall p, p ∈ live1 ++ live2 -> p ∈ live) by (intros p; unfold live; rewrite !elem_of_app, elem_of_cons; tauto).
  assert (Hnc : forall x p, p ∈ live1 ++ live2 -> in_block x p -> ~ covered (h_size h') l' x).
  { intros x p Hp Hb [Hc|Hx]%V; [by apply (ui_free _ _ _ _ U x p (Hsub p Hp) Hb)|]. specialize (HP2 p Hp). unfold disjoint_blocks, in_block in *. cbn [fst snd] in *. lia. }
  split; [done|lia| |done|done|].
  - apply Forall_forall. intros p Hp. destruct (HL p (Hsub p Hp)) as (Hp0 & Hp1 & Hp2 & Hp3). rewrite Ek. split; [done|]. split; [done|]. split; [done|].
    rewrite O; [done|]. apply (Hnc _ p Hp). unfold in_block, hadd. lia.
  - intros x. rewrite Ek, (ui_all _ _ _ _ U), V. split.
    + intros [?|(p & Hp & Hb)]; [tauto|]. unfold live in Hp. rewrite elem_of_app, elem_of_cons in Hp. destruct Hp as [Hp|[->|Hp]];
        [right; exists p; rewrite elem_of_app; auto|left; by right|right; exists p; rewrite elem_of_app; auto].
    + intros [[?|Hx]|(p & Hp & Hb)]; [by left|right; by exists (a, n)|right; exists p; auto].
Qed.

(** ** From the first call on *)

(** Before the first call: no ring, and the break at [lo]. *)
Definition initial (lo : Z) (h : heap) : Prop := freep h = 0 /\ brk h = lo /\ 0 < base < lo /\ lo < 2 ^ 31.

Lemma initial_inv lo h : initial lo h -> uinv lo (prepare base h) [] [].
Proof.
  intros (Hf & Hb & Hlo & Hlim). unfold prepare. rewrite (proj2 (Z.eqb_eq _ _)) by done.
  assert (E : h_size (set_size base 0 (set_freep base (set_ptr base base h))) base = 0) by (simpl; apply fn_lookup_insert).
  split; [|simpl; lia|constructor|done|by intros x p ?%not_elem_of_nil|].
  - split; simpl; [apply fn_lookup_insert|done| | | |]; try lia; [|apply list_elem_of_here]. split; [lia|apply fn_lookup_insert].
  - intros x. simpl. split; [lia|]. intros [(b & ?%not_elem_of_nil & _)|(p & ?%not_elem_of_nil & _)]; done.
Qed.

Lemma prepare_brk h : brk (prepare base h) = brk h.
Proof. unfold prepare. by destruct (_ =? _). Qed.

Lemma malloc_step lo h l live fuel nbytes r h' : uinv lo (prepare base h) l live -> 0 <= nbytes < 2 ^ 31 - 32 -> room (units nbytes) h -> malloc base fuel nbytes h = Ret (r, h') ->
  exists l', uinv lo h' l' ((hadd r (-1), units nbytes) :: live).
Proof.
  intros U Hn Hroom E. destruct (malloc_spec h l nbytes (ui_wf _ _ _ _ U) Hn) as (f2 & a & h2 & l' & E2 & G); [unfold room; by rewrite prepare_brk|].
  pose proof (malloc_mono _ f2 _ _ _ E) as E1. apply (malloc_mono _ fuel) in E2. rewrite Nat.add_comm, E1 in E2. injection E2 as -> ->.
  exists l'. destruct (units_bound nbytes Hn) as (U1 & _). replace (hadd (hadd a 1) (-1)) with a by (unfold hadd; lia). exact (malloc_inv _ _ _ _ _ _ _ _ U U1 G).
Qed.

(** The invariant of every state a program can reach. *)
Definition reached (lo : Z) (s : heap * list (Z * Z)) : Prop :=
  initial lo (fst s) /\ snd s = [] \/ exists l, uinv lo (fst s) l (snd s).

Lemma reached_prepared lo h live : reached lo (h, live) -> exists l, uinv lo (prepare base h) l live.
Proof.
  intros [[H0 E]|(l & U)]; cbn [fst snd] in *; [subst live; exists []; by apply initial_inv|]. exists l. by rewrite (prepare_wf _ l (ui_wf _ _ _ _ U)).
Qed.

Lemma reached_step lo s s' : reached lo s -> ustep s s' -> reached lo s'.
Proof.
  intros R Hs. right. destruct Hs as [fuel nbytes h live r h' Hn Hroom E|fuel a n h live1 live2 h' E]; cbn [fst snd].
  - destruct (reached_prepared _ _ _ R) as (l & U). by apply (malloc_step lo h l live fuel nbytes).
  - destruct R as [[_ Hl]|(l & U)]; cbn [fst snd] in *; [by destruct live1|]. by apply (free_inv lo h l a n live1 live2 fuel).
Qed.

Lemma ureach_inv lo h0 s : initial lo h0 -> rtc ustep (h0, []) s -> reached lo s.
Proof.
  intros H0 Hr. assert (R : reached lo (h0, [])) by (by left). revert R. generalize dependent (h0, @nil (Z * Z)).
  induction 1 as [|s1 s2 s3 Hs _ IH]; [done|]. intros R. by apply IH, (reached_step lo s1).
Qed.

(** A live block can be freed: [free] returns. *)
Lemma free_returns lo h live a n : reached lo (h, live) -> (a, n) ∈ live -> exists fuel h', free fuel (hadd a 1) h = Ret h'.
Proof.
  intros [[_ E]|(l & U)] Hin; cbn [fst snd] in *; [subst live; by apply not_elem_of_nil in Hin|]. pose proof (ui_live _ _ _ _ U) as HL. rewrite Forall_forall in HL.
  destruct (HL _ Hin) as (Hn & Ha & Hk & Hsz). cbn [fst snd] in *. pose proof (ui_lo _ _ _ _ U). exists (S (length l)).
  destruct (free_spec base h l a n (S (length l)) (ui_wf _ _ _ _ U) Hsz Hn ltac:(lia) Hk (free_apart lo h l live a n U Hin) ltac:(lia)) as (h' & l' & E & _). eauto.
Qed.

(** (C35) Over every run of a program that starts with an empty heap at [lo],
    calls [malloc] for less than 2^31 - 32 bytes at a time and frees what it got,
    in any order, and whose break stays below 2^31 (so that [sbrk] refuses
    nothing; see [refused_sbrk_past_break]): every block in use lies between [lo]
    and the break and no two meet; the bytes between [lo] and the break are either
    in a block in use or in exactly the free memory of the ring, never both, so
    nothing is lost or handed out twice; the next [malloc] returns a block in the
    heap with the room that was asked for, and the [free] of any block in use
    returns. *)
Theorem umalloc_correct lo h0 h live : initial lo h0 -> rtc ustep (h0, []) (h, live) ->
  exists l, chain (h_ptr (prepare base h)) base l base
    /\ Forall (fun p => lo <= fst p /\ hadd (fst p) (snd p) <= brk h) live
    /\ pairwise live
    /\ (forall x p, p ∈ live -> in_block x p -> ~ covered (h_size (prepare base h)) l x)
    /\ (forall x, lo <= x < brk h <-> covered (h_size (prepare base h)) l x \/ exists p, p ∈ live /\ in_block x p)
    /\ (forall nbytes, 0 <= nbytes < 2 ^ 31 - 32 -> room (units nbytes) h -> exists fuel r h', malloc base fuel nbytes h = Ret (r, h')
         /\ lo <= hadd r (-1) /\ r + nbytes <= brk h')
    /\ (forall a n, (a, n) ∈ live -> exists fuel h', free fuel (hadd a 1) h = Ret h').
Proof.
  intros H0 Hr. pose proof (ureach_inv _ _ _ H0 Hr) as R. destruct (reached_prepared _ _ _ R) as (l & U). exists l. pose proof (prepare_brk h) as Eb.
  split; [apply (wf_chain _ _ _ (ui_wf _ _ _ _ U))|]. split.
  { eapply Forall_impl; [apply (ui_live _ _ _ _ U)|]. intros p (_ & ? & ? & _). by rewrite <- Eb. }
  split; [apply (ui_apart _ _ _ _ U)|]. split; [apply (ui_free _ _ _ _ U)|]. split; [rewrite <- Eb; apply (ui_all _ _ _ _ U)|]. split.
  - intros nbytes Hn Hroom. destruct (malloc_spec h l nbytes (ui_wf _ _ _ _ U) Hn) as (fuel & a & h' & l' & E & G); [unfold room; by rewrite Eb|].
    exists fuel, (hadd a 1), h'. split; [done|]. destruct (units_bound nbytes Hn) as (U1 & _ & Hb). pose proof (malloc_inv _ _ _ _ _ _ _ _ U U1 G) as U'.
    pose proof (ui_live _ _ _ _ U') as HL. apply Forall_inv in HL as (_ & Ha & Hk & _). cbn [fst snd] in Ha, Hk. unfold hadd in *. lia.
  - intros a n. by apply (free_returns lo).
Qed.

End Spec.

(** ** A run *)

Definition heap0 : heap := MkHeap (fun _ => 0) (fun _ => 0) 0 8192.

(** The heap after a call, and what the call returned. *)
Definition heap_of (o : outcome (Z * heap)) : heap := match o with Ret (_, h) => h | _ => heap0 end.

Definition heap1 : heap := heap_of (malloc 4096 10 100 heap0).
Definition heap2 : heap := heap_of (malloc 4096 10 50 heap1).
Definition heap3 : heap := match free 10 73616 heap2 with Ret h => h | _ => heap0 end.

(** Two blocks, the first freed. *)
Lemma umalloc_run : rtc (ustep 4096) (heap0, []) (heap3, [(73520, 5)]).
Proof.
  apply (rtc_l _ _ (heap1, [(73600, 8)])); [apply (us_malloc 4096 10 100 heap0 [] 73616 heap1); [lia|vm_compute; reflexivity|vm_compute; reflexivity]|].
  apply (rtc_l _ _ (heap2, [(73520, 5); (73600, 8)])); [apply (us_malloc 4096 10 50 heap1 [(73600, 8)] 73536 heap2); [lia|vm_compute; reflexivity|vm_compute; reflexivity]|].
  apply (rtc_l _ _ (heap3, [(73520, 5)])); [|apply rtc_refl].
  apply (us_free 4096 10 73600 8 heap2 [(73520, 5)] [] heap3). vm_compute. reflexivity.
Qed.

Lemma umalloc_correct_witness : exists l, chain (h_ptr (prepare 4096 heap3)) 4096 l 4096
  /\ (forall x, in_block x (73520, 5) -> ~ covered (h_size (prepare 4096 heap3)) l x).
Proof.
  destruct (umalloc_correct 4096 8192 heap0 heap3 [(73520, 5)] ltac:(repeat split; lia) umalloc_run) as (l & Hc & _ & _ & Hf & _).
  exists l. split; [exact Hc|]. intros x. exact (Hf x (73520, 5) (list_elem_of_here _ _)).
Defined.

(** ** The system call *)

(** [sbrk] is what [sys_sbrk] does for a request of more memory: its answer, and
    the size of the process afterwards. *)
Lemma sbrk_sys_sbrk {T D : Type} {BIO : BlockIO T} {UD : Uart.UartDev D} {L : Layout} (w : world T D) :
  let p := proc_at w (w_cur w) in let n := s32 (tf_load (k_mem (w_k w)) p TF_a0) in
  0 < p_sz p < 2 ^ 31 -> 0 <= n -> exists w', Syscall.sys_sbrk w = Ret (fst (sbrk n (p_sz p)), w') /\ p_sz (proc_at w' (w_cur w')) = snd (sbrk n (p_sz p)).
Proof.
  intros p n Hp Hn. pose proof (Syscall.sbrk_cases w) as E. cbv zeta in E. fold p n in E. rewrite E by lia. unfold sbrk.
  destruct ((0 <? p_sz p + n) && (p_sz p + n <? 2 ^ 31)); cbn [negb]; [|by exists w]. rewrite (proj2 (Z.ltb_ge _ _)) by lia. eexists. split; [reflexivity|].
  unfold Syscall.resize, proc_at. cbn. by rewrite lookup_insert_eq.
Qed.

(** [malloc] takes a refusal, which is not -1, for memory: the block it returns is
    past the break. *)
Lemma refused_sbrk_past_break : exists r h', malloc 4096 10 100 (set_brk (2 ^ 31 - 4096) heap0) = Ret (r, h') /\ brk h' <= hadd r (-1).
Proof. eexists _, _. split; [vm_compute; reflexivity|vm_compute; discriminate]. Qed.

End UmallocTrace.
