(* ===== verification/Ulib.v ===== *)
(** * user/ulib.c: the C library of user programs

    On byte-addressed memory, as kernel/string.c.  [read] from descriptor 0 is
    a list of bytes, the end of the input when it is empty.  [memset], [memcmp]
    and [strlen] have the code of the kernel ([KString]). *)

From S2P Require Import Prelude Riscv KString.
From stdpp Require Import base list numbers gmap strings.
From Stdlib Require Import ZArith Lia.

#[local] Open Scope Z_scope.

Import KString.

Module Ulib.

(** [while (( *s++ = *t++) != 0);] *)
Fixpoint strcpy (fuel : nat) (m : gmap Z Z) (s t : Z) : outcome (gmap Z Z) :=
  match fuel with
  | O => Fuel
  | S n =>
      let c := rd m t in
      let m := wr m s c in
      if nz c then strcpy n m (s + 1) (t + 1) else Ret m
  end.

Fixpoint strcmp (fuel : nat) (m : gmap Z Z) (p q : Z) : outcome Z :=
  if nz (rd m p) && (rd m p =? rd m q) then
    match fuel with
    | O => Fuel
    | S n => strcmp n m (p + 1) (q + 1)
    end
  else Ret (rd m p - rd m q).

Definition memmove (m : gmap Z Z) (vdst vsrc n : Z) : gmap Z Z :=
  if vdst <? vsrc then copy_up m vdst vsrc (Z.to_nat n)
  else copy_down m (vdst + n) (vsrc + n) (Z.to_nat n).

(** [memset], [memcmp] and [strlen] have the loops of kernel/string.c. *)
Definition memset (m : gmap Z Z) (dst c n : Z) : gmap Z Z := KString.memset m dst c n.
Definition memcmp (m : gmap Z Z) (s1 s2 n : Z) : Z := KString.memcmp m s1 s2 n.
Definition strlen (fuel : nat) (m : gmap Z Z) (s : Z) : outcome Z := KString.strlen fuel m s.

Definition memcpy (m : gmap Z Z) (dst src n : Z) : gmap Z Z := memmove m dst src n.

(** The loop of [atoi]. *)
Fixpoint atoi_loop (fuel : nat) (m : gmap Z Z) (s n : Z) : outcome Z :=
  if (48 <=? rd m s) && (rd m s <=? 57) then
    match fuel with
    | O => Fuel
    | S f => atoi_loop f m (s + 1) (s32 (n * 10 + rd m s - 48))
    end
  else Ret n.
Definition atoi (fuel : nat) (m : gmap Z Z) (s : Z) : outcome Z := atoi_loop fuel m s 0.

(** The loop of [gets] from index [i] on: the memory, the index after the last
    byte stored, and the rest of the input. *)
Fixpoint gets_loop (m : gmap Z Z) (buf max i : Z) (inp : list Z) : gmap Z Z * Z * list Z :=
  if i + 1 <? max then
    match inp with
    | [] => (m, i, [])
    | c :: inp =>
        let m := wr m (buf + i) c in
        if (c =? 10) || (c =? 13) then (m, i + 1, inp) else gets_loop m buf max (i + 1) inp
    end
  else (m, i, inp).
Definition gets (m : gmap Z Z) (buf max : Z) (inp : list Z) : gmap Z Z * list Z :=
  let '(m, i, inp) := gets_loop m buf max 0 inp in
  (wr m (buf + i) 0, inp).

(** ** [memmove] *)

(** The library's [memmove] chooses the direction of the copy in another
    way than the kernel's, and has the same effect: for every pair of regions,
    overlapping or not, the destination gets the bytes the source had before
    the call and nothing else changes. *)
Theorem memmove_agrees m dst src n a : 0 <= n ->
  rd (memmove m dst src n) a = rd (KString.memmove m dst src n) a
  /\ rd (memmove m dst src n) a = if decide (dst <= a < dst + n) then rd m (src + (a - dst)) else rd m a.
Proof.
  intros Hn. rewrite rd_memmove by done. assert (E : rd (memmove m dst src n) a = if decide (dst <= a < dst + n) then rd m (src + (a - dst)) else rd m a); [|by rewrite E].
  unfold memmove. destruct (Z.ltb_spec dst src).
  - by rewrite rd_copy_up, Z2Nat.id by lia.
  - rewrite rd_copy_down, Z2Nat.id by lia. replace (dst + n - n) with dst by lia. case_decide; [|done]. f_equal. lia.
Qed.

Lemma memmove_agrees_witness : rd (memmove (wr (wr ∅ 10 65) 11 66) 11 10 2) 12 = 66.
Proof. rewrite (proj2 (memmove_agrees (wr (wr ∅ 10 65) 11 66) 11 10 2 12 ltac:(lia))). reflexivity. Defined.

(** ** [gets] *)

(** The first line of the input, of at most [k] bytes. *)
Fixpoint line (k : nat) (inp : list Z) : list Z :=
  match k, inp with
  | S k, c :: inp => c :: if (c =? 10) || (c =? 13) then [] else line k inp
  | _, _ => []
  end.

Lemma line_length k inp : (length (line k inp) <= k)%nat.
Proof. revert inp. induction k as [|k IH]; intros [|c inp]; simpl; try lia. specialize (IH inp). destruct (_ || _); simpl; lia. Qed.

Lemma line_sub k inp c : c ∈ line k inp -> c ∈ inp.
Proof.
  revert inp. induction k as [|k IH]; intros [|d inp]; cbn [line]; try (by intros ?%not_elem_of_nil). rewrite !elem_of_cons. destruct (_ || _); [by intros [?|?%not_elem_of_nil]; auto|].
  intros [?|?]; auto.
Qed.

Lemma gets_loop_spec inp m buf max i : 0 <= i -> Forall (fun c => 0 <= c < 256) inp ->
  exists m', let l := line (Z.to_nat (max - 1 - i)) inp in
    gets_loop m buf max i inp = (m', i + Z.of_nat (length l), drop (length l) inp)
    /\ (forall j c, l !! j = Some c -> rd m' (buf + i + Z.of_nat j) = c)
    /\ (forall a, ~ buf + i <= a < buf + i + Z.of_nat (length l) -> rd m' a = rd m a).
Proof.
  revert m i. induction inp as [|c inp IH]; intros m i Hi Hb; cbn [gets_loop].
  - exists m. replace (line _ []) with (@nil Z) by (by destruct (Z.to_nat (max - 1 - i))). cbn [length drop]. rewrite Z.add_0_r. destruct (i + 1 <? max); (split; [done|split; [intros j c H; by rewrite lookup_nil in H|done]]).
  - apply Forall_cons in Hb as [Hc Hb]. destruct (Z.ltb_spec (i + 1) max) as [Hm|Hm].
    2: { exists m. replace (Z.to_nat (max - 1 - i)) with O by lia. cbn [line length drop]. rewrite Z.add_0_r. split; [done|]. split; [intros j x H; by rewrite lookup_nil in H|done]. }
    replace (Z.to_nat (max - 1 - i)) with (S (Z.to_nat (max - 1 - (i + 1)))) by lia. cbn [line]. destruct ((c =? 10) || (c =? 13)).
    + exists (wr m (buf + i) c). cbn [length drop]. split; [do 2 f_equal; lia|]. split.
      * intros [|j] x H; [|done]. injection H as <-. rewrite Z.add_0_r, rd_wr_eq. by apply u8_small.
      * intros a Ha. apply rd_wr_ne. lia.
    + destruct (IH (wr m (buf + i) c) (i + 1) ltac:(lia) Hb) as (m' & E & H1 & H2). exists m'. cbv zeta in *. cbn [length drop]. rewrite E. split; [do 2 f_equal; lia|]. split.
      * intros [|j] x H; cbn in H; [injection H as <-; rewrite H2 by lia; rewrite Z.add_0_r, rd_wr_eq; by apply u8_small|].
        specialize (H1 j x H). rewrite <- H1. f_equal. lia.
      * intros a Ha. rewrite H2 by lia. apply rd_wr_ne. lia.
Qed.

(** [gets] stores one line, cut to [max - 1] bytes, with its nul, within the
    [max] bytes of the buffer, and leaves the rest of the input. *)
Lemma gets_spec m buf max inp : 1 <= max -> Forall (fun c => 0 < c < 256) inp ->
  exists m', let l := line (Z.to_nat (max - 1)) inp in
    gets m buf max inp = (m', drop (length l) inp) /\ cstr m' buf l /\ Z.of_nat (length l) < max /\ same_off m' m buf max.
Proof.
  intros Hm Hb. assert (Hb' : Forall (fun c => 0 <= c < 256) inp) by (eapply Forall_impl; [exact Hb|]; simpl; lia).
  destruct (gets_loop_spec inp m buf max 0 ltac:(lia) Hb') as (m1 & E & H1 & H2). rewrite Z.sub_0_r in *. set (l := line _ inp) in *. cbv zeta in *. unfold gets. rewrite E.
  assert (Hl : Z.of_nat (length l) <= max - 1) by (pose proof (line_length (Z.to_nat (max - 1)) inp); fold l in H; lia).
  eexists. split; [done|]. split; [|split; [lia|]].
  - split; [|rewrite rd_wr_eq; reflexivity]. intros j c Hj. pose proof (lookup_lt_Some _ _ _ Hj). split.
    + assert (Hin : c ∈ inp) by (apply (line_sub (Z.to_nat (max - 1)) inp); by apply list_elem_of_lookup_2 in Hj). rewrite Forall_forall in Hb. specialize (Hb c Hin). lia.
    + rewrite rd_wr_ne by lia. rewrite <- (H1 j c Hj). f_equal. lia.
  - intros a Ha. rewrite rd_wr_ne by lia. apply H2. lia.
Qed.

End Ulib.
