(* ===== verification/Printf.v ===== *)
(** * kernel/printf.c

    Formatted output of the kernel to the console.  The conversions of numbers
    and strings are shared with user/printf.c ([Uprintf]), which differs in the
    letters of hexadecimal digits, in the set of conversions and in how it scans
    the format.

    The output is the list of the bytes passed to [consputc].  The
    format and the strings are in memory; the variable arguments are the values
    of the argument registers and stack, [args], the next being [ap]. *)

From S2P Require Import Prelude Riscv KString.
From stdpp Require Import base list numbers gmap strings.
From Stdlib Require Import ZArith Lia.

#[local] Open Scope Z_scope.

Module Printf.

Definition PERCENT : Z := 37.
Definition MINUS : Z := 45.

(** ** Numbers *)

(** The loop that fills [buf] with the digits of [x], the lowest first. *)
Fixpoint digit_loop (fuel : nat) (digits : list Z) (base x : Z) (buf : list Z) : outcome (list Z) :=
  match fuel with
  | O => Fuel
  | S n =>
      let buf := buf ++ [nth (Z.to_nat (x mod base)) digits 0] in
      let x := x / base in
      if nz x then digit_loop n digits base x buf else Ret buf
  end.

(** [while (--i >= 0) putc(buf[i])]. *)
Definition put_back (buf : list Z) : list Z := rev buf.

Definition printint_with (digits : list Z) (xx base sign : Z) : outcome (list Z) :=
  let neg := nz sign && (xx <? 0) in
  let x := if neg then u32 (- xx) else u32 xx in
  buf ← digit_loop 32 digits base x [];
  Ret (put_back (if neg then buf ++ [MINUS] else buf)).

(** The loop of [printptr] over the 16 nibbles. *)
Fixpoint nibbles (n : nat) (digits : list Z) (x : Z) : list Z :=
  match n with
  | O => []
  | S n => nth (Z.to_nat (Z.shiftr x 60)) digits 0 :: nibbles n digits (u64 (Z.shiftl x 4))
  end.
Definition printptr_with (digits : list Z) (x : Z) : list Z := [48; 120] ++ nibbles 16 digits x.

(** [while ( *s != 0) putc( *s++)], and the string for a null pointer. *)
Fixpoint put_str (fuel : nat) (m : gmap Z Z) (s : Z) : outcome (list Z) :=
  if nz (rd m s) then
    match fuel with
    | O => Fuel
    | S n => l ← put_str n m (s + 1); Ret (rd m s :: l)
    end
  else Ret [].
Definition str_null : list Z := [40; 110; 117; 108; 108; 41].
Definition print_str (fuel : nat) (m : gmap Z Z) (s : Z) : outcome (list Z) :=
  if s =? 0 then Ret str_null else put_str fuel m s.

(** ** The kernel *)

Definition digits : list Z := [48; 49; 50; 51; 52; 53; 54; 55; 56; 57; 97; 98; 99; 100; 101; 102].
Definition printint : Z -> Z -> Z -> outcome (list Z) := printint_with digits.
Definition printptr : Z -> list Z := printptr_with digits.

Section Print.
Context (m : gmap Z Z) (args : nat -> Z).

(** The [switch]: the output for the letter [c], and whether it takes an
    argument, [a]. *)
Definition convert (fuel : nat) (c a : Z) : outcome (list Z * bool) :=
  if c =? 100 then o ← printint (s32 a) 10 1; Ret (o, true)
  else if c =? 120 then o ← printint (s32 a) 16 1; Ret (o, true)
  else if c =? 112 then Ret (printptr (u64 a), true)
  else if c =? 115 then o ← print_str fuel m a; Ret (o, true)
  else if c =? PERCENT then Ret ([PERCENT], false)
  else Ret ([PERCENT; c], false).

Fixpoint printf_loop (fuel : nat) (fmt : Z) (ap : nat) : outcome (list Z) :=
  let c := rd m fmt in
  if negb (nz c) then Ret [] else
  match fuel with
  | O => Fuel
  | S n =>
      if negb (c =? PERCENT) then
        o ← printf_loop n (fmt + 1) ap; Ret (c :: o)
      else
        let c := rd m (fmt + 1) in
        if negb (nz c) then Ret [] else
        '(o1, used) ← convert n c (args ap);
        o2 ← printf_loop n (fmt + 2) (if (used : bool) then S ap else ap);
        Ret (o1 ++ o2)
  end.

Definition printf (fuel : nat) (fmt : Z) : outcome (list Z) :=
  if fmt =? 0 then Panic "null fmt" else printf_loop fuel fmt 0.

End Print.

(** [pr.locking] and [panicked]. *)
Record pr : Type := MkPr { locking : Z; panicked : Z }.

Definition printfinit (p : pr) : pr := MkPr 1 (panicked p).

Definition str_panic : list Z := [112; 97; 110; 105; 99; 58; 32].

(** What [panic] prints before it stops, and the state it leaves: its argument
    is the format of a [printf]. *)
Definition panic (fuel : nat) (m : gmap Z Z) (args : nat -> Z) (s : Z) (p : pr) : outcome (list Z * pr) :=
  o ← printf m args fuel s;
  Ret (str_panic ++ o ++ [10], MkPr 0 1).

End Printf.
