(* ===== verification/Uprintf.v ===== *)
(** * user/printf.c

    Formatted output of the user library to a descriptor: the bytes passed to
    [putc], with the memory and the arguments as in [Printf]. *)

From S2P Require Import Prelude Riscv KString Printf.
From stdpp Require Import base list numbers gmap strings.
From Stdlib Require Import ZArith Lia.

#[local] Open Scope Z_scope.

Module Uprintf.

Import Printf.

Definition digits : list Z := [48; 49; 50; 51; 52; 53; 54; 55; 56; 57; 65; 66; 67; 68; 69; 70].
Definition printint : Z -> Z -> Z -> outcome (list Z) := printint_with digits.
Definition printptr : Z -> list Z := printptr_with digits.

Section Print.
Context (m : gmap Z Z) (args : nat -> Z).

(** The letter after [%]; the parameter of [printint] is an [int], so [%l]
    prints the low half of its argument. *)
Definition convert (fuel : nat) (c a : Z) : outcome (list Z * bool) :=
  if c =? 100 then o ← printint (s32 a) 10 1; Ret (o, true)
  else if c =? 108 then o ← printint (s32 (u64 a)) 10 0; Ret (o, true)
  else if c =? 120 then o ← printint (s32 a) 16 0; Ret (o, true)
  else if c =? 112 then Ret (printptr (u64 a), true)
  else if c =? 115 then o ← print_str fuel m a; Ret (o, true)
  else if c =? 99 then Ret ([u8 a], true)
  else if c =? PERCENT then Ret ([c], false)
  else Ret ([PERCENT; c], false).

(** The loop of [vprintf]; [state] is 0 or [%]. *)
Fixpoint vprintf_loop (fuel : nat) (fmt state : Z) (ap : nat) : outcome (list Z) :=
  if negb (nz (rd m fmt)) then Ret [] else
  match fuel with
  | O => Fuel
  | S n =>
      let c := rd m fmt in
      if state =? 0 then
        if c =? PERCENT then vprintf_loop n (fmt + 1) PERCENT ap
        else o ← vprintf_loop n (fmt + 1) state ap; Ret (c :: o)
      else if state =? PERCENT then
        '(o1, used) ← convert n c (args ap);
        o2 ← vprintf_loop n (fmt + 1) 0 (if (used : bool) then S ap else ap);
        Ret (o1 ++ o2)
      else vprintf_loop n (fmt + 1) state ap
  end.

Definition vprintf (fuel : nat) (fmt : Z) : outcome (list Z) := vprintf_loop fuel fmt 0 0.

(** [fprintf] and [printf]: the descriptor and the bytes written to it. *)
Definition fprintf (fuel : nat) (fd fmt : Z) : outcome (Z * list Z) := o ← vprintf fuel fmt; Ret (fd, o).
Definition printf (fuel : nat) (fmt : Z) : outcome (Z * list Z) := fprintf fuel 1 fmt.

End Print.

End Uprintf.
