(* ===== verification/PrintfSpec.v ===== *)
(** * Formatted output is what the format says

    Numbers are printed as the one numeral of their value; [atoi] reads it
    back; and [printf] of the kernel and of the user library print, item by
    item, what the format means. *)

From S2P Require Import Prelude Riscv KString Ulib Printf Uprintf.
From stdpp Require Import base list numbers gmap strings.
From Stdlib Require Import ZArith Lia.

#[local] Open Scope Z_scope.

Import KString Ulib Printf.

Module PrintfSpec.

(** ** Numerals *)

(** The value of digits, the highest first. *)
Definition value (base : Z) (ds : list Z) : Z := foldl (fun n d => n * base + d) 0 ds.

(** [ds] writes [n] in base [base], without leading zeros. *)
Record numeral (base n : Z) (ds : list Z) : Prop := MkNumeral {
  nu_digits : Forall (fun d => 0 <= d < base) ds;
  nu_value : value base ds = n;
  nu_lead : ds = [0] \/ exists d l, ds = d :: l /\ d <> 0
}.

Lemma value_snoc base ds d : value base (ds ++ [d]) = value base ds * base + d.
Proof. unfold value. by rewrite foldl_app. Qed.

Lemma value_nonneg base ds : 0 < base -> Forall (fun d => 0 <= d < base) ds -> 0 <= value base ds.
Proof.
  intros Hb. induction ds as [|d ds IH] using rev_ind; [done|]. rewrite Forall_app, Forall_singleton, value_snoc. intros [H1 H2]. specialize (IH H1). nia.
Qed.

Lemma value_lead base ds d : 0 < base -> Forall (fun d => 0 <= d < base) (d :: ds) -> d <> 0 -> 0 < value base (d :: ds).
Proof.
  intros Hb H Hd. induction ds as [|e ds IH] using rev_ind.
  - apply Forall_inv in H. unfold value. cbn in *. lia.
  - rewrite app_comm_cons in *. apply Forall_app in H as [H1 H2%Forall_inv]. rewrite value_snoc. specialize (IH H1). nia.
Qed.

Lemma digit_unique base v1 v2 d1 d2 : 0 <= d1 < base -> 0 <= d2 < base -> v1 * base + d1 = v2 * base + d2 -> v1 = v2 /\ d1 = d2.
Proof. intros H1 H2 E. destruct (Z.lt_trichotomy v1 v2) as [H|[->|H]]; [exfalso; nia|lia|exfalso; nia]. Qed.

(** A number has one numeral. *)
Lemma numeral_unique base n ds1 ds2 : 1 < base -> numeral base n ds1 -> numeral base n ds2 -> ds1 = ds2.
Proof.
  intros Hb. revert n ds2. induction ds1 as [|d1 ds1 IH] using rev_ind; intros n ds2 [D1 V1 L1] [D2 V2 L2].
  - destruct L1 as [?|(? & ? & ? & _)]; done.
  - destruct ds2 as [|d2 ds2 _] using rev_ind; [destruct L2 as [?|(? & ? & ? & _)]; done|].
    apply Forall_app in D1 as [D1 E1%Forall_inv]. apply Forall_app in D2 as [D2 E2%Forall_inv]. rewrite value_snoc in V1, V2.
    destruct (digit_unique base (value base ds1) (value base ds2) d1 d2) as [Ev ->]; [lia..|].
    f_equal. destruct ds1 as [|e1 ds1], ds2 as [|e2 ds2]; [done|..].
    + exfalso. destruct L2 as [H|(d & l & [= -> _] & Hd)]; [by destruct ds2|]. pose proof (value_lead base ds2 d ltac:(lia) D2 Hd). unfold value in Ev at 1. simpl in Ev. lia.
    + exfalso. destruct L1 as [H|(d & l & [= -> _] & Hd)]; [by destruct ds1|]. pose proof (value_lead base ds1 d ltac:(lia) D1 Hd). unfold value in Ev at 2. simpl in Ev. lia.
    + assert (H1 : e1 <> 0) by (destruct L1 as [H|(d & l & [= -> _] & Hd)]; [by destruct ds1|done]).
      assert (H2 : e2 <> 0) by (destruct L2 as [H|(d & l & [= -> _] & Hd)]; [by destruct ds2|done]).
      apply (IH (value base (e1 :: ds1))); (split; [done|done|right; eauto]).
Qed.

(** ** [printint] *)

Definition dig (digits : list Z) (d : Z) : Z := nth (Z.to_nat d) digits 0.

Lemma digit_loop_spec digits base k : 2 <= base -> forall x fuel buf, 0 <= x < base ^ Z.of_nat (S k) -> (k < fuel)%nat ->
  exists ds, digit_loop fuel digits base x buf = Ret (buf ++ rev (dig digits <$> ds)) /\ numeral base x ds /\ (length ds <= S k)%nat.
Proof.
  intros Hb. induction k as [|k IH]; intros x fuel buf Hx Hf; (destruct fuel as [|fuel]; [lia|]); cbn [digit_loop]; fold (dig digits (x mod base)).
  - assert (Hxb : x < base) by (change (Z.of_nat 1) with 1 in Hx; rewrite Z.pow_1_r in Hx; lia). rewrite Z.div_small, Z.mod_small by lia. change (nz 0) with false. cbv iota.
    exists [x]. split; [done|]. split; [|simpl; lia]. split; [by apply Forall_singleton; lia|unfold value; simpl; lia|].
    destruct (decide (x = 0)) as [->|Hx0]; [by left|right; eauto].
  - destruct (Z.eqb_spec (x / base) 0) as [E|E].
    + rewrite E. change (nz 0) with false. cbv iota. assert (Hxb : 0 <= x < base) by (pose proof (Z.div_mod x base ltac:(lia)); pose proof (Z.mod_pos_bound x base ltac:(lia)); lia).
      rewrite Z.mod_small by lia. exists [x]. split; [done|]. split; [|simpl; lia]. split; [by apply Forall_singleton; lia|unfold value; simpl; lia|].
      destruct (decide (x = 0)) as [->|Hx0]; [by left|right; eauto].
    + rewrite (proj2 (nz_true (x / base)) E).
      assert (Hd : 0 <= x / base < base ^ Z.of_nat (S k)).
      { split; [apply Z.div_pos; lia|]. apply Z.div_lt_upper_bound; [lia|]. rewrite (Nat2Z.inj_succ (S k)), Z.pow_succ_r in Hx by lia. lia. }
      destruct (IH (x / base) fuel (buf ++ [dig digits (x mod base)]) Hd ltac:(lia)) as (ds & Eq & [N1 N2 N3] & Hl). exists (ds ++ [x mod base]).
      pose proof (Z.mod_pos_bound x base ltac:(lia)) as Hmod. split; [|split; [split|rewrite length_app; simpl; lia]].
      * rewrite Eq, fmap_app, rev_app_distr. by rewrite <- app_assoc.
      * apply Forall_app. split; [done|by apply Forall_singleton].
      * rewrite value_snoc, N2. pose proof (Z.div_mod x base ltac:(lia)). lia.
      * right. destruct N3 as [->|(d & l & -> & Hd0)]; [unfold value in N2; simpl in N2; lia|by exists d, (l ++ [x mod base])].
Qed.

(** The number [printint] prints, for an [int]. *)
Definition magnitude (xx sign : Z) : Z := if nz sign && (xx <? 0) then - xx else u32 xx.

Lemma printint_spec digits xx base sign : - 2 ^ 31 <= xx < 2 ^ 31 -> 10 <= base ->
  exists ds, printint_with digits xx base sign = Ret ((if nz sign && (xx <? 0) then [MINUS] else []) ++ (dig digits <$> ds))
    /\ numeral base (magnitude xx sign) ds /\ (length ds <= 10)%nat.
Proof.
  intros Hx Hb. unfold printint_with, magnitude. set (neg := nz sign && (xx <? 0)).
  assert (E : exists x, (if neg then u32 (- xx) else u32 xx) = x /\ (if neg then - xx else u32 xx) = x /\ 0 <= x < 2 ^ 32).
  { destruct neg eqn:En; [|exists (u32 xx); split; [done|split; [done|apply u32_range]]]. unfold neg in En. apply andb_prop in En as [_ En].
    exists (- xx). rewrite u32_small by lia. split; [done|]. split; [done|lia]. }
  destruct E as (x & -> & -> & Hr). assert (Hx10 : 0 <= x < base ^ Z.of_nat 10) by (assert (10 ^ 10 <= base ^ 10) by (apply Z.pow_le_mono_l; lia); change (Z.of_nat 10) with 10; lia).
  destruct (digit_loop_spec digits base 9 ltac:(lia) x 32 [] Hx10 ltac:(lia)) as (ds & -> & N & Hl). exists ds. split; [|done].
  cbn [mbind outcome_bind app]. unfold put_back. destruct neg; [rewrite rev_app_distr|]; rewrite rev_involutive; done.
Qed.

(** ** [atoi] *)

Lemma atoi_loop_spec ds m s n fuel : cstr m s ((fun d => 48 + d) <$> ds) -> Forall (fun d => 0 <= d < 10) ds -> 0 <= n ->
  foldl (fun n d => n * 10 + d) n ds < 2 ^ 31 -> (length ds <= fuel)%nat -> atoi_loop fuel m s n = Ret (foldl (fun n d => n * 10 + d) n ds).
Proof.
  revert s n fuel. induction ds as [|d ds IH]; intros s n fuel Hs Hd Hn Hv Hf.
  - apply cstr_nil in Hs. destruct fuel; cbn [atoi_loop]; by rewrite Hs.
  - rewrite fmap_cons in Hs. apply cstr_cons in Hs as (_ & Hr & Hs). apply Forall_cons in Hd as [Hd1 Hd]. cbn [foldl] in Hv |- *. simpl in Hf. destruct fuel as [|fuel]; [lia|].
    cbn [atoi_loop]. rewrite Hr, (proj2 (Z.leb_le 48 _)), (proj2 (Z.leb_le _ 57)) by lia. cbn [andb].
    assert (Hm : n * 10 + d <= foldl (fun n d => n * 10 + d) (n * 10 + d) ds).
    { assert (H0 : 0 <= n * 10 + d) by lia. revert H0. generalize (n * 10 + d). clear -Hd. induction Hd as [|e ds He Hd IH]; intros k Hk; cbn [foldl]; [lia|]. specialize (IH (k * 10 + e) ltac:(lia)). lia. }
    replace (n * 10 + (48 + d) - 48) with (n * 10 + d) by lia. rewrite s32_small by lia. apply IH; [done..|lia|done|lia].
Qed.

Lemma dig_decimal d : 0 <= d < 10 -> dig Uprintf.digits d = 48 + d.
Proof. intros H. assert (E : d = 0 \/ d = 1 \/ d = 2 \/ d = 3 \/ d = 4 \/ d = 5 \/ d = 6 \/ d = 7 \/ d = 8 \/ d = 9) by lia. repeat (destruct E as [-> | E]; [done|]). by subst d. Qed.

(** What [printf("%d")] of the user library prints for a non-negative [int],
    [atoi] reads back. *)
Theorem atoi_printint x m s out : 0 <= x < 2 ^ 31 -> Uprintf.printint x 10 1 = Ret out -> cstr m s out -> atoi 10 m s = Ret x.
Proof.
  intros Hx E Hs. destruct (printint_spec Uprintf.digits x 10 1 ltac:(lia) ltac:(lia)) as (ds & E2 & [N1 N2 _] & Hl). unfold Uprintf.printint in E. rewrite E in E2.
  assert (Hneg : nz 1 && (x <? 0) = false) by (rewrite (proj2 (Z.ltb_ge x 0)) by lia; done). unfold magnitude in N2. rewrite Hneg in *. rewrite u32_small in N2 by lia.
  injection E2 as ->. cbn [app] in Hs. unfold atoi. rewrite (atoi_loop_spec ds); [by rewrite <- N2| |done|lia|unfold value in N2; lia|done].
  replace ((fun d => 48 + d) <$> ds) with (dig Uprintf.digits <$> ds); [done|]. apply list_fmap_ext. intros i d Hi. rewrite Forall_lookup in N1. by apply dig_decimal, (N1 i).
Qed.

Lemma atoi_printint_witness : atoi 10 (wr (wr ∅ 5 52) 6 50) 5 = Ret 42.
Proof.
  apply (atoi_printint 42 _ 5 [52; 50]); [lia|reflexivity|]. apply cstr_cons. split; [done|]. split; [reflexivity|]. apply cstr_cons. split; [done|]. split; [reflexivity|].
  apply cstr_nil. reflexivity.
Defined.

(** ** What a format means *)

Inductive item : Type :=
| Lit (c : Z)
| Dir (c : Z).

(** A [%] at the end of the format is nothing. *)
Fixpoint items (l : list Z) : list item :=
  match l with
  | [] => []
  | c :: l => if c =? PERCENT then match l with [] => [] | d :: l => Dir d :: items l end else Lit c :: items l
  end.

(** [out] is the numeral of [n] in base [base]. *)
Definition shows_nat (digits : list Z) (base n : Z) (out : list Z) : Prop := exists ds, numeral base n ds /\ out = dig digits <$> ds.

(** [out] is a 64-bit number as 16 hexadecimal digits. *)
Definition shows_ptr (digits : list Z) (x : Z) (out : list Z) : Prop :=
  exists ds, length ds = 16%nat /\ Forall (fun d => 0 <= d < 16) ds /\ value 16 ds = x /\ out = [48; 120] ++ (dig digits <$> ds).

Definition shows_str (m : gmap Z Z) (a : Z) (out : list Z) : Prop :=
  if a =? 0 then out = str_null else cstr m a out.

(** The directives the comments of both libraries name, and what C gives them
    to mean for the argument [a]: [%d] an [int], [%x] an unsigned [int], [%p] a
    pointer, [%s] a string. *)
Definition takes (c : Z) : bool := bool_decide (c ∈ [100; 120; 112; 115]).

Definition shows (digits : list Z) (m : gmap Z Z) (c a : Z) (out : list Z) : Prop :=
  c = 100 /\ (exists o, shows_nat digits 10 (Z.abs (s32 a)) o /\ out = (if s32 a <? 0 then [MINUS] else []) ++ o)
  \/ c = 120 /\ shows_nat digits 16 (u32 a) out
  \/ c = 112 /\ shows_ptr digits (u64 a) out
  \/ c = 115 /\ shows_str m a out.

Section Format.
(** [digits] are the 16 digits of the library; [fits] what it asks of a directive
    and its argument. *)
Context (digits : list Z) (fits : Z -> Z -> Prop) (m : gmap Z Z) (args : nat -> Z).

Inductive prints : list item -> nat -> list Z -> Prop :=
| pr_nil ap : prints [] ap []
| pr_lit c its ap out : prints its ap out -> prints (Lit c :: its) ap (c :: out)
| pr_arg c its ap o out : takes c = true -> shows digits m c (args ap) o -> prints its (S ap) out -> prints (Dir c :: its) ap (o ++ out)
| pr_percent its ap out : prints its ap out -> prints (Dir PERCENT :: its) ap (PERCENT :: out)
| pr_other c its ap out : takes c = false -> c <> PERCENT -> prints its ap out -> prints (Dir c :: its) ap (PERCENT :: c :: out).

(** The arguments of [%s] are null or point to strings, and the directives are
    those the library prints as the format means them. *)
Fixpoint format_ok (its : list item) (ap : nat) : Prop :=
  match its with
  | [] => True
  | Lit _ :: its => format_ok its ap
  | Dir c :: its => (c = 115 -> args ap = 0 \/ exists l, cstr m (args ap) l) /\ fits c (args ap) /\ format_ok its (if takes c then S ap else ap)
  end.

End Format.

(** The kernel prints [%x] as a signed number: only one below 2^31 is what the
    format means. *)
Definition kernel_fits (c a : Z) : Prop := c = 120 -> 0 <= s32 a.
(** The user library has two more directives, [%l] and [%c], which its comment
    does not name. *)
Definition user_fits (c a : Z) : Prop := c <> 108 /\ c <> 99.

(** ** The conversions *)

Lemma printint_dec digits a : exists o, printint_with digits (s32 a) 10 1 = Ret o
  /\ exists o', shows_nat digits 10 (Z.abs (s32 a)) o' /\ o = (if s32 a <? 0 then [MINUS] else []) ++ o'.
Proof.
  destruct (printint_spec digits (s32 a) 10 1) as (ds & -> & N & _); [apply s32_range|lia|]. eexists. split; [done|]. exists (dig digits <$> ds). split; [|done].
  exists ds. split; [|done]. unfold magnitude in N. change (nz 1) with true in N. cbn [andb] in N. pose proof (s32_range a). destruct (Z.ltb_spec (s32 a) 0); [by rewrite Z.abs_neq by lia|].
  rewrite u32_small in N by lia. by rewrite Z.abs_eq by lia.
Qed.

Lemma printint_hex digits a sign : (nz sign = false \/ 0 <= s32 a) -> exists o, printint_with digits (s32 a) 16 sign = Ret o /\ shows_nat digits 16 (u32 a) o.
Proof.
  intros Hs. destruct (printint_spec digits (s32 a) 16 sign) as (ds & -> & N & _); [apply s32_range|lia|].
  assert (E : nz sign && (s32 a <? 0) = false) by (destruct Hs as [->|Hs]; [done|]; rewrite (proj2 (Z.ltb_ge _ _) Hs); apply andb_false_r).
  unfold magnitude in N. rewrite E in *. assert (Eu : u32 (s32 a) = u32 a) by (unfold u32, s32; dlia). rewrite Eu in N. eexists. split; [done|]. by exists ds.
Qed.

Lemma value_cons base d ds : value base (d :: ds) = d * base ^ Z.of_nat (length ds) + value base ds.
Proof.
  induction ds as [|e ds IH] using rev_ind; [unfold value; simpl; lia|]. rewrite app_comm_cons, !value_snoc, IH, length_app. simpl.
  rewrite Nat2Z.inj_add, Z.pow_add_r by lia. change (base ^ Z.of_nat 1) with (base ^ 1). rewrite Z.pow_1_r. ring.
Qed.

(** The top nibble of [x] and the rest. *)
Lemma nibble_step x n : 0 <= x < 2 ^ 64 -> 0 <= n <= 15 ->
  x / 2 ^ (60 - 4 * n) = Z.shiftr x 60 * 16 ^ n + u64 (Z.shiftl x 4) / 2 ^ (64 - 4 * n).
Proof.
  intros Hx Hn. rewrite Z.shiftr_div_pow2, Z.shiftl_mul_pow2 by lia. unfold u64. change (2 ^ 64) with (2 ^ 60 * 2 ^ 4). rewrite Zmult_mod_distr_r.
  replace (64 - 4 * n) with (60 - 4 * n + 4) by lia. rewrite (Z.pow_add_r 2 (60 - 4 * n) 4) by lia. rewrite Z.div_mul_cancel_r by lia.
  rewrite (Z.div_mod x (2 ^ 60)) at 1 by lia. assert (E : 2 ^ 60 = 16 ^ n * 2 ^ (60 - 4 * n)).
  { change 16 with (2 ^ 4). rewrite <- Z.pow_mul_r, <- Z.pow_add_r by lia. f_equal. lia. }
  rewrite E at 1. rewrite <- (Z.mul_comm (x / 2 ^ 60)), Z.mul_assoc. apply Z.div_add_l. lia.
Qed.

Lemma nibbles_spec digits n x : (n <= 16)%nat -> 0 <= x < 2 ^ 64 ->
  exists ds, nibbles n digits x = dig digits <$> ds /\ length ds = n /\ Forall (fun d => 0 <= d < 16) ds /\ value 16 ds = x / 2 ^ (64 - 4 * Z.of_nat n).
Proof.
  revert x. induction n as [|n IH]; intros x Hn Hx.
  - exists []. split; [done|]. split; [done|]. split; [constructor|]. symmetry. by apply Z.div_small.
  - destruct (IH (u64 (Z.shiftl x 4)) ltac:(lia) (u64_range _)) as (ds & E & Hl & Hd & Hv). exists (Z.shiftr x 60 :: ds). split; [cbn [nibbles]; by rewrite E|].
    split; [simpl; by rewrite Hl|]. split; [constructor; [|done]|].
    + rewrite Z.shiftr_div_pow2 by lia. split; [apply Z.div_pos; lia|apply Z.div_lt_upper_bound; lia].
    + rewrite value_cons, Hl, Hv. replace (64 - 4 * Z.of_nat (S n)) with (60 - 4 * Z.of_nat n) by lia. symmetry. apply nibble_step; lia.
Qed.

Lemma printptr_shows digits a : shows_ptr digits (u64 a) (printptr_with digits (u64 a)).
Proof.
  destruct (nibbles_spec digits 16 (u64 a) ltac:(lia) (u64_range a)) as (ds & E & Hl & Hd & Hv). exists ds. split; [done|]. split; [done|].
  split; [rewrite Hv; apply Z.div_1_r|]. unfold printptr_with. by rewrite E.
Qed.

Lemma put_str_spec m s l fuel : cstr m s l -> (length l <= fuel)%nat -> put_str fuel m s = Ret l.
Proof.
  revert s fuel. induction l as [|c l IH]; intros s fuel Hs Hf.
  - apply cstr_nil in Hs. destruct fuel; cbn [put_str]; by rewrite Hs.
  - apply cstr_cons in Hs as (Hc & Hr & Hs). simpl in Hf. destruct fuel as [|fuel]; [lia|]. cbn [put_str]. rewrite Hr, (proj2 (nz_true c) Hc). by rewrite (IH (s + 1) fuel) by (done || lia).
Qed.

Lemma print_str_shows m a : (a = 0 \/ exists l, cstr m a l) -> exists F o, (forall fuel, (F <= fuel)%nat -> print_str fuel m a = Ret o) /\ shows_str m a o.
Proof.
  intros H. unfold print_str, shows_str. destruct (Z.eqb_spec a 0) as [E|E]; [exists O, str_null; done|]. destruct H as [?|[l Hl]]; [done|].
  exists (length l), l. split; [|done]. intros fuel Hf. by apply put_str_spec.
Qed.

(** What a letter prints, for enough fuel. *)
Definition converts (digits : list Z) (fits : Z -> Z -> Prop) (m : gmap Z Z) (conv : nat -> Z -> Z -> outcome (list Z * bool)) : Prop := forall c a,
  (c = 115 -> a = 0 \/ exists l, cstr m a l) -> fits c a ->
  exists F o, (forall fuel, (F <= fuel)%nat -> conv fuel c a = Ret (o, takes c))
    /\ if takes c then shows digits m c a o else o = if c =? PERCENT then [PERCENT] else [PERCENT; c].

Lemma takes_other c : c <> 100 -> c <> 120 -> c <> 112 -> c <> 115 -> takes c = false.
Proof. intros. apply bool_decide_eq_false_2. rewrite !elem_of_cons, elem_of_nil. tauto. Qed.

Lemma kernel_converts m : converts Printf.digits kernel_fits m (Printf.convert m).
Proof.
  intros c a Hs Hx. unfold Printf.convert.
  destruct (Z.eqb_spec c 100) as [->|N1]; [|destruct (Z.eqb_spec c 120) as [->|N2]; [|destruct (Z.eqb_spec c 112) as [->|N3]; [|destruct (Z.eqb_spec c 115) as [->|N4]]]].
  - destruct (printint_dec Printf.digits a) as (o & E & H). exists O, o. split; [intros fuel _; unfold Printf.printint; by rewrite E|]. by left.
  - destruct (printint_hex Printf.digits a 1) as (o & E & H); [right; by apply Hx|]. exists O, o. split; [intros fuel _; unfold Printf.printint; by rewrite E|]. right. by left.
  - exists O, (Printf.printptr (u64 a)). split; [done|]. do 2 right. left. split; [done|apply printptr_shows].
  - destruct (print_str_shows m a (Hs eq_refl)) as (F & o & E & H). exists F, o. split; [intros fuel Hf; by rewrite E|]. by do 3 right.
  - rewrite takes_other by done. eexists O, _. split; [|done]. intros fuel _. by destruct (c =? PERCENT).
Qed.

Lemma user_converts m : converts Uprintf.digits user_fits m (Uprintf.convert m).
Proof.
  intros c a Hs [N5 N6]. unfold Uprintf.convert. rewrite (proj2 (Z.eqb_neq c 108) N5), (proj2 (Z.eqb_neq c 99) N6).
  destruct (Z.eqb_spec c 100) as [->|N1]; [|destruct (Z.eqb_spec c 120) as [->|N2]; [|destruct (Z.eqb_spec c 112) as [->|N3]; [|destruct (Z.eqb_spec c 115) as [->|N4]]]].
  - destruct (printint_dec Uprintf.digits a) as (o & E & H). exists O, o. split; [intros fuel _; unfold Uprintf.printint; by rewrite E|]. by left.
  - destruct (printint_hex Uprintf.digits a 0) as (o & E & H); [by left|]. exists O, o. split; [intros fuel _; unfold Uprintf.printint; by rewrite E|]. right. by left.
  - exists O, (Uprintf.printptr (u64 a)). split; [done|]. do 2 right. left. split; [done|apply printptr_shows].
  - destruct (print_str_shows m a (Hs eq_refl)) as (F & o & E & H). exists F, o. split; [intros fuel Hf; by rewrite E|]. by do 3 right.
  - rewrite takes_other by done. eexists O, _. split; [|done]. intros fuel _. destruct (Z.eqb_spec c PERCENT) as [->|]; done.
Qed.

(** The output of one directive and of the rest. *)
Lemma prints_dir digits m args c its ap o out :
  (if takes c then shows digits m c (args ap) o else o = if c =? PERCENT then [PERCENT] else [PERCENT; c]) ->
  prints digits m args its (if takes c then S ap else ap) out -> prints digits m args (Dir c :: its) ap (o ++ out).
Proof.
  intros Ho H. destruct (takes c) eqn:Et; [by apply pr_arg|]. subst o. destruct (Z.eqb_spec c PERCENT) as [->|Hc]; [by apply pr_percent|by apply pr_other].
Qed.

Lemma kernel_loop m args l fmt ap : cstr m fmt l -> format_ok kernel_fits m args (items l) ap ->
  exists F out, (forall fuel, (F <= fuel)%nat -> Printf.printf_loop m args fuel fmt ap = Ret out) /\ prints Printf.digits m args (items l) ap out.
Proof.
  remember (length l) as k eqn:Ek. assert (Hk : (length l <= k)%nat) by lia. clear Ek. revert l fmt ap Hk.
  induction k as [|k IH]; intros [|c l] fmt ap Hk Hf Hs; simpl in Hk; try lia.
  1, 2: apply cstr_nil in Hf; exists O, []; split; [intros fuel _; destruct fuel; cbn [Printf.printf_loop]; by rewrite Hf|apply pr_nil].
  apply cstr_cons in Hf as (Hc & Hr & Hf). cbn [items] in *. destruct (Z.eqb_spec c PERCENT) as [->|Hp].
  - destruct l as [|d l].
    + apply cstr_nil in Hf. exists 1%nat, []. split; [|apply pr_nil]. intros [|fuel] HF; [lia|]. cbn [Printf.printf_loop]. rewrite Hr, (proj2 (nz_true _) Hc). cbn [negb]. rewrite Z.eqb_refl. cbn [negb].
      by rewrite Hf.
    + apply cstr_cons in Hf as (Hd & Hrd & Hf). cbn [format_ok] in Hs. destruct Hs as (Hs1 & Hs0 & Hs2). destruct (kernel_converts m d (args ap) Hs1 Hs0) as (F1 & o & E1 & H1).
      replace (fmt + 1 + 1) with (fmt + 2) in Hf by lia. destruct (IH l (fmt + 2) _ ltac:(simpl in Hk; lia) Hf Hs2) as (F2 & out & E2 & H2).
      exists (S (F1 + F2)), (o ++ out). split; [|by apply prints_dir]. intros [|fuel] HF; [lia|]. cbn [Printf.printf_loop]. rewrite Hr, (proj2 (nz_true _) Hc). cbn [negb]. rewrite Z.eqb_refl. cbn [negb].
      rewrite Hrd, (proj2 (nz_true _) Hd). cbn [negb]. rewrite E1 by lia. cbn [mbind outcome_bind]. by rewrite E2 by lia.
  - cbn [format_ok] in Hs. destruct (IH l (fmt + 1) ap ltac:(lia) Hf Hs) as (F & out & E & H). exists (S F), (c :: out). split; [|by apply pr_lit].
    intros [|fuel] HF; [lia|]. cbn [Printf.printf_loop]. rewrite Hr, (proj2 (nz_true _) Hc). cbn [negb]. rewrite (proj2 (Z.eqb_neq _ _) Hp). cbn [negb]. by rewrite E by lia.
Qed.

Lemma user_loop m args l fmt ap : cstr m fmt l -> format_ok user_fits m args (items l) ap ->
  exists F out, (forall fuel, (F <= fuel)%nat -> Uprintf.vprintf_loop m args fuel fmt 0 ap = Ret out) /\ prints Uprintf.digits m args (items l) ap out.
Proof.
  remember (length l) as k eqn:Ek. assert (Hk : (length l <= k)%nat) by lia. clear Ek. revert l fmt ap Hk.
  induction k as [|k IH]; intros [|c l] fmt ap Hk Hf Hs; simpl in Hk; try lia.
  1, 2: apply cstr_nil in Hf; exists O, []; split; [intros fuel _; destruct fuel; cbn [Uprintf.vprintf_loop]; by rewrite Hf|apply pr_nil].
  apply cstr_cons in Hf as (Hc & Hr & Hf). cbn [items] in *. destruct (Z.eqb_spec c PERCENT) as [->|Hp].
  - destruct l as [|d l].
    + apply cstr_nil in Hf. exists 1%nat, []. split; [|apply pr_nil]. intros [|fuel] HF; [lia|]. cbn [Uprintf.vprintf_loop]. rewrite Hr. cbn.
      destruct fuel; cbn [Uprintf.vprintf_loop]; by rewrite Hf.
    + apply cstr_cons in Hf as (Hd & Hrd & Hf). cbn [format_ok] in Hs. destruct Hs as (Hs1 & Hs0 & Hs2). destruct (user_converts m d (args ap) Hs1 Hs0) as (F1 & o & E1 & H1).
      destruct (IH l (fmt + 1 + 1) _ ltac:(simpl in Hk; lia) Hf Hs2) as (F2 & out & E2 & H2).
      exists (S (S (F1 + F2))), (o ++ out). split; [|by apply prints_dir]. intros [|[|fuel]] HF; [lia|lia|]. cbn [Uprintf.vprintf_loop]. rewrite Hr, Hrd, (proj2 (nz_true _) Hc), (proj2 (nz_true _) Hd). cbn [negb].
      rewrite !Z.eqb_refl. rewrite E1 by lia. cbn [mbind outcome_bind]. change (PERCENT =? 0) with false. cbv iota. by rewrite E2 by lia.
  - cbn [format_ok] in Hs. destruct (IH l (fmt + 1) ap ltac:(lia) Hf Hs) as (F & out & E & H). exists (S F), (c :: out). split; [|by apply pr_lit].
    intros [|fuel] HF; [lia|]. cbn [Uprintf.vprintf_loop]. rewrite Hr, (proj2 (nz_true _) Hc). cbn [negb]. rewrite Z.eqb_refl, (proj2 (Z.eqb_neq _ _) Hp). by rewrite E by lia.
Qed.

(** (C37) For every format with the directives that the comments of the two
    functions name, the [printf] of the kernel and that of the user library
    return, and print item by item what the format means: [%d] the decimal
    numeral of an [int], [%x] the hexadecimal numeral of an unsigned one, [%p]
    16 hexadecimal digits, [%s] the string or "(null)"; an unknown directive is
    shown as it stands and a final [%] is dropped.  [%s] must have a string or
    null; the arguments of [%x] in the kernel are below 2^31; and [%l] and [%c]
    are left out for the user library ([user_percent_l] shows what [%l] does). *)
Theorem printf_correct m args fmt l : cstr m fmt l -> fmt <> 0 ->
  (format_ok kernel_fits m args (items l) 0 -> exists fuel out, Printf.printf m args fuel fmt = Ret out /\ prints Printf.digits m args (items l) 0 out)
  /\ (format_ok user_fits m args (items l) 0 -> exists fuel out, Uprintf.printf m args fuel fmt = Ret (1, out) /\ prints Uprintf.digits m args (items l) 0 out).
Proof.
  intros Hf Hz. split; intros Hs.
  - destruct (kernel_loop m args l fmt 0 Hf Hs) as (F & out & E & H). exists F, out. split; [|done]. unfold Printf.printf. rewrite (proj2 (Z.eqb_neq _ _) Hz). by apply E.
  - destruct (user_loop m args l fmt 0 Hf Hs) as (F & out & E & H). exists F, out. split; [|done]. unfold Uprintf.printf, Uprintf.fprintf, Uprintf.vprintf. by rewrite E.
Qed.

(** "%d" with the argument -7. *)
Lemma printf_correct_witness : exists fuel out, Uprintf.printf (wr (wr ∅ 16 37) 17 100) (fun _ => -7) fuel 16 = Ret (1, out).
Proof.
  destruct (printf_correct (wr (wr ∅ 16 37) 17 100) (fun _ => -7) 16 [37; 100]) as [_ H]; [|lia|].
  - apply cstr_cons. split; [done|]. split; [reflexivity|]. apply cstr_cons. split; [done|]. split; [reflexivity|]. apply cstr_nil. reflexivity.
  - destruct H as (fuel & out & E & _); [done|]. exists fuel, out. exact E.
Defined.

(** [%l] of 2^32 prints 0: [printint] takes an [int]. *)
Lemma user_percent_l : Uprintf.printf (wr (wr ∅ 16 37) 17 108) (fun _ => 2 ^ 32) 10 16 = Ret (1, [48]).
Proof. reflexivity. Qed.

(** [%x] of 2^32 - 1 in the kernel prints -1. *)
Lemma kernel_percent_x : Printf.printf (wr (wr ∅ 16 37) 17 120) (fun _ => 2 ^ 32 - 1) 10 16 = Ret [MINUS; 49].
Proof. reflexivity. Qed.

End PrintfSpec.
