(* ===== verification/ShMain.v ===== *)
(** * The shell's main loop (getcmd and main of user/sh.c)

    The line buffer is in memory, filled by [gets] of the user library from the
    bytes of descriptor 0.  What the loop does is a list of events: a directory
    change, or a line given to a child that parses and runs it ([Sh]), for
    which the shell then waits. *)

From S2P Require Import Prelude Riscv KString Ulib Printf PrintfSpec Sh.
From stdpp Require Import base list numbers gmap strings.
From Stdlib Require Import ZArith Lia.

#[local] Open Scope Z_scope.

Import KString Ulib.

Module ShMain.

(** What the loop does with a line. *)
Inductive event : Type :=
| Chdir (path : list Z)
| Run (line : list Z).

(** The loop that makes sure descriptors 0, 1 and 2 are open. *)
Definition str_console : list Z := [99; 111; 110; 115; 111; 108; 101].
Definition O_RDWR : Z := 2.
Fixpoint ensure_fds (fuel : nat) (t : Sh.fdtable) : outcome Sh.fdtable :=
  match fuel with
  | O => Fuel
  | S n =>
      let fd := Sh.first_free t in
      let t := Sh.do_open (Sh.Opened str_console O_RDWR) t in
      if (3 <=? fd)%nat then Ret (Sh.do_close fd t) else ensure_fds n t
  end.

Section Main.
(** The address of [buf], of [LINEBUF] bytes. *)
Context (buf : Z).
Definition LINEBUF : Z := 100.

(** The result, the memory and the rest of the input. *)
Definition getcmd (m : gmap Z Z) (inp : list Z) : Z * gmap Z Z * list Z :=
  let m := memset m buf 0 LINEBUF in
  let '(m, inp) := gets m buf LINEBUF inp in
  if rd m buf =? 0 then (-1, m, inp) else (0, m, inp).

(** The C string at [a], of less than [LINEBUF] bytes. *)
Definition string_at (m : gmap Z Z) (a : Z) : outcome (list Z) := Printf.put_str 100 m a.

Definition is_cd (m : gmap Z Z) : bool := (rd m buf =? 99) && (rd m (buf + 1) =? 100) && (rd m (buf + 2) =? 32).

Fixpoint main_loop (fuel : nat) (m : gmap Z Z) (inp : list Z) : outcome (list event) :=
  let '(r, m, inp) := getcmd m inp in
  if r <? 0 then Ret [] else
  match fuel with
  | O => Fuel
  | S n =>
      if is_cd m then
        len ← strlen 101 m buf;
        let m := wr m (buf + (len - 1)) 0 in
        path ← string_at m (buf + 3);
        evs ← main_loop n m inp;
        Ret (Chdir path :: evs)
      else
        line ← string_at m buf;
        evs ← main_loop n m inp;
        Ret (Run line :: evs)
  end.

(** ** One line *)

(** A line the buffer can hold. *)
Definition line_ok (l : list Z) : Prop := Forall (fun c => 0 < c < 256 /\ c <> 10 /\ c <> 13) l /\ Z.of_nat (length l) <= 98.

Lemma line_first k l rest : Forall (fun c => 0 < c < 256 /\ c <> 10 /\ c <> 13) l -> (length l < k)%nat -> line k (l ++ 10 :: rest) = l ++ [10].
Proof.
  revert k. induction l as [|c l IH]; intros [|k] Hl Hk; try (simpl in Hk; lia); [done|]. apply Forall_cons in Hl as [(Hc & H1 & H2) Hl]. cbn [line app].
  rewrite (proj2 (Z.eqb_neq _ _) H1), (proj2 (Z.eqb_neq _ _) H2). cbn [orb]. by rewrite (IH k) by (done || simpl in Hk; lia).
Qed.

Lemma getcmd_line m l rest : line_ok l -> Forall (fun c => 0 < c < 256) rest ->
  exists m', getcmd m (l ++ 10 :: rest) = (0, m', rest) /\ cstr m' buf (l ++ [10]).
Proof.
  intros [Hl Hn] Hr. unfold getcmd. set (m0 := memset m buf 0 LINEBUF). clearbody m0.
  assert (Hb : Forall (fun c => 0 < c < 256) (l ++ 10 :: rest)).
  { apply Forall_app. split; [eapply Forall_impl; [exact Hl|]; simpl; tauto|]. constructor; [lia|done]. }
  destruct (gets_spec m0 buf LINEBUF (l ++ 10 :: rest) ltac:(unfold LINEBUF; lia) Hb) as (m' & E & Hc & _). cbv zeta in *. unfold LINEBUF in *.
  rewrite line_first in E, Hc by (done || lia). rewrite E. exists m'. split; [|done].
  rewrite length_app. cbn [length]. rewrite drop_app_ge by lia. replace (length l + 1 - length l)%nat with 1%nat by lia. cbn [drop].
  assert (Hne : rd m' buf <> 0).
  { destruct Hc as [Hc _]. destruct l as [|c l]; [destruct (Hc O 10 eq_refl)|destruct (Hc O c eq_refl)]; rewrite Z.add_0_r in *; congruence. }
  by rewrite (proj2 (Z.eqb_neq _ _) Hne).
Qed.

Lemma getcmd_end m : exists m', getcmd m [] = (-1, m', []).
Proof.
  unfold getcmd. set (m0 := memset m buf 0 LINEBUF). unfold gets. cbn [gets_loop]. change (0 + 1 <? LINEBUF) with true. cbv iota. rewrite Z.add_0_r, rd_wr_eq. by eexists.
Qed.

(** ** The loop *)

Definition starts_cd (l : list Z) : bool :=
  match l with
  | c0 :: c1 :: c2 :: _ => (c0 =? 99) && (c1 =? 100) && (c2 =? 32)
  | _ => false
  end.

(** What a line asks for. *)
Definition event_of (l : list Z) : event := if starts_cd l then Chdir (drop 3 l) else Run (l ++ [10]).

Lemma is_cd_line m l : cstr m buf (l ++ [10]) -> is_cd m = starts_cd l.
Proof.
  unfold is_cd. destruct l as [|c0 l]; cbn [app]; [rewrite cstr_cons; intros (_ & -> & _); done|]. rewrite cstr_cons. intros (_ & -> & H).
  destruct l as [|c1 l]; cbn [app] in H; [apply cstr_cons in H as (_ & -> & _); by rewrite andb_false_r|]. apply cstr_cons in H as (_ & -> & H).
  replace (buf + 1 + 1) with (buf + 2) in H by lia. destruct l as [|c2 l]; cbn [app] in H; apply cstr_cons in H as (_ & -> & _); [by rewrite andb_false_r|done].
Qed.

Lemma cstr_prefix m a l1 c l2 : cstr m a (l1 ++ c :: l2) -> cstr (wr m (a + Z.of_nat (length l1)) 0) a l1.
Proof.
  intros [H _]. split; [|by rewrite rd_wr_eq]. intros i x Hi. pose proof (lookup_lt_Some _ _ _ Hi). destruct (H i x) as [Hx Hr]; [by rewrite lookup_app_l|].
  split; [done|]. by rewrite rd_wr_ne by lia.
Qed.

Lemma cstr_drop m a l1 l2 : cstr m a (l1 ++ l2) -> cstr m (a + Z.of_nat (length l1)) l2.
Proof.
  revert a. induction l1 as [|c l1 IH]; intros a H; cbn [app length] in *; [by rewrite Z.add_0_r|]. apply cstr_cons in H as (_ & _ & H).
  specialize (IH _ H). replace (a + Z.of_nat (S (length l1))) with (a + 1 + Z.of_nat (length l1)) by lia. done.
Qed.

Lemma main_loop_spec ls : Forall line_ok ls -> forall m, exists fuel, main_loop fuel m (concat ((fun l => l ++ [10]) <$> ls)) = Ret (event_of <$> ls).
Proof.
  induction 1 as [|l ls Hl Hls IH]; intros m.
  - exists O. cbn [main_loop]. change (concat (_ <$> [])) with (@nil Z). destruct (getcmd_end m) as (m' & ->). done.
  - rewrite fmap_cons. cbn [concat]. rewrite <- app_assoc. cbn [app]. set (rest := concat _). assert (Hr : Forall (fun c => 0 < c < 256) rest).
    { unfold rest. clear -Hls. induction Hls as [|x ls [Hx _] _ IH]; [constructor|]. rewrite fmap_cons. cbn [concat]. apply Forall_app. split; [|done]. apply Forall_app.
      split; [eapply Forall_impl; [exact Hx|]; simpl; tauto|]. constructor; [lia|constructor]. }
    destruct (getcmd_line m l rest Hl Hr) as (m' & E & Hc). pose proof (is_cd_line m' l Hc) as Ecd. destruct Hl as [Hl Hn].
    assert (Hstr : string_at m' buf = Ret (l ++ [10])) by (apply PrintfSpec.put_str_spec; [done|rewrite length_app; simpl; lia]).
    destruct (starts_cd l) eqn:Es.
    + destruct (IH (wr m' (buf + (Z.of_nat (length (l ++ [10])) - 1)) 0)) as (fuel & Ef). exists (S fuel). cbn [main_loop]. rewrite E. change (0 <? 0) with false. cbv iota. rewrite Ecd.
      unfold strlen, KString.strlen. rewrite (strlen_loop_correct 101 m' buf (l ++ [10]) 0) by (done || rewrite ?length_app; simpl; lia). cbn [mbind outcome_bind].
      assert (Hp : string_at (wr m' (buf + (Z.of_nat (length (l ++ [10])) - 1)) 0) (buf + 3) = Ret (drop 3 l)).
      { apply PrintfSpec.put_str_spec; [|rewrite length_drop; lia]. replace (buf + (Z.of_nat (length (l ++ [10])) - 1)) with (buf + Z.of_nat (length l)) by (rewrite length_app; simpl; lia).
        pose proof (cstr_prefix _ _ _ _ _ Hc) as Hc2. destruct l as [|c0 [|c1 [|c2 l]]]; try done. exact (cstr_drop _ _ [c0; c1; c2] l Hc2). }
      rewrite Hp. cbn [mbind outcome_bind]. fold rest in Ef. rewrite Ef. cbn [mbind outcome_bind]. rewrite fmap_cons. unfold event_of at 2. by rewrite Es.
    + destruct (IH m') as (fuel & Ef). exists (S fuel). cbn [main_loop]. rewrite E. change (0 <? 0) with false. cbv iota. rewrite Ecd, Hstr. cbn [mbind outcome_bind]. fold rest in Ef. rewrite Ef.
      cbn [mbind outcome_bind]. rewrite fmap_cons. unfold event_of at 2. by rewrite Es.
Qed.

(** The shell handles its input line by line, in order and each line once:
    for any lines that fit the buffer, a line that starts with "cd " changes
    the directory to what follows, and every other line, empty ones included,
    goes whole to a child; the loop ends with the input. *)
Theorem main_correct ls m : Forall line_ok ls ->
  exists fuel, main_loop fuel m (concat ((fun l => l ++ [10]) <$> ls)) = Ret (event_of <$> ls).
Proof. intros H. by apply main_loop_spec. Qed.

End Main.

(** "ls" and "cd a". *)
Lemma main_correct_witness : exists fuel, main_loop 4096 fuel ∅ [108; 115; 10; 99; 100; 32; 97; 10] = Ret [Run [108; 115; 10]; Chdir [97]].
Proof.
  apply (main_correct 4096 [[108; 115]; [99; 100; 32; 97]] ∅). repeat constructor; simpl; lia.
Defined.

(** A last line "cd ab" without a newline loses its last letter. *)
Lemma cd_without_newline : main_loop 4096 2 ∅ [99; 100; 32; 97; 98] = Ret [Chdir [97]].
Proof. vm_compute. reflexivity. Qed.

(** ** The standard descriptors *)

Lemma first_free_below t fd : (fd < Sh.first_free t)%nat -> exists f, t !! fd = Some (Some f).
Proof. revert fd. induction t as [|[f|] t IH]; intros fd H; cbn [Sh.first_free] in H; try lia. destruct fd as [|fd]; [by exists f|]. apply IH. lia. Qed.

Lemma first_free_taken t f : t !! Sh.first_free t <> Some (Some f).
Proof. induction t as [|[g|] t IH]; cbn [Sh.first_free]; [done|exact IH|done]. Qed.

(** [open] takes the first free descriptor and leaves the others. *)
Lemma do_open_lookup f t fd : fd <> Sh.first_free t -> forall g, t !! fd = Some (Some g) -> Sh.do_open f t !! fd = Some (Some g).
Proof.
  intros Hne g Hg. unfold Sh.do_open, Sh.set_fd. destruct (Nat.leb_spec (length t) (Sh.first_free t)); [rewrite lookup_app_l; [done|by apply lookup_lt_Some in Hg]|].
  by rewrite list_lookup_insert_ne by done.
Qed.

Lemma do_open_free f t : (Sh.first_free t < Sh.first_free (Sh.do_open f t))%nat.
Proof.
  unfold Sh.do_open, Sh.set_fd. induction t as [|[g|] t IH]; cbn [Sh.first_free]; [simpl; lia| |simpl; lia].
  change (length (Some g :: t) <=? S (Sh.first_free t))%nat with (length t <=? Sh.first_free t)%nat. destruct (length t <=? Sh.first_free t)%nat.
  - change (S (Sh.first_free t) - length (Some g :: t))%nat with (Sh.first_free t - length t)%nat. cbn [app Sh.first_free]. lia.
  - simpl in IH |- *. lia.
Qed.

(** The shell runs with descriptors 0, 1 and 2 open, and keeps those it was
    started with. *)
Lemma ensure_fds_spec k t : (3 < Sh.first_free t + k)%nat -> (0 < k)%nat ->
  exists t', ensure_fds k t = Ret t' /\ (forall fd, (fd < 3)%nat -> exists f, t' !! fd = Some (Some f))
    /\ forall fd f, t !! fd = Some (Some f) -> t' !! fd = Some (Some f).
Proof.
  revert t. induction k as [|k IH]; intros t Hk H0; [lia|]. cbn [ensure_fds]. set (f0 := Sh.Opened str_console O_RDWR). pose proof (do_open_free f0 t) as Hff.
  assert (Hkeep : forall fd f, t !! fd = Some (Some f) -> Sh.do_open f0 t !! fd = Some (Some f) /\ fd <> Sh.first_free t).
  { intros fd f Hf. assert (Hne : fd <> Sh.first_free t) by (intros ->; by apply (first_free_taken t f)). split; [by apply do_open_lookup|done]. }
  destruct (Nat.leb_spec 3 (Sh.first_free t)) as [H3|H3].
  - eexists. split; [done|]. unfold Sh.do_close. split.
    + intros fd Hfd. rewrite list_lookup_insert_ne by lia. apply first_free_below. lia.
    + intros fd f Hf. destruct (Hkeep fd f Hf) as [H1 H2]. by rewrite list_lookup_insert_ne by done.
  - destruct (IH (Sh.do_open f0 t) ltac:(lia) ltac:(lia)) as (t' & E & H1 & H2). exists t'. split; [done|]. split; [done|]. intros fd f Hf. by apply H2, Hkeep.
Qed.

End ShMain.
