(* ===== verification/Tools.v ===== *)
(** * user/wc.c, user/cat.c and user/echo.c

    [read] gives the input in pieces of the system's choice: [chunks] are the
    results of the calls that return a positive number, [last] is the number
    the final call returns (0 at the end, negative on an error).  The counts
    and the copy do not depend on how the input is cut. *)

From S2P Require Import Prelude.
From stdpp Require Import base list numbers strings.
From Stdlib Require Import ZArith Lia.

#[local] Open Scope Z_scope.

Module Tools.

(** ** wc *)

(** The characters of [strchr(" \r\t\n\v", c)]; a nul byte is not found. *)
Definition blank (c : Z) : bool := bool_decide (c ∈ [32; 13; 9; 10; 11]).

(** The variables [l], [w], [c] and [inword]. *)
Record counts : Type := MkCounts { ct_l : Z; ct_w : Z; ct_c : Z; ct_in : bool }.

(** The body of the inner loop. *)
Definition count_byte (k : counts) (b : Z) : counts :=
  let c := s32 (ct_c k + 1) in
  let l := if b =? 10 then s32 (ct_l k + 1) else ct_l k in
  if blank b then MkCounts l (ct_w k) c false
  else if ct_in k then MkCounts l (ct_w k) c true
  else MkCounts l (s32 (ct_w k + 1)) c true.

(** The two loops of [wc]. *)
Definition count_chunks (chunks : list (list Z)) (k : counts) : counts := foldl (fun k chunk => foldl count_byte k chunk) k chunks.

(** The three numbers [wc] prints, or [None] for the exit after a read error. *)
Definition wc (chunks : list (list Z)) (last : Z) : option (Z * Z * Z) :=
  let k := count_chunks chunks (MkCounts 0 0 0 false) in
  if last <? 0 then None else Some (ct_l k, ct_w k, ct_c k).

(** ** cat *)

(** What [cat] writes, and whether it ends without an error; [writes] says
    which chunks [write] takes whole. *)
Fixpoint cat (writes : list Z -> bool) (chunks : list (list Z)) (last : Z) : list Z * bool :=
  match chunks with
  | [] => ([], negb (last <? 0))
  | c :: chunks =>
      if writes c then let '(out, ok) := cat writes chunks last in (c ++ out, ok) else ([], false)
  end.

(** ** echo *)

(** The loop of [echo] over the arguments after the first. *)
Fixpoint echo (args : list (list Z)) : list Z :=
  match args with
  | [] => []
  | [a] => a ++ [10]
  | a :: args => a ++ [32] ++ echo args
  end.

(** ** Words *)

(** The maximal runs of non-blank bytes; [cur] is the run before [l]. *)
Fixpoint words_from (cur l : list Z) : list (list Z) :=
  match l with
  | [] => match cur with [] => [] | _ => [cur] end
  | b :: l =>
      if blank b then match cur with [] => words_from [] l | _ => cur :: words_from [] l end
      else words_from (cur ++ [b]) l
  end.
Definition words (l : list Z) : list (list Z) := words_from [] l.

Definition lines (l : list Z) : nat := length (List.filter (fun b => b =? 10) l).

Lemma count_chunks_concat chunks k : count_chunks chunks k = foldl count_byte k (concat chunks).
Proof. revert k. induction chunks as [|c chunks IH]; intros k; [done|]. cbn [count_chunks foldl concat]. rewrite foldl_app. apply IH. Qed.

(** Words begun in [l] when a run of non-blanks is open or not. *)
Lemma words_open cur1 cur2 l : cur1 <> [] -> cur2 <> [] -> length (words_from cur1 l) = length (words_from cur2 l).
Proof.
  revert cur1 cur2. induction l as [|b l IH]; intros [|x1 c1] [|x2 c2] H1 H2; try done; cbn [words_from]. destruct (blank b); [done|].
  apply IH; by destruct c1, c2.
Qed.

Lemma count_spec l k : 0 <= ct_l k -> 0 <= ct_w k -> 0 <= ct_c k -> ct_l k <= ct_c k -> ct_w k <= ct_c k -> ct_c k + Z.of_nat (length l) < 2 ^ 31 ->
  let k' := foldl count_byte k l in
  ct_l k' = ct_l k + Z.of_nat (lines l) /\ ct_c k' = ct_c k + Z.of_nat (length l)
  /\ ct_w k' = ct_w k + Z.of_nat (length (words_from (if ct_in k then [0] else []) l)) - (if ct_in k then 1 else 0).
Proof.
  revert k. induction l as [|b l IH]; intros k H1 H2 H3 H4 H5 H6; cbv zeta; cbn [foldl].
  - destruct (ct_in k); cbn; lia.
  - cbn [length] in H6. set (k1 := count_byte k b). unfold lines. cbn [List.filter length].
    assert (E : ct_c k1 = ct_c k + 1 /\ ct_l k1 = ct_l k + (if b =? 10 then 1 else 0) /\ ct_w k1 = ct_w k + (if negb (blank b) && negb (ct_in k) then 1 else 0) /\ ct_in k1 = negb (blank b)).
    { unfold k1, count_byte. rewrite !s32_small by lia. destruct (b =? 10), (blank b), (ct_in k); simpl; lia. }
    destruct E as (E1 & E2 & E3 & E4). destruct (IH k1) as (I1 & I2 & I3); try (destruct (b =? 10), (blank b), (ct_in k); simpl in *; lia).
    rewrite I1, I2, I3, E1, E2, E3, E4. unfold lines. split; [destruct (b =? 10); cbn [length]; lia|]. split; [lia|]. cbn [words_from].
    destruct (blank b), (ct_in k); cbn [negb andb length app]; try lia.
    + rewrite (words_open [0; b] [0]) by done. lia.
    + rewrite (words_open [b] [0]) by done. lia.
Qed.

(** [wc] counts the newlines, words and bytes of its input, however [read] cuts
    it, for inputs an [int] can count. *)
Lemma wc_spec chunks last : Z.of_nat (length (concat chunks)) < 2 ^ 31 -> 0 <= last ->
  wc chunks last = Some (Z.of_nat (lines (concat chunks)), Z.of_nat (length (words (concat chunks))), Z.of_nat (length (concat chunks))).
Proof.
  intros Hn Hl. unfold wc. rewrite count_chunks_concat, (proj2 (Z.ltb_ge _ _) Hl). destruct (count_spec (concat chunks) (MkCounts 0 0 0 false)) as (E1 & E2 & E3); [simpl; lia..|].
  rewrite E1, E2, E3. cbn [ct_l ct_w ct_c ct_in]. unfold words. do 3 f_equal; lia.
Qed.

(** [cat] copies its input. *)
Lemma cat_spec writes chunks last : Forall (fun c => writes c = true) chunks -> cat writes chunks last = (concat chunks, negb (last <? 0)).
Proof. induction 1 as [|c chunks Hc _ IH]; [done|]. cbn [cat concat]. by rewrite Hc, IH. Qed.

End Tools.
