(* ===== verification/Hart.v ===== *)
(** * A hart: its registers, boot and timer (include/riscv.h, kernel/start.c,
      kernel/plic.c, the timer vector of kernel/kernelvec.S)

    A hart is a map from register names to 64-bit values, with the privilege
    mode as one of them.  [sstatus], [sie] and [sip] are views of [mstatus],
    [mie] and [mip], as the RISC-V privileged architecture has it: [sstatus]
    through a fixed mask, the other two through [mideleg], whose writable bits
    are a parameter.  The registers of the CLINT and of the PLIC are in memory;
    that a read of [mtime] gives the time is up to who writes it. *)

From S2P Require Import Prelude Riscv.
From stdpp Require Import base list numbers gmap strings functions.
From Stdlib Require Import ZArith Lia.

#[local] Open Scope Z_scope.

Module Hart.

Inductive reg : Type :=
| mode | pc | ra | sp | gp | tp | t0 | t1 | t2 | s0 | s1 | a0 | a1 | a2 | a3 | a4 | a5 | a6 | a7
| s2 | s3 | s4 | s5 | s6 | s7 | s8 | s9 | s10 | s11 | t3 | t4 | t5 | t6
| mhartid | mstatus | mepc | mie | mip | medeleg | mideleg | mtvec | mscratch | mcounteren | pmpcfg0 | pmpaddr0
| sepc | stvec | satp | sscratch | scause | stval | time.

#[global] Instance reg_eq_dec : EqDecision reg.
Proof. solve_decision. Defined.

Abbreviation regfile := (reg -> Z).

(** Privilege modes. *)
Definition MODE_U : Z := 0.
Definition MODE_S : Z := 1.
Definition MODE_M : Z := 3.

(** ** include/riscv.h *)

Definition MSTATUS_MPP_MASK : Z := Z.shiftl 3 11.
Definition MSTATUS_MPP_S : Z := Z.shiftl 1 11.
Definition MSTATUS_MIE : Z := Z.shiftl 1 3.
Definition MSTATUS_MPIE : Z := Z.shiftl 1 7.
Definition SIE_SEIE : Z := Z.shiftl 1 9.
Definition SIE_STIE : Z := Z.shiftl 1 5.
Definition SIE_SSIE : Z := Z.shiftl 1 1.
Definition MIE_MTIE : Z := Z.shiftl 1 7.

(** The bits of [mstatus] that [sstatus] shows: SIE, SPIE, UBE, SPP, VS, FS, XS,
    SUM, MXR, UXL, SD. *)
Definition sstatus_mask : Z := 0x80000003000DE762.

Definition w (r : reg) (x : Z) (h : regfile) : regfile := <[r := u64 x]> h.

Definition r_mhartid (h : regfile) : Z := h mhartid.
Definition r_mstatus (h : regfile) : Z := h mstatus.
Definition w_mstatus (x : Z) (h : regfile) : regfile := w mstatus x h.
Definition w_mepc (x : Z) (h : regfile) : regfile := w mepc x h.
Definition r_sstatus (h : regfile) : Z := Z.land (h mstatus) sstatus_mask.
Definition w_sstatus (x : Z) (h : regfile) : regfile :=
  w mstatus (Z.lor (Z.ldiff (h mstatus) sstatus_mask) (Z.land x sstatus_mask)) h.
Definition r_sip (h : regfile) : Z := Z.land (h mip) (h mideleg).
(** Only the software interrupt can be written. *)
Definition w_sip (x : Z) (h : regfile) : regfile :=
  let k := Z.land (h mideleg) SIE_SSIE in w mip (Z.lor (Z.ldiff (h mip) k) (Z.land x k)) h.
Definition r_sie (h : regfile) : Z := Z.land (h mie) (h mideleg).
Definition w_sie (x : Z) (h : regfile) : regfile :=
  w mie (Z.lor (Z.ldiff (h mie) (h mideleg)) (Z.land x (h mideleg))) h.
Definition r_mie (h : regfile) : Z := h mie.
Definition w_mie (x : Z) (h : regfile) : regfile := w mie x h.
Definition r_sepc (h : regfile) : Z := h sepc.
Definition w_sepc (x : Z) (h : regfile) : regfile := w sepc x h.
Definition r_medeleg (h : regfile) : Z := h medeleg.
Definition w_medeleg (x : Z) (h : regfile) : regfile := w medeleg x h.
Definition r_mideleg (h : regfile) : Z := h mideleg.
Definition r_stvec (h : regfile) : Z := h stvec.
Definition w_stvec (x : Z) (h : regfile) : regfile := w stvec x h.
Definition w_mtvec (x : Z) (h : regfile) : regfile := w mtvec x h.
Definition w_pmpcfg0 (x : Z) (h : regfile) : regfile := w pmpcfg0 x h.
Definition w_pmpaddr0 (x : Z) (h : regfile) : regfile := w pmpaddr0 x h.
Definition w_satp (x : Z) (h : regfile) : regfile := w satp x h.
Definition r_satp (h : regfile) : Z := h satp.
Definition w_sscratch (x : Z) (h : regfile) : regfile := w sscratch x h.
Definition w_mscratch (x : Z) (h : regfile) : regfile := w mscratch x h.
Definition r_scause (h : regfile) : Z := h scause.
Definition r_stval (h : regfile) : Z := h stval.
Definition w_mcounteren (x : Z) (h : regfile) : regfile := w mcounteren x h.
Definition r_mcounteren (h : regfile) : Z := h mcounteren.
Definition r_time (h : regfile) : Z := h time.
Definition r_sp (h : regfile) : Z := h sp.
Definition r_tp (h : regfile) : Z := h tp.
Definition w_tp (x : Z) (h : regfile) : regfile := w tp x h.
Definition r_ra (h : regfile) : Z := h ra.
(** The frame pointer is [s0]. *)
Definition r_fp (h : regfile) : Z := h s0.

Definition intr_on (h : regfile) : regfile := w_sstatus (Z.lor (r_sstatus h) SSTATUS_SIE) h.
Definition intr_off (h : regfile) : regfile := w_sstatus (Z.land (r_sstatus h) (u64 (Z.lnot SSTATUS_SIE))) h.
Definition intr_get (h : regfile) : bool := nz (Z.land (r_sstatus h) SSTATUS_SIE).

(** ** Traps to machine mode *)

(** [mret]: to the mode and the address saved by the trap. *)
Definition mret (h : regfile) : regfile :=
  let s := h mstatus in
  let mie := Z.land (Z.shiftr s 7) 1 in
  let s' := Z.lor (Z.lor (Z.ldiff s (Z.lor MSTATUS_MPP_MASK MSTATUS_MIE)) MSTATUS_MPIE) (Z.shiftl mie 3) in
  <[pc := h mepc]> (<[mode := Z.land (Z.shiftr s 11) 3]> (w mstatus s' h)).

(** The hart takes an interrupt in machine mode. *)
Definition mtrap (h : regfile) : regfile :=
  let s := h mstatus in
  let mie := Z.land (Z.shiftr s 3) 1 in
  let s' := Z.lor (Z.lor (Z.ldiff s (Z.lor (Z.lor MSTATUS_MPP_MASK MSTATUS_MPIE) MSTATUS_MIE)) (Z.shiftl mie 7)) (Z.shiftl (h mode) 11) in
  <[pc := h mtvec]> (<[mode := MODE_M]> (<[mepc := h pc]> (w mstatus s' h))).

(** ** kernel/start.c *)

Definition CLINT_MTIMECMP (hartid : Z) : Z := CLINT + 0x4000 + 8 * hartid.
Definition CLINT_MTIME : Z := CLINT + 0xBFF8.
Definition interval : Z := 1000000.

Section Boot.
(** The bits of [mideleg] that can be written, and the addresses of [main],
    [timervec] and [timer_scratch]. *)
Context (mideleg_bits main timervec_addr timer_scratch : Z).

Definition w_mideleg (x : Z) (h : regfile) : regfile := w mideleg (Z.land x mideleg_bits) h.

(** [&timer_scratch[id][0]]. *)
Definition scratch_of (id : Z) : Z := timer_scratch + 40 * id.

Definition timerinit (h : regfile) (m : gmap Z Z) : regfile * gmap Z Z :=
  let id := s32 (r_mhartid h) in
  let m := store64 m (CLINT_MTIMECMP id) (u64 (load64 m CLINT_MTIME + interval)) in
  let scratch := scratch_of id in
  let m := store64 m (scratch + 8 * 3) (CLINT_MTIMECMP id) in
  let m := store64 m (scratch + 8 * 4) interval in
  let h := w_mscratch scratch h in
  let h := w_mtvec timervec_addr h in
  let h := w_mstatus (Z.lor (r_mstatus h) MSTATUS_MIE) h in
  let h := w_mie (Z.lor (r_mie h) MIE_MTIE) h in
  (h, m).

Definition start (h : regfile) (m : gmap Z Z) : regfile * gmap Z Z :=
  let x := r_mstatus h in
  let x := Z.land x (u64 (Z.lnot MSTATUS_MPP_MASK)) in
  let x := Z.lor x MSTATUS_MPP_S in
  let h := w_mstatus x h in
  let h := w_mepc main h in
  let h := w_satp 0 h in
  let h := w_medeleg 0xffff h in
  let h := w_mideleg 0xffff h in
  let h := w_sie (Z.lor (Z.lor (Z.lor (r_sie h) SIE_SEIE) SIE_STIE) SIE_SSIE) h in
  let h := w_pmpaddr0 0x3fffffffffffff h in
  let h := w_pmpcfg0 0xf h in
  let '(h, m) := timerinit h m in
  let id := s32 (r_mhartid h) in
  let h := w_tp id h in
  (mret h, m).

(** ** The timer vector of kernelvec.S *)

(** [csrrw a0, mscratch, a0]. *)
Definition swap_a0 (h : regfile) : regfile := <[a0 := h mscratch]> (<[mscratch := h a0]> h).

Definition timervec (h : regfile) (m : gmap Z Z) : regfile * gmap Z Z :=
  let h := swap_a0 h in
  let m := store64 m (h a0) (h a1) in
  let m := store64 m (h a0 + 8) (h a2) in
  let m := store64 m (h a0 + 16) (h a3) in
  let h := <[a1 := load64 m (h a0 + 24)]> h in
  let h := <[a2 := load64 m (h a0 + 32)]> h in
  let h := <[a3 := load64 m (h a1)]> h in
  let h := <[a3 := u64 (h a3 + h a2)]> h in
  let m := store64 m (h a1) (h a3) in
  let h := <[a1 := 2]> h in
  let h := w_sip (h a1) h in
  let h := <[a3 := load64 m (h a0 + 16)]> h in
  let h := <[a2 := load64 m (h a0 + 8)]> h in
  let h := <[a1 := load64 m (h a0)]> h in
  let h := swap_a0 h in
  (mret h, m).

End Boot.

(** ** Setting up a hart *)

(** [kvminithart] of kernel/vm.c; [sfence_vma] does nothing here. *)
Definition kvminithart (kernel_pagetable : Z) (h : regfile) : regfile := w_satp (MAKE_SATP kernel_pagetable) h.
(** [trapinithart] of kernel/trap.c. *)
Definition trapinithart (kernelvec_addr : Z) (h : regfile) : regfile := w_stvec kernelvec_addr h.

(** ** kernel/plic.c *)

Definition PLIC_SENABLE (hart : Z) : Z := PLIC + 0x2080 + hart * 0x100.
Definition PLIC_SPRIORITY (hart : Z) : Z := PLIC + 0x201000 + hart * 0x2000.
Definition PLIC_SCLAIM (hart : Z) : Z := PLIC + 0x201004 + hart * 0x2000.

Definition cpuid (h : regfile) : Z := s32 (r_tp h).

Definition plicinit (m : gmap Z Z) : gmap Z Z :=
  let m := store32 m (PLIC + UART0_IRQ * 4) 1 in
  store32 m (PLIC + VIRTIO0_IRQ * 4) 1.

Definition plicinithart (h : regfile) (m : gmap Z Z) : gmap Z Z :=
  let hart := cpuid h in
  let m := store32 m (PLIC_SENABLE hart) (Z.lor (Z.shiftl 1 UART0_IRQ) (Z.shiftl 1 VIRTIO0_IRQ)) in
  store32 m (PLIC_SPRIORITY hart) 0.

(** The device answers a read of the claim register with the interrupt to
    serve. *)
Definition plic_claim (h : regfile) (m : gmap Z Z) : Z := s32 (load32 m (PLIC_SCLAIM (cpuid h))).
Definition plic_complete (irq : Z) (h : regfile) (m : gmap Z Z) : gmap Z Z := store32 m (PLIC_SCLAIM (cpuid h)) irq.

End Hart.
