(* ===== verification/Sched.v ===== *)
(** * The scheduler (scheduler of kernel/proc.c)

    One CPU in its scheduler loop, among other CPUs that change the process
    table at any moment the CPU does not hold the lock of a slot, and processes
    that run on the CPU from [swtch] until they switch back.  The steps are the
    lock sections of the loop.  A pass looks at every slot once and switches to
    each process it finds runnable. *)

From S2P Require Import Prelude Riscv KString Kalloc ProcDefs Vm UserMem Pipe Uart Console Block.
From S2P Require Import Sleeplock Bio Log BlockIO Fs World File FsSpec FileSpec Proc ProcSlots Hart.
From stdpp Require Import base list numbers gmap strings relations sets functions.
From Stdlib Require Import ZArith Lia.

#[local] Open Scope Z_scope.

Import Proc ProcSlots Hart.

Module Sched.

(** Where the CPU is: at the head of the loop, about to take the lock of slot
    [i], away in the process of slot [i], or waiting for an interrupt. *)
Inductive spc : Type :=
| Top
| At (i : Z)
| Running (i : Z)
| Idle.

Section Sched.
Context {T D : Type} (kernel_pagetable : Z).
Abbreviation W := (world T D).

(** The shared kernel state, the registers of the hart, [c->proc], [found] and
    the position of the CPU. *)
Record scpu : Type := MkScpu {
  sc_world : W;
  sc_hart : regfile;
  sc_proc : option Z;
  sc_found : Z;
  sc_pc : spc
}.

Definition state_of (s : scpu) (i : Z) : procstate := p_state (proc_at (sc_world s) i).

(** The start of a turn. *)
Definition sched_top (s : scpu) : scpu := MkScpu (sc_world s) (intr_on (sc_hart s)) (sc_proc s) 0 (At 0).

(** With the lock of slot [i], up to [swtch] if its process is runnable. *)
Definition sched_slot (i : Z) (s : scpu) : scpu :=
  match scheduler_slot i (sc_world s) with
  | Ret (true, w) =>
      MkScpu w (w_satp (MAKE_SATP (p_kerntable (proc_at w i))) (sc_hart s)) (Some i) (sc_found s) (Running i)
  | Ret (false, w) => MkScpu w (sc_hart s) (sc_proc s) (sc_found s) (At (i + 1))
  | _ => s
  end.

(** From the return of [swtch] to the release of the lock. *)
Definition sched_back (i : Z) (s : scpu) : scpu :=
  MkScpu (sc_world s) (kvminithart kernel_pagetable (sc_hart s)) None 1 (At (i + 1)).

(** The end of a turn. *)
Definition sched_end (s : scpu) : scpu :=
  if sc_found s =? 0 then MkScpu (sc_world s) (intr_on (sc_hart s)) (sc_proc s) (sc_found s) Idle
  else MkScpu (sc_world s) (sc_hart s) (sc_proc s) (sc_found s) Top.

(** Steps of the CPU; [ss_wake] is an interrupt that ends [wfi], [ss_others] any
    change of the kernel state by other CPUs and by interrupts, [ss_run] any
    action of the process that runs on this CPU. *)
Inductive sstep (s : scpu) : scpu -> Prop :=
| ss_top : sc_pc s = Top -> sstep s (sched_top s)
| ss_slot i : sc_pc s = At i -> i < NPROC -> sstep s (sched_slot i s)
| ss_back i : sc_pc s = Running i -> sstep s (sched_back i s)
| ss_end : sc_pc s = At NPROC -> sstep s (sched_end s)
| ss_wake : sc_pc s = Idle -> sstep s (MkScpu (sc_world s) (sc_hart s) (sc_proc s) (sc_found s) Top)
| ss_others w : sstep s (MkScpu w (sc_hart s) (sc_proc s) (sc_found s) (sc_pc s))
| ss_run i w h : sc_pc s = Running i -> sstep s (MkScpu w h (sc_proc s) (sc_found s) (sc_pc s)).

(** ** A pass *)

(** The states of the CPU from [s] on, up to the end of the pass at [s']. *)
Inductive pass : scpu -> list scpu -> scpu -> Prop :=
| pass_end s : sc_pc s = At NPROC -> pass s [s] s
| pass_step s s1 tr s' : (exists i, sc_pc s = At i \/ sc_pc s = Running i) -> (exists i, sc_pc s1 = At i \/ sc_pc s1 = Running i) ->
    sstep s s1 -> pass s1 tr s' -> pass s (s :: tr) s'.

(** The CPU has just switched to the process of slot [i], as found in [s]: it is
    RUNNING, on this CPU, with its kernel page table, and nothing else has
    changed in the table. *)
Definition dispatched (i : Z) (s s1 : scpu) : Prop :=
  sc_pc s1 = Running i /\ sc_proc s1 = Some i /\ r_satp (sc_hart s1) = u64 (MAKE_SATP (p_kerntable (proc_at (sc_world s) i)))
  /\ forall j, proc_at (sc_world s1) j = if decide (j = i) then set_state RUNNING (proc_at (sc_world s) i) else proc_at (sc_world s) j.

(** The scheduler's own context. *)
Definition at_home (s : scpu) : Prop := sc_proc s = None /\ r_satp (sc_hart s) = u64 (MAKE_SATP kernel_pagetable).

(** How far the CPU is in its pass. *)
Definition pos (p : spc) : Z := match p with At i => 2 * i | Running i => 2 * i + 1 | _ => 0 end.

Lemma sched_slot_spec i s : sc_pc s = At i ->
  if decide (state_of s i = RUNNABLE) then dispatched i s (sched_slot i s) /\ sc_found (sched_slot i s) = sc_found s
  else sched_slot i s = MkScpu (sc_world s) (sc_hart s) (sc_proc s) (sc_found s) (At (i + 1)).
Proof.
  intros Ep. unfold sched_slot, scheduler_slot, mbind, K_bind, get_proc, gets, state_of. case_decide as Er.
  - rewrite bool_decide_eq_true_2 by done. unfold upd_proc, modify, base.mret, K_ret.
    pose proof (upd_act i (set_state RUNNING) (sc_world s)) as A.
    set (w1 := set_procs _ (sc_world s)) in *. split; [|done]. split; [done|]. split; [done|].
    assert (Ei : proc_at w1 i = set_state RUNNING (proc_at (sc_world s) i)) by (by apply (act_slot _ _ _ _ A)).
    split; [unfold r_satp, w_satp, w; cbn [sc_hart]; rewrite fn_lookup_insert; do 2 f_equal; exact (f_equal p_kerntable Ei)|].
    intros j. cbn [sc_world]. case_decide as Ej; [by subst j|]. by rewrite (act_rest _ _ _ _ A).
  - by rewrite bool_decide_eq_false_2.
Qed.

(** Slot [i] was looked at in a state of the pass, and its process was switched
    to if it was runnable then. *)
Definition looked_at (i : Z) (tr : list scpu) (s' : scpu) : Prop :=
  exists k a b, tr !! k = Some a /\ tr !! S k = Some b /\ sc_pc a = At i
    /\ if decide (state_of a i = RUNNABLE) then dispatched i a b /\ sc_found s' = 1
       else sc_pc b = At (i + 1) /\ sc_world b = sc_world a /\ sc_found b = sc_found a.

Lemma looked_at_cons i s tr s' : looked_at i tr s' -> looked_at i (s :: tr) s'.
Proof. intros (k & a & b & Ha & Hb & H). by exists (S k), a, b. Qed.

Lemma pass_head s tr s' : pass s tr s' -> tr !! 0%nat = Some s.
Proof. by destruct 1. Qed.

(** In a pass from slot [i] on, [found] only grows. *)
Lemma pass_found s tr s' : pass s tr s' -> sc_found s = 1 \/ (exists i, sc_pc s = Running i) -> sc_found s' = 1.
Proof.
  induction 1 as [s Ep|s s1 tr s' [j0 Hj0] [j Hj] Hs _ IH]; [intros [?|[i Hi]]; congruence|]. intros Hf. apply IH.
  destruct Hs as [Ep|i Ep Hi|i Ep|Ep|Ep|w|i w h Ep]; cbn [sc_found sc_pc sched_top] in *; try done.
  - destruct Hj0; congruence.
  - pose proof (sched_slot_spec i s Ep) as H. destruct Hf as [Hf|[? ?]]; [|congruence]. revert H. case_decide; [intros [_ ->]; by left|intros ->; by left].
  - by left.
  - unfold sched_end in Hj. destruct (sc_found s =? 0); simpl in Hj; by destruct Hj.
  - destruct Hj0; congruence.
Qed.

(** Every slot from the position on is looked at. *)
Lemma pass_looks s tr s' i : pass s tr s' -> slot i -> pos (sc_pc s) <= 2 * i -> looked_at i tr s'.
Proof.
  intros Hp Hi. induction Hp as [s Ep|s s1 tr s' Hin Hin1 Hs Hp IH]; intros Hpos.
  { rewrite Ep in Hpos. simpl in Hpos. unfold slot in Hi. lia. }
  destruct Hs as [Ep|j Ep Hj|j Ep|Ep|Ep|w|j w h Ep]; try (rewrite Ep in Hpos; simpl in Hpos).
  - destruct Hin as [? [?|?]]; congruence.
  - pose proof (sched_slot_spec j s Ep) as H. destruct (decide (j = i)) as [->|Hne].
    + exists 0%nat, s, (sched_slot i s). split; [done|]. split; [by apply pass_head in Hp|]. split; [done|].
      revert H. case_decide.
      * intros [Hd _]. split; [done|]. apply (pass_found _ _ _ Hp). right. exists i. apply Hd.
      * intros ->. done.
    + apply looked_at_cons, IH. revert H. case_decide; [intros [(-> & _) _]|intros ->]; simpl; lia.
  - apply looked_at_cons, IH. simpl. lia.
  - unfold slot in Hi. lia.
  - destruct Hin as [? [?|?]]; congruence.
  - by apply looked_at_cons, IH.
  - apply looked_at_cons, IH. simpl. rewrite Ep. simpl. lia.
Qed.

(** Whatever ran, the scheduler ends in its own context. *)
Lemma pass_home s tr s' : pass s tr s' -> (at_home s \/ exists i, sc_pc s = Running i) -> at_home s'.
Proof.
  induction 1 as [s Ep|s s1 tr s' [j0 Hj0] [j Hj] Hs _ IH]; [intros [?|[i Hi]]; [done|congruence]|]. intros Hf. apply IH.
  destruct Hs as [Ep|i Ep Hi|i Ep|Ep|Ep|w|i w h Ep]; cbn [sc_pc] in *; try done.
  - destruct Hj0; congruence.
  - pose proof (sched_slot_spec i s Ep) as H. revert H. case_decide; [intros [(Hr & _) _]; right; by exists i|].
    intros ->. left. by destruct Hf as [?|[? ?]]; [|congruence].
  - left. split; [done|]. unfold sched_back, kvminithart, w_satp, w, r_satp. cbn [sc_hart]. by rewrite fn_lookup_insert.
  - unfold sched_end in Hj. destruct (sc_found s =? 0); simpl in Hj; by destruct Hj.
  - destruct Hj0; congruence.
  - right. by exists i.
Qed.

(** The CPU can always go on, and each step of its own takes it further. *)
Lemma pass_progress s i : (sc_pc s = At i /\ i < NPROC) \/ sc_pc s = Running i ->
  exists s1, sstep s s1 /\ pos (sc_pc s) < pos (sc_pc s1) <= 2 * (i + 1).
Proof.
  intros [[Ep Hi]|Ep]; rewrite Ep; simpl pos.
  - exists (sched_slot i s). split; [by apply ss_slot|]. pose proof (sched_slot_spec i s Ep) as H.
    revert H. case_decide; [intros [(-> & _) _]|intros ->]; simpl; lia.
  - exists (sched_back i s). split; [by apply ss_back|]. simpl. lia.
Qed.

(** (C26) A pass of the scheduler, among other CPUs that change the process table at
    any time and processes that do anything while they run.  Every slot is
    looked at; if its process is runnable at that moment, the CPU switches to
    it, RUNNING, with [c->proc] and its kernel page table set, and nothing else
    in the table changed, and [found] is set at the end; otherwise the CPU
    passes on without a change.  So a process that stays runnable until this
    CPU switches to it runs in the pass, and the CPU waits for an interrupt
    only after a pass that found no runnable process.  After the pass
    [c->proc] is 0 and the kernel's page table is in place.  The CPU is never
    stuck: in a slot, or when its process switches back, it has a step that
    takes it on. *)
Theorem scheduler_fair s tr s' : pass s tr s' -> sc_pc s = At 0 -> sc_found s = 0 -> at_home s ->
  (forall i, slot i -> looked_at i tr s')
  /\ (forall i, slot i -> (forall a, a ∈ tr -> state_of a i = RUNNABLE \/ sc_pc a = Running i) ->
        exists k a b, tr !! k = Some a /\ tr !! S k = Some b /\ dispatched i a b)
  /\ (sc_pc (sched_end s') = Idle -> forall i, slot i -> exists a, a ∈ tr /\ sc_pc a = At i /\ state_of a i <> RUNNABLE)
  /\ at_home s'
  /\ (forall a i, sc_pc a = At i /\ i < NPROC \/ sc_pc a = Running i ->
        exists a1, sstep a a1 /\ pos (sc_pc a) < pos (sc_pc a1) <= 2 * (i + 1)).
Proof.
  intros Hp Ep Ef Hh. assert (HL : forall i, slot i -> looked_at i tr s').
  { intros i Hi. apply (pass_looks _ _ _ _ Hp Hi). rewrite Ep. simpl. unfold slot in Hi. lia. }
  split; [exact HL|]. split_and!.
  - intros i Hi Hr. destruct (HL i Hi) as (k & a & b & Ha & Hb & Epa & H). exists k, a, b. split; [done|]. split; [done|].
    destruct (Hr a (list_elem_of_lookup_2 _ _ _ Ha)) as [E|E]; [|congruence]. rewrite decide_True in H by done. apply H.
  - intros Hidle i Hi. destruct (HL i Hi) as (k & a & b & Ha & Hb & Epa & H). exists a.
    split; [by eapply list_elem_of_lookup_2|]. split; [done|]. intros Er. rewrite decide_True in H by done.
    destruct H as [_ Hf]. unfold sched_end in Hidle. rewrite Hf in Hidle. done.
  - apply (pass_home _ _ _ Hp). by left.
  - intros a i. apply pass_progress.
Qed.

End Sched.

(** ** A concrete pass *)

(** Slot 3 runnable; its process gives the CPU back at once. *)
Definition demo_sched : scpu (T := log * bst) (D := unit) :=
  MkScpu (set_procs {[ 3 := set_state RUNNABLE proc0 ]} FileSpec.demo_world)
    (w_satp (MAKE_SATP 0x80010000) (fun _ => 0)) None 0 (At 0).

(** The CPU alone, with processes that come back as they are. *)
Fixpoint demo_pass (k : nat) (s : scpu (T := log * bst) (D := unit)) : list scpu * scpu :=
  match k with
  | O => ([s], s)
  | S k =>
      let s1 := match sc_pc s with At i => sched_slot i s | Running i => sched_back 0x80010000 i s | _ => s end in
      let '(tr, s') := demo_pass k s1 in (s :: tr, s')
  end.

(** The positions that [demo_pass] goes through. *)
Fixpoint demo_ok (k : nat) (s : scpu (T := log * bst) (D := unit)) : bool :=
  match k with
  | O => match sc_pc s with At i => i =? NPROC | _ => false end
  | S k => match sc_pc s with
           | At i => (i <? NPROC) && demo_ok k (sched_slot i s)
           | Running i => demo_ok k (sched_back 0x80010000 i s)
           | _ => false
           end
  end.

Lemma demo_pass_ok k s : demo_ok k s = true -> pass 0x80010000 s (demo_pass k s).1 (demo_pass k s).2.
Proof.
  revert s. induction k as [|k IH]; intros s; cbn [demo_ok demo_pass].
  - destruct (sc_pc s) as [|i|i|] eqn:E; [done| |done..]. intros H%Z.eqb_eq. apply pass_end. by subst i.
  - destruct (sc_pc s) as [|i|i|] eqn:E; [done| | |done].
    + intros [Hi H]%andb_true_iff. specialize (IH _ H). destruct (demo_pass k (sched_slot i s)) as [tr s'] eqn:Ed. simpl in *.
      eapply pass_step; [eauto| |apply ss_slot; [exact E|lia]|exact IH].
      pose proof (sched_slot_spec i s E) as Hs. revert Hs. case_decide; [intros [(-> & _) _]; eauto|intros ->; simpl; eauto].
    + intros H. specialize (IH _ H). destruct (demo_pass k (sched_back 0x80010000 i s)) as [tr s'] eqn:Ed. simpl in *.
      eapply pass_step; [eauto| |by apply ss_back|exact IH]. simpl. eauto.
Qed.

Lemma scheduler_fair_witness :
  pass 0x80010000 demo_sched (demo_pass 65 demo_sched).1 (demo_pass 65 demo_sched).2
  /\ looked_at 3 (demo_pass 65 demo_sched).1 (demo_pass 65 demo_sched).2 /\ at_home 0x80010000 (demo_pass 65 demo_sched).2.
Proof.
  assert (Hp : pass 0x80010000 demo_sched (demo_pass 65 demo_sched).1 (demo_pass 65 demo_sched).2).
  { apply demo_pass_ok. vm_compute. reflexivity. }
  split; [exact Hp|].
  destruct (scheduler_fair 0x80010000 demo_sched _ _ Hp eq_refl eq_refl (conj eq_refl eq_refl)) as (HL & _ & _ & Hh & _).
  split; [apply HL; unfold slot, NPROC; lia|exact Hh].
Defined.

End Sched.
