(* ===== verification/HartSpec.v ===== *)
(** * Boot and timer interrupts

    [start] hands each hart over to [main] in supervisor mode with its timer
    armed, and every timer interrupt after that leaves the interrupted code as
    it was: the layout of [timer_scratch] that start.c prepares is the one the
    timer vector uses. *)

From S2P Require Import Prelude Riscv Hart.
From stdpp Require Import base list numbers gmap strings functions.
From Stdlib Require Import ZArith Lia.

#[local] Open Scope Z_scope.

Import Hart.

Module HartSpec.

(** ** Bits *)

Lemma u64_bit x n : 0 <= n < 64 -> Z.testbit (u64 x) n = Z.testbit x n.
Proof. intros H. unfold u64. apply Z.mod_pow2_bits_low. lia. Qed.

Lemma u64_bit_high x n : 64 <= n -> Z.testbit (u64 x) n = false.
Proof. intros H. unfold u64. apply Z.mod_pow2_bits_high. lia. Qed.

Lemma bit_shift1 x k n : 0 <= k -> 0 <= n -> Z.testbit (Z.shiftl (Z.land x 1) k) n = (n =? k) && Z.testbit x 0.
Proof.
  intros Hk Hn. rewrite Z.shiftl_spec, Z.land_spec by done. destruct (Z.eqb_spec n k) as [->|Hne]; [by rewrite Z.sub_diag, andb_true_r|].
  destruct (Z.lt_ge_cases n k); [by rewrite !Z.testbit_neg_r by lia|]. change 1 with (2 ^ 0). rewrite (Z.pow2_bits_false 0) by lia. apply andb_false_r.
Qed.

Lemma bit_mpp n : 0 <= n -> Z.testbit MSTATUS_MPP_MASK n = (n =? 11) || (n =? 12).
Proof.
  intros Hn. unfold MSTATUS_MPP_MASK. rewrite Z.shiftl_spec by done. change 3 with (2 ^ 0 + 2 ^ 1). 
  destruct (Z.eqb_spec n 11) as [->|H1]; [done|]. destruct (Z.eqb_spec n 12) as [->|H2]; [done|]. destruct (Z.lt_ge_cases n 11); [by rewrite Z.testbit_neg_r by lia|].
  apply Z.bits_above_log2; [done|]. change (Z.log2 (2 ^ 0 + 2 ^ 1)) with 1. lia.
Qed.
Lemma bit_one k n : 0 <= k -> 0 <= n -> Z.testbit (Z.shiftl 1 k) n = (n =? k).
Proof. intros Hk Hn. rewrite <- (Z.land_diag 1) at 1. rewrite bit_shift1 by done. apply andb_true_r. Qed.

Lemma bit_mode x n : 0 <= x < 4 -> 0 <= n -> Z.testbit (Z.shiftl x 11) n = (n =? 11) && Z.testbit x 0 || (n =? 12) && Z.testbit x 1.
Proof.
  intros Hx Hn. rewrite Z.shiftl_spec by done. destruct (Z.eqb_spec n 11) as [->|H1]; [by rewrite Z.sub_diag; destruct (Z.testbit x 0)|]. destruct (Z.eqb_spec n 12) as [->|H2]; [done|].
  destruct (Z.lt_ge_cases n 11); [by rewrite Z.testbit_neg_r by lia|]. cbn [andb orb]. destruct (Z.eq_dec x 0) as [->|]; [apply Z.bits_0|]. apply Z.bits_above_log2; [lia|].
  assert (Z.log2 x <= Z.log2 3) by (apply Z.log2_le_mono; lia). change (Z.log2 3) with 1 in *. lia.
Qed.

Ltac bits_done := cbn; rewrite ?andb_false_r, ?andb_true_r, ?orb_false_r, ?orb_true_r; done.

(** [mstatus] after a trap. *)
Lemma mtrap_bits h n : 0 <= h mode < 4 -> 0 <= n < 64 -> Z.testbit (mtrap h mstatus) n =
  if n =? 3 then false else if n =? 7 then Z.testbit (h mstatus) 3 else if n =? 11 then Z.testbit (h mode) 0 else if n =? 12 then Z.testbit (h mode) 1 else Z.testbit (h mstatus) n.
Proof.
  intros Hm Hn. unfold mtrap. cbv zeta. rewrite !fn_lookup_insert_ne by done. unfold w. rewrite fn_lookup_insert, u64_bit by done.
  rewrite !Z.lor_spec, Z.ldiff_spec, !Z.lor_spec, bit_mpp, bit_shift1, bit_mode by lia. unfold MSTATUS_MPIE, MSTATUS_MIE. rewrite !bit_one, Z.shiftr_spec by lia.
  destruct (Z.eqb_spec n 3) as [->|]; [bits_done|]. destruct (Z.eqb_spec n 7) as [->|]; [bits_done|].
  destruct (Z.eqb_spec n 11) as [->|]; [bits_done|]. destruct (Z.eqb_spec n 12) as [->|]; [bits_done|].
  bits_done.
Qed.

(** [mstatus] after [mret]. *)
Lemma mret_bits h n : 0 <= n < 64 -> Z.testbit (mret h mstatus) n =
  if n =? 3 then Z.testbit (h mstatus) 7 else if n =? 7 then true else if (n =? 11) || (n =? 12) then false else Z.testbit (h mstatus) n.
Proof.
  intros Hn. unfold mret. cbv zeta. rewrite !fn_lookup_insert_ne by done. unfold w. rewrite fn_lookup_insert, u64_bit by done.
  rewrite !Z.lor_spec, Z.ldiff_spec, !Z.lor_spec, bit_mpp, bit_shift1 by lia. unfold MSTATUS_MPIE, MSTATUS_MIE. rewrite !bit_one, Z.shiftr_spec by lia.
  destruct (Z.eqb_spec n 3) as [->|]; [bits_done|]. destruct (Z.eqb_spec n 7) as [->|]; [bits_done|].
  destruct (Z.eqb_spec n 11) as [->|]; [bits_done|]. destruct (Z.eqb_spec n 12) as [->|]; [bits_done|].
  bits_done.
Qed.

(** ** Enabling interrupts *)

(** [intr_on] and [intr_off] set what [intr_get] reads, and leave the other bits
    of [mstatus] alone. *)
Lemma sstatus_write h x n : 0 <= n < 64 -> Z.testbit (w_sstatus x h mstatus) n = if Z.testbit sstatus_mask n then Z.testbit x n else Z.testbit (h mstatus) n.
Proof.
  intros Hn. unfold w_sstatus, w. rewrite fn_lookup_insert, u64_bit, Z.lor_spec, Z.ldiff_spec, Z.land_spec by done. destruct (Z.testbit sstatus_mask n); [by rewrite andb_false_r, andb_true_r|].
  by rewrite andb_true_r, andb_false_r, orb_false_r.
Qed.

Lemma intr_get_bit h : intr_get h = Z.testbit (h mstatus) 1.
Proof. unfold intr_get, r_sstatus, SSTATUS_SIE. rewrite <- Z.land_assoc. change (Z.land sstatus_mask (Z.shiftl 1 1)) with (Z.shiftl 1 1). by apply nz_land_bit. Qed.

Lemma intr_on_off h : intr_get (intr_on h) = true /\ intr_get (intr_off h) = false
  /\ forall n, 0 <= n < 64 -> n <> 1 -> Z.testbit (intr_on h mstatus) n = Z.testbit (h mstatus) n /\ Z.testbit (intr_off h mstatus) n = Z.testbit (h mstatus) n.
Proof.
  rewrite !intr_get_bit. unfold intr_on, intr_off, r_sstatus, SSTATUS_SIE. split; [|split].
  - rewrite sstatus_write, Z.lor_spec by lia. apply orb_true_r.
  - rewrite sstatus_write, Z.land_spec by lia. apply andb_false_r.
  - intros n Hn Hne. rewrite !sstatus_write, Z.lor_spec, !Z.land_spec, bit_one, u64_bit, Z.lnot_spec, bit_one by lia. rewrite (proj2 (Z.eqb_neq _ _) Hne). cbn [negb].
    destruct (Z.testbit sstatus_mask n); [|done]. by rewrite !andb_true_r, orb_false_r.
Qed.

(** ** The interrupt controller *)

(** After the initialisation both devices have a priority above the threshold of
    the hart and are enabled on it. *)
Lemma plic_ready h m : 0 <= cpuid h < NCPU -> let m' := plicinithart h (plicinit m) in
  load32 m' (PLIC + UART0_IRQ * 4) = 1 /\ load32 m' (PLIC + VIRTIO0_IRQ * 4) = 1 /\ load32 m' (PLIC_SPRIORITY (cpuid h)) = 0
  /\ load32 m' (PLIC_SENABLE (cpuid h)) = Z.lor (Z.shiftl 1 UART0_IRQ) (Z.shiftl 1 VIRTIO0_IRQ).
Proof.
  intros Hc. cbv zeta. unfold plicinithart, plicinit. set (c := cpuid h) in *. clearbody c. change (Z.lor (Z.shiftl 1 UART0_IRQ) (Z.shiftl 1 VIRTIO0_IRQ)) with 1026.
  unfold PLIC_SPRIORITY, PLIC_SENABLE, UART0_IRQ, VIRTIO0_IRQ, NCPU in *. split; [|split; [|split]].
  - rewrite !load32_store32_ne by lia. by apply load32_store32.
  - rewrite !load32_store32_ne by lia. by apply load32_store32.
  - by apply load32_store32.
  - rewrite load32_store32_ne by lia. by apply load32_store32.
Qed.

(** ** The timer vector *)

Ltac regs := repeat (rewrite fn_lookup_insert || rewrite fn_lookup_insert_ne by done).

(** [csrw sip, 2] raises the software interrupt when it is delegated. *)
Lemma sip_bit i d n : 0 <= n < 64 ->
  Z.testbit (u64 (Z.lor (Z.ldiff i (Z.land d SIE_SSIE)) (Z.land 2 (Z.land d SIE_SSIE)))) n = Z.testbit i n || (n =? 1) && Z.testbit d 1.
Proof.
  intros Hn. rewrite u64_bit, Z.lor_spec, Z.ldiff_spec, !Z.land_spec by lia. unfold SIE_SSIE. change 2 with (Z.shiftl 1 1). rewrite !bit_one by lia.
  destruct (Z.eqb_spec n 1) as [->|]; [destruct (Z.testbit i 1), (Z.testbit d 1); done|]. rewrite !andb_false_r. cbn. by rewrite andb_true_r.
Qed.

(** The part of the vector before [mret]. *)
Lemma timervec_spec h m : let s := h mscratch in let cmp := load64 m (s + 24) in
  (forall r, 0 <= h r < 2 ^ 64) -> cmp + 8 <= s \/ s + 40 <= cmp ->
  exists hx m', timervec h m = (mret hx, m')
    /\ (forall r, r <> mip -> hx r = h r) /\ (forall n, 0 <= n < 64 -> Z.testbit (hx mip) n = Z.testbit (h mip) n || (n =? 1) && Z.testbit (h mideleg) 1)
    /\ 0 <= hx mip < 2 ^ 64 /\ load64 m' cmp = u64 (load64 m cmp + load64 m (s + 32))
    /\ (forall b, ~ s <= b < s + 24 -> ~ cmp <= b < cmp + 8 -> rd m' b = rd m b).
Proof.
  intros s cmp Hr Hd. unfold timervec, swap_a0. cbv zeta. regs. fold s. set (m1 := store64 m s (h a1)). set (m2 := store64 m1 (s + 8) (h a2)). set (m3 := store64 m2 (s + 16) (h a3)).
  assert (Hoff : same_off m3 m s 24).
  { intros b Hb. unfold m3, m2, m1. rewrite !store64_off by lia. done. }
  assert (E1 : load64 m3 (s + 24) = cmp) by (apply (load64_same_off _ _ _ _ _ Hoff); lia). assert (E2 : load64 m3 (s + 32) = load64 m (s + 32)) by (apply (load64_same_off _ _ _ _ _ Hoff); lia).
  assert (E3 : load64 m3 cmp = load64 m cmp) by (apply (load64_same_off _ _ _ _ _ Hoff); lia).
  rewrite E1, E2, E3. set (v := u64 (load64 m cmp + load64 m (s + 32))). set (m4 := store64 m3 cmp v). unfold w_sip, w. regs.
  assert (L1 : load64 m4 s = h a1) by (unfold m4, m3, m2, m1; rewrite !load64_store64_ne by lia; apply load64_store64, Hr).
  assert (L2 : load64 m4 (s + 8) = h a2) by (unfold m4, m3, m2; rewrite !load64_store64_ne by lia; apply load64_store64, Hr).
  assert (L3 : load64 m4 (s + 16) = h a3) by (unfold m4, m3; rewrite load64_store64_ne by lia; apply load64_store64, Hr).
  rewrite L1, L2, L3. eexists _, m4. split; [reflexivity|]. split; [|split; [|split; [|split]]].
  - intros r Hne. destruct r; try done; regs; done.
  - intros n Hn. regs. apply sip_bit; lia.
  - regs. apply u64_range.
  - unfold m4. rewrite load64_store64_eq. apply u64_small, u64_range.
  - intros b Hb1 Hb2. unfold m4. rewrite store64_off by lia. by apply Hoff.
Qed.

(** ** A timer interrupt *)

Lemma mret_mode h x : 0 <= x < 4 -> Z.testbit (h mstatus) 11 = Z.testbit x 0 -> Z.testbit (h mstatus) 12 = Z.testbit x 1 -> mret h mode = x.
Proof.
  intros Hx H0 H1. unfold mret. cbv zeta. regs. apply Z.bits_inj'. intros n Hn. rewrite Z.land_spec, Z.shiftr_spec by done.
  destruct (Z.eq_dec n 0) as [->|N0]; [change (0 + 11) with 11; by rewrite H0, andb_true_r|]. destruct (Z.eq_dec n 1) as [->|N1]; [change (1 + 11) with 12; by rewrite H1, andb_true_r|].
  assert (Hh : forall y, 0 <= y < 4 -> Z.testbit y n = false).
  { intros y Hy. destruct (Z.eq_dec y 0) as [->|]; [apply Z.bits_0|]. apply Z.bits_above_log2; [lia|]. assert (Z.log2 y <= Z.log2 3) by (apply Z.log2_le_mono; lia). change (Z.log2 3) with 1 in *. lia. }
  rewrite (Hh 3), (Hh x) by lia. apply andb_false_r.
Qed.

Lemma mret_other h r : r <> mstatus -> r <> pc -> r <> mode -> mret h r = h r.
Proof. intros. unfold mret, w. cbv zeta. by rewrite !fn_lookup_insert_ne by done. Qed.
Lemma mtrap_other h r : r <> mstatus -> r <> pc -> r <> mode -> r <> mepc -> mtrap h r = h r.
Proof. intros. unfold mtrap, w. cbv zeta. by rewrite !fn_lookup_insert_ne by done. Qed.

Definition regs_ok (h : regfile) : Prop := (forall r, 0 <= h r < 2 ^ 64) /\ 0 <= h mode < 4.

Lemma insert_ok (h : regfile) k v : (forall r, 0 <= h r < 2 ^ 64) -> 0 <= v < 2 ^ 64 -> forall r, 0 <= <[k := v]> h r < 2 ^ 64.
Proof. intros Hh Hv r. destruct (decide (k = r)) as [->|]; [by rewrite fn_lookup_insert|by rewrite fn_lookup_insert_ne]. Qed.

Lemma mret_ok h : (forall r, 0 <= h r < 2 ^ 64) -> forall r, 0 <= mret h r < 2 ^ 64.
Proof.
  intros H. unfold mret, w. cbv zeta. apply insert_ok; [apply insert_ok; [apply insert_ok; [done|apply u64_range]|]|apply H].
  change 3 with (Z.ones 2). rewrite Z.land_ones by lia. dlia.
Qed.

Lemma mtrap_ok h : regs_ok h -> regs_ok (mtrap h).
Proof.
  intros [H Hm]. split; [|unfold mtrap; cbv zeta; regs; unfold MODE_M; lia]. unfold mtrap, w. cbv zeta.
  apply insert_ok; [apply insert_ok; [apply insert_ok; [apply insert_ok; [done|apply u64_range]|apply H]|unfold MODE_M; lia]|apply H].
Qed.

(** A trap and its return give back the interrupted code, for a vector that
    keeps the registers. *)
Lemma trap_return h hx : regs_ok h -> (forall r, r <> mip -> hx r = mtrap h r) ->
  (forall r, r <> mstatus -> r <> mepc -> r <> mip -> mret hx r = h r)
  /\ r_sstatus (mret hx) = r_sstatus h /\ Z.testbit (mret hx mstatus) 3 = Z.testbit (h mstatus) 3.
Proof.
  intros [Hr Hm] Hx. assert (Hs : hx mstatus = mtrap h mstatus) by (by apply Hx). split; [|split].
  - intros r N1 N2 N3. destruct (decide (r = mode)) as [->|N4]; [apply mret_mode; [done|..]; rewrite Hs, mtrap_bits by lia; done|].
    destruct (decide (r = pc)) as [->|N5]; [|rewrite mret_other, Hx, mtrap_other; done]. unfold mret. cbv zeta. rewrite fn_lookup_insert, Hx by done. unfold mtrap. cbv zeta. by regs.
  - unfold r_sstatus. apply Z.bits_inj'. intros n Hn. rewrite !Z.land_spec. destruct (Z.testbit sstatus_mask n) eqn:Eb; [|by rewrite !andb_false_r]. f_equal.
    destruct (Z.lt_ge_cases n 64) as [Hlt|Hge]; [|exfalso; revert Eb; rewrite Z.bits_above_log2; [done|done|]; change (Z.log2 sstatus_mask) with 63; lia].
    rewrite mret_bits, Hs, !mtrap_bits by lia. destruct (Z.eqb_spec n 3) as [->|]; [done|]. destruct (Z.eqb_spec n 7) as [->|]; [done|].
    destruct (Z.eqb_spec n 11) as [->|]; [done|]. destruct (Z.eqb_spec n 12) as [->|]; done.
  - rewrite mret_bits, Hs, mtrap_bits by lia. done.
Qed.

Section Timer.
Context (mideleg_bits main timervec_addr timer_scratch : Z).
(** Supervisor interrupts can be delegated; the scratch areas are in RAM. *)
Context (Hdeleg : Z.testbit mideleg_bits 1 = true).
Context (Hram : KERNBASE <= timer_scratch /\ timer_scratch + 40 * NCPU <= 2 ^ 64).

Abbreviation scratch := (scratch_of timer_scratch).

(** The timer of hart [id] is set up. *)
Record armed (id : Z) (h : regfile) (m : gmap Z Z) : Prop := MkArmed {
  ar_ok : regs_ok h;
  ar_scratch : h mscratch = scratch id;
  ar_vec : h mtvec = timervec_addr;
  ar_deleg : Z.testbit (h mideleg) 1 = true;
  ar_cmp : load64 m (scratch id + 24) = CLINT_MTIMECMP id;
  ar_interval : load64 m (scratch id + 32) = interval
}.

Definition tick (h : regfile) (m : gmap Z Z) : regfile * gmap Z Z := timervec (mtrap h) m.

(** What a tick leaves to the code it interrupted. *)
Record ticked (id : Z) (h : regfile) (m : gmap Z Z) (h' : regfile) (m' : gmap Z Z) : Prop := MkTicked {
  tk_regs : forall r, r <> mstatus -> r <> mepc -> r <> mip -> h' r = h r;
  tk_sstatus : r_sstatus h' = r_sstatus h;
  tk_mie : Z.testbit (h' mstatus) 3 = Z.testbit (h mstatus) 3;
  tk_ssip : Z.testbit (h' mip) 1 = true;
  tk_cmp : load64 m' (CLINT_MTIMECMP id) = u64 (load64 m (CLINT_MTIMECMP id) + interval);
  tk_mem : forall b, ~ scratch id <= b < scratch id + 24 -> ~ CLINT_MTIMECMP id <= b < CLINT_MTIMECMP id + 8 -> rd m' b = rd m b
}.

Lemma cmp_below id : 0 <= id < NCPU -> 0 <= CLINT_MTIMECMP id /\ CLINT_MTIMECMP id + 8 <= scratch id.
Proof. intros H. unfold CLINT_MTIMECMP, scratch_of, CLINT, NCPU, KERNBASE in *. lia. Qed.

Lemma tick_spec id h m : 0 <= id < NCPU -> armed id h m -> exists h' m', tick h m = (h', m') /\ ticked id h m h' m' /\ armed id h' m'.
Proof.
  intros Hid A. pose proof (mtrap_ok h (ar_ok _ _ _ A)) as [Hr Hm]. pose proof (cmp_below id Hid) as [Hc0 Hc]. assert (Hs : mtrap h mscratch = scratch id) by (rewrite mtrap_other by done; apply (ar_scratch _ _ _ A)).
  destruct (timervec_spec (mtrap h) m) as (hx & m' & E & R1 & R2 & R0 & R3 & R4); [done|rewrite Hs, (ar_cmp _ _ _ A); lia|]. rewrite Hs, (ar_cmp _ _ _ A) in *. rewrite (ar_interval _ _ _ A) in R3.
  destruct (trap_return h hx (ar_ok _ _ _ A) R1) as (T1 & T2 & T3). exists (mret hx), m'. split; [done|]. split.
  - split; [done|done|done| |done|done]. rewrite mret_other, R2 by (done || lia). rewrite (mtrap_other h mideleg), (ar_deleg _ _ _ A) by done. apply orb_true_r.
  - assert (Hok : regs_ok (mret hx)).
    { split; [|rewrite T1 by done; apply (ar_ok _ _ _ A)]. intros r. destruct (decide (r = mstatus)) as [->|]; [unfold mret, w; cbv zeta; regs; apply u64_range|].
      destruct (decide (r = mip)) as [->|]; [by rewrite mret_other by done|]. destruct (decide (r = mepc)) as [->|]; [rewrite mret_other, R1 by done; apply Hr|].
      rewrite T1 by done. apply (ar_ok _ _ _ A). }
    split; [done|rewrite T1 by done; apply (ar_scratch _ _ _ A)|rewrite T1 by done; apply (ar_vec _ _ _ A)|rewrite T1 by done; apply (ar_deleg _ _ _ A)| |].
    + rewrite <- (ar_cmp _ _ _ A). apply load64_same. intros b Hb. apply R4; lia.
    + rewrite <- (ar_interval _ _ _ A). apply load64_same. intros b Hb. apply R4; lia.
Qed.

(** A tick on one hart does not touch the timers of the others. *)
Lemma tick_others id j h m h' m' : 0 <= id < NCPU -> 0 <= j < NCPU -> j <> id -> ticked id h m h' m' ->
  (forall b, scratch j <= b < scratch j + 40 -> rd m' b = rd m b) /\ load64 m' (CLINT_MTIMECMP j) = load64 m (CLINT_MTIMECMP j).
Proof.
  intros Hi Hj Hne T. pose proof (cmp_below id Hi). pose proof (cmp_below j Hj). split; [intros b Hb|apply load64_same; intros b Hb];
    apply (tk_mem _ _ _ _ _ T); unfold CLINT_MTIMECMP, scratch_of, CLINT, NCPU, KERNBASE in *; lia.
Qed.

(** ** Boot *)

(** What [start] leaves to [main]. *)
Record started (id t0 : Z) (h : regfile) (m : gmap Z Z) : Prop := MkStarted {
  sd_armed : armed id h m;
  sd_main : h pc = main /\ h mode = MODE_S;
  sd_tp : cpuid h = id;
  sd_nopaging : h satp = 0;
  sd_deleg : h medeleg = 0xffff /\ h mideleg = Z.land 0xffff mideleg_bits;
  sd_pmp : h pmpaddr0 = 0x3fffffffffffff /\ h pmpcfg0 = 0xf;
  sd_mtie : Z.testbit (h mie) 7 = true;
  sd_cmp : load64 m (CLINT_MTIMECMP id) = u64 (t0 + interval)
}.

Lemma start_spec id h m : 0 <= id < NCPU -> regs_ok h -> h mhartid = id -> 0 <= main < 2 ^ 64 -> 0 <= timervec_addr < 2 ^ 64 -> 0 <= mideleg_bits ->
  exists h' m', start mideleg_bits main timervec_addr timer_scratch h m = (h', m') /\ started id (load64 m CLINT_MTIME) h' m'.
Proof.
  intros Hid [Hr Hm] Eid Hmain Hvec Hb. unfold start, timerinit. cbv zeta.
  unfold w_tp, w_mie, w_mstatus, w_mtvec, w_mscratch, w_pmpcfg0, w_pmpaddr0, w_sie, w_mideleg, w_medeleg, w_satp, w_mepc, r_mhartid, r_mstatus, r_mie, r_sie, w. regs. rewrite Eid.
  assert (Es : s32 id = id) by (apply s32_small; unfold NCPU in Hid; lia). rewrite !Es.
  pose proof (cmp_below id Hid) as [Hc0 Hc]. assert (Hcm : CLINT_MTIMECMP id + 8 <= CLINT_MTIME) by (unfold CLINT_MTIMECMP, CLINT_MTIME, NCPU in *; lia). assert (Hc1 : CLINT_MTIMECMP id < 2 ^ 64) by (unfold CLINT_MTIMECMP, CLINT, NCPU in *; lia).
  match goal with |- context [mret ?x] => set (hh := x) end. match goal with |- context [(mret hh, ?x)] => set (m1 := x) end. exists (mret hh), m1. split; [reflexivity|].
  assert (Hs : Z.testbit (hh mstatus) 11 = true /\ Z.testbit (hh mstatus) 12 = false).
  { unfold hh. regs. rewrite !u64_bit, !Z.lor_spec, !u64_bit, !Z.lor_spec, !Z.land_spec, !u64_bit by lia. split; bits_done. }
  assert (Hmode : mret hh mode = MODE_S) by (apply mret_mode; [unfold MODE_S; lia|apply Hs|apply Hs]).
  assert (Hok : forall r, 0 <= mret hh r < 2 ^ 64).
  { apply mret_ok. unfold hh. repeat (apply insert_ok; [|apply u64_range]). done. }
  assert (Hd : u64 (Z.land 65535 mideleg_bits) = Z.land 65535 mideleg_bits) by (apply u64_small; rewrite Z.land_comm; change 65535 with (Z.ones 16); rewrite Z.land_ones by lia; dlia).
  split; [split|..].
  - split; [done|]. rewrite Hmode. unfold MODE_S. lia.
  - rewrite mret_other by done. unfold hh. regs. apply u64_small. unfold scratch_of, NCPU, KERNBASE in *. lia.
  - rewrite mret_other by done. unfold hh. regs. by apply u64_small.
  - rewrite mret_other by done. unfold hh. regs. rewrite u64_bit, Z.land_spec by lia. by rewrite Hdeleg.
  - unfold m1. rewrite load64_store64_ne, load64_store64 by lia. done.
  - unfold m1. rewrite load64_store64 by (unfold interval; lia). done.
  - split; [|done]. unfold mret. cbv zeta. rewrite fn_lookup_insert. unfold hh. regs. by apply u64_small.
  - unfold cpuid, r_tp. rewrite mret_other by done. unfold hh. regs. rewrite u64_small; [done|]. unfold NCPU in *. lia.
  - rewrite mret_other by done. unfold hh. by regs.
  - rewrite !mret_other by done. unfold hh. regs. by rewrite Hd.
  - rewrite !mret_other by done. unfold hh. by regs.
  - rewrite mret_other by done. unfold hh. regs. rewrite u64_bit, Z.lor_spec by lia. by rewrite orb_true_r.
  - unfold m1. rewrite !load64_store64_ne by lia. rewrite load64_store64_eq. apply u64_small, u64_range.
Qed.

(** ** From boot on *)

(** Runs of hart [id]: it boots, takes timer interrupts, and in between runs
    supervisor and user code, which cannot change the machine-mode registers
    and leaves the timer's memory alone; [n] counts the interrupts and [t0] is
    the time of the boot. *)
Inductive timed (id : Z) : Z -> Z -> regfile -> gmap Z Z -> Prop :=
| td_start h0 m0 h m : regs_ok h0 -> h0 mhartid = id -> start mideleg_bits main timervec_addr timer_scratch h0 m0 = (h, m) ->
    timed id (load64 m0 CLINT_MTIME) 0 h m
| td_code t0 n h m h' m' : timed id t0 n h m -> regs_ok h' -> h' mscratch = h mscratch -> h' mtvec = h mtvec -> h' mideleg = h mideleg ->
    same_on m' m (scratch id) 40 -> same_on m' m (CLINT_MTIMECMP id) 8 -> timed id t0 n h' m'
| td_tick t0 n h m h' m' : timed id t0 n h m -> tick h m = (h', m') -> timed id t0 (n + 1) h' m'.

Lemma timed_inv id t0 n h m : 0 <= id < NCPU -> 0 <= main < 2 ^ 64 -> 0 <= timervec_addr < 2 ^ 64 -> 0 <= mideleg_bits -> timed id t0 n h m ->
  armed id h m /\ load64 m (CLINT_MTIMECMP id) = u64 (t0 + (n + 1) * interval).
Proof.
  intros Hid Hm Hv Hb. induction 1 as [h0 m0 h m Hr He Es|t0 n h m h' m' _ [A E] Hr E1 E2 E3 S1 S2|t0 n h m h' m' _ [A E] Et].
  - destruct (start_spec id h0 m0 Hid Hr He Hm Hv Hb) as (h' & m' & Es' & S). rewrite Es in Es'. injection Es' as <- <-. split; [apply S|apply (sd_cmp _ _ _ _ S)].
  - split; [|by rewrite (load64_same _ _ _ S2)]. destruct A as [A1 A2 A3 A4 A5 A6]. split; [done|congruence..| |]; rewrite <- A5 || rewrite <- A6; apply load64_same; intros b Hb'; apply S1; lia.
  - destruct (tick_spec id h m Hid A) as (h2 & m2 & Et2 & T & A2). rewrite Et in Et2. injection Et2 as <- <-. split; [done|]. rewrite (tk_cmp _ _ _ _ _ T), E.
    unfold u64. rewrite Zplus_mod_idemp_l. f_equal. lia.
Qed.

(** (C31) The timer of a hart, from [start] on and through any number of timer
    interrupts: the compare register is the boot time plus one interval for
    each interrupt taken and one more, so interrupts neither stop nor drift;
    and the next interrupt, taken in any mode and at any point, enters [timervec]
    in machine mode (the vector [start] set) and returns to the
    interrupted code with every register, the mode, [sstatus] and the machine
    interrupt enable as they were, a supervisor software interrupt pending, and
    the timers of the other harts untouched. *)
Theorem timer_correct id t0 n h m : 0 <= id < NCPU -> 0 <= main < 2 ^ 64 -> 0 <= timervec_addr < 2 ^ 64 -> 0 <= mideleg_bits -> timed id t0 n h m ->
  load64 m (CLINT_MTIMECMP id) = u64 (t0 + (n + 1) * interval)
  /\ mtrap h pc = timervec_addr /\ mtrap h mode = MODE_M
  /\ exists h' m', tick h m = (h', m') /\ ticked id h m h' m'
     /\ forall j, 0 <= j < NCPU -> j <> id -> (forall b, scratch j <= b < scratch j + 40 -> rd m' b = rd m b) /\ load64 m' (CLINT_MTIMECMP j) = load64 m (CLINT_MTIMECMP j).
Proof.
  intros Hid Hm Hv Hb Ht. destruct (timed_inv id t0 n h m Hid Hm Hv Hb Ht) as [A E]. split; [done|].
  split; [unfold mtrap; cbv zeta; rewrite fn_lookup_insert; apply (ar_vec _ _ _ A)|]. split; [reflexivity|]. destruct (tick_spec id h m Hid A) as (h' & m' & Et & T & _).
  exists h', m'. split; [done|]. split; [done|]. intros j Hj Hne. by apply (tick_others id j h m h' m').
Qed.

End Timer.

(** Hart 1 boots and takes an interrupt. *)
Definition hart1 : regfile := <[mhartid := 1]> (fun _ => 0).

Lemma hart1_ok : regs_ok hart1.
Proof. split; [apply insert_ok; [done|lia]|]. split; done. Qed.

Lemma timer_correct_witness : exists h m, timed 0x222 KERNBASE (KERNBASE + 64) (KERNBASE + 4096) 1 0 1 h m /\ load64 m (CLINT_MTIMECMP 1) = 2000000.
Proof.
  destruct (start_spec 0x222 KERNBASE (KERNBASE + 64) (KERNBASE + 4096) eq_refl ltac:(unfold KERNBASE, NCPU; lia) 1 hart1 ∅ ltac:(done) hart1_ok eq_refl ltac:(done) ltac:(done) ltac:(done)) as (h & m & E & _).
  assert (T0 : timed 0x222 KERNBASE (KERNBASE + 64) (KERNBASE + 4096) 1 0 0 h m).
  { assert (E0 : load64 ∅ CLINT_MTIME = 0) by (apply load64_zero; done). rewrite <- E0. exact (td_start _ _ _ _ _ _ _ _ _ hart1_ok eq_refl E). }
  destruct (timer_correct 0x222 KERNBASE (KERNBASE + 64) (KERNBASE + 4096) eq_refl ltac:(unfold KERNBASE, NCPU; lia) 1 0 0 h m ltac:(done) ltac:(done) ltac:(done) ltac:(done) T0) as (_ & _ & _ & h' & m' & Et & T & _).
  exists h', m'. pose proof (td_tick _ _ _ _ _ _ _ _ _ _ _ T0 Et) as T1. split; [exact T1|].
  exact (proj1 (timer_correct 0x222 KERNBASE (KERNBASE + 64) (KERNBASE + 4096) eq_refl ltac:(unfold KERNBASE, NCPU; lia) 1 0 1 h' m' ltac:(done) ltac:(done) ltac:(done) ltac:(done) T1)).
Defined.

End HartSpec.
