(* ===== verification/Trap.v ===== *)
(** * kernel/trap.c: traps from user space and from the kernel

    The handlers run on the registers of the hart and the kernel state.
    [plic_claim] is answered by the interrupt controller: its answer [irq] is an
    argument, and the interrupt completed is part of the result of [devintr].
    The disk of the kernel state takes requests one at a time, so
    [virtio_disk_intr] leaves that state alone and [devintr] only reports that
    it ran; the driver itself, its interrupt handler included, is in [Virtio].
    A handler ends by returning to the interrupted code, or in [exit]. *)

From S2P Require Import Prelude Riscv KString Kalloc ProcDefs Vm UserMem Pipe Uart Console Block.
From S2P Require Import Sleeplock Bio Log BlockIO Fs World File Proc Exec TrapHandler Sysfile Syscall Hart.
From stdpp Require Import base list numbers gmap strings functions.
From Stdlib Require Import ZArith Lia.

#[local] Open Scope Z_scope.

(** The registers of the hart that [usertrapret] reads. *)
Record csr : Type := MkCsr {
  c_sstatus : Z;
  c_satp : Z;
  c_hartid : Z
}.

Definition csr_of (h : Hart.reg -> Z) : csr := MkCsr (Hart.r_sstatus h) (Hart.r_satp h) (Hart.r_tp h).

(** What [usertrapret] hands to the trampoline. *)
Record resume : Type := MkResume {
  r_sepc : Z;
  r_sstatus : Z;
  r_satp : Z
}.

(** How [usertrap] goes on after handling the trap. *)
Inductive trap_next : Type :=
| TrapExit                       (** in [exit] *)
| TrapReturn (which_dev : Z).    (** at its last lines, towards [usertrapret] *)

(** The device an external interrupt was for. *)
Inductive served : Type :=
| ServedNone
| ServedUart
| ServedDisk
| ServedOther.

Module Trap.

Section Ops.
Context {T D : Type} `{BIO : BlockIO T} `{UD : UartDev D} `{L : Layout}.
Context (forkret_addr usertrap_addr kernelvec_addr : Z).
(** Bounds on the polling of the UART and on the characters it has received. *)
Context (spin rx : nat).

Abbreviation M := (K (world T D)).
Abbreviation HM := (K ((Hart.reg -> Z) * world T D)).

(** What the other threads do on this CPU, and this thread on whatever CPU it
    is given next, from the [sched] of a [yield] until it returns. *)
Context (away : HM unit).

(** Code that leaves the control registers alone. *)
Definition kern {A : Type} (m : M A) : HM A := fun '(h, w) => '(a, w) ← m w; Ret (a, (h, w)).
Definition reads {A : Type} (f : (Hart.reg -> Z) -> A) : HM A := gets (fun s => f s.1).
Definition writes (f : (Hart.reg -> Z) -> Hart.reg -> Z) : HM unit := modify (fun s => (f s.1, s.2)).

Definition ch_ticks : chan := ChObj "ticks" 0.

Definition set_ticks (v : Z) (w : world T D) : world T D :=
  MkWorld (w_k w) (w_fs w) (w_file w) (w_pipe w) (w_cons w) (w_proc w) (w_cur w) (w_initproc w) (w_nextpid w) v.

Definition clockintr : M unit :=
  t ← gets w_ticks;
  modify (set_ticks (u32 (t + 1)));;
  Proc.wakeup ch_ticks.

Definition uart_irq : M unit := fun w =>
  c ← Console.uartintr spin rx (w_cons w); Ret (tt, set_cons c w).

Definition alarm : M unit := fun w =>
  let '(p, s) := TrapHandler.alarm_handler (proc_at w (w_cur w)) (w_k w) in
  Ret (tt, set_procs (<[w_cur w := p]> (w_proc w)) (set_k s w)).

Definition INTERRUPT : Z := 0x8000000000000000.

(** Returns the C result, the device served, and the IRQ completed. *)
Definition devintr (irq : Z) : HM (Z * served * option Z) :=
  scause ← reads Hart.r_scause;
  if nz (Z.land scause INTERRUPT) && (Z.land scause 0xff =? 9) then
    sv ← (if irq =? UART0_IRQ then
            kern uart_irq;; mret ServedUart
          else if irq =? VIRTIO0_IRQ then mret ServedDisk
          else if nz irq then mret ServedOther
          else mret ServedNone);
    mret (1, sv, if nz irq then Some irq else None)
  else if scause =? INTERRUPT + 1 then
    id ← reads Hart.cpuid;
    when (id =? 0) (kern clockintr);;
    writes (fun h => Hart.w_sip (Z.land (Hart.r_sip h) (u64 (Z.lnot 2))) h);;
    mret (2, ServedNone, None)
  else mret (0, ServedNone, None).

(** [yield], with what happens while the thread is off the CPU. *)
Definition yield : HM unit := kern Proc.yield;; away.

(** The body of [usertrap] up to its last two tests. *)
Definition usertrap_handle (irq : Z) : HM (option Z) :=
  p ← kern myproc;
  sepc ← reads Hart.r_sepc;
  kern (Proc.tf_set p TF_epc sepc);;
  scause ← reads (fun h => s32 (Hart.r_scause h));
  if scause =? 8 then
    if nz (p_killed p) then kern (Proc.exit (-1));; mret None else
    kern (Proc.tf_set p TF_epc (u64 (sepc + 4)));;
    writes Hart.intr_on;;
    kern (Syscall.syscall forkret_addr);;
    mret (Some 0)
  else
  '(which_dev, _, _) ← devintr irq;
  if nz which_dev then mret (Some which_dev)
  else if (scause =? 13) || (scause =? 15) then
    stval ← reads Hart.r_stval;
    op ← kern (in_k (TrapHandler.pagefault_handler stval p));
    when ((op =? -1) || (op =? -2) || (op =? -3) || (op =? -4)) (kern (upd_cur (set_killed 1)));;
    mret (Some 0)
  else
    kern (upd_cur (set_killed 1));;
    mret (Some 0).

(** [usertrap] up to [usertrapret]; a timer interrupt also yields the CPU.  A
    process that called [exit] in a system call is a zombie and does not come
    back here. *)
Definition usertrap (irq : Z) : HM trap_next :=
  sstatus ← reads Hart.r_sstatus;
  if nz (Z.land sstatus SSTATUS_SPP) then panic "usertrap: not from user mode" else
  writes (Hart.w_stvec kernelvec_addr);;
  r ← usertrap_handle irq;
  match r with
  | None => mret TrapExit
  | Some which_dev =>
      p ← kern myproc;
      if bool_decide (p_state p = ZOMBIE) then mret TrapExit
      else if nz (p_killed p) then kern (Proc.exit (-1));; mret TrapExit else
      when (which_dev =? 2) (kern alarm;; yield);;
      mret (TrapReturn which_dev)
  end.

Definition usertrapret (c : csr) : M resume :=
  p ← myproc;
  Proc.tf_set p TF_kernel_satp (c_satp c);;
  Proc.tf_set p TF_kernel_sp (u64 (p_kstack p + PGSIZE));;
  Proc.tf_set p TF_kernel_trap usertrap_addr;;
  Proc.tf_set p TF_kernel_hartid (c_hartid c);;
  epc ← gets (fun w => tf_load (k_mem (w_k w)) p TF_epc);
  let x := Z.land (c_sstatus c) (u64 (Z.lnot SSTATUS_SPP)) in
  let x := Z.lor x SSTATUS_SPIE in
  mret (MkResume epc x (MAKE_SATP (p_pagetable p))).

(** [idle] says whether [myproc()] is null. *)
Definition kerneltrap (irq : Z) (idle : bool) : HM unit :=
  sepc ← reads Hart.r_sepc;
  sstatus ← reads Hart.r_sstatus;
  if Z.land sstatus SSTATUS_SPP =? 0 then panic "kerneltrap: not from supervisor mode" else
  on ← reads Hart.intr_get;
  if on : bool then panic "kerneltrap: interrupts enabled" else
  '(which_dev, _, _) ← devintr irq;
  if which_dev =? 0 then panic "kerneltrap" else
  p ← kern myproc;
  when ((which_dev =? 2) && negb idle && bool_decide (p_state p = RUNNING)) yield;;
  writes (Hart.w_sepc sepc);;
  writes (Hart.w_sstatus sstatus).

End Ops.

End Trap.
