(* ===== verification/Boot.v ===== *)
(** * kernel/main.c: the order of the boot

    Every hart runs [main].  Hart 0 initialises the kernel and then sets
    [started]; the others spin on [started] before they turn on paging.  The
    harts interleave in any way; the trace records who called what. *)

From S2P Require Import Prelude Riscv.
From stdpp Require Import base list numbers strings functions relations.
From Stdlib Require Import ZArith Lia.

#[local] Open Scope Z_scope.

Module Boot.

Inductive call : Type :=
| consoleinit | printfinit | printf | kinit | kvminit | kvminithart | procinit | trapinit | trapinithart | plicinit | plicinithart
| binit | iinit | fileinit | virtio_disk_init | userinit
| set_started   (** __sync_synchronize(); started = 1; *)
| wait_started  (** while (started == 0); __sync_synchronize(); *)
| scheduler.

#[global] Instance call_eq_dec : EqDecision call.
Proof. solve_decision. Defined.

Definition main (cpuid : nat) : list call :=
  match cpuid with
  | O => [consoleinit; printfinit; printf; printf; printf; kinit; kvminit; kvminithart; procinit; trapinit; trapinithart;
          plicinit; plicinithart; binit; iinit; fileinit; virtio_disk_init; userinit; set_started]
  | S _ => [wait_started; printf; kvminithart; trapinithart; plicinithart]
  end ++ [scheduler].

(** What each hart has still to do, [started], and what was done, in order. *)
Record machine : Type := MkMachine {
  todo : nat -> list call;
  started : bool;
  trace : list (nat * call)
}.

Definition boot : machine := MkMachine main false [].

(** Hart [i] makes its next call; the spin on [started] ends when it is set. *)
Inductive mstep (s : machine) : machine -> Prop :=
| ms_call i c l : todo s i = c :: l -> (c = wait_started -> started s = true) ->
    mstep s (MkMachine (<[i := l]> (todo s)) (started s || bool_decide (c = set_started)) (trace s ++ [(i, c)])).

(** The calls of hart [i] in a trace. *)
Definition calls_of (i : nat) (t : list (nat * call)) : list call := snd <$> filter (fun p => fst p = i) t.

Record minv (s : machine) : Prop := MkMinv {
  mn_prog : forall i, calls_of i (trace s) ++ todo s i = main i;
  mn_started : started s = true <-> (O, set_started) ∈ trace s;
  mn_order : forall t1 t2 i c, trace s = t1 ++ (i, c) :: t2 -> i <> O -> (O, set_started) ∈ t1
}.

Lemma calls_snoc i j c t : calls_of i (t ++ [(j, c)]) = calls_of i t ++ (if decide (j = i) then [c] else []).
Proof.
  unfold calls_of. rewrite filter_app, fmap_app. f_equal. rewrite filter_cons. cbn [fst]. case_decide; by rewrite filter_nil.
Qed.

(** A hart that is not hart 0 begins with the wait. *)
Lemma first_call i l c l' : i <> O -> l ++ c :: l' = main i -> c = wait_started \/ wait_started ∈ l.
Proof.
  intros Hi E. destruct i as [|i]; [done|]. cbn [main app] in E. destruct l as [|x l]; [left; cbn in E; congruence|]. right. cbn in E. injection E as -> _. apply list_elem_of_here.
Qed.

Lemma calls_in i c t : c ∈ calls_of i t -> (i, c) ∈ t.
Proof.
  unfold calls_of. rewrite list_elem_of_fmap. intros ([j x] & -> & H). apply list_elem_of_filter in H as [<- H]. done.
Qed.

Lemma mstep_inv s s' : minv s -> mstep s s' -> minv s'.
Proof.
  intros [I1 I2 I3] [i c l Hc Hw]. split; cbn [todo started trace].
  - intros j. rewrite calls_snoc. case_decide as E; [subst j; rewrite fn_lookup_insert; rewrite <- app_assoc; cbn [app]; rewrite <- Hc; apply I1|].
    rewrite fn_lookup_insert_ne, app_nil_r by done. apply I1.
  - rewrite orb_true_iff, bool_decide_eq_true, elem_of_app, list_elem_of_singleton, I2. split; [intros [?| ->]; [by left|]|intros [?|[= <- <-]]; auto].
    right. f_equal. pose proof (I1 i) as E. rewrite Hc in E. destruct i as [|i]; [done|]. exfalso. assert (Hin : set_started ∈ main (S i)) by (rewrite <- E, elem_of_app, elem_of_cons; auto).
    revert Hin. cbn [main app]. rewrite !elem_of_cons, elem_of_nil. intuition congruence.
  - intros t1 t2 j d E Hj. destruct (decide (t2 = [])) as [->|Hne].
    + apply app_inj_tail in E as [<- [= <- <-]]. pose proof (I1 i) as Ep. rewrite Hc in Ep. destruct (first_call i _ _ _ Hj Ep) as [->|Hin]; [by apply I2, Hw|].
      apply calls_in in Hin. apply list_elem_of_split in Hin as (u1 & u2 & Eu). rewrite Eu. apply elem_of_app. left. by apply (I3 u1 u2 i wait_started).
    + destruct (exists_last Hne) as (t3 & x & ->). rewrite app_comm_cons, app_assoc in E. apply app_inj_tail in E as [E _]. by apply (I3 t1 t3 j d).
Qed.

Lemma boot_minv : minv boot.
Proof. split; [done|split; [done|by intros ?%not_elem_of_nil]|]. intros t1 t2 i c E. by destruct t1. Qed.

Lemma boot_reach s : rtc mstep boot s -> minv s.
Proof.
  intros H. assert (I : minv boot) by apply boot_minv. revert I. generalize dependent boot. induction 1 as [|s1 s2 s3 Hs _ IH]; [done|]. intros I. by apply IH, (mstep_inv s1).
Qed.

(** The initialisation of the kernel. *)
Definition init_calls : list call := removelast (removelast (main 0)).

(** Under every interleaving, a hart other than 0 does nothing before hart 0
    has made all the calls of the initialisation, in the order of the source. *)
Lemma calls_app i t1 t2 : calls_of i (t1 ++ t2) = calls_of i t1 ++ calls_of i t2.
Proof. unfold calls_of. by rewrite filter_app, fmap_app. Qed.

(** [set_started] is called once, after the initialisation. *)
Lemma init_before l1 l2 : l1 ++ set_started :: l2 = main 0 -> l1 = init_calls.
Proof.
  change (main 0) with (init_calls ++ set_started :: [scheduler]). intros E. apply app_eq_inv in E as [(k & E1 & E2)|(k & E1 & E2)].
  - destruct k as [|x k]; [by rewrite app_nil_r in E1|]. exfalso. injection E2 as _ E2. destruct k as [|y k]; [discriminate|]. injection E2 as _ E2. by destruct k.
  - destruct k as [|x k]; [by rewrite app_nil_r in E1|]. exfalso. injection E2 as <- E2. assert (Hin : set_started ∈ init_calls) by (rewrite E1, elem_of_app, elem_of_cons; auto).
    revert Hin. cbn. rewrite !elem_of_cons, elem_of_nil. intuition congruence.
Qed.

(** Under every interleaving of the harts, a hart other than 0 makes no
    call before hart 0 has made all the calls of the initialisation, in the
    order of the source. *)
Theorem boot_order s t1 t2 i c : rtc mstep boot s -> trace s = t1 ++ (i, c) :: t2 -> i <> O -> exists rest, calls_of 0 t1 = init_calls ++ rest.
Proof.
  intros Hr E Hi. pose proof (boot_reach s Hr) as [I1 I2 I3]. pose proof (I3 t1 t2 i c E Hi) as Hin. apply list_elem_of_split in Hin as (u1 & u2 & ->).
  pose proof (I1 O) as Ep. rewrite E, <- app_assoc in Ep. cbn [app] in Ep. rewrite calls_app, <- app_assoc in Ep.
  change (calls_of 0 ((0%nat, set_started) :: u2 ++ (i, c) :: t2)) with (set_started :: calls_of 0 (u2 ++ (i, c) :: t2)) in Ep. cbn [app] in Ep.
  apply init_before in Ep. rewrite calls_app, Ep. by eexists.
Qed.

(** Hart 0 boots and hart 1 gets past its wait. *)
Fixpoint run0 (k : nat) (s : machine) : machine :=
  match k with
  | O => s
  | S k =>
      match todo s 0%nat with
      | [] => s
      | c :: l => run0 k (MkMachine (<[O := l]> (todo s)) (started s || bool_decide (c = set_started)) (trace s ++ [(O, c)]))
      end
  end.

Lemma run0_steps k s : Forall (fun c => c <> wait_started) (todo s 0%nat) -> rtc mstep s (run0 k s).
Proof.
  revert s. induction k as [|k IH]; intros s H; cbn [run0]; [done|]. destruct (todo s 0%nat) as [|c l] eqn:E; [done|]. apply Forall_cons in H as [Hc H].
  eapply rtc_l; [exact (ms_call s O c l E ltac:(done))|]. apply IH. cbn [todo]. by rewrite fn_lookup_insert.
Qed.

Definition demo_boot : machine :=
  let s := run0 19 boot in MkMachine (<[1%nat := tail (main 1)]> (todo s)) (started s || bool_decide (wait_started = set_started)) (trace s ++ [(1%nat, wait_started)]).

Lemma demo_boot_reached : rtc mstep boot demo_boot.
Proof.
  eapply rtc_r; [apply (run0_steps 19); repeat constructor; discriminate|].
  apply (ms_call (run0 19 boot) 1%nat wait_started (tail (main 1))); [vm_compute; reflexivity|]. intros _. vm_compute. reflexivity.
Qed.

Lemma boot_order_witness : exists rest, calls_of 0 (trace (run0 19 boot)) = init_calls ++ rest.
Proof. exact (boot_order demo_boot (trace (run0 19 boot)) [] 1%nat wait_started demo_boot_reached eq_refl ltac:(discriminate)). Defined.

End Boot.
