(* ===== verification/Asm.v ===== *)
(** * The assembly of the kernel (kernel/trampoline.S, kernel/swtch.S,
      kernel/kernelvec.S, kernel/entry.S)

    The routines are lists of instructions, run on the registers of a [Hart] and
    memory.  Loads and stores go through the Sv39 translation of the privileged
    architecture: the tables [satp] names, with the permissions of the page.  An
    access that faults or is not aligned gives [None]; the accessed and dirty
    bits of a page are not kept.  Instructions themselves
    are not fetched from memory: a routine runs from its first instruction to
    the jump at its end, which sets [pc].  [kernelvec] takes the C function
    kernelvec.S calls as an argument; [AsmSwitch] gives it [Trap.kerneltrap]. *)

From S2P Require Import Prelude Riscv Hart.
From stdpp Require Import base list numbers gmap strings functions.
From Stdlib Require Import ZArith Lia.

#[local] Open Scope Z_scope.

Import Hart.

Module Asm.

(** ** Address translation *)

Definition RWX : Z := Z.lor (Z.lor PTE_R PTE_W) PTE_X.

(** The leaf entry for [va] below table [tbl], and the address it gives.  An
    entry with a permission is a leaf, of a page or of an aligned superpage. *)
Fixpoint sv39 (level : nat) (m : gmap Z Z) (tbl va : Z) : option (Z * Z) :=
  let e := load64 m (tbl + 8 * PX (Z.of_nat level) va) in
  let span := 2 ^ PXSHIFT (Z.of_nat level) in
  if Z.land e PTE_V =? 0 then None
  else if nz (Z.land e RWX) then
    if PTE2PA e mod span =? 0 then Some (e, PTE2PA e + va mod span) else None
  else match level with
       | O => None
       | S level => sv39 level m (PTE2PA e) va
       end.

Inductive access : Type := Load | Store.

Definition perm (k : access) : Z := match k with Load => PTE_R | Store => PTE_W end.

(** [sstatus.SUM]: supervisor code may use user pages. *)
Definition SSTATUS_SUM : Z := Z.shiftl 1 18.

(** Machine mode and a zero [satp] use physical addresses. *)
Definition xlate (k : access) (h : regfile) (m : gmap Z Z) (va : Z) : option Z :=
  if (h mode =? MODE_M) || (Z.shiftr (h satp) 60 =? 0) then Some va
  else if MAXVA <=? va then None else
  match sv39 2 m (Z.shiftl (h satp mod 2 ^ 44) 12) va with
  | None => None
  | Some (e, pa) =>
      let user := nz (Z.land e PTE_U) in
      let allowed := if h mode =? MODE_U then user else negb user || nz (Z.land (h mstatus) SSTATUS_SUM) in
      if allowed && nz (Z.land e (perm k)) then Some pa else None
  end.

(** ** Instructions *)

Inductive instr : Type :=
| Sd (rs : reg) (off : Z) (base : reg)
| Ld (rd : reg) (off : Z) (base : reg)
| Li (rd : reg) (v : Z)
| Addi (rd rs : reg) (v : Z)
| Add (rd rs1 rs2 : reg)
| Mul (rd rs1 rs2 : reg)
| Csrr (rd c : reg)
| Csrw (c rs : reg)
| Csrrw (rd c rs : reg)
| SfenceVma
| Jr (rs : reg)
| Sret.

(** [sret]: to the mode and the address the trap saved; the bits of [sstatus]
    are bits of [mstatus]. *)
Definition sret (h : regfile) : regfile :=
  let s := h mstatus in
  let spie := Z.land (Z.shiftr s 5) 1 in
  let s' := Z.lor (Z.lor (Z.ldiff s (Z.lor SSTATUS_SPP SSTATUS_SIE)) SSTATUS_SPIE) (Z.shiftl spie 1) in
  <[pc := h sepc]> (<[mode := Z.land (Z.shiftr s 8) 1]> (w mstatus s' h)).

(** The hart takes a trap to supervisor mode. *)
Definition strap (cause tval : Z) (h : regfile) : regfile :=
  let s := h mstatus in
  let sie := Z.land (Z.shiftr s 1) 1 in
  let s' := Z.lor (Z.lor (Z.ldiff s (Z.lor (Z.lor SSTATUS_SPP SSTATUS_SPIE) SSTATUS_SIE)) (Z.shiftl sie 5)) (Z.shiftl (h mode) 8) in
  <[pc := h stvec]> (<[mode := MODE_S]> (<[stval := tval]> (<[scause := cause]> (<[sepc := h pc]> (w mstatus s' h))))).

Abbreviation state := (regfile * gmap Z Z)%type.

(** The physical address of an 8-byte access to [off(base)]. *)
Definition word_at (k : access) (h : regfile) (m : gmap Z Z) (off : Z) (base : reg) : option Z :=
  let va := u64 (h base + off) in
  if va mod 8 =? 0 then xlate k h m va else None.

Definition exec1 (i : instr) (s : state) : option state :=
  let '(h, m) := s in
  match i with
  | Sd rs off base => pa ← word_at Store h m off base; Some (h, store64 m pa (h rs))
  | Ld rd off base => pa ← word_at Load h m off base; Some (<[rd := load64 m pa]> h, m)
  | Li rd v => Some (w rd v h, m)
  | Addi rd rs v => Some (w rd (h rs + v) h, m)
  | Add rd rs1 rs2 => Some (w rd (h rs1 + h rs2) h, m)
  | Mul rd rs1 rs2 => Some (w rd (h rs1 * h rs2) h, m)
  | Csrr rd c => Some (<[rd := h c]> h, m)
  | Csrw c rs => Some (<[c := h rs]> h, m)
  | Csrrw rd c rs => Some (<[rd := h c]> (<[c := h rs]> h), m)
  | SfenceVma => Some (h, m)
  | Jr rs => Some (<[pc := h rs]> h, m)
  | Sret => Some (sret h, m)
  end.

Fixpoint exec (p : list instr) (s : state) : option state :=
  match p with
  | [] => Some s
  | i :: p => s ← exec1 i s; exec p s
  end.

(** ** kernel/trampoline.S *)

Definition uservec : list instr :=
  [Csrrw a0 sscratch a0; Sd ra 40 a0; Sd sp 48 a0; Sd gp 56 a0; Sd tp 64 a0; Sd t0 72 a0;
   Sd t1 80 a0; Sd t2 88 a0; Sd s0 96 a0; Sd s1 104 a0; Sd a1 120 a0; Sd a2 128 a0; Sd a3 136 a0;
   Sd a4 144 a0; Sd a5 152 a0; Sd a6 160 a0; Sd a7 168 a0; Sd s2 176 a0; Sd s3 184 a0;
   Sd s4 192 a0; Sd s5 200 a0; Sd s6 208 a0; Sd s7 216 a0; Sd s8 224 a0; Sd s9 232 a0;
   Sd s10 240 a0; Sd s11 248 a0; Sd t3 256 a0; Sd t4 264 a0; Sd t5 272 a0; Sd t6 280 a0;
   Csrr t0 sscratch; Sd t0 112 a0; Ld sp 8 a0; Ld tp 32 a0; Ld t0 16 a0; Ld t1 0 a0; Csrw satp t1;
   SfenceVma; Jr t0].

Definition userret : list instr :=
  [Csrw satp a1; SfenceVma; Ld t0 112 a0; Csrw sscratch t0; Ld ra 40 a0; Ld sp 48 a0; Ld gp 56 a0;
   Ld tp 64 a0; Ld t0 72 a0; Ld t1 80 a0; Ld t2 88 a0; Ld s0 96 a0; Ld s1 104 a0; Ld a1 120 a0;
   Ld a2 128 a0; Ld a3 136 a0; Ld a4 144 a0; Ld a5 152 a0; Ld a6 160 a0; Ld a7 168 a0;
   Ld s2 176 a0; Ld s3 184 a0; Ld s4 192 a0; Ld s5 200 a0; Ld s6 208 a0; Ld s7 216 a0;
   Ld s8 224 a0; Ld s9 232 a0; Ld s10 240 a0; Ld s11 248 a0; Ld t3 256 a0; Ld t4 264 a0;
   Ld t5 272 a0; Ld t6 280 a0; Csrrw a0 sscratch a0; Sret].

(** ** kernel/swtch.S *)

Definition swtch : list instr :=
  [Sd ra 0 a0; Sd sp 8 a0; Sd s0 16 a0; Sd s1 24 a0; Sd s2 32 a0; Sd s3 40 a0; Sd s4 48 a0;
   Sd s5 56 a0; Sd s6 64 a0; Sd s7 72 a0; Sd s8 80 a0; Sd s9 88 a0; Sd s10 96 a0; Sd s11 104 a0;
   Ld ra 0 a1; Ld sp 8 a1; Ld s0 16 a1; Ld s1 24 a1; Ld s2 32 a1; Ld s3 40 a1; Ld s4 48 a1;
   Ld s5 56 a1; Ld s6 64 a1; Ld s7 72 a1; Ld s8 80 a1; Ld s9 88 a1; Ld s10 96 a1; Ld s11 104 a1;
   Jr ra].

(** ** kernel/kernelvec.S *)

Definition kernelvec_save : list instr :=
  [Addi sp sp (-256); Sd ra 0 sp; Sd sp 8 sp; Sd gp 16 sp; Sd tp 24 sp; Sd t0 32 sp; Sd t1 40 sp;
   Sd t2 48 sp; Sd s0 56 sp; Sd s1 64 sp; Sd a0 72 sp; Sd a1 80 sp; Sd a2 88 sp; Sd a3 96 sp;
   Sd a4 104 sp; Sd a5 112 sp; Sd a6 120 sp; Sd a7 128 sp; Sd s2 136 sp; Sd s3 144 sp;
   Sd s4 152 sp; Sd s5 160 sp; Sd s6 168 sp; Sd s7 176 sp; Sd s8 184 sp; Sd s9 192 sp;
   Sd s10 200 sp; Sd s11 208 sp; Sd t3 216 sp; Sd t4 224 sp; Sd t5 232 sp; Sd t6 240 sp].

Definition kernelvec_restore : list instr :=
  [Ld ra 0 sp; Ld sp 8 sp; Ld gp 16 sp; Ld t0 32 sp; Ld t1 40 sp; Ld t2 48 sp; Ld s0 56 sp;
   Ld s1 64 sp; Ld a0 72 sp; Ld a1 80 sp; Ld a2 88 sp; Ld a3 96 sp; Ld a4 104 sp; Ld a5 112 sp;
   Ld a6 120 sp; Ld a7 128 sp; Ld s2 136 sp; Ld s3 144 sp; Ld s4 152 sp; Ld s5 160 sp;
   Ld s6 168 sp; Ld s7 176 sp; Ld s8 184 sp; Ld s9 192 sp; Ld s10 200 sp; Ld s11 208 sp;
   Ld t3 216 sp; Ld t4 224 sp; Ld t5 232 sp; Ld t6 240 sp; Addi sp sp 256; Sret].

(** [call kerneltrap] between them. *)
Definition kernelvec (kerneltrap : state -> option state) (s : state) : option state :=
  s ← exec kernelvec_save s;
  s ← kerneltrap s;
  exec kernelvec_restore s.

(** ** kernel/entry.S *)

(** Up to [call start]; [stack0] is the address of the array of stacks. *)
Definition entry (stack0 : Z) : list instr :=
  [Li sp stack0; Li a0 (1024 * 4); Csrr a1 mhartid; Addi a1 a1 1; Mul a0 a0 a1; Add sp sp a0].

End Asm.
