(* ===== verification/AsmSpec.v ===== *)
(** * Saving and restoring registers

    The traps and switches of the kernel keep the register contents they take
    away: what a run of [sd] stores in a frame is what a run of [ld] brings
    back, and nothing else in memory changes.  With that, a user program sees
    its registers again after a trap, the kernel code a device interrupts goes
    on as if nothing had happened, and [swtch] resumes a thread where it called
    [swtch]. *)

From S2P Require Import Prelude Riscv Hart HartSpec Asm.
From Stdlib Require Import ZArith Lia.
From stdpp Require Import base numbers gmap strings functions list sets.

#[local] Open Scope Z_scope.

Import Hart Asm.

Module AsmSpec.

(** ** Frames *)

(** The [n] bytes at virtual address [v] are the physical bytes at [pa], for
    loads and stores, whatever is stored in them. *)
Record frame (h : regfile) (m : gmap Z Z) (v pa n : Z) : Prop := MkFrame {
  fr_align : v mod 8 = 0;
  fr_lo : 0 <= v;
  fr_hi : v + n <= 2 ^ 64;
  fr_xlate : forall k m' o, same_off m' m pa n -> 0 <= o < n -> xlate k h m' (v + o) = Some (pa + o)
}.

Lemma xlate_regs k h h' m va : h' mode = h mode -> h' satp = h satp -> h' mstatus = h mstatus ->
  xlate k h' m va = xlate k h m va.
Proof. intros E1 E2 E3. unfold xlate. by rewrite E1, E2, E3. Qed.

Lemma frame_regs h h' m v pa n : h' mode = h mode -> h' satp = h satp -> h' mstatus = h mstatus ->
  frame h m v pa n -> frame h' m v pa n.
Proof. intros E1 E2 E3 [A B C F]. split; try done. intros k m' o Hm Ho. rewrite (xlate_regs k h h') by done. by apply F. Qed.

Lemma same_off_sym m1 m2 a n : same_off m1 m2 a n -> same_off m2 m1 a n.
Proof. intros H b Hb. symmetry. by apply H. Qed.

Lemma frame_mem h m m' v pa n : same_off m' m pa n -> frame h m v pa n -> frame h m' v pa n.
Proof. intros Hs [A B C F]. split; try done. intros k m2 o Hm Ho. apply F; [|done]. by eapply same_off_trans. Qed.

Lemma frame_word h m v pa n k o base : frame h m v pa n -> h base = v -> o mod 8 = 0 -> 0 <= o -> o + 8 <= n ->
  word_at k h m o base = Some (pa + o).
Proof.
  intros F E Ho H1 H2. destruct F as [A B C F]. unfold word_at. rewrite E, u64_small by lia.
  rewrite (proj2 (Z.eqb_eq ((v + o) mod 8) 0)) by dlia. apply F; [done|lia].
Qed.

(** ** Runs of stores and of loads *)

Abbreviation slots := (list (reg * Z)).

Definition saves (base : reg) (l : slots) : list instr := (fun '(r, o) => Sd r o base) <$> l.
Definition loads (base : reg) (l : slots) : list instr := (fun '(r, o) => Ld r o base) <$> l.

Lemma exec_app p q s : exec (p ++ q) s = s ← exec p s; exec q s.
Proof. revert s. induction p as [|i p IH]; intros s; [done|]. simpl. destruct (exec1 i s); [apply IH|done]. Qed.

(** Slots of 8 aligned bytes in a frame of [n], no two the same. *)
Definition in_frame (n : Z) (l : slots) : Prop := Forall (fun '(_, o) => o mod 8 = 0 /\ 0 <= o /\ o + 8 <= n) l.

Definition put (h : regfile) (pa : Z) (l : slots) (m : gmap Z Z) : gmap Z Z :=
  foldl (fun m '(r, o) => store64 m (pa + o) (h r)) m l.
Definition get (m : gmap Z Z) (pa : Z) (l : slots) (h : regfile) : regfile :=
  foldl (fun h '(r, o) => <[r := load64 m (pa + o)]> h) h l.

Lemma put_off h pa lo n l m : Forall (fun '(_, o) => lo <= o /\ o + 8 <= lo + n) l -> same_off (put h pa l m) m (pa + lo) n.
Proof.
  revert m. induction l as [|[r o] l IH]; intros m H; [done|]. apply Forall_cons_1 in H as [Ho H]. simpl.
  eapply same_off_trans; [by apply IH|]. eapply same_off_weaken; [apply store64_off|lia|lia].
Qed.

Lemma put_ne h pa n l m o : in_frame n l -> o mod 8 = 0 -> o ∉ l.*2 -> load64 (put h pa l m) (pa + o) = load64 m (pa + o).
Proof.
  revert m. induction l as [|[r o'] l IH]; intros m H Ho Hn; [done|]. apply Forall_cons_1 in H as [Ho' H]. cbn in Hn.
  apply not_elem_of_cons in Hn as [Hne Hn]. simpl. rewrite IH by done. apply load64_store64_ne. dlia.
Qed.

Lemma put_get h pa n l m r o : in_frame n l -> NoDup l.*2 -> (r, o) ∈ l -> load64 (put h pa l m) (pa + o) = u64 (h r).
Proof.
  revert m. induction l as [|[r' o'] l IH]; intros m H Hd Hin; [by apply not_elem_of_nil in Hin|].
  apply Forall_cons_1 in H as [Ho' H]. cbn in Hd. apply NoDup_cons in Hd as [Hn Hd]. simpl.
  apply elem_of_cons in Hin as [[= -> ->]|Hin]; [|by apply IH].
  rewrite (put_ne _ _ n) by tauto. apply load64_store64_eq.
Qed.

Lemma get_ne m pa l h r : r ∉ l.*1 -> get m pa l h r = h r.
Proof.
  revert h. induction l as [|[r' o] l IH]; intros h Hn; [done|]. cbn in Hn. apply not_elem_of_cons in Hn as [Hne Hn].
  simpl. rewrite IH by done. by apply fn_lookup_insert_ne.
Qed.

Lemma get_eq m pa l h r o : NoDup l.*1 -> (r, o) ∈ l -> get m pa l h r = load64 m (pa + o).
Proof.
  revert h. induction l as [|[r' o'] l IH]; intros h Hd Hin; [by apply not_elem_of_nil in Hin|].
  cbn in Hd. apply NoDup_cons in Hd as [Hn Hd]. simpl. apply elem_of_cons in Hin as [[= -> ->]|Hin]; [|by apply IH].
  fold (get m pa l (<[r' := load64 m (pa + o')]> h)). rewrite get_ne by done. apply fn_lookup_insert.
Qed.

Lemma exec_saves base l h m v pa n : frame h m v pa n -> h base = v -> in_frame n l ->
  exec (saves base l) (h, m) = Some (h, put h pa l m).
Proof.
  intros F E. revert m F. induction l as [|[r o] l IH]; intros m F H; [done|]. apply Forall_cons_1 in H as [Ho H].
  cbn [saves fmap list_fmap exec]. unfold exec1. rewrite (frame_word h m v pa n) by tauto. cbn [mbind option_bind].
  apply IH; [|done]. eapply frame_mem; [|exact F]. eapply same_off_weaken; [apply store64_off|lia|lia].
Qed.

(** The base register may be among the loaded ones when its slot has its value. *)
Lemma exec_loads base l h m v pa n : frame h m v pa n -> h base = v -> in_frame n l ->
  mode ∉ l.*1 -> satp ∉ l.*1 -> mstatus ∉ l.*1 -> (forall o, (base, o) ∈ l -> load64 m (pa + o) = v) ->
  exec (loads base l) (h, m) = Some (get m pa l h, m).
Proof.
  revert h. induction l as [|[r o] l IH]; intros h F E H N1 N2 N3 Hb; [done|]. apply Forall_cons_1 in H as [Ho H]. cbn in N1, N2, N3.
  apply not_elem_of_cons in N1 as [M1 N1], N2 as [M2 N2], N3 as [M3 N3].
  cbn [loads fmap list_fmap exec]. unfold exec1. rewrite (frame_word h m v pa n) by tauto. cbn [mbind option_bind].
  simpl (get _ _ _ _). apply IH; try done.
  - by eapply frame_regs, F; rewrite fn_lookup_insert_ne.
  - destruct (decide (r = base)) as [->|Hr]; [rewrite fn_lookup_insert; apply Hb; left|by rewrite fn_lookup_insert_ne].
  - intros o' Hin. apply Hb. by right.
Qed.

(** ** A page mapped by a page table *)

Lemma PX_page level va o : 0 <= level -> va mod PGSIZE = 0 -> 0 <= o < PGSIZE -> PX level (va + o) = PX level va.
Proof.
  intros Hl Ha Ho. rewrite !PX_div by done. rewrite <- !Z.div_div by (unfold PGSIZE; lia).
  do 2 f_equal. unfold PGSIZE in *. dlia.
Qed.

(** An entry that points to table [t], and one that maps page [pa] for the
    kernel alone. *)
Definition points (e t : Z) : Prop := nz (Z.land e PTE_V) = true /\ Z.land e RWX = 0 /\ PTE2PA e = t.
Definition kpage (e pa : Z) : Prop :=
  nz (Z.land e PTE_V) = true /\ nz (Z.land e PTE_R) = true /\ nz (Z.land e PTE_W) = true /\ Z.land e PTE_U = 0 /\ PTE2PA e = pa.

(** The table [root] maps the page [va] to the page [pa], which is not one of the
    tables on the way. *)
Record tmap (m : gmap Z Z) (root va pa t1 t0 : Z) : Prop := MkTmap {
  tm_root : 0 <= root < 2 ^ 56;
  tm_va : 0 <= va;
  tm_max : va + PGSIZE <= MAXVA;
  tm_align : va mod PGSIZE = 0 /\ pa mod PGSIZE = 0 /\ root mod PGSIZE = 0 /\ t1 mod PGSIZE = 0 /\ t0 mod PGSIZE = 0;
  tm_ne : pa <> root /\ pa <> t1 /\ pa <> t0;
  tm_2 : points (load64 m (root + 8 * PX 2 va)) t1;
  tm_1 : points (load64 m (t1 + 8 * PX 1 va)) t0;
  tm_0 : kpage (load64 m (t0 + 8 * PX 0 va)) pa
}.

Lemma tmap_same m m' root va pa t1 t0 n : n <= PGSIZE -> same_off m' m pa n -> tmap m root va pa t1 t0 -> tmap m' root va pa t1 t0.
Proof.
  intros Hn Hs [A B C (D1 & D2 & D3 & D4 & D5) (E1 & E2 & E3) F2 F1 F0].
  assert (Hl : forall t l, t mod PGSIZE = 0 -> pa <> t -> load64 m' (t + 8 * PX l va) = load64 m (t + 8 * PX l va)).
  { intros t l Ht Hne. apply (load64_same_off _ _ _ _ _ Hs). pose proof (PX_range l va). unfold PGSIZE in *. dlia. }
  by split; try rewrite Hl.
Qed.

Lemma land_high_low a y k : 0 <= k -> 0 <= y < 2 ^ k -> Z.land (a * 2 ^ k) y = 0.
Proof.
  intros Hk Hy. rewrite <- (Z.mod_small y (2 ^ k)) by done. rewrite <- Z.land_ones, Z.land_comm, <- Z.land_assoc by done.
  rewrite (Z.land_comm (Z.ones k)), Z.land_ones, Z.mod_mul by lia. apply Z.land_0_r.
Qed.

Lemma satp_fields root : 0 <= root < 2 ^ 56 -> root mod PGSIZE = 0 ->
  Z.shiftr (MAKE_SATP root) 60 = 8 /\ Z.shiftl (MAKE_SATP root mod 2 ^ 44) 12 = root /\ 0 <= MAKE_SATP root < 2 ^ 64.
Proof.
  intros Hr Ha. assert (H44 : 0 <= root / 2 ^ 12 < 2 ^ 44) by dlia.
  assert (E : MAKE_SATP root = 8 * 2 ^ 60 + root / 2 ^ 12).
  { unfold MAKE_SATP, SATP_SV39. rewrite Z.shiftr_div_pow2, Z.shiftl_mul_pow2 by lia.
    rewrite <- Z.add_lor_land, land_high_low; lia. }
  rewrite E, Z.shiftr_div_pow2, Z.shiftl_mul_pow2 by lia. unfold PGSIZE in *.
  assert (Hm : (8 * 2 ^ 60 + root / 2 ^ 12) mod 2 ^ 44 = root / 2 ^ 12) by (change (8 * 2 ^ 60) with (2 ^ 19 * 2 ^ 44); rewrite Z.add_comm, Z.mod_add by lia; by apply Z.mod_small).
  split; [dlia|]. split; [rewrite Hm; dlia|lia].
Qed.

Lemma tmap_sv39 m root va pa t1 t0 o : tmap m root va pa t1 t0 -> 0 <= o < PGSIZE ->
  exists e, sv39 2 m root (va + o) = Some (e, pa + o) /\ kpage e pa.
Proof.
  intros [A B C (D1 & D2 & _) _ (V2 & N2 & P2) (V1 & N1 & P1) K] Ho. exists (load64 m (t0 + 8 * PX 0 va)). split; [|done].
  destruct K as (V0 & R0 & _ & _ & P0). apply nz_true in V0, V1, V2, R0.
  unfold sv39. change (Z.of_nat 2) with 2. change (Z.of_nat 1) with 1. change (Z.of_nat 0) with 0. rewrite !PX_page by done.
  rewrite (proj2 (Z.eqb_neq _ _) V2), N2. change (nz 0) with false. cbv iota. rewrite P2.
  rewrite (proj2 (Z.eqb_neq _ _) V1), N1. change (nz 0) with false. cbv iota. rewrite P1.
  rewrite (proj2 (Z.eqb_neq _ _) V0), P0.
  assert (Hnz : nz (Z.land (load64 m (t0 + 8 * PX 0 va)) RWX) = true).
  { apply nz_true. intros Hz. apply R0. change PTE_R with (Z.land RWX PTE_R). by rewrite Z.land_assoc, Hz. }
  rewrite Hnz. change (2 ^ PXSHIFT 0) with PGSIZE. rewrite D2. do 3 f_equal. unfold PGSIZE in *. dlia.
Qed.

(** The trap frame, and any other page only the kernel can use. *)
Lemma tmap_frame h m root va pa t1 t0 : tmap m root va pa t1 t0 -> h mode = MODE_S -> h satp = MAKE_SATP root ->
  frame h m va pa PGSIZE.
Proof.
  intros T Em Es. pose proof MAXVA_u64. destruct (tm_align _ _ _ _ _ _ T) as (D1 & D2 & D3 & _).
  destruct (satp_fields root (tm_root _ _ _ _ _ _ T) D3) as (S1 & S2 & _).
  pose proof (tm_va _ _ _ _ _ _ T). pose proof (tm_max _ _ _ _ _ _ T).
  split; [unfold PGSIZE in *; dlia|done|unfold PGSIZE in *; lia|]. intros k m' o Hs Ho. unfold xlate. rewrite Em, Es, S1, S2.
  change ((MODE_S =? MODE_M) || (8 =? 0)) with false. cbv iota. rewrite (proj2 (Z.leb_gt _ _)) by lia.
  destruct (tmap_sv39 m' root va pa t1 t0 o) as (e & E & V & R & W & U & P); [eapply tmap_same; [|done|done]; lia|done|].
  rewrite E, U. change (MODE_S =? MODE_U) with false. change (negb (nz 0)) with true. cbn [orb andb].
  destruct k; cbn [perm]; [by rewrite R|by rewrite W].
Qed.

(** ** trampoline.S *)

(** Where the trap frame keeps each user register. *)
Definition tf_slots : slots :=
  [(ra, 40); (sp, 48); (gp, 56); (tp, 64); (t0, 72); (t1, 80); (t2, 88); (s0, 96); (s1, 104); (a1, 120); (a2, 128); (a3, 136);
   (a4, 144); (a5, 152); (a6, 160); (a7, 168); (s2, 176); (s3, 184); (s4, 192); (s5, 200); (s6, 208); (s7, 216); (s8, 224); (s9, 232);
   (s10, 240); (s11, 248); (t3, 256); (t4, 264); (t5, 272); (t6, 280)].
Definition user_slots : slots := (a0, 112) :: tf_slots.

Lemma uservec_eq : uservec = [Csrrw a0 sscratch a0] ++ saves a0 tf_slots ++ [Csrr t0 sscratch] ++ saves a0 [(t0, 112)]
  ++ loads a0 [(sp, 8); (tp, 32); (t0, 16); (t1, 0)] ++ [Csrw satp t1; SfenceVma; Jr t0].
Proof. reflexivity. Qed.

Lemma userret_eq : userret = [Csrw satp a1; SfenceVma] ++ loads a0 [(t0, 112)] ++ [Csrw sscratch t0] ++ loads a0 tf_slots
  ++ [Csrrw a0 sscratch a0; Sret].
Proof. reflexivity. Qed.

Ltac in_frame_tac := repeat constructor; done.
Ltac nodup_tac := apply (bool_decide_unpack _); vm_compute; exact I.
Ltac regs := repeat (rewrite fn_lookup_insert || rewrite fn_lookup_insert_ne by done).

Lemma tf_in_frame : in_frame PGSIZE tf_slots.
Proof. in_frame_tac. Qed.
Lemma tf_nodup_off : NoDup user_slots.*2.
Proof. nodup_tac. Qed.
Lemma tf_nodup_reg : NoDup user_slots.*1.
Proof. nodup_tac. Qed.

Lemma tf_general r o : (r, o) ∈ tf_slots -> (r ∉ [mode; pc; a0; satp; sscratch; mstatus; sepc]) /\ o mod 8 = 0 /\ o <> 112.
Proof.
  assert (H : Forall (fun p => (p.1 ∉ [mode; pc; a0; satp; sscratch; mstatus; sepc]) /\ p.2 mod 8 = 0 /\ p.2 <> 112) tf_slots) by nodup_tac.
  rewrite Forall_forall in H. apply H.
Qed.

Lemma user_general r o : (r, o) ∈ user_slots -> r ∉ [mode; pc; satp; sscratch; mstatus; sepc; scause; stval].
Proof.
  assert (H : Forall (fun p => p.1 ∉ [mode; pc; satp; sscratch; mstatus; sepc; scause; stval]) user_slots) by nodup_tac.
  rewrite Forall_forall in H. apply H.
Qed.

Lemma user_slot_off r o : (r, o) ∈ user_slots -> 40 <= o /\ o + 8 <= 288.
Proof.
  assert (H : Forall (fun p => 40 <= p.2 /\ p.2 + 8 <= 288) user_slots) by nodup_tac.
  rewrite Forall_forall in H. apply H.
Qed.

(** What [uservec] does with the trap frame at [tf]: the user registers go to
    their slots, and the kernel fields of the frame say where to go on. *)
Record entered (h : regfile) (m : gmap Z Z) (tf : Z) (h' : regfile) (m' : gmap Z Z) : Prop := MkEntered {
  en_saved : forall r o, (r, o) ∈ user_slots -> load64 m' (tf + o) = h r;
  en_off : same_off m' m (tf + 40) 248;
  en_pc : h' pc = load64 m (tf + 16);
  en_sp : h' sp = load64 m (tf + 8);
  en_tp : h' tp = load64 m (tf + 32);
  en_satp : h' satp = load64 m tf;
  en_rest : forall r, r ∉ [a0; sscratch; t0; t1; sp; tp; satp; pc] -> h' r = h r
}.

Lemma uservec_spec h m root tf r1 r0 : tmap m root TRAPFRAME tf r1 r0 -> h mode = MODE_S -> h satp = MAKE_SATP root ->
  h sscratch = TRAPFRAME -> (forall r, 0 <= h r < 2 ^ 64) -> exists h' m', exec uservec (h, m) = Some (h', m') /\ entered h m tf h' m'.
Proof.
  intros T Em Es Esc Hr. rewrite uservec_eq, !exec_app. cbn [exec exec1 mbind option_bind]. rewrite Esc.
  set (h1 := <[a0 := TRAPFRAME]> (<[sscratch := h a0]> h)).
  assert (F1 : frame h1 m TRAPFRAME tf PGSIZE) by (apply (tmap_frame h1 m root _ _ r1 r0 T); done).
  rewrite !exec_app, (exec_saves a0 tf_slots h1 m _ tf PGSIZE F1) by (done || apply tf_in_frame). cbn [mbind option_bind].
  set (m1 := put h1 tf tf_slots m).
  assert (O1 : same_off m1 m (tf + 40) 248) by (apply (put_off _ _ 40); in_frame_tac).
  assert (F2 : frame h1 m1 TRAPFRAME tf PGSIZE) by (eapply frame_mem, F1; eapply same_off_weaken; [exact O1|lia|unfold PGSIZE; lia]).
  rewrite exec_app. cbn [exec exec1 mbind option_bind]. set (h2 := <[t0 := h1 sscratch]> h1).
  assert (F3 : frame h2 m1 TRAPFRAME tf PGSIZE) by (by eapply frame_regs, F2).
  rewrite !exec_app, (exec_saves a0 [(t0, 112)] h2 m1 _ tf PGSIZE F3) by (done || in_frame_tac). cbn [mbind option_bind].
  set (m2 := put h2 tf [(t0, 112)] m1).
  assert (O2 : same_off m2 m1 (tf + 40) 248) by (apply (put_off _ _ 40); in_frame_tac).
  assert (F4 : frame h2 m2 TRAPFRAME tf PGSIZE) by (eapply frame_mem, F3; eapply same_off_weaken; [exact O2|lia|unfold PGSIZE; lia]).
  rewrite !exec_app, (exec_loads a0 _ h2 m2 _ tf PGSIZE F4); [|done|in_frame_tac|set_solver..|]; [|intros o Ho; exfalso; set_solver].
  cbn [mbind option_bind exec exec1]. eexists _, m2. split; [reflexivity|].
  assert (O : same_off m2 m (tf + 40) 248) by (by eapply same_off_trans).
  assert (Lk : forall o, o + 8 <= 40 -> load64 m2 (tf + o) = load64 m (tf + o)) by (intros o Ho; apply (load64_same_off _ _ _ _ _ O); lia).
  split; try (cbn [get foldl]; regs; rewrite ?Z.add_0_r; first [apply Lk; lia | rewrite <- (Z.add_0_r tf); apply Lk; lia]).
  - intros r o [[= -> ->]|Hin]%elem_of_cons.
    + unfold m2. rewrite (put_get _ _ PGSIZE _ _ t0) by (in_frame_tac || nodup_tac || left). apply u64_small, Hr.
    + unfold m2. rewrite (put_ne _ _ PGSIZE); [|in_frame_tac| |].
      * unfold m1. rewrite (put_get _ _ PGSIZE _ _ r) by (assumption || apply tf_in_frame || nodup_tac).
        unfold h1. rewrite !fn_lookup_insert_ne by (intros <-; apply tf_general in Hin; set_solver). apply u64_small, Hr.
      * apply tf_general in Hin. tauto.
      * apply tf_general in Hin. set_solver.
  - exact O.
  - intros r Hn. rewrite !not_elem_of_cons in Hn. cbn [get foldl]. unfold h2, h1.
    rewrite !fn_lookup_insert_ne by (intros <-; tauto). done.
Qed.

(** [userret] brings the registers back. *)
Lemma userret_spec h m root tf r1 r0 : tmap m root TRAPFRAME tf r1 r0 -> h mode = MODE_S -> h a0 = TRAPFRAME -> h a1 = MAKE_SATP root ->
  exists h', exec userret (h, m) = Some (sret h', m)
    /\ (forall r o, (r, o) ∈ user_slots -> h' r = load64 m (tf + o)) /\ h' sscratch = TRAPFRAME /\ h' satp = MAKE_SATP root
    /\ (forall r, r ∉ user_slots.*1 -> r <> sscratch -> r <> satp -> h' r = h r).
Proof.
  intros T Em Ea0 Ea1. rewrite userret_eq, exec_app. cbn [exec exec1 mbind option_bind]. rewrite Ea1. set (h1 := <[satp := MAKE_SATP root]> h).
  assert (F1 : frame h1 m TRAPFRAME tf PGSIZE) by (apply (tmap_frame h1 m root _ _ r1 r0 T); done).
  rewrite exec_app, (exec_loads a0 _ h1 m _ tf PGSIZE F1); [|done|in_frame_tac|set_solver..|]; [|intros o Ho; exfalso; set_solver].
  cbn [mbind option_bind]. rewrite exec_app. cbn [exec exec1 mbind option_bind get foldl]. regs. set (h2 := <[sscratch := _]> _).
  assert (F2 : frame h2 m TRAPFRAME tf PGSIZE) by (by eapply frame_regs, F1).
  rewrite exec_app, (exec_loads a0 tf_slots h2 m _ tf PGSIZE F2); [|done|apply tf_in_frame| | | |].
  2-4: intros Hin; apply list_elem_of_fmap in Hin as ([r o] & E & Hin); cbn in E; subst r; apply tf_general in Hin; set_solver.
  2: { intros o Hin. apply tf_general in Hin. set_solver. }
  cbn [exec exec1 mbind option_bind]. set (h3 := get m tf tf_slots h2).
  assert (Hkeep : forall r, r ∉ tf_slots.*1 -> h3 r = h2 r) by (intros r Hn; by apply get_ne).
  assert (Ka0 : h3 a0 = TRAPFRAME) by (rewrite Hkeep; [done|nodup_tac]).
  assert (Ksc : h3 sscratch = load64 m (tf + 112)) by (rewrite Hkeep; [unfold h2; by regs|nodup_tac]).
  rewrite Ka0, Ksc. eexists. split; [reflexivity|]. split; [|split; [|split]].
  - intros r o [[= -> ->]|Hin]%elem_of_cons; [by regs|].
    rewrite !fn_lookup_insert_ne by (intros <-; apply tf_general in Hin; set_solver). apply get_eq; [nodup_tac|done].
  - by regs.
  - regs. rewrite Hkeep; [done|nodup_tac].
  - intros r Hn Hs Hp. cbn [user_slots fmap list_fmap fst] in Hn. apply not_elem_of_cons in Hn as [Hna Hn].
    rewrite !fn_lookup_insert_ne, Hkeep by done. unfold h2, h1. rewrite !fn_lookup_insert_ne; [done|done| |done].
    intros <-. apply Hn. change (t0 ∈ tf_slots.*1). nodup_tac.
Qed.

(** ** Traps to supervisor mode *)

Lemma sret_bits h n : 0 <= n < 64 -> Z.testbit (sret h mstatus) n =
  if n =? 1 then Z.testbit (h mstatus) 5 else if n =? 5 then true else if n =? 8 then false else Z.testbit (h mstatus) n.
Proof.
  intros Hn. unfold sret. cbv zeta. rewrite !fn_lookup_insert_ne by done. unfold w. rewrite fn_lookup_insert, HartSpec.u64_bit by done.
  rewrite !Z.lor_spec, Z.ldiff_spec, !Z.lor_spec, HartSpec.bit_shift1 by lia. unfold SSTATUS_SPP, SSTATUS_SIE, SSTATUS_SPIE.
  rewrite !HartSpec.bit_one, Z.shiftr_spec by lia.
  destruct (Z.eqb_spec n 1) as [->|]; [HartSpec.bits_done|]. destruct (Z.eqb_spec n 5) as [->|]; [HartSpec.bits_done|].
  destruct (Z.eqb_spec n 8) as [->|]; [HartSpec.bits_done|]. HartSpec.bits_done.
Qed.

Lemma sret_mode h : sret h mode = Z.b2z (Z.testbit (h mstatus) 8).
Proof.
  unfold sret. cbv zeta. regs. rewrite Z.testbit_spec' by lia. change 1 with (Z.ones 1). rewrite Z.land_ones by lia.
  by rewrite Z.shiftr_div_pow2 by lia.
Qed.

Lemma strap_bits c v h n : 0 <= h mode < 2 -> 0 <= n < 64 -> Z.testbit (strap c v h mstatus) n =
  if n =? 1 then false else if n =? 5 then Z.testbit (h mstatus) 1 else if n =? 8 then Z.testbit (h mode) 0 else Z.testbit (h mstatus) n.
Proof.
  intros Hm Hn. unfold strap. cbv zeta. rewrite !fn_lookup_insert_ne by done. unfold w. rewrite fn_lookup_insert, HartSpec.u64_bit by done.
  replace (h mode) with (Z.land (h mode) 1) at 1 by (change 1 with (Z.ones 1); rewrite Z.land_ones by lia; by apply Z.mod_small).
  rewrite !Z.lor_spec, Z.ldiff_spec, !Z.lor_spec, !HartSpec.bit_shift1 by lia. unfold SSTATUS_SPP, SSTATUS_SIE, SSTATUS_SPIE.
  rewrite !HartSpec.bit_one, Z.shiftr_spec by lia.
  destruct (Z.eqb_spec n 1) as [->|]; [HartSpec.bits_done|]. destruct (Z.eqb_spec n 5) as [->|]; [HartSpec.bits_done|].
  destruct (Z.eqb_spec n 8) as [->|]; [HartSpec.bits_done|]. HartSpec.bits_done.
Qed.

Lemma sret_other h r : r <> mstatus -> r <> pc -> r <> mode -> sret h r = h r.
Proof. intros. unfold sret, w. cbv zeta. by rewrite !fn_lookup_insert_ne by done. Qed.

Lemma strap_other c v h r : r ∉ [mstatus; pc; mode; sepc; scause; stval] -> strap c v h r = h r.
Proof. intros Hn. rewrite !not_elem_of_cons in Hn. unfold strap, w. cbv zeta. rewrite !fn_lookup_insert_ne by (intros <-; tauto). done. Qed.

Lemma strap_range c v h : 0 <= c < 2 ^ 64 -> 0 <= v < 2 ^ 64 -> (forall r, 0 <= h r < 2 ^ 64) -> forall r, 0 <= strap c v h r < 2 ^ 64.
Proof.
  intros Hc Hv Hr r. unfold strap, w. cbv zeta.
  destruct r; regs; try apply Hr; try done. apply u64_range.
Qed.

(** Registers hold 64-bit values throughout. *)
Abbreviation in_range h := (forall r : reg, 0 <= h r < 2 ^ 64).

Lemma insert_range r v (h : regfile) : 0 <= v < 2 ^ 64 -> in_range h -> in_range (<[r := v]> h).
Proof. intros Hv Hr r'. destruct (decide (r = r')) as [<-|Hne]; [by rewrite fn_lookup_insert|by rewrite fn_lookup_insert_ne]. Qed.

Lemma sret_range h : in_range h -> in_range (sret h).
Proof.
  intros Hr. unfold sret. cbv zeta. apply insert_range; [apply Hr|]. apply insert_range; [|apply insert_range; [apply u64_range|done]].
  change 1 with (Z.ones 1). rewrite Z.land_ones by lia. pose proof (Z.mod_pos_bound (Z.shiftr (h mstatus) 8) (2 ^ 1)). lia.
Qed.

Lemma exec_range p h m h' m' : in_range h -> exec p (h, m) = Some (h', m') -> in_range h'.
Proof.
  revert h m. induction p as [|i p IH]; intros h m Hr E; [by injection E as <- <-|]. cbn [exec] in E.
  destruct (exec1 i (h, m)) as [[h1 m1]|] eqn:E1; [|done]. cbn [mbind option_bind] in E. apply (IH h1 m1); [|done]. clear IH E.
  destruct i; cbn [exec1] in E1; try (destruct (word_at _ _ _ _ _); [|done]); injection E1 as <- <-; try done;
    try (apply insert_range; [apply u64_range|done]); try (apply insert_range; [apply load64_range|done]); try (by apply insert_range);
    [by repeat apply insert_range|by apply sret_range].
Qed.

(** (C28) A user program gets its registers back.  From any state of a user process
    whose page table maps the trap frame, a trap saves all 31 registers in the
    frame and enters the kernel where the frame says; and from every state in
    which the kernel later calls [userret] for the same page table, the hart is
    back in user mode at [sepc], ready for the next trap, with every register
    the kernel left alone in the frame as it was before the trap.  Memory is
    only written in the register part of the frame. *)
Theorem user_context_preserved cause tval h m root tf r1 r0 :
  tmap m root TRAPFRAME tf r1 r0 -> h mode = MODE_U -> h satp = MAKE_SATP root -> h sscratch = TRAPFRAME ->
  (forall r, 0 <= h r < 2 ^ 64) -> 0 <= cause < 2 ^ 64 -> 0 <= tval < 2 ^ 64 ->
  exists h1 m1, exec uservec (strap cause tval h, m) = Some (h1, m1)
    /\ entered (strap cause tval h) m tf h1 m1 /\ h1 sepc = h pc /\ h1 mode = MODE_S
    /\ forall h2 m2 q1 q0, tmap m2 root TRAPFRAME tf q1 q0 -> h2 mode = MODE_S -> h2 a0 = TRAPFRAME -> h2 a1 = MAKE_SATP root ->
       Z.testbit (h2 mstatus) 8 = false ->
       exists h3, exec userret (h2, m2) = Some (h3, m2) /\ h3 mode = MODE_U /\ h3 pc = h2 sepc
         /\ h3 satp = MAKE_SATP root /\ h3 sscratch = TRAPFRAME /\ h3 stvec = h2 stvec
         /\ Z.testbit (h3 mstatus) 1 = Z.testbit (h2 mstatus) 5
         /\ forall r o, (r, o) ∈ user_slots -> load64 m2 (tf + o) = load64 m1 (tf + o) -> h3 r = h r.
Proof.
  intros T Em Es Esc Hr Hc Hv.
  assert (Hu : forall r o, (r, o) ∈ user_slots -> strap cause tval h r = h r).
  { intros r o Hin%user_general. apply strap_other. set_solver. }
  destruct (uservec_spec (strap cause tval h) m root tf r1 r0 T) as (h1 & m1 & E & A);
    [done|rewrite strap_other by nodup_tac; done|rewrite strap_other by nodup_tac; done|by apply strap_range|].
  exists h1, m1. split; [exact E|]. split; [exact A|]. split; [|split].
  - by rewrite (en_rest _ _ _ _ _ A) by nodup_tac.
  - by rewrite (en_rest _ _ _ _ _ A) by nodup_tac.
  - intros h2 m2 q1 q0 T2 Em2 Ea0 Ea1 Hspp. destruct (userret_spec h2 m2 root tf q1 q0 T2 Em2 Ea0 Ea1) as (h' & E2 & G & Gs & Gp & Gk).
    exists (sret h'). split; [exact E2|].
    assert (Ems : h' mstatus = h2 mstatus) by (apply Gk; [nodup_tac|done..]).
    split; [by rewrite sret_mode, Ems, Hspp|]. split; [unfold sret; cbv zeta; regs; apply Gk; [nodup_tac|done..]|].
    split; [by rewrite sret_other|]. split; [by rewrite sret_other|].
    split; [rewrite sret_other by done; apply Gk; [nodup_tac|done..]|].
    split; [rewrite sret_bits by lia; cbn; by rewrite Ems|].
    intros r o Hin Hsame. rewrite <- (Hu r o), <- (en_saved _ _ _ _ _ A r o), <- Hsame, <- (G r o) by done.
    apply user_general in Hin. rewrite !not_elem_of_cons in Hin. apply sret_other; tauto.
Qed.

(** A machine with one mapped page, for the examples. *)
Definition demo_pt : gmap Z Z :=
  store64 (store64 (store64 ∅ (4096 + 8 * PX 2 TRAPFRAME) (Z.lor (PA2PTE 8192) PTE_V)) (8192 + 8 * PX 1 TRAPFRAME) (Z.lor (PA2PTE 12288) PTE_V))
    (12288 + 8 * PX 0 TRAPFRAME) (Z.lor (PA2PTE 16384) (Z.lor (Z.lor PTE_V PTE_R) PTE_W)).
Definition demo_user : regfile :=
  <[satp := MAKE_SATP 4096]> (<[sscratch := TRAPFRAME]> (<[stvec := TRAMPOLINE]> (<[mode := MODE_U]> (fun _ => 7)))).

Lemma demo_tmap : tmap demo_pt 4096 TRAPFRAME 16384 8192 12288.
Proof. split; try (vm_compute; repeat split; congruence). Qed.

Lemma demo_user_range r : 0 <= demo_user r < 2 ^ 64.
Proof. destruct r; vm_compute; split; congruence. Qed.

Definition demo_kernel : regfile :=
  <[a0 := TRAPFRAME]> (<[a1 := MAKE_SATP 4096]> (<[mode := MODE_S]> (<[mstatus := SSTATUS_SPIE]> (fun _ => 9)))).

Lemma user_context_preserved_witness : exists h1 m1, exec uservec (strap 8 0 demo_user, demo_pt) = Some (h1, m1)
  /\ entered (strap 8 0 demo_user) demo_pt 16384 h1 m1 /\ h1 sepc = 7
  /\ exists h3, exec userret (demo_kernel, demo_pt) = Some (h3, demo_pt) /\ h3 mode = MODE_U /\ h3 pc = 9.
Proof.
  destruct (user_context_preserved 8 0 demo_user demo_pt 4096 16384 8192 12288) as (h1 & m1 & E & H & S & _ & K).
  - apply demo_tmap.
  - reflexivity.
  - reflexivity.
  - reflexivity.
  - apply demo_user_range.
  - lia.
  - lia.
  - exists h1, m1. split; [exact E|]. split; [exact H|]. split; [exact S|].
    destruct (K demo_kernel demo_pt 8192 12288 demo_tmap) as (h3 & E3 & M3 & P3 & _); [reflexivity..|].
    exists h3. split; [exact E3|]. split; [exact M3|exact P3].
Defined.

End AsmSpec.
