(* ===== verification/AsmSwitch.v ===== *)
(** * Context switches and interrupts of the kernel

    [swtch] and [kernelvec]: a thread that gave up the CPU goes on after its
    [swtch] with the registers a C caller relies on, and kernel code a device
    interrupts goes on with all of its registers.  [entry.S] gives each hart a
    stack of its own. *)

From S2P Require Import Prelude Riscv Kalloc ProcDefs Uart Console Bio Log World FileSpec Proc Trap Hart HartSpec Asm AsmSpec.
From Stdlib Require Import ZArith Lia.
From stdpp Require Import base numbers gmap strings functions list sets.

#[local] Open Scope Z_scope.

Import Uart Hart Asm AsmSpec.

Module AsmSwitch.

(** ** swtch.S *)

(** [struct context]: the return address, the stack pointer and s0 to s11. *)
Definition ctx_slots : slots :=
  [(ra, 0); (sp, 8); (s0, 16); (s1, 24); (s2, 32); (s3, 40); (s4, 48); (s5, 56); (s6, 64); (s7, 72); (s8, 80); (s9, 88); (s10, 96); (s11, 104)].

Lemma swtch_eq : swtch = saves a0 ctx_slots ++ loads a1 ctx_slots ++ [Jr ra].
Proof. reflexivity. Qed.

(** The two contexts [swtch] is called with: at [old] and [new], in memory at
    [po] and [pn]. *)
Record contexts (h : regfile) (m : gmap Z Z) (old po new pn : Z) : Prop := MkContexts {
  cx_a0 : h a0 = old;
  cx_a1 : h a1 = new;
  cx_old : frame h m old po 112;
  cx_new : forall m', same_off m' m po 112 -> frame h m' new pn 112;
  cx_disjoint : po + 112 <= pn \/ pn + 112 <= po
}.

Lemma ctx_in_frame : in_frame 112 ctx_slots.
Proof. in_frame_tac. Qed.

Lemma ctx_general r o : (r, o) ∈ ctx_slots -> (r ∉ [mode; pc; a0; a1; satp; mstatus]) /\ 0 <= o /\ o + 8 <= 112.
Proof.
  assert (H : Forall (fun p => (p.1 ∉ [mode; pc; a0; a1; satp; mstatus]) /\ 0 <= p.2 /\ p.2 + 8 <= 112) ctx_slots) by nodup_tac.
  rewrite Forall_forall in H. apply H.
Qed.

Lemma swtch_spec h m old po new pn : contexts h m old po new pn -> (forall r, 0 <= h r < 2 ^ 64) ->
  exists h' m', exec swtch (h, m) = Some (h', m') /\ same_off m' m po 112
    /\ (forall r o, (r, o) ∈ ctx_slots -> load64 m' (po + o) = h r /\ h' r = load64 m (pn + o))
    /\ h' pc = load64 m pn /\ forall r, r ∉ ctx_slots.*1 -> r <> pc -> h' r = h r.
Proof.
  intros [E0 E1 F G D] Hr. rewrite swtch_eq, exec_app, (exec_saves a0 _ h m old po 112 F E0 ctx_in_frame). cbn [mbind option_bind].
  set (m1 := put h po ctx_slots m).
  assert (O1 : same_off m1 m po 112) by (rewrite <- (Z.add_0_r po); apply (put_off _ _ 0); in_frame_tac).
  rewrite exec_app, (exec_loads a1 _ h m1 new pn 112 (G m1 O1) E1 ctx_in_frame); [|nodup_tac..|intros o Hin; apply ctx_general in Hin; set_solver].
  cbn [mbind option_bind exec exec1]. eexists _, m1. split; [reflexivity|].
  assert (L : forall o, 0 <= o -> o + 8 <= 112 -> load64 m1 (pn + o) = load64 m (pn + o)) by (intros o H1 H2; apply (load64_same_off _ _ _ _ _ O1); lia).
  assert (Gt : forall r o, (r, o) ∈ ctx_slots -> get m1 pn ctx_slots h r = load64 m (pn + o)).
  { intros r o Hin. rewrite (get_eq _ _ _ _ _ o) by (assumption || nodup_tac). apply ctx_general in Hin. apply L; lia. }
  split; [exact O1|]. split; [|split].
  - intros r o Hin. split.
    + unfold m1. rewrite (put_get _ _ 112 _ _ r) by (assumption || apply ctx_in_frame || nodup_tac). apply u64_small, Hr.
    + rewrite fn_lookup_insert_ne by (intros <-; apply ctx_general in Hin; set_solver). by apply Gt.
  - regs. rewrite (Gt ra 0) by left. by rewrite Z.add_0_r.
  - intros r Hn Hp. rewrite fn_lookup_insert_ne by done. by apply get_ne.
Qed.

(** (C29) A thread that calls [swtch] is resumed where it called it.  The call saves
    the thread's return address, stack pointer and callee-saved registers in its
    context and takes those of the other; and whenever some thread later switches
    back to the context, its words unchanged, the hart continues at the return
    address of the first call with the same stack pointer and callee-saved
    registers. *)
Theorem swtch_resumes h m old po new pn : contexts h m old po new pn -> (forall r, 0 <= h r < 2 ^ 64) ->
  exists h1 m1, exec swtch (h, m) = Some (h1, m1) /\ same_off m1 m po 112 /\ h1 pc = load64 m pn
    /\ (forall r o, (r, o) ∈ ctx_slots -> h1 r = load64 m (pn + o))
    /\ forall h2 m2 old2 po2, contexts h2 m2 old2 po2 old po -> (forall r, 0 <= h2 r < 2 ^ 64) ->
       (forall r o, (r, o) ∈ ctx_slots -> load64 m2 (po + o) = load64 m1 (po + o)) ->
       exists h3 m3, exec swtch (h2, m2) = Some (h3, m3) /\ h3 pc = h ra
         /\ (forall r, r ∈ ctx_slots.*1 -> h3 r = h r) /\ h3 satp = h2 satp /\ h3 tp = h2 tp.
Proof.
  intros C Hr. destruct (swtch_spec h m old po new pn C Hr) as (h1 & m1 & E & O & S & P & _).
  exists h1, m1. split; [exact E|]. split; [exact O|]. split; [exact P|]. split; [intros r o Hin; by apply S|].
  intros h2 m2 old2 po2 C2 Hr2 Hsame. destruct (swtch_spec h2 m2 old2 po2 old po C2 Hr2) as (h3 & m3 & E3 & _ & S3 & P3 & K3).
  exists h3, m3. split; [exact E3|].
  assert (Hs : forall r o, (r, o) ∈ ctx_slots -> load64 m2 (po + o) = h r) by (intros r o Hin; rewrite (Hsame r o) by done; by apply S).
  split; [rewrite P3, <- (Hs ra 0) by left; by rewrite Z.add_0_r|]. split; [|split; apply K3; nodup_tac || done].
  intros r Hin. apply list_elem_of_fmap in Hin as ([r' o] & -> & Hin). cbn [fst]. rewrite (proj2 (S3 _ _ Hin)). by apply Hs.
Qed.

(** Bare addressing, for the examples. *)
Definition demo_boot : regfile := <[a0 := 4096]> (<[a1 := 8192]> (<[satp := 0]> (<[mode := MODE_S]> (fun _ => 5)))).
Definition demo_back : regfile := <[a0 := 8192]> (<[a1 := 4096]> (<[satp := 0]> (<[mode := MODE_S]> (fun _ => 6)))).

Lemma bare_frame h m v n : h satp = 0 -> v mod 8 = 0 -> 0 <= v -> v + n <= 2 ^ 64 -> frame h m v v n.
Proof. intros E H1 H2 H3. split; try done. intros k m' o _ _. unfold xlate. rewrite E. by rewrite orb_true_r. Qed.

Lemma swtch_resumes_witness : exists h1 m1, exec swtch (demo_boot, ∅) = Some (h1, m1) /\ h1 pc = 0
  /\ exists h3 m3, exec swtch (demo_back, m1) = Some (h3, m3) /\ h3 pc = 5.
Proof.
  destruct (swtch_resumes demo_boot ∅ 4096 4096 8192 8192) as (h1 & m1 & E & _ & P & _ & K).
  - split; [reflexivity|reflexivity|apply bare_frame; reflexivity || lia|intros; apply bare_frame; reflexivity || lia|lia].
  - intros r. destruct r; vm_compute; split; congruence.
  - exists h1, m1. split; [exact E|]. split; [exact P|].
    destruct (K demo_back m1 8192 8192) as (h3 & m3 & E3 & P3 & _).
    + split; [reflexivity|reflexivity|apply bare_frame; reflexivity || lia|intros; apply bare_frame; reflexivity || lia|lia].
    + intros r. destruct r; vm_compute; split; congruence.
    + reflexivity.
    + exists h3, m3. split; [exact E3|exact P3].
Defined.

(** ** kernelvec.S *)

Definition kv_slots : slots :=
  [(ra, 0); (sp, 8); (gp, 16); (tp, 24); (t0, 32); (t1, 40); (t2, 48); (s0, 56); (s1, 64); (a0, 72); (a1, 80); (a2, 88); (a3, 96); (a4, 104);
   (a5, 112); (a6, 120); (a7, 128); (s2, 136); (s3, 144); (s4, 152); (s5, 160); (s6, 168); (s7, 176); (s8, 184); (s9, 192); (s10, 200);
   (s11, 208); (t3, 216); (t4, 224); (t5, 232); (t6, 240)].
(** All but [tp]: the thread may be on another hart now. *)
Definition kv_back : slots := filter (fun p => p.1 <> tp) kv_slots.

Lemma kernelvec_save_eq : kernelvec_save = [Addi sp sp (-256)] ++ saves sp kv_slots.
Proof. reflexivity. Qed.
Lemma kernelvec_restore_eq : kernelvec_restore = loads sp kv_back ++ [Addi sp sp 256; Sret].
Proof. reflexivity. Qed.

(** The 256 bytes at [v] are mapped to [pa], whatever [sstatus.SUM] says: a
    kernel page. *)
Definition stack_mapped (h : regfile) (m : gmap Z Z) (v pa : Z) : Prop := forall st, frame (<[mstatus := st]> h) m v pa 256.

Lemma stack_regs h h' m v pa : h' mode = h mode -> h' satp = h satp -> stack_mapped h m v pa -> stack_mapped h' m v pa.
Proof.
  intros E1 E2 S st. eapply frame_regs, (S st); [by rewrite !fn_lookup_insert_ne by done..|by rewrite !fn_lookup_insert].
Qed.

Lemma stack_frame h m v pa : stack_mapped h m v pa -> frame h m v pa 256.
Proof.
  intros S. eapply frame_regs, (S (h mstatus)); [by rewrite !fn_lookup_insert_ne by done..|by rewrite fn_lookup_insert].
Qed.

Lemma stack_mem h m m' v pa : same_off m' m pa 256 -> stack_mapped h m v pa -> stack_mapped h m' v pa.
Proof. intros O S st. eapply frame_mem, S. exact O. Qed.

(** The registers that a C function may leave changed. *)
Definition caller_saved : list reg := [pc; ra; t0; t1; t2; a0; a1; a2; a3; a4; a5; a6; a7; t3; t4; t5; t6].

(** The calling convention: from [s] to [s'] the stack pointer and the registers
    of the callee are kept, with the frame of the caller at [v]. *)
Record abi (v pa : Z) (s s' : Asm.state) : Prop := MkAbi {
  ab_regs : forall r, r ∉ caller_saved -> s'.1 r = s.1 r;
  ab_stack : stack_mapped s'.1 s'.2 v pa;
  ab_frame : same_on s'.2 s.2 pa 256
}.

Lemma kv_in_frame : in_frame 256 kv_slots.
Proof. in_frame_tac. Qed.
Lemma kv_back_in_frame : in_frame 256 kv_back.
Proof. in_frame_tac. Qed.
Lemma kv_back_in r o : (r, o) ∈ kv_back -> (r, o) ∈ kv_slots.
Proof. intros H. by apply list_elem_of_filter in H as [_ H]. Qed.
Lemma kv_general r o : (r, o) ∈ kv_slots -> (r ∉ [mode; pc; satp; mstatus; sepc; scause; stval]) /\ 0 <= o /\ o + 8 <= 256.
Proof.
  assert (H : Forall (fun p => (p.1 ∉ [mode; pc; satp; mstatus; sepc; scause; stval]) /\ 0 <= p.2 /\ p.2 + 8 <= 256) kv_slots) by nodup_tac.
  rewrite Forall_forall in H. apply H.
Qed.

Section Kernelvec.
Context {T D : Type} `{UD : UartDev D} (spin rx : nat).
Abbreviation W := (world T D).
Abbreviation mem_of x := (k_mem (w_k x)).

Definition with_mem (m : gmap Z Z) (x : W) : W := set_k (set_mem (w_k x) m) x.

(** A compiled C function as assembly code sees it: the function runs on the
    registers, memory and the rest of the kernel, and its code leaves scratch
    values behind in registers and on the stack. *)
Definition compiled (f : K (regfile * W) unit) (scratch : Asm.state -> Asm.state) (x : W) (s : Asm.state) : option Asm.state :=
  match f (s.1, with_mem s.2 x) with
  | Ret (_, (h, x)) => Some (scratch (h, mem_of x))
  | _ => None
  end.

(** What the thread finds when it has the CPU again: its stack, in memory and
    under its stack pointer.  Any other register, [tp] and the control registers
    included, may have changed. *)
Record resumes (v pa : Z) (s s' : regfile * W) : Prop := MkResumes {
  rs_sp : s'.1 sp = s.1 sp;
  rs_mode : s'.1 mode = s.1 mode;
  rs_stack : stack_mapped s'.1 (mem_of s'.2) v pa;
  rs_frame : same_on (mem_of s'.2) (mem_of s.2) pa 256
}.

Lemma bind_step {S A B : Type} (m : K S A) (f : A -> K S B) s a s' : m s = Ret (a, s') -> (m ≫= f) s = f a s'.
Proof. intros E. unfold mbind, K_bind. by rewrite E. Qed.

Lemma bind_reads {A B : Type} (g : regfile -> A) (f : A -> K (regfile * W) B) h x : (Trap.reads g ≫= f) (h, x) = f (g h) (h, x).
Proof. reflexivity. Qed.

Lemma wakeup_mem c (x : W) : exists x', Proc.Proc.wakeup c x = Ret (tt, x') /\ w_k x' = w_k x /\ w_cons x' = w_cons x.
Proof.
  eexists. split; [reflexivity|]. generalize Proc.Proc.pids. intros l. revert x. induction l as [|i l IH]; intros x; [done|].
  cbn [foldl]. destruct (IH (set_procs (<[i := Proc.Proc.wake (w_cur x) c i (proc_at x i)]> (w_proc x)) x)) as [E1 E2]. by rewrite E1, E2.
Qed.

Lemma clockintr_mem (x : W) : exists x', Trap.clockintr x = Ret (tt, x') /\ w_k x' = w_k x.
Proof. destruct (wakeup_mem Trap.ch_ticks (Trap.set_ticks (u32 (w_ticks x + 1)) x)) as (x' & E & K1 & _). by exists x'. Qed.

Lemma uart_irq_mem h (x : W) c : Console.uartintr spin rx (w_cons x) = Ret c -> Trap.kern (Trap.uart_irq spin rx) (h, x) = Ret (tt, (h, set_cons c x)).
Proof. intros E. cbn. unfold Trap.uart_irq. by rewrite E. Qed.

Definition recognised (cause : Z) : Prop := cause = Trap.INTERRUPT + 9 \/ cause = Trap.INTERRUPT + 1.

(** [devintr] serves device and timer interrupts; the only register it changes is
    [mip], where it takes back the software interrupt of the timer. *)
Lemma devintr_spec irq h (x : W) : recognised (h scause) -> (irq = UART0_IRQ -> exists c, Console.uartintr spin rx (w_cons x) = Ret c) ->
  exists r h' x', Trap.devintr spin rx irq (h, x) = Ret (r, (h', x')) /\ r.1.1 <> 0 /\ w_k x' = w_k x
    /\ (forall q, q <> mip -> h' q = h q) /\ (h scause = Trap.INTERRUPT + 1 -> r.1.1 = 2 /\ Z.testbit (r_sip h') 1 = false).
Proof.
  intros [E|E] HU.
  - unfold Trap.devintr. rewrite bind_reads. unfold r_scause. rewrite E.
    change (nz (Z.land (Trap.INTERRUPT + 9) Trap.INTERRUPT) && (Z.land (Trap.INTERRUPT + 9) 255 =? 9)) with true. cbv iota.
    destruct (irq =? UART0_IRQ) eqn:Ei.
    + apply Z.eqb_eq in Ei. destruct (HU Ei) as (c & Ec). eexists _, h, _. split; [|split; [|split; [|split]]].
      * unfold mbind, K_bind. rewrite (uart_irq_mem h x c Ec). reflexivity.
      * done.
      * reflexivity.
      * done.
      * done.
    + destruct (irq =? VIRTIO0_IRQ), (nz irq); (eexists _, h, x; split; [reflexivity|done]).
  - unfold Trap.devintr. rewrite bind_reads. unfold r_scause. rewrite E.
    change (nz (Z.land (Trap.INTERRUPT + 1) Trap.INTERRUPT) && (Z.land (Trap.INTERRUPT + 1) 255 =? 9)) with false.
    rewrite Z.eqb_refl. cbv iota.
    assert (H : exists x', when (cpuid h =? 0) (Trap.kern Trap.clockintr) (h, x) = Ret (tt, (h, x')) /\ w_k x' = w_k x).
    { destruct (cpuid h =? 0); [|by exists x]. destruct (clockintr_mem x) as (x' & Ex & Ek). exists x'. cbn [when Trap.kern]. by rewrite Ex. }
    destruct H as (x' & Ex & Ek). rewrite bind_reads, (bind_step _ _ _ _ _ Ex). eexists _, _, x'. split; [reflexivity|]. split; [done|]. split; [exact Ek|]. split.
    + intros q Hq. cbn [fst]. unfold w_sip, w. by rewrite fn_lookup_insert_ne.
    + intros _. split; [done|]. cbn [fst]. unfold w_sip, r_sip, w. cbv zeta. rewrite fn_lookup_insert, fn_lookup_insert_ne by done.
      rewrite Z.land_spec, HartSpec.u64_bit, Z.lor_spec, Z.ldiff_spec, !Z.land_spec by lia.
      change (Z.testbit SIE_SSIE 1) with true. change (Z.testbit (u64 (Z.lnot 2)) 1) with false.
      destruct (Z.testbit (h mideleg) 1); [|by rewrite andb_false_r]. by rewrite !andb_true_r, !andb_false_r.
Qed.

Context (away : K (regfile * W) unit) (v pa : Z).
Hypothesis away_returns : forall s, s.1 mode = MODE_S -> s.1 sp = v -> stack_mapped s.1 (mem_of s.2) v pa ->
  exists s', away s = Ret (tt, s') /\ resumes v pa s s'.

(** [kerneltrap] comes back with the trap registers it found, on the stack it was
    called on, also when other threads ran in between. *)
Lemma kerneltrap_spec irq idle h (x : W) : recognised (h scause) -> (irq = UART0_IRQ -> exists c, Console.uartintr spin rx (w_cons x) = Ret c) ->
  h mode = MODE_S -> in_range h -> h sp = v -> stack_mapped h (mem_of x) v pa -> Z.testbit (h mstatus) 8 = true -> Z.testbit (h mstatus) 1 = false ->
  exists h' x', Trap.kerneltrap spin rx away irq idle (h, x) = Ret (tt, (h', x')) /\ resumes v pa (h, x) (h', x')
    /\ h' sepc = h sepc /\ forall n, 0 <= n < 64 -> Z.testbit sstatus_mask n = true -> Z.testbit (h' mstatus) n = Z.testbit (h mstatus) n.
Proof using away_returns.
  intros Hc HU Em Hr Esp S B8 B1. unfold Trap.kerneltrap. rewrite !bind_reads.
  replace (Z.land (r_sstatus h) SSTATUS_SPP =? 0) with false.
  2: { symmetry. apply Z.eqb_neq. intros Z0. apply (f_equal (fun z => Z.testbit z 8)) in Z0. unfold r_sstatus in Z0.
       rewrite !Z.land_spec, B8 in Z0. by vm_compute in Z0. }
  cbv iota. rewrite bind_reads. replace (intr_get h) with false by (symmetry; rewrite HartSpec.intr_get_bit; exact B1).
  destruct (devintr_spec irq h x Hc HU) as ([[d sv] o] & h1 & x1 & E1 & Hd & Ek & Kr & _). cbv iota. rewrite (bind_step _ _ _ _ _ E1). cbn [fst] in Hd. cbv beta iota.
  rewrite (proj2 (Z.eqb_neq _ _) Hd). rewrite (bind_step (Trap.kern myproc) _ (h1, x1) (proc_at x1 (w_cur x1)) (h1, x1) eq_refl).
  assert (S1 : stack_mapped h1 (mem_of x1) v pa) by (rewrite Ek; eapply stack_regs, S; by apply Kr).
  assert (H : exists s2, when ((d =? 2) && negb idle && bool_decide (p_state (proc_at x1 (w_cur x1)) = RUNNING)) (Trap.yield away) (h1, x1) = Ret (tt, s2)
    /\ resumes v pa (h, x) s2).
  { destruct ((d =? 2) && _ && _).
    - destruct (away_returns (h1, set_procs (<[w_cur x1 := set_state RUNNABLE (proc_at x1 (w_cur x1))]> (w_proc x1)) x1)) as (s2 & E2 & [R1 R2 R3 R4]);
        [by rewrite Kr|by rewrite Kr|exact S1|]. exists s2. split; [exact E2|]. cbn [fst snd] in R1, R2, R4.
      split; cbn [fst snd]; [by rewrite R1, Kr|by rewrite R2, Kr|exact R3|]. change (mem_of (set_procs _ x1)) with (mem_of x1) in R4. by rewrite Ek in R4.
    - exists (h1, x1). split; [reflexivity|]. split; cbn [fst snd]; [by apply Kr|by apply Kr|exact S1|]. rewrite Ek. intros b Hb. reflexivity. }
  destruct H as ([h2 x2] & E2 & [R1 R2 R3 R4]). rewrite (bind_step _ _ _ _ _ E2). eexists _, x2. split; [reflexivity|]. cbn [fst snd] in *.
  split; [|split].
  - split; cbn [fst snd]; unfold w_sstatus, w_sepc, w; [by rewrite !fn_lookup_insert_ne|by rewrite !fn_lookup_insert_ne| |exact R4].
    eapply stack_regs, R3; by rewrite !fn_lookup_insert_ne.
  - unfold w_sstatus, w_sepc, w. rewrite fn_lookup_insert_ne, fn_lookup_insert by done. apply u64_small, Hr.
  - intros n Hn Hm. rewrite HartSpec.sstatus_write, Hm by done. unfold r_sstatus. by rewrite Z.land_spec, Hm, andb_true_r.
Qed.


End Kernelvec.

Definition demo_irq : regfile := <[sp := 8192]> (<[satp := 0]> (<[mode := MODE_S]> (fun _ => 5))).

(** While the thread is away every register changes; it comes back on hart 1. *)
Definition demo_away : K (regfile * world (Log.log * Bio.bst) unit) unit :=
  fun s => Ret (tt, (<[tp := 1]> (<[sp := s.1 sp]> (<[satp := 0]> (<[mode := MODE_S]> (fun _ => 77)))), s.2)).

Definition demo_running : world (Log.log * Bio.bst) unit :=
  let x := FileSpec.demo_world in set_procs {[ w_cur x := set_state RUNNING proc0 ]} x.

Lemma demo_stack h m : h satp = 0 -> stack_mapped h m 7936 7936.
Proof. intros E st. apply bare_frame; [by rewrite fn_lookup_insert_ne|reflexivity|lia|lia]. Qed.


(** What [main] sets up on each hart is what the vectors need: kernel loads and
    stores go through the kernel page table, and the next trap enters
    [kernelvec]. *)
Lemma inithart_traps root vec cause tval h : 0 <= root < 2 ^ 56 -> root mod PGSIZE = 0 -> 0 <= vec < 2 ^ 64 ->
  let h' := trapinithart vec (kvminithart root h) in
  h' satp = MAKE_SATP root /\ strap cause tval h' pc = vec /\ strap cause tval h' mode = MODE_S /\ strap cause tval h' sepc = h pc.
Proof.
  intros Hr Ha Hv. destruct (satp_fields root Hr Ha) as (_ & _ & Hs). cbv zeta. unfold trapinithart, kvminithart, w_satp, w_stvec, strap, w. cbv zeta.
  regs. by rewrite !u64_small by done.
Qed.

(** ** entry.S *)

(** Hart [i] starts in C at the top of page [i] of [stack0], which no other hart
    uses. *)
Lemma entry_stacks stack0 h m : 0 <= h mhartid < NCPU -> 0 <= stack0 -> stack0 + 4096 * NCPU < 2 ^ 64 ->
  exists h', exec (entry stack0) (h, m) = Some (h', m) /\ h' sp = stack0 + 4096 * h mhartid + 4096 /\ h' mhartid = h mhartid.
Proof.
  intros Hi H0 Hs. unfold entry. cbn [exec exec1 mbind option_bind]. unfold w. regs. eexists. split; [reflexivity|]. split; [|by regs].
  regs. change (u64 (1024 * 4)) with 4096. unfold NCPU in *. rewrite (u64_small (h mhartid + 1)), (u64_small stack0), (u64_small (4096 * _)) by lia.
  rewrite u64_small by lia. lia.
Qed.

End AsmSwitch.
