(* ===== verification/TrapCycle.v ===== *)
(** * From the kernel to user code and back

    [usertrapret] (kernel/trap.c) and the trampoline (kernel/trampoline.S) agree
    on the trap frame: what the C code leaves there is what the next trap needs
    to get onto the kernel stack of the process and into [usertrap]. *)

From S2P Require Import Prelude Riscv KString Kalloc ProcDefs Vm VmTree VmMap Bio Log FsSpec World FileSpec Proc Trap Hart HartSpec Asm AsmSpec.
From Stdlib Require Import ZArith Lia.
From stdpp Require Import base numbers gmap strings functions list sets.

#[local] Open Scope Z_scope.

Import KString Kalloc Vm VmTree VmMap Hart Asm AsmSpec.

Module TrapCycle.

(** ** The page table of a process *)

Section PageTable.
Context `{L : Layout} `{LO : !LayoutOk L}.

(** A cleared page is a table without entries. *)
Lemma empty_table (s : kst) root : page_ok root -> 1 <= rc s (root / PGSIZE) -> (forall i, 0 <= i < 512 -> load64 (k_mem s) (root + 8 * i) = 0) ->
  pt_wf s root /\ upper_entries (k_mem s) root /\ forall va, leaf (k_mem s) root va = 0.
Proof using L.
  intros Hp Hrc Hz.
  assert (T : forall path t, path_ok path -> table_at (k_mem s) root path = Some t -> path = [] /\ t = root).
  { intros [|i path] t Hq Ht; [by injection Ht as ->|]. destruct (path_ok_index [] i path Hq) as [Hi _]. rewrite table_at_cons, Hz in Ht by done. done. }
  split; [split|split].
  - intros path t Hq Ht. by destruct (T path t Hq Ht) as [_ ->].
  - intros p q t Hq1 Hq2 H1 H2. destruct (T p t Hq1 H1) as [-> _]. by destruct (T q t Hq2 H2) as [-> _].
  - intros path t i Hq _ Hi Ht Hv. destruct (T path t Hq Ht) as [_ ->]. by rewrite Hz in Hv.
  - intros va. unfold leaf. destruct (table_at (k_mem s) root (vpath va)) as [t|] eqn:E; [|done].
    by destruct (T _ t (path_ok_vpath va) E) as [E2 _].
Qed.

(** A translation that [mappages] made for the kernel alone is what the hardware
    follows. *)
Lemma tmap_of_leaf (s : kst) root va pa : pt_wf s root -> upper_entries (k_mem s) root -> 0 <= va -> va + PGSIZE <= MAXVA -> va mod PGSIZE = 0 ->
  page_ok pa -> ~ is_table s root pa -> leaf (k_mem s) root va = mkpte pa (Z.lor PTE_R PTE_W) -> exists r1 r0, tmap (k_mem s) root va pa r1 r0.
Proof using L.
  intros Hwf Hup H0 Hmax Hal Hpa Hnt Hlf. pose proof (page_ok_range56 pa Hpa) as Hr.
  assert (Hperm : 0 <= Z.lor PTE_R PTE_W < 1024) by (vm_compute; split; congruence).
  destruct (table_at (k_mem s) root (vpath va)) as [t0|] eqn:E0.
  2: { exfalso. unfold leaf in Hlf. rewrite E0 in Hlf. pose proof (valid_mkpte pa (Z.lor PTE_R PTE_W) Hr) as Hv. rewrite <- Hlf in Hv. done. }
  unfold leaf in Hlf. rewrite E0 in Hlf.
  assert (Hroot : is_table s root root) by (by exists []; split; [apply path_ok_nil|]).
  assert (Ht0 : is_table s root t0) by (exists (vpath va); split; [apply path_ok_vpath|done]).
  unfold vpath in E0. rewrite table_at_cons in E0. destruct (nz (Z.land (load64 (k_mem s) (root + 8 * PX 2 va)) PTE_V)) eqn:V2; [|done].
  set (t1 := PTE2PA (load64 (k_mem s) (root + 8 * PX 2 va))) in *. rewrite table_at_cons in E0.
  destruct (nz (Z.land (load64 (k_mem s) (t1 + 8 * PX 1 va)) PTE_V)) eqn:V1; [|done]. injection E0 as E0.
  assert (P1 : path_ok [PX 2 va]) by (split; [simpl; lia|repeat constructor; apply PX_range]).
  assert (T1 : table_at (k_mem s) root [PX 2 va] = Some t1) by (by rewrite table_at_cons, V2).
  assert (Ht1 : is_table s root t1) by (by exists [PX 2 va]).
  assert (Hal' : forall t, is_table s root t -> page_ok t) by (intros t (q & Hq & Ht); by destruct (pt_tables _ _ Hwf q t Hq Ht)).
  exists t1, t0. split; try done.
  - apply page_ok_range56. by apply Hal'.
  - split_and!; try done; [apply Hpa|by apply Hal'..].
  - split_and!; intros ->; by apply Hnt.
  - split; [done|]. split; [|done]. apply (Hup [] root); [apply path_ok_nil|simpl; lia|apply PX_range|done|done].
  - split; [done|]. split; [|done]. apply (Hup [PX 2 va] t1); [done|simpl; lia|apply PX_range|done|done].
  - rewrite Hlf. unfold kpage, mkpte. rewrite <- Z.lor_assoc. change (Z.lor (Z.lor PTE_R PTE_W) PTE_V) with 7.
    unfold PTE_V, PTE_R, PTE_W. rewrite !nz_land_bit by lia. rewrite !PTE_lor_testbit by lia. split_and!; try reflexivity.
    + change PTE_U with (Z.land 1023 16). rewrite Z.land_assoc. change (Z.land (Z.lor (PA2PTE pa) 7) 1023) with (PTE_FLAGS (Z.lor (PA2PTE pa) 7)).
      by rewrite PTE_FLAGS_PA2PTE by lia.
    + apply PTE2PA_PA2PTE; [done|apply Hpa|lia].
Qed.

(** The two highest pages of the address space. *)
Lemma high_pages : 0 <= TRAPFRAME /\ TRAPFRAME + PGSIZE = TRAMPOLINE /\ TRAMPOLINE + PGSIZE = MAXVA
  /\ TRAMPOLINE mod PGSIZE = 0 /\ TRAPFRAME mod PGSIZE = 0.
Proof. vm_compute. repeat split; congruence. Qed.

(** [mappages] of one page. *)
Lemma map_page (s : kst) l root va pa perm : kinv s l -> pt_wf s root -> 0 <= va -> va + PGSIZE <= MAXVA -> va mod PGSIZE = 0 ->
  0 <= pa <= PHYSTOP -> 0 <= perm < 1024 -> (forall v, va <= v < va + PGSIZE -> leaf (k_mem s) root v = 0) ->
  exists r s' l' used, Vm.mappages s root va PGSIZE pa perm = Ret (r, s') /\ grow s l s' l' root used
    /\ (r = -1 \/ r = 0 /\ leaf (k_mem s') root va = mkpte pa perm /\ forall v, 0 <= v < va -> leaf (k_mem s') root v = leaf (k_mem s) root v).
Proof using LO.
  intros Hk Hwf H0 Hmax Hal Hpa Hperm Hfree. pose proof MAXVA_u64 as Hmx.
  assert (Ea : PGROUNDDOWN va = va) by (apply PGROUNDDOWN_id; [unfold PGSIZE in *; lia|done]).
  assert (Eb : PGROUNDDOWN (va + PGSIZE - 1) = va) by (rewrite PGROUNDDOWN_spec; unfold PGSIZE in *; dlia).
  destruct (mappages_spec s l root va PGSIZE pa perm Hk Hwf) as (r & s' & l' & u & j & E & G & M & R); [done|done|done|lia|unfold PHYSTOP, KERNBASE, PGSIZE in *; lia|done| |].
  - rewrite Ea. intros v Hv. by rewrite Hfree.
  - rewrite Ea, Eb in *. rewrite Z.sub_diag in R. change (0 / PGSIZE + 1) with 1 in R. exists r, s', l', u. split; [done|]. split; [done|].
    destruct R as [[-> ->]|(-> & _)]; [right|by left]. split; [done|]. split.
    + rewrite M by (unfold PGSIZE in *; lia). rewrite decide_True by (unfold PGSIZE; lia). rewrite Z.sub_diag. change (0 / PGSIZE * PGSIZE) with 0. by rewrite Z.add_0_r.
    + intros v Hv. rewrite M by (unfold PGSIZE in *; lia). by rewrite decide_False by lia.
Qed.

(** [uvmcreate] takes a page and clears it. *)
Lemma uvmcreate_spec (s : kst) l : kinv s l ->
  exists root s', Vm.uvmcreate s = Ret (root, s')
    /\ match l with
       | [] => root = 0
       | q :: l' => root = q /\ page_ok q /\ kinv s' l' /\ rc s (q / PGSIZE) = 0 /\ 1 <= rc s' (q / PGSIZE)
                    /\ (forall i, 0 <= i < 512 -> load64 (k_mem s') (q + 8 * i) = 0)
       end.
Proof using LO.
  intros Hk. destruct (kalloc_spec s l Hk) as (p & s1 & Ek & Hl). unfold Vm.uvmcreate. rewrite Ek. cbn [mbind outcome_bind].
  destruct l as [|q l].
  - destruct Hl as [-> _]. rewrite Z.eqb_refl. by exists 0, s1.
  - destruct Hl as (-> & Hp & Hp0 & Hk1 & Hrc1 & Hrcs & Hoff & _). pose proof (page_ok_bounds q Hp) as (_ & _ & Hq0).
    rewrite (proj2 (Z.eqb_neq _ _) Hq0). eexists q, _. split; [reflexivity|]. split; [reflexivity|]. split; [exact Hp|]. split; [|split; [|split]].
    + apply (kinv_write _ _ q); [exact Hk1|exact Hp|lia|apply memset_off; unfold PGSIZE; lia].
    + lia.
    + change (1 <= rc s1 (q / PGSIZE)). lia.
    + intros i Hi. cbn [k_mem set_mem]. apply load64_memset; unfold PGSIZE; lia.
Qed.

(** [proc_pagetable] gives every process what the trampoline needs: when it
    succeeds, its table maps TRAPFRAME to the trap frame of the process for the
    kernel alone. *)
Lemma proc_pagetable_tmap tf (s : kst) l root s' : kinv s l -> page_ok tf -> 1 <= rc s (tf / PGSIZE) ->
  ProcVm.proc_pagetable tf s = Ret (root, s') -> root <> 0 -> exists r1 r0, tmap (k_mem s') root TRAPFRAME tf r1 r0.
Proof using LO.
  intros Hk Htf Hrc E Hne. unfold ProcVm.proc_pagetable in E.
  destruct (uvmcreate_spec s l Hk) as (q & s2 & Ek & Hl). rewrite Ek in E. apply bind_Ret in E as (a & Ea & E). injection Ea as <-. cbv beta iota in E.
  destruct l as [|q' l]; [subst q; by injection E as <- <-|]. destruct Hl as (-> & Hp & Hk2 & Hrc0 & Hrc2 & Hz2).
  pose proof (page_ok_bounds q' Hp) as (_ & _ & Hq0). rewrite (proj2 (Z.eqb_neq _ _) Hq0) in E. rename q' into q.
  destruct (empty_table s2 q Hp Hrc2 Hz2) as (Hwf2 & Hup2 & Hlf2).
  assert (Htq : tf <> q) by (intros ->; lia).
  assert (Htl : tf ∉ l).
  { intros Hin. apply (list_elem_of_further _ q) in Hin. apply (kinv_free _ _ Hk tf Htf) in Hin. lia. }
  assert (Htr : 0 <= trampoline <= PHYSTOP).
  { clear -LO. pose proof trampoline_text as [Tlo Thi]. pose proof etext_kend as Tk. pose proof kend_phystop as Tp. unfold KERNBASE in Tlo. lia. }
  assert (Htf2 : 0 <= tf <= PHYSTOP).
  { clear -Htf. pose proof (page_ok_bounds tf Htf). unfold KERNBASE, PGSIZE in *. lia. }
  destruct high_pages as (K1 & K2 & K3 & Ka & Kb). assert (Kp : 0 < PGSIZE) by (unfold PGSIZE; lia).
  destruct (map_page s2 l q TRAMPOLINE trampoline (Z.lor PTE_R PTE_X) Hk2 Hwf2) as (r3 & s3 & l3 & u3 & E3 & G3 & R3); [lia|lia|exact Ka|exact Htr|vm_compute; split; congruence|intros v _; apply Hlf2|].
  rewrite E3 in E. apply bind_Ret in E as (a & Ea & E). injection Ea as <-. cbv beta iota in E. destruct R3 as [->|(-> & _ & M3)].
  { rewrite (proj2 (Z.ltb_lt (-1) 0) ltac:(lia)) in E. apply bind_Ret in E as (a & _ & E). injection E as <- _. by destruct Hne. }
  rewrite Z.ltb_irrefl in E.
  destruct (map_page s3 l3 q TRAPFRAME tf (Z.lor PTE_R PTE_W) (gr_inv _ _ _ _ _ _ G3) (gr_wf _ _ _ _ _ _ G3)) as (r4 & s4 & l4 & u4 & E4 & G4 & R4); [lia|lia|exact Kb|exact Htf2|vm_compute; split; congruence| |].
  { intros v Hv. rewrite M3 by lia. apply Hlf2. }
  rewrite E4 in E. apply bind_Ret in E as (a & Ea & E). injection Ea as <-. cbv beta iota in E. destruct R4 as [->|(-> & M4 & _)].
  { rewrite (proj2 (Z.ltb_lt (-1) 0) ltac:(lia)) in E. apply bind_Ret in E as (a & _ & E). apply bind_Ret in E as (a' & _ & E). injection E as <- _. by destruct Hne. }
  rewrite Z.ltb_irrefl in E. injection E as <- <-.
  apply tmap_of_leaf; [apply G4| |exact K1|lia|exact Kb|exact Htf| |exact M4].
  - by apply (gr_upper _ _ _ _ _ _ G4), (gr_upper _ _ _ _ _ _ G3).
  - intros (path & Hq & Ht). destruct (gr_tables _ _ _ _ _ _ G4 path tf Hq Ht) as [Ht3|Hin].
    + destruct (gr_tables _ _ _ _ _ _ G3 path tf Hq Ht3) as [Ht2|Hin].
      * destruct path as [|i path]; [by injection Ht2|]. destruct (path_ok_index [] i path Hq) as [Hi _].
        rewrite table_at_cons, Hz2 in Ht2 by lia. discriminate Ht2.
      * apply Htl. rewrite (gr_split _ _ _ _ _ _ G3). by apply elem_of_app; left.
    + apply Htl. rewrite (gr_split _ _ _ _ _ _ G3), (gr_split _ _ _ _ _ _ G4). apply elem_of_app. right. by apply elem_of_app; left.
Qed.

End PageTable.

Section Cycle.
Context {T D : Type} (usertrap_addr uservec_off userret_off : Z).

(** All of [usertrapret]: the trap vector and interrupts before, the registers
    for [sret] after, and the call of [userret]. *)
Definition to_user (h : regfile) (w : world T D) : outcome (regfile * world T D) :=
  let h := w_stvec (TRAMPOLINE + uservec_off) (intr_off h) in
  '(res, w) ← Trap.usertrapret usertrap_addr (csr_of h) w;
  let h := w_sepc (Trap.r_sepc res) (w_sstatus (Trap.r_sstatus res) h) in
  Ret (<[pc := u64 (TRAMPOLINE + userret_off)]> (<[a0 := TRAPFRAME]> (<[a1 := Trap.r_satp res]> h)), w).

(** The kernel part of the trap frame. *)
Definition kernel_fields (m : gmap Z Z) (p : proc) (satp hart : Z) : gmap Z Z :=
  tf_store (tf_store (tf_store (tf_store m p TF_kernel_satp satp) p TF_kernel_sp (u64 (p_kstack p + PGSIZE)))
    p TF_kernel_trap usertrap_addr) p TF_kernel_hartid hart.

Lemma usertrapret_spec c (w : world T D) : let p := proc_at w (w_cur w) in let m := k_mem (w_k w) in
  exists w', Trap.usertrapret usertrap_addr c w
    = Ret (MkResume (tf_load m p TF_epc) (Z.lor (Z.land (c_sstatus c) (u64 (Z.lnot SSTATUS_SPP))) SSTATUS_SPIE) (MAKE_SATP (p_pagetable p)), w')
    /\ k_mem (w_k w') = kernel_fields m p (c_satp c) (c_hartid c).
Proof.
  intros p m.
  assert (E : tf_load (kernel_fields m p (c_satp c) (c_hartid c)) p TF_epc = tf_load m p TF_epc).
  { unfold kernel_fields, tf_load, tf_store, TF_epc, TF_kernel_satp, TF_kernel_sp, TF_kernel_trap, TF_kernel_hartid.
    by rewrite !load64_store64_ne by lia. }
  rewrite <- E. set (put := fun off v (w : world T D) => set_k (set_mem (w_k w) (tf_store (k_mem (w_k w)) p off v)) w).
  exists (put TF_kernel_hartid (c_hartid c) (put TF_kernel_trap usertrap_addr (put TF_kernel_sp (u64 (p_kstack p + PGSIZE)) (put TF_kernel_satp (c_satp c) w)))).
  split; reflexivity.
Qed.

Lemma kernel_fields_off m p satp hart : same_off (kernel_fields m p satp hart) m (p_trapframe p) 40.
Proof.
  unfold kernel_fields, tf_store, TF_kernel_satp, TF_kernel_sp, TF_kernel_trap, TF_kernel_hartid. intros b Hb.
  rewrite !store64_off by lia. done.
Qed.

Lemma kernel_fields_load m p satp hart : 0 <= satp < 2 ^ 64 -> 0 <= hart < 2 ^ 64 -> 0 <= usertrap_addr < 2 ^ 64 ->
  let m' := kernel_fields m p satp hart in let tf := p_trapframe p in
  load64 m' tf = satp /\ load64 m' (tf + 8) = u64 (p_kstack p + PGSIZE) /\ load64 m' (tf + 16) = usertrap_addr /\ load64 m' (tf + 32) = hart.
Proof.
  intros H1 H2 H3 m' tf. unfold m', kernel_fields, tf_store, TF_kernel_satp, TF_kernel_sp, TF_kernel_trap, TF_kernel_hartid. fold tf.
  split; [|split; [|split]].
  - rewrite !load64_store64_ne by lia. rewrite Z.add_0_r. by apply load64_store64.
  - rewrite !load64_store64_ne by lia. apply load64_store64, u64_range.
  - rewrite load64_store64_ne by lia. by apply load64_store64.
  - by apply load64_store64.
Qed.

(** The bits of [sstatus] that [usertrapret] writes. *)
Lemma to_user_status h : let x := Z.lor (Z.land (r_sstatus h) (u64 (Z.lnot SSTATUS_SPP))) SSTATUS_SPIE in
  Z.testbit (w_sstatus x h mstatus) 8 = false /\ Z.testbit (w_sstatus x h mstatus) 5 = true.
Proof.
  cbv zeta. rewrite !HartSpec.sstatus_write by lia. change (Z.testbit sstatus_mask 8) with true. change (Z.testbit sstatus_mask 5) with true. cbv iota.
  rewrite !Z.lor_spec, !Z.land_spec, HartSpec.u64_bit, Z.lnot_spec by lia. unfold SSTATUS_SPP, SSTATUS_SPIE. rewrite !HartSpec.bit_one by lia.
  split; [by rewrite andb_false_r|apply orb_true_r].
Qed.

(** What user code can do between two traps: it changes its registers and [pc],
    and no memory of the first 40 bytes of its trap frame or of the tables that
    map it. *)
Record user_ran (root tf : Z) (h : regfile) (m : gmap Z Z) (h' : regfile) (m' : gmap Z Z) : Prop := MkUserRan {
  ur_regs : forall r, r ∉ user_slots.*1 -> r <> pc -> h' r = h r;
  ur_range : in_range h';
  ur_frame : same_on m' m tf 40;
  ur_tables : exists q1 q0, tmap m' root TRAPFRAME tf q1 q0
}.

Lemma to_user_range x y z root h : in_range h -> 0 <= root < 2 ^ 56 -> root mod PGSIZE = 0 ->
  in_range (<[pc := u64 (TRAMPOLINE + userret_off)]> (<[a0 := TRAPFRAME]> (<[a1 := MAKE_SATP root]> (w_sepc x (w_sstatus y (w_stvec z (intr_off h))))))).
Proof.
  intros Hr H1 H2. destruct (satp_fields root H1 H2) as (_ & _ & Hs). unfold intr_off, w_sepc, w_sstatus, w_stvec, Hart.w.
  repeat (apply insert_range; [done || apply u64_range|]). done.
Qed.

Lemma to_user_spec h (w : world T D) r1 r0 : let p := proc_at w (w_cur w) in let tf := p_trapframe p in let m := k_mem (w_k w) in
  tmap m (p_pagetable p) TRAPFRAME tf r1 r0 -> h mode = MODE_S -> in_range h ->
  exists h1 w1 h2, to_user h w = Ret (h1, w1) /\ exec userret (h1, k_mem (w_k w1)) = Some (h2, k_mem (w_k w1))
    /\ k_mem (w_k w1) = kernel_fields m p (h satp) (h tp) /\ in_range h2
    /\ h2 mode = MODE_U /\ h2 pc = load64 m (tf + 24) /\ Z.testbit (h2 mstatus) 1 = true
    /\ h2 satp = MAKE_SATP (p_pagetable p) /\ h2 sscratch = TRAPFRAME /\ h2 stvec = u64 (TRAMPOLINE + uservec_off)
    /\ forall r o, (r, o) ∈ user_slots -> h2 r = load64 m (tf + o).
Proof.
  intros p tf m Tm Em Hr. unfold to_user. set (h0 := w_stvec (TRAMPOLINE + uservec_off) (intr_off h)).
  destruct (usertrapret_spec (csr_of h0) w) as (w1 & -> & Emem). fold p m in Emem. fold p m. cbn [mbind outcome_bind].
  cbn [Trap.r_sepc Trap.r_sstatus Trap.r_satp]. set (h1 := <[pc := _]> _).
  assert (T1 : tmap (k_mem (w_k w1)) (p_pagetable p) TRAPFRAME tf r1 r0).
  { rewrite Emem. eapply tmap_same; [|apply kernel_fields_off|exact Tm]. unfold PGSIZE. lia. }
  destruct (userret_spec h1 _ (p_pagetable p) tf r1 r0 T1) as (h' & E & G & Gs & Gp & Gk); [done|done|done|].
  exists h1, w1, (sret h'). split; [reflexivity|]. split; [exact E|]. split; [rewrite Emem; done|].
  split; [eapply exec_range, E; apply to_user_range; [done|apply Tm..]|].
  assert (Hst : h' mstatus = w_sstatus (Z.lor (Z.land (r_sstatus h0) (u64 (Z.lnot SSTATUS_SPP))) SSTATUS_SPIE) h0 mstatus).
  { rewrite Gk by (done || nodup_tac). unfold h1, w_sepc, Hart.w. by regs. }
  destruct (to_user_status h0) as [B8 B5]. cbv zeta in B8, B5.
  split; [by rewrite sret_mode, Hst, B8|]. split; [|split; [|split; [|split; [|split]]]].
  - unfold sret. cbv zeta. regs. rewrite Gk by (done || nodup_tac). unfold h1, w_sepc, Hart.w. regs.
    unfold tf_load, TF_epc. apply u64_small, load64_range.
  - rewrite sret_bits by lia. cbn [Z.eqb Pos.eqb]. by rewrite Hst.
  - by rewrite sret_other.
  - by rewrite sret_other.
  - rewrite sret_other, Gk by (done || nodup_tac). done.
  - intros r o Hin. pose proof (user_general r o Hin) as Hg. rewrite !not_elem_of_cons in Hg. rewrite sret_other by tauto.
    rewrite (G r o Hin), Emem. apply (load64_same_off _ _ _ _ _ (kernel_fields_off m p _ _)). apply user_slot_off in Hin. lia.
Qed.

(** (C8) [usertrapret] and the trampoline fit together.  For a process whose page
    table maps its trap frame, [usertrapret] and [userret] put the hart into user
    mode at the saved program counter with the registers of the frame and
    interrupts on; and after any user code, the next trap goes through [uservec]
    into [usertrap], in supervisor mode with interrupts off, on the kernel stack
    of the process, with the kernel page table and the hart number the kernel had,
    and with the registers of the user code in the frame. *)
Theorem trap_cycle h (w : world T D) r1 r0 cause tval : let p := proc_at w (w_cur w) in let tf := p_trapframe p in
  let m := k_mem (w_k w) in
  tmap m (p_pagetable p) TRAPFRAME tf r1 r0 -> h mode = MODE_S -> in_range h -> 0 <= usertrap_addr < 2 ^ 64 ->
  0 <= cause < 2 ^ 64 -> 0 <= tval < 2 ^ 64 ->
  exists h1 w1 h2 m1, to_user h w = Ret (h1, w1) /\ m1 = k_mem (w_k w1) /\ exec userret (h1, m1) = Some (h2, m1)
    /\ in_range h2 /\ h2 mode = MODE_U /\ h2 pc = load64 m (tf + TF_epc) /\ Z.testbit (h2 mstatus) 1 = true
    /\ (forall r o, (r, o) ∈ user_slots -> h2 r = load64 m (tf + o))
    /\ forall h3 m3, user_ran (p_pagetable p) tf h2 m1 h3 m3 ->
       strap cause tval h3 pc = u64 (TRAMPOLINE + uservec_off)
       /\ exists h4 m4, exec uservec (strap cause tval h3, m3) = Some (h4, m4)
         /\ h4 pc = usertrap_addr /\ h4 sp = u64 (p_kstack p + PGSIZE) /\ h4 tp = h tp /\ h4 satp = h satp
         /\ h4 mode = MODE_S /\ h4 sepc = h3 pc /\ Z.testbit (h4 mstatus) 1 = false
         /\ forall r o, (r, o) ∈ user_slots -> load64 m4 (tf + o) = h3 r.
Proof.
  intros p tf m Tm Em Hr Hu Hc Hv.
  destruct (to_user_spec h w r1 r0 Tm Em Hr) as (h1 & w1 & h2 & E1 & E2 & Ek & R2 & M2 & P2 & I2 & S2 & C2 & V2 & G2). fold p m in Ek, S2, P2, G2. fold tf in P2, G2.
  exists h1, w1, h2, (k_mem (w_k w1)). do 8 (split; [done|]). intros h3 m3 [U1 U2 U3 (q1 & q0 & U4)].
  split; [unfold strap; cbv zeta; rewrite fn_lookup_insert, U1 by (nodup_tac || done); exact V2|].
  destruct (uservec_spec (strap cause tval h3) m3 (p_pagetable p) tf q1 q0 U4) as (h4 & m4 & E4 & [A1 _ A3 A4 A5 A6 A7]);
    [done|rewrite strap_other, U1 by (nodup_tac || done); done|rewrite strap_other, U1 by (nodup_tac || done); done|by apply strap_range|].
  exists h4, m4. split; [exact E4|].
  assert (L : forall o, 0 <= o -> o + 8 <= 40 -> load64 m3 (tf + o) = load64 (kernel_fields m p (h satp) (h tp)) (tf + o)).
  { intros o H1 H2. rewrite <- Ek. apply load64_same. intros b Hb. apply U3. lia. }
  destruct (kernel_fields_load m p (h satp) (h tp) (Hr satp) (Hr tp) Hu) as (F1 & F2 & F3 & F4). fold tf in F1, F2, F3, F4.
  split; [by rewrite A3, L|]. split; [by rewrite A4, L|]. split; [by rewrite A5, L|].
  split; [rewrite A6, <- (Z.add_0_r tf), L by lia; by rewrite Z.add_0_r|].
  split; [by rewrite A7 by nodup_tac|]. split; [by rewrite A7 by nodup_tac|]. split.
  - rewrite A7 by nodup_tac. rewrite strap_bits; [done| |lia]. rewrite U1, M2 by (nodup_tac || done). unfold MODE_U. lia.
  - intros r o Hin. rewrite (A1 r o Hin). apply strap_other. apply user_general in Hin. rewrite !not_elem_of_cons in *. tauto.
Qed.

End Cycle.

Definition demo_w : world (Log.log * Bio.bst) unit :=
  set_k (MkKst demo_pt 0 ∅) (set_procs {[ 0 := set_trapframe 16384 (set_pagetable 4096 proc0) ]} FileSpec.demo_world).
Definition demo_kern : regfile := <[satp := MAKE_SATP 20480]> (<[mode := MODE_S]> (fun _ => 1)).

Lemma demo_after : tmap (match to_user 3 0 64 demo_kern demo_w with Ret (_, w) => k_mem (w_k w) | _ => ∅ end) 4096 TRAPFRAME 16384 8192 12288.
Proof. split; try (vm_compute; repeat split; congruence). Qed.

Lemma trap_cycle_witness : exists h1 w1 h2 m1, to_user 3 0 64 demo_kern demo_w = Ret (h1, w1) /\ exec userret (h1, m1) = Some (h2, m1)
  /\ exists h4 m4, exec uservec (strap 8 0 h2, m1) = Some (h4, m4) /\ h4 pc = 3 /\ h4 tp = 1.
Proof.
  destruct (trap_cycle 3 0 64 demo_kern demo_w 8192 12288 8 0) as (h1 & w1 & h2 & m1 & E1 & Em & E2 & R2 & _ & _ & _ & _ & K).
  - apply demo_tmap.
  - reflexivity.
  - intros r. destruct r; vm_compute; split; congruence.
  - lia.
  - lia.
  - lia.
  - exists h1, w1, h2, m1. split; [exact E1|]. split; [exact E2|].
    destruct (K h2 m1) as (_ & h4 & m4 & E4 & P4 & _ & T4 & _).
    + split; [reflexivity|exact R2|intros b Hb; reflexivity|]. exists 8192, 12288. rewrite Em. pose proof demo_after as H. rewrite E1 in H. exact H.
    + exists h4, m4. split; [exact E4|]. split; [exact P4|exact T4].
Defined.

End TrapCycle.
