(* ===== verification/Initcode.v ===== *)
(** * The first user program (user/initcode.S, as bytes in kernel/proc.c)

    [userinit] copies the bytes of [initcode] to the first page of the first
    process, whose other bytes are zero.  Here they are decoded as RISC-V
    instructions and run: they call [exec] with the path /init and the argument
    vector of initcode.S, and, if that ever returns, call [exit] for ever. *)

From S2P Require Import Prelude Riscv Hart Asm AsmSpec Proc.
From Stdlib Require Import ZArith Lia.
From stdpp Require Import base numbers gmap strings functions list sets.

#[local] Open Scope Z_scope.

Import Hart AsmSpec.

Module Initcode.

(** The first page: [uvminit] clears it and copies the bytes. *)
Definition byte (a : Z) : Z := nth (Z.to_nat a) Proc.initcode 0.
Definition le (n : nat) (a : Z) : Z := foldr (fun i acc => byte (a + Z.of_nat i) + 256 * acc) 0 (seq 0 n).

(** ** Instructions *)

Inductive instr : Type :=
| Auipc (rd imm : Z)
| Addi (rd rs imm : Z)
| Jal (rd off : Z)
| Ecall.

Definition field (x lo n : Z) : Z := Z.shiftr x lo mod 2 ^ n.
(** Sign extension of [n] bits. *)
Definition signed (n x : Z) : Z := if Z.testbit x (n - 1) then x - 2 ^ n else x.

Definition decode (x : Z) : option instr :=
  let rd := field x 7 5 in
  match field x 0 7 with
  | 0x17 => Some (Auipc rd (signed 32 (Z.shiftl (field x 12 20) 12)))
  | 0x13 => if field x 12 3 =? 0 then Some (Addi rd (field x 15 5) (signed 12 (field x 20 12))) else None
  | 0x6f =>
      let off := Z.shiftl (field x 31 1) 20 + Z.shiftl (field x 12 8) 12 + Z.shiftl (field x 20 1) 11 + Z.shiftl (field x 21 10) 1 in
      Some (Jal rd (signed 21 off))
  | 0x73 => if field x 7 25 =? 0 then Some Ecall else None
  | _ => None
  end.

(** The registers the program uses; x0 is always zero. *)
Definition regname (n : Z) : option reg :=
  match n with 1 => Some ra | 10 => Some a0 | 11 => Some a1 | 17 => Some a7 | _ => None end.
Definition rd_reg (h : regfile) (n : Z) : option Z := if n =? 0 then Some 0 else (r ← regname n; Some (h r)).
Definition wr_reg (n v : Z) (h : regfile) : option regfile := if n =? 0 then Some h else (r ← regname n; Some (<[r := u64 v]> h)).

(** One instruction at [pc]; [ecall] is left to the kernel. *)
Definition step (h : regfile) : option (instr * regfile) :=
  i ← decode (le 4 (h pc));
  let next := <[pc := u64 (h pc + 4)]> in
  match i with
  | Auipc rd imm => h' ← wr_reg rd (h pc + imm) h; Some (i, next h')
  | Addi rd rs imm => v ← rd_reg h rs; h' ← wr_reg rd (v + imm) h; Some (i, next h')
  | Jal rd off => h' ← wr_reg rd (h pc + 4) h; Some (i, <[pc := u64 (h pc + off)]> h')
  | Ecall => Some (i, next h)
  end.

(** Run to the next system call: the registers at it. *)
Fixpoint to_ecall (fuel : nat) (h : regfile) : option regfile :=
  match fuel with
  | O => None
  | S fuel =>
      '(i, h) ← step h;
      match i with Ecall => Some h | _ => to_ecall fuel h end
  end.

(** The kernel returns [r] from a system call. *)
Definition sysret (r : Z) (h : regfile) : regfile := <[a0 := r]> h.

(** The system calls of a run, with their first two arguments, when the kernel
    answers [rs]. *)
Fixpoint calls (h : regfile) (rs : list Z) : option (list (Z * Z * Z)) :=
  h ← to_ecall 6 h;
  match rs with
  | [] => Some [(h a7, h a0, h a1)]
  | r :: rs => l ← calls (sysret r h) rs; Some ((h a7, h a0, h a1) :: l)
  end.

(** The C string [s] is at [a]. *)
Definition cstring (a : Z) (s : list Z) : Prop :=
  (forall i, 0 <= i < Z.of_nat (length s) -> byte (a + i) = nth (Z.to_nat i) s 0) /\ byte (a + Z.of_nat (length s)) = 0.
Definition str_init : list Z := [47; 105; 110; 105; 116].

(** After an [exit] that returns, the program calls [exit] again. *)
Lemma exit_again h : h pc = 32 -> exists h', to_ecall 6 h = Some h' /\ h' a7 = 2 /\ h' a0 = h a0 /\ h' a1 = h a1 /\ h' pc = 32.
Proof.
  intros E. cbn [to_ecall]. unfold step. rewrite E. change (decode (le 4 32)) with (Some (Jal 1 (-8))). cbn [mbind option_bind wr_reg regname Z.eqb Pos.eqb].
  regs. change (u64 (32 + -8)) with 24. change (decode (le 4 24)) with (Some (Addi 17 0 2)). cbn [mbind option_bind rd_reg wr_reg regname Z.eqb].
  regs. change (decode (le 4 (u64 (24 + 4)))) with (Some Ecall). cbn [mbind option_bind]. eexists. split; [reflexivity|]. by regs.
Qed.

Lemma calls_exit rs h : h pc = 32 -> exists l, calls h rs = Some l /\ Forall (fun c => c.1.1 = 2) l.
Proof.
  revert h. induction rs as [|r rs IH]; intros h E; destruct (exit_again h E) as (h' & E' & A & _ & _ & P); cbn [calls]; rewrite E'; cbn [mbind option_bind].
  - eexists. split; [reflexivity|]. by repeat constructor.
  - destruct (IH (sysret r h')) as (l & El & Hl); [unfold sysret; by regs|]. rewrite El. cbn [mbind option_bind]. eexists. split; [reflexivity|].
    by constructor.
Qed.

(** The program starts at 0. *)
Lemma exec_call h : h pc = 0 -> exists h', to_ecall 6 h = Some h' /\ h' a7 = 7 /\ h' a0 = 36 /\ h' a1 = 43 /\ h' pc = 24.
Proof.
  intros E. cbn [to_ecall]. unfold step. rewrite E. change (decode (le 4 0)) with (Some (Auipc 10 0)). cbn [mbind option_bind wr_reg regname Z.eqb Pos.eqb].
  regs. change (u64 (0 + 4)) with 4. change (decode (le 4 4)) with (Some (Addi 10 10 36)). cbn [mbind option_bind rd_reg wr_reg regname Z.eqb].
  regs. change (u64 (4 + 4)) with 8. change (decode (le 4 8)) with (Some (Auipc 11 0)). cbn [mbind option_bind wr_reg regname Z.eqb Pos.eqb].
  regs. change (u64 (8 + 4)) with 12. change (decode (le 4 12)) with (Some (Addi 11 11 35)). cbn [mbind option_bind rd_reg wr_reg regname Z.eqb].
  regs. change (u64 (12 + 4)) with 16. change (decode (le 4 16)) with (Some (Addi 17 0 7)). cbn [mbind option_bind rd_reg wr_reg regname Z.eqb].
  regs. change (u64 (16 + 4)) with 20. change (decode (le 4 20)) with (Some Ecall). cbn [mbind option_bind]. eexists. split; [reflexivity|]. regs. done.
Qed.

Lemma exit_call h : h pc = 24 -> exists h', to_ecall 6 h = Some h' /\ h' a7 = 2 /\ h' pc = 32.
Proof.
  intros E. cbn [to_ecall]. unfold step. rewrite E. change (decode (le 4 24)) with (Some (Addi 17 0 2)). cbn [mbind option_bind rd_reg wr_reg regname Z.eqb].
  regs. change (decode (le 4 (u64 (24 + 4)))) with (Some Ecall). cbn [mbind option_bind]. eexists. split; [reflexivity|]. by regs.
Qed.

(** The first process becomes /init.  From any registers at address 0 and
    whatever the kernel answers, the first system call of the program is
    exec("/init", argv) with argv[0] the path and argv[1] null, and every
    later one is [exit]. *)
Theorem initcode_execs_init h rs : h pc = 0 ->
  exists l, calls h rs = Some ((7, 36, 43) :: l) /\ Forall (fun c => c.1.1 = 2) l
    /\ cstring 36 str_init /\ le 8 43 = 36 /\ le 8 (43 + 8) = 0.
Proof.
  intros E. destruct (exec_call h E) as (h' & E' & A7 & A0 & A1 & P). 
  assert (Hs : cstring 36 str_init /\ le 8 43 = 36 /\ le 8 (43 + 8) = 0).
  { split; [|split; reflexivity]. split; [|reflexivity]. intros i Hi. cbn in Hi.
    assert (i = 0 \/ i = 1 \/ i = 2 \/ i = 3 \/ i = 4) as [->|[->|[->|[->| ->]]]] by lia; reflexivity. }
  destruct rs as [|r rs]; cbn [calls]; rewrite E'; cbn [mbind option_bind]; rewrite A7, A0, A1.
  - exists []. split; [reflexivity|]. split; [constructor|exact Hs].
  - assert (exists l, calls (sysret r h') rs = Some l /\ Forall (fun c => c.1.1 = 2) l) as (l & El & Hl).
    { destruct (exit_call (sysret r h')) as (h2 & E2 & B7 & P2); [unfold sysret; by regs|].
      destruct rs as [|r2 rs]; cbn [calls]; rewrite E2; cbn [mbind option_bind]; [eexists; split; [reflexivity|by repeat constructor]|].
      destruct (calls_exit rs (sysret r2 h2)) as (l & El & Hl); [unfold sysret; by regs|]. rewrite El. cbn [mbind option_bind].
      eexists. split; [reflexivity|by constructor]. }
    rewrite El. cbn [mbind option_bind]. exists l. split; [reflexivity|]. split; [exact Hl|exact Hs].
Qed.

Lemma initcode_execs_init_witness : exists l, calls (fun _ => 0) [-1; 5] = Some ((7, 36, 43) :: l) /\ Forall (fun c => c.1.1 = 2) l.
Proof.
  destruct (initcode_execs_init (fun _ => 0) [-1; 5]) as (l & E & H & _).
  - reflexivity.
  - exists l. split; [exact E|exact H].
Defined.

End Initcode.
