(* ===== verification/Debug.v ===== *)
(** * What the kernel prints about itself

    The trace of system calls (kernel/syscall.c), the listing of a page table
    (kernel/vm.c), of the processes (kernel/proc.c) and of the stack
    (kernel/printf.c), as the bytes passed to the console. *)

From S2P Require Import Prelude Riscv KString Kalloc ProcDefs World Syscall Printf.
From Stdlib Require Import ZArith Lia Ascii String.
From stdpp Require Import base numbers gmap strings list sets.

#[local] Open Scope Z_scope.

Module Debug.

(** The bytes of a literal; [nl] ends a line. *)
Definition lit (s : string) : list Z := (fun a => Z.of_N (N_of_ascii a)) <$> list_ascii_of_string s.
Definition nl : list Z := [10].
Definition dec (a : Z) : outcome (list Z) := Printf.printint (s32 a) 10 1.
Definition hex (a : Z) : outcome (list Z) := Printf.printint (s32 a) 16 1.

(** ** The trace of system calls *)

Definition syscalls_name : list (list Z) := lit <$>
  [""; "fork"; "exit"; "wait"; "pipe"; "read"; "kill"; "exec"; "fstat"; "chdir"; "dup"; "getpid"; "sbrk"; "sleep"; "uptime"; "open";
   "write"; "mknod"; "unlink"; "link"; "mkdir"; "close"; "strace"; "sysinfo"; "symlink"; "vmprint"; "sigalarm"; "sigreturn"]%string.

(** The arguments of call [num], of which [a0], [a1] and [a2] are the first. *)
Definition sysprint (num a0 a1 a2 : Z) : outcome (list Z) :=
  body ←
    (if bool_decide (num ∈ [SYS_fork; SYS_exit; SYS_dup; SYS_sbrk; SYS_sleep; SYS_close; SYS_strace; SYS_kill]) then dec a0
     else if bool_decide (num ∈ [SYS_read; SYS_write]) then
       x ← dec a0; y ← hex a1; z ← dec a2; Ret (x ++ lit ", 0x" ++ y ++ lit ", " ++ z)
     else if bool_decide (num ∈ [SYS_exec; SYS_link; SYS_symlink]) then
       x ← hex a0; y ← hex a1; Ret (lit "0x" ++ x ++ lit ", 0x" ++ y)
     else if bool_decide (num ∈ [SYS_wait; SYS_pipe; SYS_chdir; SYS_unlink; SYS_mkdir; SYS_sysinfo]) then
       x ← hex a0; Ret (lit "0x" ++ x)
     else if bool_decide (num ∈ [SYS_fstat; SYS_sigalarm]) then
       x ← dec a0; y ← hex a1; Ret (x ++ lit ", 0x" ++ y)
     else if num =? SYS_mknod then
       x ← hex a0; y ← dec a1; z ← dec a2; Ret (lit "0x" ++ x ++ lit ", " ++ y ++ lit ", " ++ z)
     else if num =? SYS_open then
       x ← hex a0; y ← dec a1; Ret (lit "0x" ++ x ++ lit ", " ++ y)
     else Ret []);
  Ret (lit "(" ++ body ++ lit "): ").

(** [p->mask & (1 << num)]. *)
Definition traced (p : proc) (num : Z) : bool := nz (Z.land (p_mask p) (Z.shiftl 1 num)).

(** What [syscall] prints before the call. *)
Definition trace_enter (p : proc) (num a0 a1 a2 : Z) : outcome (list Z) :=
  if traced p num then
    pid ← dec (p_pid p);
    args ← (if num =? SYS_exit then Ret nl else sysprint num a0 a1 a2);
    Ret (pid ++ lit ": syscall " ++ nth (Z.to_nat num) syscalls_name [] ++ args)
  else Ret [].

(** And after it, with the result [r]. *)
Definition trace_leave (p : proc) (num r : Z) : outcome (list Z) :=
  if traced p num then x ← dec r; Ret (lit " -> " ++ x ++ nl) else Ret [].

(** ** Page tables *)

(** A line: the level, the index, the entry and the address in it. *)
Record line : Type := MkLine { ln_level : Z; ln_i : Z; ln_pte : Z; ln_child : Z }.

Definition indent (level : Z) : list Z :=
  if level =? 0 then lit ".." else if level =? 1 then lit ".. .." else if level =? 2 then lit ".. .. .." else [].

Definition print_line (l : line) : outcome (list Z) :=
  i ← dec (ln_i l);
  Ret (indent (ln_level l) ++ i ++ lit ": pte " ++ Printf.printptr (ln_pte l) ++ lit " pa " ++ Printf.printptr (ln_child l) ++ nl).

Definition leaf_bits : Z := Z.lor (Z.lor PTE_R PTE_W) PTE_X.

(** The lines [vmprint_rev] prints for the table at [pagetable]. *)
Fixpoint vmprint_rev (fuel : nat) (m : gmap Z Z) (pagetable level : Z) : outcome (list line) :=
  match fuel with
  | O => Fuel
  | S fuel =>
      (fix go (l : list Z) : outcome (list line) :=
         match l with
         | [] => Ret []
         | i :: l =>
             let pte := load64 m (pagetable + 8 * i) in
             let child := PTE2PA pte in
             here ←
               (if nz (Z.land pte PTE_V) then
                  sub ← (if Z.land pte leaf_bits =? 0 then vmprint_rev fuel m child (level + 1) else Ret []);
                  Ret (MkLine level i pte child :: sub)
                else Ret []);
             rest ← go l;
             Ret (here ++ rest)
         end) (seqZ 0 512)
  end.

Fixpoint print_lines (l : list line) : outcome (list Z) :=
  match l with
  | [] => Ret []
  | x :: l => a ← print_line x; b ← print_lines l; Ret (a ++ b)
  end.

Definition pgtblprint (m : gmap Z Z) (p : proc) : outcome (list Z) :=
  ls ← vmprint_rev 3 m (p_pagetable p) 0;
  body ← print_lines ls;
  Ret (lit "page table " ++ Printf.printptr (p_pagetable p) ++ nl ++ body).

(** ** Processes *)

Definition state_name (s : procstate) : list Z :=
  lit (match s with
       | UNUSED => "unused" | SLEEPING => "sleep " | RUNNABLE => "runble" | RUNNING => "run   " | ZOMBIE => "zombie"
       | USED => "???"
       end)%string.

(** The C string in [p->name]. *)
Fixpoint cname (l : list Z) : list Z := match l with [] => [] | c :: l => if c =? 0 then [] else c :: cname l end.

Fixpoint procdump_loop (l : list proc) : outcome (list Z) :=
  match l with
  | [] => Ret []
  | p :: l =>
      if bool_decide (p_state p = UNUSED) then procdump_loop l else
      pid ← dec (p_pid p);
      rest ← procdump_loop l;
      Ret (pid ++ lit " " ++ state_name (p_state p) ++ lit " " ++ cname (p_name p) ++ nl ++ rest)
  end.

Definition procdump (l : list proc) : outcome (list Z) := o ← procdump_loop l; Ret (nl ++ o).

(** ** The stack *)

(** The return addresses [backtrace] prints, from frame pointer [fp]. *)
Fixpoint backtrace_loop (fuel : nat) (m : gmap Z Z) (stack_base fp : Z) : outcome (list Z) :=
  if fp =? stack_base then Ret [] else
  match fuel with
  | O => Fuel
  | S fuel =>
      let ra := load64 m (fp - 8) in
      rest ← backtrace_loop fuel m stack_base (load64 m (fp - 16));
      Ret (ra :: rest)
  end.

Definition backtrace (fuel : nat) (m : gmap Z Z) (fp : Z) : outcome (list Z) := backtrace_loop fuel m (PGROUNDUP fp) fp.

(** ** What is printed *)

(** Every call has its own name. *)
Lemma syscalls_name_ok : List.length syscalls_name = 28%nat
  /\ (fun n => nth (Z.to_nat n) syscalls_name []) <$>
       [SYS_fork; SYS_exit; SYS_wait; SYS_read; SYS_exec; SYS_open; SYS_write; SYS_close; SYS_strace; SYS_sysinfo; SYS_symlink; SYS_vmprint; SYS_sigalarm; SYS_sigreturn]
     = lit <$> ["fork"; "exit"; "wait"; "read"; "exec"; "open"; "write"; "close"; "strace"; "sysinfo"; "symlink"; "vmprint"; "sigalarm"; "sigreturn"]%string.
Proof. split; reflexivity. Qed.

(** The entries below table [tbl] that are valid, and where they are. *)
Inductive listed (m : gmap Z Z) : Z -> Z -> line -> Prop :=
| li_here tbl level i : 0 <= i < 512 -> nz (Z.land (load64 m (tbl + 8 * i)) PTE_V) = true ->
    listed m tbl level (MkLine level i (load64 m (tbl + 8 * i)) (PTE2PA (load64 m (tbl + 8 * i))))
| li_below tbl level i l : 0 <= i < 512 -> nz (Z.land (load64 m (tbl + 8 * i)) PTE_V) = true -> Z.land (load64 m (tbl + 8 * i)) leaf_bits = 0 ->
    listed m (PTE2PA (load64 m (tbl + 8 * i))) (level + 1) l -> listed m tbl level l.

(** Tables of at most [n] levels. *)
Fixpoint levels (n : nat) (m : gmap Z Z) (tbl : Z) : Prop :=
  match n with
  | O => False
  | S n => forall i, 0 <= i < 512 -> let e := load64 m (tbl + 8 * i) in
      nz (Z.land e PTE_V) = true -> Z.land e leaf_bits = 0 -> levels n m (PTE2PA e)
  end.

(** The listing of a table of three levels ends, and lists exactly the valid
    entries of the table pages. *)
Lemma vmprint_lists n m tbl level : levels n m tbl -> exists ls, vmprint_rev n m tbl level = Ret ls /\ forall l, l ∈ ls <-> listed m tbl level l.
Proof.
  revert tbl level. induction n as [|n IH]; intros tbl level Hl; [done|]. cbn [vmprint_rev].
  set (go := fix go (l : list Z) : outcome (list line) := _).
  enough (Hgo : forall il, (forall i, i ∈ il -> 0 <= i < 512) -> exists ls, go il = Ret ls /\ forall l, l ∈ ls <-> exists i, i ∈ il /\
    nz (Z.land (load64 m (tbl + 8 * i)) PTE_V) = true /\ (l = MkLine level i (load64 m (tbl + 8 * i)) (PTE2PA (load64 m (tbl + 8 * i)))
      \/ Z.land (load64 m (tbl + 8 * i)) leaf_bits = 0 /\ listed m (PTE2PA (load64 m (tbl + 8 * i))) (level + 1) l)).
  { destruct (Hgo (seqZ 0 512)) as (ls & E & H); [intros i Hi; apply elem_of_seqZ in Hi; lia|]. exists ls. split; [exact E|]. intros l. rewrite H. split.
    - intros (i & Hi & V & [-> |[B L]]); apply elem_of_seqZ in Hi; [apply li_here; [lia|done]|eapply li_below; eauto; lia].
    - intros L. inversion L as [? ? i Hi V|? ? i ? Hi V B L']; subst; exists i; rewrite elem_of_seqZ; (split; [lia|]); auto. }
  intros il. induction il as [|i il IHi]; intros His.
  - exists []. split; [done|]. intros l. split; [intros Hx; by apply not_elem_of_nil in Hx|intros (i & Hi & _); by apply not_elem_of_nil in Hi].
  - destruct IHi as (ls & E & H); [intros j Hj; apply His; by right|]. cbn [go]. fold go. rewrite E. set (e := load64 m (tbl + 8 * i)).
    destruct (nz (Z.land e PTE_V)) eqn:V; cbn [mbind outcome_bind].
    + assert (exists sub, (if Z.land e leaf_bits =? 0 then vmprint_rev n m (PTE2PA e) (level + 1) else Ret []) = Ret sub
        /\ forall l, l ∈ sub <-> Z.land e leaf_bits = 0 /\ listed m (PTE2PA e) (level + 1) l) as (sub & -> & Hs).
      { destruct (Z.eqb_spec (Z.land e leaf_bits) 0) as [B|B].
        - destruct (IH (PTE2PA e) (level + 1)) as (sub & Es & Hs); [apply Hl; [apply His; left|done|done]|]. exists sub. split; [done|]. intros l. rewrite Hs. tauto.
        - exists []. split; [done|]. intros l. split; [intros Hx; by apply not_elem_of_nil in Hx|tauto]. }
      cbn [mbind outcome_bind]. eexists. split; [reflexivity|]. intros l. rewrite elem_of_app, elem_of_cons, Hs, H. split.
      * intros [[->|Hx]|(j & Hj & Hx)]; [exists i|exists i|exists j]; rewrite elem_of_cons; auto.
      * intros (j & [->|Hj]%elem_of_cons & V' & Hx); [left; exact Hx|right; by exists j].
    + exists ls. split; [done|]. intros l. rewrite H. split; intros (j & Hj & V' & Hx).
      * exists j. split; [by right|]. by split.
      * apply elem_of_cons in Hj as [->|Hj]; [fold e in V'; congruence|]. exists j. by split.
Qed.

(** A chain of frames that ends at the top of the stack page. *)
Fixpoint frames (m : gmap Z Z) (base fp : Z) (fs : list Z) : Prop :=
  match fs with
  | [] => fp = base
  | f :: fs => f = fp /\ fp <> base /\ frames m base (load64 m (fp - 16)) fs
  end.

(** [backtrace] prints the return address of every frame, innermost first. *)
Lemma backtrace_frames m fp fs : frames m (PGROUNDUP fp) fp fs ->
  backtrace (List.length fs) m fp = Ret ((fun f => load64 m (f - 8)) <$> fs).
Proof.
  unfold backtrace. generalize (PGROUNDUP fp). intros base. revert fp. induction fs as [|f fs IH]; intros fp H; cbn [backtrace_loop List.length].
  - cbn in H. subst. by rewrite Z.eqb_refl.
  - destruct H as (-> & Hne & H). rewrite (proj2 (Z.eqb_neq _ _) Hne), IH by done. done.
Qed.

End Debug.
