(* ===== verification/UserProgs.v ===== *)
(** * Small user programs (user/init.c, user/kill.c, user/ln.c, user/mkdir.c,
      user/rm.c, user/sleep.c, user/strace.c, user/sysinfo.c, user/zombie.c,
      user/ls.c)

    A program is run against the kernel: [sys] gives the result of a system
    call after the calls made so far.  The run is the list of calls, the
    formatted output among them ([Printf] and [Uprintf] say what bytes that
    is), and ends when the program calls [exit] or is replaced by [exec].
    Arguments are the byte strings of [argv]. *)

From S2P Require Import Prelude Riscv KString Ulib Block Fs.
From Stdlib Require Import ZArith Lia.
From stdpp Require Import base numbers strings list sets.

#[local] Open Scope Z_scope.

Module UserProgs.

Abbreviation str := (list Z).

Inductive arg : Type := AStr (s : str) | AInt (n : Z).

Inductive call : Type :=
| COpen (path : string) (omode : Z)
| CMknod (path : string) (major minor : Z)
| CDup (fd : Z)
| CFork
| CExec (path : str) (argv : list (option str))
| CWait
| CExit (n : Z)
| CPrintf (fd : Z) (fmt : string) (args : list arg)
| CKill (pid : Z)
| CLink (old new : str)
| CMkdir (path : str)
| CUnlink (path : str)
| CSleep (n : Z)
| CStrace (mask : Z)
| CSysinfo.

(** ** Runs *)

(** The result, or [None] after [exit], and the calls so far. *)
Definition M (A : Type) : Type := list call -> option A * list call.

#[global] Instance M_ret : MRet M := fun A x tr => (Some x, tr).
#[global] Instance M_bind : MBind M := fun A B f x tr =>
  match x tr with
  | (Some a, tr) => f a tr
  | (None, tr) => (None, tr)
  end.

Definition newline : string := String (Ascii.ascii_of_nat 10) EmptyString.

Section Progs.
Context (sys : list call -> call -> Z).

Definition do (c : call) : M Z := fun tr => (Some (sys tr c), tr ++ [c]).
Definition exit {A} (n : Z) : M A := fun tr => (None, tr ++ [CExit n]).
Definition print (fd : Z) (fmt : string) (args : list arg) : M unit := do (CPrintf fd fmt args);; mret tt.
(** A format that ends in a newline. *)
Definition println (fd : Z) (fmt : string) (args : list arg) : M unit := print fd (fmt +:+ newline) args.
(** An [exec] that does not fail does not return. *)
Definition exec (path : str) (argv : list (option str)) : M unit := fun tr =>
  let c := CExec path argv in if sys tr c <? 0 then (Some tt, tr ++ [c]) else (None, tr ++ [c]).

(** [atoi] of user/ulib.c on a string. *)
Fixpoint atoi_from (n : Z) (s : str) : Z :=
  match s with
  | [] => n
  | c :: s => if (48 <=? c) && (c <=? 57) then atoi_from (s32 (n * 10 + c - 48)) s else n
  end.
Definition atoi (s : str) : Z := atoi_from 0 s.

Definition argc (argv : list str) : Z := Z.of_nat (length argv).
Definition arg_at (argv : list str) (i : nat) : str := nth i argv [].

(** ** kill, ln, mkdir, rm, sleep *)

Fixpoint kill_loop (args : list str) : M unit :=
  match args with
  | [] => mret tt
  | a :: args => do (CKill (atoi a));; kill_loop args
  end.
Definition kill_main (argv : list str) : M unit :=
  if argc argv <? 2 then println 2 "usage: kill pid..." [];; exit 1 else
  kill_loop (tail argv);;
  exit 0.

Definition ln_main (argv : list str) : M unit :=
  if negb (argc argv =? 3) then println 2 "Usage: ln old new" [];; exit 1 else
  r ← do (CLink (arg_at argv 1) (arg_at argv 2));
  (if r <? 0 then println 2 "link %s %s: failed" [AStr (arg_at argv 1); AStr (arg_at argv 2)] else mret tt);;
  exit 0.

(** The loops of mkdir and rm stop at the first failure. *)
Fixpoint each_path (f : str -> call) (msg : string) (args : list str) : M unit :=
  match args with
  | [] => mret tt
  | a :: args =>
      r ← do (f a);
      if r <? 0 then println 2 msg [AStr a] else each_path f msg args
  end.
Definition mkdir_main (argv : list str) : M unit :=
  if argc argv <? 2 then println 2 "Usage: mkdir files..." [];; exit 1 else
  each_path CMkdir "mkdir: %s failed to create" (tail argv);;
  exit 0.
Definition rm_main (argv : list str) : M unit :=
  if argc argv <? 2 then println 2 "Usage: rm files..." [];; exit 1 else
  each_path CUnlink "rm: %s failed to delete" (tail argv);;
  exit 0.

Definition sleep_main (argv : list str) : M unit :=
  if argc argv <=? 1 then println 2 "missing agrument. Usage: sleep [ticks]" [];; exit 1
  else if 2 <? argc argv then println 2 "expected argument. Usage: sleep [ticks]" [];; exit 1
  else do (CSleep (atoi (arg_at argv 1)));; exit 0.

(** ** strace *)

(** [nargv] after the loop: entries the loop does not reach hold what was on the
    stack, [stack]. *)
Definition nargv (argv : list str) (stack : nat -> option str) : list (option str) :=
  (fun i => if (i + 2 <? length argv)%nat && (i + 2 <? Z.to_nat MAXARG)%nat then Some (arg_at argv (i + 2)) else stack i) <$> seq 0 (Z.to_nat MAXARG).

Definition strace_main (argv : list str) (stack : nat -> option str) : M unit :=
  let c := hd 0 (arg_at argv 1) in
  if (argc argv <? 3) || ((c <? 48) || (57 <? c)) then println 2 "Usage: %s mask command" [AStr (arg_at argv 0)];; exit 1 else
  r ← do (CStrace (atoi (arg_at argv 1)));
  if r <? 0 then println 2 "%s: strace failed" [AStr (arg_at argv 0)];; exit 1 else
  exec (arg_at argv 2) (nargv argv stack);;
  exit 0.

(** ** sysinfo, zombie *)

(** [freemem] and [nproc] are the fields the call fills in. *)
Definition sysinfo_main (freemem nproc : Z) : M unit :=
  r ← do CSysinfo;
  (if r <? 0 then print 1 "FAIL: sysinfo failed" [];; exit 1 else mret tt);;
  println 1 "Free memory: %d" [AInt freemem];;
  println 1 "Process count: %d" [AInt nproc];;
  exit 0.

Definition zombie_main : M unit :=
  pid ← do CFork;
  (if 0 <? pid then do (CSleep 5) else mret 0);;
  exit 0.

(** ** init *)

Definition str_sh : str := [115; 104].
Definition O_RDWR : Z := 2.
Definition CONSOLE : Z := 1.

Definition init_setup : M unit :=
  r ← do (COpen "console" O_RDWR);
  (if r <? 0 then do (CMknod "console" CONSOLE 0);; do (COpen "console" O_RDWR) else mret 0);;
  do (CDup 0);;
  do (CDup 0);;
  mret tt.

(** The inner loop, until [wait] returns [pid]. *)
Fixpoint init_wait (fuel : nat) (pid : Z) : M bool :=
  match fuel with
  | O => mret false
  | S fuel =>
      wpid ← do CWait;
      if wpid =? pid then mret true
      else if wpid <? 0 then println 1 "init: wait returned an error" [];; exit 1
      else init_wait fuel pid
  end.

(** The outer loop; [false] when the fuel is used up. *)
Fixpoint init_loop (fuel : nat) : M bool :=
  match fuel with
  | O => mret false
  | S fuel =>
      println 1 "[init] running shell" [];;
      pid ← do CFork;
      if pid <? 0 then println 1 "init: fork failed" [];; exit 1
      else if pid =? 0 then
        exec str_sh [Some str_sh; None];;
        println 1 "init: exec sh failed" [];;
        exit 1
      else
        b ← init_wait fuel pid;
        if (b : bool) then init_loop fuel else mret false
  end.

Definition init_main (fuel : nat) : M bool := init_setup;; init_loop fuel.

(** ** mkdir and rm *)

(** The paths up to and including the first one [f] fails on, from the calls
    [tr] on, and whether it fails on one. *)
Fixpoint tried (f : str -> call) (tr : list call) (args : list str) : list call * option str :=
  match args with
  | [] => ([], None)
  | a :: args =>
      if sys tr (f a) <? 0 then ([f a], Some a)
      else let '(l, r) := tried f (tr ++ [f a]) args in (f a :: l, r)
  end.

Lemma println_eq fd fmt args tr : println fd fmt args tr = (Some tt, tr ++ [CPrintf fd (fmt +:+ newline) args]).
Proof. reflexivity. Qed.

(** mkdir and rm try their arguments in order, stop at the first failure, report
    it, and exit with status 0 in every case. *)
Lemma each_path_spec f msg args tr : let '(l, r) := tried f tr args in
  each_path f msg args tr = (Some tt, tr ++ l ++ match r with Some a => [CPrintf 2 (msg +:+ newline) [AStr a]] | None => [] end).
Proof.
  revert tr. induction args as [|a args IH]; intros tr; cbn [tried each_path]; [by rewrite !app_nil_r|].
  unfold mbind, M_bind, do. destruct (sys tr (f a) <? 0).
  - rewrite println_eq. by rewrite <- app_assoc.
  - specialize (IH (tr ++ [f a])). destruct (tried f (tr ++ [f a]) args) as [l r]. rewrite IH. by rewrite <- app_assoc.
Qed.

Lemma rm_spec a args tr : let '(l, r) := tried CUnlink tr args in
  rm_main (a :: args) tr = if decide (args = []) then (None, tr ++ [CPrintf 2 ("Usage: rm files..." +:+ newline) []; CExit 1])
    else (None, tr ++ l ++ match r with Some x => [CPrintf 2 ("rm: %s failed to delete" +:+ newline) [AStr x]] | None => [] end ++ [CExit 0]).
Proof.
  pose proof (each_path_spec CUnlink "rm: %s failed to delete" args tr) as H. destruct (tried CUnlink tr args) as [l r]. unfold rm_main, argc.
  destruct args as [|b args]; [cbn [length tail]; change (Z.of_nat 1 <? 2) with true; cbv iota; unfold mbind, M_bind; rewrite println_eq; unfold exit; by rewrite <- app_assoc|]. cbn [length tail].
  rewrite (proj2 (Z.ltb_ge _ _)) by lia. unfold mbind, M_bind at 1. rewrite H. unfold exit. by rewrite <- !app_assoc.
Qed.

(** ** init *)

(** The shell init waits for after the calls [ext], [cur] being the one before
    them; [None] if it starts a second shell, waits for none, or exits. *)
Fixpoint scan (cur : option Z) (tr ext : list call) : option (option Z) :=
  match ext with
  | [] => Some cur
  | c :: ext =>
      match c, cur with
      | CFork, None => scan (Some (sys tr c)) (tr ++ [c]) ext
      | CWait, Some pid => scan (if sys tr c =? pid then None else Some pid) (tr ++ [c]) ext
      | CFork, Some _ | CWait, None | CExit _, _ => None
      | _, _ => scan cur (tr ++ [c]) ext
      end
  end.

Lemma scan_app cur tr e1 e2 : scan cur tr (e1 ++ e2) = c ← scan cur tr e1; scan c (tr ++ e1) e2.
Proof.
  revert cur tr. induction e1 as [|c e1 IH]; intros cur tr; cbn [scan app]; [by rewrite app_nil_r|].
  assert (E : forall x, (tr ++ [c]) ++ x = tr ++ c :: x) by (intros x; by rewrite <- app_assoc).
  destruct c, cur; try reflexivity; rewrite IH, E; reflexivity.
Qed.

Context (fork_ok : forall tr, 0 < sys tr CFork) (wait_ok : forall tr, 0 <= sys tr CWait).

Lemma init_wait_scan fuel pid tr : exists b ext, init_wait fuel pid tr = (Some b, tr ++ ext)
  /\ scan (Some pid) tr ext = Some (if (b : bool) then None else Some pid).
Proof using wait_ok.
  revert tr. induction fuel as [|fuel IH]; intros tr; cbn [init_wait].
  - exists false, []. split; [by rewrite app_nil_r|done].
  - unfold mbind, M_bind, do. destruct (sys tr CWait =? pid) eqn:E.
    + exists true, [CWait]. split; [done|]. cbn [scan]. by rewrite E.
    + rewrite (proj2 (Z.ltb_ge _ _)) by apply wait_ok. destruct (IH (tr ++ [CWait])) as (b & ext & -> & H).
      exists b, (CWait :: ext). split; [by rewrite <- app_assoc|]. cbn [scan]. by rewrite E.
Qed.

Lemma init_loop_scan fuel tr : exists b ext cur, init_loop fuel tr = (Some b, tr ++ ext) /\ scan None tr ext = Some cur.
Proof using fork_ok wait_ok.
  revert tr. induction fuel as [|fuel IH]; intros tr; cbn [init_loop].
  - exists false, [], None. split; [by rewrite app_nil_r|done].
  - unfold println, print, mbind, M_bind, do, mret, M_ret. set (p := CPrintf 1 _ []). set (tr1 := tr ++ [p]).
    pose proof (fork_ok tr1) as Hf. rewrite (proj2 (Z.ltb_ge _ _)), (proj2 (Z.eqb_neq _ _)) by lia.
    destruct (init_wait_scan fuel (sys tr1 CFork) (tr1 ++ [CFork])) as (b & ext & -> & H). destruct b.
    + destruct (IH ((tr1 ++ [CFork]) ++ ext)) as (b2 & ext2 & cur & -> & H2). exists b2, (p :: CFork :: ext ++ ext2), cur.
      split; [unfold tr1; by rewrite <- !app_assoc|]. cbn [scan]. fold tr1. rewrite scan_app, H. exact H2.
    + exists false, (p :: CFork :: ext), (Some (sys tr1 CFork)). split; [unfold tr1; by rewrite <- !app_assoc|]. cbn [scan]. exact H.
Qed.

End Progs.

(** [atoi] on byte strings is the routine of user/ulib.c. *)
Lemma atoi_agrees m s l : KString.cstr m s l -> Ulib.atoi (length l) m s = Ret (atoi l).
Proof.
  unfold Ulib.atoi, atoi. generalize 0. revert s. induction l as [|c l IH]; intros s n H; cbn [length Ulib.atoi_loop atoi_from].
  - apply KString.cstr_nil in H. by rewrite H.
  - apply KString.cstr_cons in H as (_ & -> & H). destruct ((48 <=? c) && (c <=? 57)); [by apply IH|done].
Qed.

(** init keeps one shell running.  As long as [fork] and [wait] do not fail,
    init never exits, never waits without a shell, and never starts a shell
    before [wait] has returned the one before; other children it is given are
    reaped on the way.  This holds after any number of steps. *)
Theorem init_one_shell sys fuel : (forall tr, 0 < sys tr CFork) -> (forall tr, 0 <= sys tr CWait) ->
  exists b ext cur, init_main sys fuel [] = (Some b, ext) /\ scan sys None [] ext = Some cur.
Proof.
  intros Hf Hw. unfold init_main, init_setup, mbind, M_bind, do, mret, M_ret. cbn [app].
  destruct (sys [] (COpen "console" O_RDWR) <? 0); cbn [app];
    (match goal with |- context [init_loop sys fuel ?t] => destruct (init_loop_scan sys Hf Hw fuel t) as (b & ext & cur & -> & H) end);
    (eexists b, _, cur; split; [reflexivity|]; rewrite scan_app; exact H).
Qed.

Lemma init_one_shell_witness : exists b ext cur,
  init_main (fun tr c => match c with CFork => 2 | CWait => Z.of_nat (length tr) mod 4 | _ => 0 end) 20 [] = (Some b, ext)
  /\ scan (fun tr c => match c with CFork => 2 | CWait => Z.of_nat (length tr) mod 4 | _ => 0 end) None [] ext = Some cur.
Proof.
  apply (init_one_shell (fun tr c => match c with CFork => 2 | CWait => Z.of_nat (length tr) mod 4 | _ => 0 end) 20).
  - intros tr. reflexivity.
  - intros tr. apply Z.mod_pos_bound. reflexivity.
Defined.

(** A failing [fork] ends init, which the kernel answers with a panic. *)
Lemma init_exits_without_fork sys fuel tr : sys (tr ++ [CPrintf 1 ("[init] running shell" +:+ newline) []]) CFork < 0 ->
  exists ext, init_loop sys (S fuel) tr = (None, tr ++ ext ++ [CExit 1]).
Proof.
  intros H. cbn [init_loop]. unfold println, print, mbind, M_bind, do, mret, M_ret. rewrite (proj2 (Z.ltb_lt _ _) H).
  unfold exit. eexists [_; _; _]. by rewrite <- !app_assoc.
Qed.

(** ** strace *)

(** The vector strace passes to [exec] ends only where the stack happens to hold
    a null pointer. *)
Lemma strace_nargv_unterminated argv stack : (forall i, stack i <> None) -> None ∉ nargv argv stack.
Proof.
  intros H Hin. apply list_elem_of_fmap in Hin as (i & E & _). destruct (_ && _); [done|]. by apply (H i).
Qed.

End UserProgs.

(** ** user/ls.c, and [stat] of user/ulib.c

    C strings are the lists of their bytes.  The kernel is given by what its
    calls return: [open_] the descriptor for a path, [fstat_] the status behind a
    descriptor, and [entries] the directory entries [read] delivers.  [ls] gives
    the formatted output it makes, line by line. *)

Module Ls.

Import UserProgs.

Definition SLASH : Z := 47.
Definition SPACE : Z := 32.

(** ** fmtname *)

(** The loop from [path + n] down: the index after the last slash at or before
    [n], or 0. *)
Fixpoint after_slash (n : nat) (path : list Z) : nat :=
  if nth n path 0 =? SLASH then S n
  else match n with O => O | S n => after_slash n path end.

Definition fmtname (path : list Z) : list Z :=
  let p := drop (after_slash (length path) path) path in
  if DIRSIZ <=? Z.of_nat (length p) then p
  else p ++ replicate (Z.to_nat (DIRSIZ - Z.of_nat (length p))) SPACE.

(** ** Output *)

Definition out : Type := Z * string * list arg.

Definition FILE : string := "FILE   ".
Definition DIR : string := "DIR    ".

Definition bytes (s : string) : list Z := (fun a => Z.of_N (Ascii.N_of_ascii a)) <$> String.list_ascii_of_string s.

Definition row (kind : string) (name : list Z) (st : stat) : out :=
  let args := [AStr name; AStr (bytes kind); AInt (st_ino st); AInt (st_size st)] in
  if st_ino st <? 10 then (1, "%s  %s %d    %l" +:+ newline, args) else (1, "%s  %s %d   %l" +:+ newline, args).

Definition lsfmtprint (buf : list Z) (st : stat) : list out :=
  if st_type st =? T_FILE then [row FILE (fmtname buf) st]
  else if st_type st =? T_DIR then [row DIR (fmtname buf) st]
  else [].

(** ** ls *)

Section Ls.
Context (open_ : list Z -> Z) (fstat_ : Z -> option stat).

(** [stat] opens the file, asks for its status and closes it. *)
Definition stat_ (path : list Z) : option stat :=
  let fd := open_ path in if fd <? 0 then None else fstat_ fd.

(** The C string in the 14 bytes of a name. *)
Fixpoint cname (l : list Z) : list Z := match l with [] => [] | c :: l => if c =? 0 then [] else c :: cname l end.

(** The loop over the entries, of which [inum] and [name] are given. *)
Fixpoint ls_entries (path : list Z) (entries : list (Z * list Z)) : list out :=
  match entries with
  | [] => []
  | (inum, name) :: entries =>
      (if inum =? 0 then []
       else
         let buf := path ++ [SLASH] ++ cname (take (Z.to_nat DIRSIZ) name) in
         match stat_ buf with
         | None => [(1, "ls: cannot stat %s" +:+ newline, [AStr buf])]
         | Some st => lsfmtprint buf st
         end) ++ ls_entries path entries
  end.

Definition rule : out := (1, "--------------- ------- ---- ------------" +:+ newline, []).
Definition header : list out :=
  [rule; (1, "%s %s %s %s" +:+ newline, [AStr (bytes "Name           "); AStr (bytes "Type   "); AStr (bytes "Ino "); AStr (bytes "Size (Bytes)")]); rule].

Definition ls (path : list Z) (entries : list (Z * list Z)) : list out :=
  let fd := open_ path in
  if fd <? 0 then [(2, "ls: cannot open %s" +:+ newline, [AStr path])] else
  match fstat_ fd with
  | None => [(2, "ls: cannot stat %s" +:+ newline, [AStr path])]
  | Some st =>
      header ++
      (if st_type st =? T_FILE then lsfmtprint path st
       else if st_type st =? T_DIR then
         if 512 <? Z.of_nat (length path) + 1 + DIRSIZ + 1 then [(1, "ls: path too long" +:+ newline, [])]
         else ls_entries path entries
       else [])
  end.

(** ** What is listed *)

Definition pad (name : list Z) : list Z := name ++ replicate (Z.to_nat DIRSIZ - length name) SPACE.

Lemma after_slash_none n path : (forall i, (i <= n)%nat -> nth i path 0 <> SLASH) -> after_slash n path = O.
Proof.
  induction n as [|n IH]; intros H; cbn [after_slash]; rewrite (proj2 (Z.eqb_neq _ _)) by (apply H; lia); [done|].
  apply IH. intros i Hi. apply H. lia.
Qed.

Lemma after_slash_at dir name : SLASH ∉ name -> after_slash (length (dir ++ SLASH :: name)) (dir ++ SLASH :: name) = S (length dir).
Proof.
  intros Hn. rewrite length_app. cbn [length]. replace (length dir + S (length name))%nat with (S (length name) + length dir)%nat by lia.
  assert (H : forall k, (k <= S (length name))%nat -> after_slash (k + length dir) (dir ++ SLASH :: name) = S (length dir)).
  { induction k as [|k IH]; intros Hk.
    - cbn [Nat.add]. destruct dir as [|c dir]; [done|]. cbn [length after_slash]. change ((c :: dir) ++ SLASH :: name) with (c :: (dir ++ SLASH :: name)).
      cbn [nth]. rewrite app_nth2, Nat.sub_diag by lia. done.
    - cbn [Nat.add after_slash]. rewrite app_nth2 by lia. replace (S (k + length dir) - length dir)%nat with (S k) by lia. cbn [nth].
      rewrite (proj2 (Z.eqb_neq _ _)); [apply IH; lia|]. intros E. destruct (decide (k < length name)%nat) as [Hlt|Hge].
      + apply Hn. rewrite <- E. apply list_elem_of_In, nth_In. done.
      + rewrite nth_overflow in E by lia. done. }
  by apply H.
Qed.

(** The name in the listing of a directory is the entry's own, padded. *)
Lemma fmtname_entry dir name : SLASH ∉ name -> (length name <= Z.to_nat DIRSIZ)%nat -> fmtname (dir ++ [SLASH] ++ name) = pad name.
Proof.
  intros Hn Hl. unfold fmtname. cbn [app]. rewrite after_slash_at by done.
  replace (drop (S (length dir)) (dir ++ SLASH :: name)) with name.
  2: { replace (S (length dir)) with (length dir + 1)%nat by lia. rewrite <- drop_drop, drop_app_length. done. }
  unfold pad, DIRSIZ in *. destruct (Z.leb_spec 14 (Z.of_nat (length name))).
  - replace (Z.to_nat 14 - length name)%nat with O by lia. cbn [replicate]. by rewrite app_nil_r.
  - do 2 f_equal. lia.
Qed.

Lemma cname_length l : (length (cname l) <= length l)%nat.
Proof. induction l as [|c l IH]; cbn; [lia|]. destruct (c =? 0); cbn; lia. Qed.

(** The rows of a directory: for each entry in use, in order, its padded name with
    the kind, inode number and size of the file, when it is a file or a
    directory whose status can be read. *)
Lemma ls_dir path fd st entries : open_ path = fd -> 0 <= fd -> fstat_ fd = Some st -> st_type st = T_DIR ->
  Z.of_nat (length path) + 16 <= 512 -> Forall (fun e => SLASH ∉ cname (take 14 e.2)) entries ->
  (forall e, e ∈ entries -> e.1 <> 0 -> stat_ (path ++ [SLASH] ++ cname (take 14 e.2)) <> None) ->
  ls path entries = header ++ concat ((fun e : Z * list Z =>
    if e.1 =? 0 then [] else
    match stat_ (path ++ [SLASH] ++ cname (take 14 e.2)) with
    | Some s => if st_type s =? T_FILE then [row FILE (pad (cname (take 14 e.2))) s] else if st_type s =? T_DIR then [row DIR (pad (cname (take 14 e.2))) s] else []
    | None => []
    end) <$> entries).
Proof.
  intros Eo Hfd Es Et Hlen Hs Hst. unfold ls. rewrite Eo, (proj2 (Z.ltb_ge _ _)), Es, Et by done. change (T_DIR =? T_FILE) with false. change (T_DIR =? T_DIR) with true.
  cbv iota. unfold DIRSIZ at 1. rewrite (proj2 (Z.ltb_ge _ _)) by lia. f_equal. clear Eo Es Et Hlen.
  induction entries as [|[inum name] entries IH]; [done|]. apply Forall_cons in Hs as [Hn Hs]. cbn [ls_entries fmap list_fmap concat fst snd] in *.
  rewrite IH; [|done|intros e He; apply Hst; by right]. f_equal. destruct (Z.eqb_spec inum 0) as [|Hi]; [done|].
  change (Z.to_nat DIRSIZ) with 14%nat. specialize (Hst (inum, name) ltac:(left) Hi). cbn [snd] in Hst.
  destruct (stat_ (path ++ [SLASH] ++ cname (take 14 name))) as [s|]; [|done]. unfold lsfmtprint.
  pose proof (cname_length (take 14 name)) as Hl. rewrite length_take in Hl. rewrite fmtname_entry by (done || (unfold DIRSIZ; lia)). done.
Qed.

End Ls.

End Ls.
